(* ===== verification/_CoqProject ===== *)
-Q . S2P
Prelude.v
PyValue.v
PyJson.v
Services.v
Leases.v
LeasesInv.v
LeasesOps.v
LeasesThm.v
Sha256.v
PyBytes.v
HttpResponse.v
HttpRoundtrip.v
Receipts.v
ReceiptsInv.v
ReceiptsOps.v
ReceiptsThm.v
CanonJson.v
Scope.v
Dispatch.v
DispatchInv.v
DispatchOps.v
DispatchThm.v
CloseoutThm.v
Supervision.v
SupervisionThm.v
RunOutcome.v
VenueAge.v
PermitModel.v
PermitThm.v
PyTime.v
AccountingPolicy.v
AccountingThm.v
Bridge.v
HttpRequest.v
HttpRequestThm.v
JsonParse.v
JsonParseThm.v
JsonRoundtrip.v
Routes.v
RoutesThm.v
RouteTotal.v
JournalValue.v
JournalSource.v
JournalRecords.v
JournalClaims.v
JournalSeal.v
JournalStored.v
JournalAccepts.v
JournalSealThm.v
JournalSourceThm.v
JournalState.v
JournalPlan.v
JournalVerify.v
JournalClaimPlan.v
JournalEffects.v
JournalClaimVerify.v
JournalReplay.v
JournalCopies.v
JournalFrontThm.v
JournalClaimThm.v
JournalReplayThm.v
JournalInv.v
JournalSafe.v
JournalBounds.v
JournalAnchor.v
JournalAnchorThm.v
JournalStore.v
Hoare.v
JournalStoreThm.v
JournalAppendThm.v
RecoveryJournal.v
RecoveryCommit.v
RecoveryOps.v
RecoveryLive.v
RecoveryOpen.v
RecoveryRestart.v
RecoveryReopen.v
RecoveryCreate.v
RecoveryThm.v
JournalReports.v
