(* ===== verification/Prelude.v ===== *)
(** * Verification of the Receiver / Forwarder core

    The program (src/grafana_jsm_sandbox) is a sandbox in which a *Receiver*
    turns alert notifications into supervised Runs, and a *Forwarder* is the only
    way from a Run to the outside world.  This library models the parts that
    decide, each a file of pure or state-passing definitions named after the
    Python functions, and proves what the other parts rely on.

    ** The parts and their files

    _Foundations._  [Prelude]: a Python call is an [outcome] ([Ret] or [Raise] of
    an exception class and code), a method of a stateful object a state monad
    over it.  [PyValue] (binary64 floats, values whose exact type the code tests),
    [PyBytes] ([bytes]/[str] methods), [PyJson] (lengths of [json.dumps]), [PyTime]
    ([datetime]), [Sha256].

    _Forwarder: who may send._  [Leases] is forwarder_leases.py, [Receipts]
    forwarder_receipts.py, [Dispatch] forwarder_dispatch.py: the gate holds a
    registry and a ledger and calls both under its lock G.  [LeasesInv],
    [ReceiptsInv], [DispatchInv] hold each part's well-formedness and what every
    call may change; [..Ops] the step of each public method and runs of any
    sequence of calls; [LeasesThm], [ReceiptsThm], [DispatchThm], [CloseoutThm]
    the theorems.  [PermitModel]/[PermitThm] are forwarder_permit_model.py,
    [Services] forwarder_services.py.

    _Forwarder: what may be sent._  [HttpRequest]/[HttpRequestThm] are
    forwarder_http.py, [HttpResponse]/[HttpRoundtrip] forwarder_http_response.py,
    [CanonJson] and [JsonParse] (theorems in [JsonParseThm], [JsonRoundtrip])
    forwarder_json.py, [Scope] and [Routes] (theorems in [RoutesThm],
    [RouteTotal]) forwarder_routes.py.  A request passes
    [HttpRequest.parse_request], then [Routes.route], then the gate; the answer
    passes [HttpResponse.parse_response], then [Routes.check_response].

    _Receiver: the recovery journal._  An append-only log of canonical records,
    from which a restart rebuilds the state.  [JournalValue], [JournalSource]
    (journal_source.py); [JournalRecords], [JournalClaims], [JournalSeal]
    (journal_records.py: validators, envelope, sealing); [JournalState],
    [JournalPlan], [JournalClaimPlan], [JournalEffects] (journal_reducer.py: the
    projection and the plans), [JournalVerify], [JournalClaimVerify],
    [JournalReplay] (verification and replay of commits).  A plan function seals
    the records of one commit; the commit passes [verify_commit] and its change is
    applied with [apply_delta], live and on every later open.  Theorems:
    [JournalSealThm], [JournalSourceThm] (records are read back),
    [JournalCopies], [JournalFrontThm], [JournalClaimThm], [JournalReplayThm]
    (what is planned is replayed), [JournalInv], [JournalSafe], [JournalBounds]
    (what holds of every history that replays).

    _Receiver: the journal on disk._  [JournalAnchor] and [JournalStore] are
    journal_store.py: the anchor file with its two slots, the table, the checks
    of an open, the row scan, [append].  [RecoveryJournal] is recovery_journal.py:
    the handle that owns a store and a projection; [admit_source], [record_refusal],
    [record_restart_run_hold] plan a commit and pass it to [_commit], the only
    write path; [open_recovery_journal] replays the rows, compares their head
    with the anchor, and commits the restart and, when asked, the resume.
    [JournalAnchorThm]: a slot is written whole or not at all.  [Hoare]: a logic
    of state monads, [ends m s Q E]: run from [s], [m] returns in [Q] or raises
    in [E].  [JournalStoreThm], [JournalAppendThm]: the operations of the store.
    [RecoveryCommit], [RecoveryOps]: each call keeps disk, anchor and projection
    in step; [RecoveryOpen], [RecoveryRestart]: so does an open, from whatever a
    crash left; [RecoveryCreate]: the first state.  [RecoveryLive],
    [RecoveryReopen]: with an I/O that works, admissions and opens go through.
    [RecoveryThm]: sequences of calls, and what a user may rely on.
    [JournalReports]: what recovery_journal.py only reports (snapshot, front-door
    status, pending alerts, the inspection and the claim view) with the digests
    of the claim families in journal_reducer.py; an inspection writes nothing and
    foretells what the next open finds.

    _Receiver: Runs and accounting._  [Supervision] (run_supervision_policy.py,
    run_supervision_reducer.py), [RunOutcome] (run_outcome.py), [AccountingPolicy]
    (accounting_policy.py), [Bridge] (reservation_bridge.py), [VenueAge]
    (venue_age.py).

    ** What the theorems show

    - Gate, registry, ledger: for any clocks, any sequence of calls and any forged
      handles, admission and write authority come from a lease that is active at
      that moment with exactly the caller's scope and generation; ended leases,
      closeouts and shutdowns are final; an exchange whose request may have left
      is never reported unsent; everything retained is bounded.
    - Journal: what a plan seals is accepted by replay, from the records and from
      the stored bodies; a restart rebuilds exactly the projection the live
      journal had.  Of every history that replays, wherever it came from: a claim
      is never rewritten, claims come in their causal order, a hold is lifted only
      by an operator's resume, a Run that is stopped or held is granted nothing
      further (the theorem lists what), the journal's declared bounds hold, and
      the digest of its state can be computed.
    - Journal on disk: whatever SQLite and the file system answer, and wherever
      the process dies, the table holds a live history and the anchor its last
      commit or the one before; an acknowledged admission stays; a disk that is
      not damaged is never condemned, and can be opened again as long as there is
      room for the restart record; a handle that is held or closed does nothing.
    - Routes and codecs: an accepted request is inside its scope manifest and asks
      for what the caller asked, an accepted response answers it, routing always answers, what is written is read back, a path that
      is accepted cannot climb.
    - Supervision, permits, accounting, venue age: schedules and proposals are
      within their limits, permits are one-use (a refinement of a phase machine
      per permit), derived age bounds are sound.

    ** How the code's notions are modelled

    - A clock is a function from the number of the reading to the value read, or a
      fault; nothing is assumed of it.  Token sources are streams, injective where
      a theorem needs fresh tokens.  Monotonic times are binary64 floats; where
      deadlines are integers they are below 2^53, hence exact.
    - Methods run under one lock each, so each is one atomic step.  Abort callables
      are recorded when they are called, may raise, and do not re-enter.
    - Objects compared with [is] are the number of their allocation; a caller may
      present any number.  A [RoutedRequest] is its contents and that number.
    - A [str] is a [string] of code points below 256, except in parsed JSON text,
      which is a list of code points.  Dicts are [gmap]s where the code only looks
      up and updates, association lists where it keeps their order; the keys of
      journal dicts are [str], and a frozen view of a dict is the dict.
    - SQLite and the file system are a stream of answers ([JournalStore.io]): an
      operation works, or raises an error of the stream's choice and leaves the
      bytes of its write that the stream chooses ([Fatal] is a crash there).  A
      COMMIT is atomic; the table is what SQLite has committed and keeps.  What
      an open only reads of its host is the record [JournalStore.Host].
    - That a torn slot does not by chance carry the SHA-256 of another is assumed
      where it matters ([settled_writes], of the writes that happened).
    - Typed parameters: the time-zone database ([to_local], [to_utc] of
      AccountingPolicy).  base64, [json.loads] and [datetime] are the standard
      library's and are modelled as documented.

    ** Fuel

    Recursion that Python bounds by its data is bounded by fuel, and shown not to
    run out: [JsonParse.json_loads] gets 2*length+2 ([json_loads_has_enough_fuel]),
    [_postwalk] the size of the tree, [split] the length of the text and one.  The
    fixed-point loop that sizes a ledger entry gets [FIXED_POINT_FUEL] rounds; the
    digits of the length grow at most that often.

    ** Not modelled

    Sockets, TLS, threads, child processes, HTTP servers and the file system
    (forwarder_exchange and the other shells around the parts above); the
    accounting store; the archive, audit and evidence tools, which read what the
    parts write; the decoding of webhook bodies and the messages of the control
    socket; presentation (cards, reports, logs); src/prototype, which is not part
    of the program.  PROJECT.json lists every one. *)

From stdpp Require Export base tactics list gmap strings option numbers relations.
From Stdlib Require Export Ascii.

(** ** Outcomes of a Python call

    A call either returns a value or raises an exception.  The code base raises
    exceptions that carry a fixed [code] and nothing else, so an exception is
    its class name and its code. *)
Record exn := Exn { exn_class : string; exn_code : string }.

Inductive outcome (A : Type) :=
| Ret (a : A)
| Raise (e : exn).
Arguments Ret {A} a.
Arguments Raise {A} e.

#[export] Instance exn_eq_dec : EqDecision exn.
Proof. solve_decision. Defined.

#[export] Instance outcome_ret : MRet outcome := λ A a, Ret a.
#[export] Instance outcome_bind : MBind outcome :=
  λ A B k o, match o with Ret a => k a | Raise e => Raise e end.

(** [if not b: raise e] in a pure function. *)
Definition check_that (b : bool) (e : exn) : outcome unit :=
  if b then Ret tt else Raise e.

(** [for x in xs: acc = f(acc, x)] in a pure function that may raise. *)
Fixpoint fold_outcome {A B} (f : A → B → outcome A) (acc : A) (xs : list B) : outcome A :=
  match xs with
  | [] => Ret acc
  | x :: xs' => match f acc x with Ret acc' => fold_outcome f acc' xs' | Raise e => Raise e end
  end.

(** An invariant of the loop, indexed by the part of the list it has passed. *)
Lemma fold_outcome_ind {A B} (f : A → B → outcome A) (P : list B → A → Prop) xs acc acc' :
  fold_outcome f acc xs = Ret acc' →
  P [] acc →
  (∀ done x rest a a', xs = done ++ x :: rest → P done a → f a x = Ret a' → P (done ++ [x]) a') →
  P xs acc'.
Proof.
  intros Hf H0 Hstep. cut (∀ rest done a, xs = done ++ rest → P done a → fold_outcome f a rest = Ret acc' → P xs acc').
  { intros H. by apply (H xs [] acc). }
  induction rest as [|x rest IH]; intros done a Hxs Ha Hr; cbn in Hr.
  - injection Hr as ->. by rewrite Hxs, app_nil_r.
  - destruct (f a x) as [a'|] eqn:E; [|done]. apply (IH (done ++ [x]) a'); [by rewrite <-app_assoc| |done].
    by eapply Hstep.
Qed.

Definition returned {A} (o : outcome A) : bool := match o with Ret _ => true | Raise _ => false end.
Definition some_b {A} (o : option A) : bool := match o with Some _ => true | None => false end.

(** A returned value that passes a test. *)
Definition holds {A} (P : A → bool) (o : outcome A) : bool := match o with Ret a => P a | Raise _ => false end.

Lemma holds_true {A} (P : A → bool) (o : outcome A) : holds P o = true → ∃ a, o = Ret a ∧ P a = true.
Proof. destruct o; [eauto|done]. Qed.

Lemma some_b_true {A} (o : option A) : some_b o = true → ∃ a, o = Some a.
Proof. destruct o; [eauto|done]. Qed.

(** ** Stateful calls

    A method on a mutable object of state [S] is a function from the state to
    an outcome and the new state.  The new state is there for a raised
    exception too: what was mutated before the [raise] stays mutated. *)
Definition st (S A : Type) : Type := S → outcome A * S.

#[export] Instance st_ret S : MRet (st S) := λ A a s, (Ret a, s).
#[export] Instance st_bind S : MBind (st S) :=
  λ A B k m s,
    match m s with
    | (Ret a, s') => k a s'
    | (Raise e, s') => (Raise e, s')
    end.

Section st_ops.
Context {S : Type}.

Definition gets {A} (f : S → A) : st S A := λ s, (Ret (f s), s).
Definition modify (f : S → S) : st S unit := λ s, (Ret tt, f s).
Definition raise {A} (e : exn) : st S A := λ s, (Raise e, s).
Definition require (b : bool) (e : exn) : st S unit := λ s,
  if b then (Ret tt, s) else (Raise e, s).
Definition lift_outcome {A} (o : outcome A) : st S A := λ s, (o, s).

(** [try: m except: ...] with the exception turned into a value. *)
Definition attempt {A} (m : st S A) : st S (outcome A) := λ s,
  let '(o, s') := m s in (Ret o, s').

(** [for x in xs: f(x)]. *)
Fixpoint for_each {A} (xs : list A) (f : A → st S unit) : st S unit :=
  match xs with
  | [] => mret tt
  | x :: xs' => f x ≫= λ _, for_each xs' f
  end.

(** A call on an object held in a field of [S]. *)
Definition zoom {T A} (get : S → T) (put : T → S → S) (m : st T A) : st S A :=
  λ s, let '(o, t) := m (get s) in (o, put t s).
End st_ops.

(** *** Inversion of a successful or failing sequence of calls *)

Section st_inversion.
Context {S A B : Type}.
Implicit Types (m : st S A) (k : A → st S B) (s : S).

Lemma bind_ret_inv m k s b s'' :
  (m ≫= k) s = (Ret b, s'') →
  ∃ a s', m s = (Ret a, s') ∧ k a s' = (Ret b, s'').
Proof.
  unfold mbind, st_bind. destruct (m s) as [[a|e] s'] eqn:Hm; [eauto | congruence].
Qed.

Lemma bind_raise_inv m k s e s'' :
  (m ≫= k) s = (Raise e, s'') →
  m s = (Raise e, s'') ∨ ∃ a s', m s = (Ret a, s') ∧ k a s' = (Raise e, s'').
Proof.
  unfold mbind, st_bind.
  destruct (m s) as [[a|e'] s'] eqn:Hm; [right; eauto | left; congruence].
Qed.

Lemma bind_ret_eq m k s a s' : m s = (Ret a, s') → (m ≫= k) s = k a s'.
Proof. unfold mbind, st_bind. by intros ->. Qed.

Lemma bind_raise_eq m k s e s' : m s = (Raise e, s') → (m ≫= k) s = (Raise e, s').
Proof. unfold mbind, st_bind. by intros ->. Qed.
End st_inversion.

Lemma bind_modify {S B} (f : S → S) (k : unit → st S B) s : (modify f ≫= k) s = k tt (f s).
Proof. done. Qed.

Lemma bind_gets {S A B} (f : S → A) (k : A → st S B) s : (gets f ≫= k) s = k (f s) s.
Proof. done. Qed.

Lemma require_ret_inv {S} b e (s s' : S) u :
  require b e s = (Ret u, s') → b = true ∧ s' = s.
Proof. unfold require. destruct b; naive_solver. Qed.

Lemma gets_ret_inv {S A} (f : S → A) s a s' :
  gets f s = (Ret a, s') → a = f s ∧ s' = s.
Proof. unfold gets. naive_solver. Qed.

Lemma modify_ret_inv {S} (f : S → S) s u s' :
  modify f s = (Ret u, s') → s' = f s.
Proof. unfold modify. naive_solver. Qed.

Lemma lift_ret_inv {S A} (o : outcome A) (s s' : S) a :
  lift_outcome o s = (Ret a, s') → o = Ret a ∧ s' = s.
Proof. unfold lift_outcome. naive_solver. Qed.

Lemma mret_ret_inv {S A} (x : A) (s s' : S) a :
  (mret x : st S A) s = (Ret a, s') → a = x ∧ s' = s.
Proof. unfold mret, st_ret. naive_solver. Qed.

Lemma attempt_ret_inv {S A} (m : st S A) s o s' :
  attempt m s = (Ret o, s') → m s = (o, s').
Proof. unfold attempt. destruct (m s). naive_solver. Qed.

Lemma raise_ret_inv {S A} e (s s' : S) (a : A) :
  raise e s = (Ret a, s') → False.
Proof. unfold raise. congruence. Qed.

Lemma outcome_bind_ret_inv {A B} (o : outcome A) (k : A → outcome B) b :
  (o ≫= k) = Ret b → ∃ a, o = Ret a ∧ k a = Ret b.
Proof. destruct o; [eauto | discriminate]. Qed.

Lemma check_that_ret_inv b e u : check_that b e = Ret u → b = true.
Proof. unfold check_that. destruct b; naive_solver. Qed.

(** [inv_do H] takes the hypothesis that a sequence of calls returned and
    leaves one hypothesis per call. *)
Ltac inv_do_step :=
  match goal with
  | H : require _ _ _ = (Ret _, _) |- _ => apply require_ret_inv in H as [H ->]
  | H : gets _ _ = (Ret _, _) |- _ => apply gets_ret_inv in H as [-> ->]
  | H : modify _ _ = (Ret _, _) |- _ => apply modify_ret_inv in H as ->
  | H : lift_outcome _ _ = (Ret _, _) |- _ => apply lift_ret_inv in H as [H ->]
  | H : mret _ _ = (Ret _, _) |- _ => apply mret_ret_inv in H as [-> ->]
  | H : attempt _ _ = (Ret _, _) |- _ => apply attempt_ret_inv in H
  | H : raise _ _ = (Ret _, _) |- _ => by apply raise_ret_inv in H
  | H : check_that _ _ = Ret _ |- _ => apply check_that_ret_inv in H
  | H : mbind _ _ _ = (Ret _, _) |- _ =>
      let a := fresh "a" in let s := fresh "s" in let H' := fresh "H" in
      apply bind_ret_inv in H as (a & s & H' & H)
  | H : mbind _ _ = Ret _ |- _ =>
      let a := fresh "a" in let H' := fresh "H" in
      apply outcome_bind_ret_inv in H as (a & H' & H)
  end.
Ltac inv_do := repeat inv_do_step.

(** *** Relations every call stays within

    [within R m]: [m] moves the state along [R], whether it returns or raises. *)
Definition within {S A} (R : S → S → Prop) (m : st S A) : Prop := ∀ s, R s (m s).2.

Section within.
Context {S : Type} (R : S → S → Prop) `{!Reflexive R, !Transitive R}.

Lemma within_ret {A} (a : A) : within R (mret a).
Proof. intros s. unfold mret, st_ret. simpl. reflexivity. Qed.

Lemma within_gets {A} (f : S → A) : within R (gets f).
Proof. intros s. simpl. reflexivity. Qed.

Lemma within_raise {A} e : within R (@raise S A e).
Proof. intros s. simpl. reflexivity. Qed.

Lemma within_require b e : within R (require b e).
Proof. intros s. unfold require. destruct b; simpl; reflexivity. Qed.

Lemma within_lift {A} (o : outcome A) : within R (lift_outcome o).
Proof. intros s. simpl. reflexivity. Qed.

Lemma within_modify f : (∀ s, R s (f s)) → within R (modify f).
Proof. intros Hf s. simpl. apply Hf. Qed.

Lemma within_bind {A B} (m : st S A) (k : A → st S B) :
  within R m → (∀ a, within R (k a)) → within R (m ≫= k).
Proof.
  intros Hm Hk s. unfold mbind, st_bind. specialize (Hm s).
  destruct (m s) as [[a|e] s'] eqn:E; simpl in *; [|done].
  transitivity s'; [done|]. apply Hk.
Qed.

Lemma within_attempt {A} (m : st S A) : within R m → within R (attempt m).
Proof. intros Hm s. specialize (Hm s). unfold attempt. by destruct (m s) as [o s']. Qed.

Lemma within_for_each {A} (xs : list A) (f : A → st S unit) :
  (∀ x, within R (f x)) → within R (for_each xs f).
Proof.
  intros Hf. induction xs as [|x xs IH]; simpl; [apply within_ret|].
  apply within_bind; [apply Hf|]. intros _. apply IH.
Qed.

(** After [gets] the rest runs in the state that was read. *)
Lemma within_gets_bind {A B} (f : S → A) (k : A → st S B) :
  (∀ s, R s (k (f s) s).2) → within R (gets f ≫= k).
Proof. intros H s. unfold mbind, st_bind, gets. apply H. Qed.
End within.

(** [within_step] applies the rule of the outermost call; [within_auto] does it
    repeatedly, closing the calls a lemma of the database [within] covers. *)
Create HintDb within.
Ltac within_step :=
  match goal with
  | |- within _ (mret _) => apply within_ret, _
  | |- within _ (gets _) => apply within_gets, _
  | |- within _ (raise _) => apply within_raise, _
  | |- within _ (require _ _) => apply within_require, _
  | |- within _ (lift_outcome _) => apply within_lift, _
  | |- within _ (attempt _) => apply within_attempt
  | |- within _ (for_each _ _) => apply within_for_each; [apply _ | apply _ | intros]
  | |- within _ (mbind _ _) => apply within_bind; [apply _ | | intros]
  | |- within _ (if ?b then _ else _) => destruct b eqn:?
  | |- within _ (let '(_, _) := ?x in _) => destruct x
  | |- within _ (match ?x with _ => _ end) => destruct x eqn:?
  end.
Ltac within_auto :=
  repeat first [ solve [auto with within nocore] | progress within_step ].

(** *** Calls that only look

    [reads m s P]: [m] leaves [s] as it is, and a value it returns satisfies
    [P]. *)
Definition reads {S A} (m : st S A) (s : S) (P : A → Prop) : Prop :=
  (m s).2 = s ∧ ∀ a, (m s).1 = Ret a → P a.

Section reads.
Context {S : Type}.

Lemma reads_lift {A} (o : outcome A) (s : S) : reads (lift_outcome o) s (λ a, o = Ret a).
Proof. by split. Qed.

Lemma reads_require b e (s : S) : reads (require b e) s (λ _, b = true).
Proof. unfold reads, require. by destruct b. Qed.

Lemma reads_gets {A} (f : S → A) s : reads (gets f) s (λ a, a = f s).
Proof. split; [done|]. by intros a [= ->]. Qed.

Lemma reads_ret {A} (a : A) (s : S) : reads (mret a) s (λ a', a' = a).
Proof. split; [done|]. by intros ? [= ->]. Qed.

Lemma reads_raise {A} e (s : S) : reads (@raise S A e) s (λ _, False).
Proof. by split. Qed.

Lemma reads_bind {A B} (m : st S A) (k : A → st S B) s P Q :
  reads m s P → (∀ a, P a → reads (k a) s Q) → reads (m ≫= k) s Q.
Proof.
  unfold reads, mbind, st_bind. destruct (m s) as [[a|e] s']; cbn; intros [-> HP] Hk; [|done].
  apply Hk, HP, eq_refl.
Qed.

Lemma reads_impl {A} (m : st S A) s (P Q : A → Prop) :
  reads m s P → (∀ a, P a → Q a) → reads m s Q.
Proof. intros [? HP] HPQ. split; auto. Qed.

Lemma step_reads (R : S → S → Prop) `{!Reflexive R} {A B} (m : st S A) (k : A → st S B) s P :
  reads m s P → (∀ a, P a → R s (k a s).2) → R s ((m ≫= k) s).2.
Proof.
  unfold reads, mbind, st_bind. destruct (m s) as [[a|e] s']; cbn; intros [-> HP] Hk; [|reflexivity].
  apply Hk, HP, eq_refl.
Qed.

Lemma reads_inv {A B} (m : st S A) (k : A → st S B) s P b s' :
  (m ≫= k) s = (Ret b, s') → reads m s P → ∃ a, P a ∧ k a s = (Ret b, s').
Proof.
  unfold reads, mbind, st_bind. destruct (m s) as [[a|e] s1]; cbn; intros H [-> HP]; [|done].
  exists a. auto.
Qed.

(** A call that runs in the state another call left. *)
Lemma step_within (R : S → S → Prop) `{!Transitive R} {A B} (m : st S A) (k : A → st S B) s :
  within R m → (∀ a s', m s = (Ret a, s') → R s' (k a s').2) → R s ((m ≫= k) s).2.
Proof.
  intros Hm Hk. specialize (Hm s). unfold mbind, st_bind. destruct (m s) as [[a|e] s'] eqn:E; cbn in *.
  - transitivity s'; [done|]. by apply Hk.
  - done.
Qed.
End reads.

(** [read_step] passes one call that only looks, in a goal on the final state
    of a sequence or in a [reads] goal. *)
Create HintDb reads.
#[export] Hint Resolve reads_lift reads_require reads_gets reads_ret reads_raise : reads.
Ltac read_step :=
  match goal with
  | |- reads (mbind _ _) _ _ => eapply reads_bind; [solve [eauto with reads nocore] | cbn beta; intros]
  | |- _ _ (mbind _ _ _).2 => eapply step_reads; [apply _ | solve [eauto with reads nocore] | cbn beta; intros]
  end.
(** The same for the hypothesis that the sequence returned. *)
Ltac read_inv H :=
  let a := fresh "a" in let P := fresh "P" in
  eapply reads_inv in H; [|solve [eauto with reads nocore]];
  cbn beta in H; destruct H as (a & P & H); cbn beta in H.
(** The last call of a [reads] goal. *)
Ltac read_last := eapply reads_impl; [solve [eauto with reads nocore] | cbn beta; intros].

(** ** Python dictionaries

    A dictionary keeps insertion order and the code iterates over it, so it is
    an association list: assigning to a present key keeps its position, and a
    new key goes to the end. *)
Definition dict (K V : Type) : Type := list (K * V).

Section dict.
Context {K V : Type} `{!EqDecision K}.
Implicit Types (d : dict K V) (k : K) (v : V).

Fixpoint dict_get d k : option V :=
  match d with
  | [] => None
  | (k', v) :: d' => if decide (k' = k) then Some v else dict_get d' k
  end.

Fixpoint dict_set d k v : dict K V :=
  match d with
  | [] => [(k, v)]
  | (k', v') :: d' => if decide (k' = k) then (k', v) :: d' else (k', v') :: dict_set d' k v
  end.

(** In-place mutation of the object stored under [k]. *)
Fixpoint dict_alter (f : V → V) d k : dict K V :=
  match d with
  | [] => []
  | (k', v') :: d' => if decide (k' = k) then (k', f v') :: d' else (k', v') :: dict_alter f d' k
  end.

Fixpoint dict_pop d k : dict K V :=
  match d with
  | [] => []
  | (k', v') :: d' => if decide (k' = k) then d' else (k', v') :: dict_pop d' k
  end.

Definition dict_keys d : list K := d.*1.
Definition dict_values d : list V := d.*2.
Definition dict_ok d : Prop := NoDup (dict_keys d).

Lemma dict_get_elem d k v : dict_get d k = Some v → (k, v) ∈ d.
Proof.
  induction d as [|[k' v'] d IH]; simpl; [done|].
  case_decide; intros; simplify_eq; set_solver.
Qed.

Lemma elem_dict_get d k v : dict_ok d → (k, v) ∈ d → dict_get d k = Some v.
Proof.
  unfold dict_ok, dict_keys. induction d as [|[k' v'] d IH]; simpl; [set_solver|].
  intros [Hk Hd]%NoDup_cons Hin. case_decide; subst.
  - apply elem_of_cons in Hin as [Hin|Hin]; [congruence|].
    exfalso. apply Hk. apply list_elem_of_fmap. by exists (k, v).
  - apply IH; [done|]. set_solver.
Qed.

Lemma dict_get_values d v :
  dict_ok d → v ∈ dict_values d ↔ ∃ k, dict_get d k = Some v.
Proof.
  intros Hd. unfold dict_values. rewrite list_elem_of_fmap. split.
  - intros ([k v'] & -> & Hin). exists k. by apply elem_dict_get.
  - intros [k Hk]. exists (k, v). split; [done|]. by apply dict_get_elem.
Qed.

Lemma dict_get_keys d k : k ∈ dict_keys d ↔ is_Some (dict_get d k).
Proof.
  unfold dict_keys. induction d as [|[k' v'] d IH]; simpl.
  - split; [set_solver | by intros []].
  - case_decide; [split; [eauto|set_solver] |].
    rewrite elem_of_cons, IH. naive_solver.
Qed.

Lemma dict_get_none d k : dict_get d k = None ↔ k ∉ dict_keys d.
Proof. rewrite dict_get_keys, <-eq_None_not_Some. done. Qed.

Lemma dict_get_set d k v k' :
  dict_get (dict_set d k v) k' = if decide (k = k') then Some v else dict_get d k'.
Proof.
  induction d as [|[k1 v1] d IH]; simpl; [done|].
  repeat (case_decide; simpl; try congruence).
Qed.

Lemma dict_get_alter f d k k' :
  dict_get (dict_alter f d k) k' = if decide (k = k') then f <$> dict_get d k' else dict_get d k'.
Proof.
  induction d as [|[k1 v1] d IH]; simpl; [by case_decide|].
  repeat (case_decide; simpl; try congruence).
Qed.

Lemma dict_get_pop d k k' :
  dict_ok d → dict_get (dict_pop d k) k' = if decide (k = k') then None else dict_get d k'.
Proof.
  unfold dict_ok, dict_keys. induction d as [|[k1 v1] d IH]; simpl; [by case_decide|].
  intros [Hk Hd]%NoDup_cons. specialize (IH Hd).
  repeat (case_decide; simpl; try congruence).
  subst. by apply dict_get_none.
Qed.

Lemma dict_keys_alter f d k : dict_keys (dict_alter f d k) = dict_keys d.
Proof.
  unfold dict_keys. induction d as [|[k1 v1] d IH]; csimpl; [done|].
  case_decide; csimpl; [done | by rewrite IH].
Qed.

Lemma dict_keys_set d k v :
  dict_keys (dict_set d k v) = dict_keys d ++ (if decide (k ∈ dict_keys d) then [] else [k]).
Proof.
  unfold dict_keys. induction d as [|[k1 v1] d IH]; [done|]. csimpl.
  destruct (decide (k1 = k)) as [->|Hne]; csimpl.
  - rewrite decide_True by (apply elem_of_cons; by left). by rewrite app_nil_r.
  - rewrite IH. simpl. do 2 f_equal. apply decide_ext. rewrite elem_of_cons. naive_solver.
Qed.

Lemma dict_keys_pop d k k' :
  k' ∈ dict_keys (dict_pop d k) → k' ∈ dict_keys d.
Proof.
  unfold dict_keys. induction d as [|[k1 v1] d IH]; simpl; [done|].
  case_decide; set_solver.
Qed.

(** Every value replaced. *)
Definition dict_map (f : V → V) d : dict K V := map (λ kv, (kv.1, f kv.2)) d.

Lemma dict_get_map f d k : dict_get (dict_map f d) k = f <$> dict_get d k.
Proof. induction d as [|[k1 v1] d IH]; cbn; [done|]. by case_decide. Qed.

Lemma dict_keys_map f d : dict_keys (dict_map f d) = dict_keys d.
Proof. unfold dict_keys, dict_map. induction d as [|[k1 v1] d IH]; cbn; [done|]. by f_equal. Qed.

Lemma dict_get_pop_some d k k' v :
  dict_ok d → dict_get (dict_pop d k) k' = Some v → dict_get d k' = Some v.
Proof. intros Hd. rewrite dict_get_pop by done. by case_decide. Qed.

Lemma dict_get_pop_none d k k' : dict_get d k' = None → dict_get (dict_pop d k) k' = None.
Proof.
  induction d as [|[k1 v1] d IH]; simpl; [done|]. case_decide; [done|].
  intros Hn. case_decide; [done|]. cbn. rewrite decide_False by done. auto.
Qed.

Lemma dict_pop_absent d k : dict_get d k = None → dict_pop d k = d.
Proof. induction d as [|[k1 v1] d IH]; simpl; [done|]. case_decide; [done|]. intros. by rewrite IH. Qed.

Lemma length_dict_set_le d k v : length (dict_set d k v) ≤ S (length d).
Proof. induction d as [|[k1 v1] d IH]; simpl; [lia|]. case_decide; simpl; lia. Qed.

Lemma dict_ok_alter f d k : dict_ok d → dict_ok (dict_alter f d k).
Proof. unfold dict_ok. by rewrite dict_keys_alter. Qed.

Lemma dict_ok_set d k v : dict_ok d → dict_ok (dict_set d k v).
Proof.
  unfold dict_ok. rewrite dict_keys_set. intros Hd. case_decide; [by rewrite app_nil_r|].
  apply NoDup_app. repeat split; [done| |apply NoDup_singleton]. set_solver.
Qed.

Lemma dict_ok_pop d k : dict_ok d → dict_ok (dict_pop d k).
Proof.
  unfold dict_ok. induction d as [|[k1 v1] d IH]; simpl; [done|].
  unfold dict_keys in *; simpl. intros [Hk Hd]%NoDup_cons. case_decide; [done|].
  simpl. apply NoDup_cons. split; [|by apply IH].
  intros Hin. apply Hk. by apply (dict_keys_pop d k k1).
Qed.

Lemma dict_ok_nil : dict_ok [].
Proof. apply NoDup_nil_2. Qed.

Lemma dict_set_fresh d k v : dict_get d k = None → dict_set d k v = d ++ [(k, v)].
Proof.
  induction d as [|[k1 v1] d IH]; simpl; [done|]. case_decide; [done|].
  intros. by rewrite IH.
Qed.

Lemma dict_alter_id f d k v : dict_get d k = Some v → f v = v → dict_alter f d k = d.
Proof.
  induction d as [|[k1 v1] d IH]; simpl; [done|]. case_decide; intros; simplify_eq.
  - congruence.
  - f_equal. eauto.
Qed.

Lemma length_dict_alter f d k : length (dict_alter f d k) = length d.
Proof. induction d as [|[k1 v1] d IH]; simpl; [done|]. case_decide; simpl; congruence. Qed.

Lemma length_dict_pop_le d k : length (dict_pop d k) ≤ length d.
Proof. induction d as [|[k1 v1] d IH]; simpl; [done|]. case_decide; simpl; lia. Qed.

(** The sum of a per-value weight: what the code keeps as a running counter. *)
Definition dict_sum (w : V → Z) d : Z := foldr (λ kv acc, (w kv.2 + acc)%Z) 0%Z d.

Lemma dict_sum_app w d1 d2 : dict_sum w (d1 ++ d2) = (dict_sum w d1 + dict_sum w d2)%Z.
Proof. induction d1 as [|[k v] d1 IH]; simpl in *; [done|]. unfold dict_sum in *. simpl. lia. Qed.

Lemma dict_sum_alter w f d k :
  (∀ v, dict_get d k = Some v → w (f v) = w v) → dict_sum w (dict_alter f d k) = dict_sum w d.
Proof.
  induction d as [|[k1 v1] d IH]; simpl; [done|]. case_decide; intros Hw.
  - unfold dict_sum. simpl. by rewrite Hw.
  - unfold dict_sum in *. simpl. by rewrite IH.
Qed.

Lemma dict_sum_pop w d k v :
  dict_get d k = Some v → dict_sum w (dict_pop d k) = (dict_sum w d - w v)%Z.
Proof.
  induction d as [|[k1 v1] d IH]; simpl; [done|]. case_decide; intros Hget; simplify_eq.
  - unfold dict_sum. simpl. lia.
  - unfold dict_sum in *. simpl. rewrite IH by done. lia.
Qed.

Lemma dict_sum_alter_le w f d k :
  (∀ v, dict_get d k = Some v → (w (f v) ≤ w v)%Z) →
  (dict_sum w (dict_alter f d k) ≤ dict_sum w d)%Z.
Proof.
  unfold dict_sum. induction d as [|[k1 v1] d IH]; simpl; [lia|].
  case_decide; simpl; intros Hw; [specialize (Hw v1 eq_refl) | specialize (IH Hw)]; lia.
Qed.

Lemma dict_sum_pop_le w d k :
  (∀ v, (0 ≤ w v)%Z) → (dict_sum w (dict_pop d k) ≤ dict_sum w d)%Z.
Proof.
  intros Hw. unfold dict_sum. induction d as [|[k1 v1] d IH]; simpl; [lia|].
  case_decide; simpl; [specialize (Hw v1)|]; lia.
Qed.

Lemma dict_sum_nonneg w d : (∀ v, (0 ≤ w v)%Z) → (0 ≤ dict_sum w d)%Z.
Proof.
  intros Hw. unfold dict_sum. induction d as [|[k1 v1] d IH]; simpl; [lia|].
  specialize (Hw v1). lia.
Qed.
End dict.

(** A filter that keeps nothing. *)
Lemma filter_none {A} (P : A → bool) (l : list A) x :
  (Z.of_nat (length (List.filter P l)) ≤ 0)%Z → x ∈ l → P x = false.
Proof.
  intros Hlen Hx. destruct (P x) eqn:E; [|done]. exfalso.
  assert (Hin : In x (List.filter P l)) by (apply filter_In; split; [by apply list_elem_of_In|done]).
  destruct (List.filter P l); [done|cbn in Hlen; lia].
Qed.

(** ** Strings and character classes

    A Python [str] is a [string]: its characters are the code points below
    256.  All the grammars in the code are ASCII, so this is enough to have
    strings each check accepts and strings it rejects. *)
Definition str_len (s : string) : Z := Z.of_nat (String.length s).

Fixpoint all_chars (P : ascii → bool) (s : string) : bool :=
  match s with
  | EmptyString => true
  | String c s' => P c && all_chars P s'
  end.

(** [c in frozenset("...")]. *)
Fixpoint char_in (alphabet : string) (c : ascii) : bool :=
  match alphabet with
  | EmptyString => false
  | String a alphabet' => bool_decide (a = c) || char_in alphabet' c
  end.

Definition str_in (x : string) (xs : list string) : bool := bool_decide (x ∈ xs).

Lemma str_in_spec x xs : str_in x xs = true ↔ x ∈ xs.
Proof. unfold str_in. apply bool_decide_eq_true. Qed.

Definition LETTERS_DIGITS : string :=
  "abcdefghijklmnopqrstuvwxyzABCDEFGHIJKLMNOPQRSTUVWXYZ0123456789".
Definition HEX_DIGITS : string := "0123456789abcdef".

(** *** Sets of strings and [sorted]

    The code collects codes in a [set] and returns [tuple(sorted(codes))]. *)
Definition set_add (x : string) (xs : list string) : list string := if str_in x xs then xs else xs ++ [x].
Definition add_if (b : bool) (x : string) (xs : list string) : list string := if b then set_add x xs else xs.

Fixpoint sorted_insert (x : string) (xs : list string) : list string :=
  match xs with
  | [] => [x]
  | y :: ys => if String.leb x y then x :: y :: ys else y :: sorted_insert x ys
  end.
Definition sorted (xs : list string) : list string := foldr sorted_insert [] xs.

Lemma sorted_insert_perm x xs : sorted_insert x xs ≡ₚ x :: xs.
Proof.
  induction xs as [|y ys IH]; cbn; [done|]. destruct (String.leb x y); [done|]. rewrite IH. apply Permutation_swap.
Qed.

Lemma sorted_perm xs : sorted xs ≡ₚ xs.
Proof. induction xs as [|x xs IH]; cbn; [done|]. by rewrite sorted_insert_perm, IH. Qed.

Lemma elem_of_sorted x xs : x ∈ sorted xs ↔ x ∈ xs.
Proof. by rewrite sorted_perm. Qed.

Lemma sorted_nil xs : sorted xs = [] ↔ xs = [].
Proof.
  split; [|by intros ->]. intros H. apply Permutation_nil. by rewrite <-H, sorted_perm.
Qed.

Lemma elem_of_set_add x y xs : y ∈ set_add x xs ↔ y = x ∨ y ∈ xs.
Proof.
  unfold set_add. destruct (str_in x xs) eqn:E; [apply str_in_spec in E; naive_solver|].
  rewrite elem_of_app, elem_of_cons, elem_of_nil. naive_solver.
Qed.

Lemma elem_of_add_if b x y xs : y ∈ add_if b x xs ↔ (b = true ∧ y = x) ∨ y ∈ xs.
Proof. unfold add_if. destruct b; [rewrite elem_of_set_add|]; naive_solver. Qed.

Lemma set_add_nil x xs : set_add x xs = [] ↔ False.
Proof.
  unfold set_add. destruct (str_in x xs) eqn:E; [|by destruct xs]. apply str_in_spec in E.
  split; [|done]. intros ->. by apply elem_of_nil in E.
Qed.

Lemma add_if_nil b x xs : add_if b x xs = [] ↔ b = false ∧ xs = [].
Proof. unfold add_if. destruct b; [rewrite set_add_nil|]; naive_solver. Qed.

(** Object identity: two Python objects are the same object when they were
    made by the same allocation. *)
Definition ref : Type := nat.

(** ** Automation *)
Create HintDb dict.
#[export] Hint Resolve dict_ok_alter dict_ok_set dict_ok_pop dict_ok_nil : dict.

Ltac bool_simpl :=
  repeat match goal with
  | H : _ && _ = true |- _ => apply andb_true_iff in H as [? ?]
  | H : _ || _ = false |- _ => apply orb_false_iff in H as [? ?]
  | H : negb _ = true |- _ => apply negb_true_iff in H
  | H : negb _ = false |- _ => apply negb_false_iff in H
  | H : bool_decide _ = true |- _ => apply bool_decide_eq_true in H
  | H : bool_decide _ = false |- _ => apply bool_decide_eq_false in H
  | H : (_ <=? _)%Z = true |- _ => apply Z.leb_le in H
  | H : (_ <=? _)%Z = false |- _ => apply Z.leb_gt in H
  | H : (_ <? _)%Z = true |- _ => apply Z.ltb_lt in H
  | H : (_ <? _)%Z = false |- _ => apply Z.ltb_ge in H
  | H : (_ =? _)%Z = true |- _ => apply Z.eqb_eq in H
  | H : (_ =? _)%Z = false |- _ => apply Z.eqb_neq in H
  end.
