(* ===== verification/PyValue.v ===== *)
(** * Python scalars: binary64 floats, dynamically typed values, clocks

    The code keeps every monotonic time as a Python [float] and checks the
    exact type of every argument that crosses a component boundary.  A float
    is a [spec_float] of the Standard Library at the binary64 format, so
    additions round as they do in the program; the order is the IEEE order.
    [pyval] is a value whose type the code tests with [type(x) is ...].

    This file holds the order lemmas every deadline argument uses and the text
    of a float as [repr] prints it, which the JSON size accounting needs. *)

From stdpp Require Import pretty.
From Stdlib Require Export SpecFloat.
From S2P Require Import Prelude.
Local Open Scope string_scope.
Local Open Scope Z_scope.

(** ** Binary64 *)
Abbreviation float := spec_float.

Definition fadd (x y : float) : float := SFadd 53 1024 x y.
Definition fsub (x y : float) : float := SFsub 53 1024 x y.

(** [x < y], [x <= y] and [x == y]; [x > y] is [y < x]. *)
Definition fltb (x y : float) : bool := SFltb x y.
Definition fleb (x y : float) : bool := SFleb x y.
Definition feqb (x y : float) : bool := SFeqb x y.

(** [min(x, y)]: the second argument only when it is strictly smaller. *)
Definition fmin (x y : float) : float := if fltb y x then y else x.

(** The literals [z] and [m * 2**e]. *)
Definition float_lit (m e : Z) : float := binary_normalize 53 1024 m e false.
Definition fzero : float := S754_zero false.

(** [math.isfinite]. *)
Definition isfinite (x : float) : bool :=
  match x with
  | S754_zero _ | S754_finite _ _ _ => true
  | _ => false
  end.

(** [float(z)] for an [int]; [None] is [OverflowError]. *)
Definition float_of_int (z : Z) : option float :=
  let f := binary_normalize 53 1024 z 0 false in
  if isfinite f then Some f else None.

(** ** Order

    A float that is not a NaN has a key, and the IEEE order is the
    lexicographic order of the keys. *)
Definition fkey (x : float) : option (Z * Z * Z) :=
  match x with
  | S754_nan => None
  | S754_infinity true => Some (-2, 0, 0)
  | S754_finite true m e => Some (-1, - e, - Zpos m)
  | S754_zero _ => Some (0, 0, 0)
  | S754_finite false m e => Some (1, e, Zpos m)
  | S754_infinity false => Some (2, 0, 0)
  end.

Definition lex (a b : Z * Z * Z) : comparison :=
  let '(a1, a2, a3) := a in
  let '(b1, b2, b3) := b in
  match a1 ?= b1 with
  | Eq => match a2 ?= b2 with Eq => a3 ?= b3 | c => c end
  | c => c
  end.

Lemma SFcompare_key x y :
  SFcompare x y =
    match fkey x, fkey y with Some a, Some b => Some (lex a b) | _, _ => None end.
Proof.
  destruct x as [[]|[]| |[] m e], y as [[]|[]| |[] m' e']; try reflexivity; cbn.
  rewrite Z.compare_opp, (Z.compare_antisym e e').
  by destruct (e ?= e').
Qed.

Definition lex_lt (a b : Z * Z * Z) : Prop :=
  let '(a1, a2, a3) := a in
  let '(b1, b2, b3) := b in
  a1 < b1 ∨ a1 = b1 ∧ (a2 < b2 ∨ a2 = b2 ∧ a3 < b3).

Lemma lex_spec a b : CompareSpec (a = b) (lex_lt a b) (lex_lt b a) (lex a b).
Proof.
  destruct a as [[a1 a2] a3], b as [[b1 b2] b3]. unfold lex, lex_lt.
  destruct (Z.compare_spec a1 b1); [|constructor; lia..].
  destruct (Z.compare_spec a2 b2); [|constructor; lia..].
  destruct (Z.compare_spec a3 b3); constructor; try lia. congruence.
Qed.

Lemma lex_lt_trans a b c : lex_lt a b → lex_lt b c → lex_lt a c.
Proof. destruct a as [[a1 a2] a3], b as [[b1 b2] b3], c as [[c1 c2] c3]. unfold lex_lt. lia. Qed.

Lemma lex_lt_irrefl a : ¬ lex_lt a a.
Proof. destruct a as [[a1 a2] a3]. unfold lex_lt. lia. Qed.

Lemma lex_lt_asym a b : lex_lt a b → ¬ lex_lt b a.
Proof. destruct a as [[a1 a2] a3], b as [[b1 b2] b3]. unfold lex_lt. lia. Qed.

(** The order as a proposition. *)
Definition flt (x y : float) : Prop :=
  match fkey x, fkey y with Some a, Some b => lex_lt a b | _, _ => False end.
Definition fle (x y : float) : Prop :=
  match fkey x, fkey y with Some a, Some b => a = b ∨ lex_lt a b | _, _ => False end.

Ltac float_order :=
  unfold flt, fle; intros; repeat case_match; try done;
  repeat match goal with H : _ ∨ _ |- _ => destruct H end; subst;
  eauto using lex_lt_trans.

Lemma fltb_flt x y : fltb x y = true ↔ flt x y.
Proof.
  unfold fltb, SFltb, flt. rewrite SFcompare_key.
  destruct (fkey x) as [a|], (fkey y) as [b|]; try done.
  destruct (lex_spec a b) as [->|Hlt|Hgt]; split; try done; intros H.
  - by apply lex_lt_irrefl in H.
  - by apply lex_lt_asym in Hgt.
Qed.

Lemma fleb_fle x y : fleb x y = true ↔ fle x y.
Proof.
  unfold fleb, SFleb, fle. rewrite SFcompare_key.
  destruct (fkey x) as [a|], (fkey y) as [b|]; try done.
  destruct (lex_spec a b) as [->|Hlt|Hgt]; split; try done; [by left|by right|].
  intros [->|H]; [by apply lex_lt_irrefl in Hgt | by apply lex_lt_asym in Hgt].
Qed.

Lemma fltb_irrefl x : fltb x x = false.
Proof.
  apply not_true_is_false. rewrite fltb_flt. unfold flt.
  destruct (fkey x); [apply lex_lt_irrefl | tauto].
Qed.

Lemma fltb_trans x y z : fltb x y = true → fltb y z = true → fltb x z = true.
Proof. rewrite !fltb_flt. float_order. Qed.

Lemma fleb_trans x y z : fleb x y = true → fleb y z = true → fleb x z = true.
Proof. rewrite !fleb_fle. float_order. Qed.

Lemma fltb_fleb_trans x y z : fltb x y = true → fleb y z = true → fltb x z = true.
Proof. rewrite fleb_fle, !fltb_flt. float_order. Qed.

Lemma fleb_fltb_trans x y z : fleb x y = true → fltb y z = true → fltb x z = true.
Proof. rewrite fleb_fle, !fltb_flt. float_order. Qed.

Lemma fltb_fleb x y : fltb x y = true → fleb x y = true.
Proof. rewrite fleb_fle, fltb_flt. float_order. Qed.

(** A time: a float the order compares with every other time, so not a NaN. *)
Definition is_time (x : float) : Prop := is_Some (fkey x).

Lemma is_time_key x : is_time x → is_Some (fkey x).
Proof. done. Qed.

Lemma isfinite_is_time x : isfinite x = true → is_time x.
Proof. destruct x as [[]|[]| |[] m e]; cbn; intros ?; first [discriminate | eexists; done]. Qed.

Lemma fleb_refl x : is_time x → fleb x x = true.
Proof. intros [k Hk]%is_time_key. apply fleb_fle. unfold fle. rewrite Hk. by left. Qed.

Lemma fltb_false x y : is_time x → is_time y → fltb x y = false ↔ fleb y x = true.
Proof.
  intros [k Hk]%is_time_key [k' Hk']%is_time_key.
  rewrite fleb_fle, <-not_true_iff_false, fltb_flt. unfold flt, fle. rewrite Hk, Hk'.
  destruct (lex_spec k k') as [->|Hlt|Hgt]; split; intros H; try by auto.
  - apply lex_lt_irrefl.
  - destruct H as [->|H]; [apply lex_lt_irrefl | by apply lex_lt_asym].
  - by apply lex_lt_asym.
Qed.

Lemma fleb_false x y : is_time x → is_time y → fleb x y = false ↔ fltb y x = true.
Proof.
  intros Hx Hy. pose proof (fltb_false y x Hy Hx).
  destruct (fleb x y), (fltb y x); naive_solver.
Qed.

Lemma fltb_fleb_false x y : fltb x y = true → fleb y x = false.
Proof.
  intros Hlt. apply not_true_is_false. intros Hle.
  pose proof (fltb_fleb_trans _ _ _ Hlt Hle) as H. by rewrite fltb_irrefl in H.
Qed.

Lemma fmin_le_l x y : is_time x → is_time y → fleb (fmin x y) x = true.
Proof. intros. unfold fmin. destruct (fltb y x) eqn:?; [by apply fltb_fleb | by apply fleb_refl]. Qed.

Lemma fmin_le_r x y : is_time x → is_time y → fleb (fmin x y) y = true.
Proof.
  intros. unfold fmin. destruct (fltb y x) eqn:E; [by apply fleb_refl |].
  by apply fltb_false in E.
Qed.

Lemma fltb_fmin x y z :
  fltb z (fmin x y) = true → is_time x → is_time y → fltb z x = true ∧ fltb z y = true.
Proof.
  intros H Hx Hy. split; (eapply fltb_fleb_trans; [exact H|]).
  - by apply fmin_le_l.
  - by apply fmin_le_r.
Qed.

Lemma is_time_fmin x y : is_time x → is_time y → is_time (fmin x y).
Proof. unfold fmin. by destruct (fltb y x). Qed.

(** A sum of finite floats may overflow to an infinity and is never a NaN. *)
Lemma shr_1_nonneg r : 0 ≤ shr_m r → 0 ≤ shr_m (shr_1 r).
Proof. destruct r as [[|[]|[]] ? ?]; simpl; lia. Qed.

Lemma iter_pos_nonneg p r : 0 ≤ shr_m r → 0 ≤ shr_m (SpecFloat.iter_pos shr_1 p r).
Proof. revert r. induction p; intros r Hr; simpl; auto using shr_1_nonneg. Qed.

Lemma shr_fexp_nonneg m e l : 0 ≤ m → 0 ≤ shr_m (shr_fexp 53 1024 m e l).1.
Proof.
  intros Hm. unfold shr_fexp, shr.
  assert (0 ≤ shr_m (shr_record_of_loc m l)) by (by destruct l as [|[]]).
  case_match; simpl; auto using iter_pos_nonneg.
Qed.

Lemma binary_round_aux_time s m e l : 0 ≤ m → is_time (binary_round_aux 53 1024 s m e l).
Proof.
  intros Hm. unfold binary_round_aux.
  pose proof (shr_fexp_nonneg m e l Hm) as H1. destruct (shr_fexp _ _ m e l) as [r1 e1]. simpl in H1.
  set (m2 := round_nearest_even _ _).
  assert (0 ≤ m2) as H2.
  { subst m2. unfold round_nearest_even. repeat case_match; lia. }
  pose proof (shr_fexp_nonneg m2 e1 loc_Exact H2) as H3.
  destruct (shr_fexp _ _ m2 e1 loc_Exact) as [r2 e2]. simpl in H3.
  destruct (shr_m r2); [by destruct s; eexists| |lia].
  case_match; destruct s; by eexists.
Qed.

Lemma binary_normalize_time m e s : is_time (binary_normalize 53 1024 m e s).
Proof.
  unfold binary_normalize, binary_round. destruct m; [by destruct s; eexists|..];
    (destruct (shl_align _ _ _) as [mz ez]; by apply binary_round_aux_time).
Qed.

Lemma fadd_time x y : isfinite x = true → isfinite y = true → is_time (fadd x y).
Proof.
  destruct x as [[]|?| |[] m e], y as [[]|?| |[] m' e']; intros; try discriminate;
    try (by eexists); apply binary_normalize_time.
Qed.

(** ** The text of a float

    [repr(x)]: the shortest decimal that reads back as [x], the closest one
    among those, in positional notation between [1e-4] and [1e16]. *)
Definition pow10 (n : Z) : Z := 10 ^ n.

(** The binary64 nearest to [q * 10**p], for [q > 0]. *)
Definition float_of_decimal (q p : Z) : float :=
  if 0 <=? p then binary_normalize 53 1024 (q * pow10 p) 0 false
  else
    let '(m, e, l) := SFdiv_core_binary 53 1024 q 0 (pow10 (- p)) 0 in
    binary_round_aux 53 1024 false m e l.

(** The [d] with [10**(d-1) <= num/den < 10**d], searched upwards from [d]:
    [repr_finite] starts below it, at the decimal exponent of the leading bit. *)
Fixpoint find_decpt (fuel : nat) (num den d : Z) : Z :=
  match fuel with
  | O => d
  | S fuel' =>
      let below := if 0 <=? d then num <? den * pow10 d else num * pow10 (- d) <? den in
      if below then d else find_decpt fuel' num den (d + 1)
  end.

(** The shortest digits: [q] with [n] digits at decimal point [decpt]. *)
Fixpoint shortest_digits (fuel : nat) (x : float) (num den decpt n : Z) : Z * Z :=
  let scaled := if 0 <=? n - decpt then (num * pow10 (n - decpt), den)
                else (num, den * pow10 (decpt - n)) in
  let lo := scaled.1 / scaled.2 in
  let hi := lo + 1 in
  let rest := 2 * (scaled.1 - lo * scaled.2) in
  let ok q := (0 <? q) && feqb (float_of_decimal q (decpt - n)) x in
  let pick_lo := (rest <? scaled.2) || ((rest =? scaled.2) && Z.even lo) in
  match fuel with
  | O => (if pick_lo then lo else hi, n)
  | S fuel' =>
      if ok lo && (pick_lo || negb (ok hi)) then (lo, n)
      else if ok hi then (hi, n)
      else shortest_digits fuel' x num den decpt (n + 1)
  end.

Fixpoint zeros (n : nat) : string :=
  match n with O => EmptyString | S n' => String "0" (zeros n') end.

(** The digits [ds], the value being [0.ds * 10**decpt]. *)
Definition format_digits (ds : string) (decpt : Z) : string :=
  let n := str_len ds in
  if (decpt <=? -4) || (16 <? decpt) then
    let e := decpt - 1 in
    let mantissa := if n <=? 1 then ds
      else (String.substring 0 1 ds +:+ "." +:+ String.substring 1 (Z.to_nat (n - 1)) ds) in
    let e_digits := pretty (Z.abs e) in
    (mantissa +:+ (if e <? 0 then "e-" else "e+") +:+
       (if str_len e_digits <? 2 then "0" +:+ e_digits else e_digits))
  else if decpt <=? 0 then ("0." +:+ zeros (Z.to_nat (- decpt)) +:+ ds)
  else if n <=? decpt then (ds +:+ zeros (Z.to_nat (decpt - n)) +:+ ".0")
  else (String.substring 0 (Z.to_nat decpt) ds +:+ "." +:+
          String.substring (Z.to_nat decpt) (Z.to_nat (n - decpt)) ds).

(** Trailing zeros carry no information: [1e22] has one digit. *)
Fixpoint strip_zeros (fuel : nat) (q : Z) : Z :=
  match fuel with
  | O => q
  | S fuel' => if q mod 10 =? 0 then strip_zeros fuel' (q / 10) else q
  end.

Definition repr_finite (m : positive) (e : Z) : string :=
  let num := if 0 <=? e then Zpos m * 2 ^ e else Zpos m in
  let den := if 0 <=? e then 1 else 2 ^ (- e) in
  let decpt := find_decpt 6 num den ((Zpos (digits2_pos m) + e - 1) * 30103 / 100000 - 1) in
  let '(q, n) := shortest_digits 16 (S754_finite false m e) num den decpt 1 in
  (* Rounding up to a power of ten moves the decimal point. *)
  let decpt' := if pow10 n <=? q then decpt + 1 else decpt in
  format_digits (pretty (strip_zeros 20 q)) decpt'.

Definition float_repr (x : float) : string :=
  match x with
  | S754_nan => "nan"
  | S754_infinity false => "inf"
  | S754_infinity true => "-inf"
  | S754_zero false => "0.0"
  | S754_zero true => "-0.0"
  | S754_finite false m e => repr_finite m e
  | S754_finite true m e => "-" +:+ repr_finite m e
  end.

(** [sys.float_info.max]. *)
Definition float_max : float := SFmax_float 53 1024.

Example repr_270 : float_repr (float_lit 270 0) = "270.0".
Proof. vm_compute. reflexivity. Qed.
Example repr_half : float_repr (float_lit 1 (-1)) = "0.5".
Proof. vm_compute. reflexivity. Qed.
Example repr_tenth : float_repr (SFdiv 53 1024 (float_lit 1 0) (float_lit 10 0)) = "0.1".
Proof. vm_compute. reflexivity. Qed.
Example repr_two_m44 : float_repr (float_lit 1 (-44)) = "5.684341886080802e-14".
Proof. vm_compute. reflexivity. Qed.
Example repr_max : float_repr float_max = "1.7976931348623157e+308".
Proof. vm_compute. reflexivity. Qed.
Example repr_denorm : float_repr (float_lit 1 (-1074)) = "5e-324".
Proof. vm_compute. reflexivity. Qed.
Example repr_1e22 : float_repr (float_lit (10 ^ 22) 0) = "1e+22".
Proof. vm_compute. reflexivity. Qed.
Example repr_1e16 : float_repr (float_lit (10 ^ 16) 0) = "1e+16".
Proof. vm_compute. reflexivity. Qed.
Example repr_1e15 : float_repr (float_lit (10 ^ 15) 0) = "1000000000000000.0".
Proof. vm_compute. reflexivity. Qed.

(** ** Dynamically typed values

    What a caller may pass, as far as the [type(x) is ...] tests tell values
    apart; [VObject] is an instance of any other class. *)
Inductive pyval :=
| VNone
| VBool (b : bool)
| VInt (z : Z)
| VFloat (x : float)
| VStr (s : string)
| VObject.

(** [float(value)] for an exact [int] or [float]; [None] when the type is
    another one or the conversion overflows. *)
Definition to_float (v : pyval) : option float :=
  match v with
  | VInt z => float_of_int z
  | VFloat x => Some x
  | _ => None
  end.

(** A finite [int] or [float]. *)
Definition finite_number (v : pyval) : option float :=
  match to_float v with
  | Some x => if isfinite x then Some x else None
  | None => None
  end.

Lemma finite_number_is_time v x : finite_number v = Some x → is_time x.
Proof.
  unfold finite_number. destruct (to_float v) as [y|]; [|done].
  destruct (isfinite y) eqn:E; [|done]. intros; simplify_eq. by apply isfinite_is_time.
Qed.

(** An injected clock: each call gives a value of any type or raises. *)
Inductive reading := Read (v : pyval) | ClockRaised.

Definition reading_number (r : reading) : option float :=
  match r with Read v => finite_number v | ClockRaised => None end.

(** A reading that is a finite, non-negative number. *)
Definition reading_time (r : reading) : option float :=
  match reading_number r with
  | Some x => if fltb x fzero then None else Some x
  | None => None
  end.

Lemma reading_time_is_time r x : reading_time r = Some x → is_time x.
Proof.
  unfold reading_time, reading_number. destruct r as [v|]; [|done].
  destruct (finite_number v) as [y|] eqn:E; [|done]. case_match; [done|].
  intros; simplify_eq. by eapply finite_number_is_time.
Qed.

(** Equality of values of the same type. *)
#[export] Instance float_eq_dec : EqDecision spec_float.
Proof. solve_decision. Defined.
#[export] Instance pyval_eq_dec : EqDecision pyval.
Proof. solve_decision. Defined.

(** The text of a value the code checked to be a [str]. *)
Definition as_str (value : pyval) : string := match value with VStr s => s | _ => "" end.
