(* ===== verification/PyJson.v ===== *)
(** * The JSON text the size accounting measures

    The lease registry and the receipt ledger bound what they retain by the
    length of [json.dumps(doc, sort_keys=True, separators=(',', ':'))].  This
    file is that encoder (with the default [ensure_ascii]) and the facts about
    lengths of decimal numerals and of objects that the bounds rest on. *)

From stdpp Require Import pretty.
From Stdlib Require Import Permutation.
From S2P Require Import Prelude PyValue.
Local Open Scope string_scope.
Local Open Scope Z_scope.

Inductive json :=
| JNull
| JBool (b : bool)
| JInt (z : Z)
| JFloat (x : float)
| JStr (s : string)
| JArr (l : list json)
| JObj (m : list (string * json)).

Definition JOption {A} (f : A → json) (o : option A) : json :=
  match o with Some a => f a | None => JNull end.

Definition int_repr (z : Z) : string := pretty z.

(** ** Encoding *)
Definition dquote : string := String (ascii_of_nat 34) EmptyString.
Definition backslash : string := String (ascii_of_nat 92) EmptyString.

Definition hex_digit (n : nat) : string := String.substring n 1 "0123456789abcdef".

Definition escape_char (c : ascii) : string :=
  let n := nat_of_ascii c in
  match n with
  | 34%nat => backslash +:+ dquote
  | 92%nat => backslash +:+ backslash
  | 8%nat => backslash +:+ "b"
  | 9%nat => backslash +:+ "t"
  | 10%nat => backslash +:+ "n"
  | 12%nat => backslash +:+ "f"
  | 13%nat => backslash +:+ "r"
  | _ =>
      if bool_decide (n < 32)%nat || bool_decide (128 <= n)%nat then
        backslash +:+ "u00" +:+ hex_digit (n / 16) +:+ hex_digit (n mod 16)
      else String c EmptyString
  end.

Fixpoint escape (s : string) : string :=
  match s with
  | EmptyString => EmptyString
  | String c s' => escape_char c +:+ escape s'
  end.

Definition quote (s : string) : string := dquote +:+ escape s +:+ dquote.

Fixpoint join (sep : string) (xs : list string) : string :=
  match xs with
  | [] => EmptyString
  | [x] => x
  | x :: xs' => x +:+ sep +:+ join sep xs'
  end.

(** [sort_keys=True]: members in the order of their keys. *)
Fixpoint insert_member (kv : string * string) (m : list (string * string)) :=
  match m with
  | [] => [kv]
  | kv' :: m' => if String.leb kv.1 kv'.1 then kv :: m else kv' :: insert_member kv m'
  end.

Definition sort_members (m : list (string * string)) : list (string * string) :=
  foldr insert_member [] m.

Definition member_text (kv : string * string) : string := quote kv.1 +:+ ":" +:+ kv.2.

Fixpoint dumps (j : json) : string :=
  match j with
  | JNull => "null"
  | JBool b => if b then "true" else "false"
  | JInt z => int_repr z
  | JFloat x => float_repr x
  | JStr s => quote s
  | JArr l => "[" +:+ join "," (map dumps l) +:+ "]"
  | JObj m =>
      "{" +:+ join "," (map member_text (sort_members (map (λ kv, (kv.1, dumps kv.2)) m))) +:+ "}"
  end.

(** [len(json.dumps(payload, ...).encode('utf-8'))]; the text is ASCII. *)
Definition canonical_bytes (j : json) : Z := str_len (dumps j).

Example dumps_ex :
  dumps (JObj [("b", JArr [JNull; JBool true; JInt (-12)]); ("a", JStr "x")]) =
    "{" +:+ dquote +:+ "a" +:+ dquote +:+ ":" +:+ dquote +:+ "x" +:+ dquote +:+ "," +:+
    dquote +:+ "b" +:+ dquote +:+ ":[null,true,-12]}".
Proof. vm_compute. reflexivity. Qed.

(** ** Lengths *)
Lemma str_len_app a b : str_len (a +:+ b) = str_len a + str_len b.
Proof.
  unfold str_len. rewrite <-Nat2Z.inj_add. f_equal.
  induction a as [|c a IH]; [done|]. simpl. by rewrite IH.
Qed.

Lemma str_len_nonneg s : 0 ≤ str_len s.
Proof. unfold str_len. lia. Qed.

Definition sum_len (xs : list string) : Z := foldr (λ x acc, str_len x + acc) 0 xs.

Lemma str_len_join xs :
  str_len (join "," xs) = sum_len xs + Z.of_nat (length xs - 1).
Proof.
  induction xs as [|x [|y xs] IH]; [done| |].
  - simpl. lia.
  - change (join "," (x :: y :: xs)) with (x +:+ "," +:+ join "," (y :: xs)).
    rewrite !str_len_app, IH. change (str_len ",") with 1. simpl. lia.
Qed.

Lemma sum_len_perm xs ys : xs ≡ₚ ys → sum_len xs = sum_len ys.
Proof. induction 1; simpl in *; lia. Qed.

Lemma insert_member_perm kv m : insert_member kv m ≡ₚ kv :: m.
Proof.
  induction m as [|kv' m IH]; simpl; [done|]. case_match; [done|].
  rewrite IH. apply Permutation_swap.
Qed.

Lemma sort_members_perm m : sort_members m ≡ₚ m.
Proof.
  unfold sort_members. induction m as [|kv m IH]; simpl; [done|].
  by rewrite insert_member_perm, IH.
Qed.

(** The length of an object: sorting does not change it. *)
Definition member_len (kv : string * json) : Z :=
  str_len (quote kv.1) + 1 + canonical_bytes kv.2.

Lemma canonical_bytes_obj m :
  canonical_bytes (JObj m) =
    2 + foldr (λ kv acc, member_len kv + acc) 0 m + Z.of_nat (length m - 1).
Proof.
  unfold canonical_bytes. cbn [dumps].
  rewrite !str_len_app, str_len_join, length_map.
  change (str_len "{") with 1. change (str_len "}") with 1.
  set (ts := map (λ kv : string * json, (kv.1, dumps kv.2)) m).
  rewrite (Permutation_length (sort_members_perm ts)).
  rewrite (sum_len_perm (map member_text (sort_members ts)) (map member_text ts))
    by (by apply Permutation_map, sort_members_perm).
  subst ts. rewrite length_map, map_map.
  assert (sum_len (map (λ x : string * json, member_text (x.1, dumps x.2)) m) =
    foldr (λ kv acc, member_len kv + acc) 0 m) as ->; [|lia].
  induction m as [|[k v] m IH]; [done|]. simpl.
  rewrite IH. unfold member_len, member_text, canonical_bytes. simpl.
  rewrite !str_len_app. change (str_len ":") with 1. lia.
Qed.

Lemma canonical_bytes_obj_pos m : 0 < canonical_bytes (JObj m).
Proof.
  rewrite canonical_bytes_obj.
  assert (0 ≤ foldr (λ kv acc, member_len kv + acc) 0 m); [|lia].
  induction m as [|kv m IH]; simpl; [lia|].
  assert (0 ≤ member_len kv); [|lia]. unfold member_len, canonical_bytes.
  pose proof (str_len_nonneg (quote kv.1)). pose proof (str_len_nonneg (dumps kv.2)). lia.
Qed.

(** ** Decimal numerals *)
Lemma pretty_N_go_len x s :
  (0 < x)%N →
  ∃ k, str_len (pretty_N_go x s) = k + str_len s ∧ 0 < k ∧
       10 ^ (k - 1) ≤ Z.of_N x < 10 ^ k.
Proof.
  revert s. induction (N.lt_wf_0 x) as [x _ IH]; intros s Hx.
  rewrite pretty_N_go_step by done.
  destruct (decide (x < 10)%N) as [Hlt|Hge].
  - rewrite N.div_small by done. exists 1.
    rewrite pretty_N_go_0. split_and!; [unfold str_len; simpl; lia|lia|lia|lia].
  - destruct (IH (x `div` 10)%N) with (s := String (pretty_N_char (x `mod` 10)) s)
      as (k & Hk & Hpos & Hlo & Hhi).
    + apply N.div_lt; lia.
    + apply N.div_str_pos. lia.
    + exists (k + 1). split_and!; [rewrite Hk; unfold str_len; simpl; lia|lia| |].
      * replace (k + 1 - 1) with (Z.succ (k - 1)) by lia. rewrite Z.pow_succ_r by lia.
        rewrite N2Z.inj_div in Hlo. change (Z.of_N 10) with 10 in Hlo.
        pose proof (Z.mul_div_le (Z.of_N x) 10). lia.
      * replace (k + 1) with (Z.succ k) by lia. rewrite Z.pow_succ_r by lia.
        rewrite N2Z.inj_div in Hhi. change (Z.of_N 10) with 10 in Hhi.
        pose proof (Z.mul_succ_div_gt (Z.of_N x) 10). lia.
Qed.

(** A positive number has [k] digits exactly when it lies in
    [10**(k-1) .. 10**k - 1]. *)
Lemma int_repr_len z :
  0 < z → ∃ k, str_len (int_repr z) = k ∧ 0 < k ∧ 10 ^ (k - 1) ≤ z < 10 ^ k.
Proof.
  intros Hz. destruct z as [|p|]; try lia.
  unfold int_repr, pretty, pretty_Z, pretty, pretty_positive.
  destruct (pretty_N_go_len (Npos p) EmptyString) as (k & Hk & ? & ?); [lia|].
  exists k. split; [|done]. rewrite <-(Z.add_0_r k).
  change 0 with (str_len EmptyString). rewrite <-Hk. done.
Qed.

Lemma int_repr_len_mono a b : 0 < a → a ≤ b → str_len (int_repr a) ≤ str_len (int_repr b).
Proof.
  intros Ha Hab.
  destruct (int_repr_len a) as (k & -> & Hk & Hlo & _); [done|].
  destruct (int_repr_len b) as (k' & -> & Hk' & _ & Hhi); [lia|].
  destruct (Z.le_gt_cases k k') as [|Hgt]; [done|].
  assert (10 ^ k' ≤ 10 ^ (k - 1)) by (apply Z.pow_le_mono_r; lia). lia.
Qed.

Lemma int_repr_len_pos z : 0 < z → 0 < str_len (int_repr z).
Proof. intros Hz. destruct (int_repr_len z Hz) as (k & -> & ? & _). done. Qed.

(** Adding less than ninety moves a number of two digits or more by one digit
    at most. *)
Lemma int_repr_len_add a d :
  10 ≤ a → 0 ≤ d ≤ 9 * a → str_len (int_repr (a + d)) ≤ str_len (int_repr a) + 1.
Proof.
  intros Ha Hd.
  destruct (int_repr_len a) as (k & -> & Hk & Hlo & Hhi); [lia|].
  destruct (int_repr_len (a + d)) as (k' & -> & Hk' & Hlo' & _); [lia|].
  destruct (Z.le_gt_cases k' (k + 1)) as [|Hgt]; [done|].
  assert (10 ^ (k + 1) ≤ 10 ^ (k' - 1)) by (apply Z.pow_le_mono_r; lia).
  rewrite Z.pow_add_r in H by lia. lia.
Qed.
