(* ===== verification/Services.v ===== *)
(** * Forwarder service profiles and route readiness

    The five fixed service profiles of [forwarder_services.py] and the
    classification of per-route readiness facts. *)

From S2P Require Import Prelude PyValue.
Local Open Scope string_scope.
Local Open Scope Z_scope.

Record ServiceProfile := mkServiceProfile {
  sp_name : string;
  sp_port : Z;
  sp_mandatory : bool;
  sp_sentinel_scheme : string;
}.

Definition bind_host (p : ServiceProfile) : string := "127.0.0.1".
Definition server_name (p : ServiceProfile) : string :=
  "forwarder-" +:+ sp_name p +:+ ".maoi.local".

Definition SERVICE_PROFILES : dict string ServiceProfile :=
  [("jira", mkServiceProfile "jira" 17441 true "Basic");
   ("confluence", mkServiceProfile "confluence" 17442 false "Basic");
   ("grafana", mkServiceProfile "grafana" 17443 true "Bearer");
   ("kubernetes", mkServiceProfile "kubernetes" 17444 true "Bearer");
   ("anthropic", mkServiceProfile "anthropic" 17445 true "Bearer")].

(** [name in SERVICE_PROFILES]. *)
Definition known_service (name : string) : bool := str_in name (dict_keys SERVICE_PROFILES).

Record RouteReadiness := mkRouteReadiness {
  mandatory_ready : bool;
  unavailable_mandatory : list string;
  degraded_optional : list string;
}.

(** [facts.get(name, False)] on a mapping whose values are checked to be
    booleans. *)
Fixpoint facts_get (facts : list (pyval * pyval)) (name : string) : bool :=
  match facts with
  | [] => false
  | (VStr k, v) :: facts' =>
      if decide (k = name) then (match v with VBool b => b | _ => false end)
      else facts_get facts' name
  | _ :: facts' => facts_get facts' name
  end.

Definition fact_name_ok (kv : pyval * pyval) : bool :=
  match kv.1 with VStr name => known_service name | _ => false end.
Definition fact_value_ok (kv : pyval * pyval) : bool :=
  match kv.2 with VBool _ => true | _ => false end.

(** The services of one kind with no fact [True], in profile order. *)
Definition missing_services (facts : list (pyval * pyval)) (mandatory : bool) : list string :=
  map fst (List.filter (λ kv,
    Bool.eqb (sp_mandatory kv.2) mandatory && negb (facts_get facts kv.1)) SERVICE_PROFILES).

(** [None] stands for an argument that is not a mapping. *)
Definition classify_readiness (route_facts : option (list (pyval * pyval))) : outcome RouteReadiness :=
  match route_facts with
  | None => Raise (Exn "TypeError" "route readiness requires a mapping")
  | Some facts =>
      check_that (forallb fact_name_ok facts) (Exn "ValueError" "unknown readiness service") ≫= λ _,
      check_that (forallb fact_value_ok facts)
        (Exn "TypeError" "route readiness requires explicit booleans") ≫= λ _,
      let unavailable := missing_services facts true in
      let degraded := missing_services facts false in
      Ret (mkRouteReadiness (bool_decide (unavailable = [])) unavailable degraded)
  end.

Lemma SERVICE_PROFILES_ok : dict_ok SERVICE_PROFILES.
Proof. unfold dict_ok. by apply (bool_decide_unpack _). Qed.

Lemma missing_services_spec facts b name :
  name ∈ missing_services facts b ↔
    ∃ p, dict_get SERVICE_PROFILES name = Some p ∧ sp_mandatory p = b ∧ facts_get facts name = false.
Proof.
  unfold missing_services. rewrite list_elem_of_In, in_map_iff. split.
  - intros ([n p] & <- & [Hp Hb]%filter_In). cbn [fst snd] in *. bool_simpl.
    exists p. split_and!; [|by apply eqb_prop|done].
    apply elem_dict_get; [apply SERVICE_PROFILES_ok|]. by apply list_elem_of_In.
  - intros (p & Hp & Hb & Hf). exists (name, p). split; [done|]. apply filter_In.
    split; [by apply list_elem_of_In, dict_get_elem|]. cbn [fst snd]. by rewrite Hb, Hf, eqb_reflx.
Qed.

(** Readiness is never inferred.  [classify_readiness] reports the
    mandatory routes ready exactly when every mandatory service has the
    explicit fact [True]; a missing fact, or a fact [False], makes it not
    ready and lists the service. *)
Theorem readiness_is_explicit facts r :
  classify_readiness (Some facts) = Ret r →
  (mandatory_ready r = true ↔
     ∀ name p, dict_get SERVICE_PROFILES name = Some p → sp_mandatory p = true →
       facts_get facts name = true) ∧
  (∀ name p, dict_get SERVICE_PROFILES name = Some p → facts_get facts name = false →
     if sp_mandatory p then name ∈ unavailable_mandatory r else name ∈ degraded_optional r).
Proof.
  intros Hr. unfold classify_readiness in Hr. inv_do. injection Hr as <-.
  cbn [mandatory_ready unavailable_mandatory degraded_optional]. split.
  - rewrite bool_decide_eq_true. split.
    + intros Hnil name p Hp Hm. destruct (facts_get facts name) eqn:Hf; [done|].
      assert (Hin : name ∈ missing_services facts true) by (apply missing_services_spec; eauto).
      rewrite Hnil in Hin. by apply not_elem_of_nil in Hin.
    + intros Hall. apply elem_of_nil_inv. intros name (p & Hp & Hm & Hf)%missing_services_spec.
      by rewrite (Hall name p Hp Hm) in Hf.
  - intros name p Hp Hf. destruct (sp_mandatory p) eqn:Hm; apply missing_services_spec; eauto.
Qed.

Lemma readiness_is_explicit_witness :
  let facts := [(VStr "jira", VBool true); (VStr "grafana", VBool true);
                (VStr "kubernetes", VBool true)] in
  mandatory_ready (mkRouteReadiness false ["anthropic"] ["confluence"]) = true ↔
     ∀ name p, dict_get SERVICE_PROFILES name = Some p → sp_mandatory p = true →
       facts_get facts name = true.
Proof.
  intros facts.
  refine (proj1 (readiness_is_explicit facts (mkRouteReadiness false ["anthropic"] ["confluence"]) _)).
  vm_compute. reflexivity.
Defined.
