(* ===== verification/Leases.v ===== *)
(** * The lease registry (forwarder_leases.py)

    [LeaseRegistry] is the state of the class of that name and every method is
    a definition below with the method's name.  The injected clock is the
    function [r_clock], read once per call of [_now] at position [r_calls];
    [secrets.token_urlsafe] is the stream [r_entropy], drawn at [r_draws].
    Methods run under one lock, so each is one atomic step.

    A record object is reached through its key in [r_records]: a method that
    holds a record and mutates it writes the dictionary at that key. *)

From S2P Require Import Prelude PyValue PyJson Services.
Local Open Scope string_scope.
Local Open Scope Z_scope.

(** ** Constants *)
Definition MAX_LIVE_LEASES : Z := 256.
Definition MAX_RECORDS : Z := 1024.
Definition MAX_HISTORY : nat := 128.
Definition MAX_METADATA_BYTES : Z := 512 * 1024.
Definition HEARTBEAT_SECONDS : float := float_lit 15 0.
Definition LEASE_SECONDS : float := float_lit 270 0.
Definition RETENTION_SECONDS : float := float_lit 310 0.
Definition STATE_TRANSITION_RESERVE_BYTES : Z := 128.
Definition HISTORY_RECEIPT_RESERVE_BYTES : Z := 512.
Definition TOP_LEVEL_RESERVE_BYTES : Z := 4096.
Definition MAX_HISTORY_DROPPED : Z := 2 ^ 31 - 1.
Definition REVOCATION_REASONS : list string :=
  ["cancelled"; "deadline"; "control_failure"; "launch_failure"; "operator_cancel";
   "receiver_shutdown"].
Definition _MAX_ID_BYTES : Z := 128.
Definition _SAFE_ID : string := LETTERS_DIGITS +:+ "-_.".
Definition _SAFE_TOKEN : string := LETTERS_DIGITS +:+ "-_".
Definition _HEX : string := HEX_DIGITS.

Definition LeaseError (code : string) : exn := Exn "LeaseError" code.

(** ** Data *)
Inductive LeaseState := Registered | Active | Revoked | Expired.

#[export] Instance lease_state_eq_dec : EqDecision LeaseState.
Proof. solve_decision. Defined.

Definition state_name (st : LeaseState) : string :=
  match st with
  | Registered => "registered" | Active => "active" | Revoked => "revoked" | Expired => "expired"
  end.

(** [state in {'registered', 'active'}]. *)
Definition is_live (st : LeaseState) : bool :=
  match st with Registered | Active => true | _ => false end.

Record LeaseGrant := mkLeaseGrant {
  lg_generation : string;
  lg_lease_id : string;
  lg_run_id : string;
  lg_attempt_id : string;
  lg_receiver_boot_id : string;
  lg_service : string;
  lg_scope_digest : string;
  lg_expires_at : float;
  lg_sentinel : string;
}.

Record LeaseReceipt := mkLeaseReceipt {
  rc_operation : string;
  rc_generation : string;
  rc_lease_id : option string;
  rc_service : option string;
  rc_state : string;
  rc_reason : string;
  rc_authorized : option bool;
  rc_observed_at : float;
}.

Record _Record := mkRecord {
  rec_grant : LeaseGrant;
  rec_receiver_boot_id : string;
  rec_created_at : float;
  rec_state : LeaseState;
  rec_launch_at : option float;
  rec_retired_at : option float;
}.

Definition rec_live (r : _Record) : bool := is_live (rec_state r).

(** The key under which [_bindings] knows a record. *)
Definition rec_binding (r : _Record) : string * string * string :=
  (lg_run_id (rec_grant r), lg_attempt_id (rec_grant r), lg_service (rec_grant r)).

Record LeaseRegistry := mkLeaseRegistry {
  r_clock : nat → reading;
  r_calls : nat;
  r_entropy : nat → string;
  r_draws : nat;
  r_generation : string;
  r_receiver_boot_id : option string;
  r_last_heartbeat : option float;
  r_records : dict string _Record;
  r_bindings : gmap (string * string * string) string;
  r_history : list LeaseReceipt;
  r_history_dropped : Z;
  r_last_now : option float;
  r_held_code : option string;
  r_control_stale : bool;
}.

Definition set_r_calls (v : nat) (s : LeaseRegistry) : LeaseRegistry :=
  mkLeaseRegistry (r_clock s) v (r_entropy s) (r_draws s) (r_generation s)
    (r_receiver_boot_id s) (r_last_heartbeat s) (r_records s) (r_bindings s) (r_history s)
    (r_history_dropped s) (r_last_now s) (r_held_code s) (r_control_stale s).
Definition set_r_draws (v : nat) (s : LeaseRegistry) : LeaseRegistry :=
  mkLeaseRegistry (r_clock s) (r_calls s) (r_entropy s) v (r_generation s)
    (r_receiver_boot_id s) (r_last_heartbeat s) (r_records s) (r_bindings s) (r_history s)
    (r_history_dropped s) (r_last_now s) (r_held_code s) (r_control_stale s).
Definition set_r_receiver_boot_id (v : option string) (s : LeaseRegistry) : LeaseRegistry :=
  mkLeaseRegistry (r_clock s) (r_calls s) (r_entropy s) (r_draws s) (r_generation s) v
    (r_last_heartbeat s) (r_records s) (r_bindings s) (r_history s) (r_history_dropped s)
    (r_last_now s) (r_held_code s) (r_control_stale s).
Definition set_r_last_heartbeat (v : option float) (s : LeaseRegistry) : LeaseRegistry :=
  mkLeaseRegistry (r_clock s) (r_calls s) (r_entropy s) (r_draws s) (r_generation s)
    (r_receiver_boot_id s) v (r_records s) (r_bindings s) (r_history s) (r_history_dropped s)
    (r_last_now s) (r_held_code s) (r_control_stale s).
Definition set_r_records (v : dict string _Record) (s : LeaseRegistry) : LeaseRegistry :=
  mkLeaseRegistry (r_clock s) (r_calls s) (r_entropy s) (r_draws s) (r_generation s)
    (r_receiver_boot_id s) (r_last_heartbeat s) v (r_bindings s) (r_history s)
    (r_history_dropped s) (r_last_now s) (r_held_code s) (r_control_stale s).
Definition set_r_bindings (v : gmap (string * string * string) string) (s : LeaseRegistry) : LeaseRegistry :=
  mkLeaseRegistry (r_clock s) (r_calls s) (r_entropy s) (r_draws s) (r_generation s)
    (r_receiver_boot_id s) (r_last_heartbeat s) (r_records s) v (r_history s)
    (r_history_dropped s) (r_last_now s) (r_held_code s) (r_control_stale s).
Definition set_r_history (v : list LeaseReceipt) (s : LeaseRegistry) : LeaseRegistry :=
  mkLeaseRegistry (r_clock s) (r_calls s) (r_entropy s) (r_draws s) (r_generation s)
    (r_receiver_boot_id s) (r_last_heartbeat s) (r_records s) (r_bindings s) v
    (r_history_dropped s) (r_last_now s) (r_held_code s) (r_control_stale s).
Definition set_r_history_dropped (v : Z) (s : LeaseRegistry) : LeaseRegistry :=
  mkLeaseRegistry (r_clock s) (r_calls s) (r_entropy s) (r_draws s) (r_generation s)
    (r_receiver_boot_id s) (r_last_heartbeat s) (r_records s) (r_bindings s) (r_history s) v
    (r_last_now s) (r_held_code s) (r_control_stale s).
Definition set_r_last_now (v : option float) (s : LeaseRegistry) : LeaseRegistry :=
  mkLeaseRegistry (r_clock s) (r_calls s) (r_entropy s) (r_draws s) (r_generation s)
    (r_receiver_boot_id s) (r_last_heartbeat s) (r_records s) (r_bindings s) (r_history s)
    (r_history_dropped s) v (r_held_code s) (r_control_stale s).
Definition set_r_held_code (v : option string) (s : LeaseRegistry) : LeaseRegistry :=
  mkLeaseRegistry (r_clock s) (r_calls s) (r_entropy s) (r_draws s) (r_generation s)
    (r_receiver_boot_id s) (r_last_heartbeat s) (r_records s) (r_bindings s) (r_history s)
    (r_history_dropped s) (r_last_now s) v (r_control_stale s).
Definition set_r_control_stale (v : bool) (s : LeaseRegistry) : LeaseRegistry :=
  mkLeaseRegistry (r_clock s) (r_calls s) (r_entropy s) (r_draws s) (r_generation s)
    (r_receiver_boot_id s) (r_last_heartbeat s) (r_records s) (r_bindings s) (r_history s)
    (r_history_dropped s) (r_last_now s) (r_held_code s) v.

Definition new_registry (clock : nat → reading) (entropy : nat → string) : LeaseRegistry :=
  mkLeaseRegistry clock 0 entropy 1 ("generation_" +:+ entropy 0%nat) None None [] ∅ [] 0 None
    None false.

(** ** Argument checks *)
Definition _require_id (value : pyval) (code : string) : outcome string :=
  match value with
  | VStr s =>
      if (1 <=? str_len s) && (str_len s <=? _MAX_ID_BYTES) && all_chars (char_in _SAFE_ID) s
      then Ret s else Raise (LeaseError code)
  | _ => Raise (LeaseError code)
  end.

Definition _require_token (value : pyval) : outcome string :=
  match value with
  | VStr s =>
      if (1 <=? str_len s) && (str_len s <=? 64) && all_chars (char_in _SAFE_TOKEN) s
      then Ret s else Raise (LeaseError "invalid_sentinel")
  | _ => Raise (LeaseError "invalid_sentinel")
  end.

Definition _require_digest (value : pyval) : outcome string :=
  match value with
  | VStr s =>
      if (str_len s =? 64) && all_chars (char_in _HEX) s
      then Ret s else Raise (LeaseError "invalid_scope_digest")
  | _ => Raise (LeaseError "invalid_scope_digest")
  end.

Definition _require_service (value : pyval) : outcome string :=
  match value with
  | VStr s => if known_service s then Ret s else Raise (LeaseError "invalid_service")
  | _ => Raise (LeaseError "invalid_service")
  end.

Definition _require_reason (value : pyval) : outcome string :=
  match value with
  | VStr s => if str_in s REVOCATION_REASONS then Ret s else Raise (LeaseError "invalid_reason")
  | _ => Raise (LeaseError "invalid_reason")
  end.

Definition _require_time (value : pyval) (code : string) : outcome float :=
  match to_float value with
  | None => Raise (LeaseError code)
  | Some x => if negb (isfinite x) || fltb x fzero then Raise (LeaseError code) else Ret x
  end.

(** ** Metadata and its size *)
Record LeaseMetadata := mkLeaseMetadata {
  lm_generation : string;
  lm_lease_id : string;
  lm_run_id : string;
  lm_attempt_id : string;
  lm_receiver_boot_id : string;
  lm_service : string;
  lm_scope_digest : string;
  lm_expires_at : float;
  lm_created_at : float;
  lm_launch_at : option float;
  lm_retired_at : option float;
  lm_state : LeaseState;
}.

Definition _record_metadata (r : _Record) : LeaseMetadata :=
  let g := rec_grant r in
  mkLeaseMetadata (lg_generation g) (lg_lease_id g) (lg_run_id g) (lg_attempt_id g)
    (lg_receiver_boot_id g) (lg_service g) (lg_scope_digest g) (lg_expires_at g)
    (rec_created_at r) (rec_launch_at r) (rec_retired_at r) (rec_state r).

Definition metadata_json (m : LeaseMetadata) : json :=
  JObj [("generation", JStr (lm_generation m)); ("lease_id", JStr (lm_lease_id m));
        ("run_id", JStr (lm_run_id m)); ("attempt_id", JStr (lm_attempt_id m));
        ("receiver_boot_id", JStr (lm_receiver_boot_id m)); ("service", JStr (lm_service m));
        ("scope_digest", JStr (lm_scope_digest m)); ("expires_at", JFloat (lm_expires_at m));
        ("created_at", JFloat (lm_created_at m)); ("launch_at", JOption JFloat (lm_launch_at m));
        ("retired_at", JOption JFloat (lm_retired_at m));
        ("state", JStr (state_name (lm_state m)))].

Definition _receipt_metadata (r : LeaseReceipt) : json :=
  JObj [("operation", JStr (rc_operation r)); ("generation", JStr (rc_generation r));
        ("lease_id", JOption JStr (rc_lease_id r)); ("service", JOption JStr (rc_service r));
        ("state", JStr (rc_state r)); ("reason", JStr (rc_reason r));
        ("authorized", JOption JBool (rc_authorized r));
        ("observed_at", JFloat (rc_observed_at r))].

Definition live_count (rs : list _Record) : Z :=
  Z.of_nat (length (List.filter rec_live rs)).

Definition registry_state (s : LeaseRegistry) : string :=
  match r_held_code s with
  | Some _ => "held"
  | None => if r_control_stale s then "stale" else "ready"
  end.

Definition _snapshot_payload (s : LeaseRegistry) : list (string * json) :=
  let records := dict_values (r_records s) in
  [("generation", JStr (r_generation s)); ("registry_state", JStr (registry_state s));
   ("receiver_boot_id", JOption JStr (r_receiver_boot_id s));
   ("last_heartbeat", JOption JFloat (r_last_heartbeat s));
   ("live_leases", JInt (live_count records));
   ("retained_records", JInt (Z.of_nat (length records)));
   ("leases", JArr (map (λ r, metadata_json (_record_metadata r)) records));
   ("history", JArr (map _receipt_metadata (r_history s)));
   ("history_dropped", JInt (r_history_dropped s))].

Definition probe_bytes (payload : list (string * json)) (current : Z) : Z :=
  canonical_bytes (JObj (payload ++ [("metadata_bytes", JInt current)])).

(** The [while True] loop of [_fixed_point_bytes]; [None] is a loop still
    running when the fuel ends. *)
Fixpoint fixed_point_loop (fuel : nat) (payload : list (string * json)) (current : Z) : option Z :=
  match fuel with
  | O => None
  | S fuel' =>
      let updated := probe_bytes payload current in
      if updated =? current then Some updated else fixed_point_loop fuel' payload updated
  end.

Definition FIXED_POINT_FUEL : nat := 6.

Definition _fixed_point_bytes (payload : list (string * json)) : Z :=
  default 0 (fixed_point_loop FIXED_POINT_FUEL payload (canonical_bytes (JObj payload))).

Definition _snapshot_bytes (s : LeaseRegistry) : Z := _fixed_point_bytes (_snapshot_payload s).

Definition _admission_reserve_bytes (s : LeaseRegistry) (extra : _Record) : Z :=
  foldr (λ r acc, canonical_bytes (metadata_json (_record_metadata r)) +
                  STATE_TRANSITION_RESERVE_BYTES + acc) 0 (dict_values (r_records s) ++ [extra])
  + Z.of_nat MAX_HISTORY * HISTORY_RECEIPT_RESERVE_BYTES + TOP_LEVEL_RESERVE_BYTES.

#[global] Arguments _snapshot_bytes : simpl never.
#[global] Arguments _fixed_point_bytes : simpl never.
#[global] Arguments _admission_reserve_bytes : simpl never.
#[global] Arguments canonical_bytes : simpl never.

(** ** History *)
Definition _drop_history (count : Z) (s : LeaseRegistry) : LeaseRegistry :=
  set_r_history_dropped (Z.min MAX_HISTORY_DROPPED (r_history_dropped s + count)) s.

(** [while self._snapshot_bytes() > MAX_METADATA_BYTES and self._history],
    by recursion on the history [h] that is left. *)
Fixpoint trim_history (h : list LeaseReceipt) (s : LeaseRegistry) : LeaseRegistry :=
  let s1 := set_r_history h s in
  match h with
  | [] => s1
  | _ :: h' =>
      if MAX_METADATA_BYTES <? _snapshot_bytes s1 then trim_history h' (_drop_history 1 s1) else s1
  end.

Definition _record_receipt (operation : string) (lease_id service : option string)
    (state reason : string) (authorized : option bool) (now : float)
    : st LeaseRegistry LeaseReceipt := λ s,
  let receipt := mkLeaseReceipt operation (r_generation s) lease_id service state reason
                   authorized now in
  let s1 := if decide (length (r_history s) = MAX_HISTORY)
            then _drop_history 1 (set_r_history (tail (r_history s)) s) else s in
  (Ret receipt, trim_history (r_history s1 ++ [receipt]) s1).

(** ** Record transitions *)
Definition _retire (state : LeaseState) (now : float) (r : _Record) : _Record :=
  mkRecord (rec_grant r) (rec_receiver_boot_id r) (rec_created_at r) state (rec_launch_at r)
    (Some now).

Definition set_launched (launch : float) (r : _Record) : _Record :=
  mkRecord (rec_grant r) (rec_receiver_boot_id r) (rec_created_at r) Active (Some launch)
    (rec_retired_at r).

(** The earliest of the grant's expiry and the two lease windows. *)
Definition expiry_limit (r : _Record) : float :=
  let limit := fmin (lg_expires_at (rec_grant r)) (fadd (rec_created_at r) LEASE_SECONDS) in
  match rec_launch_at r with
  | Some launch => fmin limit (fadd launch LEASE_SECONDS)
  | None => limit
  end.

Definition update_record (f : _Record → _Record) (lease_id : string) : st LeaseRegistry unit :=
  modify (λ s, set_r_records (dict_alter f (r_records s) lease_id) s).

Definition _expire_record (lease_id : string) (now : float) (reason : string)
    : st LeaseRegistry unit :=
  found ← gets (λ s, dict_get (r_records s) lease_id);
  match found with
  | Some r =>
      if rec_live r && fleb (expiry_limit r) now then
        update_record (_retire Expired now) lease_id;;
        _record_receipt "expire" (Some (lg_lease_id (rec_grant r)))
          (Some (lg_service (rec_grant r))) "expired" reason None now;;
        mret tt
      else mret tt
  | None => mret tt
  end.

Definition revoke_if_live (reason : string) (now : float) (lease_id : string)
    : st LeaseRegistry unit :=
  found ← gets (λ s, dict_get (r_records s) lease_id);
  match found with
  | Some r =>
      if rec_live r then
        update_record (_retire Revoked now) lease_id;;
        _record_receipt "revoke" (Some (lg_lease_id (rec_grant r)))
          (Some (lg_service (rec_grant r))) "revoked" reason None now;;
        mret tt
      else mret tt
  | None => mret tt
  end.

Definition _retire_connected (reason : string) (now : float) : st LeaseRegistry unit :=
  ids ← gets (λ s, dict_keys (r_records s));
  for_each ids (revoke_if_live reason now).

(** ** Clock, retention and expiry *)
Definition prune_record (now : float) (kr : string * _Record) : st LeaseRegistry unit :=
  if fleb RETENTION_SECONDS (fsub now (rec_created_at kr.2)) then
    modify (λ s, set_r_bindings (delete (rec_binding kr.2) (r_bindings s))
                   (set_r_records (dict_pop (r_records s) kr.1) s))
  else mret tt.

Fixpoint prune_history (now : float) (h : list LeaseReceipt) (s : LeaseRegistry) : LeaseRegistry :=
  let s1 := set_r_history h s in
  match h with
  | [] => s1
  | rc :: h' =>
      if fleb RETENTION_SECONDS (fsub now (rc_observed_at rc))
      then prune_history now h' (_drop_history 1 s1) else s1
  end.

Definition _prune (now : float) : st LeaseRegistry unit :=
  items ← gets r_records;
  for_each items (prune_record now);;
  modify (λ s, prune_history now (r_history s) s).

Definition call_clock : st LeaseRegistry reading := λ s,
  (Ret (r_clock s (r_calls s)), set_r_calls (S (r_calls s)) s).

Definition heartbeat_late (s : LeaseRegistry) (now : float) : bool :=
  match r_last_heartbeat s with
  | Some hb => fleb HEARTBEAT_SECONDS (fsub now hb)
  | None => false
  end.

Definition _now : st LeaseRegistry float :=
  r ← call_clock;
  match (match r with Read v => _require_time v "clock_invalid" | ClockRaised => Raise (LeaseError "clock_invalid") end) with
  | Raise _ =>
      modify (set_r_held_code (Some "clock_invalid"));;
      raise (LeaseError "clock_invalid")
  | Ret now =>
      last ← gets r_last_now;
      if (match last with Some l => fltb now l | None => false end) then
        modify (set_r_held_code (Some "clock_regressed"));;
        raise (LeaseError "clock_regressed")
      else
        held ← gets r_held_code;
        require (bool_decide (held = None)) (LeaseError "registry_held");;
        modify (set_r_last_now (Some now));;
        _prune now;;
        ids ← gets (λ s, dict_keys (r_records s));
        for_each ids (λ id, _expire_record id now "expired");;
        late ← gets (λ s, bool_decide (r_receiver_boot_id s ≠ None) && heartbeat_late s now);
        if late : bool then
          _retire_connected "heartbeat_late" now;;
          modify (set_r_control_stale true);;
          mret now
        else mret now
  end.

(** ** Guards *)
Definition _require_generation (generation : pyval) : st LeaseRegistry unit :=
  g ← lift_outcome (_require_id generation "invalid_generation");
  mine ← gets r_generation;
  require (bool_decide (g = mine)) (LeaseError "generation_mismatch").

Definition _require_receiver (receiver_boot_id : pyval) (require_fresh : bool)
    : st LeaseRegistry string :=
  boot ← lift_outcome (_require_id receiver_boot_id "invalid_receiver_boot_id");
  mine ← gets r_receiver_boot_id;
  require (bool_decide (mine ≠ None)) (LeaseError "receiver_not_connected");;
  stale ← gets r_control_stale;
  require (negb (require_fresh && stale)) (LeaseError "heartbeat_late");;
  require (bool_decide (mine = Some boot)) (LeaseError "receiver_boot_mismatch");;
  mret boot.

Definition _record_for_control (lease_id : pyval) (receiver_boot_id : string)
    : st LeaseRegistry (string * _Record) :=
  id ← lift_outcome (_require_id lease_id "invalid_lease_id");
  found ← gets (λ s, dict_get (r_records s) id);
  match found with
  | None => raise (LeaseError "lease_unknown")
  | Some r =>
      require (bool_decide (rec_receiver_boot_id r = receiver_boot_id))
        (LeaseError "receiver_boot_mismatch");;
      mret (id, r)
  end.

Definition _ensure_registration_capacity : st LeaseRegistry unit :=
  records ← gets (λ s, dict_values (r_records s));
  require (live_count records <? MAX_LIVE_LEASES) (LeaseError "capacity_live");;
  require (Z.of_nat (length records) <? MAX_RECORDS) (LeaseError "capacity_total").

(** The held record object after other calls may have mutated it. *)
Definition reread (id : string) (r : _Record) : st LeaseRegistry _Record :=
  gets (λ s, default r (dict_get (r_records s) id)).

Definition draw : st LeaseRegistry string := λ s,
  (Ret (r_entropy s (r_draws s)), set_r_draws (S (r_draws s)) s).
Definition _new_id (prefix : string) : st LeaseRegistry string :=
  tok ← draw; mret (prefix +:+ "_" +:+ tok).
Definition _new_token : st LeaseRegistry string := draw.

(** ** Public methods *)
Definition hold : st LeaseRegistry unit :=
  modify (set_r_held_code (Some "control_failure")).

Definition handshake (receiver_boot_id generation : pyval) : st LeaseRegistry LeaseReceipt :=
  now ← _now;
  _require_generation generation;;
  boot ← lift_outcome (_require_id receiver_boot_id "invalid_receiver_boot_id");
  mine ← gets r_receiver_boot_id;
  (if bool_decide (mine ≠ None) && bool_decide (mine ≠ Some boot)
   then _retire_connected "receiver_replaced" now else mret tt);;
  modify (set_r_receiver_boot_id (Some boot));;
  modify (set_r_last_heartbeat (Some now));;
  modify (set_r_control_stale false);;
  _record_receipt "handshake" None None "connected" "ok" None now.

Definition heartbeat (receiver_boot_id generation : pyval) : st LeaseRegistry LeaseReceipt :=
  now ← _now;
  _require_generation generation;;
  _require_receiver receiver_boot_id false;;
  stale ← gets r_control_stale;
  if stale : bool then
    modify (set_r_last_heartbeat (Some now));;
    modify (set_r_control_stale false);;
    _record_receipt "heartbeat" None None "connected" "late_recovered" None now
  else
    modify (set_r_last_heartbeat (Some now));;
    _record_receipt "heartbeat" None None "connected" "ok" None now.

Definition disconnect (receiver_boot_id generation : pyval) : st LeaseRegistry LeaseReceipt :=
  now ← _now;
  _require_generation generation;;
  _require_receiver receiver_boot_id false;;
  _retire_connected "receiver_disconnected" now;;
  modify (set_r_receiver_boot_id None);;
  modify (set_r_last_heartbeat None);;
  modify (set_r_control_stale false);;
  _record_receipt "disconnect" None None "disconnected" "ok" None now.

Definition register (run_id attempt_id receiver_boot_id service scope_digest expires_at
    generation : pyval) : st LeaseRegistry LeaseGrant :=
  now ← _now;
  _require_generation generation;;
  boot ← _require_receiver receiver_boot_id true;
  run ← lift_outcome (_require_id run_id "invalid_run_id");
  att ← lift_outcome (_require_id attempt_id "invalid_attempt_id");
  svc ← lift_outcome (_require_service service);
  digest ← lift_outcome (_require_digest scope_digest);
  expiry ← lift_outcome (_require_time expires_at "invalid_expiry");
  require (fltb now expiry && fleb expiry (fadd now LEASE_SECONDS)) (LeaseError "invalid_expiry");;
  known ← gets (λ s, r_bindings s !! (run, att, svc));
  match known with
  | Some known_id =>
      found ← gets (λ s, dict_get (r_records s) known_id);
      match found with
      | None => raise (Exn "KeyError" known_id)
      | Some r =>
          _expire_record known_id now "expired";;
          r' ← reread known_id r;
          require (rec_live r') (LeaseError "replay_not_live");;
          gen ← gets r_generation;
          require (bool_decide (rec_receiver_boot_id r' = boot) &&
                   bool_decide (lg_generation (rec_grant r) = gen) &&
                   bool_decide (lg_scope_digest (rec_grant r) = digest) &&
                   feqb (lg_expires_at (rec_grant r)) expiry) (LeaseError "binding_conflict");;
          mret (rec_grant r)
      end
  | None =>
      _ensure_registration_capacity;;
      gen ← gets r_generation;
      lease_id ← _new_id "lease";
      sentinel ← _new_token;
      let grant := mkLeaseGrant gen lease_id run att boot svc digest expiry sentinel in
      let record := mkRecord grant boot now Registered None None in
      reserve ← gets (λ s, _admission_reserve_bytes s record);
      require (reserve <=? MAX_METADATA_BYTES) (LeaseError "capacity_metadata");;
      modify (λ s, set_r_records (dict_set (r_records s) lease_id record) s);;
      modify (λ s, set_r_bindings (<[(run, att, svc) := lease_id]> (r_bindings s)) s);;
      _record_receipt "register" (Some lease_id) (Some svc) "registered" "ok" None now;;
      mret grant
  end.

Definition activate (lease_id receiver_boot_id generation launch_at : pyval)
    : st LeaseRegistry LeaseReceipt :=
  now ← _now;
  _require_generation generation;;
  boot ← _require_receiver receiver_boot_id true;
  '(id, r) ← _record_for_control lease_id boot;
  launch ← lift_outcome (_require_time launch_at "invalid_launch_time");
  require (negb (fltb launch (rec_created_at r) || fltb now launch))
    (LeaseError "invalid_launch_time");;
  _expire_record id now "expired";;
  r' ← reread id r;
  match rec_state r' with
  | Revoked => raise (LeaseError "lease_revoked")
  | Expired => raise (LeaseError "lease_expired")
  | Active =>
      require (match rec_launch_at r' with Some l => feqb l launch | None => false end)
        (LeaseError "lease_active");;
      _record_receipt "activate" (Some (lg_lease_id (rec_grant r')))
        (Some (lg_service (rec_grant r'))) "active" "replay" None now
  | Registered =>
      if fleb (fadd launch LEASE_SECONDS) now then
        update_record (_retire Expired now) id;;
        raise (LeaseError "lease_expired")
      else
        update_record (set_launched launch) id;;
        _record_receipt "activate" (Some (lg_lease_id (rec_grant r')))
          (Some (lg_service (rec_grant r'))) "active" "ok" None now
  end.

Definition revoke (lease_id receiver_boot_id generation reason : pyval)
    : st LeaseRegistry LeaseReceipt :=
  now ← _now;
  _require_generation generation;;
  boot ← _require_receiver receiver_boot_id false;
  '(id, r) ← _record_for_control lease_id boot;
  why ← lift_outcome (_require_reason reason);
  _expire_record id now "expired";;
  r' ← reread id r;
  match rec_state r' with
  | Expired => raise (LeaseError "lease_expired")
  | Revoked => raise (LeaseError "lease_revoked")
  | Registered | Active =>
      update_record (_retire Revoked now) id;;
      _record_receipt "revoke" (Some (lg_lease_id (rec_grant r')))
        (Some (lg_service (rec_grant r'))) "revoked" why None now
  end.

(** The first record, in registration order, with this service and sentinel. *)
Definition find_sentinel (service sentinel : string) (s : LeaseRegistry)
    : option (string * _Record) :=
  List.find (λ kr, bool_decide (lg_service (rec_grant kr.2) = service) &&
                   bool_decide (lg_sentinel (rec_grant kr.2) = sentinel)) (r_records s).

Definition check (service sentinel generation scope_digest : pyval)
    : st LeaseRegistry LeaseReceipt :=
  now ← _now;
  svc ← lift_outcome (_require_service service);
  tok ← lift_outcome (_require_token sentinel);
  digest ← lift_outcome (_require_digest scope_digest);
  gen ← lift_outcome (_require_id generation "invalid_generation");
  mine ← gets r_generation;
  boot ← gets r_receiver_boot_id;
  hb ← gets r_last_heartbeat;
  if bool_decide (gen ≠ mine) then
    _record_receipt "check" None (Some svc) "denied" "generation_mismatch" (Some false) now
  else if bool_decide (boot = None) then
    _record_receipt "check" None (Some svc) "denied" "receiver_disconnected" (Some false) now
  else if (match hb with Some h => fleb HEARTBEAT_SECONDS (fsub now h) | None => true end) then
    _retire_connected "heartbeat_late" now;;
    _record_receipt "check" None (Some svc) "denied" "heartbeat_late" (Some false) now
  else
    found ← gets (find_sentinel svc tok);
    match found with
    | None => _record_receipt "check" None (Some svc) "denied" "sentinel_unknown" (Some false) now
    | Some (id, r) =>
        let lid := Some (lg_lease_id (rec_grant r)) in
        _expire_record id now "expired";;
        r' ← reread id r;
        if bool_decide (rec_state r' ≠ Active) then
          _record_receipt "check" lid (Some svc) "denied" ("lease_" +:+ state_name (rec_state r'))
            (Some false) now
        else if bool_decide (lg_scope_digest (rec_grant r) ≠ digest) then
          _record_receipt "check" lid (Some svc) "denied" "scope_mismatch" (Some false) now
        else _record_receipt "check" lid (Some svc) "active" "ok" (Some true) now
    end.

Record RegistrySnapshot := mkRegistrySnapshot {
  rs_generation : string;
  rs_registry_state : string;
  rs_receiver_boot_id : option string;
  rs_last_heartbeat : option float;
  rs_live_leases : Z;
  rs_retained_records : Z;
  rs_leases : list LeaseMetadata;
  rs_history : list LeaseReceipt;
  rs_history_dropped : Z;
  rs_metadata_bytes : Z;
}.

Definition snapshot : st LeaseRegistry RegistrySnapshot :=
  tried ← attempt _now;
  now ← (match tried with
         | Ret now => mret now
         | Raise _ => gets (λ s, default fzero (r_last_now s))
         end);
  _prune now;;
  gets (λ s, mkRegistrySnapshot (r_generation s) (registry_state s) (r_receiver_boot_id s)
    (r_last_heartbeat s) (live_count (dict_values (r_records s)))
    (Z.of_nat (length (r_records s))) (map _record_metadata (dict_values (r_records s)))
    (r_history s) (r_history_dropped s) (_snapshot_bytes s)).
