(* ===== verification/LeasesInv.v ===== *)
(** * The lease registry keeps its invariants

    Shared by the registry's theorems: the well-formedness invariant [wf], the
    lifecycle relation [evolves], and the proof that every method of
    Leases.v preserves the first and stays within the second, for any
    arguments and any clock. *)

From stdpp Require Import pretty.
From S2P Require Import Prelude PyValue PyJson Services Leases.
Local Open Scope string_scope.
Local Open Scope Z_scope.

(** ** The size loop ends *)
Lemma probe_bytes_eq payload c :
  payload ≠ [] →
  probe_bytes payload c = canonical_bytes (JObj payload) + 18 + str_len (int_repr c).
Proof.
  intros Hne. unfold probe_bytes. rewrite !canonical_bytes_obj, foldr_app, length_app. cbn [foldr].
  assert (Hfold : ∀ m acc, foldr (λ kv acc, member_len kv + acc) acc m =
    foldr (λ kv acc, member_len kv + acc) 0 m + acc).
  { induction m as [|kv m IH]; intros acc; simpl; [lia|]. rewrite IH. lia. }
  rewrite Hfold.
  change (member_len ("metadata_bytes", JInt c)) with (17 + str_len (int_repr c)).
  destruct payload as [|kv payload]; [done|]. cbn [length]. lia.
Qed.

Lemma int_repr_len_le z : 0 < z → str_len (int_repr z) ≤ z.
Proof.
  intros Hz. destruct (int_repr_len z Hz) as (k & -> & Hk & Hlo & _).
  pose proof (Z.pow_gt_lin_r 10 (k - 1)). lia.
Qed.

(** From any start the iteration reaches its fixed point in four steps: after
    the first, the number of digits takes one of two values and never falls. *)
Lemma fixed_point_reached payload :
  payload ≠ [] →
  ∃ n, fixed_point_loop 4 payload (canonical_bytes (JObj payload)) = Some n ∧
       probe_bytes payload n = n.
Proof.
  intros Hne. pose proof (canonical_bytes_obj_pos payload) as HB.
  set (B := canonical_bytes (JObj payload)) in *.
  set (f := probe_bytes payload).
  assert (Hf : ∀ c, f c = B + 18 + str_len (int_repr c)) by (intros; by apply probe_bytes_eq).
  set (D := str_len (int_repr (B + 18))).
  assert (HD : 0 < D ≤ B + 18) by (split; [apply int_repr_len_pos; lia | apply int_repr_len_le; lia]).
  assert (Hd : ∀ x, 0 ≤ x ≤ D + 1 → D ≤ str_len (int_repr (B + 18 + x)) ≤ D + 1).
  { intros x Hx. split; [apply int_repr_len_mono; lia|]. apply int_repr_len_add; lia. }
  assert (Hm : ∀ a b, 0 < a → a ≤ b → str_len (int_repr a) ≤ str_len (int_repr b))
    by (intros; by apply int_repr_len_mono).
  assert (Hd0 : 0 < str_len (int_repr B) ≤ D)
    by (split; [by apply int_repr_len_pos | apply Hm; lia]).
  pose proof (Hd (str_len (int_repr B)) ltac:(lia)) as H1. rewrite <-Hf in H1.
  pose proof (Hd (str_len (int_repr (f B))) ltac:(lia)) as H2. rewrite <-Hf in H2.
  pose proof (Hd (str_len (int_repr (f (f B)))) ltac:(lia)) as H3. rewrite <-Hf in H3.
  pose proof (Hf B). pose proof (Hf (f B)). pose proof (Hf (f (f B))). pose proof (Hf (f (f (f B)))).
  pose proof (Hm (f B) (f (f B)) ltac:(lia) ltac:(lia)).
  pose proof (Hm (f (f B)) (f (f (f B))) ltac:(lia) ltac:(lia)).
  cbn [fixed_point_loop]. change (probe_bytes payload) with f. clearbody f.
  destruct (f B =? B) eqn:E0; bool_simpl; [exists B; split; [congruence|exact E0]|].
  destruct (f (f B) =? f B) eqn:E1; bool_simpl; [exists (f B); split; [congruence|exact E1]|].
  destruct (f (f (f B)) =? f (f B)) eqn:E2; bool_simpl; [exists (f (f B)); split; [congruence|exact E2]|].
  destruct (f (f (f (f B))) =? f (f (f B))) eqn:E3; bool_simpl; [exists (f (f (f B))); split; [congruence|exact E3]|].
  lia.
Qed.

Lemma fixed_point_more n m payload c v :
  (n ≤ m)%nat → fixed_point_loop n payload c = Some v → fixed_point_loop m payload c = Some v.
Proof.
  revert m c. induction n as [|n IH]; intros m c Hle; [done|].
  destruct m as [|m]; [lia|]. cbn. case_match; [done|]. apply IH. lia.
Qed.

(** ** Well-formedness *)

(** The timestamps a record carries in each state. *)
Definition record_shape (r : _Record) : Prop :=
  match rec_state r with
  | Registered => rec_launch_at r = None ∧ rec_retired_at r = None
  | Active => is_Some (rec_launch_at r) ∧ rec_retired_at r = None
  | Revoked | Expired => is_Some (rec_retired_at r)
  end.

(** The tokens drawn at positions [i] and [S i] became this record's id and
    sentinel. *)
Definition drawn_at (entropy : nat → string) (i : nat) (id : string) (r : _Record) : Prop :=
  id = "lease_" +:+ entropy i ∧ lg_sentinel (rec_grant r) = entropy (S i).

Record wf_record (s : LeaseRegistry) (id : string) (r : _Record) : Prop := {
  wfr_id : lg_lease_id (rec_grant r) = id;
  wfr_generation : lg_generation (rec_grant r) = r_generation s;
  wfr_boot : lg_receiver_boot_id (rec_grant r) = rec_receiver_boot_id r;
  wfr_connected : rec_live r = true → r_receiver_boot_id s = Some (rec_receiver_boot_id r);
  wfr_drawn : ∃ i, (S i < r_draws s)%nat ∧ drawn_at (r_entropy s) i id r;
  wfr_shape : record_shape r;
  wfr_service : known_service (lg_service (rec_grant r)) = true;
  wfr_created : isfinite (rec_created_at r) = true;
  wfr_expires : isfinite (lg_expires_at (rec_grant r)) = true;
  wfr_launch : ∀ l, rec_launch_at r = Some l → isfinite l = true;
}.

Definition live_weight (r : _Record) : Z := if rec_live r then 1 else 0.
Definition no_live (s : LeaseRegistry) : Prop :=
  ∀ id r, dict_get (r_records s) id = Some r → rec_live r = false.

Record wf (s : LeaseRegistry) : Prop := {
  wf_dict : dict_ok (r_records s);
  wf_rec : ∀ id r, dict_get (r_records s) id = Some r → wf_record s id r;
  wf_bind : ∀ b id, r_bindings s !! b = Some id ↔
              ∃ r, dict_get (r_records s) id = Some r ∧ rec_binding r = b;
  wf_live : dict_sum live_weight (r_records s) ≤ MAX_LIVE_LEASES;
  wf_total : Z.of_nat (length (r_records s)) ≤ MAX_RECORDS;
  wf_history : (length (r_history s) ≤ MAX_HISTORY)%nat;
  wf_dropped : 0 ≤ r_history_dropped s ≤ MAX_HISTORY_DROPPED;
  wf_stale : r_control_stale s = true → no_live s;
  wf_heartbeat : r_receiver_boot_id s ≠ None → r_last_heartbeat s ≠ None;
  wf_tokens : Inj (=) (=) (r_entropy s);
}.

(** ** The lease lifecycle

    registered, then active, then revoked or expired; a lease may skip states
    but never returns to an earlier one, and its grant never changes. *)
Definition state_rank (st : LeaseState) : Z :=
  match st with Registered => 0 | Active => 1 | Revoked | Expired => 2 end.

Definition state_le (a b : LeaseState) : Prop := a = b ∨ state_rank a < state_rank b.

Record rec_evolves (r r' : _Record) : Prop := {
  re_grant : rec_grant r' = rec_grant r;
  re_boot : rec_receiver_boot_id r' = rec_receiver_boot_id r;
  re_created : rec_created_at r' = rec_created_at r;
  re_state : state_le (rec_state r) (rec_state r');
  re_launch : ∀ l, rec_launch_at r = Some l → rec_launch_at r' = Some l;
}.

Record evolves (s s' : LeaseRegistry) : Prop := {
  ev_clock : r_clock s' = r_clock s;
  ev_entropy : r_entropy s' = r_entropy s;
  ev_generation : r_generation s' = r_generation s;
  ev_draws : (r_draws s ≤ r_draws s')%nat;
  ev_records : ∀ id r', dict_get (r_records s') id = Some r' →
    (∃ r, dict_get (r_records s) id = Some r ∧ rec_evolves r r') ∨
    (∃ i, (r_draws s ≤ i)%nat ∧ drawn_at (r_entropy s) i id r');
}.

#[export] Instance state_le_po : PreOrder state_le.
Proof.
  split; [by left|]. intros a b c [->|] [->|]; unfold state_le in *; auto with lia.
Qed.

#[export] Instance rec_evolves_po : PreOrder rec_evolves.
Proof.
  split.
  - intros r. by split; try reflexivity.
  - intros r1 r2 r3 [] []. split; try congruence; eauto. by etransitivity.
Qed.

#[export] Instance evolves_po : PreOrder evolves.
Proof.
  split.
  - intros s. split; try reflexivity. intros id r Hr. left. exists r. by split.
  - intros s1 s2 s3 [C1 E1 G1 D1 R1] [C2 E2 G2 D2 R2]. split; try congruence; [lia|].
    intros id r3 Hr3. destruct (R2 id r3 Hr3) as [(r2 & Hr2 & H23)|(i & Hi & Hdr)].
    + destruct (R1 id r2 Hr2) as [(r1 & Hr1 & H12)|(i & Hi & Hid & Hs)].
      * left. exists r1. split; [done|]. by transitivity r2.
      * right. exists i. unfold drawn_at. by rewrite (re_grant _ _ H23).
    + right. exists i. rewrite E1 in Hdr. split; [lia|done].
Qed.

(** What every method does to the registry. *)
Definition sound_step (s s' : LeaseRegistry) : Prop := wf s → wf s' ∧ evolves s s'.

#[export] Instance sound_step_refl : Reflexive sound_step.
Proof. intros s Hs. by split. Qed.
#[export] Instance sound_step_trans : Transitive sound_step.
Proof.
  intros s1 s2 s3 H12 H23 H1. destruct (H12 H1) as [H2 E12]. destruct (H23 H2) as [H3 E23].
  split; [done|]. by transitivity s2.
Qed.

(** *** Steps that leave the records alone *)

(** [same_core s s']: nothing the record invariants mention has changed. *)
Record same_core (s s' : LeaseRegistry) : Prop := {
  sc_clock : r_clock s' = r_clock s;
  sc_entropy : r_entropy s' = r_entropy s;
  sc_draws : r_draws s' = r_draws s;
  sc_generation : r_generation s' = r_generation s;
  sc_receiver : r_receiver_boot_id s' = r_receiver_boot_id s;
  sc_records : r_records s' = r_records s;
  sc_bindings : r_bindings s' = r_bindings s;
}.

Lemma wf_record_ext s s' id r :
  r_generation s' = r_generation s → r_receiver_boot_id s' = r_receiver_boot_id s →
  r_entropy s' = r_entropy s → (r_draws s ≤ r_draws s')%nat →
  wf_record s id r → wf_record s' id r.
Proof.
  intros Hg Hb He Hd [? ? ? ? (i & Hi & Hdr) ? ? ? ? ?]. split; try congruence; try done.
  - by rewrite Hb.
  - exists i. rewrite He. split; [lia|done].
Qed.

Lemma same_core_step s s' :
  same_core s s' →
  (wf s → (length (r_history s') ≤ MAX_HISTORY)%nat ∧ 0 ≤ r_history_dropped s' ≤ MAX_HISTORY_DROPPED ∧
     (r_control_stale s' = true → no_live s) ∧
     (r_receiver_boot_id s ≠ None → r_last_heartbeat s' ≠ None)) →
  sound_step s s'.
Proof.
  intros Hc Hh Hs. destruct (Hh Hs) as (Hl & Hd & Hst & Hhb). destruct Hs.
  pose proof Hc as [E1 E2 E3 E4 E5 E6 E7]. split.
  - split; rewrite ?E6, ?E7, ?E5, ?E2; try done.
    + intros id r Hr. apply (wf_record_ext s); auto with lia.
    + intros Hstale id r. rewrite E6. by apply Hst.
  - split; try done; [lia|]. rewrite E6. intros id r Hr. left. exists r. by split.
Qed.

(** *** A record mutated in place *)
Lemma update_step s id r f :
  dict_get (r_records s) id = Some r →
  (wf_record s id r → wf_record s id (f r)) →
  rec_evolves r (f r) →
  (rec_live (f r) = true → rec_live r = true) →
  sound_step s (set_r_records (dict_alter f (r_records s) id) s).
Proof.
  intros Hr Hwf Hev Hlive Hs. pose proof Hs as []. split.
  - split; cbn; auto with dict.
    + intros id' r'. rewrite dict_get_alter. intros Hr'. apply (wf_record_ext s); try done.
      revert Hr'. case_decide; subst; [|apply wf_rec0]. rewrite Hr. intros [= <-]. auto.
    + intros b id'. rewrite wf_bind0. rewrite dict_get_alter. case_decide; subst; [|done].
      rewrite Hr. cbn. unfold rec_binding.
      split; intros (r' & [= <-] & <-); eexists; (split; [done|]); by rewrite (re_grant _ _ Hev).
    + etransitivity; [|exact wf_live0]. apply dict_sum_alter_le. intros v. rewrite Hr. intros [= <-].
      unfold live_weight. destruct (rec_live (f r)) eqn:E; [by rewrite Hlive|]. by destruct (rec_live r).
    + by rewrite length_dict_alter.
    + intros Hst id' r'. cbn. rewrite dict_get_alter. case_decide; subst; [|by apply wf_stale0].
      rewrite Hr. intros [= <-]. specialize (wf_stale0 Hst id' r Hr).
      destruct (rec_live (f r)); [|done]. by rewrite Hlive in wf_stale0.
  - split; try done. cbn. intros id' r'. rewrite dict_get_alter. case_decide; subst.
    + rewrite Hr. intros [= <-]. left. by exists r.
    + intros Hr'. left. exists r'. by split.
Qed.

(** ** History calls *)

(** A call that changed the history and its drop counter only. *)
Definition with_history (h : list LeaseReceipt) (n : Z) (s : LeaseRegistry) : LeaseRegistry :=
  set_r_history h (set_r_history_dropped n s).

Definition dropped_ok (n : Z) : Prop := 0 ≤ n ≤ MAX_HISTORY_DROPPED.

Lemma with_history_id s : s = with_history (r_history s) (r_history_dropped s) s.
Proof. by destruct s. Qed.

Lemma drop_history_ok n : dropped_ok n → dropped_ok (Z.min MAX_HISTORY_DROPPED (n + 1)).
Proof. unfold dropped_ok, MAX_HISTORY_DROPPED. lia. Qed.

Lemma trim_history_spec h s :
  ∃ h' n, trim_history h s = with_history h' n s ∧ (length h' ≤ length h)%nat ∧
          (dropped_ok (r_history_dropped s) → dropped_ok n).
Proof.
  revert s. induction h as [|rc h IH]; intros s; cbn [trim_history prune_history].
  - exists [], (r_history_dropped s). split_and!; [by destruct s|done|done].
  - case_match.
    + destruct (IH (_drop_history 1 (set_r_history (rc :: h) s))) as (h' & n & -> & Hl & Hn).
      exists h', n. split_and!; [done|cbn [length]; lia|]. intros Hd. by apply Hn, drop_history_ok.
    + exists (rc :: h), (r_history_dropped s). split_and!; [by destruct s|done|done].
Qed.

Lemma prune_history_spec now h s :
  ∃ h' n, prune_history now h s = with_history h' n s ∧ (length h' ≤ length h)%nat ∧
          (dropped_ok (r_history_dropped s) → dropped_ok n).
Proof.
  revert s. induction h as [|rc h IH]; intros s; cbn [trim_history prune_history].
  - exists [], (r_history_dropped s). split_and!; [by destruct s|done|done].
  - case_match.
    + destruct (IH (_drop_history 1 (set_r_history (rc :: h) s))) as (h' & n & -> & Hl & Hn).
      exists h', n. split_and!; [done|cbn [length]; lia|]. intros Hd. by apply Hn, drop_history_ok.
    + exists (rc :: h), (r_history_dropped s). split_and!; [by destruct s|done|done].
Qed.

Lemma record_receipt_spec op lid svc st rs au now s :
  ∃ h n, _record_receipt op lid svc st rs au now s =
    (Ret (mkLeaseReceipt op (r_generation s) lid svc st rs au now), with_history h n s) ∧
    ((length (r_history s) ≤ MAX_HISTORY)%nat → (length h ≤ MAX_HISTORY)%nat) ∧
    (dropped_ok (r_history_dropped s) → dropped_ok n).
Proof.
  unfold _record_receipt. case_decide as Hlen.
  - destruct (trim_history_spec (tail (r_history s) ++
      [mkLeaseReceipt op (r_generation s) lid svc st rs au now])
      (_drop_history 1 (set_r_history (tail (r_history s)) s))) as (h & n & E & Hl & Hn).
    cbn in E |- *. rewrite E. exists h, n. split_and!; [done| |].
    + intros _. rewrite length_app, length_tl in Hl. cbn [length] in Hl. unfold MAX_HISTORY in *. lia.
    + intros Hd. by apply Hn, drop_history_ok.
  - destruct (trim_history_spec (r_history s ++
      [mkLeaseReceipt op (r_generation s) lid svc st rs au now]) s) as (h & n & E & Hl & Hn).
    rewrite E. exists h, n. split_and!; [done| |done].
    intros Hle. rewrite length_app in Hl. cbn in Hl. lia.
Qed.

Lemma with_history_step s h n :
  ((length (r_history s) ≤ MAX_HISTORY)%nat → (length h ≤ MAX_HISTORY)%nat) →
  (dropped_ok (r_history_dropped s) → dropped_ok n) →
  sound_step s (with_history h n s).
Proof.
  intros Hh Hn. apply same_core_step; [by split|]. intros []. cbn.
  split_and!; [by apply Hh|by apply Hn..|done|done].
Qed.

Lemma within_record_receipt op lid svc st rs au now :
  within sound_step (_record_receipt op lid svc st rs au now).
Proof.
  intros s. destruct (record_receipt_spec op lid svc st rs au now s) as (h & n & -> & ? & ?).
  by apply with_history_step.
Qed.
#[export] Hint Resolve within_record_receipt : within.

(** Steps on control fields that no invariant restricts. *)
Lemma within_set_held code : within sound_step (modify (set_r_held_code code)).
Proof. apply within_modify. intros s. apply same_core_step; [by split|]. by intros []. Qed.

Lemma within_set_last_now t : within sound_step (modify (set_r_last_now t)).
Proof. apply within_modify. intros s. apply same_core_step; [by split|]. by intros []. Qed.

Lemma within_call_clock : within sound_step call_clock.
Proof. intros s. apply same_core_step; [by split|]. by intros []. Qed.

Lemma within_set_heartbeat t : within sound_step (modify (set_r_last_heartbeat (Some t))).
Proof. apply within_modify. intros s. apply same_core_step; [by split|]. by intros []. Qed.

Lemma within_clear_stale : within sound_step (modify (set_r_control_stale false)).
Proof. apply within_modify. intros s. apply same_core_step; [by split|]. by intros []. Qed.
#[export] Hint Resolve within_set_held within_set_last_now within_call_clock
  within_set_heartbeat within_clear_stale : within.

(** ** Retiring records *)
Lemma retire_evolves r st now :
  rec_live r = true → is_live st = false → rec_evolves r (_retire st now r).
Proof.
  intros Hl Hst. split; try done. right. unfold rec_live in Hl. cbn.
  destruct (rec_state r), st; cbn in *; try done; lia.
Qed.

Lemma retire_step s id r st now :
  dict_get (r_records s) id = Some r → rec_live r = true → is_live st = false →
  sound_step s (set_r_records (dict_alter (_retire st now) (r_records s) id) s).
Proof.
  intros Hr Hl Hst. apply update_step with r; auto using retire_evolves.
  intros [? ? ? ? ? ? ? ? ? ?]; split; try done.
  - unfold rec_live. cbn. by rewrite Hst.
  - unfold record_shape. cbn. destruct st; [done..| |]; by eexists.
Qed.

(** [_expire_record] and [revoke_if_live] retire one record, when [b] holds of
    it, and note it in the history. *)
Definition retire_one (b : _Record → bool) (st : LeaseState) (now : float) (op rst rs : string)
    (id : string) : Prelude.st LeaseRegistry unit :=
  found ← gets (λ s, dict_get (r_records s) id);
  match found with
  | Some r =>
      if b r then
        update_record (_retire st now) id;;
        _record_receipt op (Some (lg_lease_id (rec_grant r))) (Some (lg_service (rec_grant r)))
          rst rs None now;;
        mret tt
      else mret tt
  | None => mret tt
  end.

Definition due (now : float) (r : _Record) : bool := rec_live r && fleb (expiry_limit r) now.

Lemma expire_record_eq id now reason :
  _expire_record id now reason = retire_one (due now) Expired now "expire" "expired" reason id.
Proof. done. Qed.

Lemma revoke_if_live_eq reason now id :
  revoke_if_live reason now id = retire_one rec_live Revoked now "revoke" "revoked" reason id.
Proof. done. Qed.

Section retire_one.
Context (b : _Record → bool) (st : LeaseState) (now : float) (op rst rs : string).
Context (Hb : ∀ r, b r = true → rec_live r = true) (Hst : is_live st = false).

Lemma retire_one_within id : within sound_step (retire_one b st now op rst rs id).
Proof using Hb Hst.
  apply within_gets_bind. intros s.
  destruct (dict_get (r_records s) id) as [r|] eqn:Hr; [|reflexivity].
  destruct (b r) eqn:E; [|reflexivity].
  unfold update_record. rewrite bind_modify.
  etransitivity; [by eapply (retire_step s id r st now); auto|].
  apply within_bind; [apply _|apply within_record_receipt|]. intros _. apply within_ret, _.
Qed.

Lemma retire_one_spec id s :
  ∃ s', retire_one b st now op rst rs id s = (Ret tt, s') ∧
    r_records s' = match dict_get (r_records s) id with
                   | Some r => if b r then dict_alter (_retire st now) (r_records s) id
                               else r_records s
                   | None => r_records s
                   end.
Proof.
  unfold retire_one. rewrite bind_gets.
  destruct (dict_get (r_records s) id) as [r|]; [|by eexists].
  destruct (b r); [|by eexists]. unfold update_record. rewrite bind_modify.
  destruct (record_receipt_spec op (Some (lg_lease_id (rec_grant r)))
    (Some (lg_service (rec_grant r))) rst rs None now
    (set_r_records (dict_alter (_retire st now) (r_records s) id) s)) as (h & n & E & _).
  rewrite (bind_ret_eq _ _ _ _ _ E). by eexists.
Qed.

(** Retiring over a list of keys: a record that is still live was live before
    and did not satisfy [b] when its key was in the list. *)
Lemma retire_all_spec ids s :
  ∃ s', for_each ids (retire_one b st now op rst rs) s = (Ret tt, s') ∧
    ∀ id r', dict_get (r_records s') id = Some r' → rec_live r' = true →
      dict_get (r_records s) id = Some r' ∧ (id ∈ ids → b r' = false).
Proof using Hb Hst.
  revert s. induction ids as [|k ids IH]; intros s; cbn [for_each].
  - exists s. split; [done|]. intros id r' Hr' Hl. split; [done|]. intros H. by apply elem_of_nil in H.
  - destruct (retire_one_spec k s) as (s1 & E1 & R1). rewrite (bind_ret_eq _ _ _ _ _ E1).
    destruct (IH s1) as (s2 & E2 & H2). exists s2. split; [done|].
    intros id r' Hr' Hl. destruct (H2 id r' Hr' Hl) as [Hs1 Hnb].
    rewrite R1 in Hs1. destruct (dict_get (r_records s) k) as [r|] eqn:Hk.
    + destruct (b r) eqn:Hbr.
      * rewrite dict_get_alter in Hs1. case_decide as Hki; subst.
        { rewrite Hk in Hs1. injection Hs1 as <-. unfold rec_live in Hl. cbn in Hl. congruence. }
        split; [done|]. intros [->|?]%elem_of_cons; [done|by apply Hnb].
      * split; [done|]. intros [->|?]%elem_of_cons; [congruence|by apply Hnb].
    + split; [done|]. intros [->|?]%elem_of_cons; [congruence|by apply Hnb].
Qed.
End retire_one.

Lemma due_live now r : due now r = true → rec_live r = true.
Proof. by intros [? _]%andb_true_iff. Qed.

Lemma within_expire_record id now reason : within sound_step (_expire_record id now reason).
Proof. rewrite expire_record_eq. apply retire_one_within; [apply due_live|done]. Qed.

Lemma within_revoke_if_live reason now id : within sound_step (revoke_if_live reason now id).
Proof. rewrite revoke_if_live_eq. by apply retire_one_within. Qed.
#[export] Hint Resolve within_expire_record within_revoke_if_live : within.

Lemma retire_connected_spec reason now s :
  ∃ s', _retire_connected reason now s = (Ret tt, s') ∧ no_live s'.
Proof.
  unfold _retire_connected. rewrite bind_gets.
  destruct (retire_all_spec rec_live Revoked now "revoke" "revoked" reason (λ r H, H) eq_refl
    (dict_keys (r_records s)) s) as (s' & E & Hs').
  exists s'. split; [exact E|]. intros id r Hr. destruct (rec_live r) eqn:Hl; [|done].
  destruct (Hs' id r Hr Hl) as [Hget Hb]. rewrite Hb in Hl; [done|]. apply dict_get_keys. eauto.
Qed.

Lemma within_retire_connected reason now : within sound_step (_retire_connected reason now).
Proof. unfold _retire_connected. within_auto. Qed.
#[export] Hint Resolve within_retire_connected : within.

(** ** Retention *)
Lemma pop_step s id r :
  dict_get (r_records s) id = Some r →
  sound_step s (set_r_bindings (delete (rec_binding r) (r_bindings s))
                  (set_r_records (dict_pop (r_records s) id) s)).
Proof.
  intros Hr Hs. pose proof Hs as [].
  assert (Hget : ∀ id', dict_get (dict_pop (r_records s) id) id' =
    if decide (id = id') then None else dict_get (r_records s) id') by (intros; by apply dict_get_pop).
  split.
  - split; cbn; auto with dict.
    + intros id' r'. rewrite Hget. case_decide; [done|]. intros Hr'.
      apply (wf_record_ext s); auto with lia.
    + intros b id'. rewrite lookup_delete_Some, wf_bind0, Hget. split.
      * intros (Hb & r' & Hr' & <-). case_decide; [congruence|]. by exists r'.
      * intros (r' & Hr' & <-). case_decide as Hid; [done|]. split; [|by exists r'].
        intros Hb. apply Hid.
        assert (r_bindings s !! rec_binding r = Some id) by (apply wf_bind0; eauto).
        assert (r_bindings s !! rec_binding r = Some id') by (rewrite Hb; apply wf_bind0; eauto).
        congruence.
    + etransitivity; [|exact wf_live0]. apply dict_sum_pop_le. intros v. unfold live_weight. by case_match.
    + pose proof (length_dict_pop_le (r_records s) id). lia.
    + intros Hst id' r'. cbn. rewrite Hget. case_decide; [done|]. by apply wf_stale0.
  - split; try done. cbn. intros id' r'. rewrite Hget. case_decide; [done|].
    intros Hr'. left. by exists r'.
Qed.

Lemma prune_items_step now items s :
  NoDup items.*1 →
  (∀ id r, (id, r) ∈ items → dict_get (r_records s) id = Some r) →
  sound_step s (for_each items (prune_record now) s).2.
Proof.
  revert s. induction items as [|[id r] items IH]; intros s Hnd Hin; [reflexivity|].
  cbn [for_each]. apply NoDup_cons in Hnd as [Hid Hnd].
  intros Hs. pose proof (wf_dict _ Hs) as Hok. revert Hs. change (sound_step s
    ((prune_record now (id, r) ≫= λ _, for_each items (prune_record now)) s).2).
  assert (Hr : dict_get (r_records s) id = Some r) by (apply Hin; by left).
  assert (E : prune_record now (id, r) =
    if fleb RETENTION_SECONDS (fsub now (rec_created_at r)) then
      modify (λ s, set_r_bindings (delete (rec_binding r) (r_bindings s))
                     (set_r_records (dict_pop (r_records s) id) s))
    else mret tt) by done.
  rewrite E. destruct (fleb RETENTION_SECONDS (fsub now (rec_created_at r))).
  - rewrite bind_modify. etransitivity; [by apply (pop_step s id r)|].
    apply IH; [done|]. cbn. intros id' r' Hin'. rewrite dict_get_pop by done.
    rewrite decide_False; [apply Hin; by right|]. intros ->. apply Hid.
    apply list_elem_of_fmap. by exists (id', r').
  - rewrite (bind_ret_eq _ _ _ tt s) by done. apply IH; [done|]. intros. apply Hin. by right.
Qed.

Lemma within_prune now : within sound_step (_prune now).
Proof.
  unfold _prune. apply within_gets_bind. intros s Hs.
  pose proof (wf_dict _ Hs) as Hok. revert Hs.
  change (sound_step s ((for_each (r_records s) (prune_record now) ≫= λ _,
    modify (λ s, prune_history now (r_history s) s)) s).2).
  pose proof (prune_items_step now (r_records s) s Hok) as Hp.
  unfold mbind, st_bind. destruct (for_each _ _ s) as [[u|e] s1]; simpl in Hp;
    (etransitivity; [apply Hp; intros; by apply elem_dict_get|]); [|reflexivity].
  destruct (prune_history_spec now (r_history s1) s1) as (h & n & E & Hl & Hn).
  unfold modify. cbn [snd]. rewrite E. apply with_history_step; [lia|done].
Qed.
#[export] Hint Resolve within_prune : within.

(** ** Which control fields the record calls leave alone *)
Record ctrl_eq (s s' : LeaseRegistry) : Prop := {
  ce_clock : r_clock s' = r_clock s;
  ce_calls : r_calls s' = r_calls s;
  ce_entropy : r_entropy s' = r_entropy s;
  ce_draws : r_draws s' = r_draws s;
  ce_generation : r_generation s' = r_generation s;
  ce_receiver : r_receiver_boot_id s' = r_receiver_boot_id s;
  ce_heartbeat : r_last_heartbeat s' = r_last_heartbeat s;
  ce_last_now : r_last_now s' = r_last_now s;
  ce_held : r_held_code s' = r_held_code s;
  ce_stale : r_control_stale s' = r_control_stale s;
}.

#[export] Instance ctrl_eq_refl : Reflexive ctrl_eq.
Proof. by split. Qed.
#[export] Instance ctrl_eq_trans : Transitive ctrl_eq.
Proof. intros ? ? ? [] []. split; congruence. Qed.

Lemma ctrl_record_receipt op lid svc st rs au now :
  within ctrl_eq (_record_receipt op lid svc st rs au now).
Proof. intros s. by destruct (record_receipt_spec op lid svc st rs au now s) as (h & n & -> & ? & ?). Qed.

Lemma ctrl_update_record f id : within ctrl_eq (update_record f id).
Proof. by apply within_modify. Qed.

Lemma ctrl_prune_record now kr : within ctrl_eq (prune_record now kr).
Proof. unfold prune_record. case_match; [by apply within_modify | apply within_ret, _]. Qed.

Lemma ctrl_prune_history now : within ctrl_eq (modify (λ s, prune_history now (r_history s) s)).
Proof. intros s. cbn. by destruct (prune_history_spec now (r_history s) s) as (h & n & -> & ? & ?). Qed.
#[export] Hint Resolve ctrl_record_receipt ctrl_update_record ctrl_prune_record
  ctrl_prune_history : within.

Lemma ctrl_expire_record id now reason : within ctrl_eq (_expire_record id now reason).
Proof. unfold _expire_record. within_auto. Qed.

Lemma ctrl_revoke_if_live reason now id : within ctrl_eq (revoke_if_live reason now id).
Proof. unfold revoke_if_live. within_auto. Qed.
#[export] Hint Resolve ctrl_expire_record ctrl_revoke_if_live : within.

Lemma ctrl_retire_connected reason now : within ctrl_eq (_retire_connected reason now).
Proof. unfold _retire_connected. within_auto. Qed.

Lemma ctrl_prune now : within ctrl_eq (_prune now).
Proof. unfold _prune. within_auto. Qed.
#[export] Hint Resolve ctrl_retire_connected ctrl_prune : within.

(** ** Reading the clock *)
Definition reading_outcome (r : reading) : outcome float :=
  match r with
  | Read v => _require_time v "clock_invalid"
  | ClockRaised => Raise (LeaseError "clock_invalid")
  end.

(** What holds after [_now] returned: time did not go back, the registry is
    not held, no live lease is past its limit, and a late heartbeat left no
    live lease at all. *)
Record now_post (s s' : LeaseRegistry) (now : float) : Prop := {
  np_reading : reading_outcome (r_clock s (r_calls s)) = Ret now;
  np_calls : r_calls s' = S (r_calls s);
  np_monotone : ∀ l, r_last_now s = Some l → fltb now l = false;
  np_held : r_held_code s = None ∧ r_held_code s' = None;
  np_last : r_last_now s' = Some now;
  np_control : r_receiver_boot_id s' = r_receiver_boot_id s ∧ r_last_heartbeat s' = r_last_heartbeat s;
  np_due : ∀ id r, dict_get (r_records s') id = Some r → due now r = false;
  np_late : r_receiver_boot_id s' ≠ None → heartbeat_late s' now = true →
              no_live s' ∧ r_control_stale s' = true;
  np_fresh : heartbeat_late s' now = false → r_control_stale s' = r_control_stale s;
}.

Lemma set_stale_step s : no_live s → sound_step s (set_r_control_stale true s).
Proof. intros Hn. apply same_core_step; [by split|]. intros []. by cbn. Qed.

(** What follows [_retire_connected] runs in a registry without live leases. *)
Lemma within_retire_then {A} reason now (k : unit → st LeaseRegistry A) :
  (∀ s, no_live s → sound_step s (k tt s).2) →
  within sound_step (_retire_connected reason now ≫= k).
Proof.
  intros Hk s. destruct (retire_connected_spec reason now s) as (s1 & E & Hn).
  rewrite (bind_ret_eq _ _ _ _ _ E). transitivity s1; [|by apply Hk].
  pose proof (within_retire_connected reason now s) as Hw. by rewrite E in Hw.
Qed.

Lemma within_mark_late now :
  within sound_step (_retire_connected "heartbeat_late" now;; modify (set_r_control_stale true);;
                     mret now).
Proof. apply within_retire_then. intros s Hn. rewrite bind_modify. by apply set_stale_step. Qed.
#[export] Hint Resolve within_mark_late : within.

Lemma within_now : within sound_step _now.
Proof. unfold _now. within_auto. Qed.
#[export] Hint Resolve within_now : within.
