(* ===== verification/LeasesOps.v ===== *)
(** * What the registry's methods do

    [_now] and the nine public methods of Leases.v: the facts that hold when
    [_now] returns, the step each method makes, and runs of any sequence of
    calls. *)

From S2P Require Import Prelude PyValue PyJson Services Leases LeasesInv.
Local Open Scope string_scope.
Local Open Scope Z_scope.

(** ** Results of the argument checks *)
Lemma require_time_inv v code t :
  _require_time v code = Ret t → isfinite t = true ∧ fltb t fzero = false.
Proof.
  unfold _require_time. destruct (to_float v) as [x|]; [|done].
  destruct (negb (isfinite x) || fltb x fzero) eqn:E; [done|]. intros [= ->].
  by bool_simpl.
Qed.

Lemma require_service_inv v svc : _require_service v = Ret svc → known_service svc = true ∧ v = VStr svc.
Proof.
  unfold _require_service. destruct v; try done. destruct (known_service _) eqn:?; [|done].
  by intros [= ->].
Qed.

Lemma require_token_inv v tok : _require_token v = Ret tok → v = VStr tok.
Proof. unfold _require_token. destruct v; try done. case_match; [|done]. by intros [= ->]. Qed.

Lemma require_digest_inv v d : _require_digest v = Ret d → v = VStr d.
Proof. unfold _require_digest. destruct v; try done. case_match; [|done]. by intros [= ->]. Qed.

Lemma require_id_inv v code d : _require_id v code = Ret d → v = VStr d.
Proof. unfold _require_id. destruct v; try done. case_match; [|done]. by intros [= ->]. Qed.

Lemma reading_outcome_inv r t : reading_outcome r = Ret t → isfinite t = true ∧ fltb t fzero = false.
Proof. destruct r; [|done]. apply require_time_inv. Qed.

(** ** [_now] *)
Lemma expire_all_due now ids s :
  ∃ s', for_each ids (λ id, _expire_record id now "expired") s = (Ret tt, s') ∧
    ∀ id r, dict_get (r_records s') id = Some r → id ∈ ids → due now r = false.
Proof.
  destruct (retire_all_spec (due now) Expired now "expire" "expired" "expired" (due_live now)
    eq_refl ids s) as (s' & E & H).
  exists s'. split; [exact E|]. intros id r Hr Hin.
  destruct (due now r) eqn:Hd; [|done].
  destruct (H id r Hr (due_live _ _ Hd)) as [_ Hb]. by rewrite Hb in Hd.
Qed.

Lemma expire_all_keys now ids s :
  ∀ id, is_Some (dict_get (r_records (for_each ids (λ id, _expire_record id now "expired") s).2) id) →
        is_Some (dict_get (r_records s) id).
Proof.
  revert s. induction ids as [|k ids IH]; intros s id; [done|]. cbn [for_each].
  destruct (retire_one_spec (due now) Expired now "expire" "expired" "expired" k s) as (s1 & E & R).
  rewrite <-expire_record_eq in E. rewrite (bind_ret_eq _ _ _ _ _ E). intros H.
  apply IH in H. rewrite R in H. repeat case_match; try done.
  rewrite dict_get_alter in H. case_decide; [|done]. by apply fmap_is_Some in H.
Qed.

Lemma no_live_due now s id r : no_live s → dict_get (r_records s) id = Some r → due now r = false.
Proof. intros Hn Hr. unfold due. by rewrite (Hn id r Hr). Qed.

(** The three outcomes of a reading that ends [_now] early, and the work of
    one that does not. *)
Definition now_body (now : float) : st LeaseRegistry float :=
  modify (set_r_last_now (Some now));;
  _prune now;;
  ids ← gets (λ s, dict_keys (r_records s));
  for_each ids (λ id, _expire_record id now "expired");;
  late ← gets (λ s, bool_decide (r_receiver_boot_id s ≠ None) && heartbeat_late s now);
  if late : bool then
    _retire_connected "heartbeat_late" now;; modify (set_r_control_stale true);; mret now
  else mret now.

Definition regressed (s : LeaseRegistry) (now : float) : bool :=
  match r_last_now s with Some l => fltb now l | None => false end.

Lemma now_eq s :
  let s1 := set_r_calls (S (r_calls s)) s in
  _now s = match reading_outcome (r_clock s (r_calls s)) with
           | Raise _ => (Raise (LeaseError "clock_invalid"), set_r_held_code (Some "clock_invalid") s1)
           | Ret now =>
               if regressed s now then
                 (Raise (LeaseError "clock_regressed"), set_r_held_code (Some "clock_regressed") s1)
               else match r_held_code s with
                    | Some _ => (Raise (LeaseError "registry_held"), s1)
                    | None => now_body now s1
                    end
           end.
Proof.
  intros s1. unfold _now. rewrite (bind_ret_eq call_clock _ s (r_clock s (r_calls s)) s1) by done.
  unfold reading_outcome. destruct (match r_clock s (r_calls s) with Read _ => _ | _ => _ end); [|done].
  rewrite bind_gets. cbn -[now_body]. fold (regressed s a). destruct (regressed s a); [done|].
  rewrite bind_gets. cbn -[now_body]. by destruct (r_held_code s).
Qed.

Lemma prune_items_ret now items s : ∃ s', for_each items (prune_record now) s = (Ret tt, s').
Proof.
  revert s. induction items as [|kr items IH]; intros s; [by eexists|]. cbn [for_each].
  assert (∃ s1, prune_record now kr s = (Ret tt, s1)) as (s1 & E)
    by (unfold prune_record; case_match; by eexists).
  rewrite (bind_ret_eq _ _ _ _ _ E). apply IH.
Qed.

Lemma prune_ret now s : ∃ s', _prune now s = (Ret tt, s').
Proof.
  unfold _prune. rewrite bind_gets. destruct (prune_items_ret now (r_records s) s) as (s1 & E).
  rewrite (bind_ret_eq _ _ _ _ _ E). by eexists.
Qed.

Lemma ctrl_expire_all now ids : within ctrl_eq (for_each ids (λ id, _expire_record id now "expired")).
Proof. within_auto. Qed.

Lemma now_body_spec now s :
  r_held_code s = None →
  ∃ s', now_body now s = (Ret now, s') ∧ r_calls s' = r_calls s ∧ r_held_code s' = None ∧
    r_last_now s' = Some now ∧ r_receiver_boot_id s' = r_receiver_boot_id s ∧
    r_last_heartbeat s' = r_last_heartbeat s ∧
    (∀ id r, dict_get (r_records s') id = Some r → due now r = false) ∧
    (r_receiver_boot_id s' ≠ None → heartbeat_late s' now = true →
       no_live s' ∧ r_control_stale s' = true) ∧
    (heartbeat_late s' now = false → r_control_stale s' = r_control_stale s).
Proof.
  intros Hheld. unfold now_body. rewrite bind_modify. set (s0 := set_r_last_now (Some now) s).
  destruct (prune_ret now s0) as (s1 & E1). rewrite (bind_ret_eq _ _ _ _ _ E1).
  pose proof (ctrl_prune now s0) as C1. rewrite E1 in C1. cbn in C1.
  rewrite bind_gets. destruct (expire_all_due now (dict_keys (r_records s1)) s1) as (s2 & E2 & D2).
  pose proof (expire_all_keys now (dict_keys (r_records s1)) s1) as K2. rewrite E2 in K2.
  pose proof (ctrl_expire_all now (dict_keys (r_records s1)) s1) as C2. rewrite E2 in C2. cbn in C2, K2.
  rewrite (bind_ret_eq _ _ _ _ _ E2), bind_gets.
  assert (C : ctrl_eq s0 s2) by by transitivity s1. destruct C. subst s0. cbn in *.
  assert (Hdue : ∀ id r, dict_get (r_records s2) id = Some r → due now r = false).
  { intros id r Hr. apply (D2 id r Hr), dict_get_keys, K2. eauto. }
  destruct (bool_decide (r_receiver_boot_id s2 ≠ None) && heartbeat_late s2 now) eqn:Hl.
  - destruct (retire_connected_spec "heartbeat_late" now s2) as (s3 & E3 & Hn).
    pose proof (ctrl_retire_connected "heartbeat_late" now s2) as C3. rewrite E3 in C3. cbn in C3.
    destruct C3. rewrite (bind_ret_eq _ _ _ _ _ E3), bind_modify. eexists. split; [done|]. cbn.
    bool_simpl. split_and!; try congruence.
    + intros id r. by apply no_live_due.
    + done.
    + revert H0. unfold heartbeat_late. cbn. rewrite ce_heartbeat0. congruence.
  - eexists. split; [done|]. split_and!; try done; try congruence.
    intros Hb Hh. rewrite Hh, andb_true_r in Hl. by bool_simpl.
Qed.

Lemma now_ret s now s' : _now s = (Ret now, s') → now_post s s' now.
Proof.
  rewrite now_eq. destruct (reading_outcome _) as [t|] eqn:Hr; [|done].
  destruct (regressed s t) eqn:Hreg; [done|]. destruct (r_held_code s) eqn:Hh; [done|].
  destruct (now_body_spec t (set_r_calls (S (r_calls s)) s) Hh)
    as (s1 & E & H1 & H2 & H3 & H4 & H5 & H6 & H7 & H8).
  rewrite E. intros [= -> ->]. split; try done.
  intros l Hl. unfold regressed in Hreg. by rewrite Hl in Hreg.
Qed.

(** A method that starts with [_now] is judged by what follows it. *)
Lemma within_now_then {A} (k : float → st LeaseRegistry A) :
  (∀ s s' now, now_post s s' now → sound_step s' (k now s').2) → within sound_step (_now ≫= k).
Proof.
  intros Hk s. pose proof (within_now s) as Hw. unfold mbind, st_bind.
  destruct (_now s) as [[now|e] s'] eqn:E; cbn in *; [|done].
  transitivity s'; [done|]. apply (Hk s s' now), now_ret, E.
Qed.

(** A public method: it reads the clock, and what follows is sound in the
    state that left. *)
Definition timed {A} (m : st LeaseRegistry A) : Prop :=
  ∃ k : float → st LeaseRegistry A, m = (_now ≫= k) ∧
    ∀ s s' now, now_post s s' now → sound_step s' (k now s').2.

Lemma within_timed {A} (m : st LeaseRegistry A) : timed m → within sound_step m.
Proof. intros (k & -> & Hk). by apply within_now_then. Qed.

Lemma timed_auto {A} (k : float → st LeaseRegistry A) :
  (∀ now, within sound_step (k now)) → timed (_now ≫= k).
Proof. intros Hk. exists k. split; [done|]. intros s s' now _. apply Hk. Qed.

(** ** The public methods *)
Lemma connect_step s rb hb :
  no_live s ∨ r_receiver_boot_id s = rb → (rb ≠ None → hb ≠ None) →
  sound_step s (set_r_control_stale false (set_r_last_heartbeat hb (set_r_receiver_boot_id rb s))).
Proof.
  intros Hrb Hhb Hs. pose proof Hs as [? Hrec ? ? ? ? ? ? ? ?]. split.
  - split; cbn; try done. intros id r Hr.
    destruct (Hrec id r Hr) as [? ? ? Hc ? ? ? ? ? ?]. split; try done. cbn.
    intros Hl. destruct Hrb as [Hn| <-]; [|by apply Hc]. by rewrite (Hn id r Hr) in Hl.
  - split; try done. cbn. intros id r Hr. left. exists r. by split.
Qed.

Lemma not_connected_no_live s : wf s → r_receiver_boot_id s = None → no_live s.
Proof.
  intros Hs Hn id r Hr. destruct (rec_live r) eqn:Hl; [|done].
  by rewrite (wfr_connected _ _ _ (wf_rec _ Hs id r Hr) Hl) in Hn.
Qed.

Lemma within_require_generation g : within sound_step (_require_generation g).
Proof. unfold _require_generation. within_auto. Qed.

Lemma within_require_receiver b f : within sound_step (_require_receiver b f).
Proof. unfold _require_receiver. within_auto. Qed.

Lemma within_record_for_control i b : within sound_step (_record_for_control i b).
Proof. unfold _record_for_control. within_auto. Qed.

Lemma within_ensure_capacity : within sound_step _ensure_registration_capacity.
Proof. unfold _ensure_registration_capacity. within_auto. Qed.

Lemma within_draw : within sound_step draw.
Proof.
  intros s Hs. pose proof Hs as [? Hrec ? ? ? ? ? ? ? ?]. split.
  - split; try done. cbn. intros id r Hr. apply (wf_record_ext s); try done; [cbn; lia|by apply Hrec].
  - split; try done; cbn; [lia|]. intros id r Hr. left. exists r. by split.
Qed.
#[export] Hint Resolve within_require_generation within_require_receiver
  within_record_for_control within_ensure_capacity within_draw : within.

Lemma within_hold : within sound_step hold.
Proof. apply within_set_held. Qed.

Lemma timed_heartbeat b g : timed (heartbeat b g).
Proof. apply timed_auto. intros now. within_auto. Qed.

Lemma within_snapshot : within sound_step snapshot.
Proof. unfold snapshot. within_auto. Qed.

Lemma timed_check svc tok g d : timed (check svc tok g d).
Proof. apply timed_auto. intros now. unfold reread. within_auto. Qed.
#[export] Hint Resolve within_hold within_snapshot : within.

Lemma reads_require_generation g s : reads (_require_generation g) s (λ _, g = VStr (r_generation s)).
Proof.
  unfold _require_generation. repeat read_step. read_last. bool_simpl. subst. by eapply require_id_inv.
Qed.

Lemma reads_require_receiver b f s :
  reads (_require_receiver b f) s
    (λ boot, b = VStr boot ∧ r_receiver_boot_id s = Some boot ∧ (f = true → r_control_stale s = false)).
Proof.
  unfold _require_receiver. repeat read_step. read_last. bool_simpl. subst. split_and!; [by eapply require_id_inv|done|].
  intros ->. by destruct (r_control_stale s).
Qed.

Lemma reads_record_for_control i b s :
  reads (_record_for_control i b) s
    (λ '(id, r), i = VStr id ∧ dict_get (r_records s) id = Some r ∧ rec_receiver_boot_id r = b).
Proof.
  unfold _record_for_control. repeat read_step. subst. case_match; [|by split].
  repeat read_step. read_last. bool_simpl. subst.
  split_and!; [by eapply require_id_inv|done..].
Qed.

Lemma reads_ensure_capacity s :
  reads _ensure_registration_capacity s
    (λ _, live_count (dict_values (r_records s)) < MAX_LIVE_LEASES ∧
          Z.of_nat (length (r_records s)) < MAX_RECORDS).
Proof.
  unfold _ensure_registration_capacity. repeat read_step. read_last. bool_simpl. subst. unfold dict_values in *. by rewrite length_fmap in *.
Qed.

Lemma reads_reread id r0 r s :
  dict_get (r_records s) id = Some r → reads (reread id r0) s (λ r', r' = r).
Proof. intros Hr. split; [done|]. cbn. rewrite Hr. by intros a [= ->]. Qed.
#[export] Hint Resolve reads_require_generation reads_require_receiver reads_record_for_control
  reads_ensure_capacity : reads.

Lemma timed_handshake b g : timed (handshake b g).
Proof.
  eexists. split; [reflexivity|]. cbn beta. intros s0 s now _. repeat read_step. subst. intros Hs. revert Hs.
  assert (Htail : ∀ s, no_live s ∨ r_receiver_boot_id s = Some a0 →
    sound_step s ((modify (set_r_receiver_boot_id (Some a0));; modify (set_r_last_heartbeat (Some now));;
      modify (set_r_control_stale false);;
      _record_receipt "handshake" None None "connected" "ok" None now) s).2).
  { intros s1 H1. rewrite !bind_modify. etransitivity; [by apply (connect_step s1 (Some a0) (Some now))|].
    apply within_record_receipt. }
  case_bool_decide as Hc; [case_bool_decide as Hd|]; cbn [andb].
  - apply within_retire_then. intros s1 Hn. apply Htail. by left.
  - apply Htail. by right.
  - intros Hs. apply Htail; [|done]. left. by apply not_connected_no_live.
Qed.

Lemma timed_disconnect b g : timed (disconnect b g).
Proof.
  eexists. split; [reflexivity|]. cbn beta. intros s0 s now _. do 2 read_step.
  apply within_retire_then. intros s1 Hn. rewrite !bind_modify.
  etransitivity; [apply (connect_step s1 None None); [by left|done]|]. apply within_record_receipt.
Qed.

Lemma launch_step s id r launch :
  dict_get (r_records s) id = Some r → rec_state r = Registered → isfinite launch = true →
  sound_step s (set_r_records (dict_alter (set_launched launch) (r_records s) id) s).
Proof.
  intros Hr Hreg Hfin Hs. pose proof (wfr_shape _ _ _ (wf_rec _ Hs id r Hr)) as Hshape.
  unfold record_shape in Hshape. rewrite Hreg in Hshape. destruct Hshape as [Hl Hret].
  assert (Hlive : rec_live r = true) by (unfold rec_live; by rewrite Hreg).
  revert Hs. apply update_step with r; try done.
  - intros [? ? ? Hc ? ? ? ? ? ?]. split; try done; [by intros _; apply Hc|].
    by intros l [= <-].
  - split; try done; cbn; [|congruence]. right. rewrite Hreg. cbn. lia.
Qed.

Lemma expire_ret id now reason s :
  ∃ s', _expire_record id now reason s = (Ret tt, s') ∧
    ∀ r, dict_get (r_records s) id = Some r →
      dict_get (r_records s') id = Some (if due now r then _retire Expired now r else r).
Proof.
  rewrite expire_record_eq.
  destruct (retire_one_spec (due now) Expired now "expire" "expired" reason id s) as (s' & E & R).
  exists s'. split; [done|]. intros r Hr. rewrite R, Hr. destruct (due now r); [|done].
  rewrite dict_get_alter, decide_True, Hr by done. done.
Qed.

(** [_expire_record] on a held record, then its state is looked at again. *)
Lemma step_expire_reread {A} id now reason r (k : _Record → st LeaseRegistry A) s :
  dict_get (r_records s) id = Some r →
  (∀ s', dict_get (r_records s') id = Some r → sound_step s' (k r s').2) →
  (∀ r' s', rec_state r' = Expired → sound_step s' (k r' s').2) →
  sound_step s ((_expire_record id now reason;; r' ← reread id r; k r') s).2.
Proof.
  intros Hr Hkept Hdead. pose proof (within_expire_record id now reason s) as Hw.
  destruct (expire_ret id now reason s) as (s1 & E & H1). rewrite E in Hw.
  rewrite (bind_ret_eq _ _ _ _ _ E). transitivity s1; [done|]. specialize (H1 r Hr).
  eapply step_reads; [apply _|by eapply reads_reread|]. cbn beta. intros ? ->.
  destruct (due now r); [by apply Hdead|by apply Hkept].
Qed.

Lemma timed_activate i b g l : timed (activate i b g l).
Proof.
  eexists. split; [reflexivity|]. cbn beta. intros s0 s now Hnow. do 3 read_step. destruct a1 as [id r].
  destruct H1 as (-> & Hr & Hb). do 2 read_step. apply step_expire_reread; [done| |].
  2: { intros r' s' ->. reflexivity. }
  intros s' Hr'. destruct (rec_state r) eqn:Hst; try reflexivity.
  - unfold update_record. case_match; rewrite bind_modify.
    + apply (retire_step s' id r); try done. unfold rec_live. by rewrite Hst.
    + etransitivity; [apply (launch_step s' id r a1); try done; by eapply require_time_inv|].
      apply within_record_receipt.
  - read_step. apply within_record_receipt.
Qed.

Lemma timed_revoke i b g why : timed (revoke i b g why).
Proof.
  eexists. split; [reflexivity|]. cbn beta. intros s0 s now Hnow. do 3 read_step. destruct a1 as [id r].
  destruct H1 as (-> & Hr & Hb). read_step. apply step_expire_reread; [done| |].
  2: { intros r' s' ->. reflexivity. }
  intros s' Hr'. unfold update_record. destruct (rec_state r) eqn:Hst; try reflexivity; rewrite bind_modify;
    (etransitivity; [apply (retire_step s' id r Revoked now); try done; unfold rec_live; by rewrite Hst|
                     apply within_record_receipt]).
Qed.

Lemma live_count_sum (d : dict string _Record) : live_count (dict_values d) = dict_sum live_weight d.
Proof.
  unfold live_count, dict_values, dict_sum, live_weight. induction d as [|[k r] d IH]; [done|]. cbn.
  destruct (rec_live r); cbn; lia.
Qed.

(** A new record under a fresh id. *)
Lemma admit_step s run att svc boot digest expiry now sentinel :
  let lease_id := "lease_" +:+ r_entropy s (r_draws s) in
  let grant := mkLeaseGrant (r_generation s) lease_id run att boot svc digest expiry sentinel in
  let record := mkRecord grant boot now Registered None None in
  let s2 := set_r_draws (S (S (r_draws s))) s in
  sentinel = r_entropy s (S (r_draws s)) →
  r_bindings s !! (run, att, svc) = None →
  live_count (dict_values (r_records s)) < MAX_LIVE_LEASES →
  Z.of_nat (length (r_records s)) < MAX_RECORDS →
  r_receiver_boot_id s = Some boot → r_control_stale s = false →
  known_service svc = true → isfinite now = true → isfinite expiry = true →
  sound_step s (set_r_bindings (<[(run, att, svc) := lease_id]> (r_bindings s))
                 (set_r_records (dict_set (r_records s) lease_id record) s2)).
Proof.
  intros lease_id grant record s2 Hsent Hbind Hlive Htot Hboot Hstale Hsvc Hnow Hexp Hs.
  assert (Hfresh : dict_get (r_records s) lease_id = None).
  { destruct (dict_get (r_records s) lease_id) as [r|] eqn:Hr; [|done].
    destruct (wfr_drawn _ _ _ (wf_rec _ Hs _ _ Hr)) as (i & Hi & Hid & _).
    unfold lease_id in Hid. apply (inj (String.append _)) in Hid.
    apply (wf_tokens _ Hs) in Hid. lia. }
  assert (Hdr : drawn_at (r_entropy s) (r_draws s) lease_id record) by done.
  pose proof Hs as [Hok Hrec Hb Hl Ht Hh Hd Hst Hhb Htok].
  assert (Hget : ∀ id, dict_get (dict_set (r_records s) lease_id record) id =
    if decide (lease_id = id) then Some record else dict_get (r_records s) id)
    by (intros; apply dict_get_set).
  split.
  - split; cbn -[dict_sum dict_set]; auto with dict.
    + intros id r. rewrite Hget. case_decide as E; [|intros Hr; apply (wf_record_ext s); cbn; auto with lia].
      intros [= <-]. subst id. split; try done. exists (r_draws s). split; [cbn; lia|done].
    + intros b id. rewrite Hget. rewrite lookup_insert_Some, Hb. split.
      * intros [[<- <-]|[Hne (r & Hr & <-)]]; [rewrite decide_True by done; by exists record|].
        rewrite decide_False by (intros ->; congruence). by exists r.
      * intros (r & Hr & <-). case_decide as E; [by left; simplify_eq|]. right. split; [|eauto].
        intros Heq. enough (r_bindings s !! rec_binding r = Some id) by congruence. apply Hb. eauto.
    + rewrite dict_set_fresh, dict_sum_app, <-live_count_sum by done. cbn. unfold MAX_LIVE_LEASES in *. lia.
    + rewrite dict_set_fresh, length_app by done. cbn. lia.
    + intros ?. congruence.
  - split; try done; cbn; [lia|]. intros id r. rewrite Hget. case_decide as E.
    + intros [= <-]. subst id. right. exists (r_draws s). split; [lia|done].
    + intros Hr. left. by exists r.
Qed.

Lemma timed_register run att boot svc dig exp gen :
  timed (register run att boot svc dig exp gen).
Proof.
  eexists. split; [reflexivity|]. cbn beta. intros s0 s now Hnow. do 8 read_step. read_step.
  destruct H0 as (-> & Hboot & Hfresh). subst a7.
  destruct (r_bindings s !! (a1, a2, a3)) as [known_id|] eqn:Hk.
  - read_step. subst. case_match; [|reflexivity].
    apply step_expire_reread; [done|intros s' _|intros r' s' _]; repeat read_step; reflexivity.
  - do 2 read_step. destruct H0 as [Hlive Htot]. subst.
    rewrite (bind_ret_eq (_new_id "lease") _ s ("lease_" +:+ r_entropy s (r_draws s))
               (set_r_draws (S (r_draws s)) s)) by done.
    rewrite (bind_ret_eq _new_token _ _ (r_entropy s (S (r_draws s)))
               (set_r_draws (S (S (r_draws s))) s)) by done.
    set (s2 := set_r_draws (S (S (r_draws s))) s).
    rewrite bind_gets. unfold require. case_match; cycle 1.
    { transitivity (set_r_draws (S (r_draws s)) s); [apply (within_draw s)|].
      apply (within_draw (set_r_draws (S (r_draws s)) s)). }
    rewrite (bind_ret_eq _ _ _ tt s2) by done. rewrite !bind_modify.
    etransitivity; [apply (admit_step s a1 a2 a3 a0 a4 a5 now (r_entropy s (S (r_draws s)))); try done|].
    all: try (by eapply require_time_inv); try (by eapply require_service_inv); try by apply Hfresh.
    { eapply reading_outcome_inv, np_reading, Hnow. }
    apply (within_bind sound_step); [apply within_record_receipt|]. intros. apply within_ret, _.
Qed.
#[export] Hint Resolve within_timed timed_handshake timed_heartbeat timed_disconnect timed_register
  timed_activate timed_revoke timed_check : within.

(** ** Sequences of calls *)
Inductive registry_call :=
| CallHold
| CallHandshake (receiver_boot_id generation : pyval)
| CallHeartbeat (receiver_boot_id generation : pyval)
| CallDisconnect (receiver_boot_id generation : pyval)
| CallRegister (run_id attempt_id receiver_boot_id service scope_digest expires_at generation : pyval)
| CallActivate (lease_id receiver_boot_id generation launch_at : pyval)
| CallRevoke (lease_id receiver_boot_id generation reason : pyval)
| CallCheck (service sentinel generation scope_digest : pyval)
| CallSnapshot.

Definition run_call (c : registry_call) : st LeaseRegistry unit :=
  match c with
  | CallHold => hold
  | CallHandshake b g => handshake b g;; mret tt
  | CallHeartbeat b g => heartbeat b g;; mret tt
  | CallDisconnect b g => disconnect b g;; mret tt
  | CallRegister r a b s d e g => register r a b s d e g;; mret tt
  | CallActivate i b g l => activate i b g l;; mret tt
  | CallRevoke i b g w => revoke i b g w;; mret tt
  | CallCheck s t g d => check s t g d;; mret tt
  | CallSnapshot => snapshot;; mret tt
  end.

(** The state after a client's calls; a call that raised keeps its effects. *)
Definition run_calls (cs : list registry_call) (s : LeaseRegistry) : LeaseRegistry :=
  foldl (λ s c, (run_call c s).2) s cs.

Lemma within_run_call c : within sound_step (run_call c).
Proof. destruct c; cbn [run_call]; within_auto. Qed.

Lemma run_calls_ind (R : LeaseRegistry → LeaseRegistry → Prop) `{!Reflexive R, !Transitive R} cs s :
  (∀ c, within R (run_call c)) → R s (run_calls cs s).
Proof.
  intros HR. unfold run_calls. revert s. induction cs as [|c cs IH]; intros s; cbn; [reflexivity|].
  etransitivity; [apply HR|apply IH].
Qed.

Lemma run_calls_sound cs s : sound_step s (run_calls cs s).
Proof. apply run_calls_ind; [apply _..|]. apply within_run_call. Qed.

Lemma new_registry_wf clock entropy : Inj (=) (=) entropy → wf (new_registry clock entropy).
Proof.
  intros Hinj. split; cbn; try done; auto with dict.
  - intros b id. rewrite lookup_empty. split; [done|]. by intros (r & ? & _).
  - unfold MAX_HISTORY. lia.
Qed.

(** ** Frames: which calls touch the receiver and the token source *)
Definition same_receiver (s s' : LeaseRegistry) : Prop := r_receiver_boot_id s' = r_receiver_boot_id s.
Definition same_draws (s s' : LeaseRegistry) : Prop := r_draws s' = r_draws s.
#[export] Instance same_receiver_po : PreOrder same_receiver.
Proof. split; [done|]. unfold same_receiver. intros ?????. congruence. Qed.
#[export] Instance same_draws_po : PreOrder same_draws.
Proof. split; [done|]. unfold same_draws. intros ?????. congruence. Qed.


(** A relation that holds when only records and history changed, and along
    every control field but the receiver, covers all that [_now] does. *)
Section frames.
Context (R : LeaseRegistry → LeaseRegistry → Prop) `{!PreOrder R}.
Context (Hctrl : ∀ s s', ctrl_eq s s' → R s s').
Context (Hstale : ∀ b s, R s (set_r_control_stale b s)) (Hcalls : ∀ n s, R s (set_r_calls n s)).
Context (Hheld : ∀ c s, R s (set_r_held_code c s)) (Hlast : ∀ t s, R s (set_r_last_now t s)).

Lemma frame_ctrl {A} (m : st LeaseRegistry A) : within ctrl_eq m → within R m.
Proof using Hctrl. intros Hm s. apply Hctrl, Hm. Qed.

Lemma frame_now : within R _now.
Proof using All.
  unfold _now. within_auto; try (by apply frame_ctrl; auto with within);
    try (apply within_modify; auto). intros s. apply Hcalls.
Qed.
End frames.

Lemma ctrl_reads {A} (m : st LeaseRegistry A) : (∀ s, ∃ P, reads m s P) → within ctrl_eq m.
Proof. intros H s. destruct (H s) as (P & -> & _). reflexivity. Qed.

Lemma receiver_ctrl {A} (m : st LeaseRegistry A) : within ctrl_eq m → within same_receiver m.
Proof. apply frame_ctrl. by intros s s' []. Qed.

Lemma draws_ctrl {A} (m : st LeaseRegistry A) : within ctrl_eq m → within same_draws m.
Proof. apply frame_ctrl. by intros s s' []. Qed.

Lemma receiver_now : within same_receiver _now.
Proof. apply frame_now; [apply _| |done..]. by intros s s' []. Qed.

Lemma draws_now : within same_draws _now.
Proof. apply frame_now; [apply _| |done..]. by intros s s' []. Qed.

Lemma ctrl_require_generation g : within ctrl_eq (_require_generation g).
Proof. unfold _require_generation. within_auto. Qed.
Lemma ctrl_require_receiver b f : within ctrl_eq (_require_receiver b f).
Proof. unfold _require_receiver. within_auto. Qed.
Lemma ctrl_record_for_control i b : within ctrl_eq (_record_for_control i b).
Proof. unfold _record_for_control. within_auto. Qed.
Lemma ctrl_ensure_capacity : within ctrl_eq _ensure_registration_capacity.
Proof. unfold _ensure_registration_capacity. within_auto. Qed.
#[export] Hint Resolve receiver_now draws_now ctrl_require_generation ctrl_require_receiver
  ctrl_record_for_control ctrl_ensure_capacity : within.

(** Discharges a frame: calls on records by their own frame, assignments of
    one field by computation. *)
Ltac frame_auto :=
  repeat first
    [ solve [auto with within nocore]
    | solve [first [apply receiver_ctrl | apply draws_ctrl]; auto with within nocore]
    | solve [apply within_modify; done]
    | solve [by intros ?]
    | progress within_step ].

Lemma receiver_register run att boot svc dig exp gen :
  within same_receiver (register run att boot svc dig exp gen).
Proof. unfold register, reread, _new_id, _new_token. frame_auto. Qed.

Lemma draws_calls c :
  match c with CallRegister _ _ _ _ _ _ _ => True | _ => within same_draws (run_call c) end.
Proof.
  destruct c; cbn [run_call]; try done;
    unfold hold, handshake, heartbeat, disconnect, activate, revoke, check, snapshot, reread; frame_auto.
Qed.

(** ** What [check] and [register] return *)
Lemma record_receipt_ret op lid svc st rs au now s rc s' :
  _record_receipt op lid svc st rs au now s = (Ret rc, s') →
  rc = mkLeaseReceipt op (r_generation s) lid svc st rs au now ∧ r_records s' = r_records s ∧ ctrl_eq s s'.
Proof.
  intros E. destruct (record_receipt_spec op lid svc st rs au now s) as (h & n & E' & _).
  rewrite E' in E. by injection E as <- <-.
Qed.
