(* ===== verification/LeasesThm.v ===== *)
(** * Theorems about the lease registry

    What a client of the registry can rely on, for any clock and any sequence
    of calls: authorisation is exactly as narrow as the lease, a lease that
    ended never authorises again, and the registry stays within its bounds. *)

From stdpp Require Import pretty.
From S2P Require Import Prelude PyValue PyJson Services Leases LeasesInv LeasesOps.
Local Open Scope string_scope.
Local Open Scope Z_scope.

(** ** Concrete registries for the witnesses *)
Definition tick (n : nat) : reading := Read (VInt (Z.of_nat n)).
Definition token (n : nat) : string := pretty n.

#[export] Instance token_inj : Inj (=) (=) token.
Proof. unfold token. apply _. Qed.

Definition demo_digest : string := "0123456789abcdef0123456789abcdef0123456789abcdef0123456789abcdef".
Definition demo_registry : LeaseRegistry := new_registry tick token.
Definition demo_calls : list registry_call :=
  [CallHandshake (VStr "boot-1") (VStr "generation_0");
   CallRegister (VStr "run") (VStr "att") (VStr "boot-1") (VStr "jira") (VStr demo_digest) (VInt 200)
     (VStr "generation_0");
   CallActivate (VStr "lease_1") (VStr "boot-1") (VStr "generation_0") (VInt 2)].
Definition demo_active : LeaseRegistry := run_calls demo_calls demo_registry.

Lemma demo_active_wf : wf demo_active.
Proof. apply run_calls_sound. apply new_registry_wf, _. Qed.

(** ** Invariants *)

(** Starting from an empty registry, after any sequence of public calls
    with any arguments, any clock and any failures in between, the registry is
    well formed: at most 256 live and 1024 retained leases, at most 128 history
    entries, every binding names a retained record and every record is bound,
    every live lease belongs to the connected receiver, timestamps fit the
    state, and a stale control channel has no live lease. *)
Theorem registry_stays_well_formed clock entropy cs :
  Inj (=) (=) entropy → wf (run_calls cs (new_registry clock entropy)).
Proof. intros Hinj. apply run_calls_sound. by apply new_registry_wf. Qed.

Lemma registry_stays_well_formed_witness :
  wf (run_calls demo_calls (new_registry tick token)) ∧
  live_count (dict_values (r_records demo_active)) = 1.
Proof. split; [apply registry_stays_well_formed, _|vm_compute; reflexivity]. Defined.

(** ** Authorisation *)
Lemma expiry_limit_bounds s id r now :
  wf_record s id r → isfinite now = true → due now r = false → rec_live r = true →
  fltb now (lg_expires_at (rec_grant r)) = true ∧ fltb now (fadd (rec_created_at r) LEASE_SECONDS) = true ∧
  (∀ l, rec_launch_at r = Some l → fltb now (fadd l LEASE_SECONDS) = true).
Proof.
  intros Hwf Hnow Hdue Hl. unfold due in Hdue. rewrite Hl in Hdue. cbn in Hdue.
  assert (He := isfinite_is_time _ (wfr_expires _ _ _ Hwf)).
  assert (Hc : is_time (fadd (rec_created_at r) LEASE_SECONDS))
    by (apply fadd_time; [apply (wfr_created _ _ _ Hwf)|done]).
  unfold expiry_limit in Hdue. destruct (rec_launch_at r) as [l|] eqn:El.
  - assert (Hlt : is_time (fadd l LEASE_SECONDS))
      by (apply fadd_time; [by apply (wfr_launch _ _ _ Hwf)|done]).
    apply fleb_false in Hdue; [|auto using is_time_fmin, isfinite_is_time..].
    apply fltb_fmin in Hdue as [Hdue H3]; [|auto using is_time_fmin..].
    apply fltb_fmin in Hdue as [H1 H2]; [|done..]. split_and!; try done. by intros ? [= <-].
  - apply fleb_false in Hdue; [|auto using is_time_fmin, isfinite_is_time..].
    apply fltb_fmin in Hdue as [H1 H2]; [|done..]. by split_and!.
Qed.

(** The facts an authorising receipt [rc] of [check] stands for, in the
    registry [s'] the call left. *)
Record authorised_by (service sentinel generation scope_digest : pyval) (now : float)
    (rc : LeaseReceipt) (s' : LeaseRegistry) (id : string) (r : _Record) : Prop := {
  ab_record : dict_get (r_records s') id = Some r;
  ab_active : rec_state r = Active;
  ab_lease : rc_lease_id rc = Some id;
  ab_observed : rc_observed_at rc = now;
  ab_service : service = VStr (lg_service (rec_grant r));
  ab_sentinel : sentinel = VStr (lg_sentinel (rec_grant r));
  ab_scope : scope_digest = VStr (lg_scope_digest (rec_grant r));
  ab_generation : generation = VStr (r_generation s') ∧ lg_generation (rec_grant r) = r_generation s';
  ab_receiver : r_receiver_boot_id s' = Some (rec_receiver_boot_id r);
  ab_heartbeat : ∃ hb, r_last_heartbeat s' = Some hb ∧ fleb HEARTBEAT_SECONDS (fsub now hb) = false;
  ab_unheld : r_held_code s' = None;
  ab_expiry : fltb now (lg_expires_at (rec_grant r)) = true;
  ab_created : fltb now (fadd (rec_created_at r) LEASE_SECONDS) = true;
  ab_launch : ∃ l, rec_launch_at r = Some l ∧ fltb now (fadd l LEASE_SECONDS) = true;
}.

Lemma find_sentinel_some svc tok s id r :
  find_sentinel svc tok s = Some (id, r) →
  (id, r) ∈ r_records s ∧ lg_service (rec_grant r) = svc ∧ lg_sentinel (rec_grant r) = tok.
Proof.
  unfold find_sentinel. intros H. apply List.find_some in H as [Hin H]. bool_simpl.
  split; [by apply list_elem_of_In|done].
Qed.

(** Case analysis on the first [bool_decide] of a hypothesis. *)
Ltac case_bool_decide_in H Hc :=
  match type of H with context [bool_decide ?P] =>
    destruct (bool_decide_reflect P) as [Hc|Hc]; try (apply dec_stable in Hc)
  end.

Lemma denied_receipt op lid svc st rs now s rc s' :
  _record_receipt op lid svc st rs (Some false) now s = (Ret rc, s') → rc_authorized rc ≠ Some true.
Proof. intros E. by apply record_receipt_ret in E as (-> & _). Qed.

Lemma check_authorised svc tok gen dig s rc s' :
  wf s → check svc tok gen dig s = (Ret rc, s') → rc_authorized rc = Some true →
  ∃ now id r, reading_outcome (r_clock s (r_calls s)) = Ret now ∧ authorised_by svc tok gen dig now rc s' id r.
Proof.
  intros Hs H Hau. pose proof (within_timed _ (timed_check svc tok gen dig) s Hs) as [Hs' _]. rewrite H in Hs'. cbn in Hs'.
  unfold check in H. inv_do. rename H0 into Hnow, a into now, s0 into s1.
  pose proof (within_now s Hs) as [Hs1 _]. rewrite Hnow in Hs1. cbn in Hs1.
  apply now_ret in Hnow as Hpost. destruct (reading_outcome_inv _ _ (np_reading _ _ _ Hpost)) as [Hfin _].
  case_bool_decide_in H Hgen; [by apply denied_receipt in H|].
  case_bool_decide_in H Hboot; [by apply denied_receipt in H|].
  destruct (r_last_heartbeat s1) as [hb|] eqn:Ehb; [|inv_do; by apply denied_receipt in H].
  destruct (fleb HEARTBEAT_SECONDS (fsub now hb)) eqn:Hbeat; [inv_do; by apply denied_receipt in H|].
  inv_do. destruct (find_sentinel a0 a1 s1) as [[id r]|] eqn:Hfind; [|by apply denied_receipt in H].
  apply find_sentinel_some in Hfind as (Hin & <- & <-). apply elem_dict_get in Hin; [|apply Hs1].
  destruct (expire_ret id now "expired" s1) as (s2 & E2 & H2'). specialize (H2' r Hin).
  rewrite (np_due _ _ _ Hpost id r Hin) in H2'.
  rewrite (bind_ret_eq _ _ _ _ _ E2) in H. unfold reread in H. rewrite bind_gets in H. cbn beta in H.
  rewrite H2' in H. change (default r (Some r)) with r in H.
  case_bool_decide_in H Hact; [by apply denied_receipt in H|].
  case_bool_decide_in H Hdig; [by apply denied_receipt in H|].
  apply record_receipt_ret in H as (-> & Hrec & Hctrl).
  pose proof (ctrl_expire_record id now "expired" s1) as C2. rewrite E2 in C2. cbn in C2.
  assert (C : ctrl_eq s1 s') by by transitivity s2. destruct C.
  assert (Hget : dict_get (r_records s') id = Some r) by by rewrite Hrec.
  assert (Hwf := wf_rec _ Hs' id r Hget).
  assert (Hlive : rec_live r = true) by (unfold rec_live; by rewrite Hact).
  destruct (expiry_limit_bounds s' id r now Hwf Hfin (np_due _ _ _ Hpost id r Hin) Hlive) as (X1 & X2 & X3).
  assert (is_Some (rec_launch_at r) ∧ rec_retired_at r = None) as [[l Hl] _]
    by (pose proof (wfr_shape _ _ _ Hwf) as Hsh; unfold record_shape in Hsh; by rewrite Hact in Hsh).
  exists now, id, r. split; [apply Hpost|]. split; cbn; try done.
  - f_equal. apply Hwf.
  - apply require_service_inv in H1 as [_ ->]. done.
  - by apply require_token_inv in H2 as ->.
  - apply require_digest_inv in H3 as ->. by rewrite Hdig.
  - split; [|apply Hwf]. apply require_id_inv in H4 as ->. congruence.
  - by apply Hwf.
  - exists hb. split; [congruence|done].
  - rewrite ce_held. apply Hpost.
  - eauto.
Qed.

(** C13: When [check] answers authorised, then at the time it read from the
    clock there is a retained lease in state active whose service, sentinel,
    scope digest and generation are the ones presented, it belongs to the
    receiver that is connected, the last heartbeat is less than 15 s old, the
    registry is not held, and the time is before the granted expiry and before
    270 s after both registration and launch. *)
Theorem check_authorises_only_active_leases clock entropy cs svc tok gen dig rc s' :
  Inj (=) (=) entropy →
  check svc tok gen dig (run_calls cs (new_registry clock entropy)) = (Ret rc, s') →
  rc_authorized rc = Some true →
  ∃ now id r, authorised_by svc tok gen dig now rc s' id r ∧
    reading_outcome (clock (r_calls (run_calls cs (new_registry clock entropy)))) = Ret now.
Proof.
  intros Hinj E Hau.
  destruct (run_calls_sound cs (new_registry clock entropy)) as [Hs Hev]; [by apply new_registry_wf|].
  destruct (check_authorised _ _ _ _ _ _ _ Hs E Hau) as (now & id & r & Hr & Hab).
  exists now, id, r. split; [done|]. by rewrite (ev_clock _ _ Hev) in Hr.
Qed.

Local Notation demo_check :=
  (check (VStr "jira") (VStr "2") (VStr "generation_0") (VStr demo_digest)
     (run_calls demo_calls (new_registry tick token))).
Definition demo_receipt : LeaseReceipt :=
  mkLeaseReceipt "check" "generation_0" (Some "lease_1") (Some "jira") "active" "ok" (Some true)
    (float_lit 3 0).

Lemma check_authorises_only_active_leases_witness :
  demo_check.1 = Ret demo_receipt ∧
  ∃ now id r, authorised_by (VStr "jira") (VStr "2") (VStr "generation_0") (VStr demo_digest) now
                demo_receipt demo_check.2 id r.
Proof.
  assert (H : demo_check.1 = Ret demo_receipt) by (vm_compute; reflexivity). split; [exact H|].
  assert (E : demo_check = (Ret demo_receipt, demo_check.2))
    by (rewrite <-H; apply surjective_pairing).
  destruct (check_authorises_only_active_leases tick token demo_calls _ _ _ _ _ _ _ E eq_refl)
    as (now & id & r & Hab & _).
  exists now, id, r. exact Hab.
Defined.

(** ** A lease that ended stays ended *)

(** [tok] was handed out as the sentinel of some registration. *)
Definition issued (s : LeaseRegistry) (tok : string) : Prop :=
  ∃ i, (S i < r_draws s)%nat ∧ tok = r_entropy s (S i).

Definition no_live_sentinel (s : LeaseRegistry) (tok : string) : Prop :=
  ∀ id r, dict_get (r_records s) id = Some r → lg_sentinel (rec_grant r) = tok → rec_live r = false.

Lemma retired_stays s s' tok :
  wf s → evolves s s' → issued s tok → no_live_sentinel s tok → no_live_sentinel s' tok.
Proof.
  intros Hs Hev (j & Hj & ->) Hno id r' Hr' Htok.
  destruct (ev_records _ _ Hev id r' Hr') as [(r & Hr & Hre)|(i & Hi & _ & Hsent)].
  - rewrite (re_grant _ _ Hre) in Htok. specialize (Hno id r Hr Htok).
    unfold rec_live in *. destruct (re_state _ _ Hre) as [<-|Hrank]; [done|].
    by destruct (rec_state r), (rec_state r').
  - rewrite Htok in Hsent. apply (wf_tokens _ Hs) in Hsent. lia.
Qed.

(** Once no live lease carries a sentinel that the registry handed out
    (the lease was revoked, expired, or removed after its retention), no
    sequence of later calls makes [check] authorise that sentinel again, for
    any service, generation or scope. *)
Theorem ended_lease_never_authorised_again s tok cs svc gen dig rc s' :
  wf s → issued s tok → no_live_sentinel s tok →
  check svc (VStr tok) gen dig (run_calls cs s) = (Ret rc, s') → rc_authorized rc ≠ Some true.
Proof.
  intros Hs Hiss Hno E Hau.
  destruct (run_calls_sound cs s Hs) as [Hs1 Hev1].
  destruct (check_authorised _ _ _ _ _ _ _ Hs1 E Hau) as (now & id & r & _ & Hab).
  pose proof (within_timed _ (timed_check svc (VStr tok) gen dig) (run_calls cs s) Hs1) as [_ Hev2]. rewrite E in Hev2.
  assert (Hno' : no_live_sentinel s' tok)
    by (apply (retired_stays s); [done|by etransitivity|done..]).
  destruct Hab as [Hget Hact _ _ _ [= ->] _ _ _ _ _ _ _ _]. specialize (Hno' id r Hget eq_refl).
  unfold rec_live in Hno'. by rewrite Hact in Hno'.
Qed.

Definition demo_revoked : LeaseRegistry :=
  run_calls [CallRevoke (VStr "lease_1") (VStr "boot-1") (VStr "generation_0") (VStr "cancelled")] demo_active.
Local Notation demo_recheck :=
  (check (VStr "jira") (VStr "2") (VStr "generation_0") (VStr demo_digest)
    (run_calls [CallHeartbeat (VStr "boot-1") (VStr "generation_0")] demo_revoked)).

Lemma demo_revoked_no_live : no_live_sentinel demo_revoked "2".
Proof.
  assert (H : forallb (λ kr : string * _Record, negb (rec_live kr.2)) (r_records demo_revoked) = true)
    by (vm_compute; reflexivity).
  intros id r Hr _. apply dict_get_elem in Hr. rewrite forallb_forall in H.
  apply list_elem_of_In, H in Hr. by apply negb_true_iff in Hr.
Qed.

Lemma demo_revoked_wf : wf demo_revoked.
Proof. unfold demo_revoked. apply run_calls_sound, demo_active_wf. Qed.

Lemma demo_revoked_issued : issued demo_revoked "2".
Proof. exists 1%nat. split; [apply Nat.ltb_lt; vm_compute; reflexivity|vm_compute; reflexivity]. Qed.

Lemma ended_lease_never_authorised_again_witness :
  ∃ rc, demo_recheck.1 = Ret rc ∧ rc_reason rc = "lease_revoked" ∧ rc_authorized rc ≠ Some true.
Proof.
  destruct demo_recheck as [[rc|e] s'] eqn:E;
    [|exfalso; assert (X : (if demo_recheck.1 then true else false) = true) by (vm_compute; reflexivity);
      rewrite E in X; discriminate].
  exists rc. split; [reflexivity|]. split.
  - assert (X : (if demo_recheck.1 is Ret rc then rc_reason rc else "") = "lease_revoked")
      by (vm_compute; reflexivity).
    rewrite E in X. exact X.
  - exact (ended_lease_never_authorised_again _ _ _ _ _ _ _ _ demo_revoked_wf demo_revoked_issued
             demo_revoked_no_live E).
Defined.

(** ** Revoking everything *)

(** A call that leaves another receiver connected than before, or none,
    leaves no live lease: the receiver that disconnects or is replaced takes
    all its leases with it. *)
Theorem receiver_change_revokes_all s c :
  wf s → r_receiver_boot_id (run_call c s).2 ≠ r_receiver_boot_id s → no_live (run_call c s).2.
Proof.
  intros Hs Hne id r Hr. destruct (rec_live r) eqn:Hl; [|done]. exfalso.
  destruct (within_run_call c s Hs) as [Hs' Hev].
  assert (Hboot := wfr_connected _ _ _ (wf_rec _ Hs' id r Hr) Hl).
  destruct (ev_records _ _ Hev id r Hr) as [(r0 & Hr0 & Hre)|(i & Hi & Hdr)].
  - apply Hne. rewrite Hboot, (re_boot _ _ Hre). symmetry. apply (wfr_connected _ _ _ (wf_rec _ Hs id r0 Hr0)).
    unfold rec_live in *. destruct (re_state _ _ Hre) as [->|Hrank]; [done|].
    by destruct (rec_state r0), (rec_state r).
  - destruct (wfr_drawn _ _ _ (wf_rec _ Hs' id r Hr)) as (j & Hj & Hid & _). destruct Hdr as [Hid' _].
    rewrite Hid, (ev_entropy _ _ Hev) in Hid'. apply (inj (String.append _)), (wf_tokens _ Hs) in Hid'. subst j.
    pose proof (draws_calls c) as Hd. destruct c; try (specialize (Hd s); unfold same_draws in Hd; lia).
    apply Hne. cbn [run_call].
    assert (Hw : within same_receiver (run_call (CallRegister run_id attempt_id receiver_boot_id service
      scope_digest expires_at generation))) by (cbn [run_call]; pose proof receiver_register; frame_auto).
    apply Hw.
Qed.

Lemma receiver_change_revokes_all_witness :
  let c := CallHandshake (VStr "boot-2") (VStr "generation_0") in
  live_count (dict_values (r_records demo_active)) = 1 ∧ no_live (run_call c demo_active).2.
Proof.
  split; [vm_compute; reflexivity|].
  apply receiver_change_revokes_all; [apply demo_active_wf|]. vm_compute. discriminate.
Defined.

(** ** A held registry stays held *)
Definition held_mono (s s' : LeaseRegistry) : Prop := r_held_code s ≠ None → r_held_code s' ≠ None.
#[export] Instance held_mono_po : PreOrder held_mono.
Proof. split; [by intros ??|]. intros x y z Hxy Hyz Hx. by apply Hyz, Hxy. Qed.

Lemma held_ctrl {A} (m : st LeaseRegistry A) : within ctrl_eq m → within held_mono m.
Proof. apply frame_ctrl. intros s s' []. unfold held_mono. congruence. Qed.

Lemma held_now : within held_mono _now.
Proof.
  intros s. rewrite now_eq. intros Hh. destruct (reading_outcome _) as [t|]; [|done].
  destruct (regressed s t); [done|]. destruct (r_held_code s) eqn:E; cbn; congruence.
Qed.
#[local] Hint Resolve held_now : within.
#[local] Hint Extern 5 (within held_mono _) => apply held_ctrl; solve [auto with within nocore] : within.

Lemma within_held_call c : within held_mono (run_call c).
Proof.
  destruct c; cbn [run_call];
    unfold hold, handshake, heartbeat, disconnect, register, activate, revoke, check, snapshot, reread,
      _new_id, _new_token; within_auto; try (apply within_modify); by intros ? ?.
Qed.

Lemma held_now_raises s : r_held_code s ≠ None → ∃ e s', _now s = (Raise e, s').
Proof.
  intros Hh. rewrite now_eq. destruct (reading_outcome _) as [t|]; [|eauto].
  destruct (regressed s t); [eauto|]. destruct (r_held_code s); [eauto|done].
Qed.

Lemma now_first_raises {A} (k : float → st LeaseRegistry A) s :
  r_held_code s ≠ None → ∃ e, ((_now ≫= k;; mret tt) s).1 = Raise e.
Proof.
  intros (e & s' & E)%held_now_raises. exists e. unfold mbind, st_bind. by rewrite E.
Qed.

(** A registry that is held (a failed or regressing clock, or an explicit
    hold) stays held whatever is called, and from then on every operation but
    [hold] and [snapshot] raises: nothing is registered, activated or
    authorised again. *)
Theorem hold_is_permanent s cs c :
  r_held_code s ≠ None →
  r_held_code (run_calls cs s) ≠ None ∧
  (c = CallHold ∨ c = CallSnapshot ∨ ∃ e, (run_call c (run_calls cs s)).1 = Raise e).
Proof.
  intros Hh.
  assert (Hheld : r_held_code (run_calls cs s) ≠ None)
    by (apply (run_calls_ind held_mono); [apply within_held_call|done]).
  split; [done|].
  destruct c; try (by left); try (by right; left); right; right; by apply now_first_raises.
Qed.

Lemma hold_is_permanent_witness :
  r_held_code (run_calls demo_calls (hold demo_active).2) ≠ None ∧
  ∃ e, (run_call (CallCheck (VStr "jira") (VStr "2") (VStr "generation_0") (VStr demo_digest))
          (run_calls demo_calls (hold demo_active).2)).1 = Raise e.
Proof.
  assert (H : r_held_code (hold demo_active).2 ≠ None) by discriminate.
  destruct (hold_is_permanent _ demo_calls (CallCheck (VStr "jira") (VStr "2") (VStr "generation_0")
    (VStr demo_digest)) H) as [H1 [H2|[H2|H2]]]; [discriminate H2..|]. split; [exact H1|exact H2].
Defined.

(** ** Heartbeats *)
Definition stays_dead (s s' : LeaseRegistry) : Prop := no_live s → no_live s'.
#[export] Instance stays_dead_po : PreOrder stays_dead.
Proof. split; [by intros ??|]. intros x y z Hxy Hyz Hx. by apply Hyz, Hxy. Qed.

Lemma dead_draws s s' : wf s → evolves s s' → same_draws s s' → wf s' → stays_dead s s'.
Proof.
  intros Hs Hev Hd Hs' Hn id r Hr. destruct (ev_records _ _ Hev id r Hr) as [(r0 & Hr0 & Hre)|(i & Hi & Hid & _)].
  - specialize (Hn id r0 Hr0). unfold rec_live in *. destruct (re_state _ _ Hre) as [<-|Hrank]; [done|].
    by destruct (rec_state r0), (rec_state r).
  - destruct (wfr_drawn _ _ _ (wf_rec _ Hs' id r Hr)) as (j & Hj & Hid' & _).
    rewrite Hid, (ev_entropy _ _ Hev) in Hid'. apply (inj (String.append _)), (wf_tokens _ Hs) in Hid'.
    unfold same_draws in Hd. lia.
Qed.

Lemma snd_then_ret {A} (m : st LeaseRegistry A) s : ((m;; mret tt) s).2 = (m s).2.
Proof. unfold mbind, st_bind. by destruct (m s) as [[] ?]. Qed.

(** After [_now] a method other than [register] keeps a registry without live
    leases so. *)
Lemma timed_dead {A} (m : st LeaseRegistry A) s s1 now :
  timed m → within same_draws (m;; mret tt) → wf s → _now s = (Ret now, s1) → no_live s1 →
  no_live (m s).2.
Proof.
  intros (k & -> & Hk) Hd Hs E Hn. pose proof (within_now s Hs) as [Hs1 _]. rewrite E in Hs1.
  specialize (Hd s). rewrite snd_then_ret in Hd. pose proof (draws_now s) as Hd1. rewrite E in Hd1.
  rewrite (bind_ret_eq _ _ _ _ _ E) in Hd |- *. cbn in *.
  destruct (Hk s s1 now (now_ret _ _ _ E) Hs1) as [Hs2 Hev].
  apply (dead_draws s1); try done. unfold same_draws in *. congruence.
Qed.

Lemma register_stale run att boot svc dig exp gen s s1 now :
  _now s = (Ret now, s1) → r_control_stale s1 = true → (register run att boot svc dig exp gen s).2 = s1.
Proof.
  intros E Hst. unfold register. rewrite (bind_ret_eq _ _ _ _ _ E). symmetry.
  read_step. read_step. destruct H0 as (_ & _ & H0). rewrite H0 in Hst; done.
Qed.

Lemma snapshot_dead s s1 now :
  wf s → _now s = (Ret now, s1) → no_live s1 → no_live (snapshot s).2.
Proof.
  intros Hs E Hn. pose proof (within_now s Hs) as [Hs1 _]. rewrite E in Hs1. cbn in Hs1.
  unfold snapshot, attempt. unfold mbind at 1, st_bind at 1. rewrite E.
  rewrite (bind_ret_eq _ _ _ now s1) by done. destruct (prune_ret now s1) as (s2 & E2).
  rewrite (bind_ret_eq _ _ _ _ _ E2). cbn.
  pose proof (within_prune now s1 Hs1) as [Hs2 Hev]. pose proof (ctrl_prune now s1) as C.
  rewrite E2 in Hs2, Hev, C. apply (dead_draws s1); try done. apply C.
Qed.

(** When a connected receiver has been silent for 15 s at the time the
    next call reads, that call leaves no live lease, whatever the call is and
    whatever it returns. *)
Theorem silent_receiver_loses_all_leases s c now :
  wf s → r_held_code s = None → r_receiver_boot_id s ≠ None →
  reading_outcome (r_clock s (r_calls s)) = Ret now → regressed s now = false →
  heartbeat_late s now = true → c ≠ CallHold → no_live (run_call c s).2.
Proof.
  intros Hs Hh Hb Hr Hreg Hlate Hc.
  destruct (now_body_spec now (set_r_calls (S (r_calls s)) s) Hh)
    as (s1 & E & _ & _ & _ & Hrcv & Hhb & _ & Hl & _).
  assert (E' : _now s = (Ret now, s1)) by (by rewrite now_eq, Hr, Hreg, Hh).
  destruct Hl as [Hn Hst]; [by rewrite Hrcv|unfold heartbeat_late in *; by rewrite Hhb|].
  pose proof (draws_calls c) as Hd.
  destruct c; try done; cbn [run_call] in *; rewrite snd_then_ret;
    try solve [eapply timed_dead; eauto with within nocore].
  - by rewrite (register_stale _ _ _ _ _ _ _ _ _ _ E' Hst).
  - by apply (snapshot_dead s s1 now).
Qed.

Definition demo_silent : LeaseRegistry :=
  run_calls demo_calls (new_registry (λ n, Read (VInt (if bool_decide (n < 3)%nat then Z.of_nat n else 15))) token).

Lemma demo_silent_wf : wf demo_silent.
Proof. apply run_calls_sound. apply new_registry_wf, _. Qed.

Lemma silent_receiver_loses_all_leases_witness :
  live_count (dict_values (r_records demo_silent)) = 1 ∧
  no_live (run_call (CallCheck (VStr "jira") (VStr "2") (VStr "generation_0") (VStr demo_digest)) demo_silent).2.
Proof.
  split; [vm_compute; reflexivity|].
  apply (silent_receiver_loses_all_leases demo_silent _ (float_lit 15 0)); [exact demo_silent_wf|..];
    try (vm_compute; reflexivity); vm_compute; discriminate.
Defined.

(** ** The reported size *)

(** The size loop of the snapshot always ends (within four rounds; the
    model gives it six), and the number it reports is the exact length of the
    canonical encoding of the snapshot that contains that very number. *)
Theorem snapshot_size_is_exact s :
  fixed_point_loop FIXED_POINT_FUEL (_snapshot_payload s) (canonical_bytes (JObj (_snapshot_payload s)))
    = Some (_snapshot_bytes s) ∧
  canonical_bytes (JObj (_snapshot_payload s ++ [("metadata_bytes", JInt (_snapshot_bytes s))]))
    = _snapshot_bytes s.
Proof.
  destruct (fixed_point_reached (_snapshot_payload s)) as (n & E & Hn); [done|].
  apply (fixed_point_more 4 FIXED_POINT_FUEL) in E; [|unfold FIXED_POINT_FUEL; lia].
  unfold _snapshot_bytes, _fixed_point_bytes. rewrite E. by split.
Qed.

(** ** Registration *)
Lemma expire_noop id now reason r s :
  dict_get (r_records s) id = Some r → due now r = false → _expire_record id now reason s = (Ret tt, s).
Proof. intros Hr Hd. rewrite expire_record_eq. unfold retire_one. rewrite bind_gets, Hr, Hd. done. Qed.

(** A registration that returns either repeats the live grant already
    bound to this run, attempt and service (same receiver, scope and expiry),
    changing nothing else, or admits exactly one new registered record at the end,
    under a token never drawn before, that expires after now and at most 270 s
    later. *)
Theorem register_returns_one_grant run att boot svc dig exp gen s g s' :
  wf s → register run att boot svc dig exp gen s = (Ret g, s') →
  run = VStr (lg_run_id g) ∧ att = VStr (lg_attempt_id g) ∧ svc = VStr (lg_service g) ∧
  boot = VStr (lg_receiver_boot_id g) ∧ dig = VStr (lg_scope_digest g) ∧
  ∃ now s1, _now s = (Ret now, s1) ∧
    match r_bindings s1 !! (lg_run_id g, lg_attempt_id g, lg_service g) with
    | Some id => s' = s1 ∧
        ∃ r, dict_get (r_records s1) id = Some r ∧ rec_grant r = g ∧ rec_live r = true
    | None => lg_lease_id g = "lease_" +:+ r_entropy s1 (r_draws s1) ∧
        r_records s' = (r_records s1 ++
          [(lg_lease_id g, mkRecord g (lg_receiver_boot_id g) now Registered None None)])%list ∧
        fltb now (lg_expires_at g) = true ∧ fleb (lg_expires_at g) (fadd now LEASE_SECONDS) = true
    end.
Proof.
  intros Hs H. pose proof (within_now s Hs) as [Hs1 _]. unfold register in H.
  apply bind_ret_inv in H as (now & s1 & E & H). rewrite E in Hs1. cbn in Hs1.
  do 9 read_inv H. destruct P0 as (-> & Hboot & Hfresh). bool_simpl. subst a7.
  apply require_id_inv in P1 as ->. apply require_id_inv in P2 as ->.
  apply require_service_inv in P3 as [_ ->]. apply require_digest_inv in P4 as ->.
  destruct (r_bindings s1 !! (a1, a2, a3)) as [id|] eqn:Hk.
  - read_inv H. subst. destruct (dict_get (r_records s1) id) as [r|] eqn:Hr; [|done].
    rewrite (bind_ret_eq _ _ _ tt s1) in H by (eapply expire_noop, np_due; eauto using now_ret).
    eapply reads_inv in H; [|by eapply reads_reread]. destruct H as (r' & -> & H).
    do 3 read_inv H. bool_simpl. subst. apply mret_ret_inv in H as [-> ->].
    assert (Hb : rec_binding r = (a1, a2, a3)) by
      (apply (wf_bind _ Hs1) in Hk as (r'' & Hr'' & <-); by simplify_eq).
    unfold rec_binding in Hb. injection Hb as <- <- <-.
    rewrite (wfr_boot _ _ _ (wf_rec _ Hs1 id r Hr)). split_and!; try done.
    exists now, s1. split; [done|]. rewrite Hk. eauto.
  - do 2 read_inv H. subst.
    rewrite (bind_ret_eq (_new_id "lease") _ s1 ("lease_" +:+ r_entropy s1 (r_draws s1))
               (set_r_draws (S (r_draws s1)) s1)) in H by done.
    rewrite (bind_ret_eq _new_token _ _ (r_entropy s1 (S (r_draws s1)))
               (set_r_draws (S (S (r_draws s1))) s1)) in H by done.
    do 2 read_inv H. rewrite !bind_modify in H. apply bind_ret_inv in H as (rc & s3 & H & Hret).
    apply mret_ret_inv in Hret as [-> ->]. apply record_receipt_ret in H as (_ & Hrec & _).
    cbn -[dict_set] in Hrec |- *. split_and!; try done. exists now, s1. rewrite Hk.
    split_and!; try done. rewrite Hrec. apply dict_set_fresh.
    destruct (dict_get (r_records s1) _) as [r|] eqn:Hr; [|done].
    destruct (wfr_drawn _ _ _ (wf_rec _ Hs1 _ _ Hr)) as (i & Hi & Hid & _).
    apply (inj (String.append _)), (wf_tokens _ Hs1) in Hid. lia.
Qed.

Local Notation demo_register :=
  (register (VStr "run") (VStr "att") (VStr "boot-1") (VStr "jira") (VStr demo_digest) (VInt 200)
     (VStr "generation_0") demo_active).

Lemma register_returns_one_grant_witness :
  ∃ g, demo_register.1 = Ret g ∧ lg_lease_id g = "lease_1" ∧ VStr "jira" = VStr (lg_service g).
Proof.
  destruct demo_register as [[g|e] s'] eqn:E;
    [|exfalso; assert (X : (if demo_register.1 then true else false) = true) by (vm_compute; reflexivity);
      rewrite E in X; discriminate].
  exists g. split; [reflexivity|]. split.
  - assert (X : (if demo_register.1 is Ret g then lg_lease_id g else "") = "lease_1")
      by (vm_compute; reflexivity).
    rewrite E in X. exact X.
  - apply (register_returns_one_grant _ _ _ _ _ _ _ _ _ _ demo_active_wf E).
Defined.
