(* ===== verification/Sha256.v ===== *)
(** * SHA-256

    [hashlib.sha256(data).hexdigest()], executable: the receipt ledger names a
    client response by the digest of its canonical bytes.  Bytes are the
    characters of a [string]; a word is a [Z] in [0, 2^32). *)

From S2P Require Import Prelude.
Local Open Scope Z_scope.

Definition mask32 : Z := 0xffffffff.
Definition add32 (x y : Z) : Z := Z.land (x + y) mask32.
Definition rotr (n x : Z) : Z := Z.lor (Z.shiftr x n) (Z.land (Z.shiftl x (32 - n)) mask32).
Definition shr (n x : Z) : Z := Z.shiftr x n.

Definition Ch (x y z : Z) : Z := Z.lxor (Z.land x y) (Z.land (Z.lxor x mask32) z).
Definition Maj (x y z : Z) : Z := Z.lxor (Z.lxor (Z.land x y) (Z.land x z)) (Z.land y z).
Definition Sigma0 (x : Z) : Z := Z.lxor (Z.lxor (rotr 2 x) (rotr 13 x)) (rotr 22 x).
Definition Sigma1 (x : Z) : Z := Z.lxor (Z.lxor (rotr 6 x) (rotr 11 x)) (rotr 25 x).
Definition sigma0 (x : Z) : Z := Z.lxor (Z.lxor (rotr 7 x) (rotr 18 x)) (shr 3 x).
Definition sigma1 (x : Z) : Z := Z.lxor (Z.lxor (rotr 17 x) (rotr 19 x)) (shr 10 x).

(** The constants are the first 32 bits of the fractional parts of the roots of
    the first primes, as FIPS 180-4 defines them. *)
Definition is_prime (n : nat) : bool :=
  (2 <=? n)%nat && forallb (λ d, negb (n mod d =? 0)%nat) (seq 2 (n - 2)).
Definition first_primes : list Z := map Z.of_nat (List.filter is_prime (seq 0 312)).

(** The largest [r] of at most [bits] bits with [r ^ k <= x]. *)
Fixpoint root (k : Z) (bits : nat) (x acc : Z) : Z :=
  match bits with
  | O => acc
  | S b => let r := acc + 2 ^ Z.of_nat b in root k b x (if r ^ k <=? x then r else acc)
  end.
Definition root_fraction (k p : Z) : Z := Z.land (root k 40 (p * 2 ^ (32 * k)) 0) mask32.

Definition round_constants : list Z := Eval vm_compute in map (root_fraction 3) first_primes.

Record hash_state := mkHash { ha : Z; hb : Z; hc : Z; hd : Z; he : Z; hf : Z; hg : Z; hh : Z }.

Definition hash_of_list (l : list Z) : hash_state :=
  mkHash (nth 0 l 0) (nth 1 l 0) (nth 2 l 0) (nth 3 l 0) (nth 4 l 0) (nth 5 l 0) (nth 6 l 0) (nth 7 l 0).
Definition initial_hash : hash_state := Eval vm_compute in hash_of_list (map (root_fraction 2) first_primes).

(** The message schedule, newest word first; [w] starts as the block's sixteen
    words reversed. *)
Fixpoint extend_schedule (n : nat) (w : list Z) : list Z :=
  match n with
  | O => w
  | S n' =>
      let at_ i := nth i w 0 in
      let next := add32 (add32 (sigma1 (at_ 1%nat)) (at_ 6%nat)) (add32 (sigma0 (at_ 14%nat)) (at_ 15%nat)) in
      extend_schedule n' (next :: w)
  end.

Definition round (s : hash_state) (kw : Z * Z) : hash_state :=
  let t1 := add32 (add32 (hh s) (Sigma1 (he s)))
                  (add32 (Ch (he s) (hf s) (hg s)) (add32 kw.1 kw.2)) in
  let t2 := add32 (Sigma0 (ha s)) (Maj (ha s) (hb s) (hc s)) in
  mkHash (add32 t1 t2) (ha s) (hb s) (hc s) (add32 (hd s) t1) (he s) (hf s) (hg s).

Definition compress (s : hash_state) (block : list Z) : hash_state :=
  let w := rev (extend_schedule 48 (rev block)) in
  let r := foldl round s (zip round_constants w) in
  mkHash (add32 (ha s) (ha r)) (add32 (hb s) (hb r)) (add32 (hc s) (hc r)) (add32 (hd s) (hd r))
         (add32 (he s) (he r)) (add32 (hf s) (hf r)) (add32 (hg s) (hg r)) (add32 (hh s) (hh r)).

(** ** Padding and blocks *)
Fixpoint bytes_of (s : string) : list Z :=
  match s with
  | EmptyString => []
  | String c s' => Z.of_nat (nat_of_ascii c) :: bytes_of s'
  end.

Fixpoint be_bytes (n : nat) (x : Z) : list Z :=
  match n with
  | O => []
  | S n' => Z.land (Z.shiftr x (8 * Z.of_nat n')) 0xff :: be_bytes n' x
  end.

Definition pad (data : list Z) : list Z :=
  let n := Z.of_nat (length data) in
  data ++ [0x80] ++ repeat 0 (Z.to_nat ((55 - n) mod 64)) ++ be_bytes 8 (8 * n).

Definition word (b : list Z) : Z := foldl (λ acc x, Z.lor (Z.shiftl acc 8) x) 0 b.

Fixpoint words (n : nat) (b : list Z) : list Z :=
  match n with O => [] | S n' => word (take 4 b) :: words n' (drop 4 b) end.

Fixpoint blocks (n : nat) (b : list Z) : list (list Z) :=
  match n with O => [] | S n' => words 16 (take 64 b) :: blocks n' (drop 64 b) end.

Definition sha256_words (data : list Z) : list Z :=
  let padded := pad data in
  let h := foldl compress initial_hash (blocks (length padded / 64) padded) in
  [ha h; hb h; hc h; hd h; he h; hf h; hg h; hh h].

(** ** Hex digest *)
Definition hex_char (n : Z) : ascii :=
  match String.get (Z.to_nat n) HEX_DIGITS with Some c => c | None => "0"%char end.

Fixpoint hex_word (n : nat) (x : Z) : string :=
  match n with
  | O => EmptyString
  | S n' => String (hex_char (Z.land (Z.shiftr x (4 * Z.of_nat n')) 15)) (hex_word n' x)
  end.

Definition sha256_hex (data : string) : string :=
  foldr (λ w acc, hex_word 8 w +:+ acc) EmptyString (sha256_words (bytes_of data)).

Local Open Scope string_scope.
Example sha256_empty :
  sha256_hex "" = "e3b0c44298fc1c149afbf4c8996fb92427ae41e4649b934ca495991b7852b855".
Proof. vm_compute. reflexivity. Qed.
Example sha256_abc :
  sha256_hex "abc" = "ba7816bf8f01cfea414140de5dae2223b00361a396177a9cb410ff61f20015ad".
Proof. vm_compute. reflexivity. Qed.
Example sha256_two_blocks :
  sha256_hex "abcdbcdecdefdefgefghfghighijhijkijkljklmklmnlmnomnopnopq" =
    "248d6a61d20638b8e5c026930c3e6039a33ce45964ff2167f6ecedd419db06c1".
Proof. vm_compute. reflexivity. Qed.

(** ** The shape of a digest *)
Lemma hex_word_length n x : String.length (hex_word n x) = n.
Proof. induction n as [|n IH]; [done|]. cbn. by rewrite IH. Qed.

Lemma get_char_in k s c : String.get k s = Some c → char_in s c = true.
Proof.
  revert k. induction s as [|c' s IH]; intros [|k] H; cbn in *; try done.
  - injection H as ->. by rewrite bool_decide_eq_true_2.
  - rewrite (IH k H). apply orb_true_r.
Qed.

Lemma hex_char_ok n : char_in HEX_DIGITS (hex_char n) = true.
Proof. unfold hex_char. destruct (String.get _ _) eqn:E; [by eapply get_char_in|done]. Qed.

Lemma all_chars_append P a b : all_chars P (a +:+ b) = all_chars P a && all_chars P b.
Proof. induction a as [|c a IH]; simpl; [done|]. by rewrite IH, andb_assoc. Qed.

Lemma hex_word_ok n x : all_chars (char_in HEX_DIGITS) (hex_word n x) = true.
Proof. induction n as [|n IH]; [done|]. cbn [hex_word all_chars]. by rewrite hex_char_ok, IH. Qed.

Lemma append_length a b : String.length (a +:+ b) = (String.length a + String.length b)%nat.
Proof. induction a as [|c a IH]; simpl; [done|]. by rewrite IH. Qed.

(** A digest is 64 lower-case hex characters. *)
Lemma sha256_hex_shape data :
  str_len (sha256_hex data) = 64 ∧ all_chars (char_in HEX_DIGITS) (sha256_hex data) = true.
Proof.
  unfold sha256_hex, sha256_words, str_len. cbn [foldr]. split.
  - rewrite !append_length, !hex_word_length. done.
  - by rewrite !all_chars_append, !hex_word_ok.
Qed.

(** ** HMAC *)

(** [hashlib.sha256(data).digest()]. *)
Definition string_of_bytes (b : list Z) : string :=
  foldr (λ x acc, String (ascii_of_nat (Z.to_nat x)) acc) EmptyString b.
Definition sha256_digest (data : string) : string :=
  string_of_bytes (flat_map (be_bytes 4) (sha256_words (bytes_of data))).

Definition xor_byte (k x : Z) : Z := Z.lxor k x.

(** The key padded to one block, a key longer than a block being hashed
    first. *)
Definition hmac_key (key : string) : list Z :=
  let k := if (String.length key <=? 64)%nat then bytes_of key
           else flat_map (be_bytes 4) (sha256_words (bytes_of key)) in
  k ++ repeat 0 (64 - length k).

(** [hmac.new(key, message, hashlib.sha256).digest()]. *)
Definition hmac_sha256 (key message : string) : string :=
  let k := hmac_key key in
  let inner := sha256_words (map (xor_byte 0x36) k ++ bytes_of message) in
  string_of_bytes (flat_map (be_bytes 4)
    (sha256_words (map (xor_byte 0x5c) k ++ flat_map (be_bytes 4) inner))).

Fixpoint hex_of (s : string) : string :=
  match s with
  | EmptyString => EmptyString
  | String c s' => hex_word 2 (Z.of_nat (nat_of_ascii c)) +:+ hex_of s'
  end.

Example hmac_rfc4231_2 :
  hex_of (hmac_sha256 "Jefe" "what do ya want for nothing?") =
    "5bdcc146bf60754e6a042426089575c75a003f089d2739839dec58b964ec3843".
Proof. vm_compute. reflexivity. Qed.

#[global] Arguments hmac_sha256 : simpl never.
#[global] Arguments sha256_digest : simpl never.
