(* ===== verification/PyBytes.v ===== *)
(** * Python [bytes] and [str] methods

    Bytes are the characters of a [string].  Slices, [find], [split],
    [replace], [strip], [lower] and [int] as the HTTP codecs use them, with the
    lemmas that evaluate them on a concatenation of known pieces. *)

From stdpp Require Import pretty.
From S2P Require Import Prelude PyValue PyJson.
Local Open Scope string_scope.
Local Open Scope Z_scope.

(** ** [bytes] methods *)
Definition CR : ascii := ascii_of_nat 13.
Definition LF : ascii := ascii_of_nat 10.
Definition TAB : ascii := ascii_of_nat 9.
Definition crlf : string := String CR (String LF EmptyString).

(** [data[i:j]] for [i <= j]. *)
Definition slice (i j : nat) (s : string) : string := String.substring i (j - i) s.
(** [data[i:]]. *)
Definition slice_from (i : nat) (s : string) : string := String.substring i (String.length s - i) s.

Definition char_code (c : ascii) : Z := Z.of_nat (nat_of_ascii c).

Definition is_digit (c : ascii) : bool := char_in "0123456789" c.

(** [int(s)] of a string of decimal digits. *)
Fixpoint decimal (acc : Z) (s : string) : Z :=
  match s with
  | EmptyString => acc
  | String c s' => decimal (10 * acc + (char_code c - 48)) s'
  end.

(** [s.split(sep)] for a separator of one character. *)
Fixpoint split_char (sep : ascii) (s : string) : list string :=
  match s with
  | EmptyString => [EmptyString]
  | String c s' =>
      match split_char sep s' with
      | piece :: rest =>
          if bool_decide (c = sep) then EmptyString :: piece :: rest else String c piece :: rest
      | [] => []
      end
  end.

(** [data.split(b"\r\n")]. *)
Fixpoint split_crlf (s : string) : list string :=
  match s with
  | EmptyString => [EmptyString]
  | String c1 s1 =>
      match s1 with
      | String c2 s2 =>
          if bool_decide (c1 = CR) && bool_decide (c2 = LF) then EmptyString :: split_crlf s2
          else match split_crlf s1 with
               | piece :: rest => String c1 piece :: rest
               | [] => []
               end
      | EmptyString => [s]
      end
  end.

(** [data.replace(b"\r\n", b"")]. *)
Fixpoint remove_crlf (s : string) : string :=
  match s with
  | EmptyString => EmptyString
  | String c1 s1 =>
      match s1 with
      | String c2 s2 =>
          if bool_decide (c1 = CR) && bool_decide (c2 = LF) then remove_crlf s2
          else String c1 (remove_crlf s1)
      | EmptyString => s
      end
  end.

Definition lower_char (c : ascii) : ascii :=
  let n := nat_of_ascii c in
  if bool_decide (65 <= n)%nat && bool_decide (n <= 90)%nat then ascii_of_nat (n + 32) else c.
Fixpoint lower (s : string) : string :=
  match s with EmptyString => EmptyString | String c s' => String (lower_char c) (lower s') end.

(** [s.strip(" \t")]. *)
Definition is_blank (c : ascii) : bool := bool_decide (c = " "%char) || bool_decide (c = TAB).
Fixpoint lstrip (s : string) : string :=
  match s with
  | EmptyString => EmptyString
  | String c s' => if is_blank c then lstrip s' else s
  end.
Fixpoint rstrip (s : string) : string :=
  match s with
  | EmptyString => EmptyString
  | String c s' =>
      let t := rstrip s' in
      if is_blank c && String.eqb t EmptyString then EmptyString else String c t
  end.
Definition strip (s : string) : string := rstrip (lstrip s).

(** [data[:colon][-1:] in (b" ", b"\t")]. *)
Fixpoint last_char (s : string) : option ascii :=
  match s with
  | EmptyString => None
  | String c EmptyString => Some c
  | String _ s' => last_char s'
  end.

(** ** Concatenations *)
Lemma app_cons c a b : (String c a) +:+ b = String c (a +:+ b).
Proof. done. Qed.

Lemma app_assoc_str (a b c : string) : (a +:+ b) +:+ c = a +:+ (b +:+ c).
Proof. induction a as [|x a IH]; [done|]. rewrite !app_cons. by f_equal. Qed.

Lemma app_nil_str (a : string) : a +:+ "" = a.
Proof. induction a as [|x a IH]; [done|]. rewrite app_cons. by f_equal. Qed.

Lemma length_app_str a b : String.length (a +:+ b) = (String.length a + String.length b)%nat.
Proof. induction a as [|x a IH]; [done|]. rewrite app_cons. cbn. by rewrite IH. Qed.

Lemma all_chars_app P a b : all_chars P (a +:+ b) = all_chars P a && all_chars P b.
Proof. induction a as [|x a IH]; [done|]. rewrite app_cons. cbn. by rewrite IH, andb_assoc. Qed.

Lemma all_chars_impl (P Q : ascii → bool) s :
  (∀ c, P c = true → Q c = true) → all_chars P s = true → all_chars Q s = true.
Proof.
  intros H. induction s as [|c s IH]; cbn; [done|]. intros [Hc Hs]%andb_true_iff. by rewrite H, IH.
Qed.

Lemma substring_all s : String.substring 0 (String.length s) s = s.
Proof. induction s as [|c s IH]; cbn; [done|]. by rewrite IH. Qed.

Lemma substring_app a b : String.substring 0 (String.length a) (a +:+ b) = a.
Proof. induction a as [|c a IH]; [by destruct b|]. rewrite app_cons. cbn. by rewrite IH. Qed.

Lemma substring_skip a b m : String.substring (String.length a) m (a +:+ b) = String.substring 0 m b.
Proof. induction a as [|c a IH]; [done|]. rewrite app_cons. apply IH. Qed.

Lemma slice_split i s : s = slice 0 i s +:+ slice_from i s.
Proof.
  unfold slice, slice_from. rewrite Nat.sub_0_r. revert i. induction s as [|c s IH]; intros [|i]; try done.
  - cbn. change (String c s = String c (String.substring 0 (String.length s) s)). by rewrite substring_all.
  - cbn. rewrite app_cons. f_equal. apply IH.
Qed.

Lemma slice_prefix a b : slice 0 (String.length a) (a +:+ b) = a.
Proof. unfold slice. rewrite Nat.sub_0_r. apply substring_app. Qed.

Lemma slice_middle a b c :
  slice (String.length a) (String.length a + String.length b) (a +:+ b +:+ c) = b.
Proof. unfold slice. replace (_ + _ - _)%nat with (String.length b) by lia. by rewrite substring_skip, substring_app. Qed.

Lemma slice_from_app a b : slice_from (String.length a) (a +:+ b) = b.
Proof.
  unfold slice_from. rewrite length_app_str, substring_skip.
  replace (_ + _ - _)%nat with (String.length b) by lia. apply substring_all.
Qed.

Lemma char_in_false alphabet c : char_in alphabet c = negb (all_chars (λ x, negb (bool_decide (x = c))) alphabet).
Proof.
  induction alphabet as [|a s IH]; cbn; [done|]. rewrite IH, negb_andb, negb_involutive. done.
Qed.

(** A test every character of an alphabet passes. *)
Lemma char_in_all P alphabet c : char_in alphabet c = true → all_chars P alphabet = true → P c = true.
Proof.
  induction alphabet as [|a s IH]; cbn; [done|]. intros [H|H]%orb_true_iff [Ha Hs]%andb_true_iff; [|auto].
  bool_simpl. by subst.
Qed.

(** ** [find] *)
Definition lacks (c : ascii) (s : string) : bool := all_chars (λ x, negb (bool_decide (x = c))) s.

Lemma index_step p c s :
  String.index 0 p (String c s) = if String.prefix p (String c s) then Some 0%nat else S <$> String.index 0 p s.
Proof. reflexivity. Qed.

Lemma index_from a p s : String.index (String.length a) p (a +:+ s) = (λ n, (String.length a + n)%nat) <$> String.index 0 p s.
Proof.
  induction a as [|c a IH]; [change ("" +:+ s) with s; cbn; by destruct (String.index 0 p s)|]. rewrite app_cons. cbn. rewrite IH. by destruct (String.index 0 p s).
Qed.

(** A pattern is not found where its first character does not occur. *)
Lemma index_skip c p a s :
  lacks c a = true →
  String.index 0 (String c p) (a +:+ s) = (λ n, (String.length a + n)%nat) <$> String.index 0 (String c p) s.
Proof.
  induction a as [|x a IH]; [intros _; change ("" +:+ s) with s; by destruct (String.index 0 (String c p) s)|].
  cbn [lacks all_chars]. intros [Hx Ha]%andb_true_iff. rewrite app_cons, index_step.
  cbn [String.prefix]. bool_simpl. destruct (ascii_dec c x); [congruence|].
  unfold lacks in IH. rewrite IH by done. by destruct (String.index 0 (String c p) s).
Qed.

Lemma index_here p s : p ≠ "" → String.prefix p s = true → String.index 0 p s = Some 0%nat.
Proof. intros Hp H. destruct s as [|c s]; [destruct p; done|]. by rewrite index_step, H. Qed.

Lemma prefix_app p s : String.prefix p (p +:+ s) = true.
Proof. induction p as [|c p IH]; [by destruct s|]. rewrite app_cons. cbn. destruct (ascii_dec c c); [apply IH|done]. Qed.

Lemma find_char c a s : lacks c a = true → String.index 0 (String c "") (a +:+ String c s) = Some (String.length a).
Proof.
  intros Ha. rewrite index_skip by done. rewrite index_here; [cbn; f_equal; lia|done|].
  change (String c s) with (String c "" +:+ s). apply prefix_app.
Qed.

Lemma prefix_split p s : String.prefix p s = true → s = p +:+ slice_from (String.length p) s.
Proof.
  intros H. assert (∃ t, s = p +:+ t) as [t ->]; [|by rewrite slice_from_app].
  revert s H. induction p as [|c p IH]; intros s H; [by exists s|]. destruct s as [|x s]; [done|]. cbn in H.
  destruct (ascii_dec c x) as [->|]; [|done]. destruct (IH s H) as [t ->]. exists t. reflexivity.
Qed.

(** Where a pattern is found it occurs. *)
Lemma index_split p s i : p ≠ "" → String.index 0 p s = Some i → ∃ a b, s = a +:+ p +:+ b ∧ String.length a = i.
Proof.
  intros Hp. revert i. induction s as [|c s IH]; intros i; [by destruct p|]. rewrite index_step.
  destruct (String.prefix p (String c s)) eqn:E.
  - intros [= <-]. exists "", (slice_from (String.length p) (String c s)). split; [by apply prefix_split|done].
  - destruct (String.index 0 p s) as [n|]; [|done]. intros [= <-]. destruct (IH n eq_refl) as (a & b & -> & <-).
    exists (String c a), b. done.
Qed.

(** A pattern that occurs is found. *)
Lemma index_occurs p a b : p ≠ "" → String.index 0 p (a +:+ p +:+ b) ≠ None.
Proof.
  intros Hp. induction a as [|c a IH].
  - change ("" +:+ p +:+ b) with (p +:+ b). by rewrite index_here by first [done|apply prefix_app].
  - rewrite app_cons, index_step. destruct (String.prefix _ _); [done|]. by destruct (String.index 0 p (a +:+ p +:+ b)).
Qed.

(** A pattern is absent where its first character is. *)
Lemma index_lacks c p s : lacks c s = true → String.index 0 (String c p) s = None.
Proof. intros H. rewrite <-(app_nil_str s), index_skip by done. done. Qed.

Lemma slice_after_char a c s : slice_from (S (String.length a)) (a +:+ String c s) = s.
Proof.
  change (String c s) with (String c "" +:+ s). rewrite <-app_assoc_str.
  replace (S (String.length a)) with (String.length (a +:+ String c "")); [apply slice_from_app|].
  rewrite length_app_str. cbn. lia.
Qed.

(** ** Lines *)
Lemma remove_crlf_skip a s : lacks CR a = true → remove_crlf (a +:+ s) = a +:+ remove_crlf s.
Proof.
  induction a as [|x a IH]; [done|]. unfold lacks in *. cbn [all_chars]. intros [Hx Ha]%andb_true_iff. bool_simpl.
  rewrite !app_cons. cbn [remove_crlf]. rewrite (bool_decide_false (x = CR)) by done. cbn [andb].
  destruct (a +:+ s) as [|y t] eqn:E; [|by rewrite <-IH].
  destruct a; [|done]. change (s = "") in E. by subst.
Qed.

Lemma remove_crlf_line s : remove_crlf (crlf +:+ s) = remove_crlf s.
Proof. reflexivity. Qed.

Lemma split_crlf_last a : lacks CR a = true → split_crlf a = [a].
Proof.
  induction a as [|x a IH]; [done|]. unfold lacks in *. cbn [all_chars]. intros [Hx Ha]%andb_true_iff. bool_simpl.
  cbn [split_crlf]. rewrite (bool_decide_false (x = CR)) by done. cbn [andb]. rewrite IH by done. by destruct a.
Qed.

Lemma split_crlf_line a s : lacks CR a = true → split_crlf (a +:+ crlf +:+ s) = a :: split_crlf s.
Proof.
  induction a as [|x a IH]; [done|]. unfold lacks in *. cbn [all_chars]. intros [Hx Ha]%andb_true_iff. bool_simpl.
  rewrite app_cons. cbn [split_crlf]. rewrite (bool_decide_false (x = CR)) by done. cbn [andb]. rewrite IH by done.
  by destruct (a +:+ crlf +:+ s) eqn:E; [destruct a|].
Qed.

(** ** [strip] *)
Lemma rstrip_none s : all_chars (λ c, negb (is_blank c)) s = true → rstrip s = s.
Proof.
  induction s as [|c s IH]; [done|]. cbn. intros [Hc Hs]%andb_true_iff. bool_simpl. rewrite Hc, IH by done. done.
Qed.

Lemma lstrip_none s : all_chars (λ c, negb (is_blank c)) s = true → lstrip s = s.
Proof. destruct s as [|c s]; [done|]. cbn. intros [Hc _]%andb_true_iff. bool_simpl. by rewrite Hc. Qed.

Lemma strip_none s : all_chars (λ c, negb (is_blank c)) s = true → strip s = s.
Proof. intros H. unfold strip. by rewrite lstrip_none, rstrip_none. Qed.

(** ** Numerals *)
Lemma pretty_digit x : (x < 10)%N →
  is_digit (pretty_N_char x) = true ∧ char_code (pretty_N_char x) = 48 + Z.of_N x ∧
  ((0 < x)%N → pretty_N_char x ≠ "0"%char).
Proof.
  intros Hx. assert (x = 0 ∨ x = 1 ∨ x = 2 ∨ x = 3 ∨ x = 4 ∨ x = 5 ∨ x = 6 ∨ x = 7 ∨ x = 8 ∨ x = 9)%N as H by lia.
  repeat (destruct H as [H|H]; [by subst|]). by subst.
Qed.

Lemma pretty_N_go_spec x s :
  (0 < x)%N →
  decimal 0 (pretty_N_go x s) = decimal (Z.of_N x) s ∧
  all_chars is_digit (pretty_N_go x s) = all_chars is_digit s ∧
  ∃ c t, pretty_N_go x s = String c t ∧ c ≠ "0"%char.
Proof.
  revert s. induction (N.lt_wf_0 x) as [x _ IH]; intros s Hx. rewrite pretty_N_go_step by done.
  destruct (pretty_digit (x mod 10)) as (Hd & Hc & Hn); [apply N.mod_lt; lia|].
  pose proof (N.div_mod x 10 ltac:(lia)) as Hdm.
  assert (Hstep : decimal (Z.of_N (x / 10)) (String (pretty_N_char (x mod 10)) s) = decimal (Z.of_N x) s).
  { cbn. rewrite Hc. f_equal. lia. }
  destruct (decide (x < 10)%N) as [Hlt|Hge].
  - rewrite N.div_small in * by done. rewrite pretty_N_go_0. split_and!.
    + exact Hstep.
    + cbn [all_chars]. by rewrite Hd.
    + do 2 eexists. split; [done|]. apply Hn. rewrite N.mod_small; lia.
  - destruct (IH (x / 10)%N) with (s := String (pretty_N_char (x mod 10)) s) as (H1 & H2 & H3).
    + apply N.div_lt; lia.
    + apply N.div_str_pos. lia.
    + rewrite H1, H2, Hstep. split_and!; [done| |done]. cbn [all_chars]. by rewrite Hd.
Qed.

(** The text of a positive integer: decimal digits, no leading zero, and [int]
    reads it back. *)
Lemma int_repr_spec z :
  0 < z →
  decimal 0 (int_repr z) = z ∧ all_chars is_digit (int_repr z) = true ∧
  ∃ c t, int_repr z = String c t ∧ c ≠ "0"%char.
Proof.
  intros Hz. destruct z as [|p|]; try lia. unfold int_repr, pretty, pretty_Z, pretty, pretty_positive.
  unfold pretty, pretty_N. rewrite decide_False by done.
  destruct (pretty_N_go_spec (Npos p) "") as (-> & -> & H); [lia|]. done.
Qed.

Lemma digit_not_blank c : is_digit c = true → is_blank c = false.
Proof. unfold is_blank. intros H. apply orb_false_iff. split; apply bool_decide_eq_false; intros ->; vm_compute in H; done. Qed.
