(* ===== verification/HttpResponse.v ===== *)
(** * The HTTP/1.1 response codec (forwarder_http_response.py)

    Bytes are the characters of a [string]. *)

From S2P Require Import Prelude PyValue PyJson Sha256 PyBytes.
Local Open Scope string_scope.
Local Open Scope Z_scope.

Definition MAX_STATUS_LINE_BYTES : Z := 2048.
Definition MAX_HEADER_BYTES : Z := 16384.
Definition MAX_BODY_BYTES : Z := 1048576.
Definition _MAX_INPUT : Z := MAX_STATUS_LINE_BYTES + MAX_HEADER_BYTES + MAX_BODY_BYTES.
Definition _MAX_FIELDS : Z := 64.
Definition _TOKEN : string := "!#$%&'*+-.^_`|~" +:+ LETTERS_DIGITS.
Definition _FORBIDDEN_HEADERS : list string :=
  ["transfer-encoding"; "trailer"; "content-encoding"; "upgrade"].

Definition HTTPResponseError : exn := Exn "HTTPResponseError" "invalid_response".

(** The fields of a frozen dataclass are not type-checked: [status] is any
    value, and a [body] that is not [bytes] is [None]. *)
Record ParsedResponse := mkParsedResponse { status : pyval; body : option string }.

Record ParsedResponseHead := mkParsedResponseHead { head_status : Z; body_length : Z }.

(** ** Parsing *)
Definition _valid_status (st : Z) : bool :=
  ((200 <=? st) && (st <=? 299)) || ((400 <=? st) && (st <=? 599)).

Definition fail {A} : outcome A := Raise HTTPResponseError.
Definition guard (b : bool) : outcome unit := check_that b HTTPResponseError.

Definition _parse_status_line (data : string) : outcome (Z * nat) :=
  match String.index 0 crlf data with
  | None => fail
  | Some e =>
      guard (Z.of_nat e + 2 <=? MAX_STATUS_LINE_BYTES);;
      let line := slice 0 e data in
      match String.index 0 " " line with
      | None => fail
      | Some i =>
          let rest := slice_from (S i) line in
          match String.index 0 " " rest with
          | None => fail
          | Some j =>
              let version := slice 0 i line in
              let code := slice 0 j rest in
              let phrase := slice_from (S j) rest in
              guard (String.eqb version "HTTP/1.1" && (str_len code =? 3));;
              guard (all_chars is_digit code && negb (String.eqb phrase "") &&
                     negb (String.prefix " " phrase));;
              guard (all_chars (λ c, (32 <=? char_code c) && (char_code c <=? 126)) phrase);;
              let st := decimal 0 code in
              guard (_valid_status st);;
              Ret (st, (e + 2)%nat)
          end
      end
  end.

Definition header_value_char (c : ascii) : bool :=
  negb (((char_code c <? 32) && negb (bool_decide (c = TAB))) || (char_code c =? 127) ||
        (126 <? char_code c)).

Definition _parse_header_line (headers : dict string string) (line : string)
    : outcome (dict string string) :=
  match String.index 0 ":" line with
  | None => fail
  | Some colon =>
      let name := slice 0 colon line in
      let value := slice_from (S colon) line in
      guard ((0 <? Z.of_nat colon) &&
             negb (match last_char name with Some c => is_blank c | None => false end));;
      guard (all_chars (char_in _TOKEN) name);;
      guard (all_chars header_value_char value);;
      let lowered := lower name in
      guard (negb (str_in lowered (dict_keys headers) || str_in lowered _FORBIDDEN_HEADERS));;
      let normalized := strip value in
      guard (negb (char_in normalized TAB && negb (String.eqb lowered "connection")));;
      Ret (dict_set headers lowered normalized)
  end.

Fixpoint _parse_header_lines (headers : dict string string) (lines : list string)
    : outcome (dict string string) :=
  match lines with
  | [] => Ret headers
  | line :: lines' => headers' ← _parse_header_line headers line; _parse_header_lines headers' lines'
  end.

Definition connection_ok (headers : dict string string) : bool :=
  match dict_get headers "connection" with
  | None => true
  | Some connection =>
      let tokens := map strip (split_char "," connection) in
      forallb (λ t, negb (String.eqb t "") && all_chars (char_in _TOKEN) t) tokens &&
      forallb (λ t, negb (str_in (lower t) ["content-length"; "content-type"])) tokens
  end.

Definition _parse_headers (data : string) (start : nat) : outcome (dict string string * nat) :=
  if String.eqb (slice start (start + 2) data) crlf then Ret ([], (start + 2)%nat)
  else match String.index start (crlf +:+ crlf) data with
  | None => fail
  | Some e =>
      guard (Z.of_nat e + 4 - Z.of_nat start <=? MAX_HEADER_BYTES);;
      let lines := if Nat.eqb e start then [] else split_crlf (slice start e data) in
      guard (Z.of_nat (length lines) <=? _MAX_FIELDS);;
      headers ← _parse_header_lines [] lines;
      guard (connection_ok headers);;
      Ret (headers, (e + 4)%nat)
  end.

(** [_CANONICAL_LENGTH.fullmatch(length)]. *)
Definition canonical_length (s : string) : bool :=
  match s with
  | EmptyString => false
  | String c s' =>
      if bool_decide (c = "0"%char) then String.eqb s' "" else is_digit c && all_chars is_digit s'
  end.

Definition _body_length (st : Z) (headers : dict string string) : outcome Z :=
  let length := dict_get headers "content-length" in
  let ctype := dict_get headers "content-type" in
  if st =? 204 then
    guard (bool_decide (length = None) && bool_decide (ctype = None));; Ret 0
  else if st =? 205 then
    guard (bool_decide (length = Some "0") && bool_decide (ctype = None));; Ret 0
  else match length with
  | None => fail
  | Some l =>
      guard ((str_len l <=? str_len (int_repr MAX_BODY_BYTES)) && canonical_length l &&
             bool_decide (ctype = Some "application/json"));;
      let declared := decimal 0 l in
      guard ((declared <=? MAX_BODY_BYTES) && negb (declared =? 0));;
      Ret declared
  end.

Definition parse_response_head (data : string) : outcome ParsedResponseHead :=
  guard (str_len data <=? MAX_STATUS_LINE_BYTES + MAX_HEADER_BYTES);;
  '(st, header_start) ← _parse_status_line data;
  '(headers, body_start) ← _parse_headers data header_start;
  guard (Nat.eqb body_start (String.length data));;
  let remainder := remove_crlf data in
  guard (negb (char_in remainder CR) && negb (char_in remainder LF));;
  n ← _body_length st headers;
  Ret (mkParsedResponseHead st n).

Definition body_start_of (data : string) (status_end : nat) : outcome nat :=
  if String.eqb (slice (status_end + 2) (status_end + 4) data) crlf then Ret (status_end + 4)%nat
  else match String.index (status_end + 2) (crlf +:+ crlf) data with
  | None => fail
  | Some header_end => Ret (header_end + 4)%nat
  end.

Definition parse_response (data : string) : outcome ParsedResponse :=
  guard (str_len data <=? _MAX_INPUT);;
  match String.index 0 crlf data with
  | None => fail
  | Some status_end =>
      body_start ← body_start_of data status_end;
      head ← parse_response_head (slice 0 body_start data);
      let b := slice_from body_start data in
      guard ((str_len b <=? MAX_BODY_BYTES) && (str_len b =? body_length head));;
      Ret (mkParsedResponse (VInt (head_status head)) (Some b))
  end.

(** ** Serialising *)
Definition response_prefix (st n : Z) : string :=
  "HTTP/1.1 " +:+ int_repr st +:+ " Response" +:+ crlf +:+
  "Content-Type: application/json" +:+ crlf +:+
  "Content-Length: " +:+ int_repr n +:+ crlf +:+ "Connection: close" +:+ crlf +:+ crlf.

Definition serialize_response (response : ParsedResponse) : outcome string :=
  match status response, body response with
  | VInt st, Some b =>
      guard (_valid_status st && (str_len b <=? MAX_BODY_BYTES));;
      if st =? 204 then
        guard (String.eqb b "");;
        Ret ("HTTP/1.1 204 No Content" +:+ crlf +:+ "Connection: close" +:+ crlf +:+ crlf)
      else if st =? 205 then
        guard (String.eqb b "");;
        Ret ("HTTP/1.1 205 Reset Content" +:+ crlf +:+ "Content-Length: 0" +:+ crlf +:+
             "Connection: close" +:+ crlf +:+ crlf)
      else
        guard (negb (String.eqb b ""));;
        Ret (response_prefix st (str_len b) +:+ b)
  | _, _ => fail
  end.

Example parse_serialize_200 :
  (w ← serialize_response (mkParsedResponse (VInt 200) (Some "{}")); parse_response w) =
    Ret (mkParsedResponse (VInt 200) (Some "{}")).
Proof. vm_compute. reflexivity. Qed.
Example parse_rejects_duplicate_header :
  parse_response ("HTTP/1.1 204 OK" +:+ crlf +:+ "A: b" +:+ crlf +:+ "a: c" +:+ crlf +:+ crlf) =
    Raise HTTPResponseError.
Proof. vm_compute. reflexivity. Qed.
