(* ===== verification/HttpRoundtrip.v ===== *)
(** * The response codec round-trips

    Every response the serializer writes, the parser reads back.  The proof
    follows the lines of the serialized document through the parser. *)

From S2P Require Import Prelude PyValue PyJson Sha256 PyBytes HttpResponse.
Local Open Scope string_scope.
Local Open Scope Z_scope.

Definition first_not_CR (s : string) : bool :=
  match s with String c _ => negb (bool_decide (c = CR)) | EmptyString => false end.

Notation blank_line := (crlf +:+ crlf).

(** The end of the headers is not at the end of a line another line follows. *)
Lemma find_blank_line l s :
  lacks CR l = true → first_not_CR s = true →
  String.index 0 blank_line (l +:+ crlf +:+ s) =
    (λ n, (String.length l + (2 + n))%nat) <$> String.index 0 blank_line s.
Proof.
  intros Hl Hs. change blank_line with (String CR (String LF crlf)). rewrite index_skip by done.
  destruct s as [|c s]; [done|]. cbn [first_not_CR] in Hs. bool_simpl.
  assert (String.index 0 (String CR (String LF crlf)) (crlf +:+ String c s) =
          (λ n, (2 + n)%nat) <$> String.index 0 (String CR (String LF crlf)) (String c s)) as ->.
  { change (crlf +:+ String c s) with (String CR (String LF (String c s))). rewrite index_step.
    assert (String.prefix (String CR (String LF crlf)) (String CR (String LF (String c s))) = false) as ->.
    { change (String.prefix (String CR (String LF EmptyString)) (String c s) = false). cbn [String.prefix].
      by destruct (ascii_dec CR c). }
    rewrite index_step. change (String.prefix (String CR (String LF crlf)) (String LF (String c s))) with false.
    cbv iota. by destruct (String.index 0 (String CR (String LF crlf)) (String c s)). }
  by destruct (String.index 0 (String CR (String LF crlf)) (String c s)).
Qed.

Lemma find_last_line l s : lacks CR l = true → String.index 0 blank_line (l +:+ blank_line +:+ s) = Some (String.length l).
Proof.
  intros Hl. change blank_line with (String CR (String LF crlf)). rewrite index_skip by done.
  rewrite index_here by (done || apply prefix_app). cbn. f_equal. lia.
Qed.

(** A text of digits is free of the characters the parser looks for. *)
Lemma digits_lack c d : is_digit c = false → all_chars is_digit d = true → lacks c d = true.
Proof.
  intros Hc. apply all_chars_impl. intros x Hx. apply negb_true_iff, bool_decide_eq_false. intros ->. congruence.
Qed.

Section ok_response.
Context (c d b : string) (st n : Z).
Context (Hst : _valid_status st = true) (H204 : (st =? 204) = false) (H205 : (st =? 205) = false).
Context (Hc : all_chars is_digit c = true) (Hclen : str_len c = 3) (Hcval : decimal 0 c = st).
Context (Hd : all_chars is_digit d = true) (Hdlen : 0 < str_len d ≤ 7) (Hdval : decimal 0 d = n).
Context (Hdcan : canonical_length d = true) (Hn : 0 < n ≤ MAX_BODY_BYTES) (Hb : str_len b = n).

Local Notation L0 := ("HTTP/1.1" +:+ " " +:+ c +:+ " " +:+ "Response").
Local Notation L1 := "Content-Type: application/json".
Local Notation L2 := ("Content-Length: " +:+ d).
Local Notation L3 := "Connection: close".
Local Notation start := (L0 +:+ crlf).
Local Notation fields := (L1 +:+ crlf +:+ L2 +:+ crlf +:+ L3).
Local Notation head := (start +:+ fields +:+ blank_line).

Lemma lacks_app x p q : lacks x (p +:+ q) = lacks x p && lacks x q.
Proof. apply all_chars_app. Qed.

Lemma L0_lacks x : is_digit x = false → lacks x "HTTP/1.1" && lacks x " " && lacks x "Response" = true → lacks x L0 = true.
Proof. intros Hx H. bool_simpl. rewrite !lacks_app, (digits_lack _ _ Hx Hc). by repeat match goal with E : lacks x _ = true |- _ => rewrite E end. Qed.

Lemma L2_lacks x : is_digit x = false → lacks x "Content-Length: " = true → lacks x L2 = true.
Proof. intros Hx H. by rewrite lacks_app, H, (digits_lack _ _ Hx Hd). Qed.

Lemma L0_no_CR : lacks CR L0 = true. Proof. by apply L0_lacks. Qed.
Lemma L2_no_CR : lacks CR L2 = true. Proof. by apply L2_lacks. Qed.

Lemma status_line_end s : String.index 0 crlf (start +:+ s) = Some (String.length L0).
Proof.
  rewrite app_assoc_str. unfold crlf at 1. rewrite index_skip by apply L0_no_CR.
  rewrite index_here; [cbn; f_equal; lia|done|apply prefix_app].
Qed.

Lemma fields_end s : String.index (String.length start) blank_line (start +:+ fields +:+ blank_line +:+ s) =
  Some (String.length start + String.length fields)%nat.
Proof.
  rewrite index_from, !app_assoc_str. rewrite find_blank_line by done.
  rewrite <-(app_assoc_str "Content-Length: " d).
  rewrite find_blank_line by (done || apply L2_no_CR). rewrite <-(app_assoc_str crlf crlf), find_last_line by done. cbn [fmap option_fmap option_map]. f_equal.
  rewrite !length_app_str. cbn. lia.
Qed.

Lemma start_length : (String.length L0 + 2)%nat = String.length start.
Proof. rewrite (length_app_str L0). reflexivity. Qed.

Lemma not_blank_yet s : String.eqb (slice (String.length start) (String.length start + 2) (start +:+ fields +:+ s)) crlf = false.
Proof.
  change 2%nat with (String.length "Co"). change fields with ("Co" +:+ ("ntent-Type: application/json" +:+ crlf +:+ L2 +:+ crlf +:+ L3)).
  rewrite (app_assoc_str "Co"), slice_middle. reflexivity.
Qed.

Lemma start_is_23 : String.length start = 23%nat.
Proof.
  rewrite <-start_length, !length_app_str. unfold str_len in Hclen.
  change (String.length "HTTP/1.1") with 8%nat. change (String.length " ") with 1%nat.
  change (String.length "Response") with 8%nat. lia.
Qed.

Lemma parse_status_line_ok s : _parse_status_line (start +:+ s) = Ret (st, String.length start).
Proof.
  unfold _parse_status_line. rewrite status_line_end.
  assert (Hlen : String.length L0 = 21%nat).
  { rewrite !length_app_str. cbn [String.length]. unfold str_len in Hclen. lia. }
  rewrite Hlen. cbn [guard check_that]. change (guard (Z.of_nat 21 + 2 <=? MAX_STATUS_LINE_BYTES)) with (Ret (A:=unit) tt).
  cbn [mbind outcome_bind]. rewrite <-Hlen, (app_assoc_str L0), slice_prefix.
  change L0 with ("HTTP/1.1" +:+ String " " (c +:+ String " " "Response")).
  assert (Hsp : lacks " " c = true) by by apply digits_lack.
  rewrite find_char, slice_after_char, find_char, slice_after_char, !slice_prefix by done.
  cbn [guard]. unfold guard. rewrite Hclen, Hc, Hcval, Hst. transitivity (Ret (st, (String.length L0 + 2)%nat)); [reflexivity|by rewrite start_length].
Qed.

Lemma header_lines_ok :
  _parse_header_lines [] [L1; L2; L3] =
    Ret [("content-type", "application/json"); ("content-length", d); ("connection", "close")].
Proof.
  cbn [_parse_header_lines].
  replace (_parse_header_line [] L1) with (Ret (A:=dict string string) [("content-type", "application/json")]) by (vm_compute; reflexivity).
  cbn [mbind outcome_bind].
  assert (_parse_header_line [("content-type", "application/json")] L2 =
          Ret [("content-type", "application/json"); ("content-length", d)]) as ->.
  { unfold _parse_header_line. change L2 with ("Content-Length" +:+ String ":" (" " +:+ d)).
    rewrite find_char, slice_after_char, slice_prefix by done.
    assert (Hv : all_chars header_value_char (" " +:+ d) = true).
    { rewrite all_chars_app. apply andb_true_iff. split; [done|]. revert Hd. apply all_chars_impl.
      intros x Hx. by apply (char_in_all _ _ _ Hx). }
    assert (Hs : strip (" " +:+ d) = d).
    { change (strip (" " +:+ d)) with (strip d). apply strip_none. revert Hd. apply all_chars_impl.
      intros x Hx. by rewrite digit_not_blank. }
    assert (Ht : char_in d TAB = false).
    { rewrite char_in_false. apply negb_false_iff. by apply digits_lack. }
    rewrite Hv, Hs, Ht. reflexivity. }
  cbn [mbind outcome_bind]. unfold _parse_header_line.
  change L3 with ("Connection" +:+ String ":" " close"). rewrite find_char, slice_after_char, slice_prefix by done.
  reflexivity.
Qed.

Lemma fields_split : split_crlf fields = [L1; L2; L3].
Proof. rewrite !split_crlf_line by (done || apply L2_no_CR). by rewrite split_crlf_last. Qed.

Lemma fields_length : (String.length fields ≤ 100)%nat.
Proof. rewrite !length_app_str. cbn [String.length]. unfold str_len in Hdlen. cbn. lia. Qed.

Lemma parse_headers_ok :
  _parse_headers head (String.length start) =
    Ret ([("content-type", "application/json"); ("content-length", d); ("connection", "close")], String.length head).
Proof.
  unfold _parse_headers. rewrite not_blank_yet.
  pose proof (fields_end "") as Hf. rewrite app_nil_str in Hf. rewrite Hf. pose proof fields_length.
  assert (Z.of_nat (String.length start + String.length fields) + 4 - Z.of_nat (String.length start) <=? MAX_HEADER_BYTES = true) as Hlen
    by (apply Z.leb_le; unfold MAX_HEADER_BYTES; lia).
  unfold guard at 1. rewrite Hlen. cbn [check_that mbind outcome_bind].
  assert (Nat.eqb (String.length start + String.length fields) (String.length start) = false) as ->.
  { apply Nat.eqb_neq. rewrite (length_app_str L1). cbn [String.length]. lia. }
  rewrite slice_middle, fields_split, header_lines_ok. cbn [length guard].
  transitivity (Ret ([("content-type", "application/json"); ("content-length", d); ("connection", "close")],
    (String.length start + String.length fields + 4)%nat)); [reflexivity|].
  do 2 f_equal. rewrite (length_app_str start), (length_app_str fields). change (String.length blank_line) with 4%nat. lia.
Qed.

Lemma head_clean : remove_crlf head = L0 +:+ L1 +:+ L2 +:+ L3.
Proof.
  rewrite app_assoc_str, remove_crlf_skip by apply L0_no_CR. rewrite remove_crlf_line, (app_assoc_str L1).
  rewrite remove_crlf_skip, !app_assoc_str, remove_crlf_line by done. rewrite <-(app_assoc_str "Content-Length: " d).
  rewrite remove_crlf_skip, remove_crlf_line, remove_crlf_skip by (done || apply L2_no_CR).
  rewrite !app_assoc_str. reflexivity.
Qed.

Lemma body_length_ok :
  _body_length st [("content-type", "application/json"); ("content-length", d); ("connection", "close")] = Ret n.
Proof.
  unfold _body_length. rewrite H204, H205.
  change (dict_get _ "content-length") with (Some d).
  assert (str_len d <=? str_len (int_repr MAX_BODY_BYTES) = true) as Hl.
  { apply Z.leb_le. change (str_len (int_repr MAX_BODY_BYTES)) with 7. lia. }
  unfold guard. rewrite Hl, Hdcan, Hdval. cbn.
  rewrite (proj2 (Z.leb_le n MAX_BODY_BYTES)), (proj2 (Z.eqb_neq n 0)) by lia. reflexivity.
Qed.

Lemma parse_head_ok : parse_response_head head = Ret (mkParsedResponseHead st n).
Proof.
  unfold parse_response_head. rewrite parse_status_line_ok. cbn [mbind outcome_bind].
  assert (str_len head <=? MAX_STATUS_LINE_BYTES + MAX_HEADER_BYTES = true) as Hlen.
  { apply Z.leb_le. pose proof fields_length as Hl. unfold str_len, MAX_STATUS_LINE_BYTES, MAX_HEADER_BYTES in *.
    rewrite (length_app_str start), (length_app_str fields), start_is_23.
    change (String.length blank_line) with 4%nat. lia. }
  unfold guard at 1. rewrite Hlen. cbn [check_that mbind outcome_bind].
  rewrite parse_headers_ok. cbn [mbind outcome_bind]. unfold guard at 1. rewrite Nat.eqb_refl. cbn [check_that mbind outcome_bind].
  rewrite head_clean, !char_in_false. fold (lacks CR (L0 +:+ L1 +:+ L2 +:+ L3)) (lacks LF (L0 +:+ L1 +:+ L2 +:+ L3)).
  rewrite !lacks_app, (digits_lack CR c), (digits_lack CR d), (digits_lack LF c), (digits_lack LF d) by done.
  cbn [andb negb].
  rewrite body_length_ok. reflexivity.
Qed.

Lemma body_start_ok : body_start_of (head +:+ b) (String.length L0) = Ret (String.length head).
Proof.
  unfold body_start_of. replace (String.length L0 + 4)%nat with (String.length start + 2)%nat by (rewrite <-start_length; lia).
  rewrite start_length, (app_assoc_str start), (app_assoc_str fields), not_blank_yet, fields_end. do 2 f_equal.
  rewrite (length_app_str start), (length_app_str fields). change (String.length blank_line) with 4%nat. lia.
Qed.

Lemma parse_ok : parse_response (head +:+ b) = Ret (mkParsedResponse (VInt st) (Some b)).
Proof.
  unfold parse_response.
  assert (str_len (head +:+ b) <=? _MAX_INPUT = true) as Hlen.
  { apply Z.leb_le. pose proof fields_length as Hl. unfold str_len, _MAX_INPUT, MAX_STATUS_LINE_BYTES, MAX_HEADER_BYTES, MAX_BODY_BYTES in *.
    rewrite (length_app_str head), (length_app_str start), (length_app_str fields), start_is_23.
    change (String.length blank_line) with 4%nat. lia. }
  unfold guard at 1. rewrite Hlen. cbn [check_that mbind outcome_bind].
  pose proof (status_line_end ((fields +:+ blank_line) +:+ b)) as Hend. rewrite <-(app_assoc_str start) in Hend. rewrite Hend.
  rewrite body_start_ok. cbn [mbind outcome_bind]. rewrite slice_prefix, slice_from_app, parse_head_ok.
  cbn [mbind outcome_bind body_length head_status]. unfold guard. rewrite Hb, Z.eqb_refl, (proj2 (Z.leb_le n MAX_BODY_BYTES)) by lia.
  reflexivity.
Qed.

Lemma head_is_prefix : c = int_repr st → d = int_repr n → response_prefix st n = head.
Proof.
  intros Ec Ed. unfold response_prefix. rewrite <-Ec, <-Ed, !app_assoc_str. reflexivity.
Qed.
End ok_response.

Lemma int_repr_digits z k :
  0 < z → 10 ^ (k - 1) ≤ z < 10 ^ k → 0 < k → str_len (int_repr z) = k.
Proof.
  intros Hz Hk Hk0. destruct (int_repr_len z Hz) as (k' & -> & Hk' & Hlo & Hhi).
  destruct (Z.lt_trichotomy k k') as [H|[H|H]]; [|done|].
  - assert (10 ^ k ≤ 10 ^ (k' - 1)) by (apply Z.pow_le_mono_r; lia). lia.
  - assert (10 ^ k' ≤ 10 ^ (k - 1)) by (apply Z.pow_le_mono_r; lia). lia.
Qed.

Lemma int_repr_canonical z : 0 < z → canonical_length (int_repr z) = true.
Proof.
  intros Hz. destruct (int_repr_spec z Hz) as (_ & Hd & x & t & E & Hx). rewrite E in *. cbn [canonical_length].
  rewrite bool_decide_false by done. exact Hd.
Qed.

(** C33: the codec round-trips.  Whatever response the serializer accepts, the
    parser reads the bytes it wrote back to that same response: the status, and
    the body byte for byte, for every status and every body the profile allows. *)
Theorem parse_serialize_roundtrip r w : serialize_response r = Ret w → parse_response w = Ret r.
Proof.
  destruct r as [[| |st| | |] [b|]]; try done. unfold serialize_response, guard. cbn [status body]. intros H.
  apply outcome_bind_ret_inv in H as ([] & Hst & H). apply check_that_ret_inv in Hst. apply andb_true_iff in Hst as [Hst Hlen].
  destruct (st =? 204) eqn:E4; [|destruct (st =? 205) eqn:E5].
  - inv_do. injection H as <-. apply Z.eqb_eq in E4 as ->.
    match goal with X : (b =? "")%string = true |- _ => apply String.eqb_eq in X as -> end. vm_compute. reflexivity.
  - inv_do. injection H as <-. apply Z.eqb_eq in E5 as ->.
    match goal with X : (b =? "")%string = true |- _ => apply String.eqb_eq in X as -> end. vm_compute. reflexivity.
  - apply outcome_bind_ret_inv in H as ([] & Hb & H). apply check_that_ret_inv, negb_true_iff, String.eqb_neq in Hb.
    injection H as <-. apply Z.leb_le in Hlen. assert (Hb0 : 0 < str_len b) by (destruct b; [done|unfold str_len; cbn; lia]).
    assert (Hs : 200 ≤ st ≤ 599).
    { unfold _valid_status in Hst. apply orb_true_iff in Hst as [Hst|Hst]; bool_simpl; lia. }
    destruct (int_repr_spec st ltac:(lia)) as (Hcv & Hcd & _). destruct (int_repr_spec (str_len b) Hb0) as (Hdv & Hdd & _).
    rewrite (head_is_prefix (int_repr st) (int_repr (str_len b))) by done.
    apply parse_ok with (n := str_len b); try done.
    + apply int_repr_digits; cbn; lia.
    + pose proof (int_repr_len_pos (str_len b) Hb0). pose proof (int_repr_len_mono (str_len b) MAX_BODY_BYTES Hb0 Hlen) as Hm.
      change (str_len (int_repr MAX_BODY_BYTES)) with 7 in Hm. lia.
    + by apply int_repr_canonical.
Qed.

Lemma parse_serialize_roundtrip_witness :
  parse_response ("HTTP/1.1 404 Response" +:+ crlf +:+ "Content-Type: application/json" +:+ crlf +:+ "Content-Length: 2" +:+
                  crlf +:+ "Connection: close" +:+ crlf +:+ crlf +:+ "{}")
  = Ret (mkParsedResponse (VInt 404) (Some "{}")).
Proof. apply (parse_serialize_roundtrip (mkParsedResponse (VInt 404) (Some "{}"))). vm_compute. reflexivity. Defined.
