(* ===== verification/Receipts.v ===== *)
(** * The receipt ledger (forwarder_receipts.py)

    [ReceiptLedger] is the state of the class of that name and every method is
    a definition below.  The ledger tells objects apart by identity ([is]):
    the reservation, receipt and claim objects it hands out are allocations
    numbered by [l_refs], and an argument is a [handle]: an object with some
    identity, class and [receipt_id] attribute, which a caller may have forged,
    copied or mutated.  Clock and token source are streams, as in Leases.v. *)

From S2P Require Import Prelude PyValue PyJson Services Sha256 HttpResponse.
Local Open Scope string_scope.
Local Open Scope Z_scope.

(** ** Constants *)
Definition MAX_RECEIPTS : Z := 2048.
Definition MAX_RECEIPT_BYTES : Z := 8192.
Definition MAX_LEDGER_BYTES : Z := 2 * 1024 * 1024.
Definition RETENTION_SECONDS : float := float_lit 310 0.
Definition MAX_HANDLER_SECONDS : float := float_lit 40 0.
Definition MAX_REQUEST_BYTES : Z := 2048 + 16384 + 262144.

Definition DISPATCH_STATES : list string :=
  ["NOT_DISPATCHED"; "FAILED"; "DISPATCHED_UNKNOWN"; "PARTIAL"; "TRANSPORT_CONFIRMED"].
Definition DELIVERY_OUTCOMES : list string := ["pending"; "sending"; "sent"; "not_sent"; "send_unknown"].

Definition _MAX_ID_BYTES : Z := 128.
Definition _SAFE_ID : string := LETTERS_DIGITS +:+ "-_.".
Definition _HEX : string := HEX_DIGITS.

Definition ReceiptError (code : string) : exn := Exn "ReceiptError" code.
Definition KeyError (key : string) : exn := Exn "KeyError" key.

(** ** Reason tables *)
Definition _REASON_LOCAL_RESPONSE : dict string (dict string (option string)) :=
  [("NOT_DISPATCHED",
     [("request_rejected", Some "invalid_request"); ("lease_denied", Some "denied");
      ("route_denied", Some "denied"); ("permit_denied", Some "denied");
      ("deadline", Some "deadline"); ("abandoned", Some "unavailable")]);
   ("FAILED",
     [("connect_failed", Some "upstream_failed"); ("upstream_tls_failed", Some "upstream_failed")]);
   ("DISPATCHED_UNKNOWN",
     [("write_failed", Some "upstream_unknown"); ("receive_failed", Some "upstream_unknown");
      ("malformed_response", Some "upstream_unknown"); ("abandoned", Some "upstream_unknown");
      ("deadline", Some "deadline")]);
   ("PARTIAL",
     [("response_incomplete", Some "upstream_unknown"); ("response_overflow", Some "upstream_unknown")]);
   ("TRANSPORT_CONFIRMED",
     [("ok", None); ("response_policy_rejected", Some "response_rejected")])].

Inductive entry_state := EReserved | EConnecting | EDispatched | EFinalized.

#[export] Instance entry_state_eq_dec : EqDecision entry_state.
Proof. solve_decision. Defined.

Definition entry_state_name (st : entry_state) : string :=
  match st with
  | EReserved => "reserved" | EConnecting => "connecting"
  | EDispatched => "dispatched" | EFinalized => "finalized"
  end.

(** [_LEGAL_FINALIZE_STATES.get(entry.state, frozenset())]. *)
Definition _LEGAL_FINALIZE_STATES (st : entry_state) : list string :=
  match st with
  | EReserved => ["NOT_DISPATCHED"]
  | EConnecting => ["FAILED"; "DISPATCHED_UNKNOWN"]
  | EDispatched => ["DISPATCHED_UNKNOWN"; "PARTIAL"; "TRANSPORT_CONFIRMED"]
  | EFinalized => []
  end.

Definition error_body (name : string) : string :=
  "{" +:+ dquote +:+ "error" +:+ dquote +:+ ":" +:+ dquote +:+ name +:+ dquote +:+ "}".

Definition LOCAL_RESPONSES : dict string ParsedResponse :=
  [("invalid_request", mkParsedResponse (VInt 400) (Some (error_body "forwarder_invalid_request")));
   ("denied", mkParsedResponse (VInt 403) (Some (error_body "forwarder_denied")));
   ("unavailable", mkParsedResponse (VInt 503) (Some (error_body "forwarder_unavailable")));
   ("upstream_failed", mkParsedResponse (VInt 502) (Some (error_body "forwarder_upstream_failed")));
   ("upstream_unknown", mkParsedResponse (VInt 502) (Some (error_body "forwarder_dispatch_unknown")));
   ("deadline", mkParsedResponse (VInt 504) (Some (error_body "forwarder_deadline")));
   ("response_rejected", mkParsedResponse (VInt 502) (Some (error_body "forwarder_response_rejected")))].

Definition _digest_and_length (response : ParsedResponse) : outcome (string * Z) :=
  wire ← serialize_response response; Ret (sha256_hex wire, str_len wire).

(** Computed at import; a response that does not serialise would fail there. *)
Definition _LOCAL_RESPONSE_DIGESTS : dict string (string * Z) :=
  flat_map (λ kr, match _digest_and_length kr.2 with Ret d => [(kr.1, d)] | Raise _ => [] end)
    LOCAL_RESPONSES.

(** [max(xs, key=len)]: the first of the longest. *)
Definition max_by_len (xs : list string) : string :=
  match xs with
  | [] => ""
  | x :: xs' => foldl (λ best y, if str_len best <? str_len y then y else best) x xs'
  end.

Definition _WORST_DISPATCH_STATE : string := max_by_len DISPATCH_STATES.
Definition _WORST_REASON : string :=
  max_by_len (flat_map dict_keys (dict_values _REASON_LOCAL_RESPONSE)).
Definition _WORST_STATUS_CLASS : string := "5xx".
Definition _WORST_DIGEST : string :=
  "ffffffffffffffffffffffffffffffffffffffffffffffffffffffffffffffff".
Definition _WORST_BODY_BYTES : Z := 99999999.
Definition _WORST_FLOAT : float := float_max.
Definition _WORST_DELIVERY_OUTCOME : string := max_by_len DELIVERY_OUTCOMES.
Definition _WORST_ENTRY_STATE : string := max_by_len ["reserved"; "connecting"; "dispatched"; "finalized"].
Definition _WORST_CHARGE : Z := 10 ^ str_len (int_repr MAX_RECEIPT_BYTES) - 1.

(** ** Argument checks *)
Definition _require_id (value : pyval) (code : string) : outcome string :=
  match value with
  | VStr s =>
      if (1 <=? str_len s) && (str_len s <=? _MAX_ID_BYTES) && all_chars (char_in _SAFE_ID) s
      then Ret s else Raise (ReceiptError code)
  | _ => Raise (ReceiptError code)
  end.

Definition _require_optional_id (value : pyval) (code : string) : outcome (option string) :=
  match value with
  | VNone => Ret None
  | _ => s ← _require_id value code; Ret (Some s)
  end.

Definition is_hex_digest (s : string) : bool := (str_len s =? 64) && all_chars (char_in _HEX) s.

Definition _require_digest (value : pyval) (code : string) : outcome string :=
  match value with
  | VStr s => if is_hex_digest s then Ret s else Raise (ReceiptError code)
  | _ => Raise (ReceiptError code)
  end.

Definition _require_service (value : pyval) : outcome string :=
  match value with
  | VStr s => if known_service s then Ret s else Raise (ReceiptError "invalid_service")
  | _ => Raise (ReceiptError "invalid_service")
  end.

Definition _require_count (value : pyval) (maximum : Z) (code : string) : outcome Z :=
  match value with
  | VInt n => if (0 <=? n) && (n <=? maximum) then Ret n else Raise (ReceiptError code)
  | _ => Raise (ReceiptError code)
  end.

Definition _finite (value : pyval) : option float := finite_number value.

Definition _require_deadline (value : pyval) (now : float) : outcome float :=
  match _finite value with
  | Some deadline =>
      if fltb now deadline && fleb deadline (fadd now MAX_HANDLER_SECONDS)
      then Ret deadline else Raise (ReceiptError "invalid_deadline")
  | None => Raise (ReceiptError "invalid_deadline")
  end.

Definition _status_class (status : Z) : string :=
  if (200 <=? status) && (status <=? 299) then "2xx"
  else if (400 <=? status) && (status <=? 499) then "4xx" else "5xx".

(** An argument where a [ParsedResponse] is expected. *)
Inductive response_arg := RNone | RForeign | RResponse (r : ParsedResponse).

Definition _serialize_or_fail (response : response_arg) : outcome string :=
  match response with
  | RResponse r =>
      match serialize_response r with
      | Ret wire => Ret wire
      | Raise _ => Raise (ReceiptError "invalid_response")
      end
  | _ => Raise (ReceiptError "invalid_response")
  end.

Definition response_digest (response : response_arg) : outcome string :=
  wire ← _serialize_or_fail response; Ret (sha256_hex wire).

Definition local_response (kind : pyval) : outcome ParsedResponse :=
  match kind with
  | VStr k =>
      match dict_get LOCAL_RESPONSES k with
      | Some r => Ret r
      | None => Raise (ReceiptError "unknown_local_response")
      end
  | _ => Raise (ReceiptError "unknown_local_response")
  end.

(** ** Data *)

(** An object passed to the ledger. *)
Record handle := mkHandle { h_ref : ref; h_class : string; h_receipt_id : pyval }.

Record ForwarderReceipt := mkForwarderReceipt {
  fr_receipt_id : string;
  fr_generation : string;
  fr_lease_id : string;
  fr_attempt_id : string;
  fr_operation_id : option string;
  fr_service : string;
  fr_route_id : string;
  fr_request_digest : string;
  fr_dispatch_state : string;
  fr_reason : string;
  fr_http_status_class : option string;
  fr_response_digest : option string;
  fr_client_response_digest : string;
  fr_request_bytes : Z;
  fr_upstream_body_bytes : option Z;
  fr_client_response_bytes : Z;
  fr_started_monotonic : float;
  fr_completed_monotonic : float;
}.

Definition local_response_for (receipt : ForwarderReceipt) : outcome ParsedResponse :=
  let kind :=
    match dict_get _REASON_LOCAL_RESPONSE (fr_dispatch_state receipt) with
    | Some reason_table => default None (dict_get reason_table (fr_reason receipt))
    | None => None
    end in
  match kind with
  | None => Raise (ReceiptError "upstream_response_required")
  | Some k => local_response (VStr k)
  end.

Definition worst_case_document (receipt_id generation lease_id attempt_id : string)
    (operation_id : option string) (service route_id request_digest : string) (request_bytes : Z)
    (deadline started_monotonic : float) : list (string * json) :=
  [("receipt_id", JStr receipt_id); ("generation", JStr generation); ("lease_id", JStr lease_id);
   ("attempt_id", JStr attempt_id); ("operation_id", JOption JStr operation_id);
   ("service", JStr service); ("route_id", JStr route_id); ("request_digest", JStr request_digest);
   ("request_bytes", JInt request_bytes); ("deadline", JFloat deadline);
   ("entry_state", JStr _WORST_ENTRY_STATE); ("charge", JInt _WORST_CHARGE);
   ("dispatch_state", JStr _WORST_DISPATCH_STATE); ("reason", JStr _WORST_REASON);
   ("http_status_class", JStr _WORST_STATUS_CLASS); ("response_digest", JStr _WORST_DIGEST);
   ("client_response_digest", JStr _WORST_DIGEST); ("upstream_body_bytes", JInt _WORST_BODY_BYTES);
   ("client_response_bytes", JInt _WORST_BODY_BYTES); ("started_monotonic", JFloat started_monotonic);
   ("completed_monotonic", JFloat _WORST_FLOAT); ("delivery_outcome", JStr _WORST_DELIVERY_OUTCOME);
   ("delivery_bytes_sent", JInt _WORST_BODY_BYTES)].

Definition _worst_case_charge (receipt_id generation lease_id attempt_id : string)
    (operation_id : option string) (service route_id request_digest : string) (request_bytes : Z)
    (deadline started_monotonic : float) : Z :=
  canonical_bytes (JObj (worst_case_document receipt_id generation lease_id attempt_id operation_id
    service route_id request_digest request_bytes deadline started_monotonic)).

(** The reservation, receipt and claim objects are held for their identity
    only. *)
Record _Entry := mkEntry {
  e_reservation : ref;
  e_receipt_id : string;
  e_generation : string;
  e_lease_id : string;
  e_attempt_id : string;
  e_operation_id : option string;
  e_service : string;
  e_route_id : string;
  e_request_digest : string;
  e_request_bytes : Z;
  e_deadline : float;
  e_started_monotonic : float;
  e_charge : Z;
  e_state : entry_state;
  e_receipt : option ref;
  e_record : option ForwarderReceipt;
  e_delivery_outcome : option string;
  e_delivery_bytes_sent : option Z;
  e_claim : option ref;
  e_swept : bool;
}.

Definition set_state (v : entry_state) (s : _Entry) : _Entry :=
  mkEntry (e_reservation s) (e_receipt_id s) (e_generation s) (e_lease_id s) (e_attempt_id s)
    (e_operation_id s) (e_service s) (e_route_id s) (e_request_digest s) (e_request_bytes s)
    (e_deadline s) (e_started_monotonic s) (e_charge s) v (e_receipt s) (e_record s)
    (e_delivery_outcome s) (e_delivery_bytes_sent s) (e_claim s) (e_swept s).
Definition set_finalized (record : ForwarderReceipt) (receipt : ref) (swept : bool)
    (s : _Entry) : _Entry :=
  mkEntry (e_reservation s) (e_receipt_id s) (e_generation s) (e_lease_id s) (e_attempt_id s)
    (e_operation_id s) (e_service s) (e_route_id s) (e_request_digest s) (e_request_bytes s)
    (e_deadline s) (e_started_monotonic s) (e_charge s) EFinalized (Some receipt) (Some record)
    (Some "pending") (e_delivery_bytes_sent s) (e_claim s) swept.
Definition set_claimed (claim : ref) (s : _Entry) : _Entry :=
  mkEntry (e_reservation s) (e_receipt_id s) (e_generation s) (e_lease_id s) (e_attempt_id s)
    (e_operation_id s) (e_service s) (e_route_id s) (e_request_digest s) (e_request_bytes s)
    (e_deadline s) (e_started_monotonic s) (e_charge s) (e_state s) (e_receipt s) (e_record s)
    (Some "sending") (e_delivery_bytes_sent s) (Some claim) (e_swept s).
Definition set_delivered (delivery : string) (bytes_sent : Z) (s : _Entry) : _Entry :=
  mkEntry (e_reservation s) (e_receipt_id s) (e_generation s) (e_lease_id s) (e_attempt_id s)
    (e_operation_id s) (e_service s) (e_route_id s) (e_request_digest s) (e_request_bytes s)
    (e_deadline s) (e_started_monotonic s) (e_charge s) (e_state s) (e_receipt s) (e_record s)
    (Some delivery) (Some bytes_sent) (e_claim s) (e_swept s).

Definition _entry_metadata (e : _Entry) : list (string * json) :=
  let of_record {A} (f : ForwarderReceipt → A) (j : A → json) : json :=
    JOption (λ r, j (f r)) (e_record e) in
  [("receipt_id", JStr (e_receipt_id e)); ("generation", JStr (e_generation e));
   ("lease_id", JStr (e_lease_id e)); ("attempt_id", JStr (e_attempt_id e));
   ("operation_id", JOption JStr (e_operation_id e)); ("service", JStr (e_service e));
   ("route_id", JStr (e_route_id e)); ("request_digest", JStr (e_request_digest e));
   ("request_bytes", JInt (e_request_bytes e)); ("entry_state", JStr (entry_state_name (e_state e)));
   ("charge", JInt (e_charge e)); ("deadline", JFloat (e_deadline e));
   ("started_monotonic", JFloat (e_started_monotonic e));
   ("dispatch_state", of_record fr_dispatch_state JStr); ("reason", of_record fr_reason JStr);
   ("http_status_class", of_record fr_http_status_class (JOption JStr));
   ("response_digest", of_record fr_response_digest (JOption JStr));
   ("client_response_digest", of_record fr_client_response_digest JStr);
   ("client_response_bytes", of_record fr_client_response_bytes JInt);
   ("upstream_body_bytes", of_record fr_upstream_body_bytes (JOption JInt));
   ("completed_monotonic", of_record fr_completed_monotonic JFloat);
   ("delivery_outcome", JOption JStr (e_delivery_outcome e));
   ("delivery_bytes_sent", JOption JInt (e_delivery_bytes_sent e))].

#[global] Arguments sha256_hex : simpl never.
#[global] Arguments _worst_case_charge : simpl never.
#[global] Arguments _LOCAL_RESPONSE_DIGESTS : simpl never.

Record ReceiptLedger := mkReceiptLedger {
  l_clock : nat → reading;
  l_calls : nat;
  l_entropy : nat → string;
  l_draws : nat;
  l_refs : ref;
  l_generation : string;
  l_entries : dict string _Entry;
  l_charged_bytes : Z;
  l_last_now : option float;
  l_held_code : option string;
}.

Definition set_l_calls (v : nat) (s : ReceiptLedger) : ReceiptLedger :=
  mkReceiptLedger (l_clock s) v (l_entropy s) (l_draws s) (l_refs s) (l_generation s)
    (l_entries s) (l_charged_bytes s) (l_last_now s) (l_held_code s).
Definition set_l_draws (v : nat) (s : ReceiptLedger) : ReceiptLedger :=
  mkReceiptLedger (l_clock s) (l_calls s) (l_entropy s) v (l_refs s) (l_generation s)
    (l_entries s) (l_charged_bytes s) (l_last_now s) (l_held_code s).
Definition set_l_refs (v : ref) (s : ReceiptLedger) : ReceiptLedger :=
  mkReceiptLedger (l_clock s) (l_calls s) (l_entropy s) (l_draws s) v (l_generation s)
    (l_entries s) (l_charged_bytes s) (l_last_now s) (l_held_code s).
Definition set_l_entries (v : dict string _Entry) (s : ReceiptLedger) : ReceiptLedger :=
  mkReceiptLedger (l_clock s) (l_calls s) (l_entropy s) (l_draws s) (l_refs s) (l_generation s)
    v (l_charged_bytes s) (l_last_now s) (l_held_code s).
Definition set_l_charged_bytes (v : Z) (s : ReceiptLedger) : ReceiptLedger :=
  mkReceiptLedger (l_clock s) (l_calls s) (l_entropy s) (l_draws s) (l_refs s) (l_generation s)
    (l_entries s) v (l_last_now s) (l_held_code s).
Definition set_l_last_now (v : option float) (s : ReceiptLedger) : ReceiptLedger :=
  mkReceiptLedger (l_clock s) (l_calls s) (l_entropy s) (l_draws s) (l_refs s) (l_generation s)
    (l_entries s) (l_charged_bytes s) v (l_held_code s).
Definition set_l_held_code (v : option string) (s : ReceiptLedger) : ReceiptLedger :=
  mkReceiptLedger (l_clock s) (l_calls s) (l_entropy s) (l_draws s) (l_refs s) (l_generation s)
    (l_entries s) (l_charged_bytes s) (l_last_now s) v.

(** The constructor, for a generation it accepts. *)
Definition new_ledger (clock : nat → reading) (entropy : nat → string) (generation : pyval)
    : outcome ReceiptLedger :=
  g ← _require_id generation "invalid_generation";
  Ret (mkReceiptLedger clock 0%nat entropy 0%nat 0%nat g [] 0 None None).

(** ** Finalising *)
Definition new_ref : st ReceiptLedger ref := λ s, (Ret (l_refs s), set_l_refs (S (l_refs s)) s).

Definition update_entry (f : _Entry → _Entry) (receipt_id : string) : st ReceiptLedger unit :=
  modify (λ s, set_l_entries (dict_alter f (l_entries s) receipt_id) s).

(** [_LOCAL_RESPONSE_DIGESTS[_REASON_LOCAL_RESPONSE[dispatch_state][reason]]]. *)
Definition local_digest (dispatch_state reason : string) : outcome (string * Z) :=
  match dict_get _REASON_LOCAL_RESPONSE dispatch_state with
  | None => Raise (KeyError dispatch_state)
  | Some table =>
      match dict_get table reason with
      | Some (Some kind) =>
          match dict_get _LOCAL_RESPONSE_DIGESTS kind with
          | Some d => Ret d
          | None => Raise (KeyError kind)
          end
      | Some None => Raise (KeyError "None")
      | None => Raise (KeyError reason)
      end
  end.

(** The status class, digest and body length of the upstream response, and the
    digest and length of what the client is sent. *)
Definition finalize_fields (dispatch_state reason : string) (upstream_response : response_arg)
    : outcome (option string * option string * option Z * (string * Z)) :=
  if bool_decide (dispatch_state = "TRANSPORT_CONFIRMED") then
    wire ← _serialize_or_fail upstream_response;
    match upstream_response with
    | RResponse (mkParsedResponse (VInt st) (Some b)) =>
        client ← (if bool_decide (reason = "ok") then Ret (sha256_hex wire, str_len wire)
                  else local_digest dispatch_state reason);
        Ret (Some (_status_class st), Some (sha256_hex wire), Some (str_len b), client)
    | _ => Raise (ReceiptError "invalid_response")
    end
  else
    client ← local_digest dispatch_state reason; Ret (None, None, None, client).

Definition _do_finalize (e : _Entry) (dispatch_state reason : string)
    (upstream_response : response_arg) (now : float) (swept : bool)
    : st ReceiptLedger (ref * ForwarderReceipt) :=
  '(status_class, upstream_digest, body_bytes, client) ←
    lift_outcome (finalize_fields dispatch_state reason upstream_response);
  let record := mkForwarderReceipt (e_receipt_id e) (e_generation e) (e_lease_id e)
    (e_attempt_id e) (e_operation_id e) (e_service e) (e_route_id e) (e_request_digest e)
    dispatch_state reason status_class upstream_digest client.1 (e_request_bytes e) body_bytes
    client.2 (e_started_monotonic e) now in
  receipt ← new_ref;
  update_entry (set_finalized record receipt swept) (e_receipt_id e);;
  mret (receipt, record).

(** ** Clock, abandonment sweep and retention *)
Definition sweep_entry (now : float) (kv : string * _Entry) : st ReceiptLedger unit :=
  let e := kv.2 in
  if bool_decide (e_state e = EFinalized) || fltb now (e_deadline e) then mret tt
  else
    _do_finalize e
      (if bool_decide (e_state e = EReserved) then "NOT_DISPATCHED" else "DISPATCHED_UNKNOWN")
      "abandoned" RNone (e_deadline e) true;;
    mret tt.

Definition _sweep_abandoned (now : float) : st ReceiptLedger unit :=
  items ← gets l_entries;
  for_each items (sweep_entry now).

Definition prune_entry (now : float) (kv : string * _Entry) : st ReceiptLedger unit :=
  match e_state kv.2, e_record kv.2 with
  | EFinalized, Some r =>
      if fleb RETENTION_SECONDS (fsub now (fr_completed_monotonic r)) then
        modify (λ s, set_l_charged_bytes (l_charged_bytes s - e_charge kv.2)
                       (set_l_entries (dict_pop (l_entries s) kv.1) s))
      else mret tt
  | _, _ => mret tt
  end.

Definition _prune_retention (now : float) : st ReceiptLedger unit :=
  items ← gets l_entries;
  for_each items (prune_entry now).

Definition call_clock : st ReceiptLedger reading := λ s,
  (Ret (l_clock s (l_calls s)), set_l_calls (S (l_calls s)) s).

Definition _now : st ReceiptLedger float :=
  held ← gets l_held_code;
  require (bool_decide (held = None)) (ReceiptError "ledger_held");;
  r ← call_clock;
  match reading_time r with
  | None =>
      modify (set_l_held_code (Some "clock_invalid"));;
      raise (ReceiptError "clock_invalid")
  | Some observed =>
      last ← gets l_last_now;
      if (match last with Some l => fltb observed l | None => false end) then
        modify (set_l_held_code (Some "clock_regressed"));;
        raise (ReceiptError "clock_regressed")
      else
        modify (set_l_last_now (Some observed));;
        _sweep_abandoned observed;;
        _prune_retention observed;;
        mret observed
  end.

(** ** Identity-authenticated lookups *)
Definition find_entry (class : string) (h : handle) : st ReceiptLedger (option _Entry) :=
  match h_receipt_id h with
  | VStr id => if bool_decide (h_class h = class) then gets (λ s, dict_get (l_entries s) id) else mret None
  | _ => mret None
  end.

Definition _lookup_reservation (reservation : handle) : st ReceiptLedger _Entry :=
  found ← find_entry "ReceiptReservation" reservation;
  match found with
  | Some e =>
      require (bool_decide (e_reservation e = h_ref reservation)) (ReceiptError "reservation_unknown");;
      mret e
  | None => raise (ReceiptError "reservation_unknown")
  end.

Definition _lookup_receipt (receipt : handle) : st ReceiptLedger _Entry :=
  found ← find_entry "ForwarderReceipt" receipt;
  match found with
  | Some e =>
      require (bool_decide (e_receipt e = Some (h_ref receipt))) (ReceiptError "receipt_unknown");;
      mret e
  | None => raise (ReceiptError "receipt_unknown")
  end.

Definition _require_active (e : _Entry) : st ReceiptLedger unit :=
  if bool_decide (e_state e ≠ EFinalized) then mret tt
  else if e_swept e then raise (ReceiptError "deadline_expired")
  else raise (ReceiptError "reservation_finalized").

(** ** The dispatch seam *)
Definition _new_receipt_id : st ReceiptLedger string := λ s,
  (Ret ("receipt_" +:+ l_entropy s (l_draws s)), set_l_draws (S (l_draws s)) s).

Definition reserve (lease_id attempt_id service route_id request_digest request_bytes deadline
    operation_id : pyval) : st ReceiptLedger handle :=
  now ← _now;
  lease ← lift_outcome (_require_id lease_id "invalid_lease_id");
  attempt ← lift_outcome (_require_id attempt_id "invalid_attempt_id");
  svc ← lift_outcome (_require_service service);
  route ← lift_outcome (_require_id route_id "invalid_route_id");
  digest ← lift_outcome (_require_digest request_digest "invalid_request_digest");
  checked_bytes ← lift_outcome (_require_count request_bytes MAX_REQUEST_BYTES "invalid_request_bytes");
  checked_deadline ← lift_outcome (_require_deadline deadline now);
  op ← lift_outcome (_require_optional_id operation_id "invalid_operation_id");
  count ← gets (λ s, Z.of_nat (length (l_entries s)));
  require (count <? MAX_RECEIPTS) (ReceiptError "capacity_records");;
  receipt_id ← _new_receipt_id;
  gen ← gets l_generation;
  let charge := _worst_case_charge receipt_id gen lease attempt op svc route digest checked_bytes
                  checked_deadline now in
  require (charge <=? MAX_RECEIPT_BYTES) (ReceiptError "receipt_too_large");;
  charged ← gets l_charged_bytes;
  require (charged + charge <=? MAX_LEDGER_BYTES) (ReceiptError "capacity_bytes");;
  r ← new_ref;
  let entry := mkEntry r receipt_id gen lease attempt op svc route digest checked_bytes
                 checked_deadline now charge EReserved None None None None None false in
  modify (λ s, set_l_entries (dict_set (l_entries s) receipt_id entry) s);;
  modify (λ s, set_l_charged_bytes (l_charged_bytes s + charge) s);;
  mret (mkHandle r "ReceiptReservation" (VStr receipt_id)).

Definition advance (from to : entry_state) (reservation : handle) : st ReceiptLedger unit :=
  _now;;
  e ← _lookup_reservation reservation;
  _require_active e;;
  require (bool_decide (e_state e = from)) (ReceiptError "invalid_transition");;
  update_entry (set_state to) (e_receipt_id e).

Definition begin_connect : handle → st ReceiptLedger unit := advance EReserved EConnecting.
Definition begin_dispatch : handle → st ReceiptLedger unit := advance EConnecting EDispatched.

Definition upstream_ok (dispatch_state : string) (upstream_response : response_arg) : bool :=
  match upstream_response with
  | RResponse _ => bool_decide (dispatch_state = "TRANSPORT_CONFIRMED")
  | RNone => bool_decide (dispatch_state ≠ "TRANSPORT_CONFIRMED")
  | RForeign => false
  end.

Definition finalize (reservation : handle) (dispatch_state reason : pyval)
    (upstream_response : response_arg) : st ReceiptLedger (ref * ForwarderReceipt) :=
  now ← _now;
  e ← _lookup_reservation reservation;
  _require_active e;;
  match dispatch_state with
  | VStr ds =>
      require (str_in ds DISPATCH_STATES) (ReceiptError "invalid_dispatch_state");;
      require (str_in ds (_LEGAL_FINALIZE_STATES (e_state e))) (ReceiptError "invalid_transition");;
      match dict_get _REASON_LOCAL_RESPONSE ds with
      | None => raise (KeyError ds)
      | Some reason_table =>
          match reason with
          | VStr why =>
              require (str_in why (dict_keys reason_table)) (ReceiptError "invalid_reason");;
              require (upstream_ok ds upstream_response) (ReceiptError "invalid_upstream_response");;
              _do_finalize e ds why upstream_response now false
          | _ => raise (ReceiptError "invalid_reason")
          end
      end
  | _ => raise (ReceiptError "invalid_dispatch_state")
  end.

(** ** Delivery *)
Definition claim_delivery (receipt : handle) (client_response_digest : pyval)
    : st ReceiptLedger handle :=
  _now;;
  e ← _lookup_receipt receipt;
  match client_response_digest, e_record e with
  | VStr digest, Some record =>
      require (is_hex_digest digest && bool_decide (digest = fr_client_response_digest record))
        (ReceiptError "receipt_mismatch");;
      require (bool_decide (e_delivery_outcome e = Some "pending")) (ReceiptError "delivery_claimed");;
      claim ← new_ref;
      update_entry (set_claimed claim) (e_receipt_id e);;
      mret (mkHandle claim "DeliveryClaim" (VStr (fr_receipt_id record)))
  | _, _ => raise (ReceiptError "receipt_mismatch")
  end.

Definition complete_delivery (claim : handle) (delivery bytes_sent : pyval) : st ReceiptLedger unit :=
  _now;;
  found ← find_entry "DeliveryClaim" claim;
  match found with
  | None => raise (ReceiptError "claim_unknown")
  | Some e =>
      match e_record e with
      | None => raise (ReceiptError "claim_unknown")
      | Some record =>
          require (bool_decide (e_claim e = Some (h_ref claim))) (ReceiptError "claim_unknown");;
          require (bool_decide (e_delivery_outcome e = Some "sending")) (ReceiptError "delivery_completed");;
          match delivery with
          | VStr d =>
              require (str_in d ["sent"; "not_sent"; "send_unknown"])
                (ReceiptError "invalid_delivery_outcome");;
              let maximum := fr_client_response_bytes record in
              match bytes_sent with
              | VInt n =>
                  require ((0 <=? n) && (n <=? maximum)) (ReceiptError "invalid_bytes_sent");;
                  require (negb (bool_decide (d = "sent") && negb (n =? maximum)))
                    (ReceiptError "invalid_bytes_sent");;
                  require (negb (bool_decide (d = "not_sent") && negb (n =? 0)))
                    (ReceiptError "invalid_bytes_sent");;
                  update_entry (set_delivered d n) (e_receipt_id e)
              | _ => raise (ReceiptError "invalid_bytes_sent")
              end
          | _ => raise (ReceiptError "invalid_delivery_outcome")
          end
      end
  end.

(** [try: now = self._now() except ReceiptError: now = last or 0.0], then the
    sweep and the retention pass. *)
Definition freshen : st ReceiptLedger unit :=
  tried ← attempt _now;
  now ← (match tried with
         | Ret now => mret now
         | Raise _ => gets (λ s, default fzero (l_last_now s))
         end);
  _sweep_abandoned now;;
  _prune_retention now.

Definition contains (receipt : handle) : st ReceiptLedger bool :=
  match h_receipt_id receipt with
  | VStr id =>
      if bool_decide (h_class receipt = "ForwarderReceipt") then
        freshen;;
        held ← gets l_held_code;
        if bool_decide (held ≠ None) then mret false
        else gets (λ s, match dict_get (l_entries s) id with
                        | Some e => bool_decide (e_receipt e = Some (h_ref receipt))
                        | None => false
                        end)
      else mret false
  | _ => mret false
  end.

Record LedgerSnapshot := mkLedgerSnapshot {
  ls_generation : string;
  ls_ledger_state : string;
  ls_counts_by_state : list (string * Z);
  ls_charged_bytes : Z;
  ls_entries : list (list (string * json));
}.

Definition count_state (st : entry_state) (es : list _Entry) : Z :=
  Z.of_nat (length (List.filter (λ e, bool_decide (e_state e = st)) es)).

Definition snapshot : st ReceiptLedger LedgerSnapshot :=
  freshen;;
  gets (λ s,
    let es := dict_values (l_entries s) in
    mkLedgerSnapshot (l_generation s)
      (match l_held_code s with Some _ => "held" | None => "ready" end)
      (map (λ st, (entry_state_name st, count_state st es))
         [EReserved; EConnecting; EDispatched; EFinalized])
      (l_charged_bytes s) (map _entry_metadata es)).
