(* ===== verification/ReceiptsInv.v ===== *)
(** * The receipt ledger keeps its invariants

    Shared by the ledger's theorems: well-formedness [ledger_wf], the life of
    an entry [entry_evolves], and the proof that every method of Receipts.v
    preserves the first and stays within the second. *)

From S2P Require Import Prelude PyValue PyJson Services Sha256 HttpResponse Receipts.
Local Open Scope string_scope.
Local Open Scope Z_scope.

(** ** The life of an entry *)

(** What is fixed at reservation. *)
Definition e_core (e : _Entry) :=
  (e_reservation e, e_receipt_id e, e_generation e, e_lease_id e, e_attempt_id e, e_operation_id e,
   e_service e, e_route_id e, e_request_digest e, e_request_bytes e, e_deadline e,
   e_started_monotonic e, e_charge e).

Definition entry_rank (st : entry_state) : Z :=
  match st with EReserved => 0 | EConnecting => 1 | EDispatched => 2 | EFinalized => 3 end.

(** The dispatch states an entry may still be finalised with. *)
Definition reachable_states (st : entry_state) : list string :=
  match st with
  | EReserved => DISPATCH_STATES
  | EConnecting => ["FAILED"; "DISPATCHED_UNKNOWN"; "PARTIAL"; "TRANSPORT_CONFIRMED"]
  | EDispatched => ["DISPATCHED_UNKNOWN"; "PARTIAL"; "TRANSPORT_CONFIRMED"]
  | EFinalized => []
  end.

(** How far the delivery of the client's bytes has come. *)
Definition delivery_rank (o : option string) : Z :=
  match o with
  | None => 0
  | Some d => if bool_decide (d = "pending") then 1 else if bool_decide (d = "sending") then 2 else 3
  end.

(** The identities an entry answers to. *)
Definition owns (e : _Entry) (r : ref) : Prop :=
  e_reservation e = r ∨ e_receipt e = Some r ∨ e_claim e = Some r.

Record entry_evolves (e e' : _Entry) : Prop := {
  ee_core : e_core e' = e_core e;
  ee_state : entry_rank (e_state e) ≤ entry_rank (e_state e');
  ee_record : ∀ r, e_record e = Some r →
    e_record e' = Some r ∧ e_receipt e' = e_receipt e ∧ e_swept e' = e_swept e;
  ee_reachable : ∀ r, e_record e' = Some r →
    e_record e = Some r ∨ fr_dispatch_state r ∈ reachable_states (e_state e);
  ee_claim : ∀ c, e_claim e = Some c → e_claim e' = Some c;
  ee_delivery : delivery_rank (e_delivery_outcome e) ≤ delivery_rank (e_delivery_outcome e');
  ee_delivered : delivery_rank (e_delivery_outcome e) = 3 →
    e_delivery_outcome e' = e_delivery_outcome e ∧ e_delivery_bytes_sent e' = e_delivery_bytes_sent e;
}.

Lemma delivery_rank_le o : delivery_rank o ≤ 3.
Proof. destruct o; cbn; [|lia]. repeat case_bool_decide; lia. Qed.

Lemma reachable_mono st st' x :
  entry_rank st ≤ entry_rank st' → x ∈ reachable_states st' → x ∈ reachable_states st.
Proof. destruct st, st'; cbn; intros Hr; try lia; set_solver. Qed.

#[export] Instance entry_evolves_po : PreOrder entry_evolves.
Proof.
  split.
  - intros e. split; try done; auto with lia.
  - intros e1 e2 e3 [C1 S1 R1 X1 K1 D1 F1] [C2 S2 R2 X2 K2 D2 F2]. split.
    + congruence.
    + lia.
    + intros r Hr. destruct (R1 r Hr) as (Hr2 & <- & <-). by apply R2.
    + intros r Hr. destruct (X2 r Hr) as [Hr2|Hin]; [by apply X1|]. right. by eapply reachable_mono.
    + auto.
    + lia.
    + intros H1. destruct (F1 H1) as [<- <-]. apply F2. pose proof (delivery_rank_le (e_delivery_outcome e2)). lia.
Qed.

(** ** Well-formedness *)

(** What a record says agrees with its entry and with the reason tables, and
    names bytes: the upstream response itself, or a fixed local one. *)
Record record_ok (e : _Entry) (r : ForwarderReceipt) : Prop := {
  ro_id : fr_receipt_id r = e_receipt_id e;
  ro_lease : fr_lease_id r = e_lease_id e;
  ro_attempt : fr_attempt_id r = e_attempt_id e;
  ro_service : fr_service r = e_service e;
  ro_request : fr_request_digest r = e_request_digest e ∧ fr_request_bytes r = e_request_bytes e;
  ro_fields : ∃ up, finalize_fields (fr_dispatch_state r) (fr_reason r) up =
    Ret (fr_http_status_class r, fr_response_digest r, fr_upstream_body_bytes r,
         (fr_client_response_digest r, fr_client_response_bytes r));
}.

Definition entry_shape (e : _Entry) : Prop :=
  match e_state e with
  | EFinalized =>
      is_Some (e_receipt e) ∧ (∃ r, e_record e = Some r ∧ record_ok e r) ∧
      match e_delivery_outcome e with
      | None => False
      | Some d =>
          (d = "pending" ∧ e_claim e = None ∧ e_delivery_bytes_sent e = None) ∨
          (d = "sending" ∧ is_Some (e_claim e) ∧ e_delivery_bytes_sent e = None) ∨
          (is_Some (e_claim e) ∧ d ∈ ["sent"; "not_sent"; "send_unknown"] ∧
             ∃ n r, e_delivery_bytes_sent e = Some n ∧ e_record e = Some r ∧
               0 ≤ n ≤ fr_client_response_bytes r ∧ (d = "sent" → n = fr_client_response_bytes r) ∧
               (d = "not_sent" → n = 0))
      end
  | _ => e_receipt e = None ∧ e_record e = None ∧ e_delivery_outcome e = None ∧
         e_delivery_bytes_sent e = None ∧ e_claim e = None ∧ e_swept e = false
  end.

Record entry_wf (s : ReceiptLedger) (id : string) (e : _Entry) : Prop := {
  ew_id : e_receipt_id e = id;
  ew_generation : e_generation e = l_generation s;
  ew_drawn : ∃ i, (i < l_draws s)%nat ∧ id = "receipt_" +:+ l_entropy s i;
  ew_refs : ∀ r, owns e r → (r < l_refs s)%nat;
  ew_shape : entry_shape e;
  ew_charge : e_charge e = _worst_case_charge (e_receipt_id e) (e_generation e) (e_lease_id e)
    (e_attempt_id e) (e_operation_id e) (e_service e) (e_route_id e) (e_request_digest e)
    (e_request_bytes e) (e_deadline e) (e_started_monotonic e);
  ew_charge_max : 0 < e_charge e ≤ MAX_RECEIPT_BYTES;
  ew_deadline : fltb (e_started_monotonic e) (e_deadline e) = true ∧
    fleb (e_deadline e) (fadd (e_started_monotonic e) MAX_HANDLER_SECONDS) = true;
}.

Record ledger_wf (s : ReceiptLedger) : Prop := {
  lw_dict : dict_ok (l_entries s);
  lw_entry : ∀ id e, dict_get (l_entries s) id = Some e → entry_wf s id e;
  lw_owner : ∀ id1 e1 id2 e2 r, dict_get (l_entries s) id1 = Some e1 →
    dict_get (l_entries s) id2 = Some e2 → owns e1 r → owns e2 r → id1 = id2;
  lw_charged : l_charged_bytes s = dict_sum e_charge (l_entries s);
  lw_bytes : l_charged_bytes s ≤ MAX_LEDGER_BYTES;
  lw_count : Z.of_nat (length (l_entries s)) ≤ MAX_RECEIPTS;
  lw_tokens : Inj (=) (=) (l_entropy s);
}.

Record ledger_evolves (s s' : ReceiptLedger) : Prop := {
  le_clock : l_clock s' = l_clock s;
  le_entropy : l_entropy s' = l_entropy s;
  le_generation : l_generation s' = l_generation s;
  le_draws : (l_draws s ≤ l_draws s')%nat;
  le_refs : (l_refs s ≤ l_refs s')%nat;
  le_entries : ∀ id e', dict_get (l_entries s') id = Some e' →
    (∃ e, dict_get (l_entries s) id = Some e ∧ entry_evolves e e' ∧
          ∀ r, owns e' r → owns e r ∨ (l_refs s ≤ r)%nat) ∨
    ((∃ i, (l_draws s ≤ i)%nat ∧ id = "receipt_" +:+ l_entropy s i) ∧
     ∀ r, owns e' r → (l_refs s ≤ r)%nat);
}.

#[export] Instance ledger_evolves_po : PreOrder ledger_evolves.
Proof.
  split.
  - intros s. split; try done. intros id e He. left. exists e. split_and!; [done|done|]. auto.
  - intros s1 s2 s3 [C1 E1 G1 D1 R1 X1] [C2 E2 G2 D2 R2 X2]. split; try congruence; try lia.
    intros id e3 He3. destruct (X2 id e3 He3) as [(e2 & He2 & H23 & O23)|((i & Hi & Hid) & O)].
    + destruct (X1 id e2 He2) as [(e1 & He1 & H12 & O12)|(Hfresh & O12)].
      * left. exists e1. split_and!; [done|by transitivity e2|]. intros r Hr.
        destruct (O23 r Hr) as [H|]; [|lia]. destruct (O12 r H) as [|]; [by left|by right].
      * right. split; [done|]. intros r Hr. destruct (O23 r Hr) as [H|]; [by apply O12|lia].
    + right. split; [|intros r Hr; specialize (O r Hr); lia]. exists i. rewrite E1 in Hid. split; [lia|done].
Qed.

Definition ledger_step (s s' : ReceiptLedger) : Prop := ledger_wf s → ledger_wf s' ∧ ledger_evolves s s'.

#[export] Instance ledger_step_refl : Reflexive ledger_step.
Proof. intros s Hs. by split. Qed.
#[export] Instance ledger_step_trans : Transitive ledger_step.
Proof.
  intros s1 s2 s3 H12 H23 H1. destruct (H12 H1) as [H2 E12]. destruct (H23 H2) as [H3 E23].
  split; [done|]. by transitivity s2.
Qed.

(** ** Steps *)

(** Nothing the entries' invariants mention has changed, but the counters may
    have moved on. *)
Lemma entry_wf_ext s s' id e :
  l_generation s' = l_generation s → l_entropy s' = l_entropy s →
  (l_draws s ≤ l_draws s')%nat → (l_refs s ≤ l_refs s')%nat →
  entry_wf s id e → entry_wf s' id e.
Proof.
  intros Hg He Hd Hr [? ? (i & Hi & Hid) Hrefs ? ? ? ?]. split; try done; try congruence.
  - exists i. rewrite He. split; [lia|done].
  - intros r Ho. specialize (Hrefs r Ho). lia.
Qed.

Lemma same_entries_step s s' :
  l_clock s' = l_clock s → l_generation s' = l_generation s → l_entropy s' = l_entropy s →
  (l_draws s ≤ l_draws s')%nat → (l_refs s ≤ l_refs s')%nat →
  l_entries s' = l_entries s → l_charged_bytes s' = l_charged_bytes s → ledger_step s s'.
Proof.
  intros Hc Hg He Hd Hr Hes Hb [? Hent ? ? ? ? ?]. split.
  - split; rewrite ?Hes, ?Hb, ?He; try done. intros id e Hget. apply (entry_wf_ext s); auto.
  - split; try done. rewrite Hes. intros id e Hget. left. exists e. split_and!; [done|done|]. auto.
Qed.

(** An entry mutated in place, in the state [s1] that differs from [s] at most
    by allocations. *)
Lemma update_entry_step s id e f refs :
  dict_get (l_entries s) id = Some e →
  (l_refs s ≤ refs)%nat →
  (entry_wf s id e → entry_evolves e (f e) ∧ entry_shape (f e)) →
  (∀ r, owns (f e) r → owns e r ∨ (l_refs s ≤ r < refs)%nat) →
  ledger_step s (set_l_entries (dict_alter f (l_entries s) id) (set_l_refs refs s)).
Proof.
  intros He Hrefs Hf Hown Hs. pose proof Hs as [Hok Hent Howner Hch Hb Hn Htok].
  destruct (Hf (Hent id e He)) as [Hev Hshape].
  assert (Hget : ∀ id', dict_get (dict_alter f (l_entries s) id) id' =
    if decide (id = id') then Some (f e) else dict_get (l_entries s) id').
  { intros id'. rewrite dict_get_alter. case_decide; [|done]. subst. by rewrite He. }
  assert (Hcore := ee_core _ _ Hev). unfold e_core in Hcore. simplify_eq.
  split.
  - split; cbn -[dict_sum dict_alter]; auto with dict.
    + intros id' e'. rewrite Hget. case_decide as Hid.
      * intros [= <-]. subst id'. destruct (Hent id e He) as [? ? ? Hr ? ? ? ?].
        split; cbn;
          repeat match goal with H : ?g (f e) = ?g e |- context [?g (f e)] => rewrite H end; try done.
        intros r Ho. destruct (Hown r Ho) as [Ho'|]; [|lia]. specialize (Hr r Ho'). lia.
      * intros He'. apply (entry_wf_ext s); cbn; auto.
    + intros id1 e1 id2 e2 r. rewrite !Hget. intros Hg1 Hg2 O1 O2.
      repeat case_decide; simplify_eq; try done.
      * destruct (Hown r O2) as [O|]; [by eapply Howner|].
        pose proof (ew_refs _ _ _ (Hent _ _ Hg1) r O1). lia.
      * destruct (Hown r O1) as [O|]; [by eapply Howner|].
        pose proof (ew_refs _ _ _ (Hent _ _ Hg2) r O2). lia.
      * by eapply Howner.
    + rewrite dict_sum_alter; [done|]. intros v Hv. congruence.
    + by rewrite length_dict_alter.
  - split; cbn; try done. intros id' e'. rewrite Hget. case_decide as Hid.
    + intros [= <-]. subst id'. left. exists e. split_and!; [done|done|].
      intros r Hr. destruct (Hown r Hr) as [|]; [by left|right; lia].
    + intros He'. left. exists e'. split_and!; [done|done|]. auto.
Qed.

(** *** Finalising *)
Definition final_record (e : _Entry) (ds reason : string) (now : float)
    (fs : option string * option string * option Z * (string * Z)) : ForwarderReceipt :=
  let '(sc, ud, bb, client) := fs in
  mkForwarderReceipt (e_receipt_id e) (e_generation e) (e_lease_id e) (e_attempt_id e)
    (e_operation_id e) (e_service e) (e_route_id e) (e_request_digest e) ds reason sc ud client.1
    (e_request_bytes e) bb client.2 (e_started_monotonic e) now.

Lemma do_finalize_eq e ds reason up now swept s :
  _do_finalize e ds reason up now swept s =
    match finalize_fields ds reason up with
    | Raise x => (Raise x, s)
    | Ret fs =>
        let r := final_record e ds reason now fs in
        (Ret (l_refs s, r),
         set_l_entries (dict_alter (set_finalized r (l_refs s) swept) (l_entries s) (e_receipt_id e))
           (set_l_refs (S (l_refs s)) s))
    end.
Proof.
  unfold _do_finalize, mbind, st_bind, lift_outcome.
  destruct (finalize_fields ds reason up) as [[[[sc ud] bb] client]|x]; [|done]. done.
Qed.

Lemma legal_reachable st ds : ds ∈ _LEGAL_FINALIZE_STATES st → ds ∈ reachable_states st.
Proof. destruct st; cbn; set_solver. Qed.

Lemma do_finalize_step e ds reason up now swept s :
  dict_get (l_entries s) (e_receipt_id e) = Some e → e_state e ≠ EFinalized →
  ds ∈ _LEGAL_FINALIZE_STATES (e_state e) →
  ledger_step s (_do_finalize e ds reason up now swept s).2.
Proof.
  intros He Hst Hds. rewrite do_finalize_eq.
  destruct (finalize_fields ds reason up) as [[[[sc ud] bb] [cd cb]]|x] eqn:Hf; [|reflexivity]. cbn [snd].
  apply update_entry_step with e; [done|lia| |].
  - intros Hwf. assert (Hsh := ew_shape _ _ _ Hwf). unfold entry_shape in Hsh.
    assert (e_receipt e = None ∧ e_record e = None ∧ e_delivery_outcome e = None ∧
      e_delivery_bytes_sent e = None ∧ e_claim e = None) as (X1 & X2 & X3 & X4 & X5)
      by (by destruct (e_state e); naive_solver).
    split.
    + split; cbn; try done.
      * destruct (e_state e); cbn; lia.
      * congruence.
      * intros r [= <-]. right. by apply legal_reachable.
      * by rewrite X3.
      * by rewrite X3.
    + unfold entry_shape. cbn. split_and!; [by eexists| |by left].
      eexists. split; [done|]. split; cbn; try done. exists up. by rewrite Hf.
  - intros r [Hr|[[= Hr]|Hr]]; [left; by left| |left; right; by right]. right. cbn in *. lia.
Qed.

(** *** The abandonment sweep *)
Definition swept_state (e : _Entry) : string :=
  if bool_decide (e_state e = EReserved) then "NOT_DISPATCHED" else "DISPATCHED_UNKNOWN".

Definition expired_at (now : float) (e : _Entry) : bool :=
  negb (bool_decide (e_state e = EFinalized)) && negb (fltb now (e_deadline e)).

Lemma abandoned_fields e : ∃ fs, finalize_fields (swept_state e) "abandoned" RNone = Ret fs.
Proof. unfold swept_state. case_bool_decide; eexists; vm_compute; reflexivity. Qed.

Lemma swept_state_legal e :
  e_state e ≠ EFinalized → swept_state e ∈ _LEGAL_FINALIZE_STATES (e_state e).
Proof. unfold swept_state. destruct (e_state e); intros H; try done; cbn; set_solver. Qed.

(** What the sweep makes of an entry. *)
Definition swept_from (now : float) (e e' : _Entry) : Prop :=
  e' = e ∨ expired_at now e = true ∧ ∃ fs receipt,
    e' = set_finalized (final_record e (swept_state e) "abandoned" (e_deadline e) fs) receipt true e.

Lemma sweep_entry_spec now id e s :
  dict_get (l_entries s) id = Some e → e_receipt_id e = id →
  ∃ s', sweep_entry now (id, e) s = (Ret tt, s') ∧ ledger_step s s' ∧
    (∀ id', id' ≠ id → dict_get (l_entries s') id' = dict_get (l_entries s) id') ∧
    (∀ e', dict_get (l_entries s') id = Some e' → expired_at now e' = false ∧ swept_from now e e') ∧
    (expired_at now e = false → s' = s).
Proof.
  intros He Hid. subst id. unfold sweep_entry, expired_at. cbn [snd].
  destruct (bool_decide (e_state e = EFinalized)) eqn:Hst; bool_simpl.
  { exists s. split_and!; try done. intros e'. rewrite He. intros [= <-]. split; [by rewrite Hst|by left]. }
  destruct (fltb now (e_deadline e)) eqn:Hd; cbn [orb].
  { exists s. split_and!; try done. intros e'. rewrite He. intros [= <-]. rewrite Hd, andb_false_r.
    split; [done|by left]. }
  pose proof (do_finalize_step e (swept_state e) "abandoned" RNone (e_deadline e) true s He Hst
    (swept_state_legal e Hst)) as Hstep.
  rewrite do_finalize_eq in Hstep. destruct (abandoned_fields e) as [fs Hfs]. rewrite Hfs in Hstep. cbn [snd] in Hstep.
  fold (swept_state e). eexists. split_and!; [|exact Hstep|..].
  - pose proof (do_finalize_eq e (swept_state e) "abandoned" RNone (e_deadline e) true s) as E.
    rewrite Hfs in E. by rewrite (bind_ret_eq _ _ _ _ _ E).
  - intros id' Hne. cbn. by rewrite dict_get_alter, decide_False.
  - intros e'. cbn. rewrite dict_get_alter, decide_True, He by done. intros [= <-]. split; [done|].
    right. unfold expired_at. rewrite Hd, bool_decide_false by done. eauto.
  - done.
Qed.

Lemma sweep_items_spec now items s :
  NoDup items.*1 →
  (∀ id e, (id, e) ∈ items → dict_get (l_entries s) id = Some e ∧ e_receipt_id e = id) →
  ∃ s', for_each items (sweep_entry now) s = (Ret tt, s') ∧ ledger_step s s' ∧
    (∀ id, id ∉ items.*1 → dict_get (l_entries s') id = dict_get (l_entries s) id) ∧
    (∀ id e', id ∈ items.*1 → dict_get (l_entries s') id = Some e' →
       expired_at now e' = false ∧ ∃ e, dict_get (l_entries s) id = Some e ∧ swept_from now e e') ∧
    ((∀ id e, (id, e) ∈ items → expired_at now e = false) → s' = s).
Proof.
  revert s. induction items as [|[id e] items IH]; intros s Hnd Hin; cbn [for_each].
  { exists s. split_and!; try done. intros id e' H. by apply elem_of_nil in H. }
  apply NoDup_cons in Hnd as [Hid Hnd].
  destruct (Hin id e) as [He Hre]; [by left|].
  destruct (sweep_entry_spec now id e s He Hre) as (s1 & E1 & St1 & Oth & Done1 & Same1).
  rewrite (bind_ret_eq _ _ _ _ _ E1).
  destruct (IH s1 Hnd) as (s2 & E2 & St2 & Oth2 & Done2 & Same2).
  { intros id' e' Hin'. rewrite Oth; [apply Hin; by right|]. intros ->. apply Hid.
    apply list_elem_of_fmap. by exists (id, e'). }
  exists s2. split_and!; [done|by transitivity s1|..].
  - intros id' Hni. cbn in Hni. apply not_elem_of_cons in Hni as [? ?]. by rewrite Oth2, Oth.
  - intros id' e' Hi Hg. cbn in Hi. apply elem_of_cons in Hi as [->|Hi].
    + rewrite Oth2 in Hg by done. destruct (Done1 e' Hg). eauto.
    + destruct (Done2 id' e' Hi Hg) as (? & e0 & He0 & ?). split; [done|]. exists e0.
      rewrite Oth in He0; [done|]. by intros ->.
  - intros Hall. rewrite Same2, Same1; [done|apply (Hall id e); by left|].
    intros id' e' H'. apply (Hall id' e'). by right.
Qed.

Lemma sweep_spec now s :
  ledger_wf s →
  ∃ s', _sweep_abandoned now s = (Ret tt, s') ∧ ledger_wf s' ∧ ledger_evolves s s' ∧
    (∀ id e', dict_get (l_entries s') id = Some e' →
       expired_at now e' = false ∧ ∃ e, dict_get (l_entries s) id = Some e ∧ swept_from now e e') ∧
    ((∀ id e, dict_get (l_entries s) id = Some e → expired_at now e = false) → s' = s).
Proof.
  intros Hs. unfold _sweep_abandoned. rewrite bind_gets.
  destruct (sweep_items_spec now (l_entries s) s) as (s' & E & St & Oth & Done & Same).
  - apply Hs.
  - intros id e Hin. apply (elem_dict_get _ _ _ (lw_dict _ Hs)) in Hin. split; [done|]. by apply (lw_entry _ Hs).
  - destruct (St Hs) as [Hs' Hev]. exists s'. split_and!; try done.
    + intros id e He. eapply Done; [|done]. apply dict_get_keys. destruct (dict_get (l_entries s) id) eqn:X; [eauto|].
      exfalso. apply dict_get_none in X. rewrite Oth in He by done. apply dict_get_none in X. congruence.
    + intros Hall. apply Same. intros id e Hin. apply (Hall id e). by apply elem_dict_get; [apply Hs|].
Qed.

(** *** Retention *)
Definition outdated (now : float) (e : _Entry) : bool :=
  match e_state e, e_record e with
  | EFinalized, Some r => fleb RETENTION_SECONDS (fsub now (fr_completed_monotonic r))
  | _, _ => false
  end.

Lemma pop_entry_step s id e :
  dict_get (l_entries s) id = Some e →
  ledger_step s (set_l_charged_bytes (l_charged_bytes s - e_charge e)
                   (set_l_entries (dict_pop (l_entries s) id) s)).
Proof.
  intros He Hs. pose proof Hs as [Hok Hent Howner Hch Hb Hn Htok].
  assert (Hget : ∀ id', dict_get (dict_pop (l_entries s) id) id' =
    if decide (id = id') then None else dict_get (l_entries s) id') by (intros; by apply dict_get_pop).
  split.
  - split; cbn -[dict_sum dict_pop]; auto with dict.
    + intros id' e'. rewrite Hget. case_decide; [done|]. intros He'. apply (entry_wf_ext s); auto.
    + intros id1 e1 id2 e2 r. rewrite !Hget. repeat case_decide; try done. apply Howner.
    + rewrite (dict_sum_pop _ _ _ e) by done. lia.
    + pose proof (ew_charge_max _ _ _ (Hent id e He)). lia.
    + pose proof (length_dict_pop_le (l_entries s) id). lia.
  - split; cbn; try done. intros id' e'. rewrite Hget. case_decide; [done|]. intros He'.
    left. exists e'. split_and!; [done|done|]. auto.
Qed.

Lemma prune_entry_eq now id e s :
  prune_entry now (id, e) s =
    (Ret tt, if outdated now e then set_l_charged_bytes (l_charged_bytes s - e_charge e)
                                      (set_l_entries (dict_pop (l_entries s) id) s) else s).
Proof. unfold prune_entry, outdated. cbn [fst snd]. by repeat case_match. Qed.

Lemma prune_entries_spec now items s :
  ledger_wf s → NoDup items.*1 →
  (∀ id e, (id, e) ∈ items → dict_get (l_entries s) id = Some e) →
  ∃ s', for_each items (prune_entry now) s = (Ret tt, s') ∧ ledger_wf s' ∧ ledger_evolves s s' ∧
    ∀ id e, dict_get (l_entries s') id = Some e →
      dict_get (l_entries s) id = Some e ∧ (id ∈ items.*1 → outdated now e = false).
Proof.
  revert s. induction items as [|[id e] items IH]; intros s Hs Hnd Hin; cbn [for_each].
  { exists s. split_and!; try done. intros id e He. split; [done|]. intros H. by apply elem_of_nil in H. }
  apply NoDup_cons in Hnd as [Hid Hnd]. assert (He : dict_get (l_entries s) id = Some e) by (apply Hin; by left).
  rewrite (bind_ret_eq _ _ _ _ _ (prune_entry_eq now id e s)).
  destruct (outdated now e) eqn:Hout.
  - destruct (pop_entry_step s id e He Hs) as [Hs1 Hev1]. destruct (IH _ Hs1 Hnd) as (s2 & E2 & Hs2 & Hev2 & H2).
    + cbn. intros id' e' H'. rewrite dict_get_pop by apply Hs. rewrite decide_False; [apply Hin; by right|].
      intros ->. apply Hid. apply list_elem_of_fmap. by exists (id', e').
    + exists s2. split_and!; [done|done|by etransitivity|]. intros id' e' H'. destruct (H2 id' e' H') as [Hg Ho].
      cbn in Hg. rewrite dict_get_pop in Hg by apply Hs. case_decide as Hd; [done|]. split; [done|].
      intros Hi. cbn in Hi. apply elem_of_cons in Hi as [->|Hi]; [done|by apply Ho].
  - destruct (IH _ Hs Hnd) as (s2 & E2 & Hs2 & Hev2 & H2); [intros; apply Hin; by right|].
    exists s2. split_and!; [done..|]. intros id' e' H'. destruct (H2 id' e' H') as [Hg Ho]. split; [done|].
    intros Hi. cbn in Hi. apply elem_of_cons in Hi as [->|Hi]; [congruence|by apply Ho].
Qed.

Lemma prune_spec now s :
  ledger_wf s →
  ∃ s', _prune_retention now s = (Ret tt, s') ∧ ledger_wf s' ∧ ledger_evolves s s' ∧
    ∀ id e, dict_get (l_entries s') id = Some e →
      dict_get (l_entries s) id = Some e ∧ outdated now e = false.
Proof.
  intros Hs. unfold _prune_retention. rewrite bind_gets.
  destruct (prune_entries_spec now (l_entries s) s Hs) as (s' & E & Hs' & Hev & H).
  - apply Hs.
  - intros id e Hin. by apply elem_dict_get; [apply Hs|].
  - exists s'. split_and!; try done. intros id e He. destruct (H id e He) as [Hg Ho]. split; [done|].
    apply Ho, dict_get_keys. eauto.
Qed.

(** *** The fields the sweep and retention leave alone *)
Record lctrl_eq (s s' : ReceiptLedger) : Prop := {
  lc_calls : l_calls s' = l_calls s;
  lc_draws : l_draws s' = l_draws s;
  lc_last : l_last_now s' = l_last_now s;
  lc_held : l_held_code s' = l_held_code s;
}.
#[export] Instance lctrl_eq_refl : Reflexive lctrl_eq.
Proof. by split. Qed.
#[export] Instance lctrl_eq_trans : Transitive lctrl_eq.
Proof. intros ? ? ? [] []. split; congruence. Qed.

Lemma lctrl_update f id : within lctrl_eq (update_entry f id).
Proof. by apply within_modify. Qed.
Lemma lctrl_new_ref : within lctrl_eq new_ref.
Proof. by intros s. Qed.
#[export] Hint Resolve lctrl_update lctrl_new_ref : within.
Lemma lctrl_do_finalize e ds reason up now swept : within lctrl_eq (_do_finalize e ds reason up now swept).
Proof. unfold _do_finalize. within_auto. Qed.
#[export] Hint Resolve lctrl_do_finalize : within.
Lemma lctrl_sweep now : within lctrl_eq (_sweep_abandoned now).
Proof. unfold _sweep_abandoned, sweep_entry. within_auto. Qed.
Lemma lctrl_prune now : within lctrl_eq (_prune_retention now).
Proof. unfold _prune_retention, prune_entry. within_auto. all: by apply within_modify. Qed.
#[export] Hint Resolve lctrl_sweep lctrl_prune : within.

(** *** One pass over the entries *)
Definition pass (now : float) : st ReceiptLedger unit := _sweep_abandoned now;; _prune_retention now.

Lemma pass_spec now s :
  ledger_wf s →
  ∃ s', pass now s = (Ret tt, s') ∧ ledger_wf s' ∧ ledger_evolves s s' ∧ lctrl_eq s s' ∧
    ∀ id e', dict_get (l_entries s') id = Some e' → expired_at now e' = false ∧ outdated now e' = false ∧
      ∃ e, dict_get (l_entries s) id = Some e ∧ swept_from now e e'.
Proof.
  intros Hs. destruct (sweep_spec now s Hs) as (s1 & E1 & Hs1 & Hev1 & Hx & _).
  destruct (prune_spec now s1 Hs1) as (s2 & E2 & Hs2 & Hev2 & Ho).
  pose proof (lctrl_sweep now s) as C1. rewrite E1 in C1. pose proof (lctrl_prune now s1) as C2. rewrite E2 in C2.
  exists s2. unfold pass. rewrite (bind_ret_eq _ _ _ _ _ E1). split_and!; try done.
  - by transitivity s1.
  - by transitivity s1.
  - intros id e H. destruct (Ho id e H) as [Hg ?]. destruct (Hx id e Hg). by split_and!.
Qed.

(** ** [_now] *)
Definition lregressed (s : ReceiptLedger) (now : float) : bool :=
  match l_last_now s with Some l => fltb now l | None => false end.

Lemma ledger_now_eq s :
  let s1 := set_l_calls (S (l_calls s)) s in
  _now s = match l_held_code s with
           | Some _ => (Raise (ReceiptError "ledger_held"), s)
           | None =>
               match reading_time (l_clock s (l_calls s)) with
               | None => (Raise (ReceiptError "clock_invalid"), set_l_held_code (Some "clock_invalid") s1)
               | Some t =>
                   if lregressed s t then
                     (Raise (ReceiptError "clock_regressed"), set_l_held_code (Some "clock_regressed") s1)
                   else (pass t;; mret t) (set_l_last_now (Some t) s1)
               end
           end.
Proof.
  intros s1. unfold _now. rewrite bind_gets. destruct (l_held_code s) eqn:Hh; [done|].
  rewrite (bind_ret_eq _ _ s tt s) by done.
  rewrite (bind_ret_eq call_clock _ s (l_clock s (l_calls s)) s1) by done.
  destruct (reading_time _) as [t|]; [|done]. rewrite bind_gets. cbn -[pass]. fold (lregressed s t).
  destruct (lregressed s t); [done|].
  rewrite bind_modify. unfold pass, mbind, st_bind.
  destruct (_sweep_abandoned t (set_l_last_now (Some t) s1)) as [[]?]; [|done].
  by destruct (_prune_retention t _) as [[]?].
Qed.

Record ledger_now_post (s s' : ReceiptLedger) (now : float) : Prop := {
  lp_reading : reading_time (l_clock s (l_calls s)) = Some now;
  lp_calls : l_calls s' = S (l_calls s);
  lp_monotone : lregressed s now = false;
  lp_held : l_held_code s = None ∧ l_held_code s' = None;
  lp_last : l_last_now s' = Some now;
  lp_draws : l_draws s' = l_draws s;
  lp_due : ∀ id e', dict_get (l_entries s') id = Some e' → expired_at now e' = false ∧ outdated now e' = false ∧
    ∃ e, dict_get (l_entries s) id = Some e ∧ swept_from now e e';
}.

Lemma ledger_now_ret s now s' :
  ledger_wf s → _now s = (Ret now, s') → ledger_wf s' ∧ ledger_evolves s s' ∧ ledger_now_post s s' now.
Proof.
  intros Hs. rewrite ledger_now_eq. destruct (l_held_code s) eqn:Hh; [done|].
  destruct (reading_time _) as [t|] eqn:Hr; [|done]. destruct (lregressed s t) eqn:Hreg; [done|].
  set (s0 := set_l_last_now _ _).
  assert (St0 : ledger_step s s0) by (by apply same_entries_step).
  destruct (St0 Hs) as [Hs0 Hev0].
  destruct (pass_spec t s0 Hs0) as (s1 & E & Hs1 & Hev1 & [C1 C2 C3 C4] & Hd).
  rewrite (bind_ret_eq _ _ _ _ _ E). intros [= -> ->]. split_and!; [done|by transitivity s0|].
  split; try done. by rewrite C4.
Qed.

Lemma within_ledger_now : within ledger_step _now.
Proof.
  intros s Hs. destruct (_now s) as [[t|x] s'] eqn:E.
  - destruct (ledger_now_ret s t s' Hs E) as (H1 & H2 & _). by split.
  - rewrite ledger_now_eq in E. destruct (l_held_code s) eqn:Hh; [by injection E as <- <-|].
    destruct (reading_time _) as [t|] eqn:Hr; [|injection E as <- <-; revert Hs; by apply same_entries_step].
    destruct (lregressed s t) eqn:Hreg; [injection E as <- <-; revert Hs; by apply same_entries_step|].
    set (s0 := set_l_last_now _ _) in E.
    assert (St0 : ledger_step s s0) by (by apply same_entries_step). destruct (St0 Hs) as [Hs0 _].
    destruct (pass_spec t s0 Hs0) as (s1 & E1 & _). by rewrite (bind_ret_eq _ _ _ _ _ E1) in E.
Qed.
