(* ===== verification/ReceiptsOps.v ===== *)
(** * What the ledger's methods do

    The step each public method of Receipts.v makes, and runs of any sequence
    of calls. *)

From S2P Require Import Prelude PyValue PyJson Services Sha256 HttpResponse Receipts ReceiptsInv.
Local Open Scope string_scope.
Local Open Scope Z_scope.

Lemma within_ledger_now_then {A} (k : float → st ReceiptLedger A) :
  (∀ s s' now, ledger_wf s' → ledger_now_post s s' now → ledger_step s' (k now s').2) →
  within ledger_step (_now ≫= k).
Proof.
  intros Hk s Hs. pose proof (within_ledger_now s Hs) as Hw. unfold mbind, st_bind.
  destruct (_now s) as [[now|e] s'] eqn:E; cbn in *; [|done].
  destruct (ledger_now_ret s now s' Hs E) as (Hs' & Hev & Hp).
  destruct (Hk s s' now Hs' Hp Hs') as [H1 H2]. split; [done|]. by transitivity s'.
Qed.

(** ** Lookups *)
Lemma reads_find_entry c h s :
  reads (find_entry c h) s (λ o, ∀ e, o = Some e →
    ∃ id, h_receipt_id h = VStr id ∧ h_class h = c ∧ dict_get (l_entries s) id = Some e).
Proof.
  unfold find_entry. destruct (h_receipt_id h) as [| | | |id|];
    try (by eapply reads_impl; [apply reads_ret|]; cbn; intros ? ->).
  case_bool_decide; (eapply reads_impl; [auto with reads|]); cbn; intros ? -> e He; [by exists id|done].
Qed.

Lemma reads_lookup_reservation h s :
  reads (_lookup_reservation h) s (λ e, ∃ id, h_receipt_id h = VStr id ∧
    h_class h = "ReceiptReservation" ∧ dict_get (l_entries s) id = Some e ∧ e_reservation e = h_ref h).
Proof.
  unfold _lookup_reservation. eapply reads_bind; [apply reads_find_entry|]. intros [e|] He; [|by split].
  destruct (He e eq_refl) as (id & ? & ? & ?). read_step. read_last. bool_simpl. subst. eauto.
Qed.

Lemma reads_lookup_receipt h s :
  reads (_lookup_receipt h) s (λ e, ∃ id, h_receipt_id h = VStr id ∧
    h_class h = "ForwarderReceipt" ∧ dict_get (l_entries s) id = Some e ∧ e_receipt e = Some (h_ref h)).
Proof.
  unfold _lookup_receipt. eapply reads_bind; [apply reads_find_entry|]. intros [e|] He; [|by split].
  destruct (He e eq_refl) as (id & ? & ? & ?). read_step. read_last. bool_simpl. subst. eauto.
Qed.

Lemma reads_require_active e s : reads (_require_active e) s (λ _, e_state e ≠ EFinalized).
Proof.
  unfold _require_active. case_bool_decide; [by split|].
  destruct (e_swept e); (eapply reads_impl; [apply reads_raise|done]).
Qed.
#[export] Hint Resolve reads_find_entry reads_lookup_reservation reads_lookup_receipt
  reads_require_active : reads.

(** ** The methods *)
Lemma set_refs_id s : set_l_refs (l_refs s) s = s.
Proof. by destruct s. Qed.

Lemma within_advance from to h :
  entry_rank from < entry_rank to → from ≠ EFinalized → to ≠ EFinalized →
  within ledger_step (advance from to h).
Proof.
  intros Hrank Hf Ht. apply within_ledger_now_then. intros s0 s now Hs Hp.
  do 3 read_step. destruct H as (id & Hid & Hc & He & Href). bool_simpl. subst from.
  rewrite (ew_id _ _ _ (lw_entry _ Hs id a He)).
  pose proof (update_entry_step s id a (set_state to) (l_refs s) He (le_n _)) as Hstep.
  rewrite set_refs_id in Hstep. apply Hstep.
  - intros Hwf. assert (Hsh := ew_shape _ _ _ Hwf). unfold entry_shape in Hsh.
    assert (Hnone : e_receipt a = None ∧ e_record a = None ∧ e_delivery_outcome a = None ∧
      e_delivery_bytes_sent a = None ∧ e_claim a = None ∧ e_swept a = false) by by destruct (e_state a).
    split; [|unfold entry_shape; cbn; by destruct to].
    destruct Hnone as (X1 & X2 & X3 & X4 & X5 & X6).
    split; cbn; try done; try lia; congruence.
  - intros r Hr. by left.
Qed.

Lemma within_finalize h ds reason up : within ledger_step (finalize h ds reason up).
Proof.
  apply within_ledger_now_then. intros s0 s now Hs Hp. do 2 read_step.
  destruct H as (id & Hid & Hc & He & Href). destruct ds as [| | | |ds|]; try reflexivity.
  do 2 read_step. destruct (dict_get _REASON_LOCAL_RESPONSE ds) as [table|]; [|reflexivity].
  destruct reason as [| | | |why|]; try reflexivity. do 2 read_step.
  apply do_finalize_step; [by rewrite (ew_id _ _ _ (lw_entry _ Hs id a He))|done|by apply str_in_spec].
Qed.

Lemma final_shape e r :
  entry_shape e → e_record e = Some r → e_state e = EFinalized.
Proof. unfold entry_shape. intros H Hr. destruct (e_state e); [..|done]; destruct H as (_ & H & _); congruence. Qed.

Lemma within_claim_delivery h d : within ledger_step (claim_delivery h d).
Proof.
  apply within_ledger_now_then. intros s0 s now Hs Hp. read_step.
  destruct H as (id & Hid & Hc & He & Href). destruct d as [| | | |d|]; try reflexivity.
  destruct (e_record a) as [r|] eqn:Hr; [|reflexivity]. do 2 read_step. bool_simpl.
  rewrite (bind_ret_eq new_ref _ s (l_refs s) (set_l_refs (S (l_refs s)) s)) by done.
  rewrite (ew_id _ _ _ (lw_entry _ Hs id a He)). unfold update_entry. rewrite bind_modify.
  apply (update_entry_step s id a); [done|lia| |].
  - intros Hwf. assert (Hsh := ew_shape _ _ _ Hwf). assert (Hst := final_shape _ _ Hsh Hr).
    unfold entry_shape in Hsh. rewrite Hst, H0 in Hsh.
    destruct Hsh as (Hrec & (r' & Hr' & Hok) & [(_ & Hcl & Hby)|[(? & _)|(_ & Hin & _)]]); [|done|set_solver].
    split.
    + split; cbn; rewrite ?H0; try done; try (intros; by left); congruence.
    + unfold entry_shape. cbn. rewrite Hst. split_and!; [done|exists r'; split; [done|by destruct Hok]|].
      right. left. by split_and!.
  - intros r' [Hx|[Hx|[= Hx]]]; [left; by left|left; right; by left|right; cbn in *; lia].
Qed.

Lemma within_complete_delivery h d n : within ledger_step (complete_delivery h d n).
Proof.
  apply within_ledger_now_then. intros s0 s now Hs Hp. read_step.
  destruct a as [e|]; [|reflexivity]. destruct (H e eq_refl) as (id & Hid & Hc & He).
  destruct (e_record e) as [r|] eqn:Hr; [|reflexivity]. do 2 read_step.
  destruct d as [| | | |d|]; try reflexivity. read_step. cbn zeta.
  destruct n as [| |n| | |]; try reflexivity. do 3 read_step. bool_simpl.
  rewrite (ew_id _ _ _ (lw_entry _ Hs id e He)).
  pose proof (update_entry_step s id e (set_delivered d n) (l_refs s) He (le_n _)) as Hstep.
  rewrite set_refs_id in Hstep. apply Hstep.
  - intros Hwf. assert (Hsh := ew_shape _ _ _ Hwf). assert (Hst := final_shape _ _ Hsh Hr).
    unfold entry_shape in Hsh. rewrite Hst, H1 in Hsh.
    destruct Hsh as (Hrec & (r' & Hr' & Hok) & [(? & _)|[(_ & Hcl & Hby)|(_ & Hin & _)]]); [done| |set_solver].
    assert (d ≠ "pending" ∧ d ≠ "sending") as [Hn1 Hn2] by (split; intros ->; vm_compute in H2; done).
    apply str_in_spec in H2. rewrite Hr in Hr'. injection Hr' as <-.
    split.
    + split; cbn; rewrite ?H1; try done; try (intros; by left).
      by rewrite !bool_decide_false.
    + unfold entry_shape. cbn. rewrite Hst. split_and!; [done|exists r; split; [done|by destruct Hok]|].
      right. right. split_and!; [done|done|]. exists n, r. split_and!; try done.
      * intros ->. rewrite bool_decide_true in H4 by done. cbn in H4. bool_simpl. done.
      * intros ->. rewrite (bool_decide_true ("not_sent" = "not_sent")) in H5 by done. cbn in H5. bool_simpl. done.
  - intros x Hx. by left.
Qed.

(** *** Reserving *)
Lemma require_count_inv v m c n : _require_count v m c = Ret n → 0 ≤ n ≤ m ∧ v = VInt n.
Proof.
  unfold _require_count. destruct v; try done. case_match; [|done]. intros [= <-]. by bool_simpl.
Qed.

Lemma require_deadline_inv v now d :
  _require_deadline v now = Ret d →
  _finite v = Some d ∧ fltb now d = true ∧ fleb d (fadd now MAX_HANDLER_SECONDS) = true.
Proof.
  unfold _require_deadline. destruct (_finite v); [|done]. case_match; [|done]. intros [= <-].
  by bool_simpl.
Qed.

Lemma worst_case_charge_pos a b c d e f g h i j k : 0 < _worst_case_charge a b c d e f g h i j k.
Proof. apply canonical_bytes_obj_pos. Qed.

Lemma admit_entry_step s e :
  let s2 := set_l_refs (S (l_refs s)) (set_l_draws (S (l_draws s)) s) in
  let id := "receipt_" +:+ l_entropy s (l_draws s) in
  e_receipt_id e = id → e_reservation e = l_refs s → e_state e = EReserved →
  e_generation e = l_generation s →
  e_charge e = _worst_case_charge (e_receipt_id e) (e_generation e) (e_lease_id e)
    (e_attempt_id e) (e_operation_id e) (e_service e) (e_route_id e) (e_request_digest e)
    (e_request_bytes e) (e_deadline e) (e_started_monotonic e) →
  e_charge e ≤ MAX_RECEIPT_BYTES → l_charged_bytes s + e_charge e ≤ MAX_LEDGER_BYTES →
  Z.of_nat (length (l_entries s)) < MAX_RECEIPTS →
  fltb (e_started_monotonic e) (e_deadline e) = true →
  fleb (e_deadline e) (fadd (e_started_monotonic e) MAX_HANDLER_SECONDS) = true →
  entry_shape e → (∀ r, owns e r → r = l_refs s) →
  ledger_step s (set_l_charged_bytes (l_charged_bytes s + e_charge e)
                   (set_l_entries (dict_set (l_entries s) id e) s2)).
Proof.
  intros s2 id Hid Hres Hst Hgen Hch Hmax Hbytes Hcount Hd1 Hd2 Hsh Hown Hs.
  assert (Hfresh : dict_get (l_entries s) id = None).
  { destruct (dict_get (l_entries s) id) as [e'|] eqn:He; [|done].
    destruct (ew_drawn _ _ _ (lw_entry _ Hs _ _ He)) as (i & Hi & Heq).
    apply (inj (String.append _)), (lw_tokens _ Hs) in Heq. lia. }
  assert (Hget : ∀ id', dict_get (dict_set (l_entries s) id e) id' =
    if decide (id = id') then Some e else dict_get (l_entries s) id') by (intros; apply dict_get_set).
  pose proof Hs as [Hok Hent Howner Hcs Hb Hn Htok]. split.
  - split; cbn -[dict_sum dict_set]; auto with dict.
    + intros id' e'. rewrite Hget. case_decide as E; [|intros He'; apply (entry_wf_ext s); cbn; auto].
      intros [= <-]. subst id'. split; try done.
      * exists (l_draws s). split; [cbn; lia|done].
      * intros r Hr. rewrite (Hown r Hr). cbn. lia.
      * rewrite Hch in Hmax |- *. split; [apply worst_case_charge_pos|done].
    + intros id1 e1 id2 e2 r. rewrite !Hget. intros Hg1 Hg2 O1 O2.
      repeat case_decide; simplify_eq; try done.
      * pose proof (ew_refs _ _ _ (Hent _ _ Hg1) r O1). rewrite (Hown r O2) in *. lia.
      * pose proof (ew_refs _ _ _ (Hent _ _ Hg2) r O2). rewrite (Hown r O1) in *. lia.
      * by eapply Howner.
    + rewrite dict_set_fresh, dict_sum_app by done. cbn. lia.
    + rewrite dict_set_fresh, length_app by done. cbn. lia.
  - split; cbn; try done; try lia. intros id' e'. rewrite Hget. case_decide as E.
    + intros [= <-]. subst id'. right. split; [by exists (l_draws s)|]. intros r Hr. rewrite (Hown r Hr). lia.
    + intros He'. left. exists e'. split_and!; [done|done|]. auto.
Qed.

Lemma within_reserve lease att svc route dig n dl op :
  within ledger_step (reserve lease att svc route dig n dl op).
Proof.
  apply within_ledger_now_then. intros s0 s now Hs Hp. do 9 read_step. read_step. subst.
  rewrite (bind_ret_eq _new_receipt_id _ s ("receipt_" +:+ l_entropy s (l_draws s))
             (set_l_draws (S (l_draws s)) s)) by done.
  set (s1 := set_l_draws (S (l_draws s)) s).
  assert (St1 : ledger_step s s1) by (apply same_entries_step; cbn; try done; lia).
  rewrite bind_gets. cbn beta zeta. change (l_generation s1) with (l_generation s).
  set (charge := _worst_case_charge _ _ _ _ _ _ _ _ _ _ _).
  unfold require at 1. destruct (charge <=? MAX_RECEIPT_BYTES) eqn:Hmax; [|done].
  rewrite (bind_ret_eq _ _ _ tt s1) by done. rewrite bind_gets. cbn beta.
  unfold require. destruct (l_charged_bytes s1 + charge <=? MAX_LEDGER_BYTES) eqn:Hb; [|done].
  rewrite (bind_ret_eq _ _ _ tt s1) by done.
  rewrite (bind_ret_eq new_ref _ s1 (l_refs s) (set_l_refs (S (l_refs s)) s1)) by done.
  rewrite !bind_modify. cbn [snd]. bool_simpl.
  apply require_deadline_inv in H5 as (_ & Hd1 & Hd2).
  set (e := mkEntry (l_refs s) _ _ _ _ _ _ _ _ _ _ _ _ _ _ _ _ _ _ _).
  apply (admit_entry_step s e); try done.
  intros r [Hr|[Hr|Hr]]; cbn in Hr; congruence.
Qed.

Lemma ledger_require_id_inv v c id : _require_id v c = Ret id → v = VStr id.
Proof. unfold _require_id. destruct v; try done. case_match; [by intros [= <-]|done]. Qed.

Lemma ledger_require_service_inv v svc : _require_service v = Ret svc → v = VStr svc.
Proof. unfold _require_service. destruct v; try done. case_match; [by intros [= <-]|done]. Qed.

(** What a reservation stands for. *)
Lemma reserve_ret lease att svc route dig n dl op s h s' :
  ledger_wf s → reserve lease att svc route dig n dl op s = (Ret h, s') →
  ∃ id e, h = mkHandle (e_reservation e) "ReceiptReservation" (VStr id) ∧
    dict_get (l_entries s') id = Some e ∧ e_state e = EReserved ∧ (e_reservation e < l_refs s')%nat ∧
    lease = VStr (e_lease_id e) ∧ svc = VStr (e_service e) ∧ route = VStr (e_route_id e) ∧
    _finite dl = Some (e_deadline e).
Proof.
  intros Hs H. unfold reserve in H. apply bind_ret_inv in H as (now & s1 & _ & H).
  do 10 read_inv H. apply bind_ret_inv in H as (id & s2 & E2 & H). injection E2 as <- <-.
  read_inv H. cbn zeta in H. read_inv H. read_inv H. read_inv H.
  apply bind_ret_inv in H as (r & s3 & E3 & H). injection E3 as <- <-.
  rewrite !bind_modify in H. injection H as <- <-. eexists _, (mkEntry _ _ _ _ _ _ _ _ _ _ _ _ _ _ _ _ _ _ _ _).
  cbn -[dict_set]. rewrite dict_get_set, decide_True by done. split_and!; try done; try lia.
  - by apply ledger_require_id_inv in P.
  - by apply ledger_require_service_inv in P1.
  - by apply ledger_require_id_inv in P2.
  - by destruct (require_deadline_inv _ _ _ P5).
Qed.

Lemma within_freshen : within ledger_step freshen.
Proof.
  intros s Hs. unfold freshen. pose proof (within_ledger_now s Hs) as [Hs1 Hev1].
  destruct (_now s) as [o s1] eqn:E. cbn [snd] in *.
  rewrite (bind_ret_eq (attempt _now) _ s o s1) by (unfold attempt; by rewrite E).
  assert (Hp : ∀ t, ledger_step s ((_sweep_abandoned t;; _prune_retention t) s1).2).
  { intros t _. destruct (pass_spec t s1 Hs1) as (s2 & E2 & Hs2 & Hev2 & _). unfold pass in E2.
    rewrite E2. split; [done|]. by transitivity s1. }
  destruct o as [t|x]; [rewrite (bind_ret_eq _ _ s1 t s1) by done|rewrite bind_gets]; by apply Hp.
Qed.
#[export] Hint Resolve within_freshen within_reserve within_finalize within_claim_delivery
  within_complete_delivery : within.

Lemma within_contains h : within ledger_step (contains h).
Proof. unfold contains. within_auto. Qed.

Lemma within_ledger_snapshot : within ledger_step snapshot.
Proof. unfold snapshot. within_auto. Qed.

Lemma within_begin_connect h : within ledger_step (begin_connect h).
Proof. by apply within_advance. Qed.

Lemma within_begin_dispatch h : within ledger_step (begin_dispatch h).
Proof. by apply within_advance. Qed.
#[export] Hint Resolve within_contains within_ledger_snapshot within_begin_connect
  within_begin_dispatch : within.

(** ** Sequences of calls *)
Inductive ledger_call :=
| CallReserve (lease_id attempt_id service route_id request_digest request_bytes deadline
    operation_id : pyval)
| CallBeginConnect (reservation : handle)
| CallBeginDispatch (reservation : handle)
| CallFinalize (reservation : handle) (dispatch_state reason : pyval) (upstream_response : response_arg)
| CallClaimDelivery (receipt : handle) (client_response_digest : pyval)
| CallCompleteDelivery (claim : handle) (delivery bytes_sent : pyval)
| CallContains (receipt : handle)
| CallLedgerSnapshot.

Definition run_ledger_call (c : ledger_call) : st ReceiptLedger unit :=
  match c with
  | CallReserve l a v r d n t o => reserve l a v r d n t o;; mret tt
  | CallBeginConnect h => begin_connect h
  | CallBeginDispatch h => begin_dispatch h
  | CallFinalize h d r u => finalize h d r u;; mret tt
  | CallClaimDelivery h d => claim_delivery h d;; mret tt
  | CallCompleteDelivery h d n => complete_delivery h d n
  | CallContains h => contains h;; mret tt
  | CallLedgerSnapshot => snapshot;; mret tt
  end.

Definition run_ledger_calls (cs : list ledger_call) (s : ReceiptLedger) : ReceiptLedger :=
  foldl (λ s c, (run_ledger_call c s).2) s cs.

Lemma within_run_ledger_call c : within ledger_step (run_ledger_call c).
Proof. destruct c; cbn [run_ledger_call]; within_auto. Qed.

Lemma run_ledger_calls_ind (R : ReceiptLedger → ReceiptLedger → Prop) `{!Reflexive R, !Transitive R} cs s :
  (∀ c, within R (run_ledger_call c)) → R s (run_ledger_calls cs s).
Proof.
  intros HR. unfold run_ledger_calls. revert s. induction cs as [|c cs IH]; intros s; cbn; [reflexivity|].
  etransitivity; [apply HR|apply IH].
Qed.

Lemma run_ledger_calls_sound cs s : ledger_step s (run_ledger_calls cs s).
Proof. apply run_ledger_calls_ind; [apply _..|]. apply within_run_ledger_call. Qed.

Lemma new_ledger_wf clock entropy g s :
  Inj (=) (=) entropy → new_ledger clock entropy g = Ret s → ledger_wf s.
Proof.
  intros Hinj H. unfold new_ledger in H. inv_do. injection H as <-. split; cbn; try done; auto with dict.
Qed.
