(* ===== verification/ReceiptsThm.v ===== *)
(** * Theorems about the receipt ledger

    What the dispatch path can rely on, for any clock, any sequence of calls
    and any forged or reused handles. *)

From stdpp Require Import pretty.
From S2P Require Import Prelude PyValue PyJson Services Sha256 HttpResponse Receipts ReceiptsInv ReceiptsOps.
Local Open Scope string_scope.
Local Open Scope Z_scope.

(** ** A concrete ledger for the witnesses *)
Definition lclock (n : nat) : reading := Read (VInt (Z.of_nat n)).
Definition ltoken (n : nat) : string := pretty n.
#[export] Instance ltoken_inj : Inj (=) (=) ltoken.
Proof. unfold ltoken. apply _. Qed.

Definition a_digest : string := "0123456789abcdef0123456789abcdef0123456789abcdef0123456789abcdef".
Definition demo_ledger : ReceiptLedger :=
  mkReceiptLedger lclock 0%nat ltoken 0%nat 0%nat "generation_0" [] 0 None None.
Definition demo_reserve : ledger_call :=
  CallReserve (VStr "lease_1") (VStr "att") (VStr "jira") (VStr "jira.create") (VStr a_digest) (VInt 100)
    (VInt 30) VNone.
Definition demo_reservation : handle := mkHandle 0%nat "ReceiptReservation" (VStr "receipt_0").
Definition demo_receipt : handle := mkHandle 1%nat "ForwarderReceipt" (VStr "receipt_0").
Definition demo_denied : ledger_call :=
  CallFinalize demo_reservation (VStr "NOT_DISPATCHED") (VStr "lease_denied") RNone.
Definition denied_digest : string := "e59823d5ce23bf985762ca77f45caaa152f0359bb515b401e9b2606c896e261c".
Definition demo_calls : list ledger_call := [demo_reserve; demo_denied].

Lemma demo_ledger_new : new_ledger lclock ltoken (VStr "generation_0") = Ret demo_ledger.
Proof. reflexivity. Qed.

Definition demo_finalized : ReceiptLedger := run_ledger_calls demo_calls demo_ledger.
Lemma demo_finalized_wf : ledger_wf demo_finalized.
Proof. apply run_ledger_calls_sound. apply (new_ledger_wf lclock ltoken (VStr "generation_0")); [apply _|done]. Qed.

Definition demo_connecting : ReceiptLedger :=
  run_ledger_calls [demo_reserve; CallBeginConnect demo_reservation] demo_ledger.
Lemma demo_connecting_wf : ledger_wf demo_connecting.
Proof. apply run_ledger_calls_sound. apply (new_ledger_wf lclock ltoken (VStr "generation_0")); [apply _|done]. Qed.

(** ** Capacity *)

(** From an empty ledger, after any sequence of calls (with forged handles,
    failing clocks and abandoned reservations), at most 2048 entries are held,
    the running counter [_charged_bytes] is exactly the sum of the entries'
    worst-case charges, it is at most 2 MiB, and every entry is well formed: a
    finalised one has a legal record and delivery state, any other has none. *)
Theorem ledger_stays_within_capacity clock entropy g s cs :
  Inj (=) (=) entropy → new_ledger clock entropy g = Ret s →
  let s' := run_ledger_calls cs s in
  ledger_wf s' ∧ Z.of_nat (length (l_entries s')) ≤ MAX_RECEIPTS ∧
  l_charged_bytes s' = dict_sum e_charge (l_entries s') ∧ 0 ≤ l_charged_bytes s' ≤ MAX_LEDGER_BYTES.
Proof.
  intros Hinj Hnew s'. destruct (run_ledger_calls_sound cs s (new_ledger_wf _ _ _ _ Hinj Hnew)) as [Hs _].
  fold s' in Hs. pose proof Hs as [Hok Hent Howner Hch Hb Hn Htok]. split_and!; try done.
  rewrite Hch. clear - Hent Hok. unfold dict_ok, dict_keys in Hok. revert Hent Hok. generalize (l_entries s').
  induction d as [|[id e] d IH]; intros Hent Hok; [done|]. cbn in Hok. apply NoDup_cons in Hok as [Hid Hok].
  assert (Hget : ∀ id' e', dict_get d id' = Some e' → id' ∈ d.*1) by (intros; apply dict_get_keys; eauto).
  unfold dict_sum in *. cbn [foldr snd].
  assert (0 < e_charge e) by (apply (ew_charge_max s' id e), Hent; cbn; by rewrite decide_True).
  assert (0 ≤ foldr (λ kv acc, e_charge kv.2 + acc) 0 d); [|lia].
  apply IH; [|done]. intros id' e' He'. apply Hent. cbn. rewrite decide_False; [done|].
  intros ->. by apply Hid, (Hget id' e').
Qed.

Lemma ledger_stays_within_capacity_witness :
  0 ≤ l_charged_bytes demo_finalized ≤ MAX_LEDGER_BYTES ∧ length (l_entries demo_finalized) = 1%nat.
Proof.
  split; [|vm_compute; reflexivity].
  apply (ledger_stays_within_capacity lclock ltoken (VStr "generation_0") demo_ledger demo_calls);
    [apply _|reflexivity].
Defined.

(** ** Records *)
Lemma evolves_entry s s' id e e' :
  ledger_wf s → ledger_evolves s s' → dict_get (l_entries s) id = Some e →
  dict_get (l_entries s') id = Some e' →
  entry_evolves e e' ∧ ∀ r, owns e' r → owns e r ∨ (l_refs s ≤ r)%nat.
Proof.
  intros Hs Hev He He'. destruct (le_entries _ _ Hev id e' He') as [(e0 & He0 & H & Ho)|((i & Hi & Hid) & _)].
  - by simplify_eq.
  - exfalso. destruct (ew_drawn _ _ _ (lw_entry _ Hs id e He)) as (j & Hj & Hid').
    rewrite Hid' in Hid. apply (inj (String.append _)), (lw_tokens _ Hs) in Hid. lia.
Qed.

(** A recorded receipt never changes: in every later state the entry is
    either gone or carries the same record and the same identity, and what was
    fixed at reservation (ids, digest, sizes, deadline, charge) is as it was. *)
Theorem recorded_receipt_is_immutable s cs id e r e' :
  ledger_wf s → dict_get (l_entries s) id = Some e → e_record e = Some r →
  dict_get (l_entries (run_ledger_calls cs s)) id = Some e' →
  e_record e' = Some r ∧ e_receipt e' = e_receipt e ∧ e_core e' = e_core e.
Proof.
  intros Hs He Hr He'. destruct (run_ledger_calls_sound cs s Hs) as [_ Hev].
  destruct (evolves_entry _ _ _ _ _ Hs Hev He He') as [[Hc _ Hrec _ _ _ _] _].
  by destruct (Hrec r Hr) as (? & ? & _).
Qed.

(** A fact about one entry of a concrete ledger, decided by evaluation. *)
Definition entry_test (P : _Entry → bool) (id : string) (s : ReceiptLedger) : bool :=
  match dict_get (l_entries s) id with Some e => P e | None => false end.

Lemma entry_test_true P id s :
  entry_test P id s = true → ∃ e, dict_get (l_entries s) id = Some e ∧ P e = true.
Proof. unfold entry_test. destruct (dict_get _ _); [eauto|done]. Qed.

Local Notation demo_claimed :=
  (run_ledger_calls [CallClaimDelivery demo_receipt (VStr denied_digest)] demo_finalized).

Lemma recorded_receipt_is_immutable_witness :
  ∃ e' r, dict_get (l_entries demo_claimed) "receipt_0" = Some e' ∧
    e_delivery_outcome e' = Some "sending" ∧ e_record e' = Some r ∧ fr_reason r = "lease_denied".
Proof.
  destruct (entry_test_true (λ e, match e_record e with
    | Some r => bool_decide (fr_reason r = "lease_denied") | None => false end) "receipt_0" demo_finalized)
    as (e & He & Hr); [vm_compute; reflexivity|].
  destruct (entry_test_true (λ e, bool_decide (e_delivery_outcome e = Some "sending")) "receipt_0" demo_claimed)
    as (e' & He' & Hs); [vm_compute; reflexivity|].
  destruct (e_record e) as [r|] eqn:Hrec; [|discriminate Hr].
  apply bool_decide_eq_true in Hr, Hs. exists e', r. split; [exact He'|]. split; [exact Hs|].
  split; [|exact Hr].
  apply (recorded_receipt_is_immutable demo_finalized _ "receipt_0" e r e' demo_finalized_wf He Hrec He').
Defined.

(** C14: What a receipt may say is limited by how far the attempt had come.
    Once an entry is connecting it is never recorded as not dispatched, and
    once it is dispatched it is only ever recorded as unknown, partial or
    confirmed: a request that may have been written is never reported as not
    sent or failed before sending. *)
Theorem dispatched_is_never_reported_unsent s cs id e e' r :
  ledger_wf s → dict_get (l_entries s) id = Some e → e_record e = None →
  dict_get (l_entries (run_ledger_calls cs s)) id = Some e' → e_record e' = Some r →
  fr_dispatch_state r ∈ reachable_states (e_state e) ∧
  (e_state e = EConnecting → fr_dispatch_state r ≠ "NOT_DISPATCHED") ∧
  (e_state e = EDispatched → fr_dispatch_state r ∈ ["DISPATCHED_UNKNOWN"; "PARTIAL"; "TRANSPORT_CONFIRMED"]).
Proof.
  intros Hs He Hn He' Hr. destruct (run_ledger_calls_sound cs s Hs) as [_ Hev].
  destruct (evolves_entry _ _ _ _ _ Hs Hev He He') as [Hee _].
  destruct (ee_reachable _ _ Hee r Hr) as [H|H]; [congruence|].
  split_and!; [done| |]; intros Hst; rewrite Hst in H; [|done].
  intros Hd. rewrite Hd in H. apply str_in_spec in H. vm_compute in H. done.
Qed.

Local Notation demo_write_failed :=
  (run_ledger_calls [CallBeginDispatch demo_reservation;
     CallFinalize demo_reservation (VStr "DISPATCHED_UNKNOWN") (VStr "write_failed") RNone] demo_connecting).

Lemma dispatched_is_never_reported_unsent_witness :
  ∃ e' r, dict_get (l_entries demo_write_failed) "receipt_0" = Some e' ∧ e_record e' = Some r ∧
    fr_dispatch_state r ≠ "NOT_DISPATCHED".
Proof.
  destruct (entry_test_true (λ e, bool_decide (e_state e = EConnecting) && negb (some_b (e_record e)))
    "receipt_0" demo_connecting) as (e & He & Hc); [vm_compute; reflexivity|].
  destruct (entry_test_true (λ e, some_b (e_record e)) "receipt_0" demo_write_failed)
    as (e' & He' & Hs); [vm_compute; reflexivity|].
  apply some_b_true in Hs as [r Hr]. apply andb_true_iff in Hc as [Hc Hn]. apply bool_decide_eq_true in Hc.
  destruct (e_record e) eqn:Hrec; [discriminate Hn|].
  exists e', r. split; [exact He'|]. split; [exact Hr|].
  apply (dispatched_is_never_reported_unsent demo_connecting _ "receipt_0" e e' r demo_connecting_wf He Hrec He' Hr).
  exact Hc.
Defined.

(** ** Delivery *)
Lemma claim_delivery_ret h d s c s' :
  ledger_wf s → claim_delivery h d s = (Ret c, s') →
  ∃ now s1 id e r, _now s = (Ret now, s1) ∧ h_receipt_id h = VStr id ∧
    dict_get (l_entries s1) id = Some e ∧ e_receipt e = Some (h_ref h) ∧ e_record e = Some r ∧
    d = VStr (fr_client_response_digest r) ∧ e_delivery_outcome e = Some "pending" ∧
    dict_get (l_entries s') id = Some (set_claimed (h_ref c) e) ∧ l_refs s1 = h_ref c.
Proof.
  intros Hs H. unfold claim_delivery in H. apply bind_ret_inv in H as (now & s1 & E & H).
  destruct (ledger_now_ret _ _ _ Hs E) as (Hs1 & _ & _).
  read_inv H. destruct P as (id & Hid & Hc & He & Href). destruct d as [| | | |d|]; try done.
  destruct (e_record a) as [r|] eqn:Hr; [|done]. do 2 read_inv H. bool_simpl. subst d.
  rewrite (bind_ret_eq new_ref _ s1 (l_refs s1) (set_l_refs (S (l_refs s1)) s1)) in H by done.
  unfold update_entry in H. rewrite bind_modify in H. injection H as <- <-.
  exists now, s1, id, a, r. split_and!; try done. cbn.
  by rewrite (ew_id _ _ _ (lw_entry _ Hs1 id a He)), dict_get_alter, decide_True, He.
Qed.

(** C15: A receipt's delivery is claimed at most once: after one
    [claim_delivery] for a receipt object returned a claim, every later
    [claim_delivery] on that same object raises, whatever was called in
    between and even if the caller altered the object's [receipt_id]. *)
Theorem delivery_claimed_at_most_once h d s c s1 cs h' d' :
  ledger_wf s → claim_delivery h d s = (Ret c, s1) → h_ref h' = h_ref h →
  ∃ e, (claim_delivery h' d' (run_ledger_calls cs s1)).1 = Raise e.
Proof.
  intros Hs E Hh. pose proof (within_claim_delivery h d s Hs) as [Hs1 _]. rewrite E in Hs1. cbn in Hs1.
  destruct (claim_delivery_ret _ _ _ _ _ Hs E) as (now & s0 & id & e & r & E0 & Hid & He & Hrc & Hr & Hd & Hp & He1 & Hc).
  destruct (run_ledger_calls_sound cs s1 Hs1) as [Hs2 Hev2].
  destruct (claim_delivery h' d' (run_ledger_calls cs s1)) as [[c'|x] s3] eqn:E3; [exfalso|by exists x].
  destruct (claim_delivery_ret _ _ _ _ _ Hs2 E3)
    as (now' & s2 & id' & e' & r' & E2 & Hid' & He' & Hrc' & Hr' & Hd' & Hp' & _).
  destruct (ledger_now_ret _ _ _ Hs2 E2) as (Hs2' & Hev2' & _).
  assert (Hev : ledger_evolves s1 s2) by by etransitivity.
  rewrite Hh in Hrc'. set (e1 := set_claimed (h_ref c) e) in He1.
  assert (O1 : owns e1 (h_ref h)) by (right; left; exact Hrc).
  pose proof (ew_refs _ _ _ (lw_entry _ Hs1 id e1 He1) _ O1) as Hlt.
  assert (O2 : owns e' (h_ref h)) by (right; by left).
  destruct (le_entries _ _ Hev id' e' He') as [(e2 & He2 & Hee & Ho)|(_ & Ho)];
    [|specialize (Ho _ O2); lia].
  destruct (Ho _ O2) as [O|O]; [|lia].
  assert (id' = id) as -> by by eapply (lw_owner _ Hs1). simplify_eq.
  pose proof (ee_delivery _ _ Hee) as Hdel. rewrite Hp' in Hdel. by cbn in Hdel.
Qed.

Lemma delivery_claimed_at_most_once_witness :
  returned (claim_delivery demo_receipt (VStr denied_digest) demo_finalized).1 = true ∧
  ∃ e, (claim_delivery demo_receipt (VStr denied_digest)
          (run_ledger_calls [CallLedgerSnapshot] (claim_delivery demo_receipt (VStr denied_digest) demo_finalized).2)).1 = Raise e.
Proof.
  assert (X : returned (claim_delivery demo_receipt (VStr denied_digest) demo_finalized).1 = true)
    by (vm_compute; reflexivity).
  split; [exact X|].
  destruct (claim_delivery demo_receipt (VStr denied_digest) demo_finalized) as [[c|x] s1] eqn:E; [|discriminate X].
  exact (delivery_claimed_at_most_once demo_receipt _ demo_finalized c s1 [CallLedgerSnapshot] demo_receipt _
           demo_finalized_wf E eq_refl).
Defined.

(** *** The bytes a claim names *)
Definition serialises (kr : string * ParsedResponse) : bool := returned (_digest_and_length kr.2).

Lemma digests_of_responses (rs : dict string ParsedResponse) kind d :
  forallb serialises rs = true →
  dict_get (flat_map (λ kr, match _digest_and_length kr.2 with Ret d => [(kr.1, d)] | Raise _ => [] end) rs)
    kind = Some d →
  ∃ resp, dict_get rs kind = Some resp ∧ _digest_and_length resp = Ret d.
Proof.
  induction rs as [|[k resp] rs IH]; [done|]. cbn [forallb flat_map fst snd]. unfold serialises at 1. cbn [snd].
  destruct (_digest_and_length resp) as [d0|] eqn:Hd; [|done]. cbn. intros Hall.
  case_decide; [|by apply IH]. intros [= <-]. eauto.
Qed.

Lemma local_digest_response ds why d r :
  fr_dispatch_state r = ds → fr_reason r = why → local_digest ds why = Ret d →
  ∃ resp, local_response_for r = Ret resp ∧ _digest_and_length resp = Ret d.
Proof.
  intros <- <- H. unfold local_digest in H. unfold local_response_for.
  destruct (dict_get _REASON_LOCAL_RESPONSE (fr_dispatch_state r)) as [table|]; [|done].
  destruct (dict_get table (fr_reason r)) as [[kind|]|]; try done.
  destruct (dict_get _LOCAL_RESPONSE_DIGESTS kind) as [d'|] eqn:Hd; [|done]. injection H as <-.
  apply digests_of_responses in Hd as (resp & Hr & Hl); [|by vm_compute].
  exists resp. change (default None (Some (Some kind))) with (Some kind). cbv beta iota zeta.
  unfold local_response. by rewrite Hr.
Qed.

Lemma record_bytes e r :
  record_ok e r → ∃ resp wire, serialize_response resp = Ret wire ∧
    fr_client_response_digest r = sha256_hex wire ∧ fr_client_response_bytes r = str_len wire ∧
    (local_response_for r = Ret resp ∨
     fr_dispatch_state r = "TRANSPORT_CONFIRMED" ∧ fr_reason r = "ok" ∧
     fr_response_digest r = Some (sha256_hex wire)).
Proof.
  intros [_ _ _ _ _ (up & H)].
  assert (Hlocal : ∀ d, local_digest (fr_dispatch_state r) (fr_reason r) = Ret d →
    d = (fr_client_response_digest r, fr_client_response_bytes r) →
    ∃ resp wire, serialize_response resp = Ret wire ∧
      fr_client_response_digest r = sha256_hex wire ∧ fr_client_response_bytes r = str_len wire ∧
      local_response_for r = Ret resp).
  { intros d Hd ->. eapply local_digest_response in Hd as (resp & Hresp & Hl); [|done|done].
    unfold _digest_and_length in Hl. inv_do. injection Hl as <- <-. eauto 10. }
  unfold finalize_fields in H. case_bool_decide as Hds.
  - apply outcome_bind_ret_inv in H as (wire & Hw & H). destruct up as [| |resp]; try done.
    destruct resp as [[| |st| | |] [b|]]; try done.
    apply outcome_bind_ret_inv in H as (client & Hc & H).
    case_bool_decide as Hok.
    + injection Hc as <-. injection H as Hsc Hrd Hbb Hcd Hcb.
      exists (mkParsedResponse (VInt st) (Some b)), wire.
      unfold _serialize_or_fail in Hw. destruct (serialize_response _) as [w|]; [|done]. injection Hw as ->.
      split_and!; [done|done|done|]. right. done.
    + injection H as Hsc Hrd Hbb Hcl. destruct (Hlocal _ Hc Hcl) as (resp & w & X1 & X2 & X3 & X4). eauto 10.
  - apply outcome_bind_ret_inv in H as (client & Hc & H).
    injection H as Hsc Hrd Hbb Hcl. destruct (Hlocal _ Hc Hcl) as (resp & w & X1 & X2 & X3 & X4). eauto 10.
Qed.

(** A claim is handed out only for the recorded bytes: the digest the
    caller presented is the SHA-256 of the canonical serialisation of one
    response, which is the fixed local response the receipt's reason calls
    for, or, for a confirmed and forwarded request, the upstream response whose
    digest the record holds. *)
Theorem claimed_digest_names_client_bytes h d s c s' :
  ledger_wf s → claim_delivery h d s = (Ret c, s') →
  ∃ id e r resp wire, dict_get (l_entries s') id = Some e ∧ e_claim e = Some (h_ref c) ∧
    e_delivery_outcome e = Some "sending" ∧ e_record e = Some r ∧
    serialize_response resp = Ret wire ∧ d = VStr (sha256_hex wire) ∧
    fr_client_response_bytes r = str_len wire ∧
    (local_response_for r = Ret resp ∨
     fr_dispatch_state r = "TRANSPORT_CONFIRMED" ∧ fr_reason r = "ok" ∧
     fr_response_digest r = Some (sha256_hex wire)).
Proof.
  intros Hs E.
  destruct (claim_delivery_ret _ _ _ _ _ Hs E) as (now & s0 & id & e & r & E0 & Hid & He & _ & Hr & Hd & _ & He1 & _).
  destruct (ledger_now_ret _ _ _ Hs E0) as (Hs0 & _ & _).
  assert (Hok : record_ok e r).
  { pose proof (ew_shape _ _ _ (lw_entry _ Hs0 id e He)) as Hsh.
    pose proof (final_shape _ _ Hsh Hr) as Hst. unfold entry_shape in Hsh. rewrite Hst in Hsh.
    destruct Hsh as (_ & (r' & Hr' & Hok) & _). congruence. }
  destruct (record_bytes e r Hok) as (resp & wire & Hw & Hdg & Hby & Hx).
  exists id, (set_claimed (h_ref c) e), r, resp, wire. split_and!; try done. by rewrite Hd, Hdg.
Qed.

Lemma claimed_digest_names_client_bytes_witness :
  ∃ wire, VStr denied_digest = VStr (sha256_hex wire).
Proof.
  assert (X : returned (claim_delivery demo_receipt (VStr denied_digest) demo_finalized).1 = true)
    by (vm_compute; reflexivity).
  destruct (claim_delivery demo_receipt (VStr denied_digest) demo_finalized) as [[c|x] s1] eqn:E; [|discriminate X].
  destruct (claimed_digest_names_client_bytes _ _ _ _ _ demo_finalized_wf E)
    as (_ & _ & _ & _ & wire & _ & _ & _ & _ & _ & H & _).
  exists wire. exact H.
Defined.

(** ** Abandonment and retention *)

(** After any operation read the clock, no unfinished entry is past its
    deadline and no finished one is 310 s old.  An entry the pass finalised was
    past its deadline; it is recorded as abandoned at the deadline itself, as
    not dispatched only when it had not started connecting, and is unknown
    otherwise; every other surviving entry is unchanged. *)
Theorem overdue_entries_are_abandoned s now s' id e' :
  ledger_wf s → _now s = (Ret now, s') → dict_get (l_entries s') id = Some e' →
  (e_state e' ≠ EFinalized → fltb now (e_deadline e') = true) ∧
  (∀ r, e_record e' = Some r → fleb RETENTION_SECONDS (fsub now (fr_completed_monotonic r)) = false) ∧
  ∃ e, dict_get (l_entries s) id = Some e ∧
    (e' = e ∨
     fltb now (e_deadline e) = false ∧ e_state e' = EFinalized ∧ e_swept e' = true ∧
     ∃ r, e_record e' = Some r ∧ fr_reason r = "abandoned" ∧ fr_completed_monotonic r = e_deadline e ∧
       fr_dispatch_state r = (if bool_decide (e_state e = EReserved) then "NOT_DISPATCHED"
                              else "DISPATCHED_UNKNOWN")).
Proof.
  intros Hs E He'. destruct (ledger_now_ret _ _ _ Hs E) as (Hs' & _ & Hp).
  destruct (lp_due _ _ _ Hp id e' He') as (Hx & Ho & e & He & Hsw). split_and!.
  - intros Hst. unfold expired_at in Hx. rewrite bool_decide_false in Hx by done. cbn in Hx. by bool_simpl.
  - intros r Hr. unfold outdated in Ho. rewrite Hr in Ho.
    pose proof (final_shape _ _ (ew_shape _ _ _ (lw_entry _ Hs' id e' He')) Hr) as Hst. by rewrite Hst in Ho.
  - exists e. split; [done|]. destruct Hsw as [->|(Hx' & fs & rr & ->)]; [by left|right].
    unfold expired_at in Hx'. bool_simpl. split_and!; try done.
    exists (final_record e (swept_state e) "abandoned" (e_deadline e) fs).
    destruct fs as [[[sc ud] bb] cl]. done.
Qed.

Lemma ledger_with_clock_wf clock :
  ledger_wf (mkReceiptLedger clock 0%nat ltoken 0%nat 0%nat "generation_0" [] 0 None None).
Proof. apply (new_ledger_wf clock ltoken (VStr "generation_0")); [apply _|reflexivity]. Qed.

Definition late_clock (n : nat) : reading := Read (VInt (if bool_decide (n < 2)%nat then Z.of_nat n else 35)).
Definition demo_overdue : ReceiptLedger :=
  run_ledger_calls [demo_reserve; CallBeginConnect demo_reservation]
    (mkReceiptLedger late_clock 0%nat ltoken 0%nat 0%nat "generation_0" [] 0 None None).
Lemma demo_overdue_wf : ledger_wf demo_overdue.
Proof. apply run_ledger_calls_sound, ledger_with_clock_wf. Qed.

Lemma overdue_entries_are_abandoned_witness :
  ∃ now s' e', _now demo_overdue = (Ret now, s') ∧ dict_get (l_entries s') "receipt_0" = Some e' ∧
    e_swept e' = true ∧ (e_state e' ≠ EFinalized → fltb now (e_deadline e') = true).
Proof.
  assert (X : returned (_now demo_overdue).1 = true) by (vm_compute; reflexivity).
  destruct (entry_test_true e_swept "receipt_0" (_now demo_overdue).2) as (e' & He' & Hs); [vm_compute; reflexivity|].
  destruct (_now demo_overdue) as [[now|x] s'] eqn:E; [|discriminate X].
  exists now, s', e'. split; [reflexivity|]. split; [exact He'|]. split; [exact Hs|].
  apply (overdue_entries_are_abandoned demo_overdue now s' "receipt_0" e' demo_overdue_wf E He').
Defined.

(** ** A held ledger stays held *)
Definition lheld_mono (s s' : ReceiptLedger) : Prop := l_held_code s ≠ None → l_held_code s' ≠ None.
#[export] Instance lheld_mono_po : PreOrder lheld_mono.
Proof. split; [by intros ??|]. intros x y z Hxy Hyz Hx. by apply Hyz, Hxy. Qed.

Lemma lheld_ctrl {A} (m : st ReceiptLedger A) : within lctrl_eq m → within lheld_mono m.
Proof. intros Hm s. destruct (Hm s). unfold lheld_mono. congruence. Qed.

Lemma lheld_now : within lheld_mono _now.
Proof. intros s Hh. rewrite ledger_now_eq. destruct (l_held_code s) eqn:E; cbn; congruence. Qed.
#[local] Hint Resolve lheld_now : within.
#[local] Hint Extern 5 (within lheld_mono _) => apply lheld_ctrl; solve [auto with within nocore] : within.

Lemma within_lheld_call c : within lheld_mono (run_ledger_call c).
Proof.
  destruct c; cbn [run_ledger_call];
    unfold reserve, begin_connect, begin_dispatch, advance, finalize, claim_delivery, complete_delivery,
      contains, snapshot, freshen, _lookup_reservation, _lookup_receipt, find_entry, _require_active,
      _new_receipt_id; cbn zeta; within_auto; try (apply within_modify); by intros ? ?.
Qed.

Lemma ledger_now_held s : l_held_code s ≠ None → _now s = (Raise (ReceiptError "ledger_held"), s).
Proof. intros Hh. rewrite ledger_now_eq. by destruct (l_held_code s). Qed.

Lemma contains_held h s : ledger_wf s → l_held_code s ≠ None → (contains h s).1 = Ret false.
Proof.
  intros Hs Hh. unfold contains. destruct (h_receipt_id h); try done. case_bool_decide; [|done].
  assert (∃ s1, freshen s = (Ret tt, s1) ∧ l_held_code s1 = l_held_code s) as (s1 & E & Hs1).
  { unfold freshen. rewrite (bind_ret_eq (attempt _now) _ s (Raise (ReceiptError "ledger_held")) s)
      by (unfold attempt; by rewrite ledger_now_held).
    rewrite bind_gets. destruct (pass_spec (default fzero (l_last_now s)) s Hs) as (s1 & E & _ & _ & C & _).
    exists s1. split; [exact E|apply C]. }
  rewrite (bind_ret_eq _ _ _ _ _ E), bind_gets. by rewrite bool_decide_true by congruence.
Qed.

(** A ledger whose clock failed or went back stays held whatever is called;
    from then on every operation that would reserve, advance, finalise or
    deliver raises [ledger_held] and changes nothing, and [contains] answers
    [False] for every receipt. *)
Theorem ledger_hold_is_permanent s cs c :
  ledger_wf s → l_held_code s ≠ None →
  let s' := run_ledger_calls cs s in
  l_held_code s' ≠ None ∧
  match c with
  | CallLedgerSnapshot => True
  | CallContains h => (contains h s').1 = Ret false
  | _ => run_ledger_call c s' = (Raise (ReceiptError "ledger_held"), s')
  end.
Proof.
  intros Hs Hh s'. destruct (run_ledger_calls_sound cs s Hs) as [Hs' _]. fold s' in Hs'.
  assert (Hheld : l_held_code s' ≠ None) by (apply (run_ledger_calls_ind lheld_mono); [apply within_lheld_call|done]).
  split; [done|]. clearbody s'. pose proof (ledger_now_held s' Hheld) as E.
  destruct c; cbn [run_ledger_call]; try done; [..|by apply contains_held];
    unfold reserve, begin_connect, begin_dispatch, advance, finalize, claim_delivery, complete_delivery;
    unfold mbind, st_bind; by rewrite E.
Qed.

Lemma set_held_wf c s : ledger_wf s → ledger_wf (set_l_held_code c s).
Proof. intros Hs. by apply (same_entries_step s). Qed.

Definition demo_held : ReceiptLedger := set_l_held_code (Some "clock_regressed") demo_finalized.
Lemma demo_held_wf : ledger_wf demo_held.
Proof. exact (set_held_wf _ _ demo_finalized_wf). Qed.

Lemma ledger_hold_is_permanent_witness :
  run_ledger_call demo_reserve (run_ledger_calls demo_calls demo_held)
    = (Raise (ReceiptError "ledger_held"), run_ledger_calls demo_calls demo_held).
Proof.
  assert (H : l_held_code demo_held ≠ None) by discriminate.
  exact (proj2 (ledger_hold_is_permanent demo_held demo_calls demo_reserve demo_held_wf H)).
Defined.
