(* ===== verification/CanonJson.v ===== *)
(** * Canonical JSON (forwarder_json.py)

    [canonical_json] and [tagged_digest]: the RFC 8785 subset encoding whose
    SHA-256 names policies and scope manifests.  A [str] is its code points
    below 256, as everywhere in this development; with [ascii_only] the encoder
    accepts printable ASCII only. *)

From S2P Require Import Prelude PyValue PyJson Sha256.
Local Open Scope string_scope.
Local Open Scope Z_scope.

Definition MAX_JSON_DEPTH : Z := 16.
Definition MAX_JSON_ARRAY_ITEMS : Z := 256.
Definition MAX_JSON_STRING_BYTES : Z := 16384.
Definition MAX_SAFE_INTEGER : Z := 2 ^ 53 - 1.

Definition JSONPolicyError (code : string) : exn := Exn "JSONPolicyError" code.

(** The values the encoder is given; [JVOther] is of any type it rejects. *)
Inductive jvalue :=
| JVNone
| JVBool (b : bool)
| JVInt (z : Z)
| JVStr (s : string)
| JVList (l : list jvalue)
| JVDict (m : list (jvalue * jvalue))
| JVOther.

Definition ord (c : ascii) : Z := Z.of_nat (nat_of_ascii c).

(** [len(value.encode("utf-8"))]: two bytes from U+0080 on. *)
Fixpoint utf8_len (s : string) : Z :=
  match s with
  | EmptyString => 0
  | String c s' => (if ord c <? 128 then 1 else 2) + utf8_len s'
  end.

Definition _check_string (value : string) (ascii_only : bool) (too_long_code : string) (max_bytes : Z)
    : outcome unit :=
  check_that (all_chars (λ c, negb (ord c =? 0)) value) (JSONPolicyError "json_unicode");;
  check_that (negb ascii_only || all_chars (λ c, (32 <=? ord c) && (ord c <=? 126)) value)
    (JSONPolicyError "json_unicode");;
  check_that (utf8_len value <=? max_bytes) (JSONPolicyError too_long_code).

(** [json.dumps(value, ensure_ascii=False).encode("utf-8")]. *)
Definition encode_char (c : ascii) : string :=
  if ord c <? 128 then escape_char c
  else String (ascii_of_nat (Z.to_nat (192 + ord c / 64)))
         (String (ascii_of_nat (Z.to_nat (128 + ord c mod 64))) EmptyString).
Fixpoint encode_chars (s : string) : string :=
  match s with EmptyString => EmptyString | String c s' => encode_char c +:+ encode_chars s' end.
Definition _encode_string (value : string) : string := dquote +:+ encode_chars value +:+ dquote.

(** The members of a dict, its keys checked and encoded, in the order the loop
    meets them. *)
Fixpoint check_keys (m : list (jvalue * jvalue)) (ascii_only : bool) : outcome (list string) :=
  match m with
  | [] => Ret []
  | (JVStr k, _) :: m' =>
      _check_string k ascii_only "json_string_too_long" MAX_JSON_STRING_BYTES;;
      ks ← check_keys m' ascii_only; Ret (k :: ks)
  | _ :: _ => Raise (JSONPolicyError "json_type")
  end.

(** [members.sort(key=...)] is stable and the keys of a dict are distinct. *)
Fixpoint insert_key {A} (kv : string * A) (m : list (string * A)) : list (string * A) :=
  match m with
  | [] => [kv]
  | kv' :: m' => if String.leb kv.1 kv'.1 then kv :: m else kv' :: insert_key kv m'
  end.
Definition sort_keys {A} (m : list (string * A)) : list (string * A) := foldr insert_key [] m.

Fixpoint seq_outcomes {A} (xs : list (outcome A)) : outcome (list A) :=
  match xs with
  | [] => Ret []
  | x :: xs' => a ← x; rest ← seq_outcomes xs'; Ret (a :: rest)
  end.

Fixpoint _canonicalize (value : jvalue) (depth : Z) (ascii_only : bool) : outcome string :=
  match value with
  | JVBool b => Ret (if b then "true" else "false")
  | JVInt z =>
      check_that (Z.abs z <=? MAX_SAFE_INTEGER) (JSONPolicyError "json_number");; Ret (int_repr z)
  | JVNone => Ret "null"
  | JVStr s =>
      _check_string s ascii_only "json_string_too_long" MAX_JSON_STRING_BYTES;;
      Ret (_encode_string s)
  | JVDict m =>
      check_that (depth <=? MAX_JSON_DEPTH) (JSONPolicyError "json_depth");;
      keys ← check_keys m ascii_only;
      parts ← seq_outcomes (map (λ km, body ← km.2; Ret (_encode_string km.1 +:+ ":" +:+ body))
        (sort_keys (zip keys (map (λ kv, _canonicalize kv.2 (depth + 1) ascii_only) m))));
      Ret ("{" +:+ join "," parts +:+ "}")
  | JVList l =>
      check_that (depth <=? MAX_JSON_DEPTH) (JSONPolicyError "json_depth");;
      check_that (Z.of_nat (length l) <=? MAX_JSON_ARRAY_ITEMS) (JSONPolicyError "json_array_too_long");;
      parts ← seq_outcomes (map (λ v, _canonicalize v (depth + 1) ascii_only) l);
      Ret ("[" +:+ join "," parts +:+ "]")
  | JVOther => Raise (JSONPolicyError "json_type")
  end.

Definition canonical_json (value : jvalue) (ascii_only : bool) : outcome string :=
  _canonicalize value 1 ascii_only.

(** [_TAG_PATTERN.fullmatch(tag)]. *)
Definition tag_first : string := "abcdefghijklmnopqrstuvwxyz0123456789".
Definition valid_tag (tag : string) : bool :=
  match tag with
  | EmptyString => false
  | String c t => char_in tag_first c && all_chars (char_in (tag_first +:+ ".-")) t && (str_len t <=? 63)
  end.

Definition nul : string := String (ascii_of_nat 0) EmptyString.

Definition tagged_digest (tag : string) (value : jvalue) : outcome string :=
  check_that (valid_tag tag) (JSONPolicyError "json_argument");;
  body ← canonical_json value true;
  Ret (sha256_hex (tag +:+ nul +:+ body)).

Example canonical_ex :
  canonical_json (JVDict [(JVStr "b", JVList [JVNone; JVBool true; JVInt (-12)]); (JVStr "a", JVStr "x")]) true
  = Ret ("{" +:+ dquote +:+ "a" +:+ dquote +:+ ":" +:+ dquote +:+ "x" +:+ dquote +:+ "," +:+
         dquote +:+ "b" +:+ dquote +:+ ":[null,true,-12]}").
Proof. vm_compute. reflexivity. Qed.
