(* ===== verification/Scope.v ===== *)
(** * Routes, venue policy and scope manifests (first part of forwarder_routes.py)

    The route catalog, the operator's venue policy and the scope manifest a
    trusted store binds to a lease.  A frozen dataclass whose constructor
    validates is a record together with the function that builds it. *)

From S2P Require Import Prelude PyValue PyJson Services Sha256 CanonJson.
Local Open Scope string_scope.
Local Open Scope Z_scope.

(** ** Bounds and tags *)
Definition JIRA_POLICY_SCHEMA : string := "maoi.forwarder.jira-policy.v1".
Definition JIRA_ROUTES_CODE_REVISION : string := "maoi.forwarder.jira-routes.v1".
Definition SCOPE_SCHEMA : string := "maoi.forwarder.scope.v1".
Definition POLICY_DIGEST_TAG : string := "maoi.forwarder.policy.v1".
Definition SCOPE_DIGEST_TAG : string := "maoi.forwarder.scope.v1".
Definition MAX_POLICY_BYTES : Z := 65536.
Definition MAX_MANIFEST_BYTES : Z := 16384.
Definition MAX_SCOPED_ISSUES : Z := 256.
Definition MAX_SEARCH_LABELS : Z := 256.
Definition MAX_SEARCH_TEMPLATES : Z := 8.
Definition MAX_TEMPLATE_BYTES : Z := 8192.
Definition MAX_SEARCH_RESULTS : Z := 100.

Definition JIRA_READABLE_SYSTEM_FIELDS : list string :=
  ["created"; "issuetype"; "labels"; "project"; "resolution"; "resolutiondate"; "status"; "summary";
   "updated"].

Definition RouteConfigError (code : string) : exn := Exn "RouteConfigError" code.

(** ** Grammar *)
Definition LOWER : string := "abcdefghijklmnopqrstuvwxyz".
Definition UPPER : string := "ABCDEFGHIJKLMNOPQRSTUVWXYZ".
Definition DIGITS : string := "0123456789".
Definition DIGITS1 : string := "123456789".

(** [first] one character of a class, then up to [n] of another. *)
Definition shaped (first rest : string) (lo hi : Z) (s : string) : bool :=
  match s with
  | EmptyString => false
  | String c s' =>
      char_in first c && all_chars (char_in rest) s' && (lo <=? str_len s') && (str_len s' <=? hi)
  end.

Definition _SAFE_ID_RE (s : string) : bool :=
  (1 <=? str_len s) && (str_len s <=? 128) && all_chars (char_in (LETTERS_DIGITS +:+ "._-")) s.
Definition _NUMERIC_ID_RE : string → bool := shaped DIGITS1 DIGITS 0 17.
Definition _PROJECT_KEY_RE : string → bool := shaped UPPER (UPPER +:+ DIGITS +:+ "_") 1 9.
Definition _STATUS_CATEGORY_KEY_RE : string → bool := shaped LOWER (LOWER +:+ DIGITS +:+ "-") 0 31.
Definition _SEARCH_LABEL_RE : string → bool :=
  shaped (LOWER +:+ DIGITS) (LOWER +:+ DIGITS +:+ "._-") 0 127.
Definition _HEX64_RE (s : string) : bool := (str_len s =? 64) && all_chars (char_in HEX_DIGITS) s.

(** [[A-Z][A-Z0-9_]{1,9}-[1-9][0-9]{0,17}]: a dash separates, and neither side
    has one. *)
Definition _ISSUE_KEY_RE (s : string) : bool :=
  match String.index 0 "-" s with
  | Some i => _PROJECT_KEY_RE (String.substring 0 i s) &&
              _NUMERIC_ID_RE (String.substring (S i) (String.length s - S i) s)
  | None => false
  end.

Definition _printable_ascii (text : string) : bool := all_chars (λ c, (32 <=? ord c) && (ord c <=? 126)) text.

(** [value[i] < value[i + 1]] for all [i]. *)
Definition str_ltb (a b : string) : bool := String.ltb a b.
Fixpoint ascending {A} (lt : A → A → bool) (xs : list A) : bool :=
  match xs with
  | x :: (y :: _) as xs' => lt x y && ascending lt xs'
  | _ => true
  end.

(** A tuple of values: [None] stands for a value that is not a tuple. *)
Definition str_items (value : option (list pyval)) : option (list string) :=
  match value with
  | None => None
  | Some vs => mapM (λ v, match v with VStr s => Some s | _ => None end) vs
  end.

Definition _valid_tuple (value : option (list pyval)) (min_len max_len : Z) (item_ok : string → bool) : bool :=
  match str_items value with
  | None => false
  | Some items =>
      (min_len <=? Z.of_nat (length items)) && (Z.of_nat (length items) <=? max_len) &&
      forallb item_ok items && ascending str_ltb items
  end.

Definition _valid_hex64 (value : pyval) : bool := match value with VStr s => _HEX64_RE s | _ => false end.

(** ** Route catalog *)
Record RouteStatus := mkRouteStatus {
  route_id : string; rt_service : string; rt_state : string; rt_optional : bool; spec_named : bool;
  missing_inputs : list string;
}.

Definition _ROUTE_DEFINITIONS : list RouteStatus :=
  [mkRouteStatus "jira.issue.get" "jira" "partial" false true
     ["effect_identity_binding"; "tenant_field_ids"];
   mkRouteStatus "jira.search" "jira" "partial" false true
     ["continuation_tracking"; "tenant_field_ids"];
   mkRouteStatus "jira.issue.create" "jira" "unavailable" false true
     ["adf_profile"; "dispatch_permit"; "effect_identity_binding"; "report_attempt_budget";
      "tenant_field_ids"];
   mkRouteStatus "jira.issue.update" "jira" "unavailable" false true
     ["dispatch_permit"; "membership_state"; "readback_seam"; "tenant_field_ids"];
   mkRouteStatus "jira.comment.add" "jira" "unavailable" false true
     ["adf_profile"; "dispatch_permit"; "readback_seam"; "report_attempt_budget"];
   mkRouteStatus "jira.comments.list" "jira" "unavailable" false true
     ["continuation_tracking"; "report_history_scope"; "response_projection"];
   mkRouteStatus "jira.comment.get" "jira" "unavailable" false true
     ["effect_identity_binding"; "readback_seam"; "response_projection"];
   mkRouteStatus "jira.transition" "jira" "unavailable" false true
     ["dispatch_permit"; "readback_seam"; "tenant_workflow_ids"];
   mkRouteStatus "reference.read" "confluence" "unavailable" false true
     ["delivery_receipt_seam"; "response_projection"; "tenant_space_ids"];
   mkRouteStatus "draft.create" "confluence" "unavailable" false true
     ["dispatch_permit"; "draft_mapping"; "tenant_semantics"; "tenant_space_ids"];
   mkRouteStatus "draft.read" "confluence" "unavailable" false true
     ["delivery_receipt_seam"; "draft_mapping"; "response_projection"; "tenant_semantics"];
   mkRouteStatus "draft.update" "confluence" "unavailable" false true
     ["delivery_receipt_seam"; "dispatch_permit"; "draft_mapping"; "tenant_semantics"];
   mkRouteStatus "pod_list" "kubernetes" "unavailable" false true
     ["continuation_tracking"; "eyes_schemas"; "response_projection"];
   mkRouteStatus "pod_status" "kubernetes" "unavailable" false true
     ["eyes_schemas"; "handle_binding"; "response_projection"];
   mkRouteStatus "pod_events" "kubernetes" "unavailable" false true
     ["event_selector_support"; "eyes_schemas"; "response_projection"];
   mkRouteStatus "service_endpoints" "kubernetes" "unavailable" false true
     ["continuation_tracking"; "eyes_schemas"; "response_projection"];
   mkRouteStatus "metrics_instant" "grafana" "unavailable" false true
     ["datasource_mapping"; "eyes_schemas"; "query_templates"; "rehearsal_window"];
   mkRouteStatus "metrics_range" "grafana" "unavailable" false true
     ["datasource_mapping"; "eyes_schemas"; "query_templates"; "rehearsal_window"];
   mkRouteStatus "logs_range" "grafana" "unavailable" false true
     ["datasource_mapping"; "eyes_schemas"; "query_templates"; "rehearsal_window";
      "response_projection"];
   mkRouteStatus "traces_search" "grafana" "unavailable" true true
     ["datasource_mapping"; "eyes_schemas"; "query_templates"; "rehearsal_window"];
   mkRouteStatus "trace_get" "grafana" "unavailable" true true
     ["datasource_mapping"; "eyes_schemas"; "handle_binding"];
   mkRouteStatus "eyes.run_telemetry_query" "grafana" "unavailable" false true
     ["eyes_schemas"; "operation_counters"; "query_templates"; "rehearsal_window"];
   mkRouteStatus "eyes.change_query" "grafana" "unavailable" false true
     ["eyes_schemas"; "query_templates"; "rehearsal_window"];
   mkRouteStatus "grafana_health" "grafana" "unavailable" false true ["health_route"];
   mkRouteStatus "anthropic.messages" "anthropic" "unavailable" false false
     ["client_profile"; "dispatch_permit"; "exposure_reservation"; "request_envelope";
      "sse_qualification"]].

(** The definitions list their missing inputs in ascending order, so
    [tuple(sorted(missing_inputs))] leaves them as they are. *)
Definition ROUTE_CATALOG : dict string RouteStatus :=
  foldl (λ d r, dict_set d (route_id r) r) [] _ROUTE_DEFINITIONS.

Example missing_inputs_sorted :
  forallb (λ r, ascending str_ltb (missing_inputs r)) _ROUTE_DEFINITIONS = true.
Proof. vm_compute. reflexivity. Qed.

Definition SPEC_ROUTE_IDS : list string :=
  map fst (List.filter (λ kv, spec_named kv.2) ROUTE_CATALOG).
Definition LOCAL_ROUTE_IDS : list string :=
  map fst (List.filter (λ kv, negb (spec_named kv.2)) ROUTE_CATALOG).
Definition OPTIONAL_ROUTE_IDS : list string :=
  map fst (List.filter (λ kv, rt_optional kv.2) ROUTE_CATALOG).
Definition MATCHABLE_ROUTE_IDS : list string := ["jira.issue.get"; "jira.search"].

Definition policy_readiness_facts : dict string bool :=
  foldl (λ facts status,
    if negb (rt_optional status) && negb (bool_decide (rt_state status = "enabled"))
    then dict_set facts (rt_service status) false else facts)
    (map (λ kv, (kv.1, true)) SERVICE_PROFILES) (dict_values ROUTE_CATALOG).

(** ** Operator venue policy *)
Fixpoint count_char (c : ascii) (s : string) : Z :=
  match s with
  | EmptyString => 0
  | String c' s' => (if bool_decide (c = c') then 1 else 0) + count_char c s'
  end.

Definition _valid_template (text : string) : bool :=
  _printable_ascii text && (str_len text <=? MAX_TEMPLATE_BYTES) &&
  (count_char "{"%char text =? 1) && (count_char "}"%char text =? 1) &&
  match String.index 0 (dquote +:+ "{label}" +:+ dquote) text with Some _ => true | None => false end.

Definition _valid_field_tuple (value : option (list pyval)) (required : list string) : bool :=
  _valid_tuple value 1 (Z.of_nat (length JIRA_READABLE_SYSTEM_FIELDS))
    (λ item, str_in item JIRA_READABLE_SYSTEM_FIELDS) &&
  match str_items value with
  | Some items => forallb (λ r, str_in r items) required
  | None => false
  end.

Record JiraVenuePolicy := mkJiraVenuePolicy {
  jp_revision : string; jp_project_id : string; jp_project_key : string; jp_issue_type_id : string;
  jp_issue_fields : list string; jp_search_fields : list string; jp_search_templates : list string;
  jp_search_max_results : Z; jp_open_status_category_keys : list string;
  jp_canonical : string; jp_digest : string;
}.

Definition str_arg (ok : string → bool) (v : pyval) : bool := match v with VStr s => ok s | _ => false end.
Definition str_of (v : pyval) : string := match v with VStr s => s | _ => "" end.
Definition items_of (v : option (list pyval)) : list string := default [] (str_items v).

Definition jstrs (xs : list string) : jvalue := JVList (map JVStr xs).
Definition jdict (m : list (string * jvalue)) : jvalue := JVDict (map (λ kv, (JVStr kv.1, kv.2)) m).

(** The constructor with its [__post_init__]. *)
Definition build_venue_policy (revision project_id project_key issue_type_id : pyval)
    (issue_fields search_fields search_templates : option (list pyval)) (search_max_results : pyval)
    (open_status_category_keys : option (list pyval)) : outcome JiraVenuePolicy :=
  let valid :=
    str_arg _SAFE_ID_RE revision && str_arg _NUMERIC_ID_RE project_id &&
    str_arg _NUMERIC_ID_RE issue_type_id && str_arg _PROJECT_KEY_RE project_key &&
    _valid_field_tuple issue_fields ["issuetype"; "project"] &&
    _valid_field_tuple search_fields ["issuetype"; "labels"; "project"; "status"] &&
    _valid_tuple search_templates 1 MAX_SEARCH_TEMPLATES _valid_template &&
    match search_max_results with VInt n => (1 <=? n) && (n <=? MAX_SEARCH_RESULTS) | _ => false end &&
    _valid_tuple open_status_category_keys 1 4 _STATUS_CATEGORY_KEY_RE in
  check_that valid (RouteConfigError "policy_invalid");;
  let max_results := match search_max_results with VInt n => n | _ => 0 end in
  let document := jdict
    [("code_revision", JVStr JIRA_ROUTES_CODE_REVISION); ("issue_fields", jstrs (items_of issue_fields));
     ("issue_type_id", JVStr (str_of issue_type_id));
     ("open_status_category_keys", jstrs (items_of open_status_category_keys));
     ("project_id", JVStr (str_of project_id)); ("project_key", JVStr (str_of project_key));
     ("revision", JVStr (str_of revision)); ("schema", JVStr JIRA_POLICY_SCHEMA);
     ("search_fields", jstrs (items_of search_fields)); ("search_max_results", JVInt max_results);
     ("search_templates", jstrs (items_of search_templates))] in
  canonical ← canonical_json document true;
  check_that (str_len canonical <=? MAX_POLICY_BYTES) (RouteConfigError "policy_too_large");;
  digest ← tagged_digest POLICY_DIGEST_TAG document;
  Ret (mkJiraVenuePolicy (str_of revision) (str_of project_id) (str_of project_key)
         (str_of issue_type_id) (items_of issue_fields) (items_of search_fields)
         (items_of search_templates) max_results (items_of open_status_category_keys) canonical digest).

(** ** Scope manifest *)
Record ScopedIssue := mkScopedIssue { issue_id : string; issue_key : string }.

Definition build_scoped_issue (id key : pyval) : outcome ScopedIssue :=
  check_that (str_arg _NUMERIC_ID_RE id && str_arg _ISSUE_KEY_RE key) (RouteConfigError "manifest_invalid");;
  Ret (mkScopedIssue (str_of id) (str_of key)).

Record JiraScope := mkJiraScope { sc_issues : list ScopedIssue; sc_search_labels : list string }.

(** [int(s)] of decimal digits. *)
Fixpoint int_of (acc : Z) (s : string) : Z :=
  match s with EmptyString => acc | String c s' => int_of (10 * acc + (ord c - 48)) s' end.

Definition build_jira_scope (issues : list ScopedIssue) (search_labels : option (list pyval)) : outcome JiraScope :=
  check_that (Z.of_nat (length issues) <=? MAX_SCOPED_ISSUES) (RouteConfigError "manifest_invalid");;
  let ids := map issue_id issues in
  let keys := map issue_key issues in
  check_that (bool_decide (NoDup ids) && bool_decide (NoDup keys)) (RouteConfigError "manifest_invalid");;
  check_that (ascending (λ a b, int_of 0 a <? int_of 0 b) ids) (RouteConfigError "manifest_invalid");;
  check_that (_valid_tuple search_labels 0 MAX_SEARCH_LABELS _SEARCH_LABEL_RE)
    (RouteConfigError "manifest_invalid");;
  Ret (mkJiraScope issues (items_of search_labels)).

Record ScopeManifest := mkScopeManifest {
  sm_service : string; sm_run_id : string; sm_attempt_id : string; sm_rehearsal_id : string;
  sm_revision : string; sm_routes : list string; sm_policy_digest : string; sm_scope : JiraScope;
  sm_canonical : string; sm_digest : string;
}.

Definition non_empty {A} (xs : list A) : bool := match xs with [] => false | _ => true end.

Definition manifest_document (service run_id attempt_id rehearsal_id revision : string)
    (routes : list string) (policy_digest : string) (scope : JiraScope) : jvalue :=
  jdict [("attempt_id", JVStr attempt_id); ("policy_digest", JVStr policy_digest);
         ("rehearsal_id", JVStr rehearsal_id); ("revision", JVStr revision); ("routes", jstrs routes);
         ("run_id", JVStr run_id); ("schema", JVStr SCOPE_SCHEMA);
         ("scope", jdict
           [("issues", JVList (map (λ i, jdict [("id", JVStr (issue_id i)); ("key", JVStr (issue_key i))])
                                   (sc_issues scope)));
            ("search_labels", jstrs (sc_search_labels scope))]);
         ("service", JVStr service)].

Definition build_scope_manifest (service run_id attempt_id rehearsal_id revision : pyval)
    (routes : option (list pyval)) (policy_digest : pyval) (scope : JiraScope) : outcome ScopeManifest :=
  check_that (str_arg (String.eqb "jira") service) (RouteConfigError "manifest_invalid");;
  check_that (forallb (str_arg _SAFE_ID_RE) [run_id; attempt_id; rehearsal_id; revision])
    (RouteConfigError "manifest_invalid");;
  check_that (_valid_tuple routes 1 2 (λ item, str_in item MATCHABLE_ROUTE_IDS))
    (RouteConfigError "manifest_invalid");;
  check_that (_valid_hex64 policy_digest) (RouteConfigError "manifest_invalid");;
  let rs := items_of routes in
  check_that (Bool.eqb (non_empty (sc_issues scope)) (str_in "jira.issue.get" rs))
    (RouteConfigError "manifest_invalid");;
  check_that (Bool.eqb (non_empty (sc_search_labels scope)) (str_in "jira.search" rs))
    (RouteConfigError "manifest_invalid");;
  let document := manifest_document (str_of service) (str_of run_id) (str_of attempt_id)
                    (str_of rehearsal_id) (str_of revision) rs (str_of policy_digest) scope in
  canonical ← canonical_json document true;
  check_that (str_len canonical <=? MAX_MANIFEST_BYTES) (RouteConfigError "manifest_too_large");;
  digest ← tagged_digest SCOPE_DIGEST_TAG document;
  Ret (mkScopeManifest (str_of service) (str_of run_id) (str_of attempt_id) (str_of rehearsal_id)
         (str_of revision) rs (str_of policy_digest) scope canonical digest).

(** [manifest] is an exact [ScopeManifest] and the other arguments are strings;
    any other argument is a [TypeError]. *)
Definition require_manifest_binding (manifest : option ScopeManifest)
    (service run_id attempt_id scope_digest : pyval) : outcome unit :=
  match manifest, service, run_id, attempt_id, scope_digest with
  | Some m, VStr service, VStr run_id, VStr attempt_id, VStr scope_digest =>
      check_that (bool_decide (sm_service m = service) && bool_decide (sm_run_id m = run_id) &&
                  bool_decide (sm_attempt_id m = attempt_id) && _HEX64_RE scope_digest &&
                  bool_decide (sm_digest m = scope_digest))
        (RouteConfigError "manifest_binding_mismatch")
  | _, _, _, _, _ =>
      Raise (Exn "TypeError" "require_manifest_binding requires exact str/ScopeManifest types")
  end.

(** ** Routed requests *)
Record UpstreamRequest := mkUpstreamRequest {
  ur_method : string; ur_target : string; ur_accept : string; ur_content_type : option string;
  ur_body : string;
}.

Record RouteSelection := mkRouteSelection {
  sel_issue_id : option string; sel_issue_key : option string; sel_search_label : option string;
  sel_max_results : option Z;
}.

Record RoutedRequest := mkRoutedRequest {
  rq_route_id : string; rq_service : string; rq_scope_digest : string; rq_policy_digest : string;
  rq_request_digest : string; rq_requires_permit : bool; rq_upstream : UpstreamRequest;
  rq_selection : RouteSelection;
}.

Definition demo_policy_digest : string :=
  "0123456789abcdef0123456789abcdef0123456789abcdef0123456789abcdef".
Definition demo_manifest : outcome ScopeManifest :=
  scope ← (i ← build_scoped_issue (VStr "10001") (VStr "OPS-1"); build_jira_scope [i] (Some []));
  build_scope_manifest (VStr "jira") (VStr "run") (VStr "att") (VStr "reh") (VStr "r1")
    (Some [VStr "jira.issue.get"]) (VStr demo_policy_digest) scope.
Example demo_manifest_builds : returned demo_manifest = true.
Proof. vm_compute. reflexivity. Qed.
