(* ===== verification/Dispatch.v ===== *)
(** * The dispatch gate (forwarder_dispatch.py)

    [DispatchGate] holds the registry and the ledger as fields: a call on one of
    them is [on_registry] or [on_ledger].  Scope entries, handles and admissions
    are authenticated by identity; a caller's token is a [handle] (an identity, a
    class and a [receipt_id]) and a caller's scope entry is its identity and
    [lease_id].  An abort callable is whether it raises; the calls the gate made
    are listed in [g_aborts_called].  Every public method runs under the lock
    [G], so each is one step; the abort callables run after it, outside [G]. *)

From S2P Require Import Prelude PyValue PyJson Services Sha256 HttpResponse CanonJson Scope.
From S2P Require Leases Receipts.
Import Leases (LeaseRegistry, LeaseReceipt, LeaseGrant, LeaseState).
Import Receipts (ReceiptLedger, ForwarderReceipt, handle, mkHandle, h_ref, h_class, h_receipt_id,
  response_arg, RNone, RForeign, RResponse).
Local Open Scope string_scope.
Local Open Scope Z_scope.

(** ** Constants *)
Definition MAX_SCOPE_ENTRIES : Z := 1024.
Definition MAX_SCOPE_BYTES : Z := 2 * 1024 * 1024.
Definition SCOPE_ENTRY_OVERHEAD_BYTES : Z := 1024.
Definition STORE_RETENTION_SECONDS : float := float_lit 310 0.
Definition MAX_OPEN_DISPATCHES : Z := 32.
Definition CONNECT_SECONDS : float := float_lit 5 0.
Definition WRITE_SECONDS : float := float_lit 10 0.
Definition RESPONSE_MARGIN_SECONDS : float := float_lit 1 0.
Definition MIN_ADMISSION_SECONDS : float := float_lit 1 0.
Definition MIN_WRITE_SECONDS : float := float_lit 1 (-1).
Definition DENIAL_REASONS : list string :=
  ["request_rejected"; "lease_denied"; "route_denied"; "permit_denied"; "deadline"].
Definition _UNCERTAIN_DISPATCH_STATES : list string := ["DISPATCHED_UNKNOWN"; "PARTIAL"].

Definition DispatchError (code : string) : exn := Exn "DispatchError" code.
Definition TypeError (message : string) : exn := Exn "TypeError" message.

Definition _map_reserve_error (code : string) : string :=
  if bool_decide (code = "invalid_deadline") then "deadline_expired" else "receipt_unavailable".
Definition _map_transition_error (code : string) : string :=
  if bool_decide (code = "deadline_expired") then "deadline_expired" else "receipt_unavailable".

Definition _SENTINEL_CHARS : string := LETTERS_DIGITS +:+ "-_".
Definition _SAFE_ID_CHARS : string := LETTERS_DIGITS +:+ "-_.".
Definition _valid_sentinel_shape (value : pyval) : bool :=
  match value with
  | VStr s => (str_len s =? 43) && all_chars (char_in _SENTINEL_CHARS) s
  | _ => false
  end.
Definition _valid_lease_id_shape (value : string) : bool :=
  (1 <=? str_len value) && (str_len value <=? 128) && all_chars (char_in _SAFE_ID_CHARS) value.

(** ** Data *)
Record ScopeEntry := mkScopeEntry {
  se_ref : ref; se_lease_id : string; se_run_id : string; se_attempt_id : string; se_service : string;
  se_generation : string; se_scope_digest : string; se_expires_at : float; se_installed_at : float;
  se_manifest : ScopeManifest;
}.

(** A caller's scope entry; [None] where a method is given any other object. *)
Record entry_token := mkEntryToken { et_ref : ref; et_lease_id : string }.
Definition token_of (e : ScopeEntry) : entry_token := mkEntryToken (se_ref e) (se_lease_id e).

Record Admission := mkAdmission {
  ad_ref : ref; ad_receipt_id : string; ad_lease_id : string; ad_service : string; ad_route_id : string;
  ad_admitted_at : float; ad_deadline : float; ad_exchange_deadline : float; ad_connect_deadline : float;
}.

Record AdmissionOutcome := mkAdmissionOutcome {
  ao_code : string; ao_admission : option Admission; ao_denial : option ForwarderReceipt;
}.
Record WriteOutcome := mkWriteOutcome {
  wo_code : string; wo_write_deadline : option float; wo_denial : option ForwarderReceipt;
}.
Record Closeout := mkCloseout {
  co_lease_id : string; co_lease_state : string; co_closeout_state : string; co_pending : Z;
  co_in_flight : Z; co_overdue : Z; co_drain_deadline : option float; co_uncertain : Z;
  co_observed_at : float;
}.
Record ShutdownReport := mkShutdownReport {
  sr_in_flight : Z; sr_overdue : Z; sr_aborted : Z; sr_abort_failures : Z;
}.

Inductive flight_phase := PReserved | PAdmitted | PWriting.
#[export] Instance flight_phase_eq_dec : EqDecision flight_phase.
Proof. solve_decision. Defined.
Definition phase_name (p : flight_phase) : string :=
  match p with PReserved => "reserved" | PAdmitted => "admitted" | PWriting => "writing" end.

Inductive gate_state := GReady | GClosed | GHeld.
#[export] Instance gate_state_eq_dec : EqDecision gate_state.
Proof. solve_decision. Defined.
Definition gate_state_name (g : gate_state) : string :=
  match g with GReady => "ready" | GClosed => "closed" | GHeld => "held" end.

Record abort_call := mkAbort { ab_id : nat; ab_raises : bool }.

Record _Flight := mkFlight {
  f_handle : ref;
  f_receipt_id : string;
  f_reservation : handle;
  f_lease_id : string;
  f_service : string;
  f_route_id : string;
  f_generation : string;
  f_scope_digest : string;
  f_index : option string;
  f_requires_permit : bool;
  f_deadline : float;
  f_exchange_deadline : float;
  f_phase : flight_phase;
  f_overdue : bool;
  f_admission : option ref;
  f_abort : option abort_call;
  f_abort_fired : bool;
}.

Definition set_f_overdue (s : _Flight) : _Flight :=
  mkFlight (f_handle s) (f_receipt_id s) (f_reservation s) (f_lease_id s) (f_service s)
    (f_route_id s) (f_generation s) (f_scope_digest s) (f_index s) (f_requires_permit s)
    (f_deadline s) (f_exchange_deadline s) (f_phase s) true (f_admission s) (f_abort s)
    (f_abort_fired s).
Definition set_f_abort_fired (s : _Flight) : _Flight :=
  mkFlight (f_handle s) (f_receipt_id s) (f_reservation s) (f_lease_id s) (f_service s)
    (f_route_id s) (f_generation s) (f_scope_digest s) (f_index s) (f_requires_permit s)
    (f_deadline s) (f_exchange_deadline s) (f_phase s) (f_overdue s) (f_admission s) (f_abort s)
    true.
Definition set_f_abort (abort : abort_call) (s : _Flight) : _Flight :=
  mkFlight (f_handle s) (f_receipt_id s) (f_reservation s) (f_lease_id s) (f_service s)
    (f_route_id s) (f_generation s) (f_scope_digest s) (f_index s) (f_requires_permit s)
    (f_deadline s) (f_exchange_deadline s) (f_phase s) (f_overdue s) (f_admission s)
    (Some abort) (f_abort_fired s).
Definition set_f_admitted (admission : ref) (s : _Flight) : _Flight :=
  mkFlight (f_handle s) (f_receipt_id s) (f_reservation s) (f_lease_id s) (f_service s)
    (f_route_id s) (f_generation s) (f_scope_digest s) (f_index s) (f_requires_permit s)
    (f_deadline s) (f_exchange_deadline s) PAdmitted (f_overdue s) (Some admission) (f_abort s)
    (f_abort_fired s).
Definition set_f_writing (s : _Flight) : _Flight :=
  mkFlight (f_handle s) (f_receipt_id s) (f_reservation s) (f_lease_id s) (f_service s)
    (f_route_id s) (f_generation s) (f_scope_digest s) (f_index s) (f_requires_permit s)
    (f_deadline s) (f_exchange_deadline s) PWriting (f_overdue s) (f_admission s) (f_abort s)
    (f_abort_fired s).

Record DispatchGate := mkDispatchGate {
  g_registry : LeaseRegistry;
  g_ledger : ReceiptLedger;
  g_clock : nat → reading;
  g_calls : nat;
  g_generation : string;
  g_index_key : string;
  g_refs : ref;
  g_scope_by_index : dict string ScopeEntry;
  g_scope_by_lease : dict string ScopeEntry;
  g_scope_index_by_lease : dict string string;
  g_scope_charge : dict string Z;
  g_scope_bytes : Z;
  g_flights : dict string _Flight;
  g_gate_state : gate_state;
  g_hold_code : option string;
  g_closed : bool;
  g_last_now : option float;
  g_abort_queue : list abort_call;
  g_abort_failures : Z;
  g_aborts_called : list abort_call;
}.

Definition set_g_registry (v : LeaseRegistry) (s : DispatchGate) : DispatchGate :=
  mkDispatchGate v (g_ledger s) (g_clock s) (g_calls s) (g_generation s) (g_index_key s)
    (g_refs s) (g_scope_by_index s) (g_scope_by_lease s) (g_scope_index_by_lease s)
    (g_scope_charge s) (g_scope_bytes s) (g_flights s) (g_gate_state s) (g_hold_code s)
    (g_closed s) (g_last_now s) (g_abort_queue s) (g_abort_failures s) (g_aborts_called s).
Definition set_g_ledger (v : ReceiptLedger) (s : DispatchGate) : DispatchGate :=
  mkDispatchGate (g_registry s) v (g_clock s) (g_calls s) (g_generation s) (g_index_key s)
    (g_refs s) (g_scope_by_index s) (g_scope_by_lease s) (g_scope_index_by_lease s)
    (g_scope_charge s) (g_scope_bytes s) (g_flights s) (g_gate_state s) (g_hold_code s)
    (g_closed s) (g_last_now s) (g_abort_queue s) (g_abort_failures s) (g_aborts_called s).
Definition set_g_calls (v : nat) (s : DispatchGate) : DispatchGate :=
  mkDispatchGate (g_registry s) (g_ledger s) (g_clock s) v (g_generation s) (g_index_key s)
    (g_refs s) (g_scope_by_index s) (g_scope_by_lease s) (g_scope_index_by_lease s)
    (g_scope_charge s) (g_scope_bytes s) (g_flights s) (g_gate_state s) (g_hold_code s)
    (g_closed s) (g_last_now s) (g_abort_queue s) (g_abort_failures s) (g_aborts_called s).
Definition set_g_refs (v : ref) (s : DispatchGate) : DispatchGate :=
  mkDispatchGate (g_registry s) (g_ledger s) (g_clock s) (g_calls s) (g_generation s)
    (g_index_key s) v (g_scope_by_index s) (g_scope_by_lease s) (g_scope_index_by_lease s)
    (g_scope_charge s) (g_scope_bytes s) (g_flights s) (g_gate_state s) (g_hold_code s)
    (g_closed s) (g_last_now s) (g_abort_queue s) (g_abort_failures s) (g_aborts_called s).
Definition set_g_scope_by_index (v : dict string ScopeEntry) (s : DispatchGate) : DispatchGate :=
  mkDispatchGate (g_registry s) (g_ledger s) (g_clock s) (g_calls s) (g_generation s)
    (g_index_key s) (g_refs s) v (g_scope_by_lease s) (g_scope_index_by_lease s)
    (g_scope_charge s) (g_scope_bytes s) (g_flights s) (g_gate_state s) (g_hold_code s)
    (g_closed s) (g_last_now s) (g_abort_queue s) (g_abort_failures s) (g_aborts_called s).
Definition set_g_scope_by_lease (v : dict string ScopeEntry) (s : DispatchGate) : DispatchGate :=
  mkDispatchGate (g_registry s) (g_ledger s) (g_clock s) (g_calls s) (g_generation s)
    (g_index_key s) (g_refs s) (g_scope_by_index s) v (g_scope_index_by_lease s)
    (g_scope_charge s) (g_scope_bytes s) (g_flights s) (g_gate_state s) (g_hold_code s)
    (g_closed s) (g_last_now s) (g_abort_queue s) (g_abort_failures s) (g_aborts_called s).
Definition set_g_scope_index_by_lease (v : dict string string) (s : DispatchGate) : DispatchGate :=
  mkDispatchGate (g_registry s) (g_ledger s) (g_clock s) (g_calls s) (g_generation s)
    (g_index_key s) (g_refs s) (g_scope_by_index s) (g_scope_by_lease s) v (g_scope_charge s)
    (g_scope_bytes s) (g_flights s) (g_gate_state s) (g_hold_code s) (g_closed s) (g_last_now s)
    (g_abort_queue s) (g_abort_failures s) (g_aborts_called s).
Definition set_g_scope_charge (v : dict string Z) (s : DispatchGate) : DispatchGate :=
  mkDispatchGate (g_registry s) (g_ledger s) (g_clock s) (g_calls s) (g_generation s)
    (g_index_key s) (g_refs s) (g_scope_by_index s) (g_scope_by_lease s)
    (g_scope_index_by_lease s) v (g_scope_bytes s) (g_flights s) (g_gate_state s)
    (g_hold_code s) (g_closed s) (g_last_now s) (g_abort_queue s) (g_abort_failures s)
    (g_aborts_called s).
Definition set_g_scope_bytes (v : Z) (s : DispatchGate) : DispatchGate :=
  mkDispatchGate (g_registry s) (g_ledger s) (g_clock s) (g_calls s) (g_generation s)
    (g_index_key s) (g_refs s) (g_scope_by_index s) (g_scope_by_lease s)
    (g_scope_index_by_lease s) (g_scope_charge s) v (g_flights s) (g_gate_state s)
    (g_hold_code s) (g_closed s) (g_last_now s) (g_abort_queue s) (g_abort_failures s)
    (g_aborts_called s).
Definition set_g_flights (v : dict string _Flight) (s : DispatchGate) : DispatchGate :=
  mkDispatchGate (g_registry s) (g_ledger s) (g_clock s) (g_calls s) (g_generation s)
    (g_index_key s) (g_refs s) (g_scope_by_index s) (g_scope_by_lease s)
    (g_scope_index_by_lease s) (g_scope_charge s) (g_scope_bytes s) v (g_gate_state s)
    (g_hold_code s) (g_closed s) (g_last_now s) (g_abort_queue s) (g_abort_failures s)
    (g_aborts_called s).
Definition set_g_gate_state (v : gate_state) (s : DispatchGate) : DispatchGate :=
  mkDispatchGate (g_registry s) (g_ledger s) (g_clock s) (g_calls s) (g_generation s)
    (g_index_key s) (g_refs s) (g_scope_by_index s) (g_scope_by_lease s)
    (g_scope_index_by_lease s) (g_scope_charge s) (g_scope_bytes s) (g_flights s) v
    (g_hold_code s) (g_closed s) (g_last_now s) (g_abort_queue s) (g_abort_failures s)
    (g_aborts_called s).
Definition set_g_hold_code (v : option string) (s : DispatchGate) : DispatchGate :=
  mkDispatchGate (g_registry s) (g_ledger s) (g_clock s) (g_calls s) (g_generation s)
    (g_index_key s) (g_refs s) (g_scope_by_index s) (g_scope_by_lease s)
    (g_scope_index_by_lease s) (g_scope_charge s) (g_scope_bytes s) (g_flights s)
    (g_gate_state s) v (g_closed s) (g_last_now s) (g_abort_queue s) (g_abort_failures s)
    (g_aborts_called s).
Definition set_g_closed (v : bool) (s : DispatchGate) : DispatchGate :=
  mkDispatchGate (g_registry s) (g_ledger s) (g_clock s) (g_calls s) (g_generation s)
    (g_index_key s) (g_refs s) (g_scope_by_index s) (g_scope_by_lease s)
    (g_scope_index_by_lease s) (g_scope_charge s) (g_scope_bytes s) (g_flights s)
    (g_gate_state s) (g_hold_code s) v (g_last_now s) (g_abort_queue s) (g_abort_failures s)
    (g_aborts_called s).
Definition set_g_last_now (v : option float) (s : DispatchGate) : DispatchGate :=
  mkDispatchGate (g_registry s) (g_ledger s) (g_clock s) (g_calls s) (g_generation s)
    (g_index_key s) (g_refs s) (g_scope_by_index s) (g_scope_by_lease s)
    (g_scope_index_by_lease s) (g_scope_charge s) (g_scope_bytes s) (g_flights s)
    (g_gate_state s) (g_hold_code s) (g_closed s) v (g_abort_queue s) (g_abort_failures s)
    (g_aborts_called s).
Definition set_g_abort_queue (v : list abort_call) (s : DispatchGate) : DispatchGate :=
  mkDispatchGate (g_registry s) (g_ledger s) (g_clock s) (g_calls s) (g_generation s)
    (g_index_key s) (g_refs s) (g_scope_by_index s) (g_scope_by_lease s)
    (g_scope_index_by_lease s) (g_scope_charge s) (g_scope_bytes s) (g_flights s)
    (g_gate_state s) (g_hold_code s) (g_closed s) (g_last_now s) v (g_abort_failures s)
    (g_aborts_called s).
Definition set_g_abort_failures (v : Z) (s : DispatchGate) : DispatchGate :=
  mkDispatchGate (g_registry s) (g_ledger s) (g_clock s) (g_calls s) (g_generation s)
    (g_index_key s) (g_refs s) (g_scope_by_index s) (g_scope_by_lease s)
    (g_scope_index_by_lease s) (g_scope_charge s) (g_scope_bytes s) (g_flights s)
    (g_gate_state s) (g_hold_code s) (g_closed s) (g_last_now s) (g_abort_queue s) v
    (g_aborts_called s).
Definition set_g_aborts_called (v : list abort_call) (s : DispatchGate) : DispatchGate :=
  mkDispatchGate (g_registry s) (g_ledger s) (g_clock s) (g_calls s) (g_generation s)
    (g_index_key s) (g_refs s) (g_scope_by_index s) (g_scope_by_lease s)
    (g_scope_index_by_lease s) (g_scope_charge s) (g_scope_bytes s) (g_flights s)
    (g_gate_state s) (g_hold_code s) (g_closed s) (g_last_now s) (g_abort_queue s)
    (g_abort_failures s) v.

(** The constructor, for a registry and a ledger no gate has claimed. *)
Definition new_gate (registry : LeaseRegistry) (ledger : ReceiptLedger) (clock : nat → reading)
    (index_key : string) (claimed : bool) : outcome DispatchGate :=
  check_that (bool_decide (Receipts.l_generation ledger = Leases.r_generation registry))
    (DispatchError "generation_mismatch");;
  check_that (negb claimed) (DispatchError "authority_claimed");;
  Ret (mkDispatchGate registry ledger clock 0%nat (Leases.r_generation registry) index_key 0%nat [] [] [] [] 0
         [] GReady None false None [] 0 []).

(** Calls on the two parts; [caught c m] is [try: m except c]. *)
Definition on_registry {A} (m : st LeaseRegistry A) : st DispatchGate A := zoom g_registry set_g_registry m.
Definition on_ledger {A} (m : st ReceiptLedger A) : st DispatchGate A := zoom g_ledger set_g_ledger m.
Definition caught {A} (class : string) (m : st DispatchGate A) : st DispatchGate (outcome A) := λ s,
  match m s with
  | (Ret a, s') => (Ret (Ret a), s')
  | (Raise e, s') => if bool_decide (exn_class e = class) then (Ret (Raise e), s') else (Raise e, s')
  end.
Definition LEASE_ERROR : string := "LeaseError".
Definition RECEIPT_ERROR : string := "ReceiptError".

Definition new_ref : st DispatchGate ref := λ s, (Ret (g_refs s), set_g_refs (S (g_refs s)) s).

(** ** Index and clock plumbing *)

(** The bytes of a code point below 256 encode to ASCII only below 128. *)
Definition ascii_encodable (s : string) : bool := all_chars (λ c, ord c <? 128) s.
Definition _index_for (service sentinel : string) (s : DispatchGate) : option string :=
  if ascii_encodable service && ascii_encodable sentinel
  then Some (hmac_sha256 (g_index_key s) (service +:+ nul +:+ sentinel)) else None.

Definition mark_overdue (now : float) (f : _Flight) : _Flight :=
  if negb (f_overdue f) && fleb (f_deadline f) now then
    match f_abort f with
    | Some _ => if f_abort_fired f then set_f_overdue f else set_f_abort_fired (set_f_overdue f)
    | None => set_f_overdue f
    end
  else f.
Definition queued_abort (now : float) (f : _Flight) : list abort_call :=
  if negb (f_overdue f) && fleb (f_deadline f) now && negb (f_abort_fired f)
  then match f_abort f with Some a => [a] | None => [] end else [].

Definition _sweep_overdue (now : float) : st DispatchGate unit :=
  modify (λ s, set_g_abort_queue
    (g_abort_queue s ++ flat_map (λ kf, queued_abort now kf.2) (g_flights s))
    (set_g_flights (dict_map (mark_overdue now) (g_flights s)) s)).

Definition remove_scope (lease_id : string) (s : DispatchGate) : DispatchGate :=
  let by_index := match dict_get (g_scope_index_by_lease s) lease_id with
                  | Some index => dict_pop (g_scope_by_index s) index
                  | None => g_scope_by_index s
                  end in
  let charge := default 0 (dict_get (g_scope_charge s) lease_id) in
  set_g_scope_index_by_lease (dict_pop (g_scope_index_by_lease s) lease_id)
    (set_g_scope_by_index by_index
      (set_g_scope_by_lease (dict_pop (g_scope_by_lease s) lease_id)
        (set_g_scope_bytes (g_scope_bytes s - charge)
          (set_g_scope_charge (dict_pop (g_scope_charge s) lease_id) s)))).
Definition _remove_scope_entry (lease_id : string) : st DispatchGate unit := modify (remove_scope lease_id).

Definition stale_scope (now : float) (e : ScopeEntry) : bool :=
  fleb STORE_RETENTION_SECONDS (fsub now (se_installed_at e)).
Definition _prune_scope (now : float) : st DispatchGate unit :=
  items ← gets g_scope_by_lease;
  for_each items (λ ke, if stale_scope now ke.2 then _remove_scope_entry ke.1 else mret tt).

Definition _over_scope_capacity (charge : Z) (s : DispatchGate) : bool :=
  (MAX_SCOPE_ENTRIES <=? Z.of_nat (length (g_scope_by_lease s))) ||
  (MAX_SCOPE_BYTES <? g_scope_bytes s + charge).

Definition hold_gate (code : string) (s : DispatchGate) : DispatchGate :=
  set_g_gate_state GHeld (set_g_hold_code (Some code) s).

Definition _read_clock : st DispatchGate (option float) := λ s,
  let s1 := set_g_calls (S (g_calls s)) s in
  match reading_time (g_clock s (g_calls s)) with
  | None => (Ret None, hold_gate "clock_fault" s1)
  | Some value =>
      if (match g_last_now s with Some l => fltb value l | None => false end)
      then (Ret None, hold_gate "clock_fault" s1)
      else (Ret (Some value), set_g_last_now (Some value) s1)
  end.

(** [(ok, now, code)]: the time, or the code of the failure. *)
Definition _advance : st DispatchGate (float + string) :=
  held ← gets g_hold_code;
  if bool_decide (held ≠ None) then mret (inr "gate_held")
  else
    value ← _read_clock;
    match value with
    | None => mret (inr "clock_fault")
    | Some now => _sweep_overdue now;; _prune_scope now;; mret (inl now)
    end.

Definition _tick : st DispatchGate float :=
  r ← _advance;
  match r with inl now => mret now | inr code => raise (DispatchError code) end.

(** Calling queued aborts in order; one that raises is counted. *)
Definition call_aborts (calls : list abort_call) (s : DispatchGate) : DispatchGate :=
  set_g_abort_failures (g_abort_failures s + Z.of_nat (length (List.filter ab_raises calls)))
    (set_g_aborts_called (g_aborts_called s ++ calls) s).
Definition _drain_aborts (s : DispatchGate) : DispatchGate :=
  set_g_abort_queue [] (call_aborts (g_abort_queue s) s).

(** [try: with self._G: return m finally: self._drain_aborts()]. *)
Definition drained {A} (m : st DispatchGate A) : st DispatchGate A := λ s,
  let '(o, s') := m s in (o, _drain_aborts s').

Definition now : st DispatchGate float := drained _tick.

Definition _flight_for (receipt_id : pyval) (s : DispatchGate) : option _Flight :=
  match receipt_id with VStr id => dict_get (g_flights s) id | _ => None end.

(** ** Scope store *)
Definition require_binding (grant : LeaseGrant) (manifest : ScopeManifest) : outcome unit :=
  match require_manifest_binding (Some manifest) (VStr (Leases.lg_service grant)) (VStr (Leases.lg_run_id grant))
          (VStr (Leases.lg_attempt_id grant)) (VStr (Leases.lg_scope_digest grant)) with
  | Ret _ => Ret tt
  | Raise _ => Raise (DispatchError "manifest_binding_mismatch")
  end.

Definition registered_or_authorised (receipt : LeaseReceipt) (lease_id : string) : bool :=
  bool_decide (Leases.rc_lease_id receipt = Some lease_id) &&
  (bool_decide (Leases.rc_authorized receipt = Some true) ||
   bool_decide (Leases.rc_reason receipt = "lease_registered")).

Definition lease_item (snapshot : Leases.RegistrySnapshot) (lease_id : string) : option Leases.LeaseMetadata :=
  List.find (λ m, bool_decide (Leases.lm_lease_id m = lease_id)) (Leases.rs_leases snapshot).

Definition item_matches (m : Leases.LeaseMetadata) (grant : LeaseGrant) : bool :=
  bool_decide (Leases.lm_service m = Leases.lg_service grant) &&
  bool_decide (Leases.lm_run_id m = Leases.lg_run_id grant) &&
  bool_decide (Leases.lm_attempt_id m = Leases.lg_attempt_id grant) &&
  bool_decide (Leases.lm_receiver_boot_id m = Leases.lg_receiver_boot_id grant) &&
  bool_decide (Leases.lm_scope_digest m = Leases.lg_scope_digest grant) &&
  feqb (Leases.lm_expires_at m) (Leases.lg_expires_at grant) &&
  bool_decide (Leases.lm_generation m = Leases.lg_generation grant) &&
  Leases.is_live (Leases.lm_state m).

Definition remove_stale (live : list string) (lease_id : string) : st DispatchGate unit :=
  if str_in lease_id live then mret tt else _remove_scope_entry lease_id.

Definition make_scope_room (now : float) (charge : Z) (live : list string) : st DispatchGate unit :=
  over ← gets (_over_scope_capacity charge);
  if over : bool then
    _prune_scope now;;
    leases ← gets (λ s, dict_keys (g_scope_by_lease s));
    for_each leases (remove_stale live);;
    still ← gets (_over_scope_capacity charge);
    require (negb still) (DispatchError "scope_capacity")
  else mret tt.

Definition store_scope (entry : ScopeEntry) (index : string) (charge : Z) (s : DispatchGate) : DispatchGate :=
  set_g_scope_by_index (dict_set (g_scope_by_index s) index entry)
    (set_g_scope_by_lease (dict_set (g_scope_by_lease s) (se_lease_id entry) entry)
      (set_g_scope_index_by_lease (dict_set (g_scope_index_by_lease s) (se_lease_id entry) index)
        (set_g_scope_charge (dict_set (g_scope_charge s) (se_lease_id entry) charge)
          (set_g_scope_bytes (g_scope_bytes s + charge) s)))).

Definition _install_scope_locked (grant : LeaseGrant) (manifest : ScopeManifest) : st DispatchGate ScopeEntry :=
  gstate ← gets g_gate_state;
  require (negb (bool_decide (gstate = GClosed))) (DispatchError "gate_closed");;
  now ← _tick;
  lift_outcome (require_binding grant manifest);;
  generation ← gets g_generation;
  require (bool_decide (Leases.lg_generation grant = generation)) (DispatchError "generation_mismatch");;
  checked ← caught LEASE_ERROR (on_registry (Leases.check (VStr (Leases.lg_service grant))
    (VStr (Leases.lg_sentinel grant)) (VStr (Leases.lg_generation grant)) (VStr (Leases.lg_scope_digest grant))));
  require (match checked with Ret rc => registered_or_authorised rc (Leases.lg_lease_id grant) | Raise _ => false end)
    (DispatchError "lease_unverified");;
  snapshot ← on_registry Leases.snapshot;
  match lease_item snapshot (Leases.lg_lease_id grant) with
  | None => raise (DispatchError "lease_unverified")
  | Some record =>
      require (item_matches record grant) (DispatchError "lease_unverified");;
      require (negb (fleb (Leases.lm_expires_at record) now)) (DispatchError "grant_expired");;
      index ← gets (_index_for (Leases.lg_service grant) (Leases.lg_sentinel grant));
      match index with
      | None => raise (DispatchError "lease_unverified")
      | Some index =>
          existing ← gets (λ s, dict_get (g_scope_by_lease s) (Leases.lg_lease_id grant));
          match existing with
          | Some existing =>
              known ← gets (λ s, dict_get (g_scope_index_by_lease s) (Leases.lg_lease_id grant));
              require (bool_decide (known = Some index) &&
                       bool_decide (sm_digest (se_manifest existing) = sm_digest manifest))
                (DispatchError "scope_conflict");;
              mret existing
          | None =>
              taken ← gets (λ s, some_b (dict_get (g_scope_by_index s) index));
              require (negb taken) (DispatchError "scope_conflict");;
              let charge := str_len (sm_canonical manifest) + SCOPE_ENTRY_OVERHEAD_BYTES in
              make_scope_room now charge (map Leases.lm_lease_id (Leases.rs_leases snapshot));;
              r ← new_ref;
              let entry := mkScopeEntry r (Leases.lg_lease_id grant) (Leases.lg_run_id grant)
                (Leases.lg_attempt_id grant) (Leases.lg_service grant) (Leases.lg_generation grant)
                (Leases.lg_scope_digest grant) (Leases.lg_expires_at grant) now manifest in
              modify (store_scope entry index charge);;
              mret entry
          end
      end
  end.

Definition install_scope (grant : option LeaseGrant) (manifest : option ScopeManifest)
    : st DispatchGate ScopeEntry :=
  match grant, manifest with
  | Some grant, Some manifest => drained (_install_scope_locked grant manifest)
  | _, _ => raise (TypeError "install_scope requires an exact LeaseGrant and ScopeManifest")
  end.

Definition resolve (service sentinel : pyval) : st DispatchGate (option ScopeEntry) :=
  match service with
  | VStr svc =>
      require (known_service svc) (Exn "ValueError" "unknown service");;
      match sentinel with
      | VStr tok =>
          if _valid_sentinel_shape sentinel then
            found ← gets (λ s, match _index_for svc tok s with
                               | Some index => dict_get (g_scope_by_index s) index
                               | None => None
                               end);
            match found with
            | None => mret None
            | Some entry =>
                held ← gets g_hold_code;
                now ← (if bool_decide (held ≠ None) then gets g_last_now else _read_clock);
                match now with
                | None => mret None
                | Some now => if stale_scope now entry then mret None else mret (Some entry)
                end
            end
          else mret None
      | _ => mret None
      end
  | _ => raise (TypeError "resolve requires an exact str service")
  end.

(** The stored entry the token is, if it is one. *)
Definition stored_entry (entry : entry_token) (s : DispatchGate) : option ScopeEntry :=
  match dict_get (g_scope_by_lease s) (et_lease_id entry) with
  | Some e => if bool_decide (se_ref e = et_ref entry) then Some e else None
  | None => None
  end.

Definition precheck (entry : option entry_token) (sentinel : pyval) : st DispatchGate bool :=
  match entry, sentinel with
  | None, _ => raise (TypeError "precheck requires an exact ScopeEntry")
  | Some entry, VStr tok =>
      gstate ← gets g_gate_state;
      stored ← gets (stored_entry entry);
      match stored with
      | Some e =>
          if bool_decide (gstate ≠ GReady) then mret false
          else
            checked ← caught LEASE_ERROR (on_registry (Leases.check (VStr (se_service e)) (VStr tok)
              (VStr (se_generation e)) (VStr (se_scope_digest e))));
            match checked with
            | Raise _ => mret false
            | Ret rc => mret (bool_decide (Leases.rc_authorized rc = Some true) &&
                              bool_decide (Leases.rc_lease_id rc = Some (se_lease_id e)))
            end
      | None => mret false
      end
  | Some _, _ => raise (TypeError "precheck requires an exact str sentinel")
  end.

Definition deny (entry : option entry_token) (route_id request_digest reason request_bytes deadline : pyval)
    : st DispatchGate ForwarderReceipt :=
  match entry, route_id, request_digest, reason, request_bytes with
  | None, _, _, _, _ => raise (TypeError "deny requires an exact ScopeEntry")
  | Some entry, VStr _, VStr _, VStr why, VInt _ =>
      require (match deadline with VInt _ | VFloat _ => true | _ => false end)
        (TypeError "deny requires exact argument types");;
      stored ← gets (stored_entry entry);
      match stored with
      | None => raise (DispatchError "scope_unknown")
      | Some e =>
          require (str_in why DENIAL_REASONS) (DispatchError "invalid_reason");;
          reserved ← caught RECEIPT_ERROR (on_ledger (Receipts.reserve (VStr (se_lease_id e))
            (VStr (se_attempt_id e)) (VStr (se_service e)) route_id request_digest request_bytes deadline VNone));
          match reserved with
          | Raise x => raise (DispatchError (_map_reserve_error (exn_code x)))
          | Ret reservation =>
              finalized ← caught RECEIPT_ERROR (on_ledger (Receipts.finalize reservation
                (VStr "NOT_DISPATCHED") reason RNone));
              match finalized with
              | Raise _ => raise (DispatchError "receipt_unavailable")
              | Ret (_, receipt) => mret receipt
              end
          end
      end
  | _, _, _, _, _ => raise (TypeError "deny requires exact argument types")
  end.

(** ** Flights *)
Definition add_flight (f : _Flight) (s : DispatchGate) : DispatchGate :=
  set_g_flights (dict_set (g_flights s) (f_receipt_id f) f) s.
Definition drop_flight (receipt_id : string) (s : DispatchGate) : DispatchGate :=
  set_g_flights (dict_pop (g_flights s) receipt_id) s.
Definition update_flight (f : _Flight → _Flight) (receipt_id : string) : st DispatchGate unit :=
  modify (λ s, set_g_flights (dict_alter f (g_flights s) receipt_id) s).
(** A held flight object after a sweep may have mutated it. *)
Definition refreshed (f : _Flight) : st DispatchGate _Flight :=
  gets (λ s, default f (dict_get (g_flights s) (f_receipt_id f))).

Definition route_open (route_id : string) : bool :=
  match dict_get ROUTE_CATALOG route_id with
  | Some status => str_in (rt_state status) ["enabled"; "partial"]
  | None => false
  end.

Definition receipt_id_of (h : handle) : string :=
  match h_receipt_id h with VStr id => id | _ => "" end.

Definition _reserve_locked (entry : entry_token) (routed : RoutedRequest) (request_digest : string)
    (request_bytes : Z) (deadline : float) : st DispatchGate handle :=
  gstate ← gets g_gate_state;
  require (negb (bool_decide (gstate = GClosed))) (DispatchError "gate_closed");;
  advanced ← _advance;
  match advanced with
  | inr _ => raise (DispatchError "gate_held")
  | inl _ =>
      stored ← gets (stored_entry entry);
      match stored with
      | None => raise (DispatchError "scope_unknown")
      | Some e =>
          require (bool_decide (rq_service routed = se_service e) &&
                   bool_decide (rq_scope_digest routed = se_scope_digest e)) (DispatchError "binding_mismatch");;
          require (route_open (rq_route_id routed)) (DispatchError "route_unavailable");;
          require (negb (fltb (se_expires_at e) deadline)) (DispatchError "deadline_exceeds_lease");;
          open ← gets (λ s, Z.of_nat (length (g_flights s)));
          require (negb (MAX_OPEN_DISPATCHES <=? open)) (DispatchError "dispatch_capacity");;
          reserved ← caught RECEIPT_ERROR (on_ledger (Receipts.reserve (VStr (se_lease_id e))
            (VStr (se_attempt_id e)) (VStr (se_service e)) (VStr (rq_route_id routed)) (VStr request_digest)
            (VInt request_bytes) (VFloat deadline) VNone));
          match reserved with
          | Raise x => raise (DispatchError (_map_reserve_error (exn_code x)))
          | Ret reservation =>
              index ← gets (λ s, dict_get (g_scope_index_by_lease s) (se_lease_id e));
              r ← new_ref;
              modify (add_flight (mkFlight r (receipt_id_of reservation) reservation (se_lease_id e)
                (se_service e) (rq_route_id routed) (se_generation e) (se_scope_digest e) index
                (rq_requires_permit routed) deadline (fsub deadline RESPONSE_MARGIN_SECONDS)
                PReserved false None None false));;
              mret (mkHandle r "DispatchHandle" (VStr (receipt_id_of reservation)))
          end
      end
  end.

(** An exact [int] or [float].  An [int] is taken at its float value, which is
    the same number below [2**53]; one no float holds is an infinity, which
    every comparison below tells apart from a finite time in the same way. *)
Definition number (v : pyval) : option float :=
  match v with
  | VInt z => Some (default (S754_infinity (z <? 0)) (float_of_int z))
  | VFloat x => Some x
  | _ => None
  end.

Definition reserve (entry : option entry_token) (routed : option RoutedRequest)
    (request_digest request_bytes deadline : pyval) : st DispatchGate handle :=
  match entry, routed with
  | Some entry, Some routed =>
      match request_digest, request_bytes, number deadline with
      | VStr digest, VInt n, Some d => drained (_reserve_locked entry routed digest n d)
      | _, _, _ => raise (TypeError "reserve requires exact argument types")
      end
  | _, _ => raise (TypeError "reserve requires an exact ScopeEntry and RoutedRequest")
  end.

Definition _finalize_and_drop (f : _Flight) (dispatch_state reason : string) : st DispatchGate ForwarderReceipt :=
  finalized ← caught RECEIPT_ERROR (on_ledger (Receipts.finalize (f_reservation f) (VStr dispatch_state)
    (VStr reason) RNone));
  modify (drop_flight (f_receipt_id f));;
  match finalized with
  | Raise x => raise (DispatchError (_map_transition_error (exn_code x)))
  | Ret (_, receipt) => mret receipt
  end.

(** The denial code, or the receipt of a check that authorised this lease at a
    time between two readings of the gate's own clock. *)
Definition _checked_lease (f : _Flight) (sentinel : string) : st DispatchGate (LeaseReceipt + string) :=
  before ← _read_clock;
  match before with
  | None => mret (inr "gate_held")
  | Some before =>
      checked ← caught LEASE_ERROR (on_registry (Leases.check (VStr (f_service f)) (VStr sentinel)
        (VStr (f_generation f)) (VStr (f_scope_digest f))));
      after ← _read_clock;
      match after with
      | None => mret (inr "gate_held")
      | Some after =>
          match checked with
          | Raise _ => mret (inr "lease_denied")
          | Ret receipt =>
              if bool_decide (Leases.rc_authorized receipt = Some true) &&
                 bool_decide (Leases.rc_lease_id receipt = Some (f_lease_id f)) then
                if fleb before (Leases.rc_observed_at receipt) && fleb (Leases.rc_observed_at receipt) after
                then mret (inl receipt)
                else modify (hold_gate "clock_domain_mismatch");; mret (inr "gate_held")
              else mret (inr "lease_denied")
          end
      end
  end.

Definition _deny_admission (f : _Flight) (code : string) : st DispatchGate AdmissionOutcome :=
  let reason := if bool_decide (code = "insufficient_time") then "deadline"
                else if bool_decide (code = "permit_unavailable") then "permit_denied"
                else "lease_denied" in
  receipt ← _finalize_and_drop f "NOT_DISPATCHED" reason;
  mret (mkAdmissionOutcome code None (Some receipt)).

Definition sentinel_matches (f : _Flight) (sentinel : string) (s : DispatchGate) : bool :=
  match _index_for (f_service f) sentinel s with
  | Some candidate => bool_decide (f_index f = Some candidate)
  | None => false
  end.

Definition _admit_locked (h : handle) (sentinel : string) : st DispatchGate AdmissionOutcome :=
  found ← gets (_flight_for (h_receipt_id h));
  match found with
  | None => raise (DispatchError "handle_unknown")
  | Some f =>
      require (bool_decide (f_handle f = h_ref h)) (DispatchError "handle_unknown");;
      require (bool_decide (f_phase f = PReserved)) (DispatchError "handle_consumed");;
      advanced ← _advance;
      match advanced with
      | inr _ => _deny_admission f "gate_held"
      | inl _ =>
          f ← refreshed f;
          if f_overdue f : bool then
            modify (drop_flight (f_receipt_id f));; raise (DispatchError "deadline_expired")
          else
          gstate ← gets g_gate_state;
          matches ← gets (sentinel_matches f sentinel);
          if bool_decide (gstate = GClosed) then _deny_admission f "gate_closed"
          else if negb matches then _deny_admission f "sentinel_mismatch"
          else if f_requires_permit f then _deny_admission f "permit_unavailable"
          else
            checked ← _checked_lease f sentinel;
            match checked with
            | inr code => _deny_admission f code
            | inl receipt =>
                let observed := Leases.rc_observed_at receipt in
                if fltb (f_deadline f) (fadd (fadd observed RESPONSE_MARGIN_SECONDS) MIN_ADMISSION_SECONDS)
                then _deny_admission f "insufficient_time"
                else
                  begun ← caught RECEIPT_ERROR (on_ledger (Receipts.begin_connect (f_reservation f)));
                  match begun with
                  | Raise x =>
                      modify (drop_flight (f_receipt_id f));;
                      raise (DispatchError (_map_transition_error (exn_code x)))
                  | Ret _ =>
                      r ← new_ref;
                      let admission := mkAdmission r (f_receipt_id f) (f_lease_id f) (f_service f)
                        (f_route_id f) observed (f_deadline f) (f_exchange_deadline f)
                        (fmin (fadd observed CONNECT_SECONDS) (f_exchange_deadline f)) in
                      update_flight (set_f_admitted r) (f_receipt_id f);;
                      mret (mkAdmissionOutcome "admitted" (Some admission) None)
                  end
            end
      end
  end.

(** [DispatchGate.admit]. *)
Definition gate_admit (h : handle) (sentinel : pyval) : st DispatchGate AdmissionOutcome :=
  require (bool_decide (h_class h = "DispatchHandle")) (TypeError "admit requires an exact DispatchHandle");;
  match sentinel with
  | VStr tok => drained (_admit_locked h tok)
  | _ => raise (TypeError "admit requires an exact str sentinel")
  end.

(** The flight of an admission token, with [admission_unknown] otherwise. *)
Definition admitted_flight (h : handle) : st DispatchGate _Flight :=
  found ← gets (_flight_for (h_receipt_id h));
  match found with
  | None => raise (DispatchError "admission_unknown")
  | Some f =>
      require (bool_decide (f_admission f = Some (h_ref h))) (DispatchError "admission_unknown");;
      mret f
  end.
Definition is_admission (h : handle) : bool := bool_decide (h_class h = "Admission").

Definition attach_abort (admission : handle) (abort : option abort_call) : st DispatchGate bool :=
  require (is_admission admission) (TypeError "attach_abort requires an exact Admission");;
  match abort with
  | None => raise (TypeError "attach_abort requires a callable abort")
  | Some abort =>
      f ← admitted_flight admission;
      gstate ← gets g_gate_state;
      if bool_decide (gstate ≠ GReady) || f_overdue f then mret false
      else update_flight (set_f_abort abort) (f_receipt_id f);; mret true
  end.

Definition _deny_write (f : _Flight) (code : string) : st DispatchGate WriteOutcome :=
  receipt ← _finalize_and_drop f "FAILED" "connect_failed";
  mret (mkWriteOutcome code None (Some receipt)).

Definition _begin_write_locked (h : handle) (sentinel : string) : st DispatchGate WriteOutcome :=
  f ← admitted_flight h;
  require (negb (bool_decide (f_phase f = PWriting))) (DispatchError "write_claimed");;
  advanced ← _advance;
  match advanced with
  | inr _ => _deny_write f "gate_held"
  | inl _ =>
      f ← refreshed f;
      if f_overdue f : bool then
        modify (drop_flight (f_receipt_id f));; raise (DispatchError "deadline_expired")
      else
      gstate ← gets g_gate_state;
      matches ← gets (sentinel_matches f sentinel);
      if bool_decide (gstate = GClosed) then _deny_write f "gate_closed"
      else if negb matches then _deny_write f "sentinel_mismatch"
      else
        checked ← _checked_lease f sentinel;
        match checked with
        | inr code => _deny_write f code
        | inl receipt =>
            let observed := Leases.rc_observed_at receipt in
            if f_requires_permit f then _deny_write f "permit_unavailable"
            else if fltb (f_exchange_deadline f) (fadd observed MIN_WRITE_SECONDS)
            then _deny_write f "insufficient_time"
            else
              begun ← caught RECEIPT_ERROR (on_ledger (Receipts.begin_dispatch (f_reservation f)));
              match begun with
              | Raise x =>
                  modify (drop_flight (f_receipt_id f));;
                  raise (DispatchError (_map_transition_error (exn_code x)))
              | Ret _ =>
                  update_flight set_f_writing (f_receipt_id f);;
                  mret (mkWriteOutcome "write_admitted"
                    (Some (fmin (fadd observed WRITE_SECONDS) (f_exchange_deadline f))) None)
              end
        end
  end.

Definition begin_write (admission : handle) (sentinel : pyval) : st DispatchGate WriteOutcome :=
  require (is_admission admission) (TypeError "begin_write requires an exact Admission");;
  match sentinel with
  | VStr tok => drained (_begin_write_locked admission tok)
  | _ => raise (TypeError "begin_write requires an exact str sentinel")
  end.

Definition INVALID_OUTCOME_CODES : list string :=
  ["invalid_transition"; "invalid_reason"; "invalid_dispatch_state"; "invalid_upstream_response";
   "invalid_response"].

Definition finish (admission : handle) (dispatch_state reason : pyval) (upstream_response : response_arg)
    : st DispatchGate ForwarderReceipt :=
  require (is_admission admission) (TypeError "finish requires an exact Admission");;
  require (match dispatch_state, reason with VStr _, VStr _ => true | _, _ => false end)
    (TypeError "finish requires exact str dispatch_state and reason");;
  match upstream_response with
  | RForeign => raise (TypeError "finish requires an exact ParsedResponse or None")
  | RNone | RResponse _ =>
      f ← admitted_flight admission;
      if f_overdue f : bool then
        modify (drop_flight (f_receipt_id f));; raise (DispatchError "deadline_expired")
      else
        finalized ← caught RECEIPT_ERROR (on_ledger (Receipts.finalize (f_reservation f) dispatch_state
          reason upstream_response));
        match finalized with
        | Raise x =>
            if str_in (exn_code x) INVALID_OUTCOME_CODES then raise (DispatchError "invalid_outcome")
            else
              modify (drop_flight (f_receipt_id f));;
              raise (DispatchError (_map_transition_error (exn_code x)))
        | Ret (_, receipt) => modify (drop_flight (f_receipt_id f));; mret receipt
        end
  end.

Definition release (token : handle) : st DispatchGate bool :=
  require (bool_decide (h_class token = "DispatchHandle") || is_admission token)
    (TypeError "release requires an exact DispatchHandle or Admission");;
  found ← gets (_flight_for (h_receipt_id token));
  match found with
  | None => mret false
  | Some f =>
      let is_handle := bool_decide (h_class token = "DispatchHandle") && bool_decide (f_handle f = h_ref token) in
      let is_adm := is_admission token && bool_decide (f_admission f = Some (h_ref token)) in
      if is_handle || is_adm then modify (drop_flight (f_receipt_id f));; mret true else mret false
  end.

Definition is_admitted (admission : handle) : st DispatchGate bool :=
  require (is_admission admission) (TypeError "is_admitted requires an exact Admission");;
  found ← gets (_flight_for (h_receipt_id admission));
  mret (match found with
        | Some f => bool_decide (f_admission f = Some (h_ref admission)) &&
                    bool_decide (f_phase f ≠ PReserved) && negb (f_overdue f)
        | None => false
        end).

(** ** Closeout and shutdown *)
Definition item_str (item : list (string * json)) (key : string) : option string :=
  match dict_get item key with Some (JStr v) => Some v | _ => None end.
Definition item_float (item : list (string * json)) (key : string) : float :=
  match dict_get item key with Some (JFloat v) => v | _ => fzero end.

Record tally := mkTally { t_pending : Z; t_in_flight : Z; t_uncertain : Z; t_drain : option float }.

(** One turn of the loop over the ledger's entries. *)
Definition tally_item (lease_id : string) (t : tally) (item : list (string * json)) : tally :=
  if bool_decide (item_str item "lease_id" ≠ Some lease_id) then t
  else
    let state := item_str item "entry_state" in
    if bool_decide (state = Some "reserved") then
      mkTally (t_pending t + 1) (t_in_flight t) (t_uncertain t) (t_drain t)
    else if bool_decide (state = Some "connecting") || bool_decide (state = Some "dispatched") then
      let d := item_float item "deadline" in
      mkTally (t_pending t) (t_in_flight t + 1) (t_uncertain t)
        (match t_drain t with
         | None => Some d
         | Some d0 => if fltb d0 d then Some d else Some d0
         end)
    else if bool_decide (state = Some "finalized") &&
            match item_str item "dispatch_state" with
            | Some ds => str_in ds _UNCERTAIN_DISPATCH_STATES | None => false end then
      mkTally (t_pending t) (t_in_flight t) (t_uncertain t + 1) (t_drain t)
    else t.

Definition closeout_state_of (gate_ok : bool) (registry_state ledger_state : string) (safe_id : bool)
    (lease_state : string) (overdue in_flight : Z) : string :=
  if negb gate_ok || bool_decide (registry_state = "held") || bool_decide (ledger_state = "held") ||
     negb safe_id || bool_decide (lease_state = "unknown") then "unknown"
  else if str_in lease_state ["registered"; "active"] then "open"
  else if 0 <? overdue then "overdue"
  else if 0 <? in_flight then "draining"
  else "quiescent".

Definition lease_overdue (lease_id : string) (s : DispatchGate) : Z :=
  Z.of_nat (length (List.filter (λ kf, bool_decide (f_lease_id kf.2 = lease_id) && f_overdue kf.2) (g_flights s))).

Definition _closeout_locked (lease_id : string) : st DispatchGate Closeout :=
  let safe_id := _valid_lease_id_shape lease_id in
  registry_snapshot ← on_registry Leases.snapshot;
  ledger_snapshot ← on_ledger Receipts.snapshot;
  advanced ← _advance;
  last ← gets g_last_now;
  let gate_ok := match advanced with inl _ => true | inr _ => false end in
  let observed_at := match advanced with inl now => now | inr _ => default fzero last end in
  known ← gets (λ s, some_b (dict_get (g_scope_by_lease s) lease_id));
  let lease_state :=
    match lease_item registry_snapshot lease_id with
    | Some m => Leases.state_name (Leases.lm_state m)
    | None => if known : bool then "pruned" else "unknown"
    end in
  let t := foldl (tally_item lease_id) (mkTally 0 0 0 None) (Receipts.ls_entries ledger_snapshot) in
  overdue ← gets (lease_overdue lease_id);
  mret (mkCloseout lease_id lease_state
    (closeout_state_of gate_ok (Leases.rs_registry_state registry_snapshot)
       (Receipts.ls_ledger_state ledger_snapshot) safe_id lease_state overdue (t_in_flight t))
    (t_pending t) (t_in_flight t) overdue (t_drain t) (t_uncertain t) observed_at).

Definition closeout (lease_id : pyval) : st DispatchGate Closeout :=
  match lease_id with
  | VStr id => drained (_closeout_locked id)
  | _ => raise (TypeError "closeout requires an exact str lease_id")
  end.

Definition touched (f : _Flight) : bool := negb (bool_decide (f_phase f = PReserved)) || f_overdue f.
Definition count_flights (P : _Flight → bool) (s : DispatchGate) : Z :=
  Z.of_nat (length (List.filter (λ kf, P kf.2) (g_flights s))).
Definition shutdown_abort (f : _Flight) : list abort_call :=
  if touched f && negb (f_abort_fired f) then match f_abort f with Some a => [a] | None => [] end else [].
Definition fire_at_shutdown (f : _Flight) : _Flight :=
  match shutdown_abort f with [] => f | _ => set_f_abort_fired f end.

Definition shutdown : st DispatchGate ShutdownReport := λ s,
  let first_call := negb (g_closed s) in
  let s1 := set_g_closed true s in
  let s2 := if bool_decide (g_gate_state s1 = GReady) then set_g_gate_state GClosed s1 else s1 in
  if first_call then
    let callbacks := flat_map (λ kf, shutdown_abort kf.2) (g_flights s2) in
    let s3 := set_g_flights (dict_map fire_at_shutdown (g_flights s2)) s2 in
    (Ret (mkShutdownReport
       (count_flights (λ f, negb (bool_decide (f_phase f = PReserved))) s2) (count_flights f_overdue s2)
       (Z.of_nat (length callbacks)) (Z.of_nat (length (List.filter ab_raises callbacks)))),
     call_aborts callbacks s3)
  else (Ret (mkShutdownReport 0 0 0 0), s2).

Record GateSnapshot := mkGateSnapshot {
  gs_generation : string; gs_gate_state : string; gs_hold_code : option string; gs_open_dispatches : Z;
  gs_scope_bytes : Z; gs_abort_failures : Z;
  gs_scope_entries : list (string * string * string * float * float);
  gs_flights : list (string * string * string * string * string * bool * float * bool * bool);
}.

Definition snapshot : st DispatchGate GateSnapshot := gets (λ s,
  mkGateSnapshot (g_generation s) (gate_state_name (g_gate_state s)) (g_hold_code s)
    (Z.of_nat (length (g_flights s))) (g_scope_bytes s) (g_abort_failures s)
    (map (λ e, (se_lease_id e, se_service e, se_scope_digest e, se_expires_at e, se_installed_at e))
       (dict_values (g_scope_by_lease s)))
    (map (λ f, (f_receipt_id f, f_lease_id f, f_service f, f_route_id f, phase_name (f_phase f), f_overdue f,
                f_deadline f, some_b (f_abort f), f_abort_fired f)) (dict_values (g_flights s)))).
