(* ===== verification/DispatchInv.v ===== *)
(** * The dispatch gate keeps its invariants

    Well-formedness of the gate (its two parts are well formed, its stores stay
    within their bounds and agree with each other), what every call may change
    ([gate_evolves]), and the proof that every method of Dispatch.v, and every
    call that others make on the registry and the ledger, preserves the first
    and stays within the second. *)

From S2P Require Import Prelude PyValue PyJson Services Sha256 HttpResponse CanonJson Scope.
From S2P Require Leases Receipts.
From S2P Require Import LeasesInv LeasesOps ReceiptsInv ReceiptsOps Dispatch.
Local Open Scope string_scope.
Local Open Scope Z_scope.

(** ** Well-formedness *)

(** The registry gave out this lease id. *)
Definition lease_issued (reg : Leases.LeaseRegistry) (id : string) : Prop :=
  ∃ i, (S i < Leases.r_draws reg)%nat ∧ id = "lease_" +:+ Leases.r_entropy reg i.

(** What is fixed when a flight is made. *)
Definition flight_core (f : _Flight) :=
  (f_handle f, f_receipt_id f, f_reservation f, f_lease_id f, f_service f, f_route_id f, f_generation f,
   f_scope_digest f, f_index f, f_requires_permit f, f_deadline f, f_exchange_deadline f).

(** A flight holds a reservation the ledger gave out, and the ledger's entry
    for it, while there is one, is about the same lease, route and deadline. *)
Record flight_linked (l : Receipts.ReceiptLedger) (id : string) (f : _Flight) : Prop := {
  fl_id : f_receipt_id f = id;
  fl_class : Receipts.h_class (f_reservation f) = "ReceiptReservation";
  fl_receipt : Receipts.h_receipt_id (f_reservation f) = VStr id;
  fl_ref : (Receipts.h_ref (f_reservation f) < Receipts.l_refs l)%nat;
  fl_entry : ∀ e, dict_get (Receipts.l_entries l) id = Some e →
    Receipts.e_reservation e = Receipts.h_ref (f_reservation f) →
    Receipts.e_lease_id e = f_lease_id f ∧ Receipts.e_service e = f_service f ∧
    Receipts.e_route_id e = f_route_id f ∧ Receipts.e_deadline e = f_deadline f;
}.

Record gate_wf (s : DispatchGate) : Prop := {
  gw_registry : LeasesInv.wf (g_registry s);
  gw_ledger : ReceiptsInv.ledger_wf (g_ledger s);
  gw_flights : dict_ok (g_flights s);
  gw_open : Z.of_nat (length (g_flights s)) ≤ MAX_OPEN_DISPATCHES;
  gw_flight : ∀ id f, dict_get (g_flights s) id = Some f → flight_linked (g_ledger s) id f;
  gw_by_lease : dict_ok (g_scope_by_lease s);
  gw_charges : dict_ok (g_scope_charge s);
  gw_charged : ∀ id, is_Some (dict_get (g_scope_charge s) id) ↔ is_Some (dict_get (g_scope_by_lease s) id);
  gw_bytes : g_scope_bytes s = dict_sum id (g_scope_charge s);
  gw_max_bytes : g_scope_bytes s ≤ MAX_SCOPE_BYTES;
  gw_max_scopes : Z.of_nat (length (g_scope_by_lease s)) ≤ MAX_SCOPE_ENTRIES;
  gw_charge_pos : ∀ id c, dict_get (g_scope_charge s) id = Some c → SCOPE_ENTRY_OVERHEAD_BYTES ≤ c;
  gw_issued : ∀ id e, dict_get (g_scope_by_lease s) id = Some e → lease_issued (g_registry s) id;
  gw_held : g_hold_code s ≠ None ↔ g_gate_state s = GHeld;
  gw_closed : g_closed s = true → g_gate_state s ≠ GReady;
}.

Record gate_evolves (s s' : DispatchGate) : Prop := {
  ge_registry : LeasesInv.evolves (g_registry s) (g_registry s');
  ge_ledger : ReceiptsInv.ledger_evolves (g_ledger s) (g_ledger s');
  ge_hold : g_hold_code s ≠ None → g_hold_code s' ≠ None;
  ge_ready : g_gate_state s ≠ GReady → g_gate_state s' ≠ GReady;
  ge_closed : g_closed s = true → g_closed s' = true;
}.

#[export] Instance gate_evolves_po : PreOrder gate_evolves.
Proof.
  split.
  - intros s. split; try done; reflexivity.
  - intros s1 s2 s3 [] []. split; auto; by etransitivity.
Qed.

Definition gate_step (s s' : DispatchGate) : Prop := gate_wf s → gate_wf s' ∧ gate_evolves s s'.

#[export] Instance gate_step_refl : Reflexive gate_step.
Proof. intros s Hs. by split. Qed.
#[export] Instance gate_step_trans : Transitive gate_step.
Proof.
  intros s1 s2 s3 H12 H23 H1. destruct (H12 H1) as [H2 E12]. destruct (H23 H2) as [H3 E23].
  split; [done|]. by transitivity s2.
Qed.

Lemma issued_mono reg reg' id : LeasesInv.evolves reg reg' → lease_issued reg id → lease_issued reg' id.
Proof.
  intros [Hc He Hg Hd Hr] (i & Hi & Hid). exists i. rewrite He. split; [lia|done].
Qed.

(** ** Calls on the two parts *)
Lemma within_on_registry {A} (m : st Leases.LeaseRegistry A) :
  within LeasesInv.sound_step m → within gate_step (on_registry m).
Proof.
  intros Hm s Hs. unfold on_registry, zoom. specialize (Hm (g_registry s) (gw_registry _ Hs)).
  destruct (m (g_registry s)) as [o reg']. cbn in *. destruct Hm as [Hwf Hev].
  destruct Hs as []. split; [split; cbn; try done|by split].
  intros id e He. eapply issued_mono; eauto.
Qed.

Lemma linked_core l id f f' : flight_core f' = flight_core f → flight_linked l id f → flight_linked l id f'.
Proof.
  unfold flight_core. intros Hc []. injection Hc as H1 H2 H3 H4 H5 H6 H7 H8 H9 H10 H11 H12.
  split; rewrite ?H2, ?H3, ?H4, ?H5, ?H6, ?H11; done.
Qed.

Lemma linked_evolves l l' id f :
  ReceiptsInv.ledger_evolves l l' → flight_linked l id f → flight_linked l' id f.
Proof.
  intros Hev [Hid Hc Hr Hlt He]. pose proof (le_refs _ _ Hev). split; try done; [lia|].
  intros e' He' Href. destruct (le_entries _ _ Hev id e' He') as [(e & Hge & Hee & _)|(_ & Ho)].
  - pose proof (ee_core _ _ Hee) as Hcore. unfold e_core in Hcore.
    injection Hcore as C1 C2 C3 C4 C5 C6 C7 C8 C9 C10 C11 C12 C13.
    rewrite C4, C7, C8, C11. apply He; [done|congruence].
  - assert (O : owns e' (Receipts.h_ref (f_reservation f))) by by left. specialize (Ho _ O). lia.
Qed.

Lemma within_on_ledger {A} (m : st Receipts.ReceiptLedger A) :
  within ReceiptsInv.ledger_step m → within gate_step (on_ledger m).
Proof.
  intros Hm s Hs. unfold on_ledger, zoom. specialize (Hm (g_ledger s) (gw_ledger _ Hs)).
  destruct (m (g_ledger s)) as [o l']. cbn in *. destruct Hm as [Hwf Hev].
  destruct Hs as []. split; [split; cbn; try done|by split].
  intros id f Hf. eapply linked_evolves; eauto.
Qed.

Lemma within_caught (R : DispatchGate → DispatchGate → Prop) {A} c (m : st DispatchGate A) :
  within R m → within R (caught c m).
Proof. intros Hm s. specialize (Hm s). unfold caught. destruct (m s) as [[a|e] s']; cbn in *; [done|]. by case_match. Qed.

(** ** Steps on the gate's own fields *)

(** Only fields no invariant restricts have changed. *)
Record gate_same (s s' : DispatchGate) : Prop := {
  gs_reg : g_registry s' = g_registry s;
  gs_led : g_ledger s' = g_ledger s;
  gs_fl : g_flights s' = g_flights s;
  gs_bl : g_scope_by_lease s' = g_scope_by_lease s;
  gs_ch : g_scope_charge s' = g_scope_charge s;
  gs_by : g_scope_bytes s' = g_scope_bytes s;
  gs_st : g_gate_state s' = g_gate_state s;
  gs_hd : g_hold_code s' = g_hold_code s;
  gs_cl : g_closed s' = g_closed s;
}.

Lemma gate_same_step s s' : gate_same s s' → gate_step s s'.
Proof.
  intros [E1 E2 E3 E4 E5 E6 E7 E8 E9] [].
  split; split; rewrite ?E1, ?E2, ?E3, ?E4, ?E5, ?E6, ?E7, ?E8, ?E9; done.
Qed.

Lemma hold_step code s : gate_step s (hold_gate code s).
Proof. intros []. split; [by split|]. by split. Qed.

Lemma within_read_clock : within gate_step _read_clock.
Proof.
  intros s. unfold _read_clock. destruct (reading_time _) as [t|].
  - destruct (g_last_now s) as [l|]; [destruct (fltb t l)|]; cbn.
    2,3: by apply gate_same_step.
    transitivity (set_g_calls (S (g_calls s)) s); [by apply gate_same_step|apply hold_step].
  - transitivity (set_g_calls (S (g_calls s)) s); [by apply gate_same_step|apply hold_step].
Qed.

(** Flights rewritten in place. *)
Lemma map_flights_step s f :
  (∀ fl, flight_core (f fl) = flight_core fl) → gate_step s (set_g_flights (dict_map f (g_flights s)) s).
Proof.
  intros Hf []. split; [|by split; try reflexivity].
  split; cbn -[dict_map]; try done.
  - unfold dict_ok. by rewrite dict_keys_map.
  - unfold dict_map. by rewrite length_map.
  - intros id fl. rewrite dict_get_map. destruct (dict_get (g_flights s) id) as [fl'|] eqn:E; [|done].
    intros [= <-]. apply (linked_core _ _ fl'); auto.
Qed.

Lemma alter_flight_step s f id :
  (∀ fl, flight_core (f fl) = flight_core fl) →
  gate_step s (set_g_flights (dict_alter f (g_flights s) id) s).
Proof.
  intros Hf []. split; [|by split; try reflexivity].
  split; cbn -[dict_alter]; try done; auto with dict.
  - by rewrite length_dict_alter.
  - intros id' fl. rewrite dict_get_alter. case_decide; [|auto].
    destruct (dict_get (g_flights s) id') as [fl'|] eqn:E; [|done]. intros [= <-]. apply (linked_core _ _ fl'); auto.
Qed.

Lemma drop_flight_step s id : gate_step s (drop_flight id s).
Proof.
  intros []. split; [|by split; try reflexivity].
  split; cbn -[dict_pop]; try done; auto with dict.
  - pose proof (length_dict_pop_le (g_flights s) id). lia.
  - intros id' fl Hfl. apply dict_get_pop_some in Hfl; auto.
Qed.

Lemma add_flight_step s f :
  Z.of_nat (length (g_flights s)) < MAX_OPEN_DISPATCHES →
  flight_linked (g_ledger s) (f_receipt_id f) f → gate_step s (add_flight f s).
Proof.
  intros Hlen Hl []. split; [|by split; try reflexivity].
  split; cbn -[dict_set]; try done; auto with dict.
  - pose proof (length_dict_set_le (g_flights s) (f_receipt_id f) f). lia.
  - intros id fl. rewrite dict_get_set. case_decide; [by intros [= <-]; subst|auto].
Qed.

Lemma sweep_overdue_step now : within gate_step (_sweep_overdue now).
Proof.
  intros s. cbn. etransitivity; [apply (map_flights_step s (mark_overdue now))|by apply gate_same_step].
  intros fl. unfold mark_overdue. by repeat case_match.
Qed.

Lemma remove_scope_step id s : gate_step s (remove_scope id s).
Proof.
  intros []. split; [|by split; try reflexivity].
  assert (Hc : ∀ id', dict_get (dict_pop (g_scope_charge s) id) id' =
    if decide (id = id') then None else dict_get (g_scope_charge s) id') by (intros; by apply dict_get_pop).
  assert (Hl : ∀ id', dict_get (dict_pop (g_scope_by_lease s) id) id' =
    if decide (id = id') then None else dict_get (g_scope_by_lease s) id') by (intros; by apply dict_get_pop).
  split; cbn -[dict_pop dict_sum]; try done; auto with dict.
  - intros id'. rewrite Hc, Hl. by case_decide.
  - destruct (dict_get (g_scope_charge s) id) as [c|] eqn:E; cbn [default].
    + rewrite (dict_sum_pop _ _ _ c) by done. rewrite gw_bytes0. done.
    + rewrite dict_pop_absent by done. rewrite gw_bytes0. cbn. lia.
  - destruct (dict_get (g_scope_charge s) id) as [c|] eqn:E; cbn; [|lia].
    specialize (gw_charge_pos0 id c E). unfold SCOPE_ENTRY_OVERHEAD_BYTES in *. lia.
  - pose proof (length_dict_pop_le (g_scope_by_lease s) id). lia.
  - intros id' c. rewrite Hc. case_decide; [done|]. apply gw_charge_pos0.
  - intros id' e. rewrite Hl. case_decide; [done|]. apply gw_issued0.
Qed.

Lemma within_remove_scope id : within gate_step (_remove_scope_entry id).
Proof. apply within_modify, remove_scope_step. Qed.
#[export] Hint Resolve within_read_clock sweep_overdue_step within_remove_scope within_caught : within.

Lemma within_prune_scope now : within gate_step (_prune_scope now).
Proof. unfold _prune_scope. within_auto. Qed.
#[export] Hint Resolve within_prune_scope : within.

Lemma within_gate_advance : within gate_step _advance.
Proof. unfold _advance. within_auto. Qed.
#[export] Hint Resolve within_gate_advance : within.

Lemma within_tick : within gate_step _tick.
Proof. unfold _tick. within_auto. Qed.

Lemma within_new_ref : within gate_step new_ref.
Proof. intros s. by apply gate_same_step. Qed.

Lemma within_set_hold code : within gate_step (modify (hold_gate code)).
Proof. apply within_modify, hold_step. Qed.

Lemma within_drop_flight id : within gate_step (modify (drop_flight id)).
Proof. apply within_modify. intros s. apply drop_flight_step. Qed.

Lemma within_update_flight f id :
  (∀ fl, flight_core (f fl) = flight_core fl) → within gate_step (update_flight f id).
Proof. intros Hf. apply within_modify. intros s. by apply alter_flight_step. Qed.

Lemma drain_step s : gate_step s (_drain_aborts s).
Proof. by apply gate_same_step. Qed.

Lemma within_drained {A} (m : st DispatchGate A) : within gate_step m → within gate_step (drained m).
Proof.
  intros Hm s. specialize (Hm s). unfold drained. destruct (m s) as [o s']. cbn in *.
  etransitivity; [exact Hm|apply drain_step].
Qed.
#[export] Hint Resolve within_tick within_new_ref within_set_hold within_drop_flight within_update_flight
  within_drained within_on_registry within_on_ledger : within.
