(* ===== verification/DispatchOps.v ===== *)
(** * What the gate's methods do

    The step each public method of Dispatch.v makes, and runs of any sequence
    of calls on the gate, the registry and the ledger. *)

From S2P Require Import Prelude PyValue PyJson Services Sha256 HttpResponse CanonJson Scope.
From S2P Require Leases Receipts.
From S2P Require Import LeasesInv LeasesOps ReceiptsInv ReceiptsOps Dispatch DispatchInv.
Local Open Scope string_scope.
Local Open Scope Z_scope.

(** ** Frames of calls on the two parts *)
Lemma on_registry_frame {A} (m : st Leases.LeaseRegistry A) s :
  ∃ reg, (on_registry m s).2 = set_g_registry reg s.
Proof. unfold on_registry, zoom. destruct (m (g_registry s)). eauto. Qed.

Lemma on_ledger_frame {A} (m : st Receipts.ReceiptLedger A) s :
  ∃ l, (on_ledger m s).2 = set_g_ledger l s.
Proof. unfold on_ledger, zoom. destruct (m (g_ledger s)). eauto. Qed.

Lemma caught_snd {A} c (m : st DispatchGate A) s : (caught c m s).2 = (m s).2.
Proof. unfold caught. destruct (m s) as [[a|e] s']; [done|]. by case_match. Qed.

(** ** The scope store *)
Record scope_shrinks (s s' : DispatchGate) : Prop := {
  ss_registry : g_registry s' = g_registry s;
  ss_absent : ∀ id, dict_get (g_scope_by_lease s) id = None → dict_get (g_scope_by_lease s') id = None;
}.
#[export] Instance scope_shrinks_po : PreOrder scope_shrinks.
Proof. split; [by split|]. intros s1 s2 s3 [] []. split; [congruence|auto]. Qed.

Lemma shrinks_remove id : within scope_shrinks (_remove_scope_entry id).
Proof. apply within_modify. intros s. split; [done|]. cbn. intros id' H. by apply dict_get_pop_none. Qed.
#[export] Hint Resolve shrinks_remove : within.

Lemma shrinks_prune now : within scope_shrinks (_prune_scope now).
Proof. unfold _prune_scope. within_auto. Qed.
#[export] Hint Resolve shrinks_prune : within.

Lemma shrinks_room now c live : within scope_shrinks (make_scope_room now c live).
Proof. unfold make_scope_room, remove_stale. within_auto. Qed.

Lemma within_make_scope_room now c live : within gate_step (make_scope_room now c live).
Proof. unfold make_scope_room, remove_stale. within_auto. Qed.
#[export] Hint Resolve shrinks_room within_make_scope_room : within.

Lemma make_scope_room_ret now c live s s' :
  make_scope_room now c live s = (Ret tt, s') → _over_scope_capacity c s' = false.
Proof.
  unfold make_scope_room. rewrite bind_gets. destruct (_over_scope_capacity c s) eqn:E.
  - intros H. inv_do. subst. by apply negb_true_iff.
  - by intros [= <-].
Qed.

Lemma store_scope_step s e index charge :
  dict_get (g_scope_by_lease s) (se_lease_id e) = None → _over_scope_capacity charge s = false →
  lease_issued (g_registry s) (se_lease_id e) → SCOPE_ENTRY_OVERHEAD_BYTES ≤ charge →
  gate_step s (store_scope e index charge s).
Proof.
  intros Hnone Hcap Hiss Hpos Hs. pose proof Hs as [].
  unfold _over_scope_capacity in Hcap. bool_simpl.
  assert (Hcn : dict_get (g_scope_charge s) (se_lease_id e) = None).
  { destruct (dict_get (g_scope_charge s) (se_lease_id e)) eqn:E; [|done].
    assert (X : is_Some (dict_get (g_scope_by_lease s) (se_lease_id e))) by (apply gw_charged; eauto).
    rewrite Hnone in X. by destruct X. }
  split; [|by split; try reflexivity].
  split; cbn -[dict_set dict_sum]; try done; auto with dict.
  - intros id'. rewrite !dict_get_set. case_decide; [split; eauto|done].
  - rewrite dict_set_fresh, dict_sum_app by done. cbn. lia.
  - rewrite dict_set_fresh, length_app by done. cbn. lia.
  - intros id' c. rewrite dict_get_set. case_decide; [by intros [= <-]|apply gw_charge_pos].
  - intros id' e'. rewrite dict_get_set. case_decide; [by intros [= <-]; subst|apply gw_issued].
Qed.

Lemma snapshot_item_issued reg s' snap id m :
  wf reg → Leases.snapshot reg = (Ret snap, s') → lease_item snap id = Some m → lease_issued s' id.
Proof.
  intros Hs E Hm. pose proof (within_snapshot reg Hs) as [Hs' _]. rewrite E in Hs'. cbn in Hs'.
  unfold Leases.snapshot in E. apply bind_ret_inv in E as (o & s1 & _ & E).
  apply bind_ret_inv in E as (t & s2 & _ & E). apply bind_ret_inv in E as (u & s3 & _ & E).
  injection E as <- <-. unfold lease_item in Hm. cbn in Hm.
  apply List.find_some in Hm as [Hin Hid]. bool_simpl.
  apply in_map_iff in Hin as (r & <- & Hr). apply list_elem_of_In in Hr.
  apply dict_get_values in Hr as [k Hk]; [|apply Hs'].
  destruct (wf_rec _ Hs' k r Hk) as [Hkid _ _ _ (i & Hi & Hdr & _) _ _ _ _ _].
  exists i. split; [done|]. cbn in Hid. congruence.
Qed.

Lemma on_registry_ret {A} (m : st Leases.LeaseRegistry A) s a s' :
  on_registry m s = (Ret a, s') → ∃ reg, m (g_registry s) = (Ret a, reg) ∧ s' = set_g_registry reg s.
Proof. unfold on_registry, zoom. destruct (m (g_registry s)) as [o reg]. intros [= -> <-]. eauto. Qed.

Lemma on_ledger_ret {A} (m : st Receipts.ReceiptLedger A) s a s' :
  on_ledger m s = (Ret a, s') → ∃ l, m (g_ledger s) = (Ret a, l) ∧ s' = set_g_ledger l s.
Proof. unfold on_ledger, zoom. destruct (m (g_ledger s)) as [o l]. intros [= -> <-]. eauto. Qed.

Lemma caught_ret {A} c (m : st DispatchGate A) s a s' :
  caught c m s = (Ret (Ret a), s') → m s = (Ret a, s').
Proof.
  unfold caught. destruct (m s) as [[b|e] s1]; [by intros [= -> ->]|]. by case_match.
Qed.

(** A step that follows a call, judged in the state that call left. *)
Lemma step_call {A B} (m : st DispatchGate A) (k : A → st DispatchGate B) s :
  within gate_step m →
  (∀ a s', m s = (Ret a, s') → gate_wf s → gate_wf s' → gate_step s' (k a s').2) →
  gate_step s ((m ≫= k) s).2.
Proof.
  intros Hm Hk Hs. assert (Hst : gate_step s ((m ≫= k) s).2); [|by apply Hst].
  apply step_within; [apply _|done|]. intros a s' E Hs'. by apply (Hk a s' E).
Qed.

Lemma within_install_locked grant manifest : within gate_step (_install_scope_locked grant manifest).
Proof.
  unfold _install_scope_locked. do 8 (apply within_bind; [apply _|solve [auto with within nocore | within_auto]|intros]).
  intros s. apply step_call; [auto with within|]. intros snap s1 E Hs Hs1.
  apply on_registry_ret in E as (reg & E & ->).
  destruct (lease_item snap (Leases.lg_lease_id grant)) as [m|] eqn:Hm; [|reflexivity].
  assert (Hiss : lease_issued reg (Leases.lg_lease_id grant))
    by (eapply snapshot_item_issued; [apply (gw_registry _ Hs)|exact E|exact Hm]).
  do 3 read_step. case_match; [|reflexivity]. read_step.
  case_match; [repeat read_step; reflexivity|]. do 2 read_step. cbn zeta.
  set (charge := str_len (sm_canonical manifest) + SCOPE_ENTRY_OVERHEAD_BYTES).
  apply step_call; [auto with within|]. intros [] s2 E2 _ Hs2.
  pose proof (shrinks_room a1 charge (map Leases.lm_lease_id (Leases.rs_leases snap)) (set_g_registry reg s)) as Hsh.
  rewrite E2 in Hsh. destruct Hsh as [Hreg Habs]. cbn in Hreg, Habs.
  apply make_scope_room_ret in E2 as Hcap.
  rewrite (bind_ret_eq new_ref _ s2 (g_refs s2) (set_g_refs (S (g_refs s2)) s2)) by done.
  rewrite bind_modify. transitivity (set_g_refs (S (g_refs s2)) s2); [by apply gate_same_step|].
  apply store_scope_step; cbn.
  - apply Habs. by symmetry.
  - exact Hcap.
  - by rewrite Hreg.
  - pose proof (str_len_nonneg (sm_canonical manifest)). unfold charge. lia.
Qed.

Lemma within_install_scope g m : within gate_step (install_scope g m).
Proof. unfold install_scope. pose proof within_install_locked. within_auto. Qed.

Lemma within_resolve a b : within gate_step (resolve a b).
Proof. unfold resolve. within_auto. Qed.

Lemma within_precheck e t : within gate_step (precheck e t).
Proof. unfold precheck. within_auto. Qed.

Lemma within_deny e r d w n t : within gate_step (deny e r d w n t).
Proof. unfold deny. within_auto. Qed.

Lemma within_finalize_and_drop f ds why : within gate_step (_finalize_and_drop f ds why).
Proof. unfold _finalize_and_drop. within_auto. Qed.
#[export] Hint Resolve within_install_scope within_resolve within_precheck within_deny
  within_finalize_and_drop : within.

Lemma within_reserve_locked e r d n t : within gate_step (_reserve_locked e r d n t).
Proof.
  unfold _reserve_locked. do 3 (apply within_bind; [apply _|within_auto|intros]).
  case_match; [|within_auto]. intros g. read_step. case_match; [|reflexivity].
  do 5 read_step. apply step_call; [auto with within|]. intros o g1 E Hs Hs1.
  destruct o as [reservation|x]; [|reflexivity].
  apply caught_ret, on_ledger_ret in E as (l & E & ->). rewrite bind_gets.
  rewrite (bind_ret_eq new_ref _ _ (g_refs g) (set_g_refs (S (g_refs g)) (set_g_ledger l g))) by done.
  rewrite bind_modify.
  transitivity (set_g_refs (S (g_refs g)) (set_g_ledger l g)); [by apply gate_same_step|].
  destruct (reserve_ret _ _ _ _ _ _ _ _ _ _ _ (gw_ledger _ Hs) E)
    as (id & e0 & -> & He0 & _ & Href & [= Hl] & [= Hv] & [= Hrt] & Hd).
  apply add_flight_step; cbn; [subst; bool_simpl; lia|].
  split; cbn; try done. intros e1 He1 _. simplify_eq. split_and!; try done.
  unfold Receipts._finite, finite_number in Hd. cbn in Hd. destruct (isfinite t); [by injection Hd|done].
Qed.

Lemma within_gate_reserve e r d n t : within gate_step (reserve e r d n t).
Proof. unfold reserve. pose proof within_reserve_locked. within_auto. Qed.

Lemma within_checked_lease f t : within gate_step (_checked_lease f t).
Proof. unfold _checked_lease. within_auto. Qed.
#[export] Hint Resolve within_gate_reserve within_checked_lease : within.

Lemma within_deny_admission f c : within gate_step (_deny_admission f c).
Proof. unfold _deny_admission. cbn zeta. within_auto. Qed.

Lemma within_deny_write f c : within gate_step (_deny_write f c).
Proof. unfold _deny_write. within_auto. Qed.

Lemma within_refreshed f : within gate_step (refreshed f).
Proof. unfold refreshed. within_auto. Qed.

Lemma within_admitted_flight h : within gate_step (admitted_flight h).
Proof. unfold admitted_flight. within_auto. Qed.

Lemma within_set_admitted r id : within gate_step (update_flight (set_f_admitted r) id).
Proof. apply within_update_flight. by intros. Qed.

Lemma within_set_writing id : within gate_step (update_flight set_f_writing id).
Proof. apply within_update_flight. by intros. Qed.

Lemma within_set_abort a id : within gate_step (update_flight (set_f_abort a) id).
Proof. apply within_update_flight. by intros. Qed.
#[export] Hint Resolve within_deny_admission within_deny_write within_refreshed within_admitted_flight
  within_set_admitted within_set_writing within_set_abort : within.

Lemma within_admit_locked h t : within gate_step (_admit_locked h t).
Proof. unfold _admit_locked. cbn zeta. within_auto. Qed.

Lemma within_begin_write_locked h t : within gate_step (_begin_write_locked h t).
Proof. unfold _begin_write_locked. cbn zeta. within_auto. Qed.

Lemma within_closeout_locked l : within gate_step (_closeout_locked l).
Proof. unfold _closeout_locked. cbn zeta. within_auto. Qed.
#[export] Hint Resolve within_admit_locked within_begin_write_locked within_closeout_locked : within.

Lemma within_admit h t : within gate_step (gate_admit h t).
Proof. unfold gate_admit. within_auto. Qed.

Lemma within_begin_write h t : within gate_step (begin_write h t).
Proof. unfold begin_write. within_auto. Qed.

Lemma within_attach_abort h a : within gate_step (attach_abort h a).
Proof. unfold attach_abort. within_auto. Qed.

Lemma within_finish h ds why up : within gate_step (finish h ds why up).
Proof. unfold finish. within_auto. Qed.

Lemma within_release h : within gate_step (release h).
Proof. unfold release. cbn zeta. within_auto. Qed.

Lemma within_is_admitted h : within gate_step (is_admitted h).
Proof. unfold is_admitted. within_auto. Qed.

Lemma within_closeout l : within gate_step (closeout l).
Proof. unfold closeout. within_auto. Qed.

Lemma within_gate_now : within gate_step now.
Proof. unfold now. within_auto. Qed.

Lemma within_gate_snapshot : within gate_step snapshot.
Proof. unfold snapshot. within_auto. Qed.

(** ** Shutdown *)
Lemma close_step s :
  gate_step s (let s1 := set_g_closed true s in
    if bool_decide (g_gate_state s1 = GReady) then set_g_gate_state GClosed s1 else s1).
Proof.
  cbn zeta. intros Hs. pose proof (gw_held _ Hs) as Hheld. destruct Hs. case_bool_decide as Hst; cbn in Hst.
  - split; [split; cbn; try done|split; cbn; try done; reflexivity].
    split; [|done]. intros Hh. apply Hheld in Hh. congruence.
  - split; [split; cbn; try done|split; cbn; try done; reflexivity].
Qed.

Lemma fire_at_shutdown_id f : flight_core (fire_at_shutdown f) = flight_core f.
Proof. unfold fire_at_shutdown. by case_match. Qed.

Lemma call_aborts_step calls s : gate_step s (call_aborts calls s).
Proof. by apply gate_same_step. Qed.

Lemma within_shutdown : within gate_step shutdown.
Proof.
  intros s. unfold shutdown. pose proof (close_step s) as Hc. cbn zeta in Hc |- *.
  set (s2 := if bool_decide _ then _ else _) in *.
  destruct (negb (g_closed s)); cbn [snd]; [|done].
  etransitivity; [exact Hc|]. etransitivity; [|apply call_aborts_step].
  apply map_flights_step, fire_at_shutdown_id.
Qed.

(** ** Sequences of calls

    The gate's clients call its methods; the control handler calls the registry
    and the delivery handler calls the ledger, in any order. *)
Inductive gate_call :=
| CallInstallScope (grant : option Leases.LeaseGrant) (manifest : option ScopeManifest)
| CallResolve (service sentinel : pyval)
| CallPrecheck (entry : option entry_token) (sentinel : pyval)
| CallDeny (entry : option entry_token) (route_id request_digest reason request_bytes deadline : pyval)
| CallGateReserve (entry : option entry_token) (routed : option RoutedRequest)
    (request_digest request_bytes deadline : pyval)
| CallAdmit (h : Receipts.handle) (sentinel : pyval)
| CallAttachAbort (admission : Receipts.handle) (abort : option abort_call)
| CallBeginWrite (admission : Receipts.handle) (sentinel : pyval)
| CallFinish (admission : Receipts.handle) (dispatch_state reason : pyval) (upstream_response : Receipts.response_arg)
| CallRelease (token : Receipts.handle)
| CallIsAdmitted (admission : Receipts.handle)
| CallCloseout (lease_id : pyval)
| CallShutdown
| CallGateNow
| CallGateSnapshot
| CallRegistry (c : registry_call)
| CallLedger (c : ledger_call).

Definition run_gate_call (c : gate_call) : st DispatchGate unit :=
  match c with
  | CallInstallScope g m => install_scope g m;; mret tt
  | CallResolve v t => resolve v t;; mret tt
  | CallPrecheck e t => precheck e t;; mret tt
  | CallDeny e r d w n t => deny e r d w n t;; mret tt
  | CallGateReserve e r d n t => reserve e r d n t;; mret tt
  | CallAdmit h t => gate_admit h t;; mret tt
  | CallAttachAbort h a => attach_abort h a;; mret tt
  | CallBeginWrite h t => begin_write h t;; mret tt
  | CallFinish h d w u => finish h d w u;; mret tt
  | CallRelease h => release h;; mret tt
  | CallIsAdmitted h => is_admitted h;; mret tt
  | CallCloseout l => closeout l;; mret tt
  | CallShutdown => shutdown;; mret tt
  | CallGateNow => now;; mret tt
  | CallGateSnapshot => snapshot;; mret tt
  | CallRegistry c => on_registry (run_call c)
  | CallLedger c => on_ledger (run_ledger_call c)
  end.

Definition run_gate_calls (cs : list gate_call) (s : DispatchGate) : DispatchGate :=
  foldl (λ s c, (run_gate_call c s).2) s cs.

#[export] Hint Resolve within_admit within_begin_write within_attach_abort within_finish within_release
  within_is_admitted within_closeout within_gate_now within_gate_snapshot within_shutdown
  within_run_call within_run_ledger_call : within.

Lemma within_run_gate_call c : within gate_step (run_gate_call c).
Proof. destruct c; cbn [run_gate_call]; within_auto. Qed.

Lemma run_gate_calls_ind (R : DispatchGate → DispatchGate → Prop) `{!Reflexive R, !Transitive R} cs s :
  (∀ c, within R (run_gate_call c)) → R s (run_gate_calls cs s).
Proof.
  intros HR. unfold run_gate_calls. revert s. induction cs as [|c cs IH]; intros s; cbn; [reflexivity|].
  etransitivity; [apply HR|apply IH].
Qed.

Lemma run_gate_calls_sound cs s : gate_step s (run_gate_calls cs s).
Proof. apply run_gate_calls_ind; [apply _..|]. apply within_run_gate_call. Qed.

Lemma new_gate_wf registry ledger clock key claimed s :
  LeasesInv.wf registry → ReceiptsInv.ledger_wf ledger →
  new_gate registry ledger clock key claimed = Ret s → gate_wf s.
Proof.
  intros Hr Hl H. unfold new_gate in H. inv_do. injection H as <-. split; cbn; try done; auto with dict.
Qed.
