(* ===== verification/DispatchThm.v ===== *)
(** * Theorems about the dispatch gate

    For any clocks, any sequence of calls on the gate, the registry and the
    ledger, and any tokens: the gate stays within its bounds, it admits only
    what the registry authorised at that moment, and a shutdown, a hold and a
    closeout are final. *)

From stdpp Require Import pretty.
From S2P Require Import Prelude PyValue PyJson Services Sha256 HttpResponse CanonJson Scope.
From S2P Require Leases Receipts LeasesThm.
From S2P Require Import LeasesInv LeasesOps ReceiptsInv ReceiptsOps Dispatch DispatchInv DispatchOps.
Import Receipts (h_class, h_receipt_id, h_ref).
Import LeasesThm (authorised_by, check_authorised).
Local Open Scope string_scope.
Local Open Scope Z_scope.

(** ** What the internal steps leave alone *)

(** Only the clock, the scope store and the abort queue have moved. *)
Record parts_same (s s' : DispatchGate) : Prop := {
  ps_registry : g_registry s' = g_registry s;
  ps_ledger : g_ledger s' = g_ledger s;
  ps_clock : g_clock s' = g_clock s;
  ps_calls : (g_calls s ≤ g_calls s')%nat;
  ps_key : g_index_key s' = g_index_key s;
}.
#[export] Instance parts_same_po : PreOrder parts_same.
Proof. split; [by split|]. intros s1 s2 s3 [] []. split; try congruence. lia. Qed.

Record flights_same (s s' : DispatchGate) : Prop := {
  fs_flights : g_flights s' = g_flights s;
  fs_state : g_gate_state s' = g_gate_state s;
  fs_hold : g_hold_code s' = g_hold_code s;
}.
#[export] Instance flights_same_po : PreOrder flights_same.
Proof. split; [by split|]. intros s1 s2 s3 [] []. split; congruence. Qed.

Lemma parts_read_clock : within parts_same _read_clock.
Proof.
  intros s. unfold _read_clock. cbn zeta. destruct (reading_time _) as [t|]; [|split; cbn; auto].
  destruct (match g_last_now s with Some l => fltb t l | None => false end); split; cbn; auto.
Qed.
Lemma parts_sweep now : within parts_same (_sweep_overdue now).
Proof. apply within_modify. by split. Qed.
Lemma parts_remove id : within parts_same (_remove_scope_entry id).
Proof. apply within_modify. by split. Qed.
Lemma flights_remove id : within flights_same (_remove_scope_entry id).
Proof. apply within_modify. by split. Qed.
#[local] Hint Resolve parts_read_clock parts_sweep parts_remove flights_remove : within.

Lemma parts_advance : within parts_same _advance.
Proof. unfold _advance, _prune_scope. within_auto. Qed.
Lemma flights_prune now : within flights_same (_prune_scope now).
Proof. unfold _prune_scope. within_auto. Qed.
#[local] Hint Resolve parts_advance flights_prune : within.

(** A reading of the gate's clock in the states between [s] and [s']. *)
Definition read_between (s s' : DispatchGate) (t : float) : Prop :=
  ∃ i, (g_calls s ≤ i < g_calls s')%nat ∧ reading_time (g_clock s i) = Some t.

Lemma read_clock_ret s t s' :
  _read_clock s = (Ret (Some t), s') → flights_same s s' ∧ parts_same s s' ∧ read_between s s' t.
Proof.
  unfold _read_clock. cbn zeta. destruct (reading_time _) as [t'|] eqn:E; [|done].
  destruct (match g_last_now s with Some l => fltb t' l | None => false end); [done|].
  intros [= <- <-]. split; [by split|]. split; [by split; cbn; auto|]. exists (g_calls s). cbn. auto.
Qed.

Lemma advance_ret s now s' :
  _advance s = (Ret (inl now), s') →
  g_hold_code s = None ∧ g_flights s' = dict_map (mark_overdue now) (g_flights s) ∧
  g_gate_state s' = g_gate_state s ∧ g_hold_code s' = None ∧ parts_same s s'.
Proof.
  intros E. pose proof (parts_advance s) as Hp. rewrite E in Hp. cbn in Hp.
  unfold _advance in E. read_inv E. subst a.
  destruct (bool_decide_reflect (g_hold_code s ≠ None)) as [Hh|Hh]; [done|]. apply dec_stable in Hh.
  apply bind_ret_inv in E as ([t|] & s1 & E1 & E); [|done].
  apply read_clock_ret in E1 as ([Hf Hg Hc] & _ & _).
  apply bind_ret_inv in E as ([] & s2 & E2 & E). injection E2 as <-.
  apply bind_ret_inv in E as ([] & s3 & E3 & E). injection E as <- <-.
  pose proof (flights_prune t (set_g_abort_queue
    (g_abort_queue s1 ++ flat_map (λ kf, queued_abort t kf.2) (g_flights s1))
    (set_g_flights (dict_map (mark_overdue t) (g_flights s1)) s1))) as [Hf' Hg' Hc'].
  unfold _sweep_overdue in E3. cbn in E3. rewrite E3 in Hf', Hg', Hc'. cbn -[dict_map] in *.
  split_and!; congruence.
Qed.

Lemma mark_overdue_kept now f : f_overdue (mark_overdue now f) = false → mark_overdue now f = f.
Proof. unfold mark_overdue. repeat case_match; done. Qed.

(** ** Admission *)

(** What stands behind an admission or a write: the flight's lease was
    authorised by the registry, for this service, sentinel, generation and
    scope, at a time [rc_observed_at] that lies between two readings of the
    gate's own clock made during the call. *)
Record lease_backed (s s' : DispatchGate) (f : _Flight) (tok : string) (rc : Leases.LeaseReceipt) : Prop := {
  lb_authorised : ∃ r, authorised_by (VStr (f_service f)) (VStr tok) (VStr (f_generation f))
    (VStr (f_scope_digest f)) (Leases.rc_observed_at rc) rc (g_registry s') (f_lease_id f) r;
  lb_before : ∃ b, read_between s s' b ∧ fleb b (Leases.rc_observed_at rc) = true;
  lb_after : ∃ a, read_between s s' a ∧ fleb (Leases.rc_observed_at rc) a = true;
}.

Lemma checked_lease_ret f tok s rc s' :
  gate_wf s → _checked_lease f tok s = (Ret (inl rc), s') →
  lease_backed s s' f tok rc ∧ flights_same s s' ∧ g_ledger s' = g_ledger s ∧ g_clock s' = g_clock s ∧
  (g_calls s ≤ g_calls s')%nat ∧ g_index_key s' = g_index_key s.
Proof.
  intros Hs E. unfold _checked_lease in E. apply bind_ret_inv in E as ([b|] & s1 & E1 & E); [|done].
  apply read_clock_ret in E1 as (F1 & P1 & (i & Hi & Hb)).
  apply bind_ret_inv in E as (checked & s2 & E2 & E).
  apply bind_ret_inv in E as ([a|] & s3 & E3 & E); [|done].
  apply read_clock_ret in E3 as (F3 & P3 & (j & Hj & Ha)).
  destruct checked as [rc'|x]; [|done].
  destruct (bool_decide (Leases.rc_authorized rc' = Some true)) eqn:Hau; [|done].
  destruct (bool_decide (Leases.rc_lease_id rc' = Some (f_lease_id f))) eqn:Hid; [|done]. cbn in E.
  destruct (fleb b (Leases.rc_observed_at rc')) eqn:Hle1; [|done].
  destruct (fleb (Leases.rc_observed_at rc') a) eqn:Hle2; [|done]. injection E as <- <-. bool_simpl.
  apply caught_ret, on_registry_ret in E2 as (reg & Hc & ->).
  destruct P1 as [Hr1 Hl1 Hc1 Hn1 Hk1], P3 as [Hr3 Hl3 Hc3 Hn3 Hk3]. cbn in *. rewrite Hr1 in Hc.
  destruct (check_authorised _ _ _ _ _ _ _ (gw_registry _ Hs) Hc Hau) as (t & id & r & _ & Hab).
  pose proof (LeasesThm.ab_observed _ _ _ _ _ _ _ _ _ Hab) as <-.
  pose proof (LeasesThm.ab_lease _ _ _ _ _ _ _ _ _ Hab) as Hl. rewrite Hid in Hl. injection Hl as <-.
  split_and!; try congruence; [|by transitivity s1; [done|transitivity (set_g_registry reg s1)]|lia].
  split.
  - exists r. by rewrite Hr3.
  - exists b. split; [|done]. exists i. split; [lia|congruence].
  - exists a. split; [|done]. exists j. split; [lia|congruence].
Qed.

Lemma refreshed_kept s now s' id f f' s'' :
  g_flights s' = dict_map (mark_overdue now) (g_flights s) → dict_get (g_flights s) id = Some f →
  f_receipt_id f = id → refreshed f s' = (Ret f', s'') → f_overdue f' = false →
  f' = f ∧ s'' = s' ∧ dict_get (g_flights s') id = Some f.
Proof.
  intros Hm Hf Hid E Ho. unfold refreshed in E. injection E as <- <-. rewrite Hid, Hm, dict_get_map, Hf in *.
  cbn in *. by rewrite mark_overdue_kept.
Qed.

Lemma ledger_advance_ret from to h l l' :
  ledger_wf l → from ≠ Receipts.EFinalized → Receipts.advance from to h l = (Ret tt, l') →
  ∃ id e, Receipts.h_receipt_id h = VStr id ∧ Receipts.e_reservation e = Receipts.h_ref h ∧
    Receipts.e_state e = from ∧ dict_get (Receipts.l_entries l) id = Some e ∧
    dict_get (Receipts.l_entries l') id = Some (Receipts.set_state to e).
Proof.
  intros Hl Hfrom H. unfold Receipts.advance in H. apply bind_ret_inv in H as (now & l1 & E & H).
  destruct (ledger_now_ret _ _ _ Hl E) as (Hl1 & _ & Hp). read_inv H. destruct P as (id & Hid & _ & He & Href).
  read_inv H. read_inv H. bool_simpl. injection H as <-. exists id, a.
  destruct (lp_due _ _ _ Hp id a He) as (_ & _ & e0 & He0 & [->|(_ & fs & rcpt & ->)]); [|by subst].
  split_and!; try done. cbn.
  rewrite (ew_id _ _ _ (lw_entry _ Hl1 id e0 He)), dict_get_alter, decide_True, He; done.
Qed.

Lemma lease_backed_ext s s1 s' f tok rc :
  lease_backed s s1 f tok rc → g_registry s' = g_registry s1 → g_calls s' = g_calls s1 →
  lease_backed s s' f tok rc.
Proof.
  unfold read_between. intros [(r & Ha) (b & (i & Hi & Hb) & Hb') (a & (j & Hj & Ha') & Ha'')] Hr Hc. split.
  - exists r. by rewrite Hr.
  - exists b. split; [|done]. exists i. by rewrite Hc.
  - exists a. split; [|done]. exists j. by rewrite Hc.
Qed.

Lemma lease_backed_from s0 s s' f tok rc :
  lease_backed s s' f tok rc → g_clock s = g_clock s0 → (g_calls s0 ≤ g_calls s)%nat →
  lease_backed s0 s' f tok rc.
Proof.
  unfold read_between. intros [Ha (b & (i & Hi & Hb) & Hb') (a & (j & Hj & Ha') & Ha'')] Hk Hc. split; [done| |].
  - exists b. split; [|done]. exists i. rewrite <-Hk. split; [lia|done].
  - exists a. split; [|done]. exists j. rewrite <-Hk. split; [lia|done].
Qed.

Lemma checked_lease_code f tok s code s' :
  _checked_lease f tok s = (Ret (inr code), s') → code = "gate_held" ∨ code = "lease_denied".
Proof.
  intros E. unfold _checked_lease in E. apply bind_ret_inv in E as ([b|] & s1 & E1 & E); [|injection E; auto].
  apply bind_ret_inv in E as (checked & s2 & E2 & E).
  apply bind_ret_inv in E as ([a|] & s3 & E3 & E); [|injection E; auto].
  destruct checked; [|injection E; auto].
  destruct (bool_decide _ && bool_decide _); [|injection E; auto].
  destruct (fleb _ _ && fleb _ _); [done|]. rewrite bind_modify in E. injection E; auto.
Qed.

Lemma deny_admission_code f code s o s' : _deny_admission f code s = (Ret o, s') → ao_code o = code.
Proof. unfold _deny_admission. cbn zeta. intros H. by apply bind_ret_inv in H as (r & s1 & _ & [= <- <-]). Qed.

Lemma deny_write_code f code s o s' : _deny_write f code s = (Ret o, s') → wo_code o = code.
Proof. unfold _deny_write. intros H. by apply bind_ret_inv in H as (r & s1 & _ & [= <- <-]). Qed.

Lemma drained_ret {A} (m : st DispatchGate A) s a s' :
  drained m s = (Ret a, s') → ∃ s1, m s = (Ret a, s1) ∧ s' = _drain_aborts s1.
Proof. unfold drained. destruct (m s) as [[x|] s1]; [|done]. intros [= -> <-]. eauto. Qed.

(** What an admission stands for, in the states before and after [admit]. *)
Record admission_granted (s s' : DispatchGate) (h : Receipts.handle) (tok id : string) (f : _Flight)
    (a : Admission) : Prop := {
  ag_handle : h_class h = "DispatchHandle" ∧ h_receipt_id h = VStr id ∧ f_handle f = h_ref h;
  ag_flight : dict_get (g_flights s) id = Some f ∧ f_phase f = PReserved ∧ f_overdue f = false;
  ag_ready : g_gate_state s = GReady;
  ag_permit : f_requires_permit f = false;
  ag_index : f_index f = _index_for (f_service f) tok s ∧ f_index f ≠ None;
  ag_lease : ∃ rc, lease_backed s s' f tok rc ∧ Leases.rc_observed_at rc = ad_admitted_at a ∧
    fltb (f_deadline f) (fadd (fadd (ad_admitted_at a) RESPONSE_MARGIN_SECONDS) MIN_ADMISSION_SECONDS) = false;
  ag_receipt : ∃ e, dict_get (Receipts.l_entries (g_ledger s)) id = Some e ∧
    Receipts.e_state e = Receipts.EReserved ∧ Receipts.e_lease_id e = f_lease_id f ∧
    dict_get (Receipts.l_entries (g_ledger s')) id = Some (Receipts.set_state Receipts.EConnecting e);
  ag_admitted : dict_get (g_flights s') id = Some (set_f_admitted (ad_ref a) f);
  ag_fields : ad_receipt_id a = id ∧ ad_lease_id a = f_lease_id f ∧ ad_service a = f_service f ∧
    ad_deadline a = f_deadline f ∧
    ad_connect_deadline a = fmin (fadd (ad_admitted_at a) CONNECT_SECONDS) (f_exchange_deadline f);
}.

(** The calls of [admit] and [begin_write] up to the registry's answer. *)
Lemma checked_flight_ret s now s1 id f tok rc s2 :
  gate_wf s → dict_get (g_flights s) id = Some f → _advance s = (Ret (inl now), s1) →
  dict_get (g_flights s1) id = Some f → _checked_lease f tok s1 = (Ret (inl rc), s2) →
  lease_backed s s2 f tok rc ∧ g_ledger s2 = g_ledger s ∧ dict_get (g_flights s2) id = Some f.
Proof.
  intros Hs Hf Ea Hf1 Ec. pose proof (within_gate_advance s Hs) as [Hs1 _]. rewrite Ea in Hs1. cbn in Hs1.
  apply advance_ret in Ea as (_ & _ & _ & _ & [Hr Hl Hk Hn Hi]).
  destruct (checked_lease_ret _ _ _ _ _ Hs1 Ec) as (Hb & [Hfl _ _] & Hl2 & _).
  split_and!; [by eapply lease_backed_from|congruence|congruence].
Qed.

Lemma sentinel_matches_inv f tok s s1 :
  g_index_key s1 = g_index_key s → sentinel_matches f tok s1 = true →
  f_index f = _index_for (f_service f) tok s ∧ f_index f ≠ None.
Proof.
  unfold sentinel_matches, _index_for. intros ->.
  destruct (ascii_encodable _ && _); [|done]. intros X. bool_simpl. by rewrite X.
Qed.

Lemma ready_gate s s1 : gate_wf s → g_hold_code s = None → g_gate_state s1 = g_gate_state s →
  g_gate_state s1 ≠ GClosed → g_gate_state s = GReady.
Proof.
  intros Hs Hh He Hc. rewrite He in Hc. destruct (g_gate_state s) eqn:E; [done|done|].
  by apply (gw_held _ Hs) in E.
Qed.

Lemma admit_ret h sentinel s o s' :
  gate_wf s → gate_admit h sentinel s = (Ret o, s') → ao_code o = "admitted" →
  ∃ tok id f a, sentinel = VStr tok ∧ ao_admission o = Some a ∧ admission_granted s s' h tok id f a.
Proof.
  intros Hs H Hcode. unfold gate_admit in H. read_inv H. apply bool_decide_eq_true in P as Hcls. clear P a.
  destruct sentinel as [| | | |tok|]; try done. apply drained_ret in H as (s9 & H & ->). unfold _admit_locked in H.
  read_inv H. destruct a as [f|]; [|done]. unfold _flight_for in P.
  destruct (h_receipt_id h) as [| | | |id|] eqn:Hid; try done. symmetry in P.
  read_inv H. read_inv H. bool_simpl. rename P into Hf, P0 into Hh, P1 into Hph.
  pose proof (fl_id _ _ _ (gw_flight _ Hs id f Hf)) as Hfid.
  apply bind_ret_inv in H as ([t|c] & s1 & Ea & H); [|by apply deny_admission_code in H; congruence].
  destruct (advance_ret _ _ _ Ea) as (Hhold & Hfl1 & Hst1 & _ & Hps).
  apply bind_ret_inv in H as (f' & s1' & Er & H). destruct (f_overdue f') eqn:Hov; [done|].
  destruct (refreshed_kept _ _ _ _ _ _ _ Hfl1 Hf Hfid Er Hov) as (-> & -> & Hf1). clear Er.
  read_inv H. read_inv H. subst a1 a2.
  destruct (bool_decide_reflect (g_gate_state s1 = GClosed)) as [|Hncl];
    [by apply deny_admission_code in H; congruence|].
  destruct (sentinel_matches f tok s1) eqn:Hm; cbn [negb] in H;
    [|by apply deny_admission_code in H; congruence].
  destruct (f_requires_permit f) eqn:Hpm; [by apply deny_admission_code in H; congruence|].
  apply bind_ret_inv in H as ([rc|c] & s2 & Ec & H);
    [|apply checked_lease_code in Ec as [-> | ->]; by apply deny_admission_code in H; congruence].
  destruct (checked_flight_ret _ _ _ _ _ _ _ _ Hs Hf Ea Hf1 Ec) as (Hb & Hl2 & Hf2). cbn zeta in H.
  destruct (fltb (f_deadline f) _) eqn:Hdl; [by apply deny_admission_code in H; congruence|].
  apply bind_ret_inv in H as ([[]|x] & s3 & Eb & H); [|done].
  apply caught_ret, on_ledger_ret in Eb as (l & Eb & ->). rewrite Hl2 in Eb.
  destruct (ledger_advance_ret Receipts.EReserved Receipts.EConnecting _ _ _ (gw_ledger _ Hs) ltac:(done) Eb)
    as (id' & e & Hid' & Href & Hes & He & He').
  rewrite (fl_receipt _ _ _ (gw_flight _ Hs id f Hf)) in Hid'. injection Hid' as <-.
  destruct (fl_entry _ _ _ (gw_flight _ Hs id f Hf) e He Href) as (Hel & _).
  apply bind_ret_inv in H as (r & s4 & En & H). injection En as <- <-.
  unfold update_flight in H. rewrite bind_modify in H. injection H as <- <-.
  eexists tok, id, f, _. split; [done|]. split; [done|]. split; cbn -[dict_alter]; try done.
  - by apply (ready_gate s s1).
  - apply (sentinel_matches_inv _ _ s s1); [apply Hps|done].
  - exists rc. split_and!; [|done|done]. by eapply lease_backed_ext.
  - exists e. done.
  - by rewrite Hfid, dict_get_alter, decide_True, Hf2.
Qed.

(** What a permission to write stands for. *)
Record write_granted (s s' : DispatchGate) (h : Receipts.handle) (tok id : string) (f : _Flight)
    (deadline : float) : Prop := {
  wg_token : h_class h = "Admission" ∧ h_receipt_id h = VStr id ∧ f_admission f = Some (h_ref h);
  wg_flight : dict_get (g_flights s) id = Some f ∧ f_phase f ≠ PWriting ∧ f_overdue f = false;
  wg_ready : g_gate_state s = GReady;
  wg_permit : f_requires_permit f = false;
  wg_index : f_index f = _index_for (f_service f) tok s ∧ f_index f ≠ None;
  wg_lease : ∃ rc, lease_backed s s' f tok rc ∧
    fltb (f_exchange_deadline f) (fadd (Leases.rc_observed_at rc) MIN_WRITE_SECONDS) = false ∧
    deadline = fmin (fadd (Leases.rc_observed_at rc) WRITE_SECONDS) (f_exchange_deadline f);
  wg_receipt : ∃ e, dict_get (Receipts.l_entries (g_ledger s)) id = Some e ∧
    Receipts.e_state e = Receipts.EConnecting ∧ Receipts.e_lease_id e = f_lease_id f ∧
    dict_get (Receipts.l_entries (g_ledger s')) id = Some (Receipts.set_state Receipts.EDispatched e);
  wg_writing : dict_get (g_flights s') id = Some (set_f_writing f);
}.

Lemma reads_admitted_flight h s :
  reads (admitted_flight h) s (λ f, ∃ id, h_receipt_id h = VStr id ∧
    dict_get (g_flights s) id = Some f ∧ f_admission f = Some (h_ref h)).
Proof.
  unfold admitted_flight. read_step. subst. unfold _flight_for.
  destruct (h_receipt_id h) as [| | | |id|]; try by split.
  destruct (dict_get (g_flights s) id) as [f|] eqn:E; [|by split]. read_step. read_last. bool_simpl. subst. eauto.
Qed.
#[local] Hint Resolve reads_admitted_flight : reads.

Lemma begin_write_ret h sentinel s o s' :
  gate_wf s → begin_write h sentinel s = (Ret o, s') → wo_code o = "write_admitted" →
  ∃ tok id f d, sentinel = VStr tok ∧ wo_write_deadline o = Some d ∧ write_granted s s' h tok id f d.
Proof.
  intros Hs H Hcode. unfold begin_write in H. read_inv H. rename P into Hcls. clear a.
  destruct sentinel as [| | | |tok|]; try done. apply drained_ret in H as (s9 & H & ->).
  unfold is_admission in Hcls. unfold _begin_write_locked in H.
  read_inv H. destruct P as (id & Hid & Hf & Hadm). rename a into f. read_inv H. bool_simpl. rename P into Hph.
  pose proof (fl_id _ _ _ (gw_flight _ Hs id f Hf)) as Hfid.
  apply bind_ret_inv in H as ([t|c] & s1 & Ea & H); [|by apply deny_write_code in H; congruence].
  destruct (advance_ret _ _ _ Ea) as (Hhold & Hfl1 & Hst1 & _ & Hps).
  apply bind_ret_inv in H as (f' & s1' & Er & H). destruct (f_overdue f') eqn:Hov; [done|].
  destruct (refreshed_kept _ _ _ _ _ _ _ Hfl1 Hf Hfid Er Hov) as (-> & -> & Hf1). clear Er.
  read_inv H. read_inv H. subst a0 a1.
  destruct (bool_decide_reflect (g_gate_state s1 = GClosed)) as [|Hncl];
    [by apply deny_write_code in H; congruence|].
  destruct (sentinel_matches f tok s1) eqn:Hm; cbn [negb] in H; [|by apply deny_write_code in H; congruence].
  apply bind_ret_inv in H as ([rc|c] & s2 & Ec & H);
    [|apply checked_lease_code in Ec as [-> | ->]; by apply deny_write_code in H; congruence].
  destruct (checked_flight_ret _ _ _ _ _ _ _ _ Hs Hf Ea Hf1 Ec) as (Hb & Hl2 & Hf2). cbn zeta in H.
  destruct (f_requires_permit f) eqn:Hpm; [by apply deny_write_code in H; congruence|].
  destruct (fltb (f_exchange_deadline f) _) eqn:Hdl; [by apply deny_write_code in H; congruence|].
  apply bind_ret_inv in H as ([[]|x] & s3 & Eb & H); [|done].
  apply caught_ret, on_ledger_ret in Eb as (l & Eb & ->). rewrite Hl2 in Eb.
  destruct (ledger_advance_ret Receipts.EConnecting Receipts.EDispatched _ _ _ (gw_ledger _ Hs) ltac:(done) Eb)
    as (id' & e & Hid' & Href & Hes & He & He').
  rewrite (fl_receipt _ _ _ (gw_flight _ Hs id f Hf)) in Hid'. injection Hid' as <-.
  destruct (fl_entry _ _ _ (gw_flight _ Hs id f Hf) e He Href) as (Hel & _).
  unfold update_flight in H. rewrite bind_modify in H. injection H as <- <-.
  eexists tok, id, f, _. split; [done|]. split; [done|]. split; cbn -[dict_alter]; try done.
  - by apply (ready_gate s s1).
  - apply (sentinel_matches_inv _ _ s s1); [apply Hps|done].
  - exists rc. split_and!; [|done|done]. by eapply lease_backed_ext.
  - exists e. done.
  - by rewrite Hfid, dict_get_alter, decide_True, Hf2.
Qed.

(** ** A concrete gate for the witnesses *)
Definition noon (n : nat) : reading := Read (VInt 12).
Definition gtoken (n : nat) : string := pretty n.
#[export] Instance gtoken_inj : Inj (=) (=) gtoken.
Proof. unfold gtoken. apply _. Qed.

Definition gate_digest : string := "00112233445566778899aabbccddeeff00112233445566778899aabbccddeeff".
Definition demo_grant (m : ScopeManifest) : Leases.LeaseGrant :=
  Leases.mkLeaseGrant "generation_0" "lease_1" "run" "att" "boot-1" "jira" (sm_digest m) (float_lit 200 0) "2".
Definition demo_routed (m : ScopeManifest) : RoutedRequest :=
  mkRoutedRequest "jira.issue.get" "jira" (sm_digest m) demo_policy_digest gate_digest false
    (mkUpstreamRequest "GET" "/rest/api/3/issue/10001" "application/json" None "")
    (mkRouteSelection (Some "10001") None None None).
Definition demo_lease_calls (m : ScopeManifest) : list registry_call :=
  [CallHandshake (VStr "boot-1") (VStr "generation_0");
   CallRegister (VStr "run") (VStr "att") (VStr "boot-1") (VStr "jira") (VStr (sm_digest m)) (VInt 200)
     (VStr "generation_0");
   CallActivate (VStr "lease_1") (VStr "boot-1") (VStr "generation_0") (VInt 12)].
Definition demo_reserve_calls (m : ScopeManifest) : list gate_call :=
  map CallRegistry (demo_lease_calls m) ++
  [CallInstallScope (Some (demo_grant m)) (Some m);
   CallGateReserve (Some (mkEntryToken 0%nat "lease_1")) (Some (demo_routed m)) (VStr gate_digest) (VInt 100)
     (VInt 40)].

(** A new gate on a new registry and a new ledger, after some calls. *)
Definition fresh_gate (rclock lclock gclock : nat → reading) (rentropy lentropy : nat → string) (key : string)
    : outcome DispatchGate :=
  let registry := Leases.new_registry rclock rentropy in
  ledger ← Receipts.new_ledger lclock lentropy (VStr (Leases.r_generation registry));
  new_gate registry ledger gclock key false.
Definition demo_gate (cs : ScopeManifest → list gate_call) : outcome DispatchGate :=
  m ← demo_manifest;
  g ← fresh_gate noon noon noon gtoken gtoken "key";
  Ret (run_gate_calls (cs m) g).

Lemma fresh_gate_wf rclock lclock gclock rentropy lentropy key g :
  Inj (=) (=) rentropy → Inj (=) (=) lentropy →
  fresh_gate rclock lclock gclock rentropy lentropy key = Ret g → gate_wf g.
Proof.
  intros Hr Hl H. unfold fresh_gate in H. cbn zeta in H. inv_do.
  eapply new_gate_wf; [by apply (new_registry_wf rclock rentropy)|by eapply (new_ledger_wf lclock lentropy)|exact H].
Qed.

Lemma demo_gate_wf cs g : demo_gate cs = Ret g → gate_wf g.
Proof.
  intros H. unfold demo_gate in H. inv_do. injection H as <-. apply run_gate_calls_sound.
  eapply fresh_gate_wf; [apply _..|done].
Qed.

Definition demo_handle : Receipts.handle := Receipts.mkHandle 1%nat "DispatchHandle" (VStr "receipt_0").
Definition demo_admission : Receipts.handle := Receipts.mkHandle 2%nat "Admission" (VStr "receipt_0").
Definition demo_admit_calls (m : ScopeManifest) : list gate_call :=
  demo_reserve_calls m ++ [CallAdmit demo_handle (VStr "2")].


(** ** Bounds *)

(** C16: From a new gate on a new registry and a new ledger, after any sequence
    of calls on the three with any tokens, clocks and failures: the gate, the
    registry and the ledger are well formed, at most 32 dispatches are open, at
    most 1024 scope manifests are stored, the byte counter is exactly the sum
    of their charges and at most 2 MiB, and every open dispatch whose ledger
    entry still exists agrees with it on lease, service, route and deadline. *)
Theorem gate_stays_within_bounds rclock lclock gclock rentropy lentropy key g cs :
  Inj (=) (=) rentropy → Inj (=) (=) lentropy →
  fresh_gate rclock lclock gclock rentropy lentropy key = Ret g →
  let s := run_gate_calls cs g in
  gate_wf s ∧ Z.of_nat (length (g_flights s)) ≤ MAX_OPEN_DISPATCHES ∧
  Z.of_nat (length (g_scope_by_lease s)) ≤ MAX_SCOPE_ENTRIES ∧
  g_scope_bytes s = dict_sum id (g_scope_charge s) ∧ g_scope_bytes s ≤ MAX_SCOPE_BYTES ∧
  ∀ id f, dict_get (g_flights s) id = Some f → flight_linked (g_ledger s) id f.
Proof.
  intros Hr Hl Hg s. assert (Hs : gate_wf s) by (apply run_gate_calls_sound; exact (fresh_gate_wf _ _ _ _ _ _ _ Hr Hl Hg)).
  pose proof Hs as []. by split_and!.
Qed.

Lemma gate_stays_within_bounds_witness :
  ∃ g, fresh_gate noon noon noon gtoken gtoken "key" = Ret g ∧
    Z.of_nat (length (g_flights (run_gate_calls [CallGateSnapshot] g))) ≤ MAX_OPEN_DISPATCHES.
Proof.
  destruct (holds_true (λ _, true) (fresh_gate noon noon noon gtoken gtoken "key")) as (g & E & _);
    [vm_compute; reflexivity|].
  exists g. split; [exact E|].
  destruct (gate_stays_within_bounds noon noon noon gtoken gtoken "key" g [CallGateSnapshot]) as (_ & X & _);
    [apply _|apply _|exact E|exact X].
Defined.

(** ** Admission and writing *)

(** C1: When [admit] answers admitted, the caller's handle is the very handle
    of an open dispatch that is still reserved and not overdue, the gate was
    ready, no permit is required, the sentinel indexes the scope the dispatch
    was reserved under, and during the call the registry authorised exactly
    this lease, service, sentinel, generation and scope at a time between two
    readings of the gate's clock, at least two seconds before the deadline.
    The dispatch's own ledger entry, for the same lease, moved from reserved to
    connecting, and the returned admission is the one stored. *)
Theorem admission_is_backed_by_a_lease h sentinel s o s' :
  gate_wf s → gate_admit h sentinel s = (Ret o, s') → ao_code o = "admitted" →
  ∃ tok id f a, sentinel = VStr tok ∧ ao_admission o = Some a ∧ admission_granted s s' h tok id f a.
Proof. apply admit_ret. Qed.

Definition is_admitted_code (o : AdmissionOutcome) : bool := bool_decide (ao_code o = "admitted").
Local Notation demo_reserved := (demo_gate demo_reserve_calls).

Lemma admission_is_backed_by_a_lease_witness :
  ∃ g o s' tok id f a, demo_reserved = Ret g ∧ gate_admit demo_handle (VStr "2") g = (Ret o, s') ∧
    admission_granted g s' demo_handle tok id f a.
Proof.
  destruct (holds_true (λ g, holds is_admitted_code (gate_admit demo_handle (VStr "2") g).1) demo_reserved)
    as (g & E & X); [vm_compute; reflexivity|].
  destruct (gate_admit demo_handle (VStr "2") g) as [[o|x] s'] eqn:Ea; [|discriminate X].
  apply bool_decide_eq_true in X.
  destruct (admission_is_backed_by_a_lease demo_handle (VStr "2") g o s' (demo_gate_wf _ _ E) Ea X)
    as (tok & id & f & a & _ & _ & Hg).
  exists g, o, s', tok, id, f, a. split; [exact E|]. split; [exact Ea|exact Hg].
Defined.

(** C2: When [begin_write] answers write_admitted, the caller holds the very
    admission of an open dispatch that has not begun to write and is not
    overdue, and the lease was authorised again in the same way during this
    call, at least 0.5 s before the exchange deadline; the write deadline is
    ten seconds after that time or the exchange deadline, whichever is first,
    and the dispatch's own ledger entry moved from connecting to dispatched. *)
Theorem write_is_backed_by_a_lease h sentinel s o s' :
  gate_wf s → begin_write h sentinel s = (Ret o, s') → wo_code o = "write_admitted" →
  ∃ tok id f d, sentinel = VStr tok ∧ wo_write_deadline o = Some d ∧ write_granted s s' h tok id f d.
Proof. apply begin_write_ret. Qed.

Definition is_write_code (o : WriteOutcome) : bool := bool_decide (wo_code o = "write_admitted").
Local Notation demo_admitted := (demo_gate demo_admit_calls).

Lemma write_is_backed_by_a_lease_witness :
  ∃ g o s' tok id f d, demo_admitted = Ret g ∧ begin_write demo_admission (VStr "2") g = (Ret o, s') ∧
    write_granted g s' demo_admission tok id f d.
Proof.
  destruct (holds_true (λ g, holds is_write_code (begin_write demo_admission (VStr "2") g).1) demo_admitted)
    as (g & E & X); [vm_compute; reflexivity|].
  destruct (begin_write demo_admission (VStr "2") g) as [[o|x] s'] eqn:Ea; [|discriminate X].
  apply bool_decide_eq_true in X.
  destruct (write_is_backed_by_a_lease demo_admission (VStr "2") g o s' (demo_gate_wf _ _ E) Ea X)
    as (tok & id & f & d & _ & _ & Hg).
  exists g, o, s', tok, id, f, d. split; [exact E|]. split; [exact Ea|exact Hg].
Defined.

(** ** Stopping *)
Lemma stopped_reserve_raises e r d n t s :
  gate_wf s → g_gate_state s ≠ GReady → ∃ x, (reserve e r d n t s).1 = Raise x.
Proof.
  intros Hs Hst. unfold reserve. destruct e as [e|], r as [r|], d as [| | | |d|], n as [| |n| | |], (number t) as [t'|];
    try by eexists.
  unfold drained. destruct (_reserve_locked e r d n t' s) as [[h|x] s'] eqn:E; [exfalso|by eexists].
  unfold _reserve_locked in E. read_inv E. read_inv E. subst a. bool_simpl.
  apply bind_ret_inv in E as ([now|c] & s1 & Ea & E); [|done].
  apply advance_ret in Ea as (Hh & _). destruct (g_gate_state s) eqn:Hg; [done|done|].
  by apply (gw_held _ Hs) in Hg.
Qed.

Lemma stopped_install_raises g m s :
  gate_wf s → g_gate_state s ≠ GReady → ∃ x, (install_scope g m s).1 = Raise x.
Proof.
  intros Hs Hst. unfold install_scope. destruct g as [g|], m as [m|]; try by eexists.
  unfold drained. destruct (_install_scope_locked g m s) as [[h|x] s'] eqn:E; [exfalso|by eexists].
  unfold _install_scope_locked in E. read_inv E. read_inv E. subst a. bool_simpl.
  apply bind_ret_inv in E as (now & s1 & Et & E). unfold _tick in Et.
  apply bind_ret_inv in Et as ([t|c] & s2 & Ea & Et); [|done].
  apply advance_ret in Ea as (Hh & _). destruct (g_gate_state s) eqn:Hg; [done|done|].
  by apply (gw_held _ Hs) in Hg.
Qed.

(** C34: A gate that was shut down, or held because a clock failed, regressed or
    disagreed with the registry's, never opens again: whatever is called
    afterwards, no dispatch is admitted, no write is admitted, and every
    attempt to reserve a dispatch or install a scope raises. *)
Theorem stopped_gate_never_reopens s cs :
  gate_wf s → g_gate_state s ≠ GReady →
  let s1 := run_gate_calls cs s in
  (∀ h t o, (gate_admit h t s1).1 = Ret o → ao_code o ≠ "admitted") ∧
  (∀ h t o, (begin_write h t s1).1 = Ret o → wo_code o ≠ "write_admitted") ∧
  (∀ e r d n t, ∃ x, (reserve e r d n t s1).1 = Raise x) ∧
  (∀ g m, ∃ x, (install_scope g m s1).1 = Raise x).
Proof.
  intros Hs Hst s1. destruct (run_gate_calls_sound cs s Hs) as [Hs1 Hev]. fold s1 in Hs1, Hev.
  assert (Hst1 := ge_ready _ _ Hev Hst). split_and!.
  - intros h t o Ho Hc. destruct (gate_admit h t s1) as [o' s'] eqn:E. cbn in Ho. subst o'.
    destruct (admit_ret _ _ _ _ _ Hs1 E Hc) as (? & ? & ? & ? & _ & _ & Hg). by apply Hst1, Hg.
  - intros h t o Ho Hc. destruct (begin_write h t s1) as [o' s'] eqn:E. cbn in Ho. subst o'.
    destruct (begin_write_ret _ _ _ _ _ Hs1 E Hc) as (? & ? & ? & ? & _ & _ & Hg). by apply Hst1, Hg.
  - intros. by apply stopped_reserve_raises.
  - intros. by apply stopped_install_raises.
Qed.

Definition demo_shutdown_calls (m : ScopeManifest) : list gate_call := demo_reserve_calls m ++ [CallShutdown].

Lemma stopped_gate_never_reopens_witness :
  ∃ g o, demo_gate demo_shutdown_calls = Ret g ∧ (gate_admit demo_handle (VStr "2") g).1 = Ret o ∧
    ao_code o = "gate_closed" ∧ ao_code o ≠ "admitted".
Proof.
  destruct (holds_true (λ g, bool_decide (g_gate_state g ≠ GReady) &&
    holds (λ o, bool_decide (ao_code o = "gate_closed")) (gate_admit demo_handle (VStr "2") g).1)
    (demo_gate demo_shutdown_calls)) as (g & E & X); [vm_compute; reflexivity|].
  apply andb_true_iff in X as [Hst X]. apply bool_decide_eq_true in Hst.
  apply holds_true in X as (o & Ho & X). apply bool_decide_eq_true in X.
  exists g, o. split; [exact E|]. split; [exact Ho|]. split; [exact X|].
  destruct (stopped_gate_never_reopens g [] (demo_gate_wf _ _ E) Hst) as (Hadm & _).
  exact (Hadm demo_handle (VStr "2") o Ho).
Defined.
