(* ===== verification/CloseoutThm.v ===== *)
(** * Theorems about closing out a lease

    What a [Closeout] of the dispatch gate proves to the supervisor that
    reads it: the lease has ended for good, and the counts are those of the
    ledger. *)

From S2P Require Import Prelude PyValue PyJson Services Sha256 HttpResponse CanonJson Scope.
From S2P Require Leases Receipts LeasesThm.
From S2P Require Import LeasesInv LeasesOps ReceiptsInv ReceiptsOps Dispatch DispatchInv DispatchOps DispatchThm.
Import Receipts (h_class, h_receipt_id, h_ref).
#[local] Existing Instance Receipts.entry_state_eq_dec.
Local Open Scope string_scope.
Local Open Scope Z_scope.

(** ** A lease that has ended *)
Record lease_ended (reg : Leases.LeaseRegistry) (id : string) : Prop := {
  en_issued : lease_issued reg id;
  en_dead : ∀ r, dict_get (Leases.r_records reg) id = Some r → Leases.rec_live r = false;
}.

Lemma ended_stays reg reg' id : wf reg → evolves reg reg' → lease_ended reg id → lease_ended reg' id.
Proof.
  intros Hwf Hev [Hiss Hdead]. split; [by eapply issued_mono|]. intros r' Hr'.
  destruct (ev_records _ _ Hev id r' Hr') as [(r & Hr & Hre)|(i & Hi & Hid & _)].
  - specialize (Hdead r Hr). unfold Leases.rec_live in *. destruct (re_state _ _ Hre) as [<-|Hrank]; [done|].
    by destruct (Leases.rec_state r), (Leases.rec_state r').
  - destruct Hiss as (j & Hj & Hid'). rewrite Hid in Hid'.
    apply (inj (String.append _)), (wf_tokens _ Hwf) in Hid'. lia.
Qed.

Lemma backed_not_ended s s' f tok rc : lease_backed s s' f tok rc → ¬ lease_ended (g_registry s') (f_lease_id f).
Proof.
  intros [(r & Hab) _ _] [_ Hdead]. pose proof (LeasesThm.ab_active _ _ _ _ _ _ _ _ _ Hab) as Hact.
  specialize (Hdead r (LeasesThm.ab_record _ _ _ _ _ _ _ _ _ Hab)).
  unfold Leases.rec_live in Hdead. by rewrite Hact in Hdead.
Qed.

(** ** What the closeout saw *)
Lemma registry_snapshot_leases reg snap reg' :
  Leases.snapshot reg = (Ret snap, reg') →
  Leases.rs_leases snap = map Leases._record_metadata (dict_values (Leases.r_records reg')).
Proof.
  unfold Leases.snapshot. intros E. apply bind_ret_inv in E as (o & s1 & _ & E).
  apply bind_ret_inv in E as (t & s2 & _ & E). apply bind_ret_inv in E as (u & s3 & _ & E).
  by injection E as <- <-.
Qed.

Lemma lease_item_record reg snap reg' id :
  wf reg → Leases.snapshot reg = (Ret snap, reg') →
  lease_item snap id = Leases._record_metadata <$> dict_get (Leases.r_records reg') id.
Proof.
  intros Hwf E. pose proof (within_snapshot reg Hwf) as [Hwf' _]. rewrite E in Hwf'. cbn in Hwf'.
  unfold lease_item. rewrite (registry_snapshot_leases _ _ _ E). unfold dict_values.
  assert (Hk : ∀ k r, (k, r) ∈ Leases.r_records reg' → Leases.lg_lease_id (Leases.rec_grant r) = k).
  { intros k r Hin. apply (elem_dict_get _ _ _ (wf_dict _ Hwf')) in Hin. by apply (wf_rec _ Hwf'). }
  clear -Hk. induction (Leases.r_records reg') as [|[k r] d IH]; [done|]. cbn.
  rewrite (Hk k r) by (by left).
  case_bool_decide as Hd; [by rewrite decide_True|]. rewrite decide_False by done.
  apply IH. intros k' r' Hin. apply Hk. by right.
Qed.

(** One turn of the tally, read off the entry itself. *)
Definition open_entry (id : string) (e : Receipts._Entry) : bool :=
  bool_decide (Receipts.e_lease_id e = id) &&
  (bool_decide (Receipts.e_state e = Receipts.EConnecting) || bool_decide (Receipts.e_state e = Receipts.EDispatched)).

Lemma tally_entry id t e :
  t_in_flight (tally_item id t (Receipts._entry_metadata e)) =
  t_in_flight t + (if open_entry id e then 1 else 0).
Proof.
  unfold tally_item, open_entry.
  change (item_str (Receipts._entry_metadata e) "lease_id") with (Some (Receipts.e_lease_id e)).
  change (item_str (Receipts._entry_metadata e) "entry_state")
    with (Some (Receipts.entry_state_name (Receipts.e_state e))).
  destruct (bool_decide_reflect (Receipts.e_lease_id e = id)) as [->|Hne].
  - rewrite bool_decide_eq_false_2 by (intros H; by apply H).
    destruct (Receipts.e_state e); repeat case_bool_decide; try done; cbn; try lia. case_match; cbn; lia.
  - rewrite bool_decide_eq_true_2 by congruence. cbn. lia.
Qed.

Lemma tally_entries id es t :
  t_in_flight (foldl (tally_item id) t (map Receipts._entry_metadata es)) =
  t_in_flight t + Z.of_nat (length (List.filter (open_entry id) es)).
Proof.
  revert t. induction es as [|e es IH]; intros t; cbn [map foldl List.filter length]; [lia|].
  rewrite IH, tally_entry. destruct (open_entry id e); cbn [length]; lia.
Qed.

Lemma closeout_state_ended gate_ok rst lst safe lease_state overdue in_flight :
  closeout_state_of gate_ok rst lst safe lease_state overdue in_flight ∈ ["overdue"; "draining"; "quiescent"] →
  lease_state ≠ "unknown" ∧ lease_state ≠ "registered" ∧ lease_state ≠ "active" ∧
  (closeout_state_of gate_ok rst lst safe lease_state overdue in_flight = "quiescent" →
     overdue ≤ 0 ∧ in_flight ≤ 0).
Proof.
  unfold closeout_state_of. destruct (_ || bool_decide (lease_state = "unknown")) eqn:E.
  { intros X. apply str_in_spec in X. by vm_compute in X. }
  bool_simpl. destruct (str_in lease_state _) eqn:Hl.
  { intros X. apply str_in_spec in X. by vm_compute in X. }
  intros _. assert (Hn : lease_state ∉ ["registered"; "active"]) by (intros X; apply str_in_spec in X; congruence).
  apply not_elem_of_cons in Hn as [Hn1 Hn]. apply not_elem_of_cons in Hn as [Hn2 _]. split_and!; try done.
  destruct (0 <? overdue) eqn:Ho; [done|]. destruct (0 <? in_flight) eqn:Hf; [done|]. bool_simpl. lia.
Qed.

(** The parts of a closeout, in the state it left. *)
Record closeout_facts (id : string) (c : Closeout) (s : DispatchGate) : Prop := {
  cf_lease : co_lease_id c = id;
  cf_ended : co_closeout_state c ∈ ["overdue"; "draining"; "quiescent"] → lease_ended (g_registry s) id;
  cf_in_flight : co_in_flight c =
    Z.of_nat (length (List.filter (open_entry id) (dict_values (Receipts.l_entries (g_ledger s)))));
  cf_overdue : co_overdue c = lease_overdue id s;
  cf_quiescent : co_closeout_state c = "quiescent" → co_in_flight c ≤ 0 ∧ co_overdue c ≤ 0;
}.

Lemma ledger_snapshot_entries l snap l' :
  Receipts.snapshot l = (Ret snap, l') →
  Receipts.ls_entries snap = map Receipts._entry_metadata (dict_values (Receipts.l_entries l')).
Proof. unfold Receipts.snapshot. intros E. by apply bind_ret_inv in E as (u & s1 & _ & [= <- <-]). Qed.

Lemma closeout_ret id s c s' :
  gate_wf s → closeout (VStr id) s = (Ret c, s') → closeout_facts id c s'.
Proof.
  intros Hs H. cbn [closeout] in H. apply drained_ret in H as (s9 & H & ->). unfold _closeout_locked in H. cbn zeta in H.
  apply bind_ret_inv in H as (rsnap & s1 & E1 & H).
  pose proof (within_on_registry _ within_snapshot s Hs) as [Hs1 _]. rewrite E1 in Hs1. cbn [snd] in Hs1.
  apply on_registry_ret in E1 as (reg & E1 & ->).
  apply bind_ret_inv in H as (lsnap & s2 & E2 & H).
  pose proof (within_on_ledger _ within_ledger_snapshot _ Hs1) as [Hs2 _]. rewrite E2 in Hs2. cbn [snd] in Hs2.
  apply on_ledger_ret in E2 as (l & E2 & ->).
  apply bind_ret_inv in H as (adv & s3 & E3 & H).
  pose proof (within_gate_advance _ Hs2) as [Hs3 _]. rewrite E3 in Hs3. cbn [snd] in Hs3.
  pose proof (parts_advance (set_g_ledger l (set_g_registry reg s))) as Hp. rewrite E3 in Hp.
  destruct Hp as [Hr Hl _ _ _]. cbn in Hr, Hl. do 3 read_inv H. injection H as <- <-.
  split; cbn -[closeout_state_of foldl Receipts._entry_metadata]; try done.
  - intros Hc. apply closeout_state_ended in Hc as (Hu & Hreg & Hact & _).
    rewrite (lease_item_record _ _ _ id (gw_registry _ Hs) E1) in Hu, Hreg, Hact. rewrite Hr.
    destruct (dict_get (Leases.r_records reg) id) as [r|] eqn:Hrec; cbn in Hu, Hreg, Hact.
    + split; [|intros r' Hr'; simplify_eq; unfold Leases.rec_live; by destruct (Leases.rec_state r)].
      eapply snapshot_item_issued; [apply (gw_registry _ Hs)|exact E1|].
      by rewrite (lease_item_record _ _ _ id (gw_registry _ Hs) E1), Hrec.
    + split; [|congruence]. subst a0. destruct (dict_get (g_scope_by_lease s3) id) as [e|] eqn:He; [|done].
      rewrite <-Hr. by apply (gw_issued _ Hs3 id e).
  - rewrite (ledger_snapshot_entries _ _ _ E2), tally_entries, Hl. done.
  - subst a1. intros Hq. match type of Hq with ?x = _ => assert (Hin : x ∈ ["overdue"; "draining"; "quiescent"]) end.
    { rewrite Hq. set_solver. }
    apply closeout_state_ended in Hin as (_ & _ & _ & Hin). destruct (Hin Hq). done.
Qed.

(** ** Closeout is final *)

(** C12: Once a closeout reports a lease as overdue, draining or quiescent, no
    later [admit] ever admits a dispatch under that lease and no later
    [begin_write] ever lets one write, whatever is called in between on the
    gate, the registry and the ledger. *)
Theorem closed_out_lease_is_final id s c s1 cs :
  gate_wf s → closeout (VStr id) s = (Ret c, s1) →
  co_closeout_state c ∈ ["overdue"; "draining"; "quiescent"] →
  let s2 := run_gate_calls cs s1 in
  (∀ h t o a, (gate_admit h t s2).1 = Ret o → ao_code o = "admitted" → ao_admission o = Some a → ad_lease_id a ≠ id) ∧
  (∀ h t o rid f, (begin_write h t s2).1 = Ret o → wo_code o = "write_admitted" →
     h_receipt_id h = VStr rid → dict_get (g_flights s2) rid = Some f → f_lease_id f ≠ id).
Proof.
  intros Hs Hc Hst s2. pose proof (within_closeout (VStr id) s Hs) as [Hs1 _]. rewrite Hc in Hs1. cbn in Hs1.
  destruct (closeout_ret _ _ _ _ Hs Hc) as [_ Hend _ _ _]. specialize (Hend Hst).
  destruct (run_gate_calls_sound cs s1 Hs1) as [Hs2 Hev]. fold s2 in Hs2, Hev.
  assert (Hend2 := ended_stays _ _ _ (gw_registry _ Hs1) (ge_registry _ _ Hev) Hend). split.
  - intros h t o a Ho Hcode Ha Hid. pose proof (within_admit h t s2 Hs2) as [_ Hev3].
    destruct (gate_admit h t s2) as [o' s3] eqn:E. cbn in Ho, Hev3. subst o'.
    destruct (admit_ret _ _ _ _ _ Hs2 E Hcode) as (tok & rid & f & a' & _ & Ha' & Hg). simplify_eq.
    destruct (ag_lease _ _ _ _ _ _ _ Hg) as (rc & Hb & _). destruct (ag_fields _ _ _ _ _ _ _ Hg) as (_ & Hl & _).
    apply (backed_not_ended _ _ _ _ _ Hb). rewrite <-Hl. eapply ended_stays; [|apply Hev3|done]. apply Hs2.
  - intros h t o rid f Ho Hcode Hrid Hf Hid. pose proof (within_begin_write h t s2 Hs2) as [_ Hev3].
    destruct (begin_write h t s2) as [o' s3] eqn:E. cbn in Ho, Hev3. subst o'.
    destruct (begin_write_ret _ _ _ _ _ Hs2 E Hcode) as (tok & rid' & f' & d & _ & _ & Hg).
    destruct (wg_token _ _ _ _ _ _ _ Hg) as (_ & Hrid' & _). destruct (wg_flight _ _ _ _ _ _ _ Hg) as (Hf' & _).
    rewrite Hrid in Hrid'. simplify_eq. destruct (wg_lease _ _ _ _ _ _ _ Hg) as (rc & Hb & _).
    apply (backed_not_ended _ _ _ _ _ Hb). eapply ended_stays; [|apply Hev3|done]. apply Hs2.
Qed.

(** A lease that is revoked while a dispatch under it is reserved. *)
Definition revoke_call : gate_call :=
  CallRegistry (CallRevoke (VStr "lease_1") (VStr "boot-1") (VStr "generation_0") (VStr "cancelled")).
Definition demo_revoked_calls (m : ScopeManifest) : list gate_call := demo_reserve_calls m ++ [revoke_call].
Local Notation demo_revoked_gate := (demo_gate demo_revoked_calls).

Definition closeout_is (st : string) (c : Closeout) : bool := bool_decide (co_closeout_state c = st).
Definition not_admitted (o : AdmissionOutcome) : bool := negb (is_admitted_code o).

Lemma closed_out_lease_is_final_witness :
  ∃ g c s1, demo_revoked_gate = Ret g ∧ closeout (VStr "lease_1") g = (Ret c, s1) ∧
    co_closeout_state c = "quiescent" ∧
    ∀ h t o a, (gate_admit h t (run_gate_calls [CallGateNow] s1)).1 = Ret o → ao_code o = "admitted" →
      ao_admission o = Some a → ad_lease_id a ≠ "lease_1".
Proof.
  destruct (holds_true (λ g, holds (closeout_is "quiescent") (closeout (VStr "lease_1") g).1) demo_revoked_gate)
    as (g & E & X); [vm_compute; reflexivity|].
  destruct (closeout (VStr "lease_1") g) as [[c|x] s1] eqn:Ec; [|discriminate X].
  apply bool_decide_eq_true in X. exists g, c, s1. split; [exact E|]. split; [exact Ec|]. split; [exact X|].
  apply (closed_out_lease_is_final "lease_1" g c s1 [CallGateNow] (demo_gate_wf _ _ E) Ec).
  rewrite X. apply str_in_spec. reflexivity.
Defined.

(** The counts of a closeout are exact: [in_flight] is the number of ledger
    entries of that lease that are connecting or dispatched, [overdue] the
    number of its open dispatches past their deadline, and a closeout that says
    quiescent means there are none of either. *)
Theorem closeout_counts_are_exact id s c s1 :
  gate_wf s → closeout (VStr id) s = (Ret c, s1) →
  co_in_flight c = Z.of_nat (length (List.filter (open_entry id) (dict_values (Receipts.l_entries (g_ledger s1))))) ∧
  co_overdue c = lease_overdue id s1 ∧
  (co_closeout_state c = "quiescent" →
     (∀ rid e, dict_get (Receipts.l_entries (g_ledger s1)) rid = Some e → open_entry id e = false) ∧
     ∀ rid f, dict_get (g_flights s1) rid = Some f → f_lease_id f = id → f_overdue f = false).
Proof.
  intros Hs Hc. destruct (closeout_ret _ _ _ _ Hs Hc) as [_ _ Hin Hov Hq]. split; [done|]. split; [done|].
  intros Hst. destruct (Hq Hst) as [Hin0 Hov0]. rewrite Hin in Hin0. rewrite Hov in Hov0.
  unfold lease_overdue in Hov0. split.
  - intros rid e He. apply (filter_none _ _ _ Hin0). apply list_elem_of_fmap. exists (rid, e).
    split; [done|by apply dict_get_elem].
  - intros rid f Hf Hid. apply dict_get_elem in Hf. pose proof (filter_none _ _ _ Hov0 Hf) as Hn. cbn in Hn.
    by rewrite bool_decide_eq_true_2 in Hn.
Qed.

(** The same lease revoked after the dispatch was admitted: it is draining. *)
Definition demo_draining_calls (m : ScopeManifest) : list gate_call := demo_admit_calls m ++ [revoke_call].
Local Notation demo_draining_gate := (demo_gate demo_draining_calls).

Lemma closeout_counts_are_exact_witness :
  ∃ g c s1, demo_draining_gate = Ret g ∧ closeout (VStr "lease_1") g = (Ret c, s1) ∧
    co_closeout_state c = "draining" ∧ co_in_flight c = 1 ∧
    co_in_flight c = Z.of_nat (length (List.filter (open_entry "lease_1")
      (dict_values (Receipts.l_entries (g_ledger s1))))).
Proof.
  destruct (holds_true (λ g, holds (λ c, closeout_is "draining" c && (co_in_flight c =? 1))
    (closeout (VStr "lease_1") g).1) demo_draining_gate) as (g & E & X); [vm_compute; reflexivity|].
  destruct (closeout (VStr "lease_1") g) as [[c|x] s1] eqn:Ec; [|discriminate X].
  apply andb_true_iff in X as [X Y]. apply bool_decide_eq_true in X. apply Z.eqb_eq in Y.
  exists g, c, s1. split; [exact E|]. split; [exact Ec|]. split; [exact X|]. split; [exact Y|].
  apply (closeout_counts_are_exact "lease_1" g c s1 (demo_gate_wf _ _ E) Ec).
Defined.
