(* ===== verification/Supervision.v ===== *)
(** * Supervision of one Run (run_supervision_policy.py, run_supervision_reducer.py)

    The deadline schedule of a Run and the choice of the next containment
    action.  Both are pure functions of what the caller observed; arguments are
    [pyval]s because the code checks the exact type of each.  Microsecond times
    are Python integers bounded by [2**63 - 1]. *)

From S2P Require Import Prelude PyValue.
Local Open Scope string_scope.
Local Open Scope Z_scope.

(** ** run_supervision_policy.py *)
Definition _SECOND_US : Z := 1000000.
Definition _WORK_US : Z := 270 * _SECOND_US.
Definition _FLUSH_US : Z := 20 * _SECOND_US.
Definition _REAP_US : Z := 30 * _SECOND_US.
Definition _MAX_MONO_US : Z := 2 ^ 63 - 1.

(** [[A-Za-z0-9._-]{1,128}] on the whole of an exact [str]. *)
Definition _BOOT_ID (value : pyval) : bool :=
  match value with
  | VStr s => (1 <=? str_len s) && (str_len s <=? 128) && all_chars (char_in (LETTERS_DIGITS +:+ "._-")) s
  | _ => false
  end.

Definition SupervisionError (code : string) : exn := Exn "SupervisionError" code.

Inductive phase := work | interrupt_flush | kill_reap | hard_deadline_exceeded.
#[export] Instance phase_eq_dec : EqDecision phase.
Proof. solve_decision. Defined.

Record SupervisionWindow := mkWindow {
  sw_phase : phase;
  work_deadline_us : Z;
  flush_deadline_us : Z;
  hard_deadline_us : Z;
  revoke_due : bool;
  interrupt_due : bool;
  kill_or_reap_due : bool;
}.

Definition _valid_time (value : pyval) : bool :=
  match value with VInt z => (0 <=? z) && (z <=? _MAX_MONO_US) | _ => false end.
(** The number of a value [_valid_time] accepted. *)
Definition as_int (value : pyval) : Z := match value with VInt z => z | _ => 0 end.
Definition is_none (value : pyval) : bool := match value with VNone => true | _ => false end.
Definition is_str (value : pyval) (s : string) : bool :=
  match value with VStr x => bool_decide (x = s) | _ => false end.
Definition same_str (a b : pyval) : bool := match a with VStr x => is_str b x | _ => false end.

Definition phase_at (observed stop flush_deadline hard_deadline : Z) : phase :=
  if observed <? stop then work
  else if observed <? flush_deadline then interrupt_flush
  else if observed <? hard_deadline then kill_reap
  else hard_deadline_exceeded.

Definition assess_supervision (launch_boot_id observed_boot_id launch_us observed_us stop_requested_us : pyval)
    : outcome SupervisionWindow :=
  check_that (_BOOT_ID launch_boot_id && _BOOT_ID observed_boot_id) (SupervisionError "boot_invalid");;
  check_that (same_str launch_boot_id observed_boot_id) (SupervisionError "boot_mismatch");;
  check_that (_valid_time launch_us && _valid_time observed_us) (SupervisionError "time_invalid");;
  let launch := as_int launch_us in
  let observed := as_int observed_us in
  check_that (negb (observed <? launch)) (SupervisionError "time_order");;
  check_that (is_none stop_requested_us ||
              (_valid_time stop_requested_us &&
               ((launch <=? as_int stop_requested_us) && (as_int stop_requested_us <=? observed))))
    (SupervisionError "stop_invalid");;
  check_that (negb (_MAX_MONO_US - 300 * _SECOND_US <? launch)) (SupervisionError "deadline_overflow");;
  let work_deadline := launch + _WORK_US in
  let stop := if is_none stop_requested_us then work_deadline
              else Z.min (as_int stop_requested_us) work_deadline in
  let flush_deadline := Z.min (stop + _FLUSH_US) (launch + 290 * _SECOND_US) in
  let hard_deadline := Z.min (stop + _REAP_US) (launch + 300 * _SECOND_US) in
  Ret (mkWindow (phase_at observed stop flush_deadline hard_deadline) work_deadline flush_deadline
         hard_deadline (stop <=? observed) (stop <=? observed) (flush_deadline <=? observed)).

(** ** run_supervision_reducer.py *)
Definition _ROOT : list string := ["running"; "exited"; "reaped"; "failed_before_process"; "unknown"].
Definition _GROUP : list string := ["present"; "absent"; "unknown"].
Definition _REVOCATION : list string := ["not_attempted"; "acknowledged"; "failed"; "unknown"].
Definition _CLOSEOUT : list string := ["open"; "draining"; "closed"; "overdue"; "unknown"].

Definition SupervisorReducerError (code : string) : exn := Exn "SupervisorReducerError" code.

Record ActionHistory := mkHistory {
  revoke_attempted : pyval;
  interrupt_attempted : pyval;
  kill_attempted : pyval;
  early_stop_us : pyval;
}.

Record WorkerObservation := mkObservation {
  root_state : pyval;
  group_state : pyval;
  stable_group_identity : pyval;
  stdout_eof : pyval;
  stderr_eof : pyval;
  capture_complete : pyval;
  revocation_state : pyval;
  forwarder_closeout : pyval;
}.

Inductive action := revoke_lease | signal_kill | signal_interrupt.
#[export] Instance action_eq_dec : EqDecision action.
Proof. solve_decision. Defined.

Record ActionDecision := mkDecision {
  ad_phase : phase;
  ad_action : option action;
  hard_deadline_reached : bool;
  early_stop_to_record_us : option Z;
}.

Record CloseoutAssessment := mkCloseoutAssessment { ca_state : string; ca_gaps : list string }.

Definition is_bool (value : pyval) : bool := match value with VBool _ => true | _ => false end.
(** Truth of a value that is a [bool]. *)
Definition truthy (value : pyval) : bool := match value with VBool b => b | _ => false end.
Definition str_among (value : pyval) (xs : list string) : bool :=
  match value with VStr s => str_in s xs | _ => false end.

(** [history] and [observation] are [None] for an object of another class. *)
Definition _valid_history (history : option ActionHistory) : bool :=
  match history with
  | None => false
  | Some h =>
      forallb is_bool [revoke_attempted h; interrupt_attempted h; kill_attempted h] &&
      (truthy (revoke_attempted h) || negb (truthy (interrupt_attempted h) || truthy (kill_attempted h))) &&
      (is_none (early_stop_us h) || _valid_time (early_stop_us h))
  end.

Definition _valid_observation (observation : option WorkerObservation) : bool :=
  match observation with
  | None => false
  | Some o =>
      str_among (root_state o) _ROOT && str_among (group_state o) _GROUP &&
      str_among (revocation_state o) _REVOCATION && str_among (forwarder_closeout o) _CLOSEOUT &&
      forallb is_bool [stable_group_identity o; stdout_eof o; stderr_eof o; capture_complete o] &&
      negb (is_str (root_state o) "failed_before_process" && negb (is_str (group_state o) "absent"))
  end.

Definition _check (history : option ActionHistory) (observation : option WorkerObservation)
    : outcome (ActionHistory * WorkerObservation) :=
  check_that (_valid_history history && _valid_observation observation)
    (SupervisorReducerError "supervision_argument");;
  match history, observation with
  | Some h, Some o =>
      check_that (negb ((negb (truthy (revoke_attempted h)) && negb (is_str (revocation_state o) "not_attempted")) ||
                        (truthy (revoke_attempted h) && is_str (revocation_state o) "not_attempted")))
        (SupervisorReducerError "supervision_order");;
      Ret (h, o)
  | _, _ => Raise (SupervisorReducerError "supervision_argument")
  end.

(** The window after the stop that was recorded when the root ended early. *)
Definition effective_window (h : ActionHistory) (launch_boot_id observed_boot_id launch_us observed_us
    stop_requested_us : pyval) (window : SupervisionWindow) : outcome SupervisionWindow :=
  if is_none (early_stop_us h) then Ret window
  else
    assess_supervision launch_boot_id observed_boot_id launch_us observed_us (early_stop_us h);;
    let effective_stop :=
      Z.min (if is_none stop_requested_us then work_deadline_us window else as_int stop_requested_us)
        (as_int (early_stop_us h)) in
    assess_supervision launch_boot_id observed_boot_id launch_us observed_us (VInt effective_stop).

Definition next_supervision_action (history : option ActionHistory) (observation : option WorkerObservation)
    (launch_boot_id observed_boot_id launch_us observed_us stop_requested_us : pyval) : outcome ActionDecision :=
  '(h, o) ← _check history observation;
  window ← assess_supervision launch_boot_id observed_boot_id launch_us observed_us stop_requested_us;
  window ← effective_window h launch_boot_id observed_boot_id launch_us observed_us stop_requested_us window;
  let early_end := str_among (root_state o) ["exited"; "reaped"; "failed_before_process"] in
  let early_descendants :=
    str_among (root_state o) ["exited"; "reaped"] && negb (is_str (group_state o) "absent") in
  check_that (negb (early_descendants && is_none (early_stop_us h) && truthy (revoke_attempted h)))
    (SupervisorReducerError "early_stop_required");;
  if bool_decide (sw_phase window = hard_deadline_exceeded) then
    Ret (mkDecision (sw_phase window) None true None)
  else if (revoke_due window || early_end) && negb (truthy (revoke_attempted h)) then
    Ret (mkDecision (sw_phase window) (Some revoke_lease) false
      (if early_descendants && is_none (early_stop_us h) then Some (as_int observed_us) else None))
  else
    let can_signal := truthy (revoke_attempted h) && truthy (stable_group_identity o) &&
                      is_str (group_state o) "present" in
    if can_signal && kill_or_reap_due window && negb (truthy (kill_attempted h)) then
      Ret (mkDecision (sw_phase window) (Some signal_kill) false None)
    else if can_signal && interrupt_due window && negb (truthy (interrupt_attempted h)) then
      Ret (mkDecision (sw_phase window) (Some signal_interrupt) false None)
    else Ret (mkDecision (sw_phase window) None false None).

Definition str_value (value : pyval) : string := match value with VStr s => s | _ => "" end.

Definition closeout_gaps (h : ActionHistory) (o : WorkerObservation) : list string :=
  let process := negb (is_str (root_state o) "failed_before_process") in
  add_if (negb (is_str (forwarder_closeout o) "closed"))
    ("forwarder_closeout_" +:+ str_value (forwarder_closeout o))
  (add_if (negb (truthy (revoke_attempted h)) || negb (is_str (revocation_state o) "acknowledged"))
    "revocation_unconfirmed"
  (add_if (process && negb (truthy (capture_complete o))) "capture_incomplete"
  (add_if (process && negb (truthy (stderr_eof o))) "stderr_eof_missing"
  (add_if (process && negb (truthy (stdout_eof o))) "stdout_eof_missing"
  (add_if (process && negb (is_str (group_state o) "absent")) "group_not_confirmed_absent"
  (add_if (process && negb (truthy (stable_group_identity o))) "group_identity_unverified"
  (add_if (negb (str_among (root_state o) ["reaped"; "failed_before_process"])) "root_not_reaped" []))))))).

Definition assess_supervisor_closeout (history : option ActionHistory) (observation : option WorkerObservation)
    : outcome CloseoutAssessment :=
  '(h, o) ← _check history observation;
  let gaps := closeout_gaps h o in
  Ret (mkCloseoutAssessment (match gaps with [] => "claimed_complete" | _ => "held" end) (sorted gaps)).

(** ** What the type tests establish *)
Lemma is_str_inv v s : is_str v s = true → v = VStr s.
Proof. unfold is_str. destruct v; try done. intros. bool_simpl. by subst. Qed.

Lemma truthy_inv v : truthy v = true → v = VBool true.
Proof. unfold truthy. destruct v as [|[]| | | |]; done. Qed.

Lemma str_among_inv v xs : str_among v xs = true → ∃ s, v = VStr s ∧ s ∈ xs.
Proof. unfold str_among. destruct v; try done. intros H. exists s. by rewrite str_in_spec in H. Qed.

Lemma is_str_false v s x : is_str v s = false → v = VStr x → x ≠ s.
Proof. intros H ->. cbn in H. by bool_simpl. Qed.

Lemma is_bool_false v : is_bool v = true → truthy v = false → v = VBool false.
Proof. destruct v as [|[]| | | |]; done. Qed.
