(* ===== verification/SupervisionThm.v ===== *)
(** * Theorems about supervision

    The schedule is bounded and cannot be stretched by a stop request, due
    actions stay due, containment actions come in order and at most once, and a
    closeout is complete exactly when nothing is missing. *)

From S2P Require Import Prelude PyValue Supervision.
Local Open Scope string_scope.
Local Open Scope Z_scope.

(** ** The schedule *)

(** When the Run is told to stop: at the work deadline, or earlier. *)
Definition stop_time (launch : Z) (stop_requested : pyval) : Z :=
  if is_none stop_requested then launch + _WORK_US else Z.min (as_int stop_requested) (launch + _WORK_US).

Record assessed (launch_us observed_us stop : pyval) (w : SupervisionWindow) (launch observed : Z) : Prop := {
  as_launch : launch_us = VInt launch;
  as_observed : observed_us = VInt observed;
  as_order : 0 ≤ launch ≤ observed ∧ observed ≤ _MAX_MONO_US;
  as_room : launch + 300 * _SECOND_US ≤ _MAX_MONO_US;
  as_stop : stop = VNone ∨ ∃ z, stop = VInt z ∧ launch ≤ z ≤ observed;
  as_window : let s := stop_time launch stop in
    w = mkWindow (phase_at observed s (s + _FLUSH_US) (s + _REAP_US)) (launch + _WORK_US) (s + _FLUSH_US)
          (s + _REAP_US) (s <=? observed) (s <=? observed) (s + _FLUSH_US <=? observed);
}.

Lemma valid_time_inv v : _valid_time v = true → ∃ z, v = VInt z ∧ 0 ≤ z ≤ _MAX_MONO_US.
Proof. unfold _valid_time. destruct v; try done. intros. bool_simpl. eauto. Qed.

Lemma is_none_inv v : is_none v = true → v = VNone.
Proof. by destruct v. Qed.

Lemma assess_ret lb ob l t st w :
  assess_supervision lb ob l t st = Ret w → ∃ launch observed, assessed l t st w launch observed.
Proof.
  unfold assess_supervision. intros H. inv_do. bool_simpl.
  match goal with X : _valid_time l = true |- _ => apply valid_time_inv in X as (launch & -> & Hl) end.
  match goal with X : _valid_time t = true |- _ => apply valid_time_inv in X as (observed & -> & Ho) end.
  cbn [as_int] in *.
  exists launch, observed.
  assert (Hst : st = VNone ∨ ∃ z, st = VInt z ∧ launch ≤ z ≤ observed).
  { match goal with X : _ || _ = true |- _ => apply orb_true_iff in X as [Hn|Hv] end;
      [left; by apply is_none_inv|right]. bool_simpl.
    match goal with X : _valid_time st = true |- _ => apply valid_time_inv in X as (z & -> & _) end.
    cbn in *. eauto. }
  split; try done; try lia. injection H as <-. unfold stop_time.
  assert (Hs : (if is_none st then launch + _WORK_US else Z.min (as_int st) (launch + _WORK_US)) ≤ launch + _WORK_US)
    by (destruct (is_none st); lia).
  set (s := if is_none st then _ else _) in *. unfold _WORK_US, _FLUSH_US, _REAP_US, _SECOND_US in *.
  rewrite !Z.min_l by lia. done.
Qed.

Definition phase_rank (p : phase) : Z :=
  match p with work => 0 | interrupt_flush => 1 | kill_reap => 2 | hard_deadline_exceeded => 3 end.

Lemma phase_rank_at observed s :
  phase_rank (phase_at observed s (s + _FLUSH_US) (s + _REAP_US)) =
  (if s <=? observed then 1 else 0) + (if s + _FLUSH_US <=? observed then 1 else 0) +
  (if s + _REAP_US <=? observed then 1 else 0).
Proof.
  unfold phase_at, _FLUSH_US, _REAP_US, _SECOND_US.
  repeat match goal with |- context [?a <? ?b] => destruct (Z.ltb_spec a b) end;
  repeat match goal with |- context [?a <=? ?b] => destruct (Z.leb_spec a b) end; cbn; lia.
Qed.

(** The time at which work ends: the deadline, or an earlier stop. *)
Definition work_ends (launch : Z) (st : pyval) : Z :=
  match st with VInt requested => Z.min requested (launch + 270 * _SECOND_US) | _ => launch + 270 * _SECOND_US end.

(** C35: Whenever the policy returns a window, it is the 270/20/10 second schedule.
    Work ends at launch + 270 s or at an earlier stop, the flush deadline is 20 s
    later, the hard deadline 10 s after that, at most 300 s after the launch and
    within 63 bits.  Revocation and interruption are due exactly from the end of
    the work on, the kill exactly from the flush deadline on, and the phase is
    work, interrupt_flush, kill_reap, hard_deadline_exceeded exactly in the four
    intervals these times cut. *)
Theorem supervision_schedule_is_bounded lb ob l t st w :
  assess_supervision lb ob l t st = Ret w →
  ∃ launch observed, l = VInt launch ∧ t = VInt observed ∧ 0 ≤ launch ≤ observed ∧
    let stop := work_ends launch st in
    launch ≤ stop ∧ work_deadline_us w = launch + 270 * _SECOND_US ∧
    flush_deadline_us w = stop + 20 * _SECOND_US ∧ hard_deadline_us w = flush_deadline_us w + 10 * _SECOND_US ∧
    hard_deadline_us w ≤ launch + 300 * _SECOND_US ≤ 2 ^ 63 - 1 ∧
    (revoke_due w = true ↔ stop ≤ observed) ∧ (interrupt_due w = true ↔ stop ≤ observed) ∧
    (kill_or_reap_due w = true ↔ flush_deadline_us w ≤ observed) ∧
    (sw_phase w = work ↔ observed < stop) ∧
    (sw_phase w = interrupt_flush ↔ stop ≤ observed < flush_deadline_us w) ∧
    (sw_phase w = kill_reap ↔ flush_deadline_us w ≤ observed < hard_deadline_us w) ∧
    (sw_phase w = hard_deadline_exceeded ↔ hard_deadline_us w ≤ observed).
Proof.
  intros (launch & observed & [-> -> Ho Hr Hst Hw])%assess_ret. cbn zeta in Hw.
  assert (stop_time launch st = work_ends launch st) as Hstop by by destruct Hst as [->|(z & -> & Hz)].
  rewrite Hstop in Hw. set (s := work_ends launch st) in *.
  assert (Hs : launch ≤ s ≤ launch + _WORK_US).
  { unfold s, work_ends, _WORK_US, _SECOND_US. destruct Hst as [->|(z & -> & Hz)]; cbn; lia. }
  pose proof (phase_rank_at observed s) as Hp.
  exists launch, observed. subst w. cbn zeta. cbn [sw_phase work_deadline_us flush_deadline_us hard_deadline_us revoke_due
    interrupt_due kill_or_reap_due]. fold s. set (p := phase_at _ _ _ _) in *. clearbody s p. rewrite !Z.leb_le.
  unfold _FLUSH_US, _REAP_US, _WORK_US, _MAX_MONO_US, _SECOND_US in *.
  repeat match type of Hp with context [?a <=? ?b] => destruct (Z.leb_spec a b) end;
    destruct p; cbn in Hp; split_and!; try lia; try done; split; intros; try done; try lia.
Qed.

Local Notation boot := (VStr "boot-1").

Lemma supervision_schedule_is_bounded_witness :
  ∃ w, assess_supervision boot boot (VInt 5) (VInt 12000005) (VInt 9000000) = Ret w ∧
    hard_deadline_us w = 39000000 ∧ hard_deadline_us w = flush_deadline_us w + 10 * _SECOND_US.
Proof.
  destruct (holds_true (λ w, hard_deadline_us w =? 39000000)
    (assess_supervision boot boot (VInt 5) (VInt 12000005) (VInt 9000000))) as (w & E & X);
    [vm_compute; reflexivity|].
  exists w. split; [exact E|]. split; [by apply Z.eqb_eq|].
  destruct (supervision_schedule_is_bounded _ _ _ _ _ _ E) as (a & b & _ & _ & _ & _ & _ & _ & H & _). exact H.
Defined.

(** ** Later observations and earlier stops *)
Definition stop_no_later (st1 st2 : pyval) : Prop :=
  st1 = VNone ∨ ∃ z1 z2, st1 = VInt z1 ∧ st2 = VInt z2 ∧ z2 ≤ z1.

(** The schedule only tightens: for one launch, a later observation or an
    added or earlier stop request never moves a deadline later, never takes
    back an action that was due, and never moves the phase back; in particular
    a stop cannot extend the original schedule. *)
Theorem schedule_only_tightens lb ob l t1 t2 st1 st2 w1 w2 :
  assess_supervision lb ob l (VInt t1) st1 = Ret w1 → assess_supervision lb ob l (VInt t2) st2 = Ret w2 →
  t1 ≤ t2 → stop_no_later st1 st2 →
  flush_deadline_us w2 ≤ flush_deadline_us w1 ∧ hard_deadline_us w2 ≤ hard_deadline_us w1 ∧
  work_deadline_us w2 = work_deadline_us w1 ∧
  (revoke_due w1 = true → revoke_due w2 = true) ∧ (kill_or_reap_due w1 = true → kill_or_reap_due w2 = true) ∧
  phase_rank (sw_phase w1) ≤ phase_rank (sw_phase w2).
Proof.
  intros (l1 & o1 & [-> Ho1 _ _ Hs1 ->])%assess_ret (l2 & o2 & [Hl Ho2 _ _ Hs2 ->])%assess_ret Ht Hst.
  injection Ho1 as <-. injection Ho2 as <-. injection Hl as <-. cbn -[stop_time phase_rank phase_at _FLUSH_US _REAP_US].
  rewrite !phase_rank_at.
  assert (Hs : stop_time l1 st2 ≤ stop_time l1 st1).
  { unfold stop_time. destruct Hst as [->|(z1 & z2 & -> & -> & Hz)]; cbn; [case_match|]; lia. }
  generalize dependent (stop_time l1 st2). intros s2 Hs. generalize dependent (stop_time l1 st1). intros s1 Hs.
  repeat match goal with |- context [?a <=? ?b] => destruct (Z.leb_spec a b) end; split_and!; try done; lia.
Qed.

Lemma schedule_only_tightens_witness :
  ∃ w1 w2, assess_supervision boot boot (VInt 0) (VInt 1000) VNone = Ret w1 ∧
    assess_supervision boot boot (VInt 0) (VInt 5000) (VInt 2000) = Ret w2 ∧
    hard_deadline_us w2 ≤ hard_deadline_us w1.
Proof.
  destruct (holds_true (λ _, true) (assess_supervision boot boot (VInt 0) (VInt 1000) VNone)) as (w1 & E1 & _);
    [vm_compute; reflexivity|].
  destruct (holds_true (λ _, true) (assess_supervision boot boot (VInt 0) (VInt 5000) (VInt 2000))) as (w2 & E2 & _);
    [vm_compute; reflexivity|].
  exists w1, w2. split; [exact E1|]. split; [exact E2|].
  apply (schedule_only_tightens _ _ _ _ _ _ _ _ _ E1 E2); [lia|by left].
Defined.

(** ** Containment actions *)
Definition attempted (h : ActionHistory) (a : action) : bool :=
  truthy (match a with revoke_lease => revoke_attempted h | signal_kill => kill_attempted h
          | signal_interrupt => interrupt_attempted h end).

(** What a decision's action is based on. *)
Record action_ok (h : ActionHistory) (o : WorkerObservation) (a : action) : Prop := {
  ao_new : attempted h a = false;
  ao_revoked : a ≠ revoke_lease → attempted h revoke_lease = true;
  ao_target : a ≠ revoke_lease → stable_group_identity o = VBool true ∧ group_state o = VStr "present";
}.

Lemma check_ret h o p : _check (Some h) (Some o) = Ret p → p = (h, o).
Proof. unfold _check. intros H. inv_do. by injection H as <-. Qed.

Lemma next_action_ok h o lb ob l t st d a :
  next_supervision_action (Some h) (Some o) lb ob l t st = Ret d → ad_action d = Some a → action_ok h o a.
Proof.
  intros H Ha. unfold next_supervision_action in H.
  apply outcome_bind_ret_inv in H as (p & Hp & H). apply check_ret in Hp as ->. cbn beta iota zeta in H.
  inv_do. clear H0 H1 H2. case_bool_decide; [by injection H as <-|].
  destruct ((revoke_due a1 || _) && negb (truthy (revoke_attempted h))) eqn:Hr.
  { bool_simpl. injection H as <-. injection Ha as <-. by split. }
  destruct (truthy (revoke_attempted h)) eqn:Hrv; cbn [andb] in H; [|by injection H as <-].
  destruct (truthy (stable_group_identity o)) eqn:Hsg; cbn [andb] in H; [|by injection H as <-].
  destruct (is_str (group_state o) "present") eqn:Hg; cbn [andb] in H; [|by injection H as <-].
  apply truthy_inv in Hsg. apply is_str_inv in Hg.
  destruct (kill_or_reap_due a1 && negb (truthy (kill_attempted h))) eqn:Hk.
  { bool_simpl. injection H as <-. injection Ha as <-. by split. }
  destruct (interrupt_due a1 && negb (truthy (interrupt_attempted h))) eqn:Hi; [|by injection H as <-].
  bool_simpl. injection H as <-. injection Ha as <-. by split.
Qed.

(** A caller that records each decision as the reducer asks it to. *)
Definition record_decision (h : ActionHistory) (d : ActionDecision) : ActionHistory :=
  let after a := VBool (attempted h a || bool_decide (ad_action d = Some a)) in
  mkHistory (after revoke_lease) (after signal_interrupt) (after signal_kill)
    (match early_stop_to_record_us d with Some z => VInt z | None => early_stop_us h end).

Inductive supervises : ActionHistory → list action → ActionHistory → Prop :=
| sup_done h : supervises h [] h
| sup_step h o lb ob l t st d acts h' :
    next_supervision_action (Some h) (Some o) lb ob l t st = Ret d →
    supervises (record_decision h d) acts h' → supervises h (option_list (ad_action d) ++ acts) h'.

Definition fresh_history : ActionHistory := mkHistory (VBool false) (VBool false) (VBool false) VNone.

Lemma attempted_record h d a : attempted (record_decision h d) a = attempted h a || bool_decide (ad_action d = Some a).
Proof. by destruct a. Qed.

Lemma supervises_spec h acts h' :
  supervises h acts h' →
  NoDup acts ∧ (∀ a, a ∈ acts → attempted h a = false) ∧
  (attempted h revoke_lease = false → ∀ a rest, acts = a :: rest → a = revoke_lease).
Proof.
  induction 1 as [h|h o lb ob l t st d acts h' Hn Hs (IHn & IHf & IHr)].
  { split_and!; [apply NoDup_nil_2|set_solver|done]. }
  assert (Hf : ∀ a, a ∈ acts → attempted h a = false ∧ ad_action d ≠ Some a).
  { intros a Ha. specialize (IHf a Ha). rewrite attempted_record in IHf. bool_simpl. done. }
  destruct (ad_action d) as [b|] eqn:Hb; cbn [option_list app].
  - pose proof (next_action_ok _ _ _ _ _ _ _ _ _ Hn Hb) as [Hnew Hrev _]. split_and!.
    + apply NoDup_cons. split; [|done]. intros Hin. by destruct (Hf b Hin).
    + intros a [->|Ha]%elem_of_cons; [done|]. by apply Hf.
    + intros Hr a rest [= <- <-]. destruct (decide (b = revoke_lease)) as [|Hne]; [done|].
      specialize (Hrev Hne). congruence.
  - split_and!; [done|by intros; apply Hf|]. intros Hr. apply IHr. rewrite attempted_record, Hb, Hr. done.
Qed.

(** C36: Over any number of observations, a supervisor that records each decision
    takes each containment action at most once, and never signals before it
    revoked the lease: the first action is the revocation. *)
Theorem containment_actions_in_order acts h :
  supervises fresh_history acts h →
  NoDup acts ∧ (∀ a rest, acts = a :: rest → a = revoke_lease) ∧ (length acts ≤ 3)%nat.
Proof.
  intros (Hn & _ & Hr)%supervises_spec. split_and!; [done|by apply Hr|].
  assert (Hsub : acts ⊆ [revoke_lease; signal_kill; signal_interrupt]) by (intros []; set_solver).
  by apply (submseteq_length acts [revoke_lease; signal_kill; signal_interrupt]), NoDup_submseteq.
Qed.

(** The root is running and its group is present, revocation acknowledged. *)
Definition running (revocation : string) : WorkerObservation :=
  mkObservation (VStr "running") (VStr "present") (VBool true) (VBool false) (VBool false) (VBool false)
    (VStr revocation) (VStr "open").
Local Notation at_270 := (VInt 270000000).
Local Notation at_290 := (VInt 290000000).

Definition demo_taken : list action := [revoke_lease; signal_interrupt; signal_kill].
Lemma demo_supervises : ∃ h, supervises fresh_history demo_taken h.
Proof.
  eexists. unfold demo_taken.
  apply (sup_step fresh_history (running "not_attempted") boot boot (VInt 0) at_270 VNone
    (mkDecision interrupt_flush (Some revoke_lease) false None) [signal_interrupt; signal_kill]);
    [vm_compute; reflexivity|].
  eapply (sup_step _ (running "acknowledged") boot boot (VInt 0) at_270 VNone
    (mkDecision interrupt_flush (Some signal_interrupt) false None) [signal_kill]); [vm_compute; reflexivity|].
  eapply (sup_step _ (running "acknowledged") boot boot (VInt 0) at_290 VNone
    (mkDecision kill_reap (Some signal_kill) false None) []); [vm_compute; reflexivity|].
  apply sup_done.
Qed.

Lemma containment_actions_in_order_witness :
  NoDup demo_taken ∧ ∀ a rest, demo_taken = a :: rest → a = revoke_lease.
Proof.
  destruct demo_supervises as [h Hh]. destruct (containment_actions_in_order demo_taken h Hh) as (Hn & Hr & _).
  split; [exact Hn|exact Hr].
Defined.

(** The reducer does not order the two signals: a supervisor that first looks
    after the flush deadline is offered the revocation, then the kill, and after
    the kill still the interruption. *)
Example interrupt_offered_after_kill :
  ∃ h, supervises fresh_history [revoke_lease; signal_kill; signal_interrupt] h.
Proof.
  eexists.
  apply (sup_step fresh_history (running "not_attempted") boot boot (VInt 0) at_290 VNone
    (mkDecision kill_reap (Some revoke_lease) false None) [signal_kill; signal_interrupt]);
    [vm_compute; reflexivity|].
  eapply (sup_step _ (running "acknowledged") boot boot (VInt 0) at_290 VNone
    (mkDecision kill_reap (Some signal_kill) false None) [signal_interrupt]); [vm_compute; reflexivity|].
  eapply (sup_step _ (running "acknowledged") boot boot (VInt 0) at_290 VNone
    (mkDecision kill_reap (Some signal_interrupt) false None) []); [vm_compute; reflexivity|].
  apply sup_done.
Qed.

(** ** Closeout *)
(** Nothing is missing. *)
Record closeout_complete (h : ActionHistory) (o : WorkerObservation) : Prop := {
  cc_revoked : revoke_attempted h = VBool true ∧ revocation_state o = VStr "acknowledged";
  cc_forwarder : forwarder_closeout o = VStr "closed";
  cc_process : root_state o = VStr "failed_before_process" ∨
    (root_state o = VStr "reaped" ∧ stable_group_identity o = VBool true ∧ group_state o = VStr "absent" ∧
     stdout_eof o = VBool true ∧ stderr_eof o = VBool true ∧ capture_complete o = VBool true);
}.

Lemma closeout_gaps_nil h o :
  closeout_gaps h o = [] ↔
  is_str (forwarder_closeout o) "closed" = true ∧ truthy (revoke_attempted h) = true ∧
  is_str (revocation_state o) "acknowledged" = true ∧
  (is_str (root_state o) "failed_before_process" = true ∨
   (is_str (root_state o) "reaped" = true ∧ truthy (stable_group_identity o) = true ∧
    is_str (group_state o) "absent" = true ∧ truthy (stdout_eof o) = true ∧ truthy (stderr_eof o) = true ∧
    truthy (capture_complete o) = true)).
Proof.
  assert (Hroot : str_among (root_state o) ["reaped"; "failed_before_process"] =
    is_str (root_state o) "reaped" || is_str (root_state o) "failed_before_process").
  { unfold str_among, is_str. destruct (root_state o) as [| | | |s|]; try done. unfold str_in.
    repeat case_bool_decide; set_solver. }
  unfold closeout_gaps. rewrite !add_if_nil, Hroot.
  destruct (is_str (root_state o) "failed_before_process"); cbn [negb andb];
    rewrite ?orb_true_r, ?orb_false_r, ?orb_false_iff, ?negb_false_iff; [tauto|].
  assert (X : false ≠ true) by done. tauto.
Qed.

Lemma gaps_state (gaps : list string) :
  (match gaps with [] => "claimed_complete" | _ => "held" end) = "claimed_complete" ↔ gaps = [].
Proof. by destruct gaps. Qed.

(** A closeout is claimed complete exactly when it lists no gap, which is
    exactly when the lease's revocation was attempted and acknowledged, the
    Forwarder reports closed, and either no process was ever started or the
    root is reaped, its group verified and absent, both streams are at end of
    file and the capture is complete; otherwise it is held. *)
Theorem closeout_complete_iff_no_gap h o c :
  assess_supervisor_closeout (Some h) (Some o) = Ret c →
  (ca_state c = "claimed_complete" ↔ ca_gaps c = []) ∧
  (ca_state c = "claimed_complete" ↔ closeout_complete h o) ∧
  (ca_state c = "claimed_complete" ∨ ca_state c = "held").
Proof.
  unfold assess_supervisor_closeout. intros H. apply outcome_bind_ret_inv in H as (p & Hp & H).
  apply check_ret in Hp as ->. injection H as <-. cbn [ca_state ca_gaps].
  rewrite gaps_state, sorted_nil. split_and!; [done| |by destruct (closeout_gaps h o); auto].
  rewrite closeout_gaps_nil. split.
  - intros (Hf & Hr & Ha & Hp). split; [auto using truthy_inv, is_str_inv..|].
    destruct Hp as [Hp|(?&?&?&?&?&?)]; [left; by apply is_str_inv|right].
    split_and!; auto using truthy_inv, is_str_inv.
  - intros [[Hr Ha] Hf Hp]. rewrite Hr, Ha, Hf. split_and!; try done.
    destruct Hp as [->|(->&->&->&->&->&->)]; [by left|by right].
Qed.

Definition complete_observation : WorkerObservation :=
  mkObservation (VStr "reaped") (VStr "absent") (VBool true) (VBool true) (VBool true) (VBool true)
    (VStr "acknowledged") (VStr "closed").
Definition revoked_history : ActionHistory := mkHistory (VBool true) (VBool true) (VBool false) VNone.

Lemma closeout_complete_iff_no_gap_witness :
  ∃ c, assess_supervisor_closeout (Some revoked_history) (Some complete_observation) = Ret c ∧
    ca_state c = "claimed_complete" ∧ ca_gaps c = [].
Proof.
  destruct (holds_true (λ c, bool_decide (ca_state c = "claimed_complete"))
    (assess_supervisor_closeout (Some revoked_history) (Some complete_observation))) as (c & E & X);
    [vm_compute; reflexivity|].
  apply bool_decide_eq_true in X. exists c. split; [exact E|]. split; [exact X|].
  apply (closeout_complete_iff_no_gap revoked_history complete_observation c E). exact X.
Defined.
