(* ===== verification/RunOutcome.v ===== *)
(** * The execution assessment of a Run (run_outcome.py)

    [assess_execution] turns what was observed of the process and of its
    terminal result into one state and the list of reasons.  Arguments are
    [None] where the code is given an object of another class. *)

From S2P Require Import Prelude PyValue Supervision.
Local Open Scope string_scope.
Local Open Scope Z_scope.

Definition _SPAWN_STATES : list string := ["accepted"; "failed_before_process"; "unknown"].
Definition _CONTAINMENT : list string := ["confirmed"; "failed"; "unknown"].
Definition _SUBTYPES : list string := ["success"; "error"].
Definition _USAGE_STATES : list string := ["known"; "absent"; "malformed"].
Definition _HEX : string := HEX_DIGITS.

Definition OutcomeError (code : string) : exn := Exn "OutcomeError" code.

Record ProcessFacts := mkProcessFacts {
  spawn_state : pyval; exit_observed : pyval; exit_code : pyval; exit_signal : pyval;
  timed_out : pyval; cancelled : pyval; containment : pyval;
}.
Record TerminalFacts := mkTerminalFacts {
  subtype : pyval; is_error : pyval; reason : pyval; usage_state : pyval; evidence_digest : pyval;
}.
Record ExecutionAssessment := mkAssessment {
  ea_state : string; ea_reasons : list string; ea_usage : string; ea_never_started : bool;
}.

Definition int_in (lo hi : Z) (value : pyval) : bool :=
  match value with VInt z => (lo <=? z) && (z <? hi) | _ => false end.

Definition _process_valid (facts : option ProcessFacts) : bool :=
  match facts with
  | None => false
  | Some f =>
      str_among (spawn_state f) _SPAWN_STATES && str_among (containment f) _CONTAINMENT &&
      is_bool (exit_observed f) && is_bool (timed_out f) && is_bool (cancelled f) &&
      (if truthy (exit_observed f) then
         (int_in (- 2 ^ 31) (2 ^ 31) (exit_code f) && is_none (exit_signal f)) ||
         (int_in 1 65 (exit_signal f) && is_none (exit_code f))
       else is_none (exit_code f) && is_none (exit_signal f)) &&
      negb (is_str (spawn_state f) "failed_before_process" &&
            (truthy (exit_observed f) || is_str (containment f) "failed"))
  end.

Definition printable (c : ascii) : bool :=
  (32 <=? Z.of_nat (nat_of_ascii c)) && (Z.of_nat (nat_of_ascii c) <=? 126).
Definition reason_ok (value : pyval) : bool :=
  match value with
  | VNone => true
  | VStr s => (str_len s <=? 64) && all_chars printable s
  | _ => false
  end.
(** Truth of [reason]: a [str] that is not empty. *)
Definition reason_given (value : pyval) : bool :=
  match value with VStr s => negb (bool_decide (s = "")) | _ => false end.
Definition digest_ok (value : pyval) : bool :=
  match value with VStr s => (str_len s =? 64) && all_chars (char_in _HEX) s | _ => false end.

Definition _terminal_valid (facts : option TerminalFacts) : bool :=
  match facts with
  | None => false
  | Some f =>
      str_among (subtype f) _SUBTYPES && is_bool (is_error f) && str_among (usage_state f) _USAGE_STATES &&
      digest_ok (evidence_digest f) && reason_ok (reason f) &&
      negb (is_str (subtype f) "success" && reason_given (reason f)) &&
      Bool.eqb (is_str (subtype f) "error") (truthy (is_error f))
  end.

Definition process_reasons (p : ProcessFacts) : list string :=
  let never_started := is_str (spawn_state p) "failed_before_process" in
  let containment_reasons :=
    if is_str (containment p) "failed" then set_add "containment_failed" []
    else add_if (is_str (containment p) "unknown" && negb never_started) "containment_unknown" [] in
  let stopped := add_if (truthy (cancelled p)) "cancelled"
                   (add_if (truthy (timed_out p)) "timeout" containment_reasons) in
  let spawned := if never_started then set_add "spawn_failed" stopped
                 else add_if (is_str (spawn_state p) "unknown") "spawn_unknown" stopped in
  if negb (truthy (exit_observed p)) && negb never_started then set_add "exit_missing" spawned
  else if negb (is_none (exit_signal p)) then set_add "signaled_exit" spawned
  else add_if (negb (is_none (exit_code p)) && negb (as_int (exit_code p) =? 0)) "nonzero_exit" spawned.

Definition terminal_reasons (terminals : list (option TerminalFacts)) (reasons : list string)
    : option TerminalFacts * list string :=
  match terminals with
  | [] => (None, set_add "missing_terminal" reasons)
  | [t] =>
      if _terminal_valid t then
        match t with
        | Some f => (t, add_if (is_str (usage_state f) "malformed") "usage_malformed"
                          (add_if (truthy (is_error f)) "result_error" reasons))
        | None => (None, reasons)
        end
      else (None, set_add "terminal_invalid" reasons)
  | _ => (None, set_add "duplicate_terminal" reasons)
  end.

(** [reasons & codes]. *)
Definition meets (reasons codes : list string) : bool := existsb (λ c, str_in c reasons) codes.

Definition state_of (reasons : list string) : string :=
  if meets reasons ["containment_failed"; "containment_unknown"] then "containment_failed"
  else if meets reasons ["timeout"; "cancelled"] then "cancelled"
  else if meets reasons ["spawn_failed"; "result_error"; "nonzero_exit"; "signaled_exit"] then "failed"
  else match reasons with [] => "succeeded" | _ => "incomplete" end.

(** [terminals] is [None] for anything but a tuple. *)
Definition assess_execution (process : option ProcessFacts) (terminals : option (list (option TerminalFacts)))
    : outcome ExecutionAssessment :=
  check_that (_process_valid process) (OutcomeError "process_invalid");;
  match process, terminals with
  | Some p, Some ts =>
      let '(terminal, reasons) := terminal_reasons ts (process_reasons p) in
      let usage := match terminal with
                   | Some t => if is_str (usage_state t) "known" then "known" else "unknown"
                   | None => "unknown"
                   end in
      Ret (mkAssessment (state_of reasons) (sorted reasons) usage
             (is_str (spawn_state p) "failed_before_process"))
  | _, _ => Raise (OutcomeError "terminal_invalid")
  end.

(** ** Theorems *)
Lemma state_of_succeeded reasons : state_of reasons = "succeeded" ↔ reasons = [].
Proof. unfold state_of. split; [|by intros ->]. repeat case_match; done. Qed.

(** A process that ran to a clean end. *)
Record clean_process (p : ProcessFacts) : Prop := {
  cp_spawn : spawn_state p = VStr "accepted";
  cp_exit : exit_observed p = VBool true ∧ exit_code p = VInt 0;
  cp_stop : timed_out p = VBool false ∧ cancelled p = VBool false;
  cp_containment : containment p = VStr "confirmed";
}.

Lemma process_reasons_empty p :
  process_reasons p = [] ↔
  truthy (exit_observed p) = true ∧ is_str (spawn_state p) "failed_before_process" = false ∧
  is_none (exit_signal p) = true ∧ (is_none (exit_code p) || (as_int (exit_code p) =? 0)) = true ∧
  is_str (spawn_state p) "unknown" = false ∧ truthy (cancelled p) = false ∧ truthy (timed_out p) = false ∧
  is_str (containment p) "failed" = false ∧ is_str (containment p) "unknown" = false.
Proof.
  unfold process_reasons. cbn zeta. assert (X : true ≠ false) by done. assert (Y : false ≠ true) by done.
  destruct (is_str (spawn_state p) "failed_before_process"); rewrite ?andb_false_r, ?andb_true_r.
  { case_match; rewrite ?add_if_nil, !set_add_nil; tauto. }
  destruct (truthy (exit_observed p)); cbn [negb]; [|rewrite set_add_nil; tauto].
  destruct (is_none (exit_signal p)); cbn [negb]; [|rewrite set_add_nil; tauto].
  rewrite !add_if_nil. destruct (is_str (containment p) "failed"); [rewrite set_add_nil; tauto|].
  rewrite add_if_nil. destruct (is_none (exit_code p)), (as_int (exit_code p) =? 0); cbn; tauto.
Qed.

Lemma process_reasons_nil p : _process_valid (Some p) = true → process_reasons p = [] ↔ clean_process p.
Proof.
  intros Hv. rewrite process_reasons_empty. cbn [_process_valid] in Hv.
  apply andb_true_iff in Hv as [Hv _]. apply andb_true_iff in Hv as [Hv He]. bool_simpl. split.
  - intros (Ho & Hnf & Hsig & Hcode & Hnu & Hc & Ht & Hcf & Hcu). rewrite Ho in He.
    match goal with X : str_among (spawn_state p) _ = true |- _ => apply str_among_inv in X as (sp & Hsp & Hin) end.
    match goal with X : str_among (containment p) _ = true |- _ => apply str_among_inv in X as (ct & Hct & Hin') end.
    split.
    + rewrite Hsp. apply (is_str_false _ _ _ Hnf) in Hsp as Hn1. apply (is_str_false _ _ _ Hnu) in Hsp as Hn2.
      unfold _SPAWN_STATES in Hin. set_solver.
    + split; [by apply truthy_inv|]. destruct (exit_signal p); try done. destruct (exit_code p) as [| |z| | |]; try done.
      cbn in Hcode. apply Z.eqb_eq in Hcode. by subst.
    + split; by apply is_bool_false.
    + rewrite Hct. apply (is_str_false _ _ _ Hcf) in Hct as Hn1. apply (is_str_false _ _ _ Hcu) in Hct as Hn2.
      unfold _CONTAINMENT in Hin'. set_solver.
  - intros [Hs [Ho Hc] [Ht Hk] Hct]. rewrite Hs, Ho, Hc, Ht, Hk, Hct. cbn. split_and!; try done.
    rewrite Ho, Hc in He. cbn in He. by rewrite andb_false_r, orb_false_r in He.
Qed.

Lemma terminal_reasons_nil ts rs t :
  terminal_reasons ts rs = (t, []) ↔
  rs = [] ∧ ∃ f, t = Some f ∧ ts = [Some f] ∧ _terminal_valid (Some f) = true ∧
    truthy (is_error f) = false ∧ is_str (usage_state f) "malformed" = false.
Proof.
  unfold terminal_reasons. split.
  - destruct ts as [|[f|] [|]]; try (intros [= <- H]; by apply set_add_nil in H).
    destruct (_terminal_valid (Some f)) eqn:Hv; intros [= <- H]; [|by apply set_add_nil in H].
    rewrite !add_if_nil in H. destruct H as (? & ? & ?). split; [done|]. by exists f.
  - intros (-> & f & -> & -> & -> & He & Hu). by rewrite He, Hu.
Qed.

(** C37: A Run is assessed as succeeded exactly when its process was accepted,
    exited with code 0, was neither timed out nor cancelled and is confirmed
    contained, and there is exactly one terminal result, well formed, that is
    not an error and whose usage is not malformed; then no reason is listed.
    Neither an exit code nor a claimed success is enough. *)
Theorem succeeded_iff_clean_run p ts a :
  assess_execution (Some p) (Some ts) = Ret a →
  (ea_state a = "succeeded" ↔ clean_process p ∧ ∃ f, ts = [Some f] ∧ _terminal_valid (Some f) = true ∧
     is_error f = VBool false ∧ usage_state f ≠ VStr "malformed") ∧
  (ea_state a = "succeeded" ↔ ea_reasons a = []).
Proof.
  unfold assess_execution. intros H. inv_do. destruct (terminal_reasons ts (process_reasons p)) as [t rs] eqn:E.
  injection H as <-. cbn [ea_state ea_reasons]. rewrite state_of_succeeded, sorted_nil. split; [|done].
  rewrite <-(process_reasons_nil p) by done. split.
  - intros ->. apply terminal_reasons_nil in E as (Hp & f & _ & -> & Hv & He & Hu). split; [done|]. exists f.
    split_and!; try done; [|by intros X; rewrite X in Hu]. apply is_bool_false; [|done].
    cbn [_terminal_valid] in Hv. by bool_simpl.
  - intros (Hp & f & -> & Hv & He & Hu).
    assert (X : terminal_reasons [Some f] (process_reasons p) = (Some f, [])).
    { apply terminal_reasons_nil. split; [done|]. exists f. rewrite He. split_and!; try done.
      destruct (is_str (usage_state f) "malformed") eqn:Hm; [|done]. by apply is_str_inv in Hm. }
    rewrite X in E. by injection E as _ <-.
Qed.

Definition demo_process : ProcessFacts :=
  mkProcessFacts (VStr "accepted") (VBool true) (VInt 0) VNone (VBool false) (VBool false) (VStr "confirmed").
Definition demo_terminal : TerminalFacts :=
  mkTerminalFacts (VStr "success") (VBool false) VNone (VStr "known")
    (VStr "0123456789abcdef0123456789abcdef0123456789abcdef0123456789abcdef").

Lemma succeeded_iff_clean_run_witness :
  ∃ a, assess_execution (Some demo_process) (Some [Some demo_terminal]) = Ret a ∧ ea_state a = "succeeded" ∧
    ea_reasons a = [].
Proof.
  destruct (holds_true (λ a, bool_decide (ea_state a = "succeeded"))
    (assess_execution (Some demo_process) (Some [Some demo_terminal]))) as (a & E & X); [vm_compute; reflexivity|].
  apply bool_decide_eq_true in X. exists a. split; [exact E|]. split; [exact X|].
  apply (succeeded_iff_clean_run demo_process [Some demo_terminal] a E). exact X.
Defined.

(** ** Precedence *)
Lemma meets_true reasons codes c : c ∈ codes → c ∈ reasons → meets reasons codes = true.
Proof. intros Hc Hr. apply existsb_exists. exists c. split; [by apply list_elem_of_In|by apply str_in_spec]. Qed.

Lemma terminal_reasons_keep ts rs c : c ∈ rs → c ∈ (terminal_reasons ts rs).2.
Proof.
  intros Hc. unfold terminal_reasons. repeat case_match; cbn; rewrite ?elem_of_set_add, ?elem_of_add_if; auto.
Qed.

Lemma process_reasons_containment p :
  is_str (spawn_state p) "failed_before_process" = false → str_among (containment p) _CONTAINMENT = true →
  containment p ≠ VStr "confirmed" →
  "containment_failed" ∈ process_reasons p ∨ "containment_unknown" ∈ process_reasons p.
Proof.
  intros Hn Hin Hc. apply str_among_inv in Hin as (ct & Hct & Hin).
  assert (Hfu : is_str (containment p) "failed" = true ∨
                is_str (containment p) "failed" = false ∧ is_str (containment p) "unknown" = true).
  { rewrite Hct in Hc |- *. cbn. unfold _CONTAINMENT in Hin. repeat case_bool_decide; set_solver. }
  unfold process_reasons. cbn zeta. rewrite Hn.
  destruct Hfu as [-> | [-> ->]]; [left|right]; repeat case_match;
    repeat rewrite ?elem_of_set_add, ?elem_of_add_if; cbn; auto 10.
Qed.

Lemma process_reasons_stopped p :
  truthy (timed_out p) = true ∨ truthy (cancelled p) = true →
  "timeout" ∈ process_reasons p ∨ "cancelled" ∈ process_reasons p.
Proof.
  intros [H|H]; unfold process_reasons; cbn zeta; rewrite H; [left|right];
    repeat case_match; repeat rewrite ?elem_of_set_add, ?elem_of_add_if; auto 10.
Qed.

(** What is uncertain about containment is never hidden: a process that was
    started, or may have been, and is not confirmed contained is always reported
    as containment_failed, whatever its exit and its terminal results say; and a
    Run that timed out or was cancelled is reported as one of containment_failed
    and cancelled, never as failed, incomplete or succeeded. *)
Theorem uncontained_or_stopped_run_is_never_a_result p ts a :
  assess_execution (Some p) (Some ts) = Ret a →
  (spawn_state p ≠ VStr "failed_before_process" → containment p ≠ VStr "confirmed" →
     ea_state a = "containment_failed") ∧
  (timed_out p = VBool true ∨ cancelled p = VBool true →
     ea_state a = "containment_failed" ∨ ea_state a = "cancelled").
Proof.
  unfold assess_execution. intros H. inv_do.
  match goal with X : _process_valid _ = true |- _ => rename X into Hv end.
  pose proof (terminal_reasons_keep ts (process_reasons p)) as Hkeep.
  destruct (terminal_reasons ts (process_reasons p)) as [t rs] eqn:E. injection H as <-. cbn in Hkeep |- *.
  assert (Hct : str_among (containment p) _CONTAINMENT = true) by (cbn in Hv; by bool_simpl).
  unfold state_of. split.
  - intros Hs Hc. assert (Hn : is_str (spawn_state p) "failed_before_process" = false).
    { destruct (is_str _ _) eqn:X; [|done]. by apply is_str_inv in X. }
    destruct (process_reasons_containment p Hn Hct Hc) as [X|X]; apply Hkeep in X;
      (erewrite meets_true; [done| |exact X]; set_solver).
  - intros Hst. destruct (meets rs ["containment_failed"; "containment_unknown"]); [by left|right].
    assert (Hst' : truthy (timed_out p) = true ∨ truthy (cancelled p) = true) by (destruct Hst as [-> | ->]; auto).
    destruct (process_reasons_stopped p Hst') as [X|X]; apply Hkeep in X;
      (erewrite meets_true; [done| |exact X]; set_solver).
Qed.

Definition demo_uncontained : ProcessFacts :=
  mkProcessFacts (VStr "accepted") (VBool true) (VInt 0) VNone (VBool false) (VBool false) (VStr "unknown").

Lemma uncontained_or_stopped_run_is_never_a_result_witness :
  ∃ a, assess_execution (Some demo_uncontained) (Some [Some demo_terminal]) = Ret a ∧
    ea_state a = "containment_failed".
Proof.
  destruct (holds_true (λ _, true) (assess_execution (Some demo_uncontained) (Some [Some demo_terminal])))
    as (a & E & _); [vm_compute; reflexivity|].
  exists a. split; [exact E|].
  apply (uncontained_or_stopped_run_is_never_a_result demo_uncontained [Some demo_terminal] a E); discriminate.
Defined.
