(* ===== verification/VenueAge.v ===== *)
(** * Venue age from claimed provider times (venue_age.py)

    Nanosecond times are Python integers checked to fit 63 bits; the fields of
    the two dataclasses are [pyval]s because the code tests their exact types.
    [fresh] is [None] for an object of another class, and so is the inner
    option of [prior]. *)

From S2P Require Import Prelude PyValue Supervision.
Local Open Scope string_scope.
Local Open Scope Z_scope.

Definition MAX_NS : Z := 2 ^ 63 - 1.
Definition MAX_EPSILON_NS : Z := 5000000000.

Definition VenueAgeError (code : string) : exn := Exn "VenueAgeError" code.

Record AgeAnchor := mkAnchor {
  lower_ns : pyval; upper_ns : pyval; monotonic_anchor_ns : pyval; boot_id : pyval; resource_digest : pyval;
}.
Record ClaimedProviderTime := mkClaim {
  provider_created_at_ns : pyval; provider_now_ns : pyval; epsilon_ns : pyval; request_started_ns : pyval;
  response_received_ns : pyval; observer_boot_id : pyval; c_resource_digest : pyval;
}.

Definition _valid_ns (value : pyval) : bool :=
  match value with VInt z => (0 <=? z) && (z <=? MAX_NS) | _ => false end.
Definition _valid_boot (value : pyval) : bool := _BOOT_ID value.
Definition _valid_digest (value : pyval) : bool :=
  match value with VStr s => (str_len s =? 64) && all_chars (char_in HEX_DIGITS) s | _ => false end.

Definition _checked_sum (values : list Z) : outcome Z :=
  let total := foldr Z.add 0 values in
  check_that (negb (MAX_NS <? total)) (VenueAgeError "age_overflow");;
  Ret total.

Definition check_fresh (fresh : option ClaimedProviderTime) : outcome ClaimedProviderTime :=
  match fresh with
  | None => Raise (VenueAgeError "age_argument")
  | Some f =>
      check_that (forallb _valid_ns [provider_created_at_ns f; provider_now_ns f; epsilon_ns f;
        request_started_ns f; response_received_ns f]) (VenueAgeError "age_time_invalid");;
      check_that (_valid_boot (observer_boot_id f) && _valid_digest (c_resource_digest f))
        (VenueAgeError "age_identity_invalid");;
      check_that (negb ((as_int (provider_now_ns f) <? as_int (provider_created_at_ns f)) ||
                        (as_int (response_received_ns f) <? as_int (request_started_ns f)) ||
                        (MAX_EPSILON_NS <? as_int (epsilon_ns f)))) (VenueAgeError "age_time_invalid");;
      Ret f
  end.

Definition check_prior (prior : option AgeAnchor) (f : ClaimedProviderTime) : outcome AgeAnchor :=
  match prior with
  | None => Raise (VenueAgeError "age_anchor_invalid")
  | Some p =>
      check_that (forallb _valid_ns [lower_ns p; upper_ns p; monotonic_anchor_ns p] &&
                  negb (as_int (upper_ns p) <? as_int (lower_ns p))) (VenueAgeError "age_anchor_invalid");;
      check_that (_valid_boot (boot_id p) && _valid_digest (resource_digest p))
        (VenueAgeError "age_anchor_invalid");;
      check_that (same_str (resource_digest p) (c_resource_digest f)) (VenueAgeError "age_identity_changed");;
      Ret p
  end.

(** The bounds a prior anchor gives at the time of the response. *)
Definition prior_bounds (prior : option AgeAnchor) (f : ClaimedProviderTime) : outcome (Z * Z) :=
  match prior with
  | None => Ret (0, 0)
  | Some p =>
      if same_str (boot_id p) (observer_boot_id f) then
        check_that (negb (as_int (request_started_ns f) <? as_int (monotonic_anchor_ns p)))
          (VenueAgeError "age_anchor_lost");;
        let elapsed := as_int (response_received_ns f) - as_int (monotonic_anchor_ns p) in
        lower ← _checked_sum [as_int (lower_ns p); elapsed];
        upper ← _checked_sum [as_int (upper_ns p); elapsed];
        Ret (lower, upper)
      else Ret (as_int (lower_ns p), as_int (upper_ns p))
  end.

(** [prior] is [None] for the Python [None]. *)
Definition derive_claimed_age (prior : option (option AgeAnchor)) (fresh : option ClaimedProviderTime)
    : outcome AgeAnchor :=
  f ← check_fresh fresh;
  p ← (match prior with
       | None => Ret None
       | Some prior => p ← check_prior prior f; Ret (Some p)
       end);
  let delta := as_int (provider_now_ns f) - as_int (provider_created_at_ns f) in
  let rtt := as_int (response_received_ns f) - as_int (request_started_ns f) in
  let fresh_lower := Z.max 0 (delta - as_int (epsilon_ns f)) in
  fresh_upper ← _checked_sum [delta; as_int (epsilon_ns f); rtt];
  '(prior_lower, prior_upper) ← prior_bounds p f;
  check_that (negb (fresh_upper <? prior_upper)) (VenueAgeError "age_rollback");;
  Ret (mkAnchor (VInt (Z.max prior_lower fresh_lower)) (VInt (Z.max prior_upper fresh_upper))
         (response_received_ns f) (observer_boot_id f) (c_resource_digest f)).

(** ** Theorems *)

(** An anchor [derive_claimed_age] takes as [prior]. *)
Record anchor_ok (a : AgeAnchor) : Prop := {
  ak_times : _valid_ns (lower_ns a) = true ∧ _valid_ns (upper_ns a) = true ∧ _valid_ns (monotonic_anchor_ns a) = true;
  ak_range : as_int (lower_ns a) ≤ as_int (upper_ns a);
  ak_ids : _valid_boot (boot_id a) = true ∧ _valid_digest (resource_digest a) = true;
}.

Record claim_ok (f : ClaimedProviderTime) : Prop := {
  ck_created : 0 ≤ as_int (provider_created_at_ns f) ≤ as_int (provider_now_ns f);
  ck_request : 0 ≤ as_int (request_started_ns f) ≤ as_int (response_received_ns f);
  ck_response : _valid_ns (response_received_ns f) = true;
  ck_eps : 0 ≤ as_int (epsilon_ns f) ≤ MAX_EPSILON_NS;
  ck_ids : _valid_boot (observer_boot_id f) = true ∧ _valid_digest (c_resource_digest f) = true;
}.

(** How long the observer's clock ran between the anchor and the response. *)
Definition elapsed (p : AgeAnchor) (f : ClaimedProviderTime) : Z :=
  as_int (response_received_ns f) - as_int (monotonic_anchor_ns p).
Definition same_boot (p : AgeAnchor) (f : ClaimedProviderTime) : bool := same_str (boot_id p) (observer_boot_id f).

Lemma valid_ns_range v : _valid_ns v = true → 0 ≤ as_int v ≤ MAX_NS.
Proof. unfold _valid_ns. destruct v; try done. cbn. intros. bool_simpl. lia. Qed.

Lemma valid_ns_int z : 0 ≤ z ≤ MAX_NS → _valid_ns (VInt z) = true.
Proof. intros. cbn. apply andb_true_iff. split; apply Z.leb_le; lia. Qed.

(** Adds the range of every value that was checked to be a time. *)
Ltac ns_ranges :=
  repeat match goal with
  | H : _valid_ns ?v = true |- _ =>
      lazymatch goal with
      | _ : 0 ≤ as_int v ≤ MAX_NS |- _ => fail
      | _ => pose proof (valid_ns_range v H)
      end
  end.

Lemma check_fresh_ret fresh f : check_fresh fresh = Ret f → fresh = Some f ∧ claim_ok f.
Proof.
  unfold check_fresh. destruct fresh as [f0|]; [|done]. intros H. inv_do. injection H as <-. split; [done|].
  cbn [forallb] in *. bool_simpl. ns_ranges. split; try done; lia.
Qed.

Lemma check_prior_ret prior f p :
  check_prior prior f = Ret p →
  prior = Some p ∧ anchor_ok p ∧ same_str (resource_digest p) (c_resource_digest f) = true.
Proof.
  unfold check_prior. destruct prior as [p0|]; [|done]. intros H. inv_do. injection H as <-.
  cbn [forallb] in *. bool_simpl. do 2 (split; [done|]). done.
Qed.

Lemma checked_sum_ret values z : _checked_sum values = Ret z → z = foldr Z.add 0 values ∧ z ≤ MAX_NS.
Proof. unfold _checked_sum. intros H. inv_do. injection H as <-. bool_simpl. lia. Qed.

(** What the prior anchor contributes: its bounds, moved by the time that
    passed when the observer has not rebooted since. *)
Lemma prior_bounds_ret p f lower upper :
  prior_bounds (Some p) f = Ret (lower, upper) →
  let shift := if same_boot p f then elapsed p f else 0 in
  lower = as_int (lower_ns p) + shift ∧ upper = as_int (upper_ns p) + shift ∧
  (same_boot p f = true → as_int (monotonic_anchor_ns p) ≤ as_int (request_started_ns f)).
Proof.
  unfold prior_bounds, same_boot, elapsed. destruct (same_str (boot_id p) (observer_boot_id f)); intros H; cbn zeta.
  - inv_do. injection H as <- <-.
    repeat match goal with X : _checked_sum _ = Ret _ |- _ => apply checked_sum_ret in X as [-> ?] end.
    cbn [foldr]. bool_simpl. lia.
  - injection H as <- <-. by rewrite !Z.add_0_r.
Qed.

Lemma derive_ret prior fresh a :
  derive_claimed_age prior fresh = Ret a →
  ∃ f prior_lower prior_upper,
    fresh = Some f ∧ claim_ok f ∧ prior_lower ≤ prior_upper ∧ 0 ≤ prior_lower ∧
    (match prior with
     | None => prior_lower = 0 ∧ prior_upper = 0
     | Some prior => ∃ p, prior = Some p ∧ anchor_ok p ∧
         same_str (resource_digest p) (c_resource_digest f) = true ∧
         prior_bounds (Some p) f = Ret (prior_lower, prior_upper)
     end) ∧
    let delta := as_int (provider_now_ns f) - as_int (provider_created_at_ns f) in
    let fresh_upper := delta + as_int (epsilon_ns f) + elapsed (mkAnchor VNone VNone (request_started_ns f) VNone VNone) f in
    prior_upper ≤ fresh_upper ≤ MAX_NS ∧
    a = mkAnchor (VInt (Z.max prior_lower (Z.max 0 (delta - as_int (epsilon_ns f))))) (VInt fresh_upper)
          (response_received_ns f) (observer_boot_id f) (c_resource_digest f).
Proof.
  unfold derive_claimed_age. intros H. inv_do.
  match goal with X : check_fresh _ = Ret _ |- _ => apply check_fresh_ret in X as [-> Hf] end.
  match goal with X : _checked_sum _ = Ret _ |- _ => apply checked_sum_ret in X as [-> Hs] end.
  match goal with X : prior_bounds _ _ = Ret ?b |- _ => destruct b as [pl pu]; rename X into Hb end.
  inv_do. injection H as <-. bool_simpl. cbn [foldr] in *.
  assert (Hp : pl ≤ pu ∧ 0 ≤ pl ∧ match prior with
     | None => pl = 0 ∧ pu = 0
     | Some prior => ∃ p, prior = Some p ∧ anchor_ok p ∧
         same_str (resource_digest p) (c_resource_digest a0) = true ∧ prior_bounds (Some p) a0 = Ret (pl, pu)
     end).
  { destruct prior as [prior|]; inv_do; simplify_eq; cbn in Hb; simplify_eq; [|done].
    match goal with X : check_prior _ _ = Ret _ |- _ => apply check_prior_ret in X as (-> & Ha & Hd) end.
    pose proof (prior_bounds_ret _ _ _ _ Hb) as (-> & -> & Hle). pose proof Ha as [(? & ? & ?) ? ?].
    pose proof (ck_request _ Hf). ns_ranges. unfold elapsed in *.
    split_and!; [lia| |by exists a]. destruct (same_boot _ _); [specialize (Hle eq_refl)|]; lia. }
  destruct Hp as (? & ? & Hp). exists a0, pl, pu. split_and!; try done; unfold elapsed; cbn in *; try lia.
  f_equal; f_equal; lia.
Qed.

(** A successful [derive_claimed_age] from a prior anchor gives an anchor
    that is again well formed (0 ≤ lower ≤ upper ≤ 2^63 - 1), for the same
    resource, whose two bounds never fall below the prior ones; on the same
    boot both have grown by at least the time the observer's clock measured
    since, so the chain of anchors can be continued and cannot be rolled back. *)
Theorem derived_anchor_only_advances p f a :
  derive_claimed_age (Some (Some p)) (Some f) = Ret a →
  anchor_ok a ∧ same_str (resource_digest p) (resource_digest a) = true ∧
  monotonic_anchor_ns a = response_received_ns f ∧
  let shift := if same_boot p f then elapsed p f else 0 in
  0 ≤ shift ∧
  as_int (lower_ns p) + shift ≤ as_int (lower_ns a) ∧ as_int (upper_ns p) + shift ≤ as_int (upper_ns a).
Proof.
  intros (f0 & pl & pu & [= <-] & Hf & Hle & H0 & (p0 & [= <-] & Hp & Hd & Hb) & Hu & ->)%derive_ret.
  pose proof (prior_bounds_ret _ _ _ _ Hb) as (-> & -> & Hb'). pose proof Hf as [??? ? [??]].
  unfold elapsed in *. cbn in Hu |- *. split; [split; cbn|split_and!]; try done; try lia.
  - split_and!; [apply valid_ns_int; lia|apply valid_ns_int; lia|done].
  - destruct (same_boot p f); [specialize (Hb' eq_refl)|]; lia.
Qed.

Local Notation demo_digest := (VStr (String.concat "" (repeat "0123456789abcdef" 4))).
(** An anchor taken at 1000 ns, and a claim made 500 ns later. *)
Definition demo_anchor : AgeAnchor := mkAnchor (VInt 100) (VInt 200) (VInt 1000) (VStr "boot-1") demo_digest.
Definition demo_claim : ClaimedProviderTime :=
  mkClaim (VInt 5000) (VInt 5650) (VInt 60) (VInt 1400) (VInt 1500) (VStr "boot-1") demo_digest.
Local Notation demo_derived := (mkAnchor (VInt 600) (VInt 810) (VInt 1500) (VStr "boot-1") demo_digest).

Lemma derived_anchor_only_advances_witness :
  anchor_ok demo_derived ∧ same_str (resource_digest demo_anchor) (resource_digest demo_derived) = true ∧
  monotonic_anchor_ns demo_derived = VInt 1500 ∧ 0 ≤ 500 ∧ 100 + 500 ≤ 600 ∧ 200 + 500 ≤ 810.
Proof. exact (derived_anchor_only_advances demo_anchor demo_claim demo_derived eq_refl). Defined.

(** C38: the bounds are sound.  Take the resource's true age at the three
    instants that matter: at the prior anchor, when the provider produced its
    time, and at the response.  If the prior bounds held, the provider's claim
    is off by at most its declared epsilon, its time was produced during the
    request, and (same boot) the observer's clock measured the time since the
    anchor or (other boot) time did not run backwards, then the age at the
    response lies within the derived bounds. *)
Theorem derived_bounds_are_sound prior f a age_prior age_claim age_response :
  derive_claimed_age prior (Some f) = Ret a →
  (∀ p, prior = Some (Some p) →
     as_int (lower_ns p) ≤ age_prior ≤ as_int (upper_ns p) ∧
     (if same_boot p f then age_response = age_prior + elapsed p f else age_prior ≤ age_response)) →
  0 ≤ age_claim ≤ age_response →
  age_response ≤ age_claim + (as_int (response_received_ns f) - as_int (request_started_ns f)) →
  Z.abs (as_int (provider_now_ns f) - as_int (provider_created_at_ns f) - age_claim) ≤ as_int (epsilon_ns f) →
  as_int (lower_ns a) ≤ age_response ≤ as_int (upper_ns a).
Proof.
  intros (f0 & pl & pu & [= <-] & Hf & Hle & H0 & Hp & Hu & ->)%derive_ret Hprior ???.
  unfold elapsed in *. cbn in Hu |- *.
  assert (pl ≤ age_response); [|lia].
  destruct prior as [prior|]; [|lia]. destruct Hp as (p & -> & _ & _ & Hb).
  destruct (Hprior p eq_refl) as [? Hrun]. apply prior_bounds_ret in Hb as (-> & _ & _). unfold elapsed.
  destruct (same_boot p f); lia.
Qed.

Lemma derived_bounds_are_sound_witness : 600 ≤ 650 ≤ 810.
Proof.
  apply (derived_bounds_are_sound (Some (Some demo_anchor)) demo_claim demo_derived 150 640 650 eq_refl);
    cbn; [|lia|lia|lia].
  intros p [= <-]. vm_compute. split; [split|]; congruence.
Defined.
