(* ===== verification/PermitModel.v ===== *)
(** * One-use dispatch permits (forwarder_permit_model.py)

    [PermitBook] is the state of the class of that name.  A handle is compared
    by identity, so it is the number of its allocation ([ref]); [None] stands
    for an object of another class, and a reference the book never handed out
    for a handle made elsewhere, equal-valued copies included.  The same holds
    for a binding argument.  Fields of a binding are [pyval]s because the code
    tests their exact types.  Each method runs under one lock and is one atomic
    step. *)

From S2P Require Import Prelude PyValue Services Scope Supervision.
Local Open Scope string_scope.
Local Open Scope Z_scope.

Definition MAX_OPEN_PERMITS : Z := 32.
Definition MAX_LIFETIME_PERMITS : Z := 2048.
Definition MAX_MONO_US : Z := 2 ^ 53 - 1.
Definition _ID_CHARS : string := LETTERS_DIGITS +:+ "-_.".
Definition _HEX_CHARS : string := HEX_DIGITS.
Definition _OPEN_PHASES : list string := ["offered"; "consumed_l1"; "write_admitted"].

Definition PermitModelError (code : string) : exn := Exn "PermitModelError" code.

Definition _safe_id (value : pyval) : bool :=
  match value with
  | VStr s => (1 <=? str_len s) && (str_len s <=? 128) && all_chars (char_in _ID_CHARS) s
  | _ => false
  end.
Definition _digest (value : pyval) : bool :=
  match value with VStr s => (str_len s =? 64) && all_chars (char_in _HEX_CHARS) s | _ => false end.
Definition _time (value : pyval) : bool :=
  match value with VInt z => (0 <=? z) && (z <=? MAX_MONO_US) | _ => false end.

Record PermitBinding := mkBinding {
  permit_id : pyval; receiver_boot_id : pyval; forwarder_generation : pyval; run_id : pyval;
  attempt_id : pyval; operation_id : pyval; effect_intent_id : pyval; grant_id : pyval;
  flight_id : pyval; service : pyval; pb_route_id : pyval; request_digest : pyval;
  target_digest : pyval; expires_us : pyval;
}.

(** Dataclass equality: the fields compared in order.  It is only used on
    validated bindings, whose fields are exact strings and one integer. *)
#[export] Instance binding_eq_dec : EqDecision PermitBinding.
Proof. solve_decision. Defined.

Record PermitDecision := mkDecision { pd_code : string; pd_reason : string; pd_phase : option string }.

Record _Entry := mkEntry { binding : PermitBinding; e_phase : string }.

Definition _valid_binding (b : PermitBinding) (boot_id generation : string) : bool :=
  let route := match pb_route_id b with VStr r => dict_get ROUTE_CATALOG r | _ => None end in
  forallb _safe_id [permit_id b; receiver_boot_id b; forwarder_generation b; run_id b; attempt_id b;
    operation_id b; effect_intent_id b; grant_id b; flight_id b] &&
  is_str (receiver_boot_id b) boot_id &&
  is_str (forwarder_generation b) generation &&
  match route with Some route => is_str (service b) (rt_service route) | None => false end &&
  _digest (request_digest b) && _digest (target_digest b) && _time (expires_us b).

Definition _snapshot_binding (b : option PermitBinding) (boot_id generation : string) : option PermitBinding :=
  match b with
  | None => None
  | Some b => if _valid_binding b boot_id generation then Some b else None
  end.

Record PermitBook := mkBook {
  _boot_id : string; _generation : string;
  _entries : dict ref _Entry;
  _permit_ids : gset string; _operation_ids : gset string;
  _open : Z;
  _next_handle : ref;
}.

Definition set_entries (v : dict ref _Entry) (b : PermitBook) : PermitBook :=
  mkBook (_boot_id b) (_generation b) v (_permit_ids b) (_operation_ids b) (_open b) (_next_handle b).
Definition set_open (v : Z) (b : PermitBook) : PermitBook :=
  mkBook (_boot_id b) (_generation b) (_entries b) (_permit_ids b) (_operation_ids b) v (_next_handle b).

Definition new_book (receiver_boot_id forwarder_generation : pyval) : outcome PermitBook :=
  check_that (_safe_id receiver_boot_id && _safe_id forwarder_generation) (PermitModelError "permit_argument");;
  Ret (mkBook (as_str receiver_boot_id) (as_str forwarder_generation) [] ∅ ∅ 0 0%nat).

(** [handle = PermitHandle(...)], the entry and the two identity sets. *)
Definition add_entry (snapshot : PermitBinding) (b : PermitBook) : PermitBook :=
  mkBook (_boot_id b) (_generation b)
    (dict_set (_entries b) (_next_handle b) (mkEntry snapshot "offered"))
    ({[as_str (permit_id snapshot)]} ∪ _permit_ids b) ({[as_str (operation_id snapshot)]} ∪ _operation_ids b)
    (_open b + 1) (S (_next_handle b)).

Definition stage (b : option PermitBinding) (now_us : pyval) : st PermitBook ref :=
  boot ← gets _boot_id;
  generation ← gets _generation;
  match _snapshot_binding b boot generation with
  | None => raise (PermitModelError "permit_argument")
  | Some snapshot =>
      require (_time now_us) (PermitModelError "permit_argument");;
      require (negb (as_int (expires_us snapshot) <=? as_int now_us)) (PermitModelError "permit_expired");;
      permits ← gets _permit_ids;
      operations ← gets _operation_ids;
      require (negb (bool_decide (as_str (permit_id snapshot) ∈ permits) ||
                     bool_decide (as_str (operation_id snapshot) ∈ operations)))
        (PermitModelError "permit_duplicate");;
      opened ← gets _open;
      entries ← gets _entries;
      require (negb ((MAX_OPEN_PERMITS <=? opened) || (MAX_LIFETIME_PERMITS <=? Z.of_nat (length entries))))
        (PermitModelError "permit_capacity");;
      handle ← gets _next_handle;
      modify (add_entry snapshot);;
      mret handle
  end.

Definition _entry (handle : option ref) : st PermitBook (option _Entry) :=
  match handle with
  | None => mret None
  | Some h => entries ← gets _entries; mret (dict_get entries h)
  end.

Definition set_phase (h : ref) (phase : string) : st PermitBook unit :=
  modify (λ b, set_entries (dict_alter (λ e, mkEntry (binding e) phase) (_entries b) h) b).

(** [_close(entry)] for the entry of [h]; the phase it leaves. *)
Definition _close (h : ref) (entry : _Entry) : st PermitBook string :=
  if str_in (e_phase entry) _OPEN_PHASES then
    modify (λ b, set_open (_open b - 1) b);;
    set_phase h "closed";;
    mret "closed"
  else mret (e_phase entry).

Definition close (handle : option ref) : st PermitBook unit :=
  entry ← _entry handle;
  match handle, entry with
  | Some h, Some entry => _close h entry;; mret tt
  | _, _ => raise (PermitModelError "permit_unknown")
  end.

Definition phase (handle : option ref) : st PermitBook string :=
  entry ← _entry handle;
  match entry with
  | Some entry => mret (e_phase entry)
  | None => raise (PermitModelError "permit_unknown")
  end.

(** [self._close(entry)] and the denial. *)
Definition deny (fence reason : string) (h : ref) (entry : _Entry) : st PermitBook PermitDecision :=
  phase ← _close h entry;
  mret (mkDecision (fence +:+ "_denied") reason (Some phase)).

Definition _attempt (fence : string) (handle : option ref) (expected : option PermitBinding)
    (boot_id generation now_us : pyval) : st PermitBook PermitDecision :=
  own_boot ← gets _boot_id;
  own_generation ← gets _generation;
  let expected_snapshot := _snapshot_binding expected own_boot own_generation in
  let valid_arguments := some_b expected_snapshot && _time now_us && _safe_id boot_id && _safe_id generation in
  entry ← _entry handle;
  match handle, entry with
  | Some h, Some entry =>
      if negb valid_arguments then deny fence "invalid_argument" h entry
      else
        let required := if bool_decide (fence = "l1") then "offered" else "consumed_l1" in
        if negb (bool_decide (e_phase entry = required)) then deny fence "phase" h entry
        else if negb (is_str boot_id own_boot) || negb (is_str generation own_generation)
        then deny fence "stale_context" h entry
        else if as_int (expires_us (binding entry)) <=? as_int now_us then deny fence "expired" h entry
        else if negb (bool_decide (expected_snapshot = Some (binding entry)))
        then deny fence "binding_mismatch" h entry
        else
          let phase := if bool_decide (fence = "l1") then "consumed_l1" else "write_admitted" in
          set_phase h phase;;
          mret (mkDecision (fence +:+ "_pass") "exact" (Some phase))
  | _, _ => mret (mkDecision (fence +:+ "_denied") "unknown_handle" None)
  end.

Definition attempt_l1 := _attempt "l1".
Definition attempt_l2 := _attempt "l2".
