(* ===== verification/PermitThm.v ===== *)
(** * The permit book implements one-use permits

    The abstract specification is a machine on a list of phases, one per permit
    ever staged, that knows nothing of bindings, clocks, arguments or counters.
    The book simulates it call by call; what the specification promises of
    every trace then holds of the book. *)

From S2P Require Import Prelude PyValue Services Scope Supervision PermitModel.
Local Open Scope string_scope.
Local Open Scope Z_scope.
Local Open Scope list_scope.

(** ** The specification *)
Inductive Phase := Offered | Consumed | Passed | Closed.
#[export] Instance Phase_eq_dec : EqDecision Phase.
Proof. solve_decision. Defined.

Inductive Fence := L1 | L2.
#[export] Instance Fence_eq_dec : EqDecision Fence.
Proof. solve_decision. Defined.

Inductive event :=
| EvStage (h : nat)
| EvPass (f : Fence) (h : nat)
| EvRetire (h : nat).
#[export] Instance event_eq_dec : EqDecision event.
Proof. solve_decision. Defined.

Definition open_count (s : list Phase) : Z := Z.of_nat (length (filter (λ p, p ≠ Closed) s)).

Definition before (f : Fence) : Phase := match f with L1 => Offered | L2 => Consumed end.
Definition after (f : Fence) : Phase := match f with L1 => Consumed | L2 => Passed end.

Inductive spec_step : list Phase → event → list Phase → Prop :=
| spec_stage s : open_count s < MAX_OPEN_PERMITS → Z.of_nat (length s) < MAX_LIFETIME_PERMITS →
    spec_step s (EvStage (length s)) (s ++ [Offered])
| spec_pass s f h : s !! h = Some (before f) → spec_step s (EvPass f h) (<[h := after f]> s)
| spec_retire s h p : s !! h = Some p → spec_step s (EvRetire h) (<[h := Closed]> s).

Inductive spec_run : list event → list Phase → Prop :=
| run_nil : spec_run [] []
| run_snoc evs s ev s' : spec_run evs s → spec_step s ev s' → spec_run (evs ++ [ev]) s'.

(** What the specification promises: the events of one permit are a staging,
    then at most the two fences in order, then only retirements. *)
Definition subject (ev : event) : nat := match ev with EvStage h | EvPass _ h | EvRetire h => h end.
Definition events_of (h : nat) (evs : list event) : list event := filter (λ ev, subject ev = h) evs.

Definition life (h : nat) : list event := [EvStage h; EvPass L1 h; EvPass L2 h].
Definition progress (p : Phase) : nat := match p with Offered => 1 | Consumed => 2 | Passed => 3 | Closed => 0 end.

(** The events a permit in phase [p] has had. *)
Definition had (h : nat) (p : option Phase) (evs : list event) : Prop :=
  match p with
  | None => evs = []
  | Some Closed => ∃ k n, (0 < k)%nat ∧ evs = take k (life h) ++ replicate n (EvRetire h)
  | Some p => evs = take (progress p) (life h)
  end.

Lemma events_of_snoc h evs ev :
  events_of h (evs ++ [ev]) = events_of h evs ++ (if decide (subject ev = h) then [ev] else []).
Proof. unfold events_of. rewrite filter_app, filter_cons, filter_nil. done. Qed.

Lemma had_retire h p evs : had h (Some p) evs → had h (Some Closed) (evs ++ [EvRetire h]).
Proof.
  destruct p; cbn.
  - intros ->. exists 1%nat, 1%nat. split; [lia|done].
  - intros ->. exists 2%nat, 1%nat. split; [lia|done].
  - intros ->. exists 3%nat, 1%nat. split; [lia|done].
  - intros (k & n & Hk & ->). exists k, (S n). split; [done|]. rewrite <-app_assoc. f_equal.
    by rewrite replicate_S_end.
Qed.

Lemma spec_run_had evs s : spec_run evs s → ∀ h, had h (s !! h) (events_of h evs).
Proof.
  induction 1 as [|evs s ev s' _ IH Hstep]; intros h; [done|]. rewrite events_of_snoc. specialize (IH h).
  destruct Hstep as [s _ _|s f h' Hh|s h' p Hh]; cbn [subject]; case_decide as E; subst; rewrite ?app_nil_r.
  - rewrite lookup_app_r, Nat.sub_diag by done. rewrite lookup_ge_None_2 in IH by done. cbn in IH |- *. by rewrite IH.
  - destruct (decide (h < length s)%nat); [by rewrite lookup_app_l|].
    rewrite lookup_ge_None_2 in IH by lia. rewrite lookup_ge_None_2; [done|]. rewrite length_app. cbn. lia.
  - rewrite list_lookup_insert_eq by (by eapply lookup_lt_Some). rewrite Hh in IH.
    destruct f; cbn in IH |- *; by rewrite IH.
  - by rewrite list_lookup_insert_ne.
  - rewrite list_lookup_insert_eq by (by eapply lookup_lt_Some). rewrite Hh in IH. by eapply had_retire.
  - by rewrite list_lookup_insert_ne.
Qed.

Definition weight (p : Phase) : Z := match p with Closed => 0 | _ => 1 end.

Lemma open_count_app s p : open_count (s ++ [p]) = open_count s + weight p.
Proof.
  unfold open_count, weight. rewrite filter_app, length_app, filter_cons, filter_nil.
  destruct p; case_decide; cbn; solve [lia | exfalso; naive_solver].
Qed.

Lemma open_count_insert s h p q :
  s !! h = Some p → open_count (<[h := q]> s) = open_count s - weight p + weight q.
Proof.
  unfold open_count, weight. revert h. induction s as [|z s IH]; intros [|h] Hh; cbn in Hh; simplify_eq; try done.
  - change (<[0%nat:=q]> (p :: s)) with (q :: s). rewrite !filter_cons.
    destruct p, q; repeat case_decide; cbn; solve [lia | exfalso; naive_solver].
  - specialize (IH h Hh). change (<[S h:=q]> (z :: s)) with (z :: <[h:=q]> s). rewrite !filter_cons. destruct (decide (z ≠ Closed)); cbn [length]; lia.
Qed.

Lemma spec_run_bounds evs s :
  spec_run evs s → open_count s ≤ MAX_OPEN_PERMITS ∧ Z.of_nat (length s) ≤ MAX_LIFETIME_PERMITS.
Proof.
  induction 1 as [|evs s ev s' _ IH Hstep]; [done|].
  destruct Hstep as [s ? ?|s f h Hh|s h p Hh].
  - rewrite open_count_app, length_app. cbn. lia.
  - rewrite length_insert, (open_count_insert _ _ _ _ Hh). destruct f; cbn; lia.
  - rewrite length_insert, (open_count_insert _ _ _ _ Hh). destruct p; cbn; lia.
Qed.

(** ** The book's calls *)
Inductive book_call :=
| CallStage (b : option PermitBinding) (now_us : pyval)
| CallAttempt (f : Fence) (h : option ref) (expected : option PermitBinding) (boot generation now_us : pyval)
| CallClose (h : option ref)
| CallPhase (h : option ref).

Definition attempt (f : Fence) := match f with L1 => attempt_l1 | L2 => attempt_l2 end.
Definition fence_name (f : Fence) : string := match f with L1 => "l1" | L2 => "l2" end.

(** What a caller learns from one call: nothing when it raises or the handle is
    unknown. *)
Definition attempt_event (f : Fence) (h : option ref) (d : PermitDecision) : list event :=
  match h, pd_phase d with
  | Some h, Some _ => if bool_decide (pd_code d = (fence_name f +:+ "_pass")%string) then [EvPass f h] else [EvRetire h]
  | _, _ => []
  end.

Definition run_call (c : book_call) (b : PermitBook) : list event * PermitBook :=
  match c with
  | CallStage binding now =>
      match stage binding now b with (Ret h, b') => ([EvStage h], b') | (Raise _, b') => ([], b') end
  | CallAttempt f h expected boot generation now =>
      match attempt f h expected boot generation now b with
      | (Ret d, b') => (attempt_event f h d, b') | (Raise _, b') => ([], b') end
  | CallClose h =>
      match close h b with
      | (Ret _, b') => (match h with Some h => [EvRetire h] | None => [] end, b') | (Raise _, b') => ([], b') end
  | CallPhase h => ([], (phase h b).2)
  end.

Fixpoint run_book (cs : list book_call) (b : PermitBook) : list event * PermitBook :=
  match cs with
  | [] => ([], b)
  | c :: cs => let '(e, b') := run_call c b in let '(es, b'') := run_book cs b' in (e ++ es, b'')
  end.

(** ** The simulation *)
Definition phase_name (p : Phase) : string :=
  match p with Offered => "offered" | Consumed => "consumed_l1" | Passed => "write_admitted" | Closed => "closed" end.

Record represents (b : PermitBook) (s : list Phase) : Prop := {
  rp_keys : dict_keys (_entries b) = seq 0 (length s);
  rp_phases : e_phase <$> dict_values (_entries b) = phase_name <$> s;
  rp_open : _open b = open_count s;
  rp_next : _next_handle b = length s;
}.

Lemma seq_dict_get {V} (d : dict ref V) k n h :
  dict_keys d = seq k n → dict_get d (k + h)%nat = dict_values d !! h.
Proof.
  revert k n h. induction d as [|[k1 v] d IH]; intros k n h; cbn; [done|]. destruct n as [|n]; [done|].
  cbn. intros [= -> Hd]. destruct h as [|h]; cbn.
  - by rewrite Nat.add_0_r, decide_True.
  - rewrite decide_False by lia. rewrite <-Nat.add_succ_comm. by apply (IH (S k) n).
Qed.

Lemma seq_dict_alter {V} (f : V → V) (d : dict ref V) k n h :
  dict_keys d = seq k n → dict_values (dict_alter f d (k + h)%nat) = alter f h (dict_values d).
Proof.
  revert k n h. induction d as [|[k1 v] d IH]; intros k n h; cbn; [done|]. destruct n as [|n]; [done|].
  cbn. intros [= -> Hd]. destruct h as [|h]; cbn.
  - by rewrite Nat.add_0_r, decide_True.
  - rewrite decide_False by lia. cbn. f_equal. rewrite <-Nat.add_succ_comm. by apply (IH (S k) n).
Qed.

Section simulation.
Context (b : PermitBook) (s : list Phase) (Hb : represents b s).

Lemma represents_get (h : nat) :
  match dict_get (_entries b) h with
  | Some e => ∃ p, s !! h = Some p ∧ e_phase e = phase_name p
  | None => s !! h = None
  end.
Proof.
  pose proof (seq_dict_get _ 0 _ h (rp_keys _ _ Hb)) as E. cbn in E. rewrite E.
  pose proof (f_equal (λ l : list string, l !! h) (rp_phases _ _ Hb)) as Hph. cbn in Hph. rewrite !list_lookup_fmap in Hph.
  destruct (dict_values (_entries b) !! h), (s !! h); cbn in Hph |- *; naive_solver.
Qed.

(** A permit that moves from phase [p] to phase [q]. *)
Lemma represents_move (h : nat) p q n :
  s !! h = Some p → n = _open b - weight p + weight q →
  represents (set_entries (dict_alter (λ e, mkEntry (binding e) (phase_name q)) (_entries b) h) (set_open n b))
    (<[h := q]> s).
Proof.
  intros Hh ->. pose proof (seq_dict_alter (λ e, mkEntry (binding e) (phase_name q)) _ 0 _ h (rp_keys _ _ Hb)) as E.
  cbn [Nat.add] in E. split; cbn [_entries _open _next_handle set_entries set_open].
  - rewrite dict_keys_alter, length_insert. apply Hb.
  - rewrite E, list_fmap_insert, <-(rp_phases _ _ Hb). apply list_eq. intros i.
    rewrite list_lookup_fmap. destruct (decide (i = h)) as [->|Hne].
    + rewrite list_lookup_alter_eq, list_lookup_insert_eq.
      2: { rewrite (rp_phases _ _ Hb), length_fmap. by eapply lookup_lt_Some. }
      destruct (dict_values (_entries b) !! h) eqn:Ed; [done|]. exfalso.
      apply lookup_ge_None in Ed. apply lookup_lt_Some in Hh.
      pose proof (f_equal length (rp_phases _ _ Hb)) as Hl. rewrite !length_fmap in Hl. lia.
    + by rewrite list_lookup_alter_ne, list_lookup_insert_ne, list_lookup_fmap by done.
  - by rewrite (open_count_insert _ _ _ _ Hh), (rp_open _ _ Hb).
  - rewrite length_insert. apply Hb.
Qed.
End simulation.

(** ** Each call is at most one step of the specification *)
Lemma phase_name_open p : str_in (phase_name p) _OPEN_PHASES = bool_decide (p ≠ Closed).
Proof. by destruct p. Qed.

Lemma phase_name_inj p q : phase_name p = phase_name q → p = q.
Proof. by destruct p, q. Qed.

Lemma close_sim b s h e p :
  represents b s → s !! h = Some p → e_phase e = phase_name p →
  ∃ b', _close h e b = (Ret "closed"%string, b') ∧ represents b' (<[h := Closed]> s).
Proof.
  intros Hb Hh He. unfold _close. rewrite He, phase_name_open. case_bool_decide as Hp.
  - eexists. split; [reflexivity|]. apply (represents_move b s Hb h p Closed); [done|]. destruct p; cbn; [lia..|done].
  - destruct (decide (p = Closed)) as [->|]; [|tauto]. eexists. split; [reflexivity|]. by rewrite list_insert_id.
Qed.

Lemma deny_sim b s f reason h e p :
  represents b s → s !! h = Some p → e_phase e = phase_name p →
  ∃ b', deny f reason h e b = (Ret (mkDecision (f +:+ "_denied") reason (Some "closed"%string)), b') ∧
        represents b' (<[h := Closed]> s).
Proof.
  intros Hb Hh He. destruct (close_sim _ _ _ _ _ Hb Hh He) as (b' & Hc & Hr). exists b'. split; [|done].
  unfold deny. by rewrite (bind_ret_eq _ _ _ _ _ Hc).
Qed.

(** The conditions of a pass that do not concern the phase. *)
Definition exact_use (b : PermitBook) (e : _Entry) (expected : option PermitBinding) (boot generation now : pyval) : bool :=
  let snapshot := _snapshot_binding expected (_boot_id b) (_generation b) in
  _time now && _safe_id boot && _safe_id generation && is_str boot (_boot_id b) && is_str generation (_generation b) &&
  negb (as_int (expires_us (binding e)) <=? as_int now) && bool_decide (snapshot = Some (binding e)).

Lemma attempt_is f : attempt f = _attempt (fence_name f).
Proof. by destruct f. Qed.

Lemma fence_phases f :
  (if bool_decide (fence_name f = "l1"%string) then "offered"%string else "consumed_l1"%string) = phase_name (before f) ∧
  (if bool_decide (fence_name f = "l1"%string) then "consumed_l1"%string else "write_admitted"%string) = phase_name (after f).
Proof. by destruct f. Qed.

Lemma entry_bind {A} h (k : option _Entry → st PermitBook A) b :
  (_entry (Some h) ≫= k) b = k (dict_get (_entries b) h) b.
Proof. done. Qed.

Lemma attempt_unknown f h expected boot generation now b :
  dict_get (_entries b) h = None →
  attempt f (Some h) expected boot generation now b =
    (Ret (mkDecision (fence_name f +:+ "_denied") "unknown_handle" None), b).
Proof.
  intros Hn. rewrite attempt_is. unfold _attempt. by rewrite !bind_gets, entry_bind, Hn.
Qed.

Lemma attempt_known f h e expected boot generation now b :
  dict_get (_entries b) h = Some e →
  (bool_decide (e_phase e = phase_name (before f)) && exact_use b e expected boot generation now = true ∧
   attempt f (Some h) expected boot generation now b =
     (Ret (mkDecision (fence_name f +:+ "_pass") "exact" (Some (phase_name (after f)))),
      (set_phase h (phase_name (after f)) b).2)) ∨
  (bool_decide (e_phase e = phase_name (before f)) && exact_use b e expected boot generation now = false ∧
   ∃ reason, attempt f (Some h) expected boot generation now b = deny (fence_name f) reason h e b).
Proof.
  intros He. rewrite attempt_is. destruct (fence_phases f) as [Hbef Haft].
  unfold _attempt, exact_use. rewrite !bind_gets, entry_bind, He, Hbef, Haft.
  destruct (_snapshot_binding expected (_boot_id b) (_generation b)) as [snap|] eqn:Es; cbn [some_b andb negb];
    [|right; rewrite !andb_false_r; eauto].
  destruct (_time now && _safe_id boot && _safe_id generation) eqn:Ev; cbn [andb negb];
    [|right; rewrite andb_false_r; eauto].
  destruct (bool_decide (e_phase e = _)); cbn [andb negb]; [|right; eauto].
  destruct (is_str boot _); cbn [andb negb orb]; [|right; eauto].
  destruct (is_str generation _); cbn [andb negb orb]; [|right; eauto].
  destruct (_ <=? _); cbn [andb negb]; [right; eauto|].
  destruct (bool_decide (Some snap = _)); cbn [andb negb]; [|right; eauto].
  left. done.
Qed.

Lemma denied_is_not_pass f : (fence_name f +:+ "_denied")%string ≠ (fence_name f +:+ "_pass")%string.
Proof. by destruct f. Qed.

(** The simulation diagram of one call: no event and no change, or one event
    and one step. *)
Definition simulates (b : PermitBook) (s : list Phase) (r : list event * PermitBook) : Prop :=
  ∃ s', represents r.2 s' ∧ (r.1 = [] ∧ s' = s ∨ ∃ ev, r.1 = [ev] ∧ spec_step s ev s').

Lemma stage_sim b s binding now : represents b s → simulates b s (run_call (CallStage binding now) b).
Proof.
  intros Hb. cbn [run_call]. destruct (stage binding now b) as [[h|e] b'] eqn:E; unfold stage in E;
    rewrite !bind_gets in E; destruct (_snapshot_binding _ _ _) as [snap|];
    try (injection E as _ <-; exists s; by auto); try done.
  2: { exists s. assert (b' = b) as ->; [|by auto]. revert E. clear.
       repeat (unfold mbind at 1, st_bind at 1; unfold require, gets; cbn [negb]; try case_match; simplify_eq/=; try done);
       naive_solver. }
  inv_do. bool_simpl. exists (s ++ [Offered]). destruct Hb as [Hk Hp Ho Hn].
  assert (Hnone : dict_get (_entries b) (_next_handle b) = None).
  { apply dict_get_none. rewrite Hk, Hn, elem_of_seq. lia. }
  assert (Hlen : length (_entries b) = length s).
  { pose proof (f_equal length Hk) as X. unfold dict_keys in X. by rewrite length_fmap, length_seq in X. }
  split.
  - split; cbn [add_entry _entries _open _next_handle snd].
    + rewrite dict_set_fresh by done. unfold dict_keys in *. rewrite fmap_app, Hk, length_app, Nat.add_1_r, seq_S. cbn. by rewrite Hn.
    + rewrite dict_set_fresh by done. unfold dict_values in *. rewrite !fmap_app, Hp. done.
    + rewrite open_count_app, Ho. done.
    + rewrite length_app, Hn. cbn. lia.
  - right. eexists. split; [reflexivity|]. rewrite Hn. constructor; lia.
Qed.

Lemma close_call_sim b s h : represents b s → simulates b s (run_call (CallClose h) b).
Proof.
  intros Hb. destruct h as [h|]; [|exists s; by auto]. cbn [run_call]. unfold close. rewrite entry_bind.
  pose proof (represents_get b s Hb h) as Hg. destruct (dict_get (_entries b) h) as [e|]; [|exists s; by auto].
  destruct Hg as (p & Hh & He). destruct (close_sim _ _ _ _ _ Hb Hh He) as (b' & Hc & Hr).
  rewrite (bind_ret_eq _ _ _ _ _ Hc). exists (<[h := Closed]> s). split; [done|]. right.
  eexists. split; [done|]. by econstructor.
Qed.

Lemma attempt_sim b s f h expected boot generation now :
  represents b s → simulates b s (run_call (CallAttempt f h expected boot generation now) b).
Proof.
  intros Hb. cbn [run_call]. destruct h as [h|]; [|destruct f; exists s; by auto].
  pose proof (represents_get b s Hb h) as Hg. destruct (dict_get (_entries b) h) as [e|] eqn:He.
  2: { rewrite attempt_unknown by done. exists s. auto. }
  destruct Hg as (p & Hh & Hp).
  destruct (attempt_known f h e expected boot generation now b He) as [[Hc ->]|[_ [reason ->]]].
  - bool_simpl. match goal with X : e_phase e = _ |- _ => rewrite Hp in X; apply phase_name_inj in X as -> end.
    exists (<[h := after f]> s). split.
    + apply (represents_move b s Hb h (before f) (after f) (_open b)); [done|]. destruct f; cbn; lia.
    + right. eexists. cbn. rewrite bool_decide_true by done. split; [done|]. by constructor.
  - destruct (deny_sim b s (fence_name f) reason h e p Hb Hh Hp) as (b' & -> & Hr).
    exists (<[h := Closed]> s). split; [done|]. right. eexists. cbn [attempt_event pd_phase pd_code fst].
    rewrite bool_decide_false by apply denied_is_not_pass. split; [done|]. by econstructor.
Qed.

Lemma phase_reads h b : (phase h b).2 = b.
Proof. destruct h as [h|]; [|done]. unfold phase. rewrite entry_bind. by destruct (dict_get _ _). Qed.

Lemma call_simulates c b s : represents b s → simulates b s (run_call c b).
Proof.
  destruct c; auto using stage_sim, attempt_sim, close_call_sim.
  intros Hb. exists s. cbn [run_call fst snd]. rewrite phase_reads. auto.
Qed.

Lemma run_simulates cs b evs s :
  spec_run evs s → represents b s →
  ∃ s', spec_run (evs ++ (run_book cs b).1) s' ∧ represents (run_book cs b).2 s'.
Proof.
  revert b evs s. induction cs as [|c cs IH]; intros b evs s Hs Hb; cbn.
  { exists s. by rewrite app_nil_r. }
  destruct (call_simulates c b s Hb) as (s1 & Hb1 & Hs1). destruct (run_call c b) as [es b1]. cbn in Hb1, Hs1.
  assert (Hrun : spec_run (evs ++ es) s1).
  { destruct Hs1 as [[-> ->]|(ev & -> & Hstep)]; [by rewrite app_nil_r|]. by econstructor. }
  destruct (IH b1 _ s1 Hrun Hb1) as (s' & Hs' & Hb'). destruct (run_book cs b1) as [es' b2].
  exists s'. cbn in *. by rewrite app_assoc.
Qed.

Lemma new_book_represents boot generation b : new_book boot generation = Ret b → represents b [].
Proof. unfold new_book. intros H. inv_do. by injection H as <-. Qed.

Lemma open_entries vs s :
  e_phase <$> vs = phase_name <$> s →
  open_count s = Z.of_nat (length (List.filter (λ e, str_in (e_phase e) _OPEN_PHASES) vs)).
Proof.
  unfold open_count. revert s. induction vs as [|e vs IH]; intros [|p s] H; csimpl in H; simplify_eq; [done|].
  cbn [List.filter]. rewrite filter_cons. match goal with X : e_phase e = _ |- _ => rewrite X end.
  rewrite phase_name_open. specialize (IH s ltac:(done)).
  destruct (decide (p ≠ Closed)); [rewrite bool_decide_true by done|rewrite bool_decide_false by done]; cbn [length]; lia.
Qed.

(** ** A concrete run for the witnesses: two permits are staged, the first
    passes both fences, the second fails its first one. *)
Local Notation demo_hex := (VStr (String.concat "" (repeat "0123456789abcdef"%string 4))).
Definition demo_binding (permit operation : string) : PermitBinding :=
  mkBinding (VStr permit) (VStr "boot-1") (VStr "gen-1") (VStr "run-1") (VStr "att-1") (VStr operation) (VStr "intent-1")
    (VStr "grant-1") (VStr "flight-1") (VStr "jira") (VStr "jira.issue.create") demo_hex demo_hex (VInt 1000).
Definition demo_attempt (f : Fence) (h : ref) (b : PermitBinding) (now : Z) : book_call :=
  CallAttempt f (Some h) (Some b) (VStr "boot-1") (VStr "gen-1") (VInt now).
Definition demo_calls : list book_call :=
  [CallStage (Some (demo_binding "p0" "op0")) (VInt 1); CallStage (Some (demo_binding "p1" "op1")) (VInt 2);
   demo_attempt L1 0%nat (demo_binding "p0" "op0") 3; demo_attempt L2 0%nat (demo_binding "p0" "op0") 4;
   demo_attempt L1 1%nat (demo_binding "p0" "op0") 5; demo_attempt L1 1%nat (demo_binding "p1" "op1") 6].
Definition demo_book : PermitBook := mkBook "boot-1" "gen-1" [] ∅ ∅ 0 0%nat.

(** C39: refinement.  Whatever sequence of calls is made on a new book, with
    any arguments, the events its callers observe are a trace of the abstract
    permit machine, and the book's dictionary, its open counter and its phases
    are those of the machine's final state. *)
Theorem permit_book_refines_spec boot generation b cs :
  new_book boot generation = Ret b →
  ∃ s, spec_run (run_book cs b).1 s ∧ represents (run_book cs b).2 s.
Proof. intros Hb. apply (run_simulates cs b [] []); [constructor|]. by eapply new_book_represents. Qed.

Lemma permit_book_refines_spec_witness :
  (∃ s, spec_run (run_book demo_calls demo_book).1 s ∧ represents (run_book demo_calls demo_book).2 s) ∧
  (run_book demo_calls demo_book).1 = [EvStage 0; EvStage 1; EvPass L1 0; EvPass L2 0; EvRetire 1; EvRetire 1].
Proof.
  split; [|vm_compute; reflexivity].
  apply (permit_book_refines_spec (VStr "boot-1") (VStr "gen-1") demo_book demo_calls eq_refl).
Defined.

(** One use.  In any sequence of calls on a new book, the events of one
    permit are a staging, then the first fence, then the second, each at most
    once and in this order, followed by retirements only; never more than 32
    permits are open (the open counter is their number) and never more than 2048
    exist. *)
Theorem permit_passes_each_fence_once boot generation b cs h :
  new_book boot generation = Ret b →
  (∃ k n, events_of h (run_book cs b).1 = take k (life h) ++ replicate n (EvRetire h)) ∧
  0 ≤ _open (run_book cs b).2 ≤ MAX_OPEN_PERMITS ∧
  _open (run_book cs b).2 =
    Z.of_nat (length (List.filter (λ e, str_in (e_phase e) _OPEN_PHASES) (dict_values (_entries (run_book cs b).2)))) ∧
  Z.of_nat (length (_entries (run_book cs b).2)) ≤ MAX_LIFETIME_PERMITS.
Proof.
  intros Hb. destruct (run_simulates cs b [] []) as (s & Hs & [Hk Hp Ho Hn]);
    [constructor|by eapply new_book_represents|].
  pose proof (spec_run_had _ _ Hs h) as Hh. pose proof (spec_run_bounds _ _ Hs) as [Hopen Hlen]. split_and!.
  - cbn [app] in Hh. destruct (s !! h) as [[]|]; cbn [had] in Hh; [exists 1%nat, 0%nat|exists 2%nat, 0%nat|
      exists 3%nat, 0%nat|naive_solver|exists 0%nat, 0%nat]; by rewrite Hh, app_nil_r.
  - rewrite Ho. unfold open_count. lia.
  - by rewrite Ho.
  - rewrite Ho. by apply open_entries.
  - pose proof (f_equal length Hk) as X. unfold dict_keys in X. rewrite length_fmap, length_seq in X. lia.
Qed.

Lemma permit_passes_each_fence_once_witness :
  (∃ k n, events_of 0 (run_book demo_calls demo_book).1 = take k (life 0) ++ replicate n (EvRetire 0)) ∧
  0 ≤ _open (run_book demo_calls demo_book).2 ≤ MAX_OPEN_PERMITS.
Proof.
  destruct (permit_passes_each_fence_once (VStr "boot-1") (VStr "gen-1") demo_book demo_calls 0 eq_refl)
    as (? & ? & _). by split.
Defined.

(** ** What a pass means *)
Record book_ok (b : PermitBook) : Prop := {
  bk_boot : _safe_id (VStr (_boot_id b)) = true;
  bk_generation : _safe_id (VStr (_generation b)) = true;
  bk_entries h e : dict_get (_entries b) h = Some e → _valid_binding (binding e) (_boot_id b) (_generation b) = true;
}.

(** A call may add valid entries and change phases, never a binding nor the
    book's identity. *)
Definition keeps (b b' : PermitBook) : Prop :=
  _boot_id b' = _boot_id b ∧ _generation b' = _generation b ∧
  ∀ h e, dict_get (_entries b') h = Some e →
    (∃ e0, dict_get (_entries b) h = Some e0 ∧ binding e = binding e0) ∨
    _valid_binding (binding e) (_boot_id b) (_generation b) = true.

#[export] Instance keeps_refl : Reflexive keeps.
Proof. intros b. split_and!; eauto. Qed.

#[export] Instance keeps_trans : Transitive keeps.
Proof.
  intros b1 b2 b3 (B12 & G12 & E12) (B23 & G23 & E23). split_and!; [congruence..|].
  intros h e He. destruct (E23 h e He) as [(e0 & H0 & Hb)|Hv]; [|right; by rewrite <-B12, <-G12].
  destruct (E12 h e0 H0) as [(e1 & ? & ?)|]; [left|right]; [|congruence]. exists e1. split; [done|congruence].
Qed.

Lemma keeps_ok b b' : keeps b b' → book_ok b → book_ok b'.
Proof.
  intros (HB & HG & HE) [? ? Hv]. split; rewrite ?HB, ?HG; try done. intros h e He.
  destruct (HE h e He) as [(e0 & H0 & ->)|]; [by eapply Hv|done].
Qed.

Lemma keeps_set_phase h phase : within keeps (set_phase h phase).
Proof.
  apply within_modify. intros b. split_and!; try done. intros h' e. cbn. rewrite dict_get_alter.
  case_decide; [|left; eauto]. destruct (dict_get _ h') as [e0|]; [|done]. intros [= <-]. left. eauto.
Qed.
#[local] Hint Resolve keeps_set_phase : within.

Lemma keeps_close h e : within keeps (_close h e).
Proof. unfold _close. within_auto. apply within_modify. intros b. split_and!; eauto. Qed.
#[local] Hint Resolve keeps_close : within.

Lemma keeps_deny f r h e : within keeps (deny f r h e).
Proof. unfold deny. within_auto. Qed.
#[local] Hint Resolve keeps_deny : within.

Lemma keeps_attempt f h expected boot generation now : within keeps (attempt f h expected boot generation now).
Proof. rewrite attempt_is. unfold _attempt, _entry. within_auto. Qed.

Lemma keeps_close_call h : within keeps (close h).
Proof. unfold close, _entry. within_auto. Qed.

Lemma keeps_stage binding now : within keeps (stage binding now).
Proof.
  intros b. unfold stage. rewrite !bind_gets.
  destruct (_snapshot_binding binding (_boot_id b) (_generation b)) as [snap|] eqn:Es; [|reflexivity].
  repeat read_step. cbn [snd]. subst. split_and!; try done. intros h e.
  rewrite bind_modify. cbn [mret st_ret add_entry _entries snd]. rewrite dict_get_set.
  destruct (decide (_next_handle b = h)); [|eauto].
  intros [= <-]. right. cbn. revert Es. unfold _snapshot_binding. destruct binding; [|done].
  case_match; [|done]. by intros [= ->].
Qed.

Lemma keeps_call c b : keeps b (run_call c b).2.
Proof.
  destruct c as [bd now|f h x bo g now|h|h]; cbn [run_call].
  - pose proof (keeps_stage bd now b). by destruct (stage bd now b) as [[] ?].
  - pose proof (keeps_attempt f h x bo g now b). by destruct (attempt f h x bo g now b) as [[] ?].
  - pose proof (keeps_close_call h b). by destruct (close h b) as [[] ?].
  - cbn. by rewrite phase_reads.
Qed.

Lemma run_book_ok cs b : book_ok b → book_ok (run_book cs b).2.
Proof.
  revert b. induction cs as [|c cs IH]; intros b Hb; [done|]. cbn. pose proof (keeps_call c b) as Hk.
  destruct (run_call c b) as [es b1]. specialize (IH b1 (keeps_ok _ _ Hk Hb)). by destruct (run_book cs b1).
Qed.

Lemma new_book_ok boot generation b : new_book boot generation = Ret b → book_ok b.
Proof.
  unfold new_book. intros H. inv_do. injection H as <-. bool_simpl. split; cbn [_boot_id _generation]; [..|done];
    match goal with |- _safe_id (VStr (as_str ?v)) = true => by destruct v end.
Qed.

Lemma snapshot_is b e expected :
  _valid_binding (binding e) (_boot_id b) (_generation b) = true →
  _snapshot_binding expected (_boot_id b) (_generation b) = Some (binding e) ↔ expected = Some (binding e).
Proof.
  intros Hv. destruct expected as [x|]; cbn; [|done]. split.
  - case_match; naive_solver.
  - intros [= ->]. by rewrite Hv.
Qed.

(** What a pass means, on every book reachable by calls and for every
    handle it knows.  A fence passes exactly when the permit stands right before
    that fence, the caller presents the binding that was staged, field for field,
    and this book's own boot and generation, and its deadline has not come;
    anything else is a denial that leaves the permit closed for good. *)
Theorem fence_passes_iff_exact boot generation b0 cs f h e expected bo g now :
  let b := (run_book cs b0).2 in
  new_book boot generation = Ret b0 →
  dict_get (_entries b) h = Some e →
  ∃ d b', attempt f (Some h) expected bo g now b = (Ret d, b') ∧
    (pd_code d = (fence_name f +:+ "_pass")%string ↔
       e_phase e = phase_name (before f) ∧ expected = Some (binding e) ∧ bo = VStr (_boot_id b) ∧
       g = VStr (_generation b) ∧ _time now = true ∧ as_int now < as_int (expires_us (binding e))) ∧
    (pd_code d ≠ (fence_name f +:+ "_pass")%string →
       pd_code d = (fence_name f +:+ "_denied")%string ∧ (phase (Some h) b').1 = Ret "closed"%string).
Proof.
  intros b H0 He. assert (Hok : book_ok b) by (by eapply run_book_ok, new_book_ok).
  destruct (run_simulates cs b0 [] []) as (s & _ & Hs); [constructor|by eapply new_book_represents|]. fold b in Hs.
  pose proof (snapshot_is b e expected (bk_entries _ Hok h e He)) as Hsnap.
  destruct (attempt_known f h e expected bo g now b He) as [[Hc ->]|[Hc [reason ->]]].
  - do 2 eexists. split; [reflexivity|]. cbn. split; [|done]. split; [intros _|done]. unfold exact_use in Hc.
    bool_simpl. repeat match goal with X : is_str _ _ = true |- _ => apply is_str_inv in X end. naive_solver.
  - pose proof (represents_get b s Hs h) as Hg. rewrite He in Hg. destruct Hg as (p & Hh & Hp).
    destruct (deny_sim b s (fence_name f) reason h e p Hs Hh Hp) as (b' & -> & Hr).
    do 2 eexists. split; [reflexivity|]. cbn [pd_code]. split.
    + split; [by intros []%denied_is_not_pass|]. intros (Hph & -> & -> & -> & Ht & Hlt). exfalso.
      rewrite Hph, bool_decide_true in Hc by done. unfold exact_use in Hc. cbn [andb] in Hc.
      rewrite Ht, (bk_boot _ Hok), (bk_generation _ Hok), bool_decide_true in Hc by by apply Hsnap. cbn in Hc.
      rewrite !bool_decide_true in Hc by done. cbn in Hc. rewrite andb_true_r in Hc. bool_simpl. lia.
    + intros _. split; [done|]. pose proof (represents_get b' _ Hr h) as Hg.
      unfold phase. rewrite entry_bind. rewrite list_lookup_insert_eq in Hg by (by eapply lookup_lt_Some).
      destruct (dict_get (_entries b') h) as [e'|]; [|done]. destruct Hg as (p' & [= <-] & Hp'). cbn. by rewrite Hp'.
Qed.

Lemma fence_passes_iff_exact_witness :
  let b := (run_book (take 2 demo_calls) demo_book).2 in
  ∃ d b', attempt_l1 (Some 1%nat) (Some (demo_binding "p1" "op1")) (VStr "boot-1") (VStr "gen-1") (VInt 999) b = (Ret d, b') ∧
    pd_code d = "l1_pass"%string.
Proof.
  intros b.
  destruct (fence_passes_iff_exact (VStr "boot-1") (VStr "gen-1") demo_book (take 2 demo_calls) L1 1%nat
    (mkEntry (demo_binding "p1" "op1") "offered") (Some (demo_binding "p1" "op1")) (VStr "boot-1") (VStr "gen-1")
    (VInt 999)) as (d & b' & Ha & Hpass & _); [reflexivity|vm_compute; reflexivity|].
  exists d, b'. split; [exact Ha|]. apply Hpass. split_and!; try reflexivity.
Defined.
