(* ===== verification/PyTime.v ===== *)
(** * Python [datetime] values in UTC

    A [datetime] whose [tzinfo] is [UTC] is the number of microseconds since
    0001-01-01T00:00:00; dates are day numbers from the same origin, a Monday.
    The conversion of a day number to a calendar date is the proleptic Gregorian
    rule [datetime] documents, computed by cycles of 400, 100, 4 and 1 years. *)

From stdpp Require Import pretty.
From S2P Require Import Prelude PyValue.
Local Open Scope string_scope.
Local Open Scope Z_scope.

(** A value where the code expects a [datetime]: [TOther] is anything that is
    neither [None] nor a [datetime] in [UTC]. *)
Inductive tval := TNone | TOther | TUtc (us : Z).
#[export] Instance tval_eq_dec : EqDecision tval.
Proof. solve_decision. Defined.

Definition SECOND : Z := 1000000.
Definition MINUTE : Z := 60 * SECOND.
Definition HOUR : Z := 60 * MINUTE.
Definition DAY : Z := 24 * HOUR.

(** [t.date()], [t.weekday()], [t.hour], and the rest of the clock. *)
Definition date_of (t : Z) : Z := t / DAY.
Definition weekday (t : Z) : Z := date_of t mod 7.
Definition hour (t : Z) : Z := t mod DAY / HOUR.
Definition below_hour (t : Z) : Z := t mod HOUR.

(** Days before each month of a common year. *)
Definition days_before_month (leap : bool) (month : Z) : Z :=
  nth (Z.to_nat (month - 1)) [0; 31; 59; 90; 120; 151; 181; 212; 243; 273; 304; 334] 0
  + (if leap && (2 <? month) then 1 else 0).

(** (year, month, day) of a day number. *)
Definition civil (day : Z) : Z * Z * Z :=
  let n400 := day / 146097 in let n := day mod 146097 in
  let n100 := n / 36524 in let n := n mod 36524 in
  let n4 := n / 1461 in let n := n mod 1461 in
  let n1 := n / 365 in let n := n mod 365 in
  let year := n400 * 400 + 1 + n100 * 100 + n4 * 4 + n1 in
  if (n1 =? 4) || (n100 =? 4) then (year - 1, 12, 31)
  else
    let leap := (n1 =? 3) && (negb (n4 =? 24) || (n100 =? 3)) in
    let guess := Z.shiftr (n + 50) 5 in
    let month := if n <? days_before_month leap guess then guess - 1 else guess in
    (year, month, n - days_before_month leap month + 1).

Definition year_of (t : Z) : Z := (civil (date_of t)).1.1.

(** A decimal padded with zeros to [width]. *)
Definition zero_pad (width : nat) (z : Z) : string :=
  let digits := pretty z in String.concat "" (repeat "0" (width - String.length digits)) +:+ digits.

(** [t.date().isoformat()]. *)
Definition date_isoformat (t : Z) : string :=
  let '(y, m, d) := civil (date_of t) in zero_pad 4 y +:+ "-" +:+ zero_pad 2 m +:+ "-" +:+ zero_pad 2 d.

(** The clock of a day number, for concrete inputs. *)
Definition at_time (day hours : Z) : Z := day * DAY + hours * HOUR.

Example epoch_date : date_isoformat (at_time 719162 0) = "1970-01-01".
Proof. vm_compute. reflexivity. Qed.
Example leap_dates :
  map date_isoformat [at_time 730178 0; at_time 730179 0; at_time 738944 5; at_time 738945 0; at_time 0 0]
  = ["2000-02-29"; "2000-03-01"; "2024-02-29"; "2024-03-01"; "0001-01-01"].
Proof. vm_compute. reflexivity. Qed.
Example last_date : date_isoformat (at_time 3652058 23) = "9999-12-31".
Proof. vm_compute. reflexivity. Qed.
