(* ===== verification/AccountingPolicy.v ===== *)
(** * The reservation policy (accounting_policy.py)

    [evaluate_reservation] decides, from a snapshot of past attempts and costs,
    whether one more attempt may be reserved.  Fields are [pyval]s (or [tval]s
    for times) because the code tests exact types; where the code expects an
    object of a dataclass or a tuple, [None] stands for a value of another type.

    The time-zone database is not part of the program: [to_local] is the wall
    clock of America/New_York at a UTC instant and [to_utc] the UTC instant of
    a wall-clock time, both in microseconds.  [Attempt] and [Candidate] share
    the fields the helpers read; these are the record [Row]. *)

From S2P Require Import Prelude PyValue PyTime Supervision.
Local Open Scope string_scope.
Local Open Scope Z_scope.

Definition PolicyInputError (code : string) : exn := Exn "PolicyInputError" code.
Definition _require (b : bool) (code : string) : outcome unit := check_that b (PolicyInputError code).

Definition validate_usd_micros (amount currency : pyval) : outcome Z :=
  _require (is_str currency "USD") "currency_unsupported";;
  _require (match amount with VInt z => (- 2 ^ 63 <=? z) && (z <? 2 ^ 63) | _ => false end) "invalid_money";;
  Ret (as_int amount).

Definition _time (value : tval) : outcome Z :=
  match value with TUtc t => Ret t | _ => Raise (PolicyInputError "invalid_time") end.

Record Week := mkWeek { w_key : pyval; start_utc : tval; end_utc : tval; w_timezone : pyval }.
#[export] Instance week_eq_dec : EqDecision Week.
Proof. solve_decision. Defined.

Definition NEW_YORK : string := "America/New_York".

Section tz.
Context (to_local to_utc : Z → Z).

Definition week_for (instant : tval) : outcome Week :=
  t ← _time instant;
  _require ((2000 <=? year_of t) && (year_of t <=? 9998)) "invalid_time";;
  let local := to_local t in
  let start := date_of local * DAY - weekday local * DAY in
  let end_ := start + 7 * DAY in
  Ret (mkWeek (VStr (date_isoformat start)) (TUtc (to_utc start)) (TUtc (to_utc end_)) (VStr NEW_YORK)).
End tz.

Record Refusal := mkRefusal { code : string }.

Record Totals := mkTotals {
  week_model : pyval; t_experiment : pyval; t_lifecycle : pyval; t_diagnostic : pyval;
  lifecycle_attempts : pyval; diagnostic_attempts : pyval;
}.

Definition _nonnegative (value : pyval) : outcome Z :=
  _require (match value with VInt z => 0 <=? z | _ => false end) "invalid_money";;
  _require (as_int value <? 2 ^ 63) "arithmetic_overflow";;
  Ret (as_int value).

(** [for field, ceiling, code in ...]. *)
Definition _limit (value : pyval) (ceiling : Z) (code : string) : outcome unit :=
  z ← _nonnegative value; _require (z <=? ceiling) code.

Definition _limits (totals : option Totals) : outcome unit :=
  match totals with
  | None => Raise (PolicyInputError "invalid_input")
  | Some t =>
      _limit (week_model t) 150000000 "weekly_limit";;
      _limit (t_experiment t) 49999999 "experiment_limit";;
      _limit (t_lifecycle t) 30000000 "lifecycle_limit";;
      _limit (t_diagnostic t) 30000000 "diagnostic_limit";;
      _limit (lifecycle_attempts t) 10 "lifecycle_attempt_limit";;
      _limit (diagnostic_attempts t) 10 "diagnostic_attempt_limit"
  end.

Definition check_limits (totals : option Totals) : option Refusal :=
  match _limits totals with Ret _ => None | Raise e => Some (mkRefusal (exn_code e)) end.

Record Profile := mkProfile { model_id : pyval; auth_id : pyval; venue_id : pyval }.
#[export] Instance profile_eq_dec : EqDecision Profile.
Proof. solve_decision. Defined.

Record Lifecycle := mkLifecycle {
  l_id : pyval; l_slot : pyval; l_week : option Week; l_profile : option Profile }.

Record Exposure := mkExposure { x_state : pyval; upper_bound : pyval; valid_until : tval; actual : pyval }.

(** The fields [Attempt] and [Candidate] have in common. *)
Record Row := mkRow {
  r_attempt_id : pyval; r_reservation_id : pyval; r_run_id : pyval; r_lease_id : pyval;
  r_profile : option Profile; r_kind : pyval; r_lifecycle_id : pyval; r_predecessor_id : pyval;
  effects_reconciled : pyval; r_exposure : option Exposure;
}.
Record Attempt := mkAttempt { a_row : Row; reserved_at : tval; a_week : option Week }.
Record Candidate := mkCandidate { c_row : Row; c_experiment_id : pyval; c_journal_generation : pyval }.
Record NonModelCost := mkCost { cost_id : pyval; n_kind : pyval; n_exposure : option Exposure }.

Record Snapshot := mkSnapshot {
  s_experiment_id : pyval; s_journal_generation : pyval; as_of : tval; population : pyval;
  profiles : option (list (option Profile)); lifecycles : option (list (option Lifecycle));
  attempts : option (list (option Attempt)); non_model_costs : option (list (option NonModelCost));
  holds : option (list pyval);
}.

Record HypotheticalProposal := mkProposal {
  hp_candidate : Candidate; hp_week : Week; reservation_usd_micros : Z; liability_usd_micros : Z;
  hp_totals : Totals;
}.

Definition HOLDS : list string :=
  ["billing_unknown"; "billing_lag"; "launch_or_dispatch_unknown"; "provider_receipt_conflict";
   "unmatched_provider_charge"; "above_cap_actual"; "ledger_missing_or_corrupt"; "recovery_incomplete";
   "capacity_exhausted"; "forwarder_control_unreconciled"; "venue_or_mediated_readiness_failed";
   "history_unavailable"; "execution_recovery"; "effect_recovery"].

(** [_choice(value, choices)]; the string. *)
Definition _choice (value : pyval) (choices : list string) : outcome string :=
  _require (match value with VStr s => str_in s choices | _ => false end) "invalid_input";;
  Ret (as_str value).

(** [all(c == '-' if i in (8, 13, 18, 23) else c in hex)] from position [i]. *)
Fixpoint uuid_chars (i : Z) (s : string) : bool :=
  match s with
  | EmptyString => true
  | String c s' =>
      (if bool_decide (i ∈ [8; 13; 18; 23]) then bool_decide (c = "-"%char) else char_in HEX_DIGITS c)
      && uuid_chars (i + 1) s'
  end.

Definition _id (value : pyval) : outcome string :=
  _require (match value with VStr s => str_len s =? 36 | _ => false end) "invalid_input";;
  _require (uuid_chars 0 (as_str value)) "invalid_input";;
  Ret (as_str value).

Definition _identity (experiment_id generation : pyval) : outcome unit :=
  _id experiment_id;;
  _require (match generation with VInt z => (1 <=? z) && (z <=? 2 ^ 31 - 1) | _ => false end) "invalid_input".

Definition _profile (value : option Profile) : outcome Profile :=
  match value with
  | None => Raise (PolicyInputError "invalid_input")
  | Some p => _id (model_id p);; _id (auth_id p);; _id (venue_id p);; Ret p
  end.

Definition _endpoint (t : Z) : outcome unit :=
  _require (((hour t =? 4) || (hour t =? 5)) && (below_hour t =? 0)) "invalid_week".

Definition _week (value : option Week) : outcome Week :=
  match value with
  | None => Raise (PolicyInputError "invalid_week")
  | Some w =>
      _require (match w_key w, w_timezone w with VStr _, VStr _ => true | _, _ => false end) "invalid_week";;
      _require (is_str (w_timezone w) NEW_YORK) "invalid_week";;
      start ← _time (start_utc w);
      end_ ← _time (end_utc w);
      _require (is_str (w_key w) (date_isoformat start) && (weekday start =? 0)) "invalid_week";;
      _require (date_of end_ - date_of start =? 7) "invalid_week";;
      _require (bool_decide (end_ - start ∈ [167 * HOUR; 168 * HOUR; 169 * HOUR])) "invalid_week";;
      _endpoint start;;
      _endpoint end_;;
      Ret w
  end.

Definition _exposure (value : option Exposure) (at_ : Z) (model : bool) : outcome Z :=
  match value with
  | None => Raise (PolicyInputError "invalid_input")
  | Some x =>
      state ← _choice (x_state x) ["bounded"; "settled"; "unknown"; "conflicted"];
      _require (negb (str_in state ["unknown"; "conflicted"])) "exposure_unknown";;
      _require (negb (is_none (upper_bound x))) "exposure_unknown";;
      upper ← _nonnegative (upper_bound x);
      _require (negb model || (3000000 <=? upper)) "invalid_money";;
      if bool_decide (state = "bounded") then
        _require (is_none (actual x)) "invalid_input";;
        _require (bool_decide (valid_until x ≠ TNone)) "exposure_unknown";;
        until ← _time (valid_until x);
        _require (at_ <? until) "exposure_stale";;
        Ret upper
      else
        _require (bool_decide (valid_until x = TNone)) "invalid_input";;
        _require (negb (is_none (actual x))) "exposure_unknown";;
        act ← _nonnegative (actual x);
        _require (act <=? upper) "above_liability";;
        Ret act
  end.

(** ** Claims, attribution and lineage *)
Definition claim_id (identities : gset string) (value : pyval) : outcome (gset string) :=
  id ← _id value;
  _require (negb (bool_decide (id ∈ identities))) "identity_conflict";;
  Ret ({[id]} ∪ identities).

Definition _claim_ids (row : Row) (identities : gset string) : outcome (gset string) :=
  ids ← claim_id identities (r_attempt_id row);
  ids ← claim_id ids (r_reservation_id row);
  ids ← claim_id ids (r_run_id row);
  claim_id ids (r_lease_id row).

Definition is_true (value : pyval) : bool := match value with VBool true => true | _ => false end.

Definition _attribution (row : Row) (week : Week) (profiles : list Profile) (lifecycles : dict string Lifecycle)
    : outcome unit :=
  profile ← _profile (r_profile row);
  _require (bool_decide (profile ∈ profiles)) "configuration_conflict";;
  kind ← _choice (r_kind row) ["initial"; "retry"; "diagnostic"];
  _require (is_bool (effects_reconciled row)) "invalid_input";;
  if bool_decide (kind = "diagnostic") then
    _require (is_none (r_lifecycle_id row) && is_none (r_predecessor_id row) &&
              negb (is_true (effects_reconciled row))) "lineage_conflict"
  else
    lifecycle_id ← _id (r_lifecycle_id row);
    match dict_get lifecycles lifecycle_id with
    | None => Raise (PolicyInputError "configuration_conflict")
    | Some life =>
        _require (bool_decide (l_profile life = r_profile row) && bool_decide (l_week life = Some week))
          "configuration_conflict";;
        if bool_decide (kind = "initial") then
          _require (is_none (r_predecessor_id row) && negb (is_true (effects_reconciled row))) "lineage_conflict"
        else
          _require (is_true (effects_reconciled row) && negb (is_none (r_predecessor_id row))) "lineage_conflict";;
          _id (r_predecessor_id row);;
          Ret tt
    end.

(** ** Scratch totals *)
Record _Accounting := mkAccounting {
  ac_experiment : Z;
  ac_weeks : dict string Z;
  ac_lifecycles : dict string (Z * Z);
  ac_diagnostics : dict string (Z * Z);
  ac_identities : gset string;
}.
Definition new_accounting : _Accounting := mkAccounting 0 [] [] [] ∅.

(** [d.get(key, dflt)]. *)
Definition get_or {V} (d : dict string V) (key : pyval) (dflt : V) : V :=
  match key with VStr k => default dflt (dict_get d k) | _ => dflt end.

(** [spend, count = d.get(key, (0, 0)); d[key] = (_nonnegative(spend + amount), count + 1)]. *)
Definition bump (d : dict string (Z * Z)) (key : pyval) (amount : Z) : outcome (dict string (Z * Z)) :=
  let '(spend, count) := get_or d key (0, 0) in
  s ← _nonnegative (VInt (spend + amount));
  Ret (dict_set d (as_str key) (s, count + 1)).

Definition add (ac : _Accounting) (row : Row) (week : Week) (amount : Z) : outcome _Accounting :=
  experiment ← _nonnegative (VInt (ac_experiment ac + amount));
  w ← _nonnegative (VInt (get_or (ac_weeks ac) (w_key week) 0 + amount));
  let weeks := dict_set (ac_weeks ac) (as_str (w_key week)) w in
  lives ← (if negb (is_str (r_kind row) "diagnostic") then bump (ac_lifecycles ac) (r_lifecycle_id row) amount
           else Ret (ac_lifecycles ac));
  diags ← (if is_str (r_kind row) "retry" || is_str (r_kind row) "diagnostic"
           then bump (ac_diagnostics ac) (w_key week) amount
           else Ret (ac_diagnostics ac));
  Ret (mkAccounting experiment weeks lives diags (ac_identities ac)).

Definition totals (ac : _Accounting) (key lifecycle_id : pyval) : Totals :=
  let '(life, count) := get_or (ac_lifecycles ac) lifecycle_id (0, 0) in
  let '(diag, diag_count) := get_or (ac_diagnostics ac) key (0, 0) in
  mkTotals (VInt (get_or (ac_weeks ac) key 0)) (VInt (ac_experiment ac)) (VInt life) (VInt diag) (VInt count)
    (VInt diag_count).

Definition check_history (ac : _Accounting) (lifecycles : dict string Lifecycle) : outcome unit :=
  _limits (Some (mkTotals (VInt 0) (VInt (ac_experiment ac)) (VInt 0) (VInt 0) (VInt 0) (VInt 0)));;
  fold_outcome (λ _ key, _limits (Some (totals ac (VStr key) VNone))) tt (dict_keys (ac_weeks ac));;
  fold_outcome (λ _ kv,
    _limits (Some (totals ac (match l_week kv.2 with Some w => w_key w | None => VNone end) (VStr kv.1))))
    tt lifecycles.

Definition us_of (t : tval) : Z := match t with TUtc us => us | _ => 0 end.

Definition _remember_week (week : option Week) (known : dict string Week) : outcome (dict string Week) :=
  w ← _week week;
  fold_outcome (λ _ previous,
    if same_str (w_key w) (w_key previous) then _require (bool_decide (w = previous)) "invalid_week"
    else _require ((us_of (end_utc w) <=? us_of (start_utc previous)) ||
                   (us_of (end_utc previous) <=? us_of (start_utc w))) "invalid_week") tt (dict_values known);;
  Ret (dict_set known (as_str (w_key w)) w).

Definition _lineage (row : Row) (latest : dict string Row) : outcome (dict string Row) :=
  if is_str (r_kind row) "diagnostic" then Ret latest
  else
    let previous := dict_get latest (as_str (r_lifecycle_id row)) in
    (if is_str (r_kind row) "retry" then
       _require (match previous with
                 | Some p => same_str (r_predecessor_id row) (r_attempt_id p) && bool_decide (r_profile row = r_profile p)
                 | None => false
                 end) "lineage_conflict"
     else
       _require (match previous with Some p => negb (is_str (r_kind p) "retry") | None => true end)
         "lineage_conflict");;
    Ret (dict_set latest (as_str (r_lifecycle_id row)) row).

(** ** Evaluation *)

(** [type(value) is tuple], then the length. *)
Definition bounded_tuple {A} (value : option (list A)) (limit : Z) : outcome (list A) :=
  match value with
  | None => Raise (PolicyInputError "invalid_input")
  | Some xs => _require (Z.of_nat (length xs) <=? limit) "history_limit";; Ret xs
  end.

Definition all_profiles (xs : list (option Profile)) : outcome (list Profile) :=
  fold_outcome (λ ps x, p ← _profile x; Ret (ps ++ [p])%list) [] xs.

Record LifeState := mkLifeState {
  ls_lifecycles : dict string Lifecycle; ls_slots : gset (string * string); ls_weeks : dict string Week }.

(** [for life in snapshot.lifecycles]. *)
Definition load_lifecycle (profiles : list Profile) (s : LifeState) (life : option Lifecycle) : outcome LifeState :=
  match life with
  | None => Raise (PolicyInputError "invalid_input")
  | Some life =>
      id ← _id (l_id life);
      weeks ← _remember_week (l_week life) (ls_weeks s);
      profile ← _profile (l_profile life);
      _require (bool_decide (profile ∈ profiles)) "configuration_conflict";;
      slot ← _choice (l_slot life) ["rehearsal_1"; "rehearsal_2"; "rehearsal_3"; "presentation"];
      let key := match l_week life with Some w => as_str (w_key w) | None => "" end in
      _require (match dict_get (ls_lifecycles s) id with None => true | Some _ => false end &&
                negb (bool_decide ((key, slot) ∈ ls_slots s))) "configuration_conflict";;
      Ret (mkLifeState (dict_set (ls_lifecycles s) id life) ({[(key, slot)]} ∪ ls_slots s) weeks)
  end.

(** The identities of the snapshot, before any row claims one. *)
Definition initial_identities (experiment_id : string) (lifecycles : dict string Lifecycle) (profiles : list Profile)
    : gset string :=
  list_to_set (experiment_id :: dict_keys lifecycles ++
    concat (map (λ p, [as_str (model_id p); as_str (auth_id p); as_str (venue_id p)]) profiles))%list.

Record RowState := mkRowState {
  rs_previous_at : option Z; rs_weeks : dict string Week; rs_latest : dict string Row; rs_accounting : _Accounting }.

Definition set_identities (ids : gset string) (ac : _Accounting) : _Accounting :=
  mkAccounting (ac_experiment ac) (ac_weeks ac) (ac_lifecycles ac) (ac_diagnostics ac) ids.

(** [for row in snapshot.attempts]. *)
Definition load_attempt (at_ : Z) (profiles : list Profile) (lifecycles : dict string Lifecycle)
    (s : RowState) (row : option Attempt) : outcome RowState :=
  match row with
  | None => Raise (PolicyInputError "invalid_input")
  | Some a =>
      reserved ← _time (reserved_at a);
      _require ((reserved <? at_) && match rs_previous_at s with None => true | Some p => p <? reserved end)
        "lineage_conflict";;
      weeks ← _remember_week (a_week a) (rs_weeks s);
      match a_week a with
      | None => Raise (PolicyInputError "invalid_week")
      | Some week =>
          _require ((us_of (start_utc week) <=? reserved) && (reserved <? us_of (end_utc week))) "invalid_week";;
          ids ← _claim_ids (a_row a) (ac_identities (rs_accounting s));
          _attribution (a_row a) week profiles lifecycles;;
          latest ← _lineage (a_row a) (rs_latest s);
          amount ← _exposure (r_exposure (a_row a)) at_ true;
          ac ← add (set_identities ids (rs_accounting s)) (a_row a) week amount;
          Ret (mkRowState (Some reserved) weeks latest ac)
      end
  end.

(** [for cost in snapshot.non_model_costs]. *)
Definition load_cost (at_ : Z) (ac : _Accounting) (cost : option NonModelCost) : outcome _Accounting :=
  match cost with
  | None => Raise (PolicyInputError "invalid_input")
  | Some c =>
      ids ← claim_id (ac_identities ac) (cost_id c);
      _choice (n_kind c) ["support"; "review"; "venue"];;
      amount ← _exposure (n_exposure c) at_ false;
      experiment ← _nonnegative (VInt (ac_experiment ac + amount));
      Ret (mkAccounting experiment (ac_weeks ac) (ac_lifecycles ac) (ac_diagnostics ac) ids)
  end.

Section evaluate.
Context (to_local to_utc : Z → Z).

Definition _evaluate (snapshot : option Snapshot) (candidate : option Candidate) (at_ : tval)
    : outcome HypotheticalProposal :=
  match snapshot, candidate with
  | Some s, Some c =>
      current ← week_for to_local to_utc at_;
      let now := us_of at_ in
      _identity (s_experiment_id s) (s_journal_generation s);;
      _identity (c_experiment_id c) (c_journal_generation c);;
      as_of ← _time (as_of s);
      _require (as_of =? now) "stale_snapshot";;
      _require (same_str (s_experiment_id s) (c_experiment_id c) &&
                (as_int (s_journal_generation s) =? as_int (c_journal_generation c))) "identity_conflict";;
      profiles ← bounded_tuple (profiles s) 16;
      lifecycles ← bounded_tuple (lifecycles s) 512;
      attempts ← bounded_tuple (attempts s) 512;
      costs ← bounded_tuple (non_model_costs s) 512;
      holds ← bounded_tuple (holds s) 32;
      population ← _choice (population s) ["hypothetical_complete"; "unknown"; "conflicted"];
      _require (bool_decide (population = "hypothetical_complete")) "population_unknown";;
      fold_outcome (λ _ hold, _choice hold HOLDS;; Ret tt) tt holds;;
      _require (match holds with [] => true | _ => false end) "held";;
      profiles ← all_profiles profiles;
      _require (match profiles with [] => false | _ => true end && bool_decide (NoDup profiles))
        "configuration_conflict";;
      lives ← fold_outcome (load_lifecycle profiles) (mkLifeState [] ∅ [(as_str (w_key current), current)]) lifecycles;
      let lifecycles := ls_lifecycles lives in
      let ac := set_identities (initial_identities (as_str (s_experiment_id s)) lifecycles profiles) new_accounting in
      rows ← fold_outcome (load_attempt now profiles lifecycles) (mkRowState None (ls_weeks lives) [] ac) attempts;
      ac ← fold_outcome (load_cost now) (rs_accounting rows) costs;
      check_history ac lifecycles;;
      ids ← _claim_ids (c_row c) (ac_identities ac);
      _attribution (c_row c) current profiles lifecycles;;
      _lineage (c_row c) (rs_latest rows);;
      upper ← _exposure (r_exposure (c_row c)) now true;
      _require (match r_exposure (c_row c) with Some x => is_str (x_state x) "bounded" | None => false end)
        "invalid_input";;
      ac ← add (set_identities ids ac) (c_row c) current upper;
      let t := totals ac (w_key current) (r_lifecycle_id (c_row c)) in
      _limits (Some t);;
      Ret (mkProposal c current 3000000 upper t)
  | _, _ => Raise (PolicyInputError "invalid_input")
  end.

Definition evaluate_reservation (snapshot : option Snapshot) (candidate : option Candidate) (at_ : tval)
    : Refusal + HypotheticalProposal :=
  match _evaluate snapshot candidate at_ with
  | Ret p => inr p
  | Raise e => inl (mkRefusal (exn_code e))
  end.
End evaluate.
