(* ===== verification/AccountingThm.v ===== *)
(** * Theorems about the reservation policy

    The policy keeps running totals in dictionaries.  The specification is the
    list of charges themselves: sums and counts over the attempts of the
    snapshot and the candidate. *)

From S2P Require Import Prelude PyValue PyTime Supervision AccountingPolicy.
Local Open Scope string_scope.
Local Open Scope Z_scope.
Local Open Scope list_scope.

(** ** Charges *)
Record charge := mkCharge { ch_row : Row; ch_week : string; ch_amount : Z }.

Definition spent (P : charge → bool) (l : list charge) : Z := foldr (λ c acc, (if P c then ch_amount c else 0) + acc) 0 l.
Definition number (P : charge → bool) (l : list charge) : Z := foldr (λ c acc, (if P c then 1 else 0) + acc) 0 l.

Definition every (c : charge) : bool := true.
Definition is_diagnostic (row : Row) : bool := is_str (r_kind row) "diagnostic".
Definition in_week (key : string) (c : charge) : bool := bool_decide (ch_week c = key).
Definition in_lifecycle (id : string) (c : charge) : bool :=
  negb (is_diagnostic (ch_row c)) && is_str (r_lifecycle_id (ch_row c)) id.
Definition in_diagnostics (key : string) (c : charge) : bool :=
  (is_str (r_kind (ch_row c)) "retry" || is_diagnostic (ch_row c)) && in_week key c.

Lemma spent_app P l1 l2 : spent P (l1 ++ l2) = spent P l1 + spent P l2.
Proof. unfold spent. induction l1 as [|c l1 IH]; cbn; [done|]. rewrite IH. lia. Qed.

Lemma number_app P l1 l2 : number P (l1 ++ l2) = number P l1 + number P l2.
Proof. unfold number. induction l1 as [|c l1 IH]; cbn; [done|]. rewrite IH. lia. Qed.

Lemma spent_none P l : (∀ c, c ∈ l → P c = false) → spent P l = 0 ∧ number P l = 0.
Proof.
  unfold spent, number. induction l as [|c l IH]; intros H; cbn; [done|].
  rewrite (H c) by set_solver. destruct IH as [-> ->]; [|done]. intros. apply H. set_solver.
Qed.

(** The amount an exposure counts for. *)
Definition exposure_amount (x : option Exposure) : Z :=
  match x with
  | Some x => if is_str (x_state x) "bounded" then as_int (upper_bound x) else as_int (actual x)
  | None => 0
  end.

Definition charge_of (a : Attempt) : charge :=
  mkCharge (a_row a) (match a_week a with Some w => as_str (w_key w) | None => "" end) (exposure_amount (r_exposure (a_row a))).
Definition cost_sum (costs : list NonModelCost) : Z := foldr (λ c acc, exposure_amount (n_exposure c) + acc) 0 costs.

(** ** What the validators establish *)
Lemma nonnegative_ret v z : _nonnegative v = Ret z → v = VInt z ∧ 0 ≤ z < 2 ^ 63.
Proof.
  unfold _nonnegative, _require. intros H. inv_do. injection H as <-. destruct v; try done. 
  cbn [as_int] in *. bool_simpl. split; [done|lia].
Qed.

Lemma choice_ret v choices s : _choice v choices = Ret s → v = VStr s ∧ s ∈ choices.
Proof.
  unfold _choice, _require. intros H. inv_do. injection H as <-. destruct v; try done. by rewrite <-str_in_spec.
Qed.

Lemma id_ret v s : _id v = Ret s → v = VStr s.
Proof. unfold _id, _require. intros H. inv_do. injection H as <-. by destruct v. Qed.

Lemma time_ret v t : AccountingPolicy._time v = Ret t → v = TUtc t.
Proof. destruct v; cbn; try done. by intros [= ->]. Qed.

Lemma week_ret w w' : _week w = Ret w' → w = Some w' ∧ ∃ key, w_key w' = VStr key.
Proof.
  unfold _week, _require. destruct w as [w|]; [|done]. intros H. inv_do. injection H as <-. split; [done|].
  destruct (w_key w); try done. eauto.
Qed.

Lemma exposure_ret x at_ model n :
  _exposure x at_ model = Ret n → n = exposure_amount x ∧ 0 ≤ n < 2 ^ 63 ∧
    ∃ y, x = Some y ∧ (model = true → 3000000 ≤ as_int (upper_bound y)) ∧
    (is_str (x_state y) "bounded" = true → n = as_int (upper_bound y) ∧ ∃ t, valid_until y = TUtc t ∧ at_ < t).
Proof.
  unfold _exposure, _require. destruct x as [x|]; [|done]. intros H. inv_do.
  match goal with X : _choice _ _ = Ret _ |- _ => apply choice_ret in X as [Es _] end.
  match goal with X : _nonnegative _ = Ret _ |- _ => apply nonnegative_ret in X as [Eu ?] end.
  cbn [exposure_amount]. rewrite Es. cbn [is_str]. bool_simpl. case_bool_decide; inv_do; injection H as <-.
  - match goal with X : AccountingPolicy._time _ = Ret _ |- _ => apply time_ret in X end. rewrite Eu. cbn [as_int].
    split_and!; try done; try lia. exists x. rewrite Eu. cbn [as_int]. split_and!; [done| |].
    + intros ->. match goal with X : negb true || _ = true |- _ => cbn in X end. bool_simpl. lia.
    + intros _. split; [done|]. eexists. split; [done|]. bool_simpl. lia.
  - match goal with X : _nonnegative _ = Ret _ |- _ => apply nonnegative_ret in X as [Ea ?] end. rewrite Ea. cbn [as_int].
    split_and!; try done; try lia. exists x. rewrite Eu, Es. cbn [as_int is_str]. split_and!; [done| |].
    + intros ->. match goal with X : negb true || _ = true |- _ => cbn in X end. bool_simpl. lia.
    + rewrite bool_decide_false by done. done.
Qed.

(** ** The running totals are the sums *)
Record acc_ok (ac : _Accounting) (l : list charge) (extra : Z) : Prop := {
  ak_experiment : ac_experiment ac = spent every l + extra;
  ak_weeks key : default 0 (dict_get (ac_weeks ac) key) = spent (in_week key) l;
  ak_lifecycles id :
    default (0, 0) (dict_get (ac_lifecycles ac) id) = (spent (in_lifecycle id) l, number (in_lifecycle id) l);
  ak_diagnostics key :
    default (0, 0) (dict_get (ac_diagnostics ac) key) = (spent (in_diagnostics key) l, number (in_diagnostics key) l);
  ak_known c : c ∈ l → ch_week c ∈ dict_keys (ac_weeks ac);
}.

Lemma acc_ok_new ids : acc_ok (set_identities ids new_accounting) [] 0.
Proof. split; try done. intros c Hc. by apply not_elem_of_nil in Hc. Qed.

Lemma acc_ok_identities ac l extra ids : acc_ok ac l extra → acc_ok (set_identities ids ac) l extra.
Proof. by intros [????]. Qed.

(** One dictionary of (spend, count) pairs follows one family of charges. *)
Lemma bump_ok d key amount d' (P : string → charge → bool) l c :
  bump d (VStr key) amount = Ret d' → amount = ch_amount c → (∀ k, P k c = bool_decide (key = k)) →
  (∀ k, default (0, 0) (dict_get d k) = (spent (P k) l, number (P k) l)) →
  ∀ k, default (0, 0) (dict_get d' k) = (spent (P k) (l ++ [c]), number (P k) (l ++ [c])).
Proof.
  unfold bump. cbn [get_or]. intros H -> HP Hd k. rewrite (Hd key) in H. inv_do. injection H as <-.
  match goal with X : _nonnegative _ = Ret _ |- _ => apply nonnegative_ret in X as [[= <-] _] end.
  rewrite dict_get_set, spent_app, number_app. cbn [spent number foldr]. rewrite HP. case_decide; subst.
  - rewrite bool_decide_true by done. cbn [from_option id]. f_equal; lia.
  - rewrite bool_decide_false by done. cbn. rewrite Hd. f_equal; lia.
Qed.

(** A dictionary that a charge does not concern. *)
Lemma unbumped_ok (d : dict string (Z * Z)) (P : string → charge → bool) l c :
  (∀ k, P k c = false) →
  (∀ k, default (0, 0) (dict_get d k) = (spent (P k) l, number (P k) l)) →
  ∀ k, default (0, 0) (dict_get d k) = (spent (P k) (l ++ [c]), number (P k) (l ++ [c])).
Proof. intros HP Hd k. rewrite Hd, spent_app, number_app. cbn. rewrite HP. f_equal; lia. Qed.

Lemma add_ok ac l extra row week key amount ac' :
  add ac row week amount = Ret ac' → w_key week = VStr key →
  (is_diagnostic row = false → ∃ id, r_lifecycle_id row = VStr id) →
  acc_ok ac l extra →
  acc_ok ac' (l ++ [mkCharge row key amount]) extra ∧ ac_identities ac' = ac_identities ac.
Proof.
  unfold add. rewrite <-(eq_refl : is_diagnostic row = is_str (r_kind row) "diagnostic").
  intros H Hkey Hlife [He Hw Hl Hd Hk]. rewrite Hkey in H. inv_do. injection H as <-.
  match goal with X : _nonnegative (VInt (ac_experiment _ + _)) = Ret _ |- _ => apply nonnegative_ret in X as [[= <-] _] end.
  match goal with X : _nonnegative _ = Ret _ |- _ => apply nonnegative_ret in X as [[= <-] _] end.
  cbn [get_or as_str]. split; [|done]. split; cbn [ac_experiment ac_weeks ac_lifecycles ac_diagnostics].
  - rewrite He, spent_app. cbn. lia.
  - intros k. rewrite dict_get_set, spent_app. cbn. unfold in_week at 2. cbn [ch_week].
    case_decide; [rewrite bool_decide_true by done|rewrite bool_decide_false by done]; cbn; rewrite ?Hw; subst; lia.
  - destruct (is_diagnostic row) eqn:Ed; cbn [negb] in *.
    + match goal with X : Ret (ac_lifecycles _) = Ret _ |- _ => injection X as <- end.
      apply unbumped_ok; [|done]. intros k. unfold in_lifecycle. cbn [ch_row]. by rewrite Ed.
    + destruct (Hlife eq_refl) as [id Hid].
      match goal with X : bump (ac_lifecycles _) _ _ = Ret _ |- _ => rewrite Hid in X; eapply bump_ok; [exact X|done| |done] end.
      intros k. unfold in_lifecycle. cbn [ch_row]. by rewrite Ed, Hid.
  - match goal with X : (if ?b then _ else Ret (ac_diagnostics _)) = Ret _ |- _ => destruct b eqn:Eb end.
    + match goal with X : bump (ac_diagnostics _) _ _ = Ret _ |- _ => eapply bump_ok; [exact X|done| |done] end.
      intros k. unfold in_diagnostics. cbn [ch_row]. by rewrite Eb.
    + match goal with X : Ret (ac_diagnostics _) = Ret _ |- _ => injection X as <- end.
      apply unbumped_ok; [|done]. intros k. unfold in_diagnostics. cbn [ch_row]. by rewrite Eb.
  - intros c. rewrite elem_of_app, list_elem_of_singleton, dict_get_keys, dict_get_set. intros [Hc| ->]; cbn [ch_week].
    + case_decide; [done|]. by apply dict_get_keys, Hk.
    + by rewrite decide_True.
Qed.

(** ** Identities are claimed once *)
Definition row_ids (row : Row) : list string :=
  map as_str [r_attempt_id row; r_reservation_id row; r_run_id row; r_lease_id row].

Record claims_ok (base ids : gset string) (claimed : list string) : Prop := {
  cl_ids : ids = list_to_set claimed ∪ base;
  cl_nodup : NoDup claimed;
  cl_fresh x : x ∈ claimed → x ∉ base;
}.

Lemma claims_ok_nil base : claims_ok base base [].
Proof. split; [set_solver|constructor|set_solver]. Qed.

Lemma claim_id_ok base ids claimed v ids' :
  claim_id ids v = Ret ids' → claims_ok base ids claimed → claims_ok base ids' (claimed ++ [as_str v]).
Proof.
  unfold claim_id, _require. intros H [-> Hnd Hf]. inv_do. injection H as <-.
  match goal with X : _id v = Ret _ |- _ => apply id_ret in X as -> end. bool_simpl. cbn [as_str] in *. split.
  - rewrite list_to_set_app_L. set_solver.
  - apply NoDup_app. split_and!; [done|set_solver|apply NoDup_singleton].
  - set_solver.
Qed.

Lemma claim_ids_ok base ids claimed row ids' :
  _claim_ids row ids = Ret ids' → claims_ok base ids claimed → claims_ok base ids' (claimed ++ row_ids row).
Proof.
  unfold _claim_ids. intros H Hc. inv_do.
  do 3 match goal with X : claim_id _ _ = Ret ?i, Y : claims_ok _ _ _ |- _ =>
    lazymatch type of Y with claims_ok _ ?j _ =>
      match type of X with claim_id j _ = _ => eapply claim_id_ok in X; [|exact Y]; clear Y end end end.
  eapply claim_id_ok in H; [|done]. rewrite <-!app_assoc in H. exact H.
Qed.

(** ** Attribution and lineage *)
Lemma attribution_ret row week ps lifes u :
  _attribution row week ps lifes = Ret u →
  (is_diagnostic row = true ∧ r_lifecycle_id row = VNone) ∨
  (is_diagnostic row = false ∧ ∃ id life, r_lifecycle_id row = VStr id ∧ dict_get lifes id = Some life ∧
     l_week life = Some week ∧ l_profile life = r_profile row ∧
     (is_str (r_kind row) "retry" = true → effects_reconciled row = VBool true)).
Proof.
  unfold _attribution, _require, is_diagnostic. intros H. inv_do.
  match goal with X : _choice _ _ = Ret _ |- _ => apply choice_ret in X as [-> _] end. cbn [is_str].
  case_bool_decide; inv_do; bool_simpl.
  - left. split; [done|]. by destruct (r_lifecycle_id row).
  - right. split; [done|]. match goal with X : _id _ = Ret _ |- _ => apply id_ret in X end.
    destruct (dict_get lifes _) as [life|] eqn:El; [|done]. inv_do. bool_simpl.
    eexists _, life. split_and!; try done. intros Hr. bool_simpl. subst. rewrite bool_decide_false in H by done. inv_do.
    bool_simpl. match goal with X : is_true _ = true |- _ => revert X end. by destruct (effects_reconciled row) as [|[]| | | |].
Qed.

Definition row_in (id : string) (row : Row) : bool := negb (is_diagnostic row) && is_str (r_lifecycle_id row) id.
(** The last attempt of a lifecycle. *)
Definition latest_of (id : string) (rows : list Row) : option Row := last (List.filter (row_in id) rows).

Lemma latest_of_snoc id rows row :
  latest_of id (rows ++ [row]) = if row_in id row then Some row else latest_of id rows.
Proof. unfold latest_of. rewrite List.filter_app. cbn. destruct (row_in id row); [apply last_snoc|by rewrite app_nil_r]. Qed.

Lemma lineage_ret row latest latest' rows :
  _lineage row latest = Ret latest' →
  (is_diagnostic row = false → ∃ id, r_lifecycle_id row = VStr id) →
  (∀ id, dict_get latest id = latest_of id rows) →
  (∀ id, dict_get latest' id = latest_of id (rows ++ [row])) ∧
  (is_diagnostic row = false →
     if is_str (r_kind row) "retry" then
       ∃ p, latest_of (as_str (r_lifecycle_id row)) rows = Some p ∧
         same_str (r_predecessor_id row) (r_attempt_id p) = true ∧ r_profile row = r_profile p
     else ∀ p, latest_of (as_str (r_lifecycle_id row)) rows = Some p → is_str (r_kind p) "retry" = false).
Proof.
  unfold _lineage, _require. rewrite <-(eq_refl : is_diagnostic row = is_str (r_kind row) "diagnostic").
  intros H Hid Hl. destruct (is_diagnostic row) eqn:Ed.
  - injection H as <-. split; [|done]. intros id. rewrite latest_of_snoc. unfold row_in. by rewrite Ed.
  - destruct (Hid eq_refl) as [id0 E0]. rewrite E0 in *. cbn [as_str] in *. inv_do. injection H as <-. split.
    + intros id. rewrite dict_get_set, latest_of_snoc. unfold row_in. rewrite Ed, E0. cbn [negb andb is_str].
      case_decide; [by rewrite bool_decide_true|by rewrite bool_decide_false].
    + intros _. rewrite <-(Hl id0). destruct (is_str (r_kind row) "retry"); inv_do.
      * destruct (dict_get latest id0) as [p|]; [|done]. bool_simpl. eauto.
      * intros p Hp. rewrite Hp in *. by bool_simpl.
Qed.

(** ** The loops over the snapshot *)
Definition rows_of (as_ : list Attempt) : list Row := map a_row as_.

Lemma rows_of_snoc as_ a : rows_of (as_ ++ [a]) = rows_of as_ ++ [a_row a].
Proof. apply map_app. Qed.

Record rows_ok (base : gset string) (lifes : dict string Lifecycle) (s : RowState) (as_ : list Attempt) : Prop := {
  ro_acc : acc_ok (rs_accounting s) (map charge_of as_) 0;
  ro_claims : claims_ok base (ac_identities (rs_accounting s)) (concat (map row_ids (rows_of as_)));
  ro_latest id : dict_get (rs_latest s) id = latest_of id (rows_of as_);
  ro_lifes row id : row ∈ rows_of as_ → row_in id row = true → is_Some (dict_get lifes id);
}.

Lemma load_attempt_ok now ps lifes base s as_ x s' :
  load_attempt now ps lifes s x = Ret s' → rows_ok base lifes s as_ →
  ∃ a, x = Some a ∧ rows_ok base lifes s' (as_ ++ [a]).
Proof.
  unfold load_attempt, _require. destruct x as [a|]; [|done]. intros H [Hacc Hcl Hla Hli]. inv_do.
  destruct (a_week a) as [week|] eqn:Ew; [|done]. inv_do. injection H as <-.
  match goal with X : _remember_week _ _ = Ret _ |- _ => unfold _remember_week in X end. inv_do.
  match goal with X : _week _ = Ret _ |- _ => apply week_ret in X as [[= <-] [key Hkey]] end.
  match goal with X : _attribution _ _ _ _ = Ret _ |- _ => apply attribution_ret in X as Hat end.
  assert (Hid : is_diagnostic (a_row a) = false → ∃ id, r_lifecycle_id (a_row a) = VStr id)
    by (destruct Hat as [[? _]|(_ & id & ? & ? & _)]; [congruence|eauto]).
  match goal with X : _lineage _ _ = Ret _ |- _ => eapply lineage_ret in X as [Hla' _]; [|done..] end.
  match goal with X : _exposure _ _ _ = Ret _ |- _ => apply exposure_ret in X as [-> _] end.
  match goal with X : add _ _ _ _ = Ret _ |- _ => eapply add_ok in X as [Hacc' Hids]; [|done|done|by apply acc_ok_identities] end.
  match goal with X : _claim_ids _ _ = Ret _ |- _ => eapply claim_ids_ok in X; [|done] end.
  exists a. split; [done|]. split; cbn [rs_accounting rs_latest]; rewrite ?rows_of_snoc, ?map_app.
  - cbn [map]. unfold charge_of at 2. rewrite Ew, Hkey. exact Hacc'.
  - rewrite Hids, concat_app. cbn [map concat]. by rewrite app_nil_r.
  - exact Hla'.
  - intros row id. rewrite elem_of_app, list_elem_of_singleton. intros [Hr| ->] Hin; [by eapply Hli|].
    unfold row_in in Hin. bool_simpl. destruct Hat as [[? _]|(_ & id' & life & Hid' & Hg & _)]; [congruence|].
    match goal with X : is_str _ _ = true |- _ => apply is_str_inv in X; rewrite Hid' in X; injection X as <- end. eauto.
Qed.

Lemma load_attempts_ok now ps lifes base s0 xs s :
  fold_outcome (load_attempt now ps lifes) s0 xs = Ret s → rows_ok base lifes s0 [] →
  ∃ as_, xs = map Some as_ ∧ rows_ok base lifes s as_.
Proof.
  intros H H0. refine (fold_outcome_ind _ (λ done s, ∃ as_, done = map Some as_ ∧ rows_ok base lifes s as_) _ _ _ H _ _).
  - by exists [].
  - intros done x rest a a' _ (as_ & -> & Has) Hx. eapply load_attempt_ok in Hx as (b & -> & Hb); [|done].
    exists (as_ ++ [b]). by rewrite map_app.
Qed.

Lemma load_cost_ok now base ac l extra claimed x ac' :
  load_cost now ac x = Ret ac' → acc_ok ac l extra → claims_ok base (ac_identities ac) claimed →
  ∃ c, x = Some c ∧ acc_ok ac' l (extra + exposure_amount (n_exposure c)) ∧
       claims_ok base (ac_identities ac') (claimed ++ [as_str (cost_id c)]).
Proof.
  unfold load_cost. destruct x as [c|]; [|done]. intros H Hac Hcl. inv_do. injection H as <-.
  match goal with X : _exposure _ _ _ = Ret _ |- _ => apply exposure_ret in X as [-> _] end.
  match goal with X : _nonnegative _ = Ret _ |- _ => apply nonnegative_ret in X as [[= <-] _] end.
  match goal with X : claim_id _ _ = Ret _ |- _ => eapply claim_id_ok in X; [|done] end.
  exists c. split_and!; [done| |done]. destruct Hac as [He ? ? ? ?]. split; cbn; try done. rewrite He. lia.
Qed.

Lemma cost_sum_snoc cs c : cost_sum (cs ++ [c]) = cost_sum cs + exposure_amount (n_exposure c).
Proof. unfold cost_sum. induction cs as [|d cs IH]; cbn; [lia|]. rewrite IH. lia. Qed.

Lemma load_costs_ok now base l claimed ac0 xs ac :
  fold_outcome (load_cost now) ac0 xs = Ret ac → acc_ok ac0 l 0 → claims_ok base (ac_identities ac0) claimed →
  ∃ cs, xs = map Some cs ∧ acc_ok ac l (cost_sum cs) ∧
        claims_ok base (ac_identities ac) (claimed ++ map (λ c, as_str (cost_id c)) cs).
Proof.
  intros H H0 Hc. refine (fold_outcome_ind _ (λ done ac, ∃ cs, done = map Some cs ∧ acc_ok ac l (cost_sum cs) ∧
        claims_ok base (ac_identities ac) (claimed ++ map (λ c, as_str (cost_id c)) cs)) _ _ _ H _ _).
  - exists []. by rewrite app_nil_r.
  - intros done x rest a a' _ (cs & -> & Ha & Hcl) Hx. eapply load_cost_ok in Hx as (c & -> & Ha' & Hcl'); [|done..].
    exists (cs ++ [c]). rewrite !map_app, cost_sum_snoc, app_assoc. done.
Qed.

(** ** Limits *)
Lemma limit_ret z ceiling code u : _limit (VInt z) ceiling code = Ret u → z ≤ ceiling.
Proof.
  unfold _limit, _require. intros H. inv_do. match goal with X : _nonnegative _ = Ret _ |- _ => apply nonnegative_ret in X as [[= <-] _] end.
  by bool_simpl.
Qed.

Lemma limits_ret t w e l d n m u :
  t = mkTotals (VInt w) (VInt e) (VInt l) (VInt d) (VInt n) (VInt m) → _limits (Some t) = Ret u →
  w ≤ 150000000 ∧ e ≤ 49999999 ∧ l ≤ 30000000 ∧ d ≤ 30000000 ∧ n ≤ 10 ∧ m ≤ 10.
Proof.
  intros -> H. unfold _limits in H. inv_do. cbn [week_model t_experiment t_lifecycle t_diagnostic lifecycle_attempts diagnostic_attempts] in *.
  repeat match goal with X : _limit _ _ _ = Ret _ |- _ => apply limit_ret in X end. lia.
Qed.

Lemma totals_ok ac l extra key lifecycle_id id :
  acc_ok ac l extra → lifecycle_id = VStr id →
  totals ac (VStr key) lifecycle_id =
    mkTotals (VInt (spent (in_week key) l)) (VInt (spent every l + extra)) (VInt (spent (in_lifecycle id) l))
      (VInt (spent (in_diagnostics key) l)) (VInt (number (in_lifecycle id) l)) (VInt (number (in_diagnostics key) l)).
Proof. intros [He Hw Hl Hd _] ->. unfold totals. cbn [get_or]. by rewrite Hl, Hd, Hw, He. Qed.

Lemma totals_none_ok ac l extra key :
  acc_ok ac l extra →
  totals ac (VStr key) VNone =
    mkTotals (VInt (spent (in_week key) l)) (VInt (spent every l + extra)) (VInt 0)
      (VInt (spent (in_diagnostics key) l)) (VInt 0) (VInt (number (in_diagnostics key) l)).
Proof. intros [He Hw Hl Hd _]. unfold totals. cbn [get_or]. by rewrite Hd, Hw, He. Qed.

Lemma fold_unit_all {A} (f : A → outcome unit) xs u :
  fold_outcome (λ _ x, f x) tt xs = Ret u → ∀ x, x ∈ xs → f x = Ret tt.
Proof.
  intros H. refine (fold_outcome_ind _ (λ done _, ∀ x, x ∈ done → f x = Ret tt) _ _ _ H _ _); [set_solver|].
  intros done x rest [] [] _ IH Hx y. rewrite elem_of_app, list_elem_of_singleton. intros [?| ->]; auto.
Qed.

(** The policy's ceilings, on the charges. *)
Record within_limits (l : list charge) (extra : Z) : Prop := {
  wl_experiment : spent every l + extra ≤ 49999999;
  wl_week key : spent (in_week key) l ≤ 150000000;
  wl_diagnostics key : spent (in_diagnostics key) l ≤ 30000000 ∧ number (in_diagnostics key) l ≤ 10;
  wl_lifecycle id : spent (in_lifecycle id) l ≤ 30000000 ∧ number (in_lifecycle id) l ≤ 10;
}.

Lemma totals_lifecycle_ok ac l extra key id :
  acc_ok ac l extra →
  ∃ w d m, totals ac key (VStr id) =
    mkTotals (VInt w) (VInt (ac_experiment ac)) (VInt (spent (in_lifecycle id) l)) (VInt d)
      (VInt (number (in_lifecycle id) l)) (VInt m).
Proof.
  intros [_ _ Hl _ _]. unfold totals. cbn [get_or]. rewrite Hl.
  destruct (get_or (ac_diagnostics ac) key (0, 0)) as [d m]. eauto.
Qed.

Lemma check_history_ret ac lifes l extra u :
  check_history ac lifes = Ret u → acc_ok ac l extra →
  (∀ c id, c ∈ l → in_lifecycle id c = true → is_Some (dict_get lifes id)) → within_limits l extra.
Proof.
  unfold check_history. intros H Hac Hlife. inv_do.
  match goal with X : fold_outcome _ _ (dict_keys _) = Ret _ |- _ => rename X into Hw end.
  match goal with X : _limits _ = Ret _ |- _ => eapply limits_ret in X as (_ & Hexp & _); [|done] end.
  pose proof (fold_unit_all (λ key, _limits (Some (totals ac (VStr key) VNone))) _ _ Hw) as Hweeks.
  pose proof (fold_unit_all (λ kv, _limits (Some (totals ac _ (VStr kv.1)))) _ _ H) as Hlives.
  assert (Hkey : ∀ key, spent (in_week key) l ≤ 150000000 ∧ spent (in_diagnostics key) l ≤ 30000000 ∧
                        number (in_diagnostics key) l ≤ 10).
  { intros key. destruct (decide (key ∈ dict_keys (ac_weeks ac))) as [Hin|Hout].
    - specialize (Hweeks key Hin). eapply limits_ret in Hweeks; [|by apply totals_none_ok]. lia.
    - assert (Hno : ∀ c, c ∈ l → in_week key c = false).
      { intros c Hc. apply bool_decide_eq_false. intros <-. by apply Hout, (ak_known _ _ _ Hac). }
      destruct (spent_none (in_week key) l Hno) as [-> _].
      destruct (spent_none (in_diagnostics key) l) as [-> ->]; [|lia].
      intros c Hc. unfold in_diagnostics. by rewrite Hno, andb_false_r. }
  split.
  - by rewrite <-(ak_experiment _ _ _ Hac).
  - intros. apply Hkey.
  - intros. apply Hkey.
  - intros id. destruct (dict_get lifes id) as [life|] eqn:El.
    + apply dict_get_elem in El. specialize (Hlives _ El). cbn [fst] in Hlives.
      destruct (totals_lifecycle_ok ac l extra (match l_week life with Some w => w_key w | None => VNone end) id Hac) as (w & d & m & E).
      eapply limits_ret in Hlives; [|exact E]. lia.
    + destruct (spent_none (in_lifecycle id) l) as [-> ->]; [|lia]. intros c Hc.
      destruct (in_lifecycle id c) eqn:E; [|done]. destruct (Hlife c id Hc E) as [? ?]. congruence.
Qed.

(** ** One evaluation that ended in a proposal *)
Lemma bounded_tuple_ret {A} (v : option (list A)) limit xs :
  bounded_tuple v limit = Ret xs → v = Some xs ∧ Z.of_nat (length xs) ≤ limit.
Proof. unfold bounded_tuple, _require. destruct v; [|done]. intros H. inv_do. injection H as <-. by bool_simpl. Qed.

Lemma week_for_ret tl tu at_ w : week_for tl tu at_ = Ret w → (∃ t, at_ = TUtc t) ∧ ∃ key, w_key w = VStr key.
Proof.
  unfold week_for, _require. intros H. inv_do. injection H as <-.
  match goal with X : AccountingPolicy._time _ = Ret _ |- _ => apply time_ret in X as -> end. cbn. eauto.
Qed.

Record evaluated (s : Snapshot) (c : Candidate) (p : HypotheticalProposal) (key : string)
    (as_ : list Attempt) (costs : list NonModelCost) (base : gset string) (lifes : dict string Lifecycle) : Prop := {
  ev_attempts : attempts s = Some (map Some as_);
  ev_costs : non_model_costs s = Some (map Some costs);
  ev_key : w_key (hp_week p) = VStr key;
  ev_candidate : hp_candidate p = c ∧ reservation_usd_micros p = 3000000 ∧
    liability_usd_micros p = exposure_amount (r_exposure (c_row c)) ∧ 3000000 ≤ liability_usd_micros p;
  ev_base : as_str (s_experiment_id s) ∈ base ∧ ∀ id, is_Some (dict_get lifes id) → id ∈ base;
  ev_claims : claims_ok base (list_to_set (concat (map row_ids (rows_of as_)) ++
      map (λ c, as_str (cost_id c)) costs ++ row_ids (c_row c)) ∪ base)
    (concat (map row_ids (rows_of as_)) ++ map (λ c, as_str (cost_id c)) costs ++ row_ids (c_row c));
  ev_lineage : is_diagnostic (c_row c) = false →
    (∃ life id, r_lifecycle_id (c_row c) = VStr id ∧ dict_get lifes id = Some life ∧ l_week life = Some (hp_week p) ∧
       l_profile life = r_profile (c_row c)) ∧
    if is_str (r_kind (c_row c)) "retry" then
       effects_reconciled (c_row c) = VBool true ∧
       ∃ prev, latest_of (as_str (r_lifecycle_id (c_row c))) (rows_of as_) = Some prev ∧
         same_str (r_predecessor_id (c_row c)) (r_attempt_id prev) = true ∧ r_profile (c_row c) = r_profile prev
     else ∀ prev, latest_of (as_str (r_lifecycle_id (c_row c))) (rows_of as_) = Some prev →
         is_str (r_kind prev) "retry" = false;
  ev_diagnostic : is_diagnostic (c_row c) = true → r_lifecycle_id (c_row c) = VNone;
  ev_history : within_limits (map charge_of as_) (cost_sum costs);
  ev_totals : ∃ ac, acc_ok ac (map charge_of as_ ++ [mkCharge (c_row c) key (liability_usd_micros p)]) (cost_sum costs) ∧
    hp_totals p = totals ac (VStr key) (r_lifecycle_id (c_row c)) ∧ _limits (Some (hp_totals p)) = Ret tt;
}.

Lemma evaluate_ret tl tu s c at_ p :
  _evaluate tl tu (Some s) (Some c) at_ = Ret p →
  ∃ key as_ costs base lifes, evaluated s c p key as_ costs base lifes.
Proof.
  unfold _evaluate, _require. intros H. inv_do. injection H as <-.
  match goal with X : week_for _ _ _ = Ret _ |- _ => apply week_for_ret in X as (_ & key & Hkey) end.
  match goal with X : bounded_tuple (attempts s) _ = Ret _ |- _ => apply bounded_tuple_ret in X as [Hat _] end.
  match goal with X : bounded_tuple (non_model_costs s) _ = Ret _ |- _ => apply bounded_tuple_ret in X as [Hco _] end.
  match goal with X : fold_outcome (load_attempt _ _ ?lf) ?s0 _ = Ret _ |- _ =>
    pose (lifes := lf); pose (base := ac_identities (rs_accounting s0));
    apply (load_attempts_ok _ _ _ base) in X as (as_ & -> & Hrows) end.
  2: { split; [apply acc_ok_new|apply claims_ok_nil|done|]. cbn. intros row id Hr. by apply not_elem_of_nil in Hr. }
  match goal with X : fold_outcome (load_cost _) _ _ = Ret _ |- _ =>
    eapply load_costs_ok in X as (cs & -> & Hac & Hcl); [|apply Hrows..] end.
  match goal with X : _attribution _ _ _ _ = Ret _ |- _ => apply attribution_ret in X as Hattr end.
  assert (Hid : is_diagnostic (c_row c) = false → ∃ id, r_lifecycle_id (c_row c) = VStr id)
    by (destruct Hattr as [[? _]|(_ & id & ? & ? & _)]; [congruence|eauto]).
  match goal with X : _lineage _ _ = Ret _ |- _ => eapply lineage_ret in X as [_ Hline]; [|done|apply Hrows] end.
  match goal with X : _exposure _ _ _ = Ret _ |- _ =>
    apply exposure_ret in X as (-> & Hr & y & Ey & Hmin & Hb) end.
  match goal with X : _claim_ids _ _ = Ret _ |- _ => eapply claim_ids_ok in X as Hcl'; [|exact Hcl] end.
  match goal with X : check_history _ _ = Ret _ |- _ => eapply check_history_ret in X as Hhist; [|exact Hac|] end.
  2: { intros ch id Hch%list_elem_of_In%in_map_iff Hin. destruct Hch as (at1 & <- & Hat1).
       apply (ro_lifes _ _ _ _ Hrows (a_row at1) id); [|done]. apply list_elem_of_In, in_map_iff. eauto. }
  match goal with X : add _ _ _ _ = Ret _ |- _ => eapply add_ok in X as [Hadd _]; [|exact Hkey|exact Hid|by apply acc_ok_identities] end.
  exists key, as_, cs, base, lifes. split; try done; cbn [hp_candidate reservation_usd_micros liability_usd_micros hp_week hp_totals].
  - split_and!; try done. rewrite Ey in *. cbn [exposure_amount] in *. specialize (Hmin eq_refl).
    match goal with X : is_str _ "bounded" = true |- _ => rewrite X end. lia.
  - unfold base, initial_identities. cbn. split; [set_solver|]. intros id Hl%dict_get_keys. set_solver.
  - rewrite app_assoc. destruct Hcl' as [-> ? ?]. by split.
  - intros Hd. split.
    + destruct Hattr as [[? _]|(_ & id & life & ? & ? & ? & ? & _)]; [congruence|]. by exists life, id.
    + specialize (Hline Hd). destruct (is_str (r_kind (c_row c)) "retry") eqn:Er; [|done].
      split; [|done]. destruct Hattr as [[? _]|(_ & id & life & ? & ? & ? & ? & Hrec)]; [congruence|]. by apply Hrec.
  - intros Hd. destruct Hattr as [[_ ?]|[? _]]; [done|congruence].
  - rewrite Hkey. eexists. split_and!; [exact Hadd|done|].
    match goal with X : _limits _ = Ret ?u |- _ => destruct u; rewrite Hkey in X; exact X end.
Qed.

Lemma spent_other P l c : P c = false → spent P (l ++ [c]) = spent P l ∧ number P (l ++ [c]) = number P l.
Proof. intros H. rewrite spent_app, number_app. cbn. rewrite H. lia. Qed.

(** All charges of the experiment once the proposal is accepted. *)
Definition charges_with (as_ : list Attempt) (p : HypotheticalProposal) : list charge :=
  map charge_of as_ ++ [mkCharge (c_row (hp_candidate p)) (as_str (w_key (hp_week p))) (liability_usd_micros p)].

(** The totals of the charges, as a proposal for [row] in week [key] reports them:
    a diagnostic belongs to no lifecycle. *)
Definition exact_totals (row : Row) (key : string) (l : list charge) (extra : Z) : Totals :=
  let own f := if is_diagnostic row then 0 else f (in_lifecycle (as_str (r_lifecycle_id row))) l in
  {| week_model := VInt (spent (in_week key) l); t_experiment := VInt (spent every l + extra); t_lifecycle := VInt (own spent);
     t_diagnostic := VInt (spent (in_diagnostics key) l); lifecycle_attempts := VInt (own number);
     diagnostic_attempts := VInt (number (in_diagnostics key) l) |}.

Lemma evaluated_within s c p key as_ costs base lifes :
  evaluated s c p key as_ costs base lifes →
  within_limits (charges_with as_ p) (cost_sum costs) ∧
  hp_totals p = exact_totals (c_row c) key (charges_with as_ p) (cost_sum costs).
Proof.
  intros [_ _ Hkey (Hc & _) _ _ Hline Hdiag [_ Hw Hd Hl] (ac & Hac & Htot & Hlim)]. unfold charges_with. rewrite Hc, Hkey.
  cbn [as_str]. set (new := mkCharge _ _ _) in *. set (l := map charge_of as_) in *.
  assert (Hself : ∃ life count, hp_totals p =
      mkTotals (VInt (spent (in_week key) (l ++ [new]))) (VInt (spent every (l ++ [new]) + cost_sum costs)) (VInt life)
        (VInt (spent (in_diagnostics key) (l ++ [new]))) (VInt count) (VInt (number (in_diagnostics key) (l ++ [new]))) ∧
      hp_totals p = exact_totals (c_row c) key (l ++ [new]) (cost_sum costs) ∧
      ∀ id, in_lifecycle id new = true → life = spent (in_lifecycle id) (l ++ [new]) ∧ count = number (in_lifecycle id) (l ++ [new])).
  { rewrite Htot. unfold exact_totals. destruct (is_diagnostic (c_row c)) eqn:Ed.
    - rewrite (Hdiag eq_refl). do 2 eexists. split_and!; [by apply totals_none_ok|by apply totals_none_ok|]. intros id Hin.
      unfold in_lifecycle, new in Hin. cbn [ch_row] in Hin. by rewrite Ed in Hin.
    - destruct (Hline eq_refl) as [(life & id & Hid & _) _]. rewrite Hid.
      do 2 eexists. split_and!; [by apply totals_ok|by apply totals_ok|]. intros id' Hin. unfold in_lifecycle, new in Hin. cbn [ch_row] in Hin.
      rewrite Ed, Hid in Hin. cbn in Hin. bool_simpl. by subst. }
  destruct Hself as (life & count & E & Hex & Hown). pose proof (limits_ret _ _ _ _ _ _ _ _ E Hlim) as (? & ? & ? & ? & ? & ?).
  split; [|done]. split; [done|..].
  - intros k. destruct (decide (k = key)) as [->|Hne]; [done|].
    destruct (spent_other (in_week k) l new) as [-> _]; [|apply Hw]. by apply bool_decide_eq_false.
  - intros k. destruct (decide (k = key)) as [->|Hne]; [done|].
    destruct (spent_other (in_diagnostics k) l new) as [-> ->]; [|apply Hd].
    unfold in_diagnostics. assert (in_week k new = false) as -> by by apply bool_decide_eq_false. apply andb_false_r.
  - intros id. destruct (in_lifecycle id new) eqn:Ei.
    + destruct (Hown id Ei) as [<- <-]. done.
    + destruct (spent_other (in_lifecycle id) l new Ei) as [-> ->]. apply Hl.
Qed.

(** ** A concrete snapshot: one settled initial attempt, one support cost, and a
    retry of that attempt two days into the week, in a zone five hours behind UTC. *)
Definition demo_local (t : Z) : Z := t - 5 * HOUR.
Definition demo_utc (w : Z) : Z := w + 5 * HOUR.
Definition demo_id (n : string) : pyval := VStr ("0000000" +:+ n +:+ "-0000-0000-0000-000000000000")%string.
Definition demo_week : Week :=
  mkWeek (VStr "2024-02-26") (TUtc (at_time 738941 5)) (TUtc (at_time 738948 5)) (VStr NEW_YORK).
Definition demo_profile : Profile := mkProfile (demo_id "1") (demo_id "2") (demo_id "3").
Definition demo_life : Lifecycle := mkLifecycle (demo_id "4") (VStr "rehearsal_1") (Some demo_week) (Some demo_profile).
Definition demo_row (a b c d kind : string) (predecessor effects : pyval) (x : Exposure) : Row :=
  mkRow (demo_id a) (demo_id b) (demo_id c) (demo_id d) (Some demo_profile) (VStr kind) (demo_id "4") predecessor effects (Some x).
Definition demo_attempt : Attempt :=
  mkAttempt (demo_row "5" "6" "7" "8" "initial" VNone (VBool false)
    (mkExposure (VStr "settled") (VInt 4000000) TNone (VInt 2500000))) (TUtc (at_time 738942 10)) (Some demo_week).
Definition demo_cost : NonModelCost :=
  mkCost (demo_id "9") (VStr "support") (Some (mkExposure (VStr "settled") (VInt 1000) TNone (VInt 700))).
Definition demo_snapshot : Snapshot :=
  mkSnapshot (demo_id "0") (VInt 1) (TUtc (at_time 738943 12)) (VStr "hypothetical_complete")
    (Some [Some demo_profile]) (Some [Some demo_life]) (Some [Some demo_attempt]) (Some [Some demo_cost]) (Some []).
Definition demo_candidate : Candidate :=
  mkCandidate (demo_row "a" "b" "c" "d" "retry" (demo_id "5") (VBool true)
    (mkExposure (VStr "bounded") (VInt 5000000) (TUtc (at_time 738944 0)) VNone)) (demo_id "0") (VInt 1).
Local Notation demo_evaluation :=
  (evaluate_reservation demo_local demo_utc (Some demo_snapshot) (Some demo_candidate) (TUtc (at_time 738943 12))).

(** ** Properties *)

Lemma evaluate_inr tl tu s c at_ p :
  evaluate_reservation tl tu (Some s) (Some c) at_ = inr p → _evaluate tl tu (Some s) (Some c) at_ = Ret p.
Proof. unfold evaluate_reservation. destruct (_evaluate _ _ _ _ _); naive_solver. Qed.

(** C40: no proposal exceeds a ceiling.  When [evaluate_reservation] proposes a
    reservation, then over all attempts of the snapshot and the candidate
    together: the experiment with its other costs stays below 50 dollars, every
    week's model spend within 150, every week's diagnostic spend within 30 and 10
    attempts, every lifecycle's spend within 30 and 10 attempts; each of the six
    reported totals is the sum or the number of these charges it is named after,
    for the week and the lifecycle of the candidate; and the candidate counts
    with its full upper bound, at least 3 dollars. *)
Theorem proposal_is_within_limits tl tu s c at_ p :
  evaluate_reservation tl tu (Some s) (Some c) at_ = inr p →
  ∃ as_ costs,
    attempts s = Some (map Some as_) ∧ non_model_costs s = Some (map Some costs) ∧ hp_candidate p = c ∧
    within_limits (charges_with as_ p) (cost_sum costs) ∧
    hp_totals p = exact_totals (c_row c) (as_str (w_key (hp_week p))) (charges_with as_ p) (cost_sum costs) ∧
    3000000 ≤ liability_usd_micros p ∧ liability_usd_micros p = exposure_amount (r_exposure (c_row c)).
Proof.
  intros (key & as_ & costs & base & lifes & H)%evaluate_inr%evaluate_ret.
  pose proof (evaluated_within _ _ _ _ _ _ _ _ H) as (? & ?). pose proof (ev_candidate _ _ _ _ _ _ _ _ H).
  exists as_, costs. rewrite (ev_key _ _ _ _ _ _ _ _ H). split_and!; try apply H; tauto.
Qed.

Lemma proposal_is_within_limits_witness :
  ∃ p as_ costs, demo_evaluation = inr p ∧ attempts demo_snapshot = Some (map Some as_) ∧
    within_limits (charges_with as_ p) (cost_sum costs) ∧ week_model (hp_totals p) = VInt 7500000 ∧
    t_lifecycle (hp_totals p) = VInt (spent (in_lifecycle (as_str (demo_id "4"))) (charges_with as_ p)) ∧
    t_diagnostic (hp_totals p) = VInt 5000000.
Proof.
  destruct demo_evaluation as [r|p] eqn:E; [vm_compute in E; discriminate E|].
  destruct (proposal_is_within_limits _ _ _ _ _ _ E) as (as_ & costs & Ha & _ & _ & Hw & Ht & _).
  exists p, as_, costs. split_and!; [reflexivity|exact Ha|exact Hw| |rewrite Ht; reflexivity|]; vm_compute in E; injection E as <-; reflexivity.
Defined.

(** No identity is used twice.  When a reservation is proposed, the
    attempt, reservation, run and lease identities of all past attempts and of
    the candidate and the identities of the other costs are pairwise distinct,
    and none of them is the experiment's identity. *)
Theorem proposal_uses_fresh_identities tl tu s c at_ p :
  evaluate_reservation tl tu (Some s) (Some c) at_ = inr p →
  ∃ as_ costs,
    attempts s = Some (map Some as_) ∧ non_model_costs s = Some (map Some costs) ∧
    let ids := concat (map row_ids (rows_of as_)) ++ map (λ c, as_str (cost_id c)) costs ++ row_ids (c_row c) in
    NoDup ids ∧ as_str (s_experiment_id s) ∉ ids.
Proof.
  intros (key & as_ & costs & base & lifes & H)%evaluate_inr%evaluate_ret.
  exists as_, costs. destruct H as [Ha Hc _ _ [Hb _] [_ Hnd Hf] _ _ _ _]. split_and!; [done|done|].
  intros ids. split; [done|]. intros Hin. by apply (Hf _ Hin).
Qed.

Lemma proposal_uses_fresh_identities_witness :
  ∃ as_ costs, attempts demo_snapshot = Some (map Some as_) ∧ non_model_costs demo_snapshot = Some (map Some costs) ∧
    NoDup (concat (map row_ids (rows_of as_)) ++ map (λ c, as_str (cost_id c)) costs ++ row_ids (c_row demo_candidate)).
Proof.
  destruct demo_evaluation as [r|p] eqn:E; [vm_compute in E; discriminate E|].
  destruct (proposal_uses_fresh_identities _ _ _ _ _ _ E) as (as_ & costs & Ha & Hc & Hnd & _).
  exists as_, costs. split_and!; [exact Ha|exact Hc|exact Hnd].
Defined.

(** The lineage of a proposed attempt.  A retry names the latest attempt of
    its lifecycle as predecessor, with the same profile, and its effects are
    reconciled; an initial attempt never follows a retry; both belong to a
    lifecycle of the current week. *)
Theorem proposal_continues_the_lineage tl tu s c at_ p :
  evaluate_reservation tl tu (Some s) (Some c) at_ = inr p →
  is_diagnostic (c_row c) = false →
  ∃ as_ id, attempts s = Some (map Some as_) ∧ r_lifecycle_id (c_row c) = VStr id ∧
    if is_str (r_kind (c_row c)) "retry" then
      effects_reconciled (c_row c) = VBool true ∧
      ∃ prev, latest_of id (rows_of as_) = Some prev ∧
        same_str (r_predecessor_id (c_row c)) (r_attempt_id prev) = true ∧ r_profile (c_row c) = r_profile prev
    else ∀ prev, latest_of id (rows_of as_) = Some prev → is_str (r_kind prev) "retry" = false.
Proof.
  intros (key & as_ & costs & base & lifes & H)%evaluate_inr%evaluate_ret Hd.
  destruct (ev_lineage _ _ _ _ _ _ _ _ H Hd) as [(life & id & Hid & _) Hl]. exists as_, id.
  rewrite Hid in Hl. split_and!; [apply H|done|exact Hl].
Qed.

Lemma proposal_continues_the_lineage_witness :
  ∃ as_ id, attempts demo_snapshot = Some (map Some as_) ∧ r_lifecycle_id (c_row demo_candidate) = VStr id ∧
    ∃ prev, latest_of id (rows_of as_) = Some prev.
Proof.
  destruct demo_evaluation as [r|p] eqn:E; [vm_compute in E; discriminate E|].
  destruct (proposal_continues_the_lineage _ _ _ _ _ _ E eq_refl) as (as_ & id & Ha & Hid & Hl).
  replace (is_str (r_kind (c_row demo_candidate)) "retry") with true in Hl by reflexivity. destruct Hl as (_ & prev & Hp & _).
  exists as_, id. split_and!; [exact Ha|exact Hid|]. exists prev. exact Hp.
Defined.
