(* ===== verification/Bridge.v ===== *)
(** * The two-store reservation join (reservation_bridge.py)

    [assess_bridge] compares a journal's intents and confirmations with a
    ledger's reservations for one intent.  The nine fields an intent and a ledger
    reservation share are the record [Link], the five a reservation and a
    confirmation share the record [LedgerEvent]; so [_intent_link] is the first
    and [_ledger_link] the intent identity with the second.  In a family of facts
    [None] stands for a value of another class; a family that is not a tuple is
    [None] itself.

    The code removes duplicates with [tuple(set(values))], which leaves the order
    open; the model keeps one order and [assessment_ignores_order] shows that no
    order, and no repetition, changes the result. *)

From S2P Require Import Prelude PyValue Supervision AccountingPolicy.
Local Open Scope string_scope.
Local Open Scope Z_scope.

Definition _MAX_FACTS : Z := 1024.
Definition _MAX_GENERATION : Z := 2 ^ 31 - 1.
Definition _MAX_SEQUENCE : Z := 2 ^ 53 - 1.
Definition BridgeError (code : string) : exn := Exn "BridgeError" code.
Definition _invalid : exn := BridgeError "bridge_invalid".

Record Link := mkLink {
  journal_uuid : pyval; journal_generation : pyval; admission_id : pyval; intent_id : pyval; attempt_id : pyval;
  reservation_id : pyval; run_id : pyval; lease_id : pyval; intent_digest : pyval;
}.
#[export] Instance link_eq_dec : EqDecision Link.
Proof. solve_decision. Defined.

Record LedgerEvent := mkEvent {
  ledger_uuid : pyval; ledger_generation : pyval; event_id : pyval; sequence : pyval; event_digest : pyval }.
#[export] Instance event_eq_dec : EqDecision LedgerEvent.
Proof. solve_decision. Defined.

Record JournalIntent := mkIntent { i_link : Link }.
#[export] Instance intent_eq_dec : EqDecision JournalIntent.
Proof. solve_decision. Defined.

Record LedgerReservation := mkReservation { v_link : Link; v_event : LedgerEvent; read_back : pyval }.
#[export] Instance reservation_eq_dec : EqDecision LedgerReservation.
Proof. solve_decision. Defined.

Record JournalConfirmation := mkConfirmation { k_intent_id : pyval; k_event : LedgerEvent }.
#[export] Instance confirmation_eq_dec : EqDecision JournalConfirmation.
Proof. solve_decision. Defined.

Record BridgeAssessment := mkAssessment { hold : bool; reason : string }.

(** [[0-9a-f]{8}(-[0-9a-f]{4}){3}-[0-9a-f]{12}] on the whole string. *)
Definition _uuid (value : pyval) : bool :=
  match value with VStr s => (str_len s =? 36) && uuid_chars 0 s | _ => false end.
Definition _digest (value : pyval) : bool :=
  match value with VStr s => (str_len s =? 64) && all_chars (char_in HEX_DIGITS) s | _ => false end.
Definition _generation (value : pyval) : bool :=
  match value with VInt z => (1 <=? z) && (z <=? _MAX_GENERATION) | _ => false end.
Definition _sequence (value : pyval) : bool :=
  match value with VInt z => (1 <=? z) && (z <=? _MAX_SEQUENCE) | _ => false end.

(** [all(_uuid(getattr(value, key)) ...)] and all of them distinct. *)
Definition distinct_uuids (values : list pyval) : bool := forallb _uuid values && bool_decide (NoDup values).

Definition link_keys (l : Link) : list pyval :=
  [journal_uuid l; admission_id l; intent_id l; attempt_id l; reservation_id l; run_id l; lease_id l].

Definition _valid_intent (value : JournalIntent) : bool :=
  let l := i_link value in
  distinct_uuids (link_keys l) && _generation (journal_generation l) && _digest (intent_digest l).

Definition _valid_ledger (value : LedgerReservation) : bool :=
  let l := v_link value in let e := v_event value in
  distinct_uuids (link_keys l ++ [ledger_uuid e; event_id e])%list && _generation (journal_generation l) &&
  _generation (ledger_generation e) && _sequence (sequence e) && _digest (intent_digest l) &&
  _digest (event_digest e) && is_bool (read_back value).

Definition _valid_confirmation (value : JournalConfirmation) : bool :=
  let e := k_event value in
  _generation (ledger_generation e) && distinct_uuids [k_intent_id value; ledger_uuid e; event_id e] &&
  _sequence (sequence e) && _digest (event_digest e).

Section family.
Context {A : Type} `{!EqDecision A} (valid : A → bool).

Definition valid_item (value : option A) : bool := match value with Some a => valid a | None => false end.

Definition _checked_family (values : option (list (option A))) : outcome (list A) :=
  match values with
  | None => Raise _invalid
  | Some xs =>
      check_that (Z.of_nat (length xs) <=? _MAX_FACTS) _invalid;;
      check_that (forallb valid_item xs) _invalid;;
      Ret (remove_dups (omap id xs))
  end.
End family.

Definition attempt_ids (l : Link) : list pyval := [attempt_id l; reservation_id l; run_id l; lease_id l].

(** [target_ids & ids]. *)
Definition share (xs ys : list pyval) : bool := existsb (λ x, bool_decide (x ∈ ys)) xs.

Definition _reused_attempt (target : JournalIntent) (intents : list JournalIntent) (ledger : list LedgerReservation) : bool :=
  existsb (λ l, negb (bool_decide (intent_id l = intent_id (i_link target))) &&
                share (attempt_ids (i_link target)) (attempt_ids l))
    (map i_link intents ++ map v_link ledger)%list.

Definition same_event (e target : LedgerEvent) : bool :=
  bool_decide (event_id e = event_id target) ||
  (bool_decide (ledger_uuid e = ledger_uuid target) && bool_decide (ledger_generation e = ledger_generation target) &&
   bool_decide (sequence e = sequence target)).

Definition _reused_ledger_event (target : LedgerReservation) (ledger : list LedgerReservation)
    (confirmations : list JournalConfirmation) : bool :=
  existsb (λ ke, negb (bool_decide (ke.1 = intent_id (v_link target))) && same_event ke.2 (v_event target))
    (map (λ v, (intent_id (v_link v), v_event v)) ledger ++ map (λ k, (k_intent_id k, k_event k)) confirmations)%list.

Definition selected {A} (key : A → pyval) (target : pyval) (values : list A) : list A :=
  List.filter (λ v, bool_decide (key v = target)) values.

(** The reason, once the three families are checked. *)
Definition bridge_reason (target : pyval) (intents : list JournalIntent) (ledger : list LedgerReservation)
    (confirmations : list JournalConfirmation) : string :=
  let si := selected (λ v, intent_id (i_link v)) target intents in
  let sl := selected (λ v, intent_id (v_link v)) target ledger in
  let sc := selected k_intent_id target confirmations in
  match si, sl, sc with
  | _ :: _ :: _, _, _ | _, _ :: _ :: _, _ | _, _, _ :: _ :: _ => "identity_conflict"
  | [], _ :: _, _ => "orphan_ledger"
  | [], [], _ => "missing_intent"
  | [i], _, _ =>
      if _reused_attempt i intents ledger then "identity_conflict"
      else
        match sl with
        | [] => "missing_ledger"
        | v :: _ =>
            if negb (bool_decide (i_link i = v_link v)) || _reused_ledger_event v ledger confirmations ||
               match sc with k :: _ => negb (bool_decide ((intent_id (v_link v), v_event v) = (k_intent_id k, k_event k))) | [] => false end
            then "identity_conflict"
            else if negb (is_true (read_back v)) then "ledger_unverified"
            else match sc with [] => "missing_confirmation" | _ :: _ => "matching_unqualified" end
        end
  end.

Definition assess_bridge (target_intent_id : pyval) (intents : option (list (option JournalIntent)))
    (ledger : option (list (option LedgerReservation))) (confirmations : option (list (option JournalConfirmation)))
    : outcome BridgeAssessment :=
  check_that (_uuid target_intent_id) _invalid;;
  intents ← _checked_family _valid_intent intents;
  ledger ← _checked_family _valid_ledger ledger;
  confirmations ← _checked_family _valid_confirmation confirmations;
  Ret (mkAssessment true (bridge_reason target_intent_id intents ledger confirmations)).

(** ** Theorems *)
Section perm.
Context {A : Type}.
Implicit Types l : list A.

Lemma filter_perm (P : A → bool) l l' : l ≡ₚ l' → List.filter P l ≡ₚ List.filter P l'.
Proof.
  induction 1 as [|x l l' H IH|x y l|l1 l2 l3 H1 IH1 H2 IH2]; cbn; [done| | |by etransitivity].
  - destruct (P x); [by constructor|done].
  - destruct (P x), (P y); try done. constructor.
Qed.

Lemma existsb_perm (P : A → bool) l l' : l ≡ₚ l' → existsb P l = existsb P l'.
Proof.
  intros H. apply eq_true_iff_eq. rewrite !existsb_exists.
  split; intros (x & Hx & HP); exists x; (split; [|done]); [by rewrite <-H|by rewrite H].
Qed.

Lemma perm_cases l l' :
  l ≡ₚ l' →
  (l = [] ∧ l' = []) ∨ (∃ x, l = [x] ∧ l' = [x]) ∨ (∃ x y r x' y' r', l = x :: y :: r ∧ l' = x' :: y' :: r').
Proof.
  intros H. destruct l as [|x [|y r]].
  - left. apply Permutation_nil_l in H. by subst.
  - right; left. exists x. split; [done|]. by apply Permutation_singleton_l in H.
  - right; right. apply Permutation_length in H. destruct l' as [|x' [|y' r']]; try done. eauto 10.
Qed.
End perm.

#[export] Instance bridge_reason_perm target :
  Proper ((≡ₚ) ==> (≡ₚ) ==> (≡ₚ) ==> (=)) (bridge_reason target).
Proof.
  intros i i' Hi v v' Hv k k' Hk. unfold bridge_reason, selected.
  destruct (perm_cases _ _ (filter_perm (λ v, bool_decide (intent_id (i_link v) = target)) _ _ Hi))
    as [[-> ->]|[(x & -> & ->)|(? & ? & ? & ? & ? & ? & -> & ->)]]; try done;
  destruct (perm_cases _ _ (filter_perm (λ v, bool_decide (intent_id (v_link v) = target)) _ _ Hv))
    as [[-> ->]|[(y & -> & ->)|(? & ? & ? & ? & ? & ? & -> & ->)]]; try done;
  destruct (perm_cases _ _ (filter_perm (λ v, bool_decide (k_intent_id v = target)) _ _ Hk))
    as [[-> ->]|[(z & -> & ->)|(? & ? & ? & ? & ? & ? & -> & ->)]]; try done;
  unfold _reused_attempt, _reused_ledger_event;
  rewrite (existsb_perm _ (map i_link i ++ map v_link v)%list (map i_link i' ++ map v_link v')%list) by by rewrite Hi, Hv.
  all: try done.
  all: rewrite (existsb_perm _ (map (λ v, (intent_id (v_link v), v_event v)) v ++ map (λ k, (k_intent_id k, k_event k)) k)%list
         (map (λ v, (intent_id (v_link v), v_event v)) v' ++ map (λ k, (k_intent_id k, k_event k)) k')%list)
         by by rewrite Hv, Hk.
  all: done.
Qed.

Lemma checked_family_ret {A} `{!EqDecision A} (valid : A → bool) values xs :
  _checked_family valid values = Ret xs →
  ∃ vs, values = Some vs ∧ NoDup xs ∧ (∀ x, x ∈ xs ↔ Some x ∈ vs) ∧ (∀ x, x ∈ xs → valid x = true).
Proof.
  unfold _checked_family. destruct values as [vs|]; [|done]. intros H. inv_do. injection H as <-.
  assert (Hin : ∀ x, x ∈ remove_dups (omap id vs) ↔ Some x ∈ vs).
  { intros x. rewrite elem_of_remove_dups, list_elem_of_omap. split; [intros (? & ? & [=]); by subst|eauto]. }
  exists vs. split_and!; [done|apply NoDup_remove_dups|done|]. intros x Hx%Hin.
  match goal with X : forallb _ _ = true |- _ => rewrite forallb_forall in X; apply (X (Some x)) end. by apply list_elem_of_In.
Qed.

Lemma checked_family_iff {A} `{!EqDecision A} (valid : A → bool) vs vs' :
  Z.of_nat (length vs) ≤ _MAX_FACTS → Z.of_nat (length vs') ≤ _MAX_FACTS → (∀ x, x ∈ vs ↔ x ∈ vs') →
  match _checked_family valid (Some vs), _checked_family valid (Some vs') with
  | Ret xs, Ret xs' => xs ≡ₚ xs'
  | Raise e, Raise e' => e = e'
  | _, _ => False
  end.
Proof.
  intros Hl Hl' Hin. unfold _checked_family, check_that.
  rewrite (proj2 (Z.leb_le _ _) Hl), (proj2 (Z.leb_le _ _) Hl'). cbn.
  assert (forallb (valid_item valid) vs = forallb (valid_item valid) vs') as <-.
  { apply eq_true_iff_eq. rewrite !forallb_forall. setoid_rewrite <-list_elem_of_In. by setoid_rewrite Hin. }
  destruct (forallb _ vs); cbn; [|done]. apply NoDup_Permutation; [apply NoDup_remove_dups..|].
  intros x. rewrite !elem_of_remove_dups, !list_elem_of_omap. by setoid_rewrite Hin.
Qed.

Lemma family_bind_perm {A B} `{!EqDecision A} (valid : A → bool) vs vs' (k k' : list A → outcome B) :
  Z.of_nat (length vs) ≤ _MAX_FACTS → Z.of_nat (length vs') ≤ _MAX_FACTS → (∀ x, x ∈ vs ↔ x ∈ vs') →
  (∀ xs xs', xs ≡ₚ xs' → k xs = k' xs') →
  (_checked_family valid (Some vs) ≫= k) = (_checked_family valid (Some vs') ≫= k').
Proof.
  intros Hl Hl' Hin Hk. pose proof (checked_family_iff valid vs vs' Hl Hl' Hin) as H. revert H.
  destruct (_checked_family valid (Some vs)), (_checked_family valid (Some vs')); cbn; try done; [auto|congruence].
Qed.

(** The assessment is a function of the sets of facts: giving each family in
    another order, or with repetitions, changes neither the result nor the error
    (as long as both spellings stay within the 1024 facts the code reads). *)
Theorem assessment_ignores_order target i i' v v' k k' :
  (∀ x, x ∈ i ↔ x ∈ i') → (∀ x, x ∈ v ↔ x ∈ v') → (∀ x, x ∈ k ↔ x ∈ k') →
  Forall (λ n, Z.of_nat n ≤ _MAX_FACTS) [length i; length i'; length v; length v'; length k; length k'] →
  assess_bridge target (Some i) (Some v) (Some k) = assess_bridge target (Some i') (Some v') (Some k').
Proof.
  intros Hi Hv Hk Hl. rewrite !Forall_cons in Hl. destruct Hl as (?&?&?&?&?&?&_). unfold assess_bridge.
  destruct (check_that _ _) as [[]|]; [|done]. cbn.
  apply family_bind_perm; [done..|]. intros xs xs' Ei. apply family_bind_perm; [done..|]. intros ys ys' Ev.
  apply family_bind_perm; [done..|]. intros zs zs' Ek. by rewrite Ei, Ev, Ek.
Qed.

Lemma selected_unique {A} (key : A → pyval) target xs x :
  NoDup xs →
  selected key target xs = [x] ↔ x ∈ xs ∧ key x = target ∧ ∀ y, y ∈ xs → key y = target → y = x.
Proof.
  intros Hnd. unfold selected.
  assert (Hin : ∀ y, y ∈ List.filter (λ v, bool_decide (key v = target)) xs ↔ y ∈ xs ∧ key y = target).
  { intros y. rewrite list_elem_of_In, filter_In, <-list_elem_of_In, bool_decide_eq_true. done. }
  split.
  - intros E. rewrite E in Hin. setoid_rewrite list_elem_of_singleton in Hin. naive_solver.
  - intros (Hx & Hk & Hu). apply Permutation_singleton_r, NoDup_Permutation.
    + apply NoDup_ListNoDup, List.NoDup_filter, NoDup_ListNoDup, Hnd.
    + apply NoDup_singleton.
    + intros y. rewrite Hin, list_elem_of_singleton. naive_solver.
Qed.

Lemma existsb_false_iff {A} (P : A → bool) l : existsb P l = false ↔ ∀ x, x ∈ l → P x = false.
Proof.
  rewrite <-not_true_iff_false, existsb_exists. setoid_rewrite <-list_elem_of_In. setoid_rewrite <-not_true_iff_false.
  naive_solver.
Qed.

(** Every link and every ledger event the checked families mention, with the
    intent it belongs to. *)
Definition links (i : list (option JournalIntent)) (v : list (option LedgerReservation)) (l : Link) : Prop :=
  Some (mkIntent l) ∈ i ∨ ∃ y, Some y ∈ v ∧ v_link y = l.
Definition events (v : list (option LedgerReservation)) (k : list (option JournalConfirmation)) (id : pyval) (e : LedgerEvent) : Prop :=
  (∃ y, Some y ∈ v ∧ intent_id (v_link y) = id ∧ v_event y = e) ∨ Some (mkConfirmation id e) ∈ k.

(** One intent, one reservation and one confirmation for the target, joined on
    every shared field, and no other intent uses one of their identities. *)
Record exact_handshake (target : pyval) i v k (l : Link) (e : LedgerEvent) : Prop := {
  eh_target : intent_id l = target;
  eh_intent : Some (mkIntent l) ∈ i ∧ ∀ x, Some x ∈ i → intent_id (i_link x) = target → x = mkIntent l;
  eh_ledger : Some (mkReservation l e (VBool true)) ∈ v ∧
    ∀ y, Some y ∈ v → intent_id (v_link y) = target → y = mkReservation l e (VBool true);
  eh_confirmation : Some (mkConfirmation target e) ∈ k ∧
    ∀ z, Some z ∈ k → k_intent_id z = target → z = mkConfirmation target e;
  eh_attempt l' : links i v l' → intent_id l' ≠ target → share (attempt_ids l) (attempt_ids l') = false;
  eh_event id e' : events v k id e' → id ≠ target → same_event e' e = false;
}.

Section handshake.
Context (target : pyval) (i : list (option JournalIntent)) (v : list (option LedgerReservation)) (k : list (option JournalConfirmation)).
Context (xs : list JournalIntent) (ys : list LedgerReservation) (zs : list JournalConfirmation).
Context (Hxs : ∀ x, x ∈ xs ↔ Some x ∈ i) (Hys : ∀ y, y ∈ ys ↔ Some y ∈ v) (Hzs : ∀ z, z ∈ zs ↔ Some z ∈ k).
Context (Nx : NoDup xs) (Ny : NoDup ys) (Nz : NoDup zs).

Lemma reused_attempt_iff l :
  intent_id l = target →
  _reused_attempt (mkIntent l) xs ys = false ↔
  ∀ l', links i v l' → intent_id l' ≠ target → share (attempt_ids l) (attempt_ids l') = false.
Proof.
  intros Ht. unfold _reused_attempt, links. rewrite existsb_false_iff. cbn [i_link]. rewrite Ht.
  assert (Hl : ∀ l', l' ∈ (map i_link xs ++ map v_link ys)%list ↔ Some (mkIntent l') ∈ i ∨ ∃ y, Some y ∈ v ∧ v_link y = l').
  { intros l'. rewrite elem_of_app, !list_elem_of_In, !in_map_iff. setoid_rewrite <-list_elem_of_In.
    setoid_rewrite Hxs. setoid_rewrite Hys. split; [intros [([x] & <- & ?)|(y & <- & ?)]; [by left|right; by exists y]|].
    intros [?|(y & ? & <-)]; [left; by exists (mkIntent l')|right; by exists y]. }
  setoid_rewrite Hl. split.
  - intros H l' Hin Hne. specialize (H l' Hin). by rewrite bool_decide_false in H.
  - intros H l' Hin. case_bool_decide; [done|]. cbn. by apply H.
Qed.

Lemma reused_event_iff y :
  intent_id (v_link y) = target →
  _reused_ledger_event y ys zs = false ↔
  ∀ id e', events v k id e' → id ≠ target → same_event e' (v_event y) = false.
Proof.
  intros Ht. unfold _reused_ledger_event, events. rewrite existsb_false_iff, Ht.
  assert (Hl : ∀ ke, ke ∈ (map (λ v, (intent_id (v_link v), v_event v)) ys ++ map (λ k, (k_intent_id k, k_event k)) zs)%list ↔
     (∃ y, Some y ∈ v ∧ intent_id (v_link y) = ke.1 ∧ v_event y = ke.2) ∨ Some (mkConfirmation ke.1 ke.2) ∈ k).
  { intros [id e]. rewrite elem_of_app, !list_elem_of_In, !in_map_iff. setoid_rewrite <-list_elem_of_In.
    setoid_rewrite Hys. setoid_rewrite Hzs. cbn. split; [intros [(y0 & [= <- <-] & ?)|([] & [= <- <-] & ?)]; [left; by exists y0|by right]|].
    intros [(y0 & ? & <- & <-)|?]; [left; by exists y0|right; by exists (mkConfirmation id e)]. }
  setoid_rewrite Hl. split.
  - intros H id e' Hin Hne. specialize (H (id, e') Hin). cbn in H. by rewrite bool_decide_false in H.
  - intros H [id e'] Hin. cbn in Hin |- *. case_bool_decide; [done|]. cbn. by apply (H id e').
Qed.

End handshake.

Lemma bridge_reason_matching target i v k xs ys zs :
  (∀ x, x ∈ xs ↔ Some x ∈ i) → (∀ y, y ∈ ys ↔ Some y ∈ v) → (∀ z, z ∈ zs ↔ Some z ∈ k) →
  NoDup xs → NoDup ys → NoDup zs →
  bridge_reason target xs ys zs = "matching_unqualified" ↔ ∃ l e, exact_handshake target i v k l e.
Proof.
  intros Hxs Hys Hzs Nx Ny Nz. split.
  - intros H. unfold bridge_reason in H.
    destruct (selected (λ v, intent_id (i_link v)) target xs) as [|x [|]] eqn:Ex;
    destruct (selected (λ v, intent_id (v_link v)) target ys) as [|y [|]] eqn:Ey;
    destruct (selected k_intent_id target zs) as [|z [|]] eqn:Ez; try done;
    destruct (_reused_attempt x xs ys) eqn:Er; try done;
    destruct (negb (bool_decide (i_link x = v_link y)) || _ || _) eqn:Eq; try done;
    destruct (is_true (read_back y)) eqn:Eb; try done.
    apply selected_unique in Ex as (Hx & Hxt & Hxu); [|done]. apply selected_unique in Ey as (Hy & Hyt & Hyu); [|done].
    apply selected_unique in Ez as (Hz & Hzt & Hzu); [|done]. bool_simpl. simplify_eq.
    assert (Hyy : y = mkReservation (v_link y) (v_event y) (VBool true)).
    { destruct y as [? ? []]; cbn in *; try done. by match goal with b : bool |- _ => destruct b end. }
    destruct x as [l], z as [id e]. cbn in *. subst. exists (v_link y), (v_event y). split; try done.
    + setoid_rewrite <-Hxs. done.
    + rewrite <-Hyy. setoid_rewrite <-Hys. done.
    + setoid_rewrite <-Hzs. done.
    + by eapply reused_attempt_iff.
    + by eapply reused_event_iff.
  - intros (l & e & [Ht [Hi Hiu] [Hv Hvu] [Hk Hku] Ha He]). unfold bridge_reason.
    rewrite (proj2 (selected_unique (λ v, intent_id (i_link v)) target xs (mkIntent l) Nx)) by (setoid_rewrite Hxs; naive_solver).
    rewrite (proj2 (selected_unique (λ v, intent_id (v_link v)) target ys (mkReservation l e (VBool true)) Ny)) by (setoid_rewrite Hys; naive_solver).
    rewrite (proj2 (selected_unique k_intent_id target zs (mkConfirmation target e) Nz)) by (setoid_rewrite Hzs; naive_solver).
    rewrite (proj2 (reused_attempt_iff target i v xs ys Hxs Hys l Ht) Ha).
    rewrite (proj2 (reused_event_iff target v k ys zs Hys Hzs (mkReservation l e (VBool true)) Ht)) by done. cbn.
    rewrite !bool_decide_true by (by rewrite ?Ht). done.
Qed.
(** The assessment always holds, and it reports an exact structural match in
    exactly one situation: the target has one intent, one read-back reservation
    and one confirmation, equal on every field they share, and no fact about
    another intent reuses an attempt, reservation, run or lease identity, a ledger
    event or a ledger position. *)
Theorem match_is_exact_and_still_held target i v k a :
  assess_bridge target (Some i) (Some v) (Some k) = Ret a →
  hold a = true ∧ (reason a = "matching_unqualified" ↔ ∃ l e, exact_handshake target i v k l e).
Proof.
  intros H. unfold assess_bridge in H. inv_do. injection H as <-. split; [done|]. cbn [reason].
  repeat match goal with X : _checked_family _ _ = Ret _ |- _ => apply checked_family_ret in X as (? & [= <-] & ? & ? & _) end.
  by apply bridge_reason_matching.
Qed.

(** ** Witnesses *)
Local Notation u n := (VStr ("0000000" +:+ n +:+ "-0000-0000-0000-000000000000")).
Local Notation demo_hex := (VStr (String.concat "" (repeat "0123456789abcdef" 4))).
Definition demo_link : Link := mkLink (u "1") (VInt 1) (u "2") (u "3") (u "4") (u "5") (u "6") (u "7") demo_hex.
Definition demo_other : Link := mkLink (u "1") (VInt 1) (u "2") (u "8") (u "9") (u "a") (u "b") (u "c") demo_hex.
Definition demo_event : LedgerEvent := mkEvent (u "d") (VInt 1) (u "e") (VInt 7) demo_hex.
Definition demo_intents : list (option JournalIntent) := [Some (mkIntent demo_link); Some (mkIntent demo_other)].
Definition demo_ledger : list (option LedgerReservation) := [Some (mkReservation demo_link demo_event (VBool true))].
Definition demo_confirmations : list (option JournalConfirmation) := [Some (mkConfirmation (u "3") demo_event)].

Lemma assessment_ignores_order_witness :
  assess_bridge (u "3") (Some demo_intents) (Some demo_ledger) (Some demo_confirmations) =
  assess_bridge (u "3") (Some (rev demo_intents ++ demo_intents)%list) (Some demo_ledger) (Some demo_confirmations).
Proof.
  apply assessment_ignores_order; try done.
  - intros x. rewrite elem_of_app, !list_elem_of_In, <-in_rev. tauto.
  - repeat constructor; vm_compute; congruence.
Defined.

Lemma match_is_exact_and_still_held_witness :
  ∃ l e, exact_handshake (u "3") demo_intents demo_ledger demo_confirmations l e.
Proof.
  apply (match_is_exact_and_still_held (u "3") demo_intents demo_ledger demo_confirmations
    (mkAssessment true "matching_unqualified")); reflexivity.
Defined.
