(* ===== verification/HttpRequest.v ===== *)
(** * The HTTP/1.1 request profile (forwarder_http.py)

    Bytes are the characters of a [string]; [None] stands for an argument that
    is not [bytes], or not a [frozenset].  The base64 functions of the standard
    library are modelled on the inputs that can survive the comparison with the
    re-encoded text: [b64decode] is [None] where the text is not made of groups
    of four alphabet characters with final padding. *)

From S2P Require Import Prelude PyValue PyJson Services PyBytes Supervision.
Local Open Scope string_scope.
Local Open Scope Z_scope.

Definition MAX_REQUEST_LINE_BYTES : Z := 2048.
Definition MAX_HEADER_BYTES : Z := 16384.
Definition MAX_BODY_BYTES : Z := 262144.
Definition _MAX_INPUT : Z := MAX_REQUEST_LINE_BYTES + MAX_HEADER_BYTES + MAX_BODY_BYTES.
Definition _MAX_HEADER_FIELDS : Z := 64.
Definition _MAX_QUERY_PAIRS : Z := 32.
Definition _MAX_QUERY_KEYS : Z := 32.
Definition _MAX_QUERY_KEY_LENGTH : Z := 128.
Definition _METHODS : list string := ["GET"; "POST"; "PUT"; "PATCH"; "DELETE"].
Definition _ALLOWED_HEADERS : list string :=
  ["host"; "authorization"; "content-length"; "content-type"; "accept"; "user-agent"].
Definition _TOKEN : string := "!#$%&'*+-.^_`|~" +:+ LETTERS_DIGITS.
Definition _UNRESERVED : string := "-._~" +:+ LETTERS_DIGITS.
Definition _PCHAR : string := _UNRESERVED +:+ "!$&'()*+,;=:@%".
Definition _HEX : string := "0123456789ABCDEFabcdef".

Definition HTTPBoundaryError : exn := Exn "HTTPBoundaryError" "invalid_request".
Definition _fail {A} : outcome A := Raise HTTPBoundaryError.
Definition guard (b : bool) : outcome unit := check_that b HTTPBoundaryError.

Record ParsedRequest := mkParsedRequest {
  service : string; method : string; path : string; query : list (string * string); accept : string;
  body : string; sentinel : string;
}.
Record ParsedRequestHead := mkParsedRequestHead {
  h_service : string; h_method : string; h_path : string; h_query : list (string * string); h_accept : string;
  h_sentinel : string; h_body_length : Z;
}.

(** ** Configuration *)
Definition _is_unreserved_name (value : string) : bool :=
  negb (String.eqb value "") && all_chars (char_in _UNRESERVED) value.

Definition query_key_ok (key : pyval) : bool :=
  match key with VStr s => (str_len s <=? _MAX_QUERY_KEY_LENGTH) && _is_unreserved_name s | _ => false end.

Definition _validate_configuration (service : pyval) (allowed_query_keys : option (list pyval)) (accept : pyval)
    : outcome (string * list string * string) :=
  guard (match service with VStr s => known_service s | _ => false end);;
  match allowed_query_keys with
  | None => _fail
  | Some keys =>
      guard (Z.of_nat (length keys) <=? _MAX_QUERY_KEYS);;
      guard (forallb query_key_ok keys);;
      guard (match accept with VStr _ => true | _ => false end);;
      guard (is_str accept "application/json" || (is_str service "anthropic" && is_str accept "text/event-stream"));;
      Ret (as_str service, map as_str keys, as_str accept)
  end.

Definition _reject_bad_newlines (data : string) : outcome unit :=
  let remainder := remove_crlf data in
  guard (negb (char_in remainder CR || char_in remainder LF)).

(** ** Request line and headers *)
Definition _parse_request_line (data : string) : outcome (string * string * nat) :=
  match String.index 0 crlf data with
  | None => _fail
  | Some e =>
      guard (Z.of_nat e + 2 <=? MAX_REQUEST_LINE_BYTES);;
      match split_char " " (slice 0 e data) with
      | [method; target; version] =>
          guard (negb (String.eqb method "" || String.eqb target "" || String.eqb version ""));;
          guard (String.eqb version "HTTP/1.1");;
          guard (str_in method _METHODS);;
          Ret (method, target, (e + 2)%nat)
      | _ => _fail
      end
  end.

Definition printable (c : ascii) : bool := (32 <=? char_code c) && (char_code c <=? 126).
Definition ends_blank (s : string) : bool := match last_char s with Some c => is_blank c | None => false end.

Definition _parse_header_line (headers : dict string string) (line : string) : outcome (dict string string) :=
  match String.index 0 ":" line with
  | None => _fail
  | Some colon =>
      let name := slice 0 colon line in
      let value := slice_from (S colon) line in
      guard ((0 <? Z.of_nat colon) && negb (ends_blank name));;
      guard (all_chars (char_in _TOKEN) name && String.prefix " " value &&
             negb (String.prefix "  " value || String.prefix (" " +:+ String TAB "") value) && negb (ends_blank value));;
      let value := slice_from 1 value in
      guard (all_chars printable value);;
      let lowered := lower name in
      guard (negb (str_in lowered (dict_keys headers)) && str_in lowered _ALLOWED_HEADERS);;
      Ret (dict_set headers lowered value)
  end.

Definition _parse_headers (data : string) (start : nat) : outcome (dict string string * nat) :=
  match String.index start (crlf +:+ crlf) data with
  | None => _fail
  | Some e =>
      guard (Z.of_nat e + 4 - Z.of_nat start <=? MAX_HEADER_BYTES);;
      let block := slice start e data in
      let lines := if String.eqb block "" then [] else split_crlf block in
      guard (Z.of_nat (length lines) <=? _MAX_HEADER_FIELDS);;
      headers ← fold_outcome _parse_header_line [] lines;
      Ret (headers, (e + 4)%nat)
  end.

(** ** Base64 *)
Definition B64_LETTERS : string := "ABCDEFGHIJKLMNOPQRSTUVWXYZabcdefghijklmnopqrstuvwxyz0123456789".
Definition B64_STD : string := B64_LETTERS +:+ "+/".
Definition B64_URL : string := B64_LETTERS +:+ "-_".

Definition byte (z : Z) : ascii := ascii_of_nat (Z.to_nat z).
Definition sextet (alphabet : string) (z : Z) : ascii := default "A"%char (String.get (Z.to_nat z) alphabet).
Definition sextet_value (alphabet : string) (c : ascii) : option Z :=
  Z.of_nat <$> String.index 0 (String c "") alphabet.

(** Three bytes become four characters; [a / 4] is [a >> 2], and so on. *)
Fixpoint b64encode (alphabet s : string) : string :=
  let e := sextet alphabet in
  match s with
  | EmptyString => EmptyString
  | String a EmptyString => let a := char_code a in
      String (e (a / 4)) (String (e (a mod 4 * 16)) "==")
  | String a (String b EmptyString) => let a := char_code a in let b := char_code b in
      String (e (a / 4)) (String (e (a mod 4 * 16 + b / 16)) (String (e (b mod 16 * 4)) "="))
  | String a (String b (String c s')) => let a := char_code a in let b := char_code b in let c := char_code c in
      String (e (a / 4)) (String (e (a mod 4 * 16 + b / 16)) (String (e (b mod 16 * 4 + c / 64))
        (String (e (c mod 64)) (b64encode alphabet s'))))
  end.

Fixpoint b64decode (alphabet s : string) : option string :=
  match s with
  | EmptyString => Some EmptyString
  | String p (String q (String r (String t s'))) =>
      x ← sextet_value alphabet p;
      y ← sextet_value alphabet q;
      if bool_decide (t = "="%char) && String.eqb s' "" then
        if bool_decide (r = "="%char) then Some (String (byte (x * 4 + y / 16)) "")
        else z ← sextet_value alphabet r;
             Some (String (byte (x * 4 + y / 16)) (String (byte (y mod 16 * 16 + z / 4)) ""))
      else
        z ← sextet_value alphabet r;
        w ← sextet_value alphabet t;
        rest ← b64decode alphabet s';
        Some (String (byte (x * 4 + y / 16)) (String (byte (y mod 16 * 16 + z / 4))
                (String (byte (z mod 4 * 64 + w)) rest)))
  | _ => None
  end.

Fixpoint rstrip_char (c : ascii) (s : string) : string :=
  match s with
  | EmptyString => EmptyString
  | String x s' => let t := rstrip_char c s' in if bool_decide (x = c) && String.eqb t "" then "" else String x t
  end.

Definition _BASE64URL (s : string) : bool := (str_len s =? 43) && all_chars (char_in (LETTERS_DIGITS +:+ "_-")) s.

(** The user part and the password of the Basic scheme. *)
Definition basic_sentinel (authorization : string) : outcome string :=
  guard (String.prefix "Basic " authorization);;
  let encoded := slice_from 6 authorization in
  guard (negb (String.eqb encoded ""));;
  match b64decode B64_STD encoded with
  | None => _fail
  | Some decoded =>
      guard (all_chars (λ c, char_code c <? 128) decoded);;
      guard (String.eqb (b64encode B64_STD decoded) encoded && String.prefix "run:" decoded);;
      Ret (slice_from 4 decoded)
  end.

Definition _validate_sentinel (service authorization : string) : outcome string :=
  sentinel ← (if str_in service ["jira"; "confluence"] then basic_sentinel authorization
              else guard (String.prefix "Bearer " authorization);; Ret (slice_from 7 authorization));
  guard (_BASE64URL sentinel);;
  match b64decode B64_URL (sentinel +:+ "=") with
  | None => _fail
  | Some decoded =>
      guard ((str_len decoded =? 32) && String.eqb (rstrip_char "=" (b64encode B64_URL decoded)) sentinel);;
      Ret sentinel
  end.

(** ** Target *)

(** [value.partition(sep)]: before, whether [sep] occurs, after. *)
Definition partition (sep : ascii) (s : string) : string * bool * string :=
  match String.index 0 (String sep "") s with
  | Some i => (slice 0 i s, true, slice_from (S i) s)
  | None => (s, false, "")
  end.

Definition hex_value (c : ascii) : Z :=
  let n := char_code c in if n <=? 57 then n - 48 else if n <=? 70 then n - 55 else n - 87.
Definition escaped_byte (h l : ascii) : Z := hex_value h * 16 + hex_value l.

(** The [while] loop of [_decode_percent]. *)
Fixpoint decode_percent (s : string) : outcome string :=
  match s with
  | EmptyString => Ret EmptyString
  | String c s' =>
      if bool_decide (c = "%"%char) then
        match s' with
        | String h (String l s'') =>
            guard (char_in _HEX h && char_in _HEX l);;
            rest ← decode_percent s'';
            Ret (String (byte (escaped_byte h l)) rest)
        | _ => _fail
        end
      else rest ← decode_percent s'; Ret (String c rest)
  end.
Definition _decode_percent (value : string) : outcome string :=
  decoded ← decode_percent value; guard (all_chars printable decoded);; Ret decoded.

(** The [while] loop of [_parse_path]. *)
Definition escape_ok (b : Z) : bool :=
  negb (char_in _UNRESERVED (byte b)) && negb (bool_decide (b ∈ [47; 92; 46; 37])) && (32 <=? b) && (b <=? 126).
Fixpoint path_escapes (s : string) : outcome unit :=
  match s with
  | EmptyString => Ret tt
  | String c s' =>
      if bool_decide (c = "%"%char) then
        match s' with
        | String h (String l s'') =>
            guard (char_in _HEX h && char_in _HEX l);;
            guard (escape_ok (escaped_byte h l));;
            path_escapes s''
        | _ => _fail
        end
      else path_escapes s'
  end.

(** [sub in s] for a nonempty [sub]. *)
Definition contains (sub s : string) : bool := match String.index 0 sub s with Some _ => true | None => false end.

Definition _parse_path (target : string) : outcome (string * option string) :=
  let '(path, separator, query) := partition "?" target in
  guard (String.prefix "/" path && negb (contains "//" path) && all_chars printable target &&
         negb (char_in target "#") && negb (char_in target "\"));;
  guard (negb (separator && String.eqb query ""));;
  guard (negb (char_in query "?"));;
  guard (all_chars (λ c, char_in _PCHAR c || bool_decide (c = "/"%char)) path);;
  path_escapes path;;
  guard (negb (existsb (λ segment, str_in segment ["."; ".."]) (split_char "/" path)));;
  Ret (path, if separator then Some query else None).

(** [value.replace(b"+", b" ")]. *)
Fixpoint plus_to_space (s : string) : string :=
  match s with EmptyString => EmptyString
  | String c s' => String (if bool_decide (c = "+"%char) then " "%char else c) (plus_to_space s') end.

Definition query_pair (allowed : list string) (result : list (string * string)) (part : string)
    : outcome (list (string * string)) :=
  let '(key, equals, raw_value) := partition "=" part in
  guard (equals && negb (String.eqb key "") && all_chars (char_in _UNRESERVED) key);;
  guard (str_in key allowed && negb (str_in key (map fst result)));;
  value ← _decode_percent (plus_to_space raw_value);
  Ret (result ++ [(key, value)])%list.

Definition _parse_query (query : option string) (allowed_query_keys : list string) : outcome (list (string * string)) :=
  match query with
  | None => Ret []
  | Some q =>
      guard (negb (char_in q ";"));;
      let parts := split_char "&" q in
      guard ((Z.of_nat (length parts) <=? _MAX_QUERY_PAIRS) && negb (existsb (λ p, String.eqb p "") parts));;
      fold_outcome (query_pair allowed_query_keys) [] parts
  end.

(** ** Framing *)
Definition _CANONICAL_LENGTH (s : string) : bool :=
  match s with
  | EmptyString => false
  | String c s' => if bool_decide (c = "0"%char) then String.eqb s' "" else is_digit c && all_chars is_digit s'
  end.

Definition _validate_head_framing (method : string) (headers : dict string string) (service accept : string)
    : outcome (string * Z) :=
  match dict_get headers "host", dict_get headers "authorization", dict_get headers "accept" with
  | Some host, Some authorization, Some accepted =>
      match dict_get SERVICE_PROFILES service with
      | None => _fail
      | Some profile =>
          guard (String.eqb host (server_name profile +:+ ":" +:+ int_repr (sp_port profile)) && String.eqb accepted accept);;
          body_length ←
            (if String.eqb method "GET" then
               guard (bool_decide (dict_get headers "content-type" = None));;
               guard (match dict_get headers "content-length" with None => true | Some l => String.eqb l "0" end);;
               Ret 0
             else
               guard (bool_decide (dict_get headers "content-type" = Some "application/json"));;
               match dict_get headers "content-length" with
               | None => _fail
               | Some l =>
                   guard ((str_len l <=? str_len (int_repr MAX_BODY_BYTES)) && _CANONICAL_LENGTH l);;
                   guard (decimal 0 l <=? MAX_BODY_BYTES);;
                   Ret (decimal 0 l)
               end);
          sentinel ← _validate_sentinel service authorization;
          Ret (sentinel, body_length)
      end
  | _, _, _ => _fail
  end.

Definition parse_request_head (data : option string) (service : pyval) (allowed_query_keys : option (list pyval))
    (accept : pyval) : outcome ParsedRequestHead :=
  match data with
  | None => _fail
  | Some data =>
      guard (str_len data <=? MAX_REQUEST_LINE_BYTES + MAX_HEADER_BYTES);;
      '(service, keys, expected_accept) ← _validate_configuration service allowed_query_keys accept;
      '(method, target, header_start) ← _parse_request_line data;
      '(headers, body_start) ← _parse_headers data header_start;
      guard (Nat.eqb body_start (String.length data));;
      _reject_bad_newlines data;;
      '(sentinel, body_length) ← _validate_head_framing method headers service expected_accept;
      '(path, query) ← _parse_path target;
      pairs ← _parse_query query keys;
      Ret (mkParsedRequestHead service method path pairs expected_accept sentinel body_length)
  end.

Definition parse_request (data : option string) (service : pyval) (allowed_query_keys : option (list pyval))
    (accept : pyval) : outcome ParsedRequest :=
  match data with
  | None => _fail
  | Some data =>
      guard (str_len data <=? _MAX_INPUT);;
      match String.index 0 crlf data with
      | None => _fail
      | Some line_end =>
          match String.index (line_end + 2) (crlf +:+ crlf) data with
          | None => _fail
          | Some header_end =>
              let body_start := (header_end + 4)%nat in
              head ← parse_request_head (Some (slice 0 body_start data)) service allowed_query_keys accept;
              let b := slice_from body_start data in
              guard ((str_len b <=? MAX_BODY_BYTES) && (str_len b =? h_body_length head));;
              Ret (mkParsedRequest (h_service head) (h_method head) (h_path head) (h_query head) (h_accept head) b
                     (h_sentinel head))
          end
      end
  end.
