(* ===== verification/HttpRequestThm.v ===== *)
(** * Theorems about the request profile *)

From S2P Require Import Prelude PyValue PyJson Services PyBytes Supervision HttpRequest.
Local Open Scope string_scope.
Local Open Scope Z_scope.

(** ** Base64 reads back what it writes *)
Definition alphabet_ok (A : string) : Prop :=
  ∀ n, 0 ≤ n < 64 → sextet_value A (sextet A n) = Some n ∧ sextet A n ≠ "="%char ∧ char_in A (sextet A n) = true.

Lemma alphabet_check A :
  forallb (λ k, let n := Z.of_nat k in bool_decide (sextet_value A (sextet A n) = Some n) &&
    negb (bool_decide (sextet A n = "="%char)) && char_in A (sextet A n)) (seq 0 64) = true → alphabet_ok A.
Proof.
  intros H n Hn. rewrite forallb_forall in H. specialize (H (Z.to_nat n)). rewrite in_seq in H.
  specialize (H ltac:(lia)). cbn zeta in H. rewrite Z2Nat.id in H by lia. bool_simpl. done.
Qed.

Lemma std_ok : alphabet_ok B64_STD.
Proof. apply alphabet_check. vm_compute. reflexivity. Qed.

Lemma url_ok : alphabet_ok B64_URL.
Proof. apply alphabet_check. vm_compute. reflexivity. Qed.

Lemma char_code_range c : 0 ≤ char_code c < 256.
Proof. unfold char_code. pose proof (nat_ascii_bounded c). lia. Qed.

Lemma byte_char_code c : byte (char_code c) = c.
Proof. unfold byte, char_code. rewrite Nat2Z.id. apply ascii_nat_embedding. Qed.

Lemma byte_is z c : z = char_code c → byte z = c.
Proof. intros ->. apply byte_char_code. Qed.

(** Induction by groups of three. *)
Lemma three_ind (P : string → Prop) :
  P "" → (∀ a, P (String a "")) → (∀ a b, P (String a (String b ""))) →
  (∀ a b c s, P s → P (String a (String b (String c s)))) → ∀ s, P s.
Proof.
  intros H0 H1 H2 H3. fix IH 1. intros [|a [|b [|c s]]]; [exact H0|apply H1|apply H2|apply H3, IH].
Qed.

Section base64.
Context (A : string) (HA : alphabet_ok A).

Lemma sextet_back n : 0 ≤ n < 64 → sextet_value A (sextet A n) = Some n.
Proof. intros. by apply HA. Qed.

Lemma sextet_no_pad n : 0 ≤ n < 64 → bool_decide (sextet A n = "="%char) = false.
Proof. intros. by apply bool_decide_eq_false, HA. Qed.

Lemma decode_encode s : b64decode A (b64encode A s) = Some s.
Proof.
  induction s as [|a|a b|a b c s IH] using three_ind; [done| | |]; cbn [b64encode b64decode];
    repeat match goal with c : ascii |- _ =>
      lazymatch goal with _ : 0 ≤ char_code c < 256 |- _ => fail | _ => pose proof (char_code_range c) end end.
  - rewrite !sextet_back by (Z.to_euclidean_division_equations; lia). cbn [mbind option_bind].
    apply (f_equal Some), f_equal2; [|done]. apply byte_is. Z.to_euclidean_division_equations; lia.
  - rewrite !sextet_back by (Z.to_euclidean_division_equations; lia).
    rewrite sextet_no_pad by (Z.to_euclidean_division_equations; lia). cbn [mbind option_bind].
    apply (f_equal Some), f_equal2; [|apply f_equal2; [|done]]; apply byte_is; Z.to_euclidean_division_equations; lia.
  - rewrite !sextet_back by (Z.to_euclidean_division_equations; lia).
    rewrite sextet_no_pad by (Z.to_euclidean_division_equations; lia). cbn [andb mbind option_bind]. rewrite IH. cbn [option_bind].
    apply (f_equal Some), f_equal2; [|apply f_equal2; [|apply f_equal2; [|done]]]; apply byte_is;
      Z.to_euclidean_division_equations; lia.
Qed.

(** A text of two bytes more than a multiple of three is padded with one sign. *)
Lemma encode_padded s k :
  String.length s = (3 * k + 2)%nat →
  ∃ t, b64encode A s = t +:+ "=" ∧ all_chars (char_in A) t = true ∧ lacks "=" t = true ∧
       String.length t = (4 * k + 3)%nat.
Proof.
  assert (Hs : ∀ n, 0 ≤ n < 64 → char_in A (sextet A n) = true ∧ negb (bool_decide (sextet A n = "="%char)) = true).
  { intros n Hn. rewrite sextet_no_pad by done. split; [by apply HA|done]. }
  revert k. induction s as [|a|a b|a b c s IH] using three_ind; intros k Hk; cbn [String.length] in Hk; try lia.
  - assert (k = 0%nat) as -> by lia. cbn [b64encode]. pose proof (char_code_range a). pose proof (char_code_range b).
    set (x := char_code a) in *. set (y := char_code b) in *.
    exists (String (sextet A (x / 4)) (String (sextet A (x mod 4 * 16 + y / 16)) (String (sextet A (y mod 16 * 4)) ""))).
    split; [reflexivity|]. unfold lacks. cbn [all_chars String.length].
    destruct (Hs (x / 4)) as [-> ->]; [Z.to_euclidean_division_equations; lia|].
    destruct (Hs (x mod 4 * 16 + y / 16)) as [-> ->]; [Z.to_euclidean_division_equations; lia|].
    destruct (Hs (y mod 16 * 4)) as [-> ->]; [Z.to_euclidean_division_equations; lia|]. done.
  - destruct k as [|k]; [lia|]. destruct (IH k ltac:(lia)) as (t & Ht & Hin & Hno & Hlen). cbn [b64encode]. rewrite Ht.
    pose proof (char_code_range a). pose proof (char_code_range b). pose proof (char_code_range c).
    set (x := char_code a) in *. set (y := char_code b) in *. set (z := char_code c) in *.
    exists (String (sextet A (x / 4)) (String (sextet A (x mod 4 * 16 + y / 16)) (String (sextet A (y mod 16 * 4 + z / 64))
      (String (sextet A (z mod 64)) t)))).
    split; [reflexivity|]. unfold lacks in *. cbn [all_chars String.length]. rewrite Hin, Hno, Hlen.
    destruct (Hs (x / 4)) as [-> ->]; [Z.to_euclidean_division_equations; lia|].
    destruct (Hs (x mod 4 * 16 + y / 16)) as [-> ->]; [Z.to_euclidean_division_equations; lia|].
    destruct (Hs (y mod 16 * 4 + z / 64)) as [-> ->]; [Z.to_euclidean_division_equations; lia|].
    destruct (Hs (z mod 64)) as [-> ->]; [Z.to_euclidean_division_equations; lia|]. cbn. split_and!; [done..|lia].
Qed.
End base64.

(** ** Credentials *)
Lemma rstrip_char_last c t : lacks c t = true → rstrip_char c (t +:+ String c "") = t.
Proof.
  induction t as [|x t IH]; cbn [lacks all_chars]; [intros _; change (rstrip_char c (String c "") = ""); cbn [rstrip_char]; by rewrite bool_decide_true|].
  intros [Hx Ht]%andb_true_iff. rewrite app_cons. cbn [rstrip_char]. bool_simpl. unfold lacks in IH. rewrite IH by done.
  by rewrite bool_decide_false.
Qed.

(** The token of a 32-byte key, and the header that carries a token. *)
Definition token_of (key : string) : string := rstrip_char "=" (b64encode B64_URL key).
Definition authorization_for (service sentinel : string) : string :=
  if str_in service ["jira"; "confluence"] then "Basic " +:+ b64encode B64_STD ("run:" +:+ sentinel)
  else "Bearer " +:+ sentinel.

Lemma token_spec key :
  str_len key = 32 →
  b64encode B64_URL key = token_of key +:+ "=" ∧ _BASE64URL (token_of key) = true.
Proof.
  intros Hk. destruct (encode_padded B64_URL url_ok key 10) as (t & Ht & Hin & Hno & Hlen); [unfold str_len in Hk; lia|].
  assert (token_of key = t) as -> by (unfold token_of; rewrite Ht; by apply rstrip_char_last). split; [done|].
  unfold _BASE64URL. apply andb_true_iff. split; [unfold str_len; rewrite Hlen; done|]. revert Hin. apply all_chars_impl.
  intros c Hc. by apply (char_in_all _ _ _ Hc).
Qed.

Lemma outcome_guard {B} (b : bool) (k : unit → outcome B) r : (guard b ≫= k) = Ret r ↔ b = true ∧ k tt = Ret r.
Proof. unfold guard, check_that. destruct b; cbn; naive_solver. Qed.

Lemma basic_sentinel_iff authorization s :
  all_chars (λ c, char_code c <? 128) s = true →
  basic_sentinel authorization = Ret s ↔ authorization = "Basic " +:+ b64encode B64_STD ("run:" +:+ s).
Proof.
  intros Hs. unfold basic_sentinel. split.
  - rewrite outcome_guard. intros [Hp H]. rewrite outcome_guard in H. destruct H as [_ H].
    destruct (b64decode B64_STD (slice_from 6 authorization)) as [d|] eqn:Ed; [|done].
    rewrite !outcome_guard in H. destruct H as (_ & [He Hr]%andb_true_iff & [= <-]).
    rewrite (prefix_split _ _ Hp). f_equal. apply String.eqb_eq in He. cbn [String.length].
    rewrite <-He. f_equal. exact (prefix_split "run:" d Hr).
  - intros ->. rewrite outcome_guard, prefix_app. split; [done|].
    change 6%nat with (String.length "Basic "). rewrite slice_from_app, (decode_encode _ std_ok), !outcome_guard.
    split_and!.
    + apply negb_true_iff, String.eqb_neq. intros E. apply (f_equal (b64decode B64_STD)) in E.
      by rewrite (decode_encode _ std_ok) in E.
    + by rewrite all_chars_app, Hs.
    + by rewrite String.eqb_refl, prefix_app.
    + change 4%nat with (String.length "run:"). by rewrite slice_from_app.
Qed.

(** Credentials are canonical.  [_validate_sentinel] accepts an
    authorization header with token [s] exactly when [s] is the base64url text of
    some 32 bytes and the header is the one canonical header of the service's
    scheme for it: no token has two accepted spellings, and every well-formed one
    is accepted. *)
Theorem sentinel_header_is_canonical service authorization s :
  _validate_sentinel service authorization = Ret s ↔
  ∃ key, str_len key = 32 ∧ s = token_of key ∧ authorization = authorization_for service s.
Proof.
  assert (Hascii : ∀ t, _BASE64URL t = true → all_chars (λ c, char_code c <? 128) t = true).
  { intros t [_ Ht]%andb_true_iff. revert Ht. apply all_chars_impl. intros c Hc. by apply (char_in_all (λ c, char_code c <? 128) _ _ Hc). }
  unfold _validate_sentinel. split.
  - intros H. apply outcome_bind_ret_inv in H as (t & Hsrc & H). rewrite outcome_guard in H. destruct H as [Hb H].
    destruct (b64decode B64_URL (t +:+ "=")) as [key|] eqn:Ek; [|done].
    rewrite outcome_guard in H. destruct H as [[Hlen He]%andb_true_iff [= ->]].
    exists key. apply Z.eqb_eq in Hlen. apply String.eqb_eq in He. split_and!; [done|done|]. unfold authorization_for.
    destruct (str_in service ["jira"; "confluence"]).
    + apply basic_sentinel_iff; auto.
    + rewrite outcome_guard in Hsrc. destruct Hsrc as [Hp [= <-]]. exact (prefix_split "Bearer " _ Hp).
  - intros (key & Hlen & -> & ->). destruct (token_spec key Hlen) as [Henc Hb].
    assert (Hsrc : (if str_in service ["jira"; "confluence"] then basic_sentinel (authorization_for service (token_of key))
                    else guard (String.prefix "Bearer " (authorization_for service (token_of key)));;
                         Ret (slice_from 7 (authorization_for service (token_of key)))) = Ret (token_of key)).
    { unfold authorization_for. destruct (str_in service ["jira"; "confluence"]).
      - apply basic_sentinel_iff; auto.
      - rewrite outcome_guard, prefix_app. split; [done|]. f_equal. apply (slice_from_app "Bearer "). }
    rewrite Hsrc. cbn [mbind outcome_bind]. rewrite outcome_guard. split; [done|].
    rewrite <-Henc, (decode_encode _ url_ok), outcome_guard. split; [|done].
    apply andb_true_iff. split; [by apply Z.eqb_eq|]. apply String.eqb_refl.
Qed.

(** ** Paths *)
Lemma char_code_byte z : 0 ≤ z < 256 → char_code (byte z) = z.
Proof. intros Hz. unfold char_code, byte. rewrite nat_ascii_embedding by lia. lia. Qed.

Lemma split_char_nonempty sep s : ∃ p rest, split_char sep s = p :: rest.
Proof.
  induction s as [|c s (p & rest & IH)]; cbn; [eauto|]. rewrite IH. case_bool_decide; eauto.
Qed.

Lemma split_char_cons sep c s p rest :
  c ≠ sep → split_char sep s = p :: rest → split_char sep (String c s) = String c p :: rest.
Proof. intros Hc H. cbn [split_char]. by rewrite H, bool_decide_false. Qed.

Lemma split_char_sep sep s : split_char sep (String sep s) = "" :: split_char sep s.
Proof. cbn [split_char]. destruct (split_char_nonempty sep s) as (p & rest & ->). by rewrite bool_decide_true. Qed.

Lemma escape_inv h l :
  escape_ok (escaped_byte h l) = true →
  char_code (byte (escaped_byte h l)) = escaped_byte h l ∧ printable (byte (escaped_byte h l)) = true ∧
  byte (escaped_byte h l) ≠ "/"%char ∧ byte (escaped_byte h l) ≠ "."%char ∧
  byte (escaped_byte h l) ≠ "%"%char ∧ byte (escaped_byte h l) ≠ "\"%char.
Proof.
  unfold escape_ok. intros H. bool_simpl. pose proof (char_code_byte (escaped_byte h l) ltac:(lia)) as Hc.
  split; [done|]. split; [unfold printable; rewrite Hc; apply andb_true_iff; split; by apply Z.leb_le|].
  match goal with X : escaped_byte h l ∉ _ |- _ => rename X into Hn end. rewrite !elem_of_cons in Hn.
  split_and!; intros E; rewrite E in Hc; apply Hn; rewrite <-Hc; vm_compute; tauto.
Qed.

(** What an accepted path decodes to. *)
Definition decodes (a b : string) : Prop := path_escapes a = Ret tt ∧ decode_percent a = Ret b.

Lemma decodes_plain c a b : c ≠ "%"%char → decodes a b → decodes (String c a) (String c b).
Proof. intros Hc [H1 H2]. split; cbn; rewrite bool_decide_false by done; [done|]. by rewrite H2. Qed.

Lemma decodes_escape h l a b :
  (char_in _HEX h && char_in _HEX l) = true → escape_ok (escaped_byte h l) = true → decodes a b →
  decodes (String "%" (String h (String l a))) (String (byte (escaped_byte h l)) b).
Proof.
  intros Hh He [H1 H2]. split; cbn [path_escapes decode_percent]; rewrite bool_decide_true by done; unfold guard;
    rewrite Hh; cbn [check_that mbind outcome_bind]; [by rewrite He|by rewrite H2].
Qed.

(** The three shapes of an accepted path. *)
Lemma path_escapes_ind (P : string → string → Prop) :
  P "" "" →
  (∀ c a b, c ≠ "%"%char → decodes a b → P a b → P (String c a) (String c b)) →
  (∀ h l a b, (char_in _HEX h && char_in _HEX l) = true → escape_ok (escaped_byte h l) = true → decodes a b → P a b →
     P (String "%" (String h (String l a))) (String (byte (escaped_byte h l)) b)) →
  ∀ s, path_escapes s = Ret tt → ∃ d, decodes s d ∧ P s d.
Proof.
  intros H0 H1 H2 s. remember (String.length s) as n eqn:Hn. revert s Hn.
  induction (lt_wf n) as [n _ IH]. intros [|c s] -> H; [by exists ""|]. cbn [path_escapes] in H.
  case_bool_decide as Hc.
  - destruct s as [|h [|l s]]; try done. rewrite !outcome_guard in H. destruct H as (Hh & He & H). subst c.
    destruct (IH (String.length s)) with (s := s) as (d & Hd & HP); [cbn; lia|done|done|].
    eexists. split; [by apply decodes_escape|]. by apply H2.
  - destruct (IH (String.length s)) with (s := s) as (d & Hd & HP); [cbn; lia|done|done|].
    eexists. split; [by apply decodes_plain|]. by apply H1.
Qed.

Lemma hex_not_slash h l : (char_in _HEX h && char_in _HEX l) = true → h ≠ "/"%char ∧ l ≠ "/"%char.
Proof. intros [Hh Hl]%andb_true_iff. split; intros ->; vm_compute in Hh, Hl; done. Qed.

Lemma decodes_segments s :
  path_escapes s = Ret tt → ∃ d, decodes s d ∧ Forall2 decodes (split_char "/" s) (split_char "/" d).
Proof.
  revert s. apply path_escapes_ind; [by repeat constructor| |].
  - intros c a b Hc _ HF. destruct (decide (c = "/"%char)) as [->|Hs].
    + rewrite !split_char_sep. by constructor.
    + destruct (split_char_nonempty "/" a) as (p & r & Ha), (split_char_nonempty "/" b) as (q & t & Hb).
      rewrite (split_char_cons _ _ _ _ _ Hs Ha), (split_char_cons _ _ _ _ _ Hs Hb). rewrite Ha, Hb in HF.
      apply Forall2_cons in HF as [Hpq Hrt]. constructor; [by apply decodes_plain|done].
  - intros h l a b Hh He _ HF. destruct (hex_not_slash h l Hh). destruct (escape_inv h l He) as (_ & _ & Hs & _).
    destruct (split_char_nonempty "/" a) as (p & r & Ha), (split_char_nonempty "/" b) as (q & t & Hb).
    rewrite (split_char_cons "/" "%" _ (String h (String l p)) r) by (done || by repeat apply split_char_cons).
    rewrite (split_char_cons _ _ _ _ _ Hs Hb). rewrite Ha, Hb in HF.
    apply Forall2_cons in HF as [Hpq Hrt]. constructor; [by apply decodes_escape|done].
Qed.

(** Dots are never escaped, and what is decoded has no escape left. *)
Lemma decodes_dots s d : decodes s d → all_chars (λ c, bool_decide (c = "."%char)) d = true → s = d.
Proof.
  intros [H Hd]. revert d Hd. cut (∃ d, decodes s d ∧ (all_chars (λ c, bool_decide (c = "."%char)) d = true → s = d)).
  { intros (d & [_ Hd] & HP) d' Hd'. rewrite Hd in Hd'. by injection Hd' as <-. }
  revert H. revert s. apply path_escapes_ind; [done| |].
  - intros c a b _ _ IH. cbn. intros [_ Hb]%andb_true_iff. by rewrite IH.
  - intros h l a b _ He _ _. cbn [all_chars]. intros [Hb _]%andb_true_iff. bool_simpl. by apply escape_inv in He as (_ & _ & _ & He & _).
Qed.

Lemma decodes_clean s :
  path_escapes s = Ret tt → all_chars printable s = true → lacks "\" s = true →
  ∃ d, decodes s d ∧ lacks "%" d = true ∧ lacks "\" d = true ∧ all_chars printable d = true.
Proof.
  intros H. cut (∃ d, decodes s d ∧ (all_chars printable s = true → lacks "\" s = true →
    lacks "%" d = true ∧ lacks "\" d = true ∧ all_chars printable d = true)).
  { intros (d & ? & HP) ? ?. exists d. split; [done|]. by apply HP. }
  revert H. revert s. apply path_escapes_ind; [done| |]; unfold lacks; cbn [all_chars].
  - intros c a b Hc _ IH. intros [Hp Ha]%andb_true_iff [Hs Hl]%andb_true_iff. destruct (IH Ha Hl) as (-> & -> & ->).
    rewrite Hp, Hs, bool_decide_false by done. done.
  - intros h l a b Hh He _ IH Hp Hl. apply escape_inv in He as (_ & Hpb & _ & _ & H1 & H2).
    destruct IH as (-> & -> & ->).
    + by apply andb_true_iff in Hp as [_ [_ [_ ?]%andb_true_iff]%andb_true_iff].
    + by apply andb_true_iff in Hl as [_ [_ [_ ?]%andb_true_iff]%andb_true_iff].
    + rewrite Hpb, !bool_decide_false by done. done.
Qed.

Lemma decode_unescaped d : lacks "%" d = true → decode_percent d = Ret d.
Proof.
  induction d as [|c d IH]; [done|]. unfold lacks in *. cbn. intros [Hc Hd]%andb_true_iff. bool_simpl.
  rewrite bool_decide_false by done. by rewrite IH.
Qed.

Lemma Forall2_elem {A B} (R : A → B → Prop) l k b : Forall2 R l k → b ∈ k → ∃ a, a ∈ l ∧ R a b.
Proof.
  induction 1 as [|x y l k Hxy _ IH]; [by intros ?%elem_of_nil|]. intros [->|Hb]%elem_of_cons.
  - exists x. split; [by apply elem_of_cons; left|done].
  - destruct (IH Hb) as (a & ? & ?). exists a. split; [by apply elem_of_cons; right|done].
Qed.

Lemma partition_app sep s p b q : partition sep s = (p, b, q) → ∃ t, s = p +:+ t.
Proof.
  unfold partition. destruct (String.index 0 _ s) as [i|]; intros [= <- <- <-].
  - exists (slice_from i s). apply slice_split.
  - exists "". by rewrite app_nil_str.
Qed.

Lemma parse_path_ret target p q :
  _parse_path target = Ret (p, q) →
  String.prefix "/" p = true ∧ path_escapes p = Ret tt ∧ all_chars printable p = true ∧ lacks "\" p = true ∧
  ∀ seg, seg ∈ split_char "/" p → seg ≠ "." ∧ seg ≠ "..".
Proof.
  unfold _parse_path. destruct (partition "?" target) as [[p' b] q'] eqn:Ep. rewrite !outcome_guard.
  intros (H1 & _ & _ & _ & H). apply outcome_bind_ret_inv in H as ([] & He & H). rewrite outcome_guard in H.
  destruct H as [Hseg [= <- _]]. destruct (partition_app _ _ _ _ _ Ep) as [t ->].
  rewrite !char_in_false, !all_chars_app in H1.
  bool_simpl. split_and!; try done.
  intros seg Hin. apply not_true_iff_false in Hseg. rewrite existsb_exists in Hseg.
  split; intros ->; apply Hseg; eexists; (split; [by apply list_elem_of_In|done]).
Qed.

Lemma parse_request_path data service keys accept r :
  parse_request data service keys accept = Ret r → ∃ target, ∃ q, _parse_path target = Ret (path r, q).
Proof.
  unfold parse_request. destruct data as [data|]; [|done]. rewrite outcome_guard. intros [_ H].
  destruct (String.index 0 crlf data); [|done]. destruct (String.index _ _ data); [|done].
  apply outcome_bind_ret_inv in H as (head & Hh & H). rewrite outcome_guard in H. destruct H as [_ [= <-]]. cbn [path].
  unfold parse_request_head in Hh. rewrite outcome_guard in Hh. destruct Hh as [_ Hh].
  apply outcome_bind_ret_inv in Hh as ([[svc ks] acc] & _ & Hh).
  apply outcome_bind_ret_inv in Hh as ([[m t] st] & _ & Hh). apply outcome_bind_ret_inv in Hh as ([hs bs] & _ & Hh).
  rewrite outcome_guard in Hh. destruct Hh as [_ Hh]. apply outcome_bind_ret_inv in Hh as ([] & _ & Hh).
  apply outcome_bind_ret_inv in Hh as ([sn bl] & _ & Hh). apply outcome_bind_ret_inv in Hh as ([p q] & Hp & Hh).
  apply outcome_bind_ret_inv in Hh as (pairs & _ & [= <-]). exists t, q. exact Hp.
Qed.

(** C32: an accepted request cannot traverse.  The path starts with a slash, its
    escapes can be decoded, decoding changes neither the number of segments nor
    introduces a dot segment, a backslash, an unprintable byte or another escape
    (so decoding twice is decoding once): an upstream that decodes it sees the
    segments that were checked. *)
Theorem accepted_path_cannot_traverse data service keys accept r :
  parse_request data service keys accept = Ret r →
  ∃ d, decode_percent (path r) = Ret d ∧ decode_percent d = Ret d ∧ String.prefix "/" (path r) = true ∧
    Forall2 (λ a b, decode_percent a = Ret b) (split_char "/" (path r)) (split_char "/" d) ∧
    "." ∉ split_char "/" d ∧ ".." ∉ split_char "/" d ∧ lacks "\" d = true ∧ all_chars printable d = true.
Proof.
  intros (target & q & Hp)%parse_request_path.
  destruct (parse_path_ret _ _ _ Hp) as (H1 & H2 & H3 & H4 & H5).
  destruct (decodes_segments _ H2) as (d & [_ Hd] & HF).
  destruct (decodes_clean _ H2 H3 H4) as (d' & [_ Hd'] & Hno & Hb & Hpr). rewrite Hd in Hd'. injection Hd' as <-.
  exists d. split_and!; try done.
  - by apply decode_unescaped.
  - eapply Forall2_impl; [exact HF|]. by intros a b [_ ?].
  - intros (a & Ha & Hda)%(Forall2_elem _ _ _ _ HF). apply decodes_dots in Hda as ->; [|done]. by destruct (H5 _ Ha).
  - intros (a & Ha & Hda)%(Forall2_elem _ _ _ _ HF). apply decodes_dots in Hda as ->; [|done]. by destruct (H5 _ Ha).
Qed.

Local Notation demo_line := ("GET /rest/api/3/issue/A%20B?fields=a HTTP/1.1" +:+ crlf).
Definition demo_request : string :=
  demo_line +:+ "Host: forwarder-grafana.maoi.local:17443" +:+ crlf +:+ "Accept: application/json" +:+ crlf +:+
  "Authorization: Bearer " +:+ token_of "0123456789abcdef0123456789abcdef" +:+ crlf +:+ crlf.
Local Notation demo_parsed :=
  (parse_request (Some demo_request) (VStr "grafana") (Some [VStr "fields"]) (VStr "application/json")).

Lemma accepted_path_cannot_traverse_witness :
  ∃ r d, demo_parsed = Ret r ∧ path r = "/rest/api/3/issue/A%20B" ∧ decode_percent (path r) = Ret d ∧
         "." ∉ split_char "/" d.
Proof.
  destruct demo_parsed as [r|e] eqn:E; [|vm_compute in E; discriminate E].
  destruct (accepted_path_cannot_traverse _ _ _ _ _ E) as (d & Hd & _ & _ & _ & Hdot & _).
  exists r, d. split_and!; [reflexivity| |exact Hd|exact Hdot]. vm_compute in E. injection E as <-. reflexivity.
Defined.
