(* ===== verification/JsonParse.v ===== *)
(** * Strict JSON parsing (forwarder_json.py, [parse_json])

    Text is a list of code points, because [json.loads] sees every code point
    and [_postwalk] rejects surrogates.  [json.loads] itself belongs to the
    standard library; it is modelled as documented for [strict=True] with the
    four hooks the code passes: a recursive descent over the text that raises
    the first error it meets.  Its recursion is bounded by fuel;
    [JsonParseThm] shows that the fuel given always suffices. *)

From S2P Require Import Prelude PyValue PyJson Sha256 CanonJson.
Local Open Scope string_scope.
Local Open Scope Z_scope.

Definition MAX_JSON_NUMBER_CHARS : Z := 32.
Definition MAX_JSON_DOCUMENT_BYTES : Z := 1048576.

(** A [str] as its code points. *)
Definition text : Type := list Z.
Definition codes (s : string) : text := map ord (String.list_ascii_of_string s).

(** The values the parser builds.  [json.loads] makes lists where [_postwalk]
    makes tuples; both are [PList].  A dict keeps the order of its members. *)
Inductive pvalue :=
| PNone
| PBool (b : bool)
| PInt (z : Z)
| PDecimal (lexeme : text)
| PStr (s : text)
| PList (l : list pvalue)
| PDict (m : list (text * pvalue)).

(** ** UTF-8 *)
Definition continuation (b : Z) : bool := (128 <=? b) && (b <=? 191).

(** [data.decode("utf-8", "strict")]; [None] is [UnicodeDecodeError]. *)
Fixpoint utf8_decode (bytes : list Z) : option text :=
  match bytes with
  | [] => Some []
  | a :: t1 =>
      if a <? 128 then cons a <$> utf8_decode t1
      else match t1 with
      | b :: t2 =>
          if (194 <=? a) && (a <=? 223) && continuation b then cons ((a - 192) * 64 + (b - 128)) <$> utf8_decode t2
          else match t2 with
          | c :: t3 =>
              let p3 := (a - 224) * 4096 + (b - 128) * 64 + (c - 128) in
              if (224 <=? a) && (a <=? 239) && continuation b && continuation c && (2048 <=? p3) &&
                 negb ((55296 <=? p3) && (p3 <=? 57343))
              then cons p3 <$> utf8_decode t3
              else match t3 with
              | d :: t4 =>
                  let p4 := (a - 240) * 262144 + (b - 128) * 4096 + (c - 128) * 64 + (d - 128) in
                  if (240 <=? a) && (a <=? 244) && continuation b && continuation c && continuation d &&
                     (65536 <=? p4) && (p4 <=? 1114111)
                  then cons p4 <$> utf8_decode t4 else None
              | [] => None
              end
          | [] => None
          end
      | [] => None
      end
  end.

(** [len(value.encode("utf-8"))]. *)
Definition utf8_width (c : Z) : Z := if c <? 128 then 1 else if c <? 2048 then 2 else if c <? 65536 then 3 else 4.
Definition text_bytes (s : text) : Z := foldr (λ c acc, utf8_width c + acc) 0 s.

Definition is_surrogate (c : Z) : bool := (55296 <=? c) && (c <=? 57343).

(** [_check_string] on a decoded string or key. *)
Definition check_text (value : text) (ascii_only : bool) (max_bytes : Z) : outcome unit :=
  check_that (negb (existsb (λ c, (c =? 0) || is_surrogate c) value)) (JSONPolicyError "json_unicode");;
  check_that (negb ascii_only || forallb (λ c, (32 <=? c) && (c <=? 126)) value) (JSONPolicyError "json_unicode");;
  check_that (text_bytes value <=? max_bytes) (JSONPolicyError "json_string_too_long").

(** ** The depth prescan *)
Fixpoint prescan (t : text) (depth : Z) (in_string : bool) : outcome unit :=
  match t with
  | [] => Ret tt
  | c :: t' =>
      if in_string then
        if c =? 92 then match t' with [] => Ret tt | _ :: t'' => prescan t'' depth true end
        else prescan t' depth (negb (c =? 34))
      else if c =? 34 then prescan t' depth true
      else if (c =? 91) || (c =? 123) then
        check_that (depth + 1 <=? MAX_JSON_DEPTH) (JSONPolicyError "json_depth");; prescan t' (depth + 1) false
      else if (c =? 93) || (c =? 125) then prescan t' (depth - 1) false
      else prescan t' depth false
  end.
Definition _prescan_depth (t : text) : outcome unit := prescan t 0 false.

(** ** Scanning *)
Definition syntax {A} : outcome A := Raise (JSONPolicyError "json_syntax").
Definition out_of_fuel {A} : outcome A := Raise (Exn "fuel" "fuel").

Definition is_ws (c : Z) : bool := (c =? 32) || (c =? 9) || (c =? 10) || (c =? 13).
Fixpoint skip_ws (t : text) : text := match t with c :: t' => if is_ws c then skip_ws t' else t | [] => [] end.

Definition digit (c : Z) : bool := (48 <=? c) && (c <=? 57).
Fixpoint digits (t : text) : text * text :=
  match t with
  | c :: t' => if digit c then let '(d, r) := digits t' in (c :: d, r) else ([], t)
  | [] => ([], [])
  end.
Definition number_value (d : text) : Z := foldl (λ acc c, acc * 10 + (c - 48)) 0 d.

Definition hex4 (c : Z) : option Z :=
  if digit c then Some (c - 48)
  else if (97 <=? c) && (c <=? 102) then Some (c - 87)
  else if (65 <=? c) && (c <=? 70) then Some (c - 55) else None.

(** Four hexadecimal digits and the text after them. *)
Definition hex_escape (t : text) : option (Z * text) :=
  match t with
  | a :: b :: c :: d :: t' =>
      a ← hex4 a; b ← hex4 b; c ← hex4 c; d ← hex4 d; Some (a * 4096 + b * 256 + c * 16 + d, t')
  | _ => None
  end.

(** The character a one-letter escape stands for. *)
Definition simple_escape (c : Z) : option Z :=
  if c =? 34 then Some 34 else if c =? 92 then Some 92 else if c =? 47 then Some 47
  else if c =? 98 then Some 8 else if c =? 102 then Some 12 else if c =? 110 then Some 10
  else if c =? 114 then Some 13 else if c =? 116 then Some 9 else None.

(** The rest of a string after its opening quote.  A high surrogate escape
    followed by a low one is one code point. *)
Fixpoint scan_string (fuel : nat) (t : text) : outcome (text * text) :=
  match fuel with
  | O => out_of_fuel
  | S fuel =>
      match t with
      | [] => syntax
      | c :: t' =>
          if c =? 34 then Ret ([], t')
          else if c <=? 31 then syntax
          else if negb (c =? 92) then '(s, r) ← scan_string fuel t'; Ret (c :: s, r)
          else match t' with
          | [] => syntax
          | e :: t'' =>
              if e =? 117 then
                match hex_escape t'' with
                | None => syntax
                | Some (hi, r1) =>
                    let single := '(s, r) ← scan_string fuel r1; Ret (hi :: s, r) in
                    if (55296 <=? hi) && (hi <=? 56319) then
                      match r1 with
                      | 92 :: 117 :: r2 =>
                          match hex_escape r2 with
                          | None => syntax
                          | Some (lo, r3) =>
                              if (56320 <=? lo) && (lo <=? 57343) then
                                '(s, r) ← scan_string fuel r3;
                                Ret ((65536 + (hi - 55296) * 1024 + (lo - 56320)) :: s, r)
                              else single
                          end
                      | _ => single
                      end
                    else single
                end
              else match simple_escape e with
              | None => syntax
              | Some x => '(s, r) ← scan_string fuel t''; Ret (x :: s, r)
              end
          end
      end
  end.

(** ** Numbers *)

(** [math.isfinite(float(lexeme))] for the digits [m * 10 ** e]: rounding to
    nearest overflows from half an ulp above the largest float on. *)
Definition decimal_finite (m e : Z) : bool :=
  (m =? 0) || (e <=? 0) || ((e <=? 400) && (m * 10 ^ e <? 2 ^ 1024 - 2 ^ 970)).

Definition parse_int (lexeme : text) (negative : bool) (d : text) : outcome pvalue :=
  check_that (Z.of_nat (length lexeme) <=? MAX_JSON_NUMBER_CHARS) (JSONPolicyError "json_number");;
  let value := if negative then - number_value d else number_value d in
  check_that (Z.abs value <=? MAX_SAFE_INTEGER) (JSONPolicyError "json_number");;
  Ret (PInt value).

Definition parse_float (finite_mode : bool) (lexeme : text) (m e : Z) : outcome pvalue :=
  check_that (finite_mode && (Z.of_nat (length lexeme) <=? MAX_JSON_NUMBER_CHARS)) (JSONPolicyError "json_number");;
  check_that (decimal_finite m e) (JSONPolicyError "json_number");;
  Ret (PDecimal lexeme).

(** The integer part: [0], or digits that do not start with [0]. *)
Definition int_part (t : text) : option (text * text) :=
  match t with
  | 48 :: t' => Some ([48], t')
  | c :: _ => if digit c then Some (digits t) else None
  | [] => None
  end.
(** [(\.[0-9]+)?] *)
Definition frac_part (t : text) : text * text :=
  match t with
  | 46 :: t' => match digits t' with ([], _) => ([], t) | (d, r) => (d, r) end
  | _ => ([], t)
  end.
(** [([eE][-+]?[0-9]+)?]: the text of the exponent, its value and the rest. *)
Definition exp_part (t : text) : text * Z * text :=
  match t with
  | e :: t' =>
      if (e =? 101) || (e =? 69) then
        let '(sign, body) := match t' with
          | s :: b => if (s =? 43) || (s =? 45) then ([s], b) else ([], t')
          | [] => ([], []) end in
        match digits body with
        | ([], _) => ([], 0, t)
        | (d, r) => (e :: sign ++ d, (if bool_decide (sign = [45]) then - number_value d else number_value d), r)%list
        end
      else ([], 0, t)
  | [] => ([], 0, [])
  end.

(** An optional minus sign. *)
Definition split_sign (t : text) : text * text := match t with 45 :: b => ([45], b) | _ => ([], t) end.

Definition scan_number (finite_mode : bool) (t : text) : outcome (pvalue * text) :=
  let '(sign, body) := split_sign t in
  match int_part body with
  | None => syntax
  | Some (ip, r1) =>
      let '(fp, r2) := frac_part r1 in
      let '(ep, e, r3) := exp_part r2 in
      match fp, ep with
      | [], [] => v ← parse_int (sign ++ ip)%list (bool_decide (sign = [45])) ip; Ret (v, r1)
      | _, _ =>
          let dot := match fp with [] => [] | _ => 46 :: fp end in
          v ← parse_float finite_mode (sign ++ ip ++ dot ++ ep)%list (number_value (ip ++ fp)%list)
                (e - Z.of_nat (length fp));
          Ret (v, r3)
      end
  end.

(** ** Values *)
Definition starts (word : string) (t : text) : bool := bool_decide (take (String.length word) t = codes word).
Definition after (word : string) (t : text) : text := drop (String.length word) t.

(** [object_pairs_hook]. *)
Definition object_pairs_hook (pairs : list (text * pvalue)) : outcome pvalue :=
  check_that (bool_decide (NoDup pairs.*1)) (JSONPolicyError "json_duplicate_key");; Ret (PDict pairs).

Section scan.
Context (finite_mode : bool).

(** [scan_once], the members of an object after [{] or [,], and the elements of
    an array after [[] or [,]. *)
Fixpoint scan_once (fuel : nat) (t : text) : outcome (pvalue * text) :=
  match fuel with
  | O => out_of_fuel
  | S fuel =>
      match t with
      | [] => syntax
      | c :: t' =>
          if c =? 34 then '(s, r) ← scan_string (S (length t')) t'; Ret (PStr s, r)
          else if c =? 123 then
            match skip_ws t' with
            | 125 :: r => v ← object_pairs_hook []; Ret (v, r)
            | t1 => '(m, r) ← scan_members fuel t1; v ← object_pairs_hook m; Ret (v, r)
            end
          else if c =? 91 then
            match skip_ws t' with
            | 93 :: r => Ret (PList [], r)
            | t1 => '(l, r) ← scan_elements fuel t1; Ret (PList l, r)
            end
          else if starts "null" t then Ret (PNone, after "null" t)
          else if starts "true" t then Ret (PBool true, after "true" t)
          else if starts "false" t then Ret (PBool false, after "false" t)
          else if starts "NaN" t || starts "Infinity" t || starts "-Infinity" t
          then Raise (JSONPolicyError "json_number")
          else scan_number finite_mode t
      end
  end
with scan_members (fuel : nat) (t : text) : outcome (list (text * pvalue) * text) :=
  match fuel with
  | O => out_of_fuel
  | S fuel =>
      match t with
      | 34 :: t' =>
          '(key, r) ← scan_string (S (length t')) t';
          match skip_ws r with
          | 58 :: r1 =>
              '(v, r2) ← scan_once fuel (skip_ws r1);
              match skip_ws r2 with
              | 125 :: r3 => Ret ([(key, v)], r3)
              | 44 :: r3 => '(m, r4) ← scan_members fuel (skip_ws r3); Ret ((key, v) :: m, r4)
              | _ => syntax
              end
          | _ => syntax
          end
      | _ => syntax
      end
  end
with scan_elements (fuel : nat) (t : text) : outcome (list pvalue * text) :=
  match fuel with
  | O => out_of_fuel
  | S fuel =>
      '(v, r) ← scan_once fuel t;
      match skip_ws r with
      | 93 :: r1 => Ret ([v], r1)
      | 44 :: r1 => '(l, r2) ← scan_elements fuel (skip_ws r1); Ret (v :: l, r2)
      | _ => syntax
      end
  end.

(** [json.loads]. *)
Definition json_loads (t : text) : outcome pvalue :=
  '(v, r) ← scan_once (2 * length t + 2) (skip_ws t);
  match skip_ws r with [] => Ret v | _ => syntax end.
End scan.

(** ** The post-walk *)

(** The work stack of [_postwalk]: a value at a depth, or the reassembly of a
    container from the results of its members. *)
Inductive work :=
| WValue (value : pvalue) (depth : Z)
| WDict (keys : list text)
| WList (count : nat).

Section postwalk.
Context (ascii_only : bool) (max_string_bytes : Z).

(** [values = results[len(results) - count:]], and the results without them. *)
Definition pop_results (count : nat) (results : list pvalue) : list pvalue * list pvalue :=
  (drop (length results - count) results, take (length results - count) results).

(** One iteration of [while work]; the top of the stack is the head. *)
Definition walk_step (item : work) (stack : list work) (results : list pvalue)
    : outcome (list work * list pvalue) :=
  match item with
  | WValue (PDict m) depth =>
      check_that (depth <=? MAX_JSON_DEPTH) (JSONPolicyError "json_depth");;
      fold_outcome (λ _ key, check_text key ascii_only max_string_bytes) tt m.*1;;
      Ret (map (λ kv, WValue kv.2 (depth + 1)) m ++ WDict m.*1 :: stack, results)
  | WValue (PList l) depth =>
      check_that (depth <=? MAX_JSON_DEPTH) (JSONPolicyError "json_depth");;
      check_that (Z.of_nat (length l) <=? MAX_JSON_ARRAY_ITEMS) (JSONPolicyError "json_array_too_long");;
      Ret (map (λ v, WValue v (depth + 1)) l ++ WList (length l) :: stack, results)
  | WValue (PStr s) _ => check_text s ascii_only max_string_bytes;; Ret (stack, results ++ [PStr s])
  | WValue v _ => Ret (stack, results ++ [v])
  | WDict keys =>
      let '(values, rest) := pop_results (length keys) results in Ret (stack, rest ++ [PDict (zip keys values)])
  | WList count =>
      let '(values, rest) := pop_results count results in Ret (stack, rest ++ [PList values])
  end%list.

Fixpoint walk (fuel : nat) (stack : list work) (results : list pvalue) : outcome (list pvalue) :=
  match stack with
  | [] => Ret results
  | item :: stack =>
      match fuel with
      | O => out_of_fuel
      | S fuel => '(stack, results) ← walk_step item stack results; walk fuel stack results
      end
  end.

(** The number of iterations a value takes. *)
Fixpoint walk_size (v : pvalue) : nat :=
  match v with
  | PDict m => 2 + list_sum (map (λ kv, walk_size kv.2) m)
  | PList l => 2 + list_sum (map walk_size l)
  | _ => 1
  end.

Definition _postwalk (root : pvalue) : outcome pvalue :=
  results ← walk (walk_size root) [WValue root 1] [];
  match results with v :: _ => Ret v | [] => Raise (Exn "IndexError" "") end.
End postwalk.

(** [parse_json]; [None] for [data] is an argument that is not [bytes], for
    [ascii_only] one that is not a [bool]. *)
Definition parse_json (data : option string) (max_bytes : pyval) (numbers : string) (ascii_only : option bool)
    (max_string_bytes : pyval) : outcome pvalue :=
  let bounded v := match v with VInt z => (1 <=? z) && (z <=? MAX_JSON_DOCUMENT_BYTES) | _ => false end in
  match data, max_bytes, ascii_only, max_string_bytes with
  | Some data, VInt max_bytes, Some ascii_only, VInt max_string_bytes =>
      check_that (bounded (VInt max_bytes) && str_in numbers ["integer"; "finite"] && bounded (VInt max_string_bytes))
        (JSONPolicyError "json_argument");;
      check_that (str_len data <=? max_bytes) (JSONPolicyError "json_too_large");;
      check_that (negb (bool_decide (take 3 (codes data) = [239; 187; 191]))) (JSONPolicyError "json_encoding");;
      match utf8_decode (codes data) with
      | None => Raise (JSONPolicyError "json_encoding")
      | Some t =>
          check_that (negb ascii_only || all_chars (λ c, (32 <=? ord c) && (ord c <=? 126)) data)
            (JSONPolicyError "json_unicode");;
          _prescan_depth t;;
          v ← json_loads (bool_decide (numbers = "finite")) t;
          _postwalk ascii_only max_string_bytes v
      end
  | _, _, _, _ => Raise (JSONPolicyError "json_argument")
  end.

Definition parse_ascii (s : string) : outcome pvalue := parse_json (Some s) (VInt 65536) "finite" (Some false) (VInt 16384).
Example parse_ex :
  parse_ascii ("{ " +:+ dquote +:+ "a" +:+ dquote +:+ " : [1, -2.50e1, null, true] }") =
    Ret (PDict [(codes "a", PList [PInt 1; PDecimal (codes "-2.50e1"); PNone; PBool true])]).
Proof. vm_compute. reflexivity. Qed.
Example parse_surrogates :
  parse_ascii (dquote +:+ "\ud83d\ude00" +:+ dquote) = Ret (PStr [128512]) ∧
  parse_ascii (dquote +:+ "\ud83d" +:+ dquote) = Raise (JSONPolicyError "json_unicode").
Proof. vm_compute. split; reflexivity. Qed.
Example parse_errors :
  map (λ s, match parse_ascii s with Raise e => exn_code e | Ret _ => "" end)
    ["[1,]"; "01"; "1e400"; "9007199254740992"; "NaN"; "[[[[[[[[[[[[[[[[[1"; "-"; "";
     "{" +:+ dquote +:+ "a" +:+ dquote +:+ ":1," +:+ dquote +:+ "\u0061" +:+ dquote +:+ ":2}"]
  = ["json_syntax"; "json_syntax"; "json_number"; "json_number"; "json_number"; "json_depth"; "json_syntax"; "json_syntax";
     "json_duplicate_key"].
Proof. vm_compute. reflexivity. Qed.
