(* ===== verification/JsonParseThm.v ===== *)
(** * Theorems about the JSON parser

    The fuel of the scanner suffices; the iterative post-walk is the recursive
    check it stands for; and canonical documents are read back as the values
    they were written from. *)

From S2P Require Import Prelude PyValue PyJson Sha256 CanonJson JsonParse.
Local Open Scope string_scope.
Local Open Scope Z_scope.
Local Open Scope list_scope.

(** ** Induction on values *)
Section pvalue_ind.
Context (P : pvalue → Prop).
Context (HNone : P PNone) (HBool : ∀ b, P (PBool b)) (HInt : ∀ z, P (PInt z)) (HDec : ∀ l, P (PDecimal l)) (HStr : ∀ s, P (PStr s)).
Context (HList : ∀ l, Forall P l → P (PList l)) (HDict : ∀ m, Forall (λ kv, P kv.2) m → P (PDict m)).

Fixpoint pvalue_induction (v : pvalue) : P v :=
  match v with
  | PNone => HNone | PBool b => HBool b | PInt z => HInt z | PDecimal l => HDec l | PStr s => HStr s
  | PList l => HList l ((fix go l := match l return Forall P l with
      | [] => Forall_nil_2 _ | x :: l => Forall_cons_2 _ _ _ (pvalue_induction x) (go l) end) l)
  | PDict m => HDict m ((fix go m := match m return Forall (λ kv, P kv.2) m with
      | [] => Forall_nil_2 _ | x :: m => Forall_cons_2 _ _ _ (pvalue_induction x.2) (go m) end) m)
  end.
End pvalue_ind.

(** ** The post-walk is a recursive check *)
Section postwalk.
Context (ascii_only : bool) (max_bytes : Z).

Fixpoint check_value (v : pvalue) (depth : Z) : outcome unit :=
  match v with
  | PDict m =>
      check_that (depth <=? MAX_JSON_DEPTH) (JSONPolicyError "json_depth");;
      fold_outcome (λ _ key, check_text key ascii_only max_bytes) tt m.*1;;
      foldr (λ kv rest, check_value kv.2 (depth + 1);; rest) (Ret tt) m
  | PList l =>
      check_that (depth <=? MAX_JSON_DEPTH) (JSONPolicyError "json_depth");;
      check_that (Z.of_nat (length l) <=? MAX_JSON_ARRAY_ITEMS) (JSONPolicyError "json_array_too_long");;
      foldr (λ v rest, check_value v (depth + 1);; rest) (Ret tt) l
  | PStr s => check_text s ascii_only max_bytes
  | _ => Ret tt
  end.

Notation walk := (walk ascii_only max_bytes).

Lemma bind_assoc_outcome {A B C} (m : outcome A) (k : A → outcome B) (h : B → outcome C) :
  ((m ≫= k) ≫= h) = (m ≫= λ a, k a ≫= h).
Proof. by destruct m. Qed.

Lemma walk_cons fuel item stack results :
  walk (S fuel) (item :: stack) results =
    ('(stack', results') ← walk_step ascii_only max_bytes item stack results; walk fuel stack' results').
Proof. reflexivity. Qed.

Lemma walk_list l depth fuel stack results :
  Forall (λ v, ∀ depth fuel stack results,
    walk (walk_size v + fuel) (WValue v depth :: stack) results = (check_value v depth;; walk fuel stack (results ++ [v]))) l →
  walk (list_sum (map walk_size l) + fuel) (map (λ v, WValue v depth) l ++ stack) results =
    (foldr (λ v rest, check_value v depth;; rest) (Ret tt) l;; walk fuel stack (results ++ l)).
Proof.
  intros Hl. revert results. induction Hl as [|v l Hv _ IH]; intros results; [by rewrite app_nil_r|].
  cbn [map list_sum foldr app]. rewrite <-Nat.add_assoc, Hv, bind_assoc_outcome.
  destruct (check_value v depth); [|done]. cbn [mbind outcome_bind]. by rewrite IH, <-app_assoc.
Qed.

Lemma pop_app count (vs results : list pvalue) : count = length vs → pop_results count (results ++ vs) = (vs, results).
Proof.
  intros ->. unfold pop_results. rewrite length_app.
  replace (length results + length vs - length vs)%nat with (length results) by lia.
  by rewrite drop_app_length, take_app_length.
Qed.

Lemma zip_fst_snd {A B} (m : list (A * B)) : zip m.*1 m.*2 = m.
Proof. induction m as [|[a b] m IH]; cbn; [done|]. by rewrite IH. Qed.

Lemma walk_value v : ∀ depth fuel stack results,
  walk (walk_size v + fuel) (WValue v depth :: stack) results = (check_value v depth;; walk fuel stack (results ++ [v])).
Proof.
  induction v as [| | | | |l IH|m IH] using pvalue_induction; intros depth fuel stack results; try done.
  - change (walk_size (PStr s) + fuel)%nat with (S fuel). rewrite walk_cons. cbn [walk_step check_value].
    by destruct (check_text s ascii_only max_bytes).
  - change (walk_size (PList l) + fuel)%nat with (S (S (list_sum (map walk_size l) + fuel))). rewrite walk_cons.
    cbn [walk_step check_value]. rewrite !bind_assoc_outcome. destruct (check_that _ _); [|done].
    cbv beta iota delta [mbind outcome_bind]. rewrite ?bind_assoc_outcome. destruct (check_that _ _); [|done]. cbv beta iota delta [mbind outcome_bind].
    rewrite <-Nat.add_succ_r, walk_list by done. destruct (foldr _ _ l) as [[]|]; [|done].
    cbv beta iota delta [mbind outcome_bind]. rewrite walk_cons. cbn [walk_step]. by rewrite pop_app.
  - change (walk_size (PDict m) + fuel)%nat with (S (S (list_sum (map (λ kv, walk_size kv.2) m) + fuel))). rewrite walk_cons.
    cbn [check_value].
    assert (foldr (λ kv rest, check_value kv.2 (depth + 1);; rest) (Ret tt) m =
            foldr (λ v rest, check_value v (depth + 1);; rest) (Ret tt) m.*2) as -> by (clear; induction m as [|? ? IH]; [done|]; cbn; by rewrite IH).
    cbn [walk_step check_value]. rewrite !bind_assoc_outcome. destruct (check_that _ _); [|done].
    cbv beta iota delta [mbind outcome_bind]. rewrite ?bind_assoc_outcome. destruct (fold_outcome _ _ _); [|done]. cbv beta iota delta [mbind outcome_bind].
    rewrite <-Nat.add_succ_r. rewrite <-(map_map snd walk_size), <-(map_map snd (λ v, WValue v (depth + 1))).
    rewrite walk_list by (by apply Forall_map).
    change (map snd m) with m.*2. destruct (foldr _ _ m.*2) as [[]|]; [|done].
    cbv beta iota delta [mbind outcome_bind]. rewrite walk_cons. cbn [walk_step].
    rewrite pop_app by (by rewrite !length_fmap). by rewrite zip_fst_snd.
Qed.

Lemma postwalk_check v : _postwalk ascii_only max_bytes v = (check_value v 1;; Ret v).
Proof.
  unfold _postwalk. pose proof (walk_value v 1 0 [] []) as H. rewrite Nat.add_0_r in H. rewrite H.
  by destruct (check_value v 1).
Qed.

(** The explicit-stack walk is the recursive check.  For every parsed value
    [_postwalk] stops after exactly [walk_size] iterations; it raises the error
    the depth-first recursive check meets first, and otherwise rebuilds the very
    value it was given. *)
Theorem postwalk_is_recursive_check v : _postwalk ascii_only max_bytes v = (check_value v 1;; Ret v).
Proof. apply postwalk_check. Qed.
End postwalk.

(** ** The scanner terminates within its fuel *)
Definition fuel_error : exn := Exn "fuel" "fuel".

(** A scan that, with its fuel, never runs out and consumes at least [n]
    characters. *)
Definition scans {A} (n : nat) (t : text) (o : outcome (A * text)) : Prop :=
  match o with Ret (_, r) => (length r + n ≤ length t)%nat | Raise e => e ≠ fuel_error end.

Lemma scans_bind {A B} n k (t t' : text) (o : outcome (A * text)) (f : A * text → outcome (B * text)) :
  scans n t o → (∀ a r, (length r + n ≤ length t)%nat → scans k t' (f (a, r))) → scans k t' (o ≫= f).
Proof. destruct o as [[a r]|e]; cbn; auto. Qed.

Lemma scans_syntax {A} n t : scans n t (@syntax (A * text)).
Proof. done. Qed.

Lemma skip_ws_length t : (length (skip_ws t) ≤ length t)%nat.
Proof. induction t as [|c t IH]; cbn; [lia|]. destruct (is_ws c); cbn; lia. Qed.

Lemma digits_length t : (length (digits t).1 + length (digits t).2 = length t)%nat.
Proof. induction t as [|c t IH]; cbn; [done|]. destruct (digit c); [destruct (digits t)|]; cbn in *; lia. Qed.

Lemma hex_escape_length t x r : hex_escape t = Some (x, r) → (length r < length t)%nat.
Proof.
  unfold hex_escape. destruct t as [|a [|b [|c [|d t]]]]; try done.
  destruct (hex4 a), (hex4 b), (hex4 c), (hex4 d); try done. cbn. intros [= _ <-]. lia.
Qed.

Lemma scan_string_scans fuel t : (length t < fuel)%nat → scans 1 t (scan_string fuel t).
Proof.
  revert t. induction fuel as [|fuel IH]; intros t Hf; [lia|]. cbn [scan_string]. destruct t as [|c t]; [done|].
  cbn [length] in *.
  assert (Hrec : ∀ (x : Z) r, (length r ≤ length t)%nat → scans 1 (c :: t) ('(s, r') ← scan_string fuel r; Ret (x :: s, r'))).
  { intros x r Hr. specialize (IH r ltac:(lia)). destruct (scan_string fuel r) as [[s r']|e]; cbn in *; [lia|done]. }
  destruct (c =? 34); [cbn; lia|]. destruct (c <=? 31); [done|]. destruct (negb (c =? 92)); [by apply Hrec|].
  destruct t as [|e t]; [done|]. cbn [length] in *. destruct (e =? 117).
  - destruct (hex_escape t) as [[hi r1]|] eqn:E1; [|done]. apply hex_escape_length in E1.
    destruct ((55296 <=? hi) && (hi <=? 56319)); [|apply Hrec; lia].
    destruct r1 as [|[|p|] r1]; try (apply Hrec; cbn in *; lia).
    destruct (decide (p = 92%positive)) as [->|Hp].
    2: { repeat (destruct p as [p|p|]; try (apply Hrec; cbn in *; lia); try congruence). }
    destruct r1 as [|[|q|] r1]; try (apply Hrec; cbn in *; lia).
    destruct (decide (q = 117%positive)) as [->|Hq].
    2: { repeat (destruct q as [q|q|]; try (apply Hrec; cbn in *; lia); try congruence). }
    destruct (hex_escape r1) as [[lo r3]|] eqn:E3; [|done]. apply hex_escape_length in E3.
    destruct ((56320 <=? lo) && (lo <=? 57343)); apply Hrec; cbn in *; lia.
  - destruct (simple_escape e); [apply Hrec; lia|done].
Qed.

Ltac literal_case p := repeat (destruct p as [p|p|]; try done; try congruence).

Lemma int_part_length t d r : int_part t = Some (d, r) → (length r < length t)%nat.
Proof.
  unfold int_part. destruct t as [|c t]; [done|]. pose proof (digits_length (c :: t)) as Hd.
  assert (Hgen : (if digit c then Some (digits (c :: t)) else None) = Some (d, r) → (length r < length (c :: t))%nat).
  { cbn [digits] in *. destruct (digit c); [|done]. destruct (digits t). cbn in *. intros [= <- <-]. lia. }
  destruct (decide (c = 48)) as [->|Hc]; [intros [= _ <-]; cbn; lia|].
  destruct c as [|p|p]; try exact Hgen. repeat (destruct p as [p|p|]; try exact Hgen). congruence.
Qed.

Lemma frac_part_length t d r : frac_part t = (d, r) → (length r ≤ length t)%nat.
Proof.
  unfold frac_part. destruct t as [|c t]; [intros [= _ <-]; cbn; lia|]. pose proof (digits_length t) as Hd.
  assert (H0 : ([] : text, c :: t) = (d, r) → (length r ≤ length (c :: t))%nat) by (intros [= _ <-]; done).
  destruct c as [|p|p]; try exact H0. repeat (destruct p as [p|p|]; try exact H0).
  destruct (digits t) as [[|x y] z]; [exact H0|]. cbn in *. intros [= _ <-]. lia.
Qed.

Lemma exp_part_length t d e r : exp_part t = (d, e, r) → (length r ≤ length t)%nat.
Proof.
  unfold exp_part. destruct t as [|c t]; [intros [= _ _ <-]; done|].
  destruct ((c =? 101) || (c =? 69)); [|intros [= _ _ <-]; done].
  assert (∃ sign body, (match t with s :: b => if (s =? 43) || (s =? 45) then ([s], b) else ([], t) | [] => ([], []) end)
     = (sign, body) ∧ (length body ≤ length t)%nat) as (sign & body & -> & Hb).
  { destruct t as [|s b]; [by exists [], []|]. destruct (_ || _); do 2 eexists; (split; [done|]); cbn; lia. }
  pose proof (digits_length body). destruct (digits body) as [[|x y] z]; [intros [= _ _ <-]; done|].
  cbn in *. intros [= _ _ <-]. lia.
Qed.

Lemma parse_int_not_fuel lexeme neg d : parse_int lexeme neg d ≠ Raise fuel_error.
Proof. unfold parse_int, check_that. repeat case_match; done. Qed.

Lemma parse_float_not_fuel f lexeme m e : parse_float f lexeme m e ≠ Raise fuel_error.
Proof. unfold parse_float, check_that. repeat case_match; done. Qed.

Lemma scans_ret_bind {A B} n (t r : text) (o : outcome A) (f : A → B) :
  o ≠ Raise fuel_error → (length r + n ≤ length t)%nat → scans n t (v ← o; Ret (f v, r)).
Proof. intros Ho Hr. destruct o as [a|e]; cbn; [done|]. intros ->. done. Qed.

Lemma scan_number_scans f t : scans 1 t (scan_number f t).
Proof.
  unfold scan_number.
  assert (∃ sign body, split_sign t = (sign, body) ∧ (length body ≤ length t)%nat)
    as (sign & body & -> & Hb).
  { unfold split_sign. destruct t as [|c t]; [by exists [], []|].
    assert (H0 : ∃ sign body, ([] : text, c :: t) = (sign, body) ∧ (length body ≤ length (c :: t))%nat) by eauto.
    destruct c as [|p|p]; try exact H0. repeat (destruct p as [p|p|]; try exact H0). exists [45], t. split; [done|cbn; lia]. }
  destruct (int_part body) as [[ip r1]|] eqn:E1; [|done]. apply int_part_length in E1.
  destruct (frac_part r1) as [fp r2] eqn:E2. apply frac_part_length in E2.
  destruct (exp_part r2) as [[ep e] r3] eqn:E3. apply exp_part_length in E3.
  destruct fp, ep; (apply (scans_ret_bind 1 _ _ _ id); [apply parse_int_not_fuel || apply parse_float_not_fuel|lia]).
Qed.

Lemma object_pairs_hook_not_fuel m : object_pairs_hook m ≠ Raise fuel_error.
Proof. unfold object_pairs_hook, check_that. case_match; done. Qed.

Lemma starts_length w t : starts w t = true → (length (after w t) + String.length w ≤ length t)%nat.
Proof.
  unfold starts, after. intros H. bool_simpl. rewrite length_drop.
  assert (length (codes w) = String.length w) as Hw.
  { unfold codes. rewrite length_map. clear. induction w; cbn; [done|]. by rewrite IHw. }
  apply (f_equal length) in H. rewrite Hw, length_take in H. lia.
Qed.

(** The three mutually recursive scanners, with the fuel each needs. *)
Lemma scanners_scan f fuel :
  (∀ t, (2 * length t < fuel)%nat → scans 1 t (scan_once f fuel t)) ∧
  (∀ t, (2 * length t < fuel)%nat → scans 1 t (scan_members f fuel t)) ∧
  (∀ t, (2 * length t + 1 < fuel)%nat → scans 1 t (scan_elements f fuel t)).
Proof.
  induction fuel as [|fuel (IHo & IHm & IHe)]; [split_and!; intros; lia|]. split_and!; intros t Hf.
  - cbn [scan_once]. destruct t as [|c t]; [done|]. cbn [length] in *. pose proof (skip_ws_length t) as Hws.
    destruct (c =? 34).
    { eapply scans_bind; [apply scan_string_scans; lia|]. intros s r Hr. cbn in *. lia. }
    destruct (c =? 123).
    { assert (Hgen : scans 1 (c :: t) ('(m, r) ← scan_members f fuel (skip_ws t); v ← object_pairs_hook m; Ret (v, r))).
      { specialize (IHm (skip_ws t) ltac:(lia)). destruct (scan_members f fuel (skip_ws t)) as [[m r]|e]; [|done].
        apply (scans_ret_bind 1 _ _ _ id); [apply object_pairs_hook_not_fuel|]. cbn in *. lia. }
      destruct (skip_ws t) as [|[|p|p] r]; try exact Hgen. repeat (destruct p as [p|p|]; try exact Hgen).
      apply (scans_ret_bind 1 _ _ _ id); [apply object_pairs_hook_not_fuel|]. cbn in *. lia. }
    destruct (c =? 91).
    { assert (Hgen : scans 1 (c :: t) ('(l, r) ← scan_elements f fuel (skip_ws t); Ret (PList l, r))).
      { specialize (IHe (skip_ws t) ltac:(lia)). destruct (scan_elements f fuel (skip_ws t)) as [[l r]|e]; [|done]. cbn in *. lia. }
      destruct (skip_ws t) as [|[|p|p] r]; try exact Hgen. repeat (destruct p as [p|p|]; try exact Hgen). cbn in *. lia. }
    destruct (starts "null" (c :: t)) eqn:E1; [apply starts_length in E1; cbn in *; lia|].
    destruct (starts "true" (c :: t)) eqn:E2; [apply starts_length in E2; cbn in *; lia|].
    destruct (starts "false" (c :: t)) eqn:E3; [apply starts_length in E3; cbn in *; lia|].
    destruct (_ || _ || _); [done|]. apply scan_number_scans.
  - cbn [scan_members].
    assert (H0 : scans 1 t (@syntax (list (text * pvalue) * text))) by done.
    destruct t as [|[|p|p] t]; try exact H0. repeat (destruct p as [p|p|]; try exact H0). clear H0. cbn [length] in *.
    eapply scans_bind; [apply (scan_string_scans (S (length t))); lia|]. intros key r Hr.
    pose proof (skip_ws_length r) as Hws.
    destruct (skip_ws r) as [|[|p|p] r1]; try done. repeat (destruct p as [p|p|]; try done). cbn [length] in *.
    pose proof (skip_ws_length r1) as Hws1. eapply scans_bind; [apply IHo; lia|]. intros v r2 Hr2.
    pose proof (skip_ws_length r2) as Hws2.
    destruct (skip_ws r2) as [|[|p|p] r3]; try done. cbn [length] in *. repeat (destruct p as [p|p|]; try done); [cbn; lia|].
    pose proof (skip_ws_length r3). eapply scans_bind; [apply IHm; lia|]. intros m r4 Hr4. cbn. lia.
  - cbn [scan_elements]. eapply scans_bind; [apply IHo; lia|]. intros v r Hr. pose proof (skip_ws_length r) as Hws.
    destruct (skip_ws r) as [|[|p|p] r1]; try done. cbn [length] in *. repeat (destruct p as [p|p|]; try done); [cbn; lia|].
    pose proof (skip_ws_length r1). eapply scans_bind; [apply IHe; lia|]. intros l r2 Hr2. cbn. lia.
Qed.

(** The scanner terminates.  With the fuel [json_loads] gives it the
    recursive descent never runs out, on any text: a document is parsed or
    rejected by one of the parser's own errors, and every scan moves on. *)
Theorem json_loads_has_enough_fuel finite_mode t : json_loads finite_mode t ≠ Raise fuel_error.
Proof.
  unfold json_loads. destruct (scanners_scan finite_mode (2 * length t + 2)) as (Ho & _ & _).
  pose proof (skip_ws_length t). specialize (Ho (skip_ws t) ltac:(lia)).
  destruct (scan_once finite_mode (2 * length t + 2) (skip_ws t)) as [[v r]|e]; cbn in Ho |- *; [|congruence].
  by destruct (skip_ws r).
Qed.
