(* ===== verification/JsonRoundtrip.v ===== *)
(** * Canonical documents are read back

    [canonical_json] and [parse_json] are two descriptions of one format.  The
    values are related by [embed]: the same value with every dict in the order
    of its sorted keys, which is the order the encoder writes.  [emit] is the
    text of such a value; the encoder writes it, the three passes of the parser
    accept it.  At the end, the bounds within which the encoder is total. *)

From Stdlib Require Import Permutation.
From stdpp Require Import pretty.
From S2P Require Import Prelude PyValue PyJson Sha256 CanonJson PyBytes JsonParse JsonParseThm.
Local Open Scope string_scope.
Local Open Scope Z_scope.
Local Open Scope list_scope.

(** ** The text of a value *)
Definition escape_code (c : Z) : text := if (c =? 34) || (c =? 92) then [92; c] else [c].
Definition emit_text (s : text) : text := 34 :: concat (map escape_code s) ++ [34].

Fixpoint commas (xs : list text) : text :=
  match xs with [] => [] | [x] => x | x :: xs => x ++ 44 :: commas xs end.

Fixpoint emit (p : pvalue) : text :=
  match p with
  | PNone => codes "null"
  | PBool b => codes (if b then "true" else "false")
  | PInt z => codes (int_repr z)
  | PDecimal l => l
  | PStr s => emit_text s
  | PList l => 91 :: commas (map emit l) ++ [93]
  | PDict m => 123 :: commas (map (λ kv, emit_text kv.1 ++ 58 :: emit kv.2) m) ++ [125]
  end.

Definition text_ok (s : text) : bool :=
  forallb (λ c, (32 <=? c) && (c <=? 126)) s && (text_bytes s <=? MAX_JSON_STRING_BYTES).

(** Values within the encoder's bounds, at a depth. *)
Fixpoint canonical_ok (d : Z) (p : pvalue) : Prop :=
  match p with
  | PInt z => Z.abs z ≤ MAX_SAFE_INTEGER
  | PDecimal _ => False
  | PStr s => text_ok s = true
  | PList l => d ≤ MAX_JSON_DEPTH ∧ Z.of_nat (length l) ≤ MAX_JSON_ARRAY_ITEMS ∧
      foldr (λ v acc, canonical_ok (d + 1) v ∧ acc) True l
  | PDict m => d ≤ MAX_JSON_DEPTH ∧ NoDup m.*1 ∧
      foldr (λ kv acc, (text_ok kv.1 = true ∧ canonical_ok (d + 1) kv.2) ∧ acc) True m
  | _ => True
  end.

Lemma foldr_and_Forall {A} (P : A → Prop) l : foldr (λ x acc, P x ∧ acc) True l ↔ Forall P l.
Proof. induction l as [|x l IH]; cbn; [split; [constructor|done]|]. by rewrite IH, Forall_cons. Qed.

Lemma codes_app a b : codes (a +:+ b) = codes a ++ codes b.
Proof. unfold codes. induction a as [|c a IH]; [done|]. rewrite app_cons. cbn. by rewrite IH. Qed.

Lemma length_codes s : length (codes s) = String.length s.
Proof. unfold codes. rewrite length_map. induction s; cbn; [done|]. by rewrite IHs. Qed.

Lemma codes_join xs : codes (join "," xs) = commas (map codes xs).
Proof.
  induction xs as [|x [|y xs] IH]; [done|done|].
  change (join "," (x :: y :: xs)) with (x +:+ "," +:+ join "," (y :: xs)). rewrite !codes_app, IH. done.
Qed.

Lemma forallb_codes P s : forallb P (codes s) = all_chars (λ c, P (ord c)) s.
Proof. induction s as [|c s IH]; [done|]. cbn. by rewrite <-IH. Qed.

(** ** Numbers *)
Lemma digit_ord c : is_digit c = true → digit (ord c) = true.
Proof. intros Hc. by apply (char_in_all (λ c, digit (ord c)) _ _ Hc). Qed.

Lemma codes_digits s : all_chars is_digit s = true → forallb digit (codes s) = true.
Proof. intros H. rewrite forallb_codes. revert H. apply all_chars_impl, digit_ord. Qed.

Definition delimited (rest : text) : Prop := match rest with [] => True | c :: _ => c = 44 ∨ c = 93 ∨ c = 125 end.

Lemma digits_stop d rest : forallb digit d = true → delimited rest → digits (d ++ rest) = (d, rest).
Proof.
  intros Hd Hr. induction d as [|c d IH]; cbn in *.
  - destruct rest as [|c r]; [done|]. cbn in *. by destruct Hr as [->|[->| ->]].
  - apply andb_true_iff in Hd as [-> Hd]. by rewrite IH.
Qed.

Lemma number_value_codes s : number_value (codes s) = decimal 0 s.
Proof.
  unfold number_value. generalize 0 as acc. induction s as [|c s IH]; intros acc; [done|].
  change (codes (String c s)) with (ord c :: codes s). cbn [foldl decimal]. rewrite IH. f_equal. unfold ord, char_code. lia.
Qed.

Lemma int_repr_neg p : int_repr (Zneg p) = "-" +:+ int_repr (Zpos p).
Proof. reflexivity. Qed.

(** Every integer is written as an optional sign and canonical digits. *)
Lemma int_repr_shape z :
  ∃ (neg : bool) c t, codes (int_repr z) = (if neg then [45] else []) ++ c :: t ∧ forallb digit (c :: t) = true ∧
    (c = 48 → t = []) ∧ (if neg then - number_value (c :: t) else number_value (c :: t)) = z ∧
    (Z.abs z ≤ MAX_SAFE_INTEGER → (length (c :: t) ≤ 16)%nat).
Proof.
  assert (Hpos : ∀ p, ∃ c t, codes (int_repr (Zpos p)) = c :: t ∧ forallb digit (c :: t) = true ∧ (c = 48 → t = []) ∧
    number_value (c :: t) = Zpos p ∧ (Zpos p ≤ MAX_SAFE_INTEGER → (length (c :: t) ≤ 16)%nat)).
  { intros p. destruct (int_repr_spec (Zpos p) ltac:(lia)) as (Hv & Hd & x & s & E & Hx).
    exists (ord x), (codes s). change (ord x :: codes s) with (codes (String x s)). rewrite <-E. split_and!; [done|by apply codes_digits| |by rewrite number_value_codes|].
    - intros H. exfalso. apply Hx. unfold ord in H. rewrite <-(ascii_nat_embedding x). by replace (nat_of_ascii x) with 48%nat by lia.
    - intros Hle. rewrite length_codes. pose proof (int_repr_len_mono (Zpos p) MAX_SAFE_INTEGER ltac:(lia) Hle) as Hl.
      change (str_len (int_repr MAX_SAFE_INTEGER)) with 16 in Hl. unfold str_len in Hl. lia. }
  destruct z as [|p|p].
  - exists false, 48, []. cbn. split_and!; done || lia.
  - destruct (Hpos p) as (c & t & H1 & H2 & H3 & H4 & H5). exists false, c, t. rewrite H1. split_and!; try done.
  - destruct (Hpos p) as (c & t & H1 & H2 & H3 & H4 & H5). exists true, c, t. rewrite int_repr_neg, codes_app, H1, H4.
    split_and!; try done.
Qed.

Lemma scan_number_ok z rest :
  Z.abs z ≤ MAX_SAFE_INTEGER → delimited rest → scan_number false (codes (int_repr z) ++ rest) = Ret (PInt z, rest).
Proof.
  intros Hz Hr. destruct (int_repr_shape z) as (neg & c & t & -> & Hd & H0 & Hv & Hl). specialize (Hl Hz).
  assert (Hc : digit c = true) by (by apply andb_true_iff in Hd as [? _]).
  assert (Hip : int_part ((c :: t) ++ rest) = Some (c :: t, rest)).
  { destruct (decide (c = 48)) as [->|Hne]; [by rewrite (H0 eq_refl)|].
    unfold int_part. change ((c :: t) ++ rest) with (c :: (t ++ rest)).
    transitivity (Some (digits (c :: (t ++ rest)))).
    - destruct c as [|p|p]; try (by rewrite Hc). repeat (destruct p as [p|p|]; try (by rewrite Hc)). done.
    - f_equal. exact (digits_stop (c :: t) rest Hd Hr). }
  assert (Hfrac : frac_part rest = ([], rest) ∧ exp_part rest = ([], 0, rest)).
  { destruct rest as [|x r]; [done|]. cbn in Hr. by destruct Hr as [->|[->| ->]]. }
  destruct Hfrac as [Hf He]. unfold scan_number.
  assert (split_sign (((if neg then [45] else []) ++ c :: t) ++ rest) = (if neg then [45] else [], (c :: t) ++ rest)) as ->.
  { destruct neg; [done|]. cbn [app]. unfold digit in Hc. unfold split_sign. destruct c as [|p|p]; try done. repeat (destruct p as [p|p|]; try done). }
  rewrite Hip, Hf, He. unfold parse_int. cbv zeta.
  assert (Z.of_nat (length ((if neg then [45] else []) ++ c :: t)) <=? MAX_JSON_NUMBER_CHARS = true) as ->.
  { apply Z.leb_le. rewrite length_app. unfold MAX_JSON_NUMBER_CHARS. destruct neg; cbn [length] in *; lia. }
  destruct neg; first [rewrite !(bool_decide_true ([45] = [45])) by done|rewrite !(bool_decide_false ([] = [45])) by done]; rewrite Hv;
    cbn [check_that mbind outcome_bind]; by rewrite (proj2 (Z.leb_le _ _) Hz).
Qed.

(** ** Strings *)
Lemma scan_string_ok s rest fuel :
  text_ok s = true → (length (concat (map escape_code s)) < fuel)%nat →
  scan_string fuel (concat (map escape_code s) ++ 34 :: rest) = Ret (s, rest).
Proof.
  unfold text_ok. intros [Hs _]%andb_true_iff. revert fuel. induction s as [|c s IH]; intros fuel Hf.
  - destruct fuel; [lia|]. done.
  - cbn [forallb] in Hs. apply andb_true_iff in Hs as [Hc Hs]. cbn [map concat] in *. rewrite length_app in Hf.
    unfold escape_code in *. destruct ((c =? 34) || (c =? 92)) eqn:E; cbn [length] in Hf; (destruct fuel as [|fuel]; [lia|]);
      cbn [app scan_string].
    + apply orb_true_iff in E as [->%Z.eqb_eq| ->%Z.eqb_eq]; cbn; rewrite IH by (done || lia); done.
    + apply orb_false_iff in E as [E1 E2]. rewrite E1, E2. bool_simpl.
      assert (c <=? 31 = false) as -> by (apply Z.leb_gt; lia). cbn [negb]. rewrite IH by (done || lia). done.
Qed.

(** ** The scanner reads what [emit] writes *)

(** How a written value starts: neither a blank nor a closing bracket. *)
Definition good_head (t : text) : Prop :=
  match t with c :: _ => is_ws c = false ∧ c ≠ 93 ∧ c ≠ 125 | [] => False end.

Lemma good_head_app t rest : good_head t → good_head (t ++ rest).
Proof. by destruct t. Qed.

Lemma good_head_ws t : good_head t → skip_ws t = t.
Proof. destruct t as [|c t]; [done|]. cbn. by intros (-> & _). Qed.

Lemma digit_head c t : digit c = true → good_head (c :: t).
Proof. unfold digit, good_head, is_ws. intros. bool_simpl. split_and!; try lia. Qed.

Lemma emit_head d p : canonical_ok d p → good_head (emit p).
Proof.
  destruct p as [|[]|z| | | |]; try done. intros _. cbn [emit].
  destruct (int_repr_shape z) as ([] & c & t & -> & Hd & _); [done|]. apply digit_head. by apply andb_true_iff in Hd as [? _].
Qed.

Lemma commas_cons x xs : xs ≠ [] → commas (x :: xs) = x ++ 44 :: commas xs.
Proof. by destruct xs. Qed.

Definition reads_back (d : Z) (p : pvalue) : Prop :=
  canonical_ok d p → ∀ fuel rest, (2 * length (emit p ++ rest) < fuel)%nat → delimited rest →
    scan_once false fuel (emit p ++ rest) = Ret (p, rest).

Lemma scan_elements_ok d l fuel rest :
  Forall (λ p, reads_back d p) l → Forall (canonical_ok d) l → l ≠ [] →
  (2 * length (commas (map emit l) ++ 93%Z :: rest) + 1 < fuel)%nat →
  scan_elements false fuel (commas (map emit l) ++ 93 :: rest) = Ret (l, rest).
Proof.
  intros Hl Hok. revert fuel Hok. induction Hl as [|p l Hp _ IH]; [done|]. intros fuel [Hokp Hok]%Forall_cons _ Hf.
  destruct fuel as [|fuel]; [lia|]. cbn [scan_elements map].
  destruct l as [|q l].
  - cbn [map commas] in *. rewrite Hp by (done || lia || (right; left; done)). done.
  - cbn [map] in *. rewrite (commas_cons (emit p)) in Hf |- * by done. rewrite <-app_assoc in Hf |- *. cbn [app] in Hf |- *.
    rewrite Hp by (done || lia || (left; done)). cbn [mbind outcome_bind skip_ws is_ws Z.eqb Pos.eqb orb].
    pose proof (emit_head d q ltac:(by apply Forall_cons in Hok as [? _])) as Hh.
    rewrite good_head_ws.
    2: { destruct l; cbn [commas map]; [by apply good_head_app|rewrite <-app_assoc; by apply good_head_app]. }
    rewrite length_app in Hf. cbn [length] in Hf. rewrite IH; [done|done|done|lia].
Qed.

Lemma commas_head x xs rest : good_head x → good_head (commas (x :: xs) ++ rest).
Proof. intros Hx. destruct xs; cbn [commas]; [|rewrite <-app_assoc]; by apply good_head_app. Qed.

Ltac split_code c :=
  destruct c as [|?p|?p]; try done;
  repeat (let p := match goal with p : positive |- _ => p end in destruct p; try done).
Lemma head_not_bracket {A} (t : text) (a b : text → A) :
  good_head t → (match skip_ws t with 93 :: r => a r | t1 => b t1 end) = b t.
Proof. intros H. rewrite good_head_ws by done. destruct t as [|c t]; [done|]. destruct H as (_ & ? & ?). split_code c. Qed.
Lemma head_not_brace {A} (t : text) (a b : text → A) :
  good_head t → (match skip_ws t with 125 :: r => a r | t1 => b t1 end) = b t.
Proof. intros H. rewrite good_head_ws by done. destruct t as [|c t]; [done|]. destruct H as (_ & ? & ?). split_code c. Qed.

Definition member_codes (kv : text * pvalue) : text := emit_text kv.1 ++ 58 :: emit kv.2.

Lemma emit_text_app s rest : emit_text s ++ rest = 34 :: (concat (map escape_code s) ++ 34 :: rest).
Proof. unfold emit_text. cbn. f_equal. by rewrite <-app_assoc. Qed.

Lemma scan_member d kv fuel rest (k : text * pvalue → text → outcome (list (text * pvalue) * text)) :
  reads_back d kv.2 → text_ok kv.1 = true → canonical_ok d kv.2 → delimited rest →
  (2 * length (member_codes kv ++ rest) < S fuel)%nat →
  (match member_codes kv ++ rest with
   | 34 :: t' =>
       '(key, r) ← scan_string (S (length t')) t';
       match skip_ws r with
       | 58 :: r1 => '(v, r2) ← scan_once false fuel (skip_ws r1); k (key, v) r2
       | _ => syntax
       end
   | _ => syntax
   end) = k kv rest.
Proof.
  intros Hread Hk Hv Hr Hf. unfold member_codes in *. rewrite <-app_assoc, emit_text_app in *. cbn [app] in *. cbv iota.
  rewrite scan_string_ok; [|done|rewrite length_app; lia]. cbn [mbind outcome_bind skip_ws is_ws Z.eqb Pos.eqb orb].
  rewrite (good_head_ws (emit kv.2 ++ rest)) by (apply good_head_app; by eapply emit_head).
  rewrite Hread; [by destruct kv|done| |done]. cbn [length] in Hf. rewrite !length_app in *. cbn [length] in *. rewrite length_app in Hf. lia.
Qed.

Lemma scan_members_ok d m fuel rest :
  Forall (λ kv, reads_back d kv.2) m → Forall (λ kv, text_ok kv.1 = true ∧ canonical_ok d kv.2) m → m ≠ [] →
  (2 * length (commas (map member_codes m) ++ 125%Z :: rest) < fuel)%nat →
  scan_members false fuel (commas (map member_codes m) ++ 125 :: rest) = Ret (m, rest).
Proof.
  intros Hl. revert fuel. induction Hl as [|kv m Hp _ IH]; [done|]. intros fuel [[Hk Hv] Hok]%Forall_cons _ Hf.
  destruct fuel as [|fuel]; [lia|].
  pose (k := λ kv r2, match skip_ws r2 with
     | 125 :: r3 => Ret ([kv], r3)
     | 44 :: r3 => '(m, r4) ← scan_members false fuel (skip_ws r3); Ret (kv :: m, r4)
     | _ => syntax end).
  destruct m as [|kv' m].
  - cbn [map commas] in *. transitivity (k kv (125 :: rest)); [|done].
    apply (scan_member d kv fuel (125 :: rest) k); try done. right; by right.
  - cbn [map] in *. rewrite (commas_cons (member_codes kv)) in Hf |- * by done. rewrite <-app_assoc in Hf |- *. cbn [app] in Hf |- *.
    match goal with |- scan_members _ _ (_ ++ ?r) = _ => transitivity (k kv r); [apply (scan_member d kv fuel r k); try done; by left|] end.
    unfold k. cbn [skip_ws is_ws Z.eqb Pos.eqb orb]. rewrite good_head_ws.
    2: { destruct m; cbn [commas map]; [|rewrite <-app_assoc]; apply good_head_app; done. }
    rewrite length_app in Hf. cbn [length] in Hf. rewrite IH; [done|done|done|lia].
Qed.

Lemma word_ok (w : string) rest : starts w (codes w ++ rest) = true ∧ after w (codes w ++ rest) = rest.
Proof.
  unfold starts, after. rewrite <-length_codes, take_app_length, drop_app_length. split; [by apply bool_decide_eq_true|done].
Qed.

Lemma half_fuel n f : (2 * S n < S f)%nat → (2 * n < f)%nat.
Proof. lia. Qed.

(** The scanner reads back every value within the bounds. *)
Lemma scan_emit p : ∀ d, reads_back d p.
Proof.
  induction p as [|b|z|lex|s|l IH|m IH] using pvalue_induction; intros d Hok fuel rest Hf Hr;
    (destruct fuel as [|fuel]; [lia|]); try done.
  - destruct b; cbn [emit].
    + destruct (word_ok "true" rest) as [Hs Ha]. change (codes "true") with [116; 114; 117; 101] in *.
      cbn [app scan_once Z.eqb Pos.eqb]. cbn [app] in Hs, Ha. by rewrite Hs, Ha.
    + destruct (word_ok "false" rest) as [Hs Ha]. change (codes "false") with [102; 97; 108; 115; 101] in *.
      cbn [app scan_once Z.eqb Pos.eqb]. cbn [app] in Hs, Ha. by rewrite Hs, Ha.
  - cbn [emit] in *. pose proof (scan_number_ok z rest Hok Hr) as Hn.
    destruct (int_repr_shape z) as (neg & c & t & E & Hd & _). rewrite E in *. apply andb_true_iff in Hd as [Hc Hd].
    rewrite <-app_assoc in *. cbn [app] in *.
    assert (Hno : ∀ w x y, codes w = x :: y → digit x = false → (x =? 45) = false → starts w ((if neg then [45] else []) ++ c :: t ++ rest) = false).
    { intros w x y Ew Hx Hx'. unfold starts. apply bool_decide_eq_false. rewrite <-length_codes, Ew. destruct neg; cbn; intros [= <- _]; [done|congruence]. }
    assert (Hinf : starts "-Infinity" ((if neg then [45] else []) ++ c :: t ++ rest) = false).
    { unfold starts. apply bool_decide_eq_false. destruct neg; cbn; intros [= ? _]; subst; done. }
    pose proof (Hno "null" _ _ eq_refl eq_refl eq_refl) as Hn1. pose proof (Hno "true" _ _ eq_refl eq_refl eq_refl) as Hn2.
    pose proof (Hno "false" _ _ eq_refl eq_refl eq_refl) as Hn3. pose proof (Hno "NaN" _ _ eq_refl eq_refl eq_refl) as Hn4.
    pose proof (Hno "Infinity" _ _ eq_refl eq_refl eq_refl) as Hn5. clear Hno.
    destruct neg; cbn [app] in *; cbn [scan_once].
    + cbn [Z.eqb Pos.eqb]. rewrite Hn1, Hn2, Hn3, Hn4, Hn5, Hinf. exact Hn.
    + assert (48 ≤ c ≤ 57) by (unfold digit in Hc; bool_simpl; lia).
      rewrite !(proj2 (Z.eqb_neq c _)) by lia. rewrite Hn1, Hn2, Hn3, Hn4, Hn5, Hinf. exact Hn.
  - cbn [emit] in *. rewrite emit_text_app in *. cbn [scan_once Z.eqb Pos.eqb].
    rewrite scan_string_ok; [done|done|]. rewrite length_app. lia.
  - cbn [emit canonical_ok] in *. destruct Hok as (_ & _ & Hok). rewrite foldr_and_Forall in Hok.
    rewrite <-app_comm_cons, <-app_assoc in *. cbn [app] in *. cbn [scan_once Z.eqb Pos.eqb].
    destruct l as [|q l]; [done|].
    assert (Hh : good_head (commas (map emit (q :: l)) ++ 93 :: rest)).
    { apply commas_head. by eapply emit_head, Forall_inv. }
    cbn [length] in Hf.
    assert (Hs : scan_elements false fuel (commas (map emit (q :: l)) ++ 93 :: rest) = Ret (q :: l, rest)).
    { apply (scan_elements_ok (d + 1)); [|done|done|lia]. eapply Forall_impl; [exact IH|]. intros v Hv. apply Hv. }
    pose proof (head_not_bracket _ (λ r, Ret (PList [], r)) (λ t1, '(l, r) ← scan_elements false fuel t1; Ret (PList l, r)) Hh) as Hb.
    refine (eq_trans Hb _). by rewrite Hs.
  - cbn [emit canonical_ok] in *. destruct Hok as (_ & Hnd & Hok). rewrite foldr_and_Forall in Hok.
    rewrite <-app_comm_cons, <-app_assoc in *. cbn [app] in *. cbn [scan_once Z.eqb Pos.eqb].
    destruct m as [|kv m]; [done|]. change (λ kv, emit_text kv.1 ++ 58 :: emit kv.2) with member_codes in *.
    assert (Hh : good_head (commas (map member_codes (kv :: m)) ++ 125 :: rest)) by (by apply commas_head).
    cbn [length] in Hf.
    assert (Hs : scan_members false fuel (commas (map member_codes (kv :: m)) ++ 125 :: rest) = Ret (kv :: m, rest)).
    { apply (scan_members_ok (d + 1)); [|done|done|by apply half_fuel]. eapply Forall_impl; [exact IH|]. intros v Hv. apply Hv. }
    assert (Hp : object_pairs_hook (kv :: m) = Ret (PDict (kv :: m))) by (unfold object_pairs_hook; by rewrite bool_decide_true).
    pose proof (head_not_brace _ (λ r, v ← object_pairs_hook []; Ret (v, r))
      (λ t1, '(m, r) ← scan_members false fuel t1; v ← object_pairs_hook m; Ret (v, r)) Hh) as Hb.
    refine (eq_trans Hb _).
    rewrite Hs. cbn [mbind outcome_bind]. by rewrite Hp.
Qed.

(** ** The other passes accept what [emit] writes *)
Definition printable (c : Z) : bool := (32 <=? c) && (c <=? 126).
Definition plain (c : Z) : bool := negb ((c =? 34) || (c =? 91) || (c =? 123) || (c =? 93) || (c =? 125)).

Lemma prescan_plain t rest k : forallb plain t = true → prescan (t ++ rest) k false = prescan rest k false.
Proof.
  induction t as [|c t IH]; [done|]. cbn [forallb app prescan]. intros [Hc Ht]%andb_true_iff. unfold plain in Hc.
  rewrite !negb_true_iff, !orb_false_iff in Hc. destruct Hc as [[[[-> ->] ->] ->] ->]. by apply IH.
Qed.

Lemma prescan_string s rest k :
  prescan (concat (map escape_code s) ++ 34 :: rest) k true = prescan rest k false.
Proof.
  induction s as [|c s IH]; [done|]. cbn [map concat]. rewrite <-app_assoc. unfold escape_code at 1.
  destruct ((c =? 34) || (c =? 92)) eqn:E; cbn [app prescan Z.eqb Pos.eqb]; [done|].
  apply orb_false_iff in E as [-> ->]. done.
Qed.

Lemma prescan_text s rest k : prescan (emit_text s ++ rest) k false = prescan rest k false.
Proof. rewrite emit_text_app. cbn [prescan Z.eqb Pos.eqb]. apply prescan_string. Qed.

Lemma prescan_commas xs rest k :
  Forall (λ x, ∀ rest, prescan (x ++ rest) k false = prescan rest k false) xs →
  prescan (commas xs ++ rest) k false = prescan rest k false.
Proof.
  induction 1 as [|x xs Hx Hxs IH]; [done|]. destruct xs as [|y xs]; [apply Hx|].
  rewrite commas_cons by done. rewrite <-app_assoc, Hx. exact IH.
Qed.

Lemma forallb_digit (P : Z → bool) t : (∀ c, digit c = true → P c = true) → forallb digit t = true → forallb P t = true.
Proof. intros H. rewrite !forallb_forall. intros Ht c Hc. by apply H, Ht. Qed.

(** A written integer consists of characters that satisfy [P]. *)
Lemma int_repr_chars (P : Z → bool) z :
  P 45 = true → (∀ c, digit c = true → P c = true) → forallb P (codes (int_repr z)) = true.
Proof.
  intros Hm Hd. destruct (int_repr_shape z) as (neg & c & t & -> & Ht & _). rewrite forallb_app, (forallb_digit P (c :: t) Hd Ht).
  destruct neg; cbn; by rewrite ?Hm.
Qed.

Lemma prescan_emit p : ∀ d, canonical_ok d p → ∀ rest, prescan (emit p ++ rest) (d - 1) false = prescan rest (d - 1) false.
Proof.
  induction p as [|b|z|lex|s|l IH|m IH] using pvalue_induction; intros d Hok rest; cbn [emit]; try done.
  - by destruct b.
  - apply prescan_plain, int_repr_chars; [done|]. unfold digit, plain. intros c Hc. bool_simpl. lia.
  - apply prescan_text.
  - destruct Hok as (Hd & _ & Hok). rewrite foldr_and_Forall in Hok. rewrite <-app_comm_cons, <-app_assoc. cbn [app prescan Z.eqb Pos.eqb orb].
    replace (d - 1 + 1) with (d + 1 - 1) by lia. rewrite (proj2 (Z.leb_le _ _)) by lia. cbn [check_that mbind outcome_bind].
    rewrite prescan_commas.
    + cbn [prescan Z.eqb Pos.eqb orb]. by replace (d + 1 - 1 - 1) with (d - 1) by lia.
    + apply Forall_map. rewrite !Forall_forall in *. intros v Hv rest'. by apply IH, Hok.
  - destruct Hok as (Hd & _ & Hok). rewrite foldr_and_Forall in Hok. rewrite <-app_comm_cons, <-app_assoc. cbn [app prescan Z.eqb Pos.eqb orb].
    replace (d - 1 + 1) with (d + 1 - 1) by lia. rewrite (proj2 (Z.leb_le _ _)) by lia. cbn [check_that mbind outcome_bind].
    rewrite prescan_commas.
    + cbn [prescan Z.eqb Pos.eqb orb]. by replace (d + 1 - 1 - 1) with (d - 1) by lia.
    + apply Forall_map. rewrite !Forall_forall in *. intros kv Hv rest'. cbn [compose]. rewrite <-app_assoc, prescan_text.
      cbn [app prescan Z.eqb Pos.eqb orb]. apply IH; [done|]. by apply Hok.
Qed.

Lemma check_text_ok s ascii_only max_bytes :
  text_ok s = true → MAX_JSON_STRING_BYTES ≤ max_bytes → check_text s ascii_only max_bytes = Ret tt.
Proof.
  unfold text_ok, check_text. intros [Hs Hl]%andb_true_iff Hm. bool_simpl.
  assert (existsb (λ c, (c =? 0) || is_surrogate c) s = false) as ->.
  { apply not_true_iff_false. intros (c & Hc & E)%existsb_exists. rewrite forallb_forall in Hs. specialize (Hs c Hc).
    unfold is_surrogate in E. bool_simpl. lia. }
  rewrite Hs, orb_true_r. cbn. by rewrite (proj2 (Z.leb_le _ _)) by lia.
Qed.

Lemma check_keys_ok (ks : list text) ascii_only max_bytes :
  Forall (λ k, text_ok k = true) ks → MAX_JSON_STRING_BYTES ≤ max_bytes →
  fold_outcome (λ _ key, check_text key ascii_only max_bytes) tt ks = Ret tt.
Proof. intros H Hm. induction H as [|k ks Hk _ IH]; [done|]. cbn. by rewrite check_text_ok. Qed.

Lemma foldr_check {A} (f : A → outcome unit) l : Forall (λ x, f x = Ret tt) l → foldr (λ x rest, f x;; rest) (Ret tt) l = Ret tt.
Proof. induction 1 as [|x l Hx _ IH]; [done|]. cbn. by rewrite Hx. Qed.

Lemma check_value_ok ascii_only max_bytes p : MAX_JSON_STRING_BYTES ≤ max_bytes →
  ∀ d, canonical_ok d p → check_value ascii_only max_bytes p d = Ret tt.
Proof.
  intros Hm. induction p as [|b|z|lex|s|l IH|m IH] using pvalue_induction; intros d Hok; try done.
  - by apply check_text_ok.
  - destruct Hok as (Hd & Hl & Hok). rewrite foldr_and_Forall in Hok. cbn. rewrite !(proj2 (Z.leb_le _ _)) by done.
    apply foldr_check. rewrite !Forall_forall in *. intros v Hv. by apply IH, Hok.
  - destruct Hok as (Hd & _ & Hok). rewrite foldr_and_Forall in Hok. cbn. rewrite (proj2 (Z.leb_le _ _)) by done.
    cbn [check_that mbind outcome_bind]. rewrite check_keys_ok; [|apply Forall_map; eapply Forall_impl; [exact Hok|]; by intros kv []|done].
    apply (foldr_check (λ kv : text * pvalue, check_value ascii_only max_bytes kv.2 (d + 1))).
    rewrite !Forall_forall in *. intros kv Hv. apply IH; [done|]. by apply Hok.
Qed.

Lemma emit_text_printable s : text_ok s = true → forallb printable (emit_text s) = true.
Proof.
  unfold text_ok, emit_text. intros [Hs _]%andb_true_iff. cbn. rewrite forallb_app. cbn. rewrite andb_true_r.
  induction s as [|c s IH]; [done|]. cbn in Hs. apply andb_true_iff in Hs as [Hc Hs]. cbn. rewrite forallb_app, IH by done.
  unfold escape_code. rewrite andb_true_r. destruct ((c =? 34) || _); cbn; unfold printable; by rewrite Hc.
Qed.

Lemma commas_printable xs : Forall (λ x, forallb printable x = true) xs → forallb printable (commas xs) = true.
Proof.
  induction 1 as [|x xs Hx _ IH]; [done|]. destruct xs; [done|]. rewrite commas_cons by done. rewrite forallb_app, Hx. exact IH.
Qed.

Lemma emit_printable p : ∀ d, canonical_ok d p → forallb printable (emit p) = true.
Proof.
  induction p as [|b|z|lex|s|l IH|m IH] using pvalue_induction; intros d Hok; cbn [emit]; try done.
  - by destruct b.
  - apply int_repr_chars; [done|]. unfold digit, printable. intros c Hc. bool_simpl. lia.
  - by apply emit_text_printable.
  - destruct Hok as (_ & _ & Hok). rewrite foldr_and_Forall in Hok. cbn. rewrite forallb_app. cbn. rewrite andb_true_r.
    apply commas_printable, Forall_map. rewrite !Forall_forall in *. intros v Hv. by eapply IH, Hok.
  - destruct Hok as (_ & _ & Hok). rewrite foldr_and_Forall in Hok. cbn. rewrite forallb_app. cbn. rewrite andb_true_r.
    apply commas_printable, Forall_map. rewrite !Forall_forall in *. intros kv Hv. destruct (Hok kv Hv) as [Hk Hv'].
    change (forallb printable (emit_text kv.1 ++ 58 :: emit kv.2) = true). rewrite forallb_app, emit_text_printable by done. cbn. by eapply IH.
Qed.

Lemma utf8_printable t : forallb printable t = true → utf8_decode t = Some t.
Proof.
  induction t as [|c t IH]; [done|]. cbn [forallb]. intros [Hc Ht]%andb_true_iff. unfold printable in Hc. bool_simpl.
  cbn [utf8_decode]. assert (c <? 128 = true) as -> by (apply Z.ltb_lt; lia). by rewrite IH.
Qed.

(** The parser reads every text that [emit] writes. *)
Lemma parse_emit b p max_bytes ascii_only max_string :
  canonical_ok 1 p → codes b = emit p → str_len b ≤ max_bytes ≤ MAX_JSON_DOCUMENT_BYTES →
  MAX_JSON_STRING_BYTES ≤ max_string ≤ MAX_JSON_DOCUMENT_BYTES →
  parse_json (Some b) (VInt max_bytes) "integer" (Some ascii_only) (VInt max_string) = Ret p.
Proof.
  intros Hok Hb Hmax Hms. pose proof (emit_head 1 p Hok) as Hh. pose proof (emit_printable p 1 Hok) as Hp.
  assert (Hlen : str_len b = Z.of_nat (length (emit p))) by (unfold str_len; by rewrite <-length_codes, Hb).
  unfold parse_json. rewrite Hb, utf8_printable by done.
  assert (1 ≤ str_len b). { rewrite Hlen. destruct (emit p); [done|]. cbn [length]. lia. }
  unfold MAX_JSON_STRING_BYTES in *. rewrite !(proj2 (Z.leb_le _ _)) by lia. cbn [andb str_in existsb check_that mbind outcome_bind].
  change (str_in "integer" _) with true. cbn [andb check_that mbind outcome_bind].
  rewrite (bool_decide_false (take 3 (emit p) = _)).
  2: { intros E. destruct (emit p) as [|c t]; [done|]. cbn in Hp, E. injection E as -> _. done. }
  cbn [negb check_that mbind outcome_bind].
  assert (all_chars (λ c, (32 <=? ord c) && (ord c <=? 126)) b = true) as ->.
  { change (all_chars (λ c, printable (ord c)) b = true). by rewrite <-forallb_codes, Hb. }
  rewrite orb_true_r. cbn [check_that mbind outcome_bind].
  assert (_prescan_depth (emit p) = Ret tt) as ->.
  { unfold _prescan_depth. rewrite <-(app_nil_r (emit p)). exact (prescan_emit p 1 Hok []). }
  cbn [mbind outcome_bind].
  rewrite (bool_decide_false ("integer" = _)) by done. unfold json_loads. rewrite good_head_ws by done.
  pose proof (scan_emit p 1 Hok (2 * length (emit p) + 2)%nat []) as Hs. rewrite app_nil_r in Hs. rewrite Hs; [|lia|done].
  cbn [mbind outcome_bind skip_ws]. rewrite postwalk_check.
  by rewrite check_value_ok by first [done|unfold MAX_JSON_STRING_BYTES; lia].
Qed.

(** ** What the encoder writes *)
Definition key_of (k : jvalue) : string := match k with JVStr s => s | _ => EmptyString end.

(** The value a reader of the encoder's text sees. *)
Fixpoint embed (v : jvalue) : pvalue :=
  match v with
  | JVNone | JVOther => PNone
  | JVBool b => PBool b
  | JVInt z => PInt z
  | JVStr s => PStr (codes s)
  | JVList l => PList (map embed l)
  | JVDict m => PDict (map (λ kv, (codes kv.1, kv.2)) (sort_keys (map (λ kv, (key_of kv.1, embed kv.2)) m)))
  end.

(** The keys of every dict of a Python value are distinct. *)
Fixpoint distinct_keys (v : jvalue) : Prop :=
  match v with
  | JVList l => foldr (λ v acc, distinct_keys v ∧ acc) True l
  | JVDict m => NoDup m.*1 ∧ foldr (λ kv acc, distinct_keys kv.2 ∧ acc) True m
  | _ => True
  end.

Section jvalue_ind.
Context (P : jvalue → Prop).
Context (HNone : P JVNone) (HBool : ∀ b, P (JVBool b)) (HInt : ∀ z, P (JVInt z)) (HStr : ∀ s, P (JVStr s)) (HOther : P JVOther).
Context (HList : ∀ l, Forall P l → P (JVList l)) (HDict : ∀ m, Forall (λ kv, P kv.2) m → P (JVDict m)).

Fixpoint jvalue_induction (v : jvalue) : P v :=
  match v with
  | JVNone => HNone | JVBool b => HBool b | JVInt z => HInt z | JVStr s => HStr s | JVOther => HOther
  | JVList l => HList l ((fix go l := match l return Forall P l with
      | [] => Forall_nil_2 _ | x :: l => Forall_cons_2 _ _ _ (jvalue_induction x) (go l) end) l)
  | JVDict m => HDict m ((fix go m := match m return Forall (λ kv, P kv.2) m with
      | [] => Forall_nil_2 _ | x :: m => Forall_cons_2 _ _ _ (jvalue_induction x.2) (go m) end) m)
  end.
End jvalue_ind.

Lemma sort_keys_map {A B} (f : A → B) (l : list (string * A)) :
  sort_keys (map (λ kv, (kv.1, f kv.2)) l) = map (λ kv, (kv.1, f kv.2)) (sort_keys l).
Proof.
  unfold sort_keys. induction l as [|kv l IH]; [done|]. cbn [map foldr]. rewrite IH. generalize (foldr insert_key [] l). intros m.
  induction m as [|kv' m IHm]; [done|]. cbn. destruct (String.leb _ _); [done|]. cbn. by rewrite IHm.
Qed.

Lemma sort_keys_perm {A} (l : list (string * A)) : sort_keys l ≡ₚ l.
Proof.
  unfold sort_keys. induction l as [|kv l IH]; [done|]. cbn [foldr]. rewrite <-IH at 2. generalize (foldr insert_key [] l). intros m.
  induction m as [|kv' m IHm]; [done|]. cbn. destruct (String.leb _ _); [done|]. rewrite IHm. apply Permutation_swap.
Qed.

Lemma seq_outcomes_ret {A B} (f : A → outcome B) xs ys :
  seq_outcomes (map f xs) = Ret ys → Forall2 (λ x y, f x = Ret y) xs ys.
Proof.
  revert ys. induction xs as [|x xs IH]; cbn; intros ys H; [injection H as <-; constructor|].
  destruct (f x) eqn:E; [|done]. cbn in H. destruct (seq_outcomes (map f xs)); [|done]. cbn in H. injection H as <-. constructor; auto.
Qed.

Lemma ord_inj a b : ord a = ord b → a = b.
Proof. unfold ord. intros H. rewrite <-(ascii_nat_embedding a), <-(ascii_nat_embedding b). f_equal. lia. Qed.

#[export] Instance codes_inj : Inj eq eq codes.
Proof.
  intros s t. revert t. induction s as [|a s IH]; intros [|b t] H; try done.
  change (ord a :: codes s = ord b :: codes t) in H. injection H as Ha%ord_inj Ht. by rewrite Ha, (IH _ Ht).
Qed.

Lemma encode_char_codes c : printable (ord c) = true → codes (encode_char c) = escape_code (ord c).
Proof. destruct c as [[] [] [] [] [] [] [] []]; intros H; first [vm_compute; reflexivity|vm_compute in H; discriminate]. Qed.

Lemma check_string_ok s code : _check_string s true code MAX_JSON_STRING_BYTES = Ret tt →
  text_ok (codes s) = true ∧ codes (_encode_string s) = emit_text (codes s).
Proof.
  unfold _check_string, text_ok. intros H. inv_do. repeat match goal with X : (utf8_len _ <=? _) = true |- _ => revert X end. intros H.
  match goal with X : negb true || _ = true |- _ => rename X into Hp end.
  cbn [negb orb] in Hp. rewrite forallb_codes. change (all_chars (λ c, printable (ord c)) s = true) in Hp.
  change (all_chars (λ c, (32 <=? ord c) && (ord c <=? 126)) s) with (all_chars (λ c, printable (ord c)) s). rewrite Hp.
  split.
  - cbn [andb]. rewrite <-H. f_equal. unfold text_bytes. clear. induction s as [|c s IH]; [done|].
    change (codes (String c s)) with (ord c :: codes s). cbn [foldr utf8_len]. rewrite IH. f_equal.
    unfold utf8_width. assert (ord c < 256) by (unfold ord; pose proof (nat_ascii_bounded c); lia).
    destruct (ord c <? 128); [done|]. by rewrite (proj2 (Z.ltb_lt _ _)) by lia.
  - unfold _encode_string, emit_text. rewrite !codes_app. change (codes dquote) with [34]. cbn [app]. f_equal. f_equal.
    clear -Hp. induction s as [|c s IH]; [done|]. cbn [all_chars] in Hp. apply andb_true_iff in Hp as [Hc Hs]. cbn [encode_chars].
    rewrite codes_app, encode_char_codes, IH by done. done.
Qed.

Lemma check_keys_ret m ks : check_keys m true = Ret ks →
  ks = map (λ kv, key_of kv.1) m ∧ Forall (λ kv, kv.1 = JVStr (key_of kv.1)) m ∧ Forall (λ k, text_ok (codes k) = true ∧
    codes (_encode_string k) = emit_text (codes k)) ks.
Proof.
  revert ks. induction m as [|[k v] m IH]; cbn; intros ks H; [injection H as <-; by split_and!|].
  destruct k; try done. inv_do. match goal with X : _check_string _ _ _ _ = Ret ?u |- _ => destruct u; apply check_string_ok in X end.
  injection H as <-. match goal with X : check_keys _ _ = Ret _ |- _ => apply IH in X as (-> & ? & ?) end.
  split_and!; [done|by constructor|by constructor].
Qed.

Lemma check_string_ret s ascii code n u : _check_string s ascii code n = Ret u → _check_string s ascii code n = Ret tt.
Proof. by destruct u. Qed.

Lemma Forall2_codes {A} (f : A → text) (Q : A → Prop) xs parts :
  Forall2 (λ x part, codes part = f x ∧ Q x) xs parts → map codes parts = map f xs ∧ Forall Q xs.
Proof. induction 1 as [|x part xs parts [Hf HQ] _ [IH1 IH2]]; [by split|]. cbn. rewrite Hf, IH1. by split; [|constructor]. Qed.

(** The members of a dict as the sorting sees them. *)
Definition named (m : list (jvalue * jvalue)) : list (string * jvalue) := map (λ kv, (key_of kv.1, kv.2)) m.

Lemma named_keys m : (named m).*1 = map (λ kv, key_of kv.1) m.
Proof. unfold named. by rewrite <-list_fmap_compose. Qed.

Lemma sorted_members {A} (f : jvalue → A) m :
  sort_keys (zip (map (λ kv, key_of kv.1) m) (map (λ kv, f kv.2) m)) = map (λ kv, (kv.1, f kv.2)) (sort_keys (named m)).
Proof. rewrite <-sort_keys_map. f_equal. induction m as [|kv m IH]; [done|]. cbn. by rewrite IH. Qed.

Lemma embed_members m :
  map (λ kv, (codes kv.1, kv.2)) (sort_keys (map (λ kv : jvalue * jvalue, (key_of kv.1, embed kv.2)) m)) =
  map (λ kv, (codes kv.1, embed kv.2)) (sort_keys (named m)).
Proof.
  transitivity (map (λ kv : string * pvalue, (codes kv.1, kv.2)) (sort_keys (map (λ kv, (kv.1, embed kv.2)) (named m)))).
  - unfold named. by rewrite map_map.
  - by rewrite sort_keys_map, map_map.
Qed.

Lemma NoDup_named m : NoDup m.*1 → Forall (λ kv, kv.1 = JVStr (key_of kv.1)) m →
  NoDup (map (λ kv, (codes kv.1, embed kv.2)) (sort_keys (named m))).*1.
Proof.
  intros Hnd Hkeys. change (NoDup (fst <$> ((λ kv, (codes kv.1, embed kv.2)) <$> sort_keys (named m)))).
  rewrite <-list_fmap_compose. change (NoDup ((codes ∘ fst) <$> sort_keys (named m))). rewrite list_fmap_compose.
  apply NoDup_fmap_2; [apply _|]. rewrite sort_keys_perm, named_keys.
  assert (m.*1 = JVStr <$> map (λ kv, key_of kv.1) m) as Hm.
  { clear Hnd. induction Hkeys as [|kv m Hk _ IH]; [done|]. cbn. rewrite <-Hk. f_equal. exact IH. }
  rewrite Hm in Hnd. by apply NoDup_fmap_1 in Hnd.
Qed.

(** The encoder writes the text of [embed value], and only for values within
    the bounds the parser checks. *)
Lemma canonicalize_emits v : ∀ d b, distinct_keys v → _canonicalize v d true = Ret b →
  codes b = emit (embed v) ∧ canonical_ok d (embed v).
Proof.
  induction v as [|b'|z|s| |l IH|m IH] using jvalue_induction; intros d b Hdk H; cbn [_canonicalize] in H.
  - by injection H as <-.
  - injection H as <-. by destruct b'.
  - inv_do. injection H as <-. split; [done|]. cbn. by apply Z.leb_le.
  - inv_do. injection H as <-. match goal with X : _check_string _ _ _ _ = _ |- _ => apply check_string_ret, check_string_ok in X as [? ?] end. done.
  - done.
  - inv_do. injection H as <-. match goal with X : seq_outcomes _ = _ |- _ => apply seq_outcomes_ret in X as Hparts end.
    cbn [distinct_keys] in Hdk. rewrite foldr_and_Forall in Hdk.
    assert (Hall : Forall2 (λ v part, codes part = emit (embed v) ∧ canonical_ok (d + 1) (embed v)) l a1).
    { revert IH Hdk. clear -Hparts. induction Hparts as [|v part l parts Hv _ IH']; intros IH Hdk; constructor.
      - apply Forall_cons in IH as [IH _]. apply Forall_cons in Hdk as [Hdk _]. by apply IH.
      - apply IH'; by eapply Forall_inv_tail. }
    apply Forall2_codes in Hall as [Hmap Hok]. bool_simpl. split.
    + rewrite !codes_app, codes_join, Hmap. cbn [embed emit]. by rewrite map_map.
    + cbn [embed canonical_ok]. rewrite foldr_and_Forall, length_map, Forall_map. split_and!; lia || done.
  - inv_do. injection H as <-. cbn [distinct_keys] in Hdk. rewrite foldr_and_Forall in Hdk. destruct Hdk as [Hnd Hdk].
    match goal with X : check_keys _ _ = _ |- _ => apply check_keys_ret in X as (-> & Hstr & Hkeys) end.
    match goal with X : seq_outcomes _ = Ret ?ps |- _ => rename X into Hparts; rename ps into parts end.
    rewrite (sorted_members (λ v, _canonicalize v (d + 1) true)), map_map in Hparts. apply seq_outcomes_ret in Hparts.
    cbn [embed]. rewrite embed_members.
    assert (Hall : Forall2 (λ kv part, codes part = member_codes (codes kv.1, embed kv.2) ∧
      (text_ok (codes kv.1) = true ∧ canonical_ok (d + 1) (embed kv.2))) (sort_keys (named m)) parts).
    { assert (Hm : Forall (λ kv, ∀ part, (body ← _canonicalize kv.2 (d + 1) true; Ret (_encode_string kv.1 +:+ ":" +:+ body)) = Ret part →
        codes part = member_codes (codes kv.1, embed kv.2) ∧ (text_ok (codes kv.1) = true ∧ canonical_ok (d + 1) (embed kv.2)))
        (sort_keys (named m))).
      { rewrite sort_keys_perm. unfold named. apply Forall_map. rewrite Forall_map in Hkeys.
        rewrite Forall_forall in *. intros kv Hkv part Hp. cbn [fst snd compose] in *. inv_do. injection Hp as <-.
        destruct (Hkeys kv Hkv) as [Hk He]. edestruct (IH kv Hkv) as [Hc Hv]; [by apply Hdk|done|].
        rewrite !codes_app, He, Hc. done. }
      clear -Hparts Hm. induction Hparts; constructor; [|apply IHHparts]; apply Forall_cons in Hm as [? ?]; auto. }
    apply Forall2_codes in Hall as [Hmap Hok]. bool_simpl. split.
    + rewrite !codes_app, codes_join, Hmap. cbn [emit]. by rewrite map_map.
    + cbn [canonical_ok]. rewrite foldr_and_Forall, Forall_map. split_and!; [lia|by apply NoDup_named|done].
Qed.


Definition sample_value : jvalue :=
  JVDict [(JVStr "b", JVList [JVNone; JVBool true; JVInt (-12)]); (JVStr "a", JVStr ("x" +:+ dquote))].

(** A canonical document determines its value.  Two Python values with the
    same encoding are the same value up to the order of dict members, so two
    policies or manifests share a digest only if they share their content or
    SHA-256 collides. *)
Theorem canonical_json_is_injective v w b :
  distinct_keys v → distinct_keys w → canonical_json v true = Ret b → canonical_json w true = Ret b → embed v = embed w.
Proof.
  intros Hv Hw Hb Hc. apply canonicalize_emits in Hb as [Hb Hv']; [|done]. apply canonicalize_emits in Hc as [Hc Hw']; [|done].
  pose proof (scan_emit _ _ Hv' (S (2 * length (codes b)))%nat []) as H1. pose proof (scan_emit _ _ Hw' (S (2 * length (codes b)))%nat []) as H2.
  rewrite app_nil_r in *. rewrite <-Hb in H1. rewrite <-Hc in H2. rewrite H1 in H2 by (done || lia).
  specialize (H2 ltac:(lia) I). by injection H2.
Qed.

Lemma canonical_json_is_injective_witness :
  embed sample_value = embed (JVDict [(JVStr "a", JVStr ("x" +:+ dquote)); (JVStr "b", JVList [JVNone; JVBool true; JVInt (-12)])]).
Proof.
  destruct (canonical_json sample_value true) as [b|e] eqn:E; [|vm_compute in E; discriminate E].
  refine (canonical_json_is_injective sample_value _ b _ _ E _); [| |rewrite <-E; vm_compute; reflexivity];
    cbn; split_and!; try done; (apply NoDup_cons; split; [|apply NoDup_singleton]; intros ?%list_elem_of_singleton; discriminate).
Defined.

(** ** The encoder is total within its bounds *)
Definition clean_char (c : ascii) : bool := (32 <=? ord c) && (ord c <=? 126).
Definition clean (s : string) : Prop := all_chars clean_char s = true ∧ str_len s ≤ MAX_JSON_STRING_BYTES.

Fixpoint encodable (d : Z) (v : jvalue) : Prop :=
  match v with
  | JVNone | JVBool _ => True
  | JVInt z => Z.abs z ≤ MAX_SAFE_INTEGER
  | JVStr s => clean s
  | JVList l => d ≤ MAX_JSON_DEPTH ∧ Z.of_nat (length l) ≤ MAX_JSON_ARRAY_ITEMS ∧
      foldr (λ v acc, encodable (d + 1) v ∧ acc) True l
  | JVDict m => d ≤ MAX_JSON_DEPTH ∧
      foldr (λ kv acc, (kv.1 = JVStr (key_of kv.1) ∧ clean (key_of kv.1) ∧ encodable (d + 1) kv.2) ∧ acc) True m
  | JVOther => False
  end.

(** A bound on the length of the text of a value. *)
Fixpoint weight (v : jvalue) : Z :=
  match v with
  | JVNone | JVBool _ => 5
  | JVInt _ => 17
  | JVStr s => 2 * str_len s + 2
  | JVList l => 2 + foldr (λ v acc, weight v + 1 + acc) 0 l
  | JVDict m => 2 + foldr (λ kv acc, 2 * str_len (key_of kv.1) + weight kv.2 + 4 + acc) 0 m
  | JVOther => 0
  end.

Lemma utf8_len_clean s : all_chars clean_char s = true → utf8_len s = str_len s.
Proof.
  unfold str_len. induction s as [|c s IH]; [done|]. cbn [all_chars utf8_len String.length]. intros [Hc Hs]%andb_true_iff.
  rewrite IH by done. unfold clean_char in Hc. bool_simpl. rewrite (proj2 (Z.ltb_lt _ _)) by lia. lia.
Qed.

Lemma check_string_clean s ascii code : clean s → _check_string s ascii code MAX_JSON_STRING_BYTES = Ret tt.
Proof.
  intros [Hs Hl]. unfold _check_string. rewrite utf8_len_clean by done. change (λ c, (32 <=? ord c) && (ord c <=? 126)) with clean_char.
  rewrite Hs, orb_true_r, (proj2 (Z.leb_le _ _)) by done.
  rewrite (all_chars_impl clean_char) by first [done|unfold clean_char; intros c Hc; bool_simpl; apply negb_true_iff, Z.eqb_neq; lia].
  done.
Qed.

Lemma encode_char_len c : clean_char c = true → str_len (encode_char c) ≤ 2.
Proof. destruct c as [[] [] [] [] [] [] [] []]; intros H; first [vm_compute; discriminate|vm_compute in H; discriminate]. Qed.

Lemma encode_string_len s : all_chars clean_char s = true → str_len (_encode_string s) ≤ 2 * str_len s + 2.
Proof.
  intros H. unfold _encode_string. rewrite !str_len_app. change (str_len dquote) with 1.
  assert (str_len (encode_chars s) ≤ 2 * str_len s); [|lia].
  induction s as [|c s IH]; [done|]. cbn [all_chars] in H. apply andb_true_iff in H as [Hc Hs]. cbn [encode_chars].
  rewrite str_len_app. pose proof (encode_char_len c Hc). specialize (IH Hs). unfold str_len in *. cbn [String.length]. lia.
Qed.

Lemma int_repr_bound z : Z.abs z ≤ MAX_SAFE_INTEGER → str_len (int_repr z) ≤ 17.
Proof.
  intros Hz. destruct (int_repr_shape z) as (neg & c & t & E & _ & _ & _ & Hl). specialize (Hl Hz).
  unfold str_len. rewrite <-length_codes, E, length_app. destruct neg; cbn [length] in *; lia.
Qed.

Lemma seq_outcomes_total {A B} (f : A → outcome B) xs : Forall (λ x, ∃ b, f x = Ret b) xs → ∃ bs, seq_outcomes (map f xs) = Ret bs.
Proof. induction 1 as [|x xs (b & Hb) _ (bs & IH)]; [by exists []|]. exists (b :: bs). cbn. by rewrite Hb, IH. Qed.

Lemma sum_bound {A} (w : A → Z) xs parts :
  Forall2 (λ x part, str_len part ≤ w x) xs parts → sum_len parts ≤ foldr (λ x acc, w x + acc) 0 xs ∧ length parts = length xs.
Proof. unfold sum_len. induction 1 as [|x part xs parts Hx _ [IH1 IH2]]; cbn [foldr length]; lia. Qed.

Lemma foldr_sum_perm {A} (w : A → Z) xs ys : Permutation xs ys → foldr (λ x acc, w x + acc) 0 xs = foldr (λ x acc, w x + acc) 0 ys.
Proof. induction 1; cbn [foldr]; lia. Qed.

Lemma foldr_sum_shift {A} (w : A → Z) k xs : foldr (λ x acc, w x + acc) 0 xs + k * Z.of_nat (length xs) = foldr (λ x acc, w x + k + acc) 0 xs.
Proof. induction xs as [|x xs IH]; cbn [foldr length]; [lia|]. lia. Qed.

(** The text of a container: its parts, the commas between them and the
    brackets. *)
Lemma bracketed_len {A} (w : A → Z) xs parts a b :
  Forall2 (λ x part, str_len part ≤ w x) xs parts → str_len a = 1 → str_len b = 1 →
  str_len (a +:+ join "," parts +:+ b) ≤ 2 + foldr (λ x acc, w x + 1 + acc) 0 xs.
Proof.
  intros [H Hlen]%sum_bound Ha Hb. rewrite !str_len_app, Ha, Hb, str_len_join. pose proof (foldr_sum_shift w 1 xs). lia.
Qed.

Lemma Forall2_zip_with {A B} (P : A → B → Prop) (f : A → outcome B) xs ys :
  Forall2 (λ x y, f x = Ret y) xs ys → Forall (λ x, ∀ y, f x = Ret y → P x y) xs → Forall2 P xs ys.
Proof. induction 1; intros H'; inversion H'; subst; constructor; auto. Qed.

Lemma check_keys_total m ascii :
  Forall (λ kv, kv.1 = JVStr (key_of kv.1) ∧ clean (key_of kv.1)) m → check_keys m ascii = Ret (map (λ kv, key_of kv.1) m).
Proof.
  induction 1 as [|[k v] m [Hk Hc] _ IH]; [done|]. cbn in Hk, Hc. destruct k; try done. cbn.
  by rewrite check_string_clean, IH.
Qed.

Lemma canonicalize_total ascii v : ∀ d, encodable d v → ∃ b, _canonicalize v d ascii = Ret b ∧ str_len b ≤ weight v.
Proof.
  induction v as [|[]|z|s| |l IH|m IH] using jvalue_induction; intros d Hok; cbn [_canonicalize].
  - eexists. split; [done|]. vm_compute. discriminate.
  - eexists. split; [done|]. vm_compute. discriminate.
  - eexists. split; [done|]. vm_compute. discriminate.
  - cbn in Hok. rewrite (proj2 (Z.leb_le _ _)) by done. eexists. split; [done|]. by apply int_repr_bound.
  - cbn [encodable] in Hok. rewrite check_string_clean by done. eexists. split; [done|]. by apply encode_string_len, Hok.
  - done.
  - destruct Hok as (Hd & Hlen & Hok). rewrite foldr_and_Forall in Hok. rewrite !(proj2 (Z.leb_le _ _)) by done.
    cbn [check_that mbind outcome_bind].
    assert (Hall : Forall (λ v, ∃ b, _canonicalize v (d + 1) ascii = Ret b ∧ str_len b ≤ weight v) l).
    { rewrite Forall_forall in *. intros v Hv. by apply IH, Hok. }
    destruct (seq_outcomes_total (λ v, _canonicalize v (d + 1) ascii) l) as [parts Hp].
    { eapply Forall_impl; [exact Hall|]. intros v (b & Hb & _). eauto. }
    rewrite Hp. cbn [mbind outcome_bind]. eexists. split; [reflexivity|]. cbn [weight]. apply bracketed_len; [|done|done].
    apply seq_outcomes_ret in Hp. eapply Forall2_zip_with; [exact Hp|]. eapply Forall_impl; [exact Hall|].
    intros v (b & Hb & Hw) y Hy. congruence.
  - destruct Hok as (Hd & Hok). rewrite foldr_and_Forall in Hok. rewrite (proj2 (Z.leb_le _ _)) by done.
    cbn [check_that mbind outcome_bind]. rewrite check_keys_total.
    2: { eapply Forall_impl; [exact Hok|]. by intros kv (? & ? & _). }
    cbn [mbind outcome_bind]. rewrite (sorted_members (λ v, _canonicalize v (d + 1) ascii)), map_map.
    pose (w := λ kv : string * jvalue, 2 * str_len kv.1 + weight kv.2 + 3).
    assert (Hall : Forall (λ kv, ∃ b, (body ← _canonicalize kv.2 (d + 1) ascii; Ret (_encode_string kv.1 +:+ ":" +:+ body)) = Ret b ∧
      str_len b ≤ w kv) (sort_keys (named m))).
    { rewrite sort_keys_perm. unfold named. apply Forall_map. rewrite Forall_forall in *. intros kv Hkv.
      destruct (Hok kv Hkv) as (_ & [Hc _] & Hv). destruct (IH kv Hkv _ Hv) as (b & Hb & Hw). unfold w. cbn [fst snd compose]. rewrite Hb.
      eexists. split; [done|]. rewrite !str_len_app. pose proof (encode_string_len _ Hc). change (str_len ":") with 1. lia. }
    destruct (seq_outcomes_total (λ kv : string * jvalue,
      body ← _canonicalize kv.2 (d + 1) ascii; Ret (_encode_string kv.1 +:+ ":" +:+ body)) (sort_keys (named m))) as [parts Hp].
    { eapply Forall_impl; [exact Hall|]. intros kv (b & Hb & _). eauto. }
    cbn [fst snd] in *. rewrite Hp. cbn [mbind outcome_bind]. eexists. split; [reflexivity|]. etransitivity.
    + apply (bracketed_len w (sort_keys (named m))); [|done|done]. apply seq_outcomes_ret in Hp. eapply Forall2_zip_with; [exact Hp|].
      eapply Forall_impl; [exact Hall|]. intros kv (b & Hb & Hw) y Hy. cbn in *. rewrite Hy in Hb. injection Hb as ->. done.
    + cbn [weight]. rewrite (foldr_sum_perm (λ kv, w kv + 1) _ _ (sort_keys_perm (named m))). unfold named, w.
      clear. induction m as [|kv m IHm]; cbn [map foldr fst snd]; lia.
Qed.

Lemma tagged_digest_hex tag v d : tagged_digest tag v = Ret d → str_len d = 64 ∧ all_chars (char_in HEX_DIGITS) d = true.
Proof. unfold tagged_digest. intros H. inv_do. injection H as <-. apply sha256_hex_shape. Qed.

Lemma tagged_digest_returns tag v : valid_tag tag = true → encodable 1 v → ∃ d, tagged_digest tag v = Ret d.
Proof.
  intros Ht Hv. unfold tagged_digest, canonical_json. rewrite Ht. cbn [check_that mbind outcome_bind].
  destruct (canonicalize_total true v 1 Hv) as (b & -> & _). cbn [mbind outcome_bind]. eauto.
Qed.

Lemma Forall2_in_l {A B} (P : A → B → Prop) xs ys x : Forall2 P xs ys → x ∈ xs → ∃ y, P x y.
Proof. intros H [i Hi]%list_elem_of_lookup. destruct (Forall2_lookup_l P _ _ _ _ H Hi) as (y & _ & Hy). by exists y. Qed.

(** What is encoded is within the bounds, and within them at every lesser depth. *)
Lemma check_string_is_clean s code u : _check_string s true code MAX_JSON_STRING_BYTES = Ret u → clean s.
Proof.
  unfold _check_string. change (λ c, (32 <=? ord c) && (ord c <=? 126)) with clean_char. intros H. inv_do. bool_simpl.
  cbn [negb orb] in *. split; [done|]. rewrite <-utf8_len_clean by done. lia.
Qed.
Lemma check_keys_clean m ks : check_keys m true = Ret ks → Forall (λ kv, kv.1 = JVStr (key_of kv.1) ∧ clean (key_of kv.1)) m.
Proof.
  revert ks. induction m as [|[k v] m IH]; intros ks H; [constructor|]. destruct k; try done. cbn in H. inv_do. constructor.
  - split; [done|]. by eapply check_string_is_clean.
  - by eapply IH.
Qed.
Lemma canonicalize_encodable v : ∀ d b, _canonicalize v d true = Ret b → encodable d v.
Proof.
  induction v as [|b'|z|s| |l IH|m IH] using jvalue_induction; intros d b H; cbn [_canonicalize] in H; try done; inv_do; bool_simpl; cbn [encodable].
  - done.
  - by eapply check_string_is_clean.
  - rewrite foldr_and_Forall. split_and!; [done..|].
    match goal with X : seq_outcomes _ = Ret _ |- _ => apply seq_outcomes_ret in X; rename X into Hs end.
    rewrite Forall_forall in *. intros v Hv. destruct (Forall2_in_l _ _ _ v Hs Hv) as [y Hy]. by eapply IH.
  - rewrite foldr_and_Forall. split; [done|].
    match goal with X : check_keys _ _ = Ret _ |- _ => pose proof (check_keys_clean _ _ X) as Hk; rewrite check_keys_total in X by done; injection X as <- end.
    match goal with X : seq_outcomes _ = Ret _ |- _ => rewrite (sorted_members (λ v, _canonicalize v (d + 1) true)), map_map in X; apply seq_outcomes_ret in X; rename X into Hs end.
    rewrite Forall_forall in *. intros kv Hkv. destruct (Hk kv Hkv) as [Hk1 Hk2]. split_and!; [done..|].
    assert ((key_of kv.1, kv.2) ∈ sort_keys (named m)) as Hin.
    { rewrite sort_keys_perm. unfold named. apply list_elem_of_fmap. by exists kv. }
    destruct (Forall2_in_l _ _ _ _ Hs Hin) as [y Hy]. cbn [fst snd] in Hy. inv_do. by eapply IH.
Qed.
Lemma encodable_shallower v : ∀ d d', d' ≤ d → encodable d v → encodable d' v.
Proof.
  induction v as [|b'|z|s| |l IH|m IH] using jvalue_induction; intros d d' Hle H; cbn [encodable] in *; try done.
  - destruct H as (Hd & Hl & H). rewrite foldr_and_Forall in *. split_and!; [lia|done|]. rewrite Forall_forall in *.
    intros v Hv. eapply (IH v Hv (d + 1)); [lia|by apply H].
  - destruct H as (Hd & H). rewrite foldr_and_Forall in *. split; [lia|]. rewrite Forall_forall in *.
    intros kv Hkv. destruct (H kv Hkv) as (? & ? & Hv). split_and!; [done..|]. eapply (IH kv Hkv (d + 1)); [lia|done].
Qed.

(** A class of characters, all of them printable. *)
Lemma clean_class alphabet s n :
  all_chars clean_char alphabet = true → all_chars (char_in alphabet) s = true → str_len s ≤ n → n ≤ MAX_JSON_STRING_BYTES → clean s.
Proof.
  intros Ha Hs Hl Hn. split; [|lia]. revert Hs. apply all_chars_impl. intros c Hc. by eapply char_in_all.
Qed.
Lemma hex_digits_clean s : str_len s = 64 → all_chars (char_in HEX_DIGITS) s = true → clean s.
Proof. intros Hl Hs. eapply (clean_class HEX_DIGITS _ 64); [vm_compute; reflexivity|done|lia|vm_compute; discriminate]. Qed.
