(* ===== verification/Routes.v ===== *)
(** * The route policy (second part of forwarder_routes.py)

    [parse_scope_manifest], the request digests, [RoutePolicy.route], which
    turns a caller's request into the upstream request of its manifest, and
    [RoutePolicy.check_response].  A [RoutedRequest] object is its contents and
    the number of its allocation; the weak set [_issued] is the map of the
    objects issued so far (an object that is presented is alive).  Parsed
    documents are [JsonParse.pvalue]s: their strings are lists of code points. *)

From stdpp Require Import gmap.
From S2P Require Import Prelude PyValue PyJson Services Sha256 CanonJson PyBytes HttpResponse HttpRequest JsonParse Scope.
Local Open Scope string_scope.
Local Open Scope Z_scope.

Definition UNMATCHED_ROUTE_ID : string := "unmatched".
Definition REQUEST_DIGEST_TAG : string := "maoi.forwarder.request.v1".
Definition DENIED_DIGEST_TAG : string := "maoi.forwarder.request-denied.v1".
Definition MAX_REQUEST_JSON_BYTES : Z := 262144.
Definition MAX_RESPONSE_BYTES : Z := 1048576.
Definition _MAX_ROUTE_ID_LENGTH : Z := 64.
Definition _TEMPLATE_PLACEHOLDER : string := "{label}".

Definition ROUTE_ERROR_REASONS : dict string string :=
  [("request_invalid", "request_rejected"); ("selector_invalid", "request_rejected");
   ("query_rejected", "request_rejected"); ("body_rejected", "request_rejected");
   ("service_unavailable", "route_denied"); ("manifest_mismatch", "route_denied"); ("route_unknown", "route_denied");
   ("route_not_in_scope", "route_denied"); ("selector_out_of_scope", "route_denied");
   ("selector_ambiguous", "route_denied"); ("upstream_unbuildable", "route_denied")].

(** ** Strings of a parsed document *)
Definition char_of_code (c : Z) : option ascii := if (0 <=? c) && (c <? 256) then Some (ascii_of_nat (Z.to_nat c)) else None.

(** The [string] with the given code points, if they are all below 256. *)
Fixpoint string_of_codes (t : text) : option string :=
  match t with
  | [] => Some EmptyString
  | c :: t' => a ← char_of_code c; s ← string_of_codes t'; Some (String a s)
  end.

(** A parsed value as an argument of the manifest constructors; a string they
    could not accept is [VObject]. *)
Definition arg_of (v : pvalue) : pyval :=
  match v with
  | PStr t => match string_of_codes t with Some s => VStr s | None => VObject end
  | PInt z => VInt z
  | PBool b => VBool b
  | PNone => VNone
  | _ => VObject
  end.

(** [document.get(key)], and [document[key] == s]. *)
Fixpoint pget (m : list (text * pvalue)) (key : string) : option pvalue :=
  match m with
  | [] => None
  | (k, v) :: m' => if bool_decide (k = codes key) then Some v else pget m' key
  end.
Definition is_text (v : option pvalue) (s : string) : bool :=
  match v with Some (PStr t) => bool_decide (t = codes s) | _ => false end.
Definition is_pstr (v : pvalue) : bool := match v with PStr _ => true | _ => false end.
Definition keys_within (m : list (text * pvalue)) (allowed : list string) : bool :=
  forallb (λ kv, existsb (λ k, bool_decide (kv.1 = codes k)) allowed) m.
Definition has_key (m : list (text * pvalue)) (key : string) : bool := bool_decide (is_Some (pget m key)).
Definition has_keys (m : list (text * pvalue)) (required : list string) : bool := forallb (has_key m) required.

(** ** Parsing a scope manifest *)
Definition _MANIFEST_TOP_KEYS : list string :=
  ["attempt_id"; "policy_digest"; "rehearsal_id"; "revision"; "routes"; "run_id"; "schema"; "scope"; "service"].
Definition _SCOPE_KEYS : list string := ["issues"; "search_labels"].
Definition _ISSUE_DOC_KEYS : list string := ["id"; "key"].

Definition exact_keys (v : pvalue) (keys : list string) : option (list (text * pvalue)) :=
  match v with PDict m => if has_keys m keys && keys_within m keys then Some m else None | _ => None end.

Definition manifest_invalid {A} : outcome A := Raise (RouteConfigError "manifest_invalid").
Definition str_tuple (v : option pvalue) : option (list pyval) :=
  match v with Some (PList l) => if forallb is_pstr l then Some (map arg_of l) else None | _ => None end.
Definition str_member (m : list (text * pvalue)) (key : string) : outcome pyval :=
  match pget m key with Some (PStr t) => Ret (arg_of (PStr t)) | _ => manifest_invalid end.

Definition issue_of_document (entry : pvalue) : outcome ScopedIssue :=
  match exact_keys entry _ISSUE_DOC_KEYS with
  | None => manifest_invalid
  | Some e => id ← str_member e "id"; key ← str_member e "key"; build_scoped_issue id key
  end.

Definition scope_of_document (v : option pvalue) : outcome JiraScope :=
  match v ≫= λ v, exact_keys v _SCOPE_KEYS with
  | None => manifest_invalid
  | Some sm =>
      match pget sm "issues" with
      | Some (PList entries) =>
          issues ← seq_outcomes (map issue_of_document entries);
          match str_tuple (pget sm "search_labels") with
          | None => manifest_invalid
          | Some labels => build_jira_scope issues (Some labels)
          end
      | _ => manifest_invalid
      end
  end.

Definition _manifest_from_document (parsed : pvalue) : outcome ScopeManifest :=
  match exact_keys parsed _MANIFEST_TOP_KEYS with
  | None => manifest_invalid
  | Some m =>
      check_that (is_text (pget m "schema") SCOPE_SCHEMA) (RouteConfigError "manifest_invalid");;
      scope ← scope_of_document (pget m "scope");
      match str_tuple (pget m "routes") with
      | None => manifest_invalid
      | Some routes =>
          service ← str_member m "service";
          run_id ← str_member m "run_id";
          attempt_id ← str_member m "attempt_id";
          rehearsal_id ← str_member m "rehearsal_id";
          revision ← str_member m "revision";
          policy_digest ← str_member m "policy_digest";
          build_scope_manifest service run_id attempt_id rehearsal_id revision (Some routes) policy_digest scope
      end
  end.

(** [None] is an argument that is not [bytes]. *)
Definition parse_scope_manifest (data : option string) : outcome ScopeManifest :=
  match data with
  | None => manifest_invalid
  | Some data =>
      check_that (str_len data <=? MAX_MANIFEST_BYTES) (RouteConfigError "manifest_too_large");;
      match parse_json (Some data) (VInt MAX_MANIFEST_BYTES) "integer" (Some true) (VInt MAX_JSON_STRING_BYTES) with
      | Raise _ => manifest_invalid
      | Ret parsed =>
          manifest ← _manifest_from_document parsed;
          check_that (String.eqb (sm_canonical manifest) data) (RouteConfigError "manifest_invalid");;
          Ret manifest
      end
  end.

(** ** Request digests *)
Definition _DIGEST_METHODS : list string := ["GET"; "POST"; "PUT"].

(** Words of [[a-z][a-z0-9_]*] separated by dots. *)
Definition _ROUTE_ID_RE (s : string) : bool :=
  forallb (shaped LOWER (LOWER +:+ DIGITS +:+ "_") 0 (str_len s)) (split_char "." s).
Definition _valid_route_id (route_id : pyval) : bool :=
  match route_id with VStr s => (str_len s <=? _MAX_ROUTE_ID_LENGTH) && _ROUTE_ID_RE s | _ => false end.

Definition _valid_target (target : string) : bool :=
  _printable_ascii target && negb (char_in target " ") && String.prefix "/" target && negb (char_in target "#") &&
  (str_len target <=? 2048).

Definition _MAX_MEDIA_TYPE_CHARS : Z := 256.
Definition _valid_media_type (value : string) : bool :=
  _printable_ascii value && (1 <=? str_len value) && (str_len value <=? _MAX_MEDIA_TYPE_CHARS).

Definition _QUERY_UNRESERVED : string := LETTERS_DIGITS +:+ "-._~".
Definition upper_hex (n : Z) : ascii := default "0"%char (String.get (Z.to_nat n) "0123456789ABCDEF").
Fixpoint encode_query_chars (value : string) : string :=
  match value with
  | EmptyString => EmptyString
  | String c s =>
      (if char_in _QUERY_UNRESERVED c then String c EmptyString
       else String "%" (String (upper_hex (ord c / 16)) (String (upper_hex (ord c mod 16)) EmptyString)))
      +:+ encode_query_chars s
  end.
Definition encode_query_value (value : string) : outcome string :=
  check_that (_printable_ascii value) (RouteConfigError "digest_input_invalid");; Ret (encode_query_chars value).

(** The document a request digest is the digest of. *)
Definition request_descriptor (service route_id policy_digest scope_digest : string) (u : UpstreamRequest) : jvalue :=
  jdict [("v", JVInt 1); ("service", JVStr service); ("route_id", JVStr route_id);
         ("policy_digest", JVStr policy_digest); ("scope_digest", JVStr scope_digest);
         ("method", JVStr (ur_method u)); ("target", JVStr (ur_target u)); ("accept", JVStr (ur_accept u));
         ("content_type", match ur_content_type u with Some c => JVStr c | None => JVNone end);
         ("body_bytes", JVInt (str_len (ur_body u)));
         ("body_sha256", if String.eqb (ur_body u) "" then JVNone else JVStr (sha256_hex (ur_body u)))].

(** The fields of an upstream request a digest accepts. *)
Definition digest_input_ok (u : UpstreamRequest) : bool :=
  str_in (ur_method u) _DIGEST_METHODS && _valid_target (ur_target u) && _valid_media_type (ur_accept u) &&
  (str_len (ur_body u) <=? MAX_REQUEST_JSON_BYTES) &&
  match ur_content_type u with Some c => _valid_media_type c | None => true end &&
  Bool.eqb (bool_decide (ur_content_type u = None)) (String.eqb (ur_body u) "") &&
  negb (String.eqb (ur_method u) "GET" && negb (String.eqb (ur_body u) "")).

(** [None] for [upstream] is an object of another type. *)
Definition request_digest (service route_id policy_digest scope_digest : pyval) (upstream : option UpstreamRequest)
    : outcome string :=
  match upstream with
  | None => Raise (RouteConfigError "digest_input_invalid")
  | Some u =>
      check_that (match service with VStr s => known_service s | _ => false end && _valid_route_id route_id &&
                  _valid_hex64 policy_digest && _valid_hex64 scope_digest) (RouteConfigError "digest_input_invalid");;
      check_that (digest_input_ok u) (RouteConfigError "digest_input_invalid");;
      tagged_digest REQUEST_DIGEST_TAG
        (request_descriptor (str_of service) (str_of route_id) (str_of policy_digest) (str_of scope_digest) u)
  end.

Definition denied_request_digest (service route_id : pyval) : outcome string :=
  check_that (match service with VStr s => known_service s | _ => false end) (RouteConfigError "digest_input_invalid");;
  let valid_route_ids :=
    UNMATCHED_ROUTE_ID :: map fst (List.filter (λ kv, String.eqb (rt_service kv.2) (str_of service)) ROUTE_CATALOG) in
  check_that (match route_id with VStr s => str_in s valid_route_ids | _ => false end)
    (RouteConfigError "digest_input_invalid");;
  tagged_digest DENIED_DIGEST_TAG
    (jdict [("v", JVInt 1); ("service", JVStr (str_of service)); ("route_id", JVStr (str_of route_id))]).

(** ** Matching *)
Definition _match_route (request : ParsedRequest) : option (string * option string) :=
  if String.eqb (method request) "GET" then
    let parts := split_char "/" (path request) in
    match drop 5 parts with
    | [selector] =>
        if bool_decide (take 5 parts = [""; "rest"; "api"; "3"; "issue"]) && negb (String.eqb selector "")
        then Some ("jira.issue.get", Some selector) else None
    | _ => None
    end
  else if String.eqb (method request) "POST" && String.eqb (path request) "/rest/api/3/search/jql"
  then Some ("jira.search", None) else None.

Definition _lookup_issue (manifest : ScopeManifest) (selector : string) : option ScopedIssue :=
  List.find (λ entry, String.eqb selector (issue_id entry) || String.eqb selector (issue_key entry))
    (sc_issues (sm_scope manifest)).

(** [s.split(sep)] for a nonempty [sep]. *)
Fixpoint split_str (fuel : nat) (sep s : string) : list string :=
  match fuel, String.index 0 sep s with
  | S fuel, Some i => slice 0 i s :: split_str fuel sep (slice_from (i + String.length sep) s)
  | _, _ => [s]
  end.
Definition template_parts (template : string) : list string :=
  split_str (String.length template) _TEMPLATE_PLACEHOLDER template.

(** [template.replace("{label}", label)]. *)
Definition render (template label : string) : string := join label (template_parts template).

(** The labels a query can be an instance of a template with.  A template
    without exactly one placeholder would be a [ValueError] of the unpacking. *)
Definition match_template (labels : list string) (jql : text) (template : string) : outcome (list (string * string)) :=
  match template_parts template with
  | [prefix; suffix] =>
      let np := String.length prefix in
      let ns := String.length suffix in
      if bool_decide (length jql < np + ns)%nat then Ret []
      else if negb (bool_decide (take np jql = codes prefix) && bool_decide (drop (length jql - ns) jql = codes suffix))
      then Ret []
      else
        let candidate := take (length jql - ns - np) (drop np jql) in
        Ret (match List.find (λ l, bool_decide (codes l = candidate)) labels with
             | Some label => [(template, label)]
             | None => []
             end)
  | _ => Raise (Exn "ValueError" "unpack")
  end.
Definition _match_templates (templates labels : list string) (jql : text) : outcome (list (string * string)) :=
  matches ← seq_outcomes (map (match_template labels jql) templates); Ret (concat matches).

Definition numeric_text (t : text) : bool :=
  match string_of_codes t with Some s => _NUMERIC_ID_RE s | None => false end.

Definition _issue_key_matches (project_key : string) (candidate : text) : bool :=
  let prefix := codes (project_key +:+ "-") in
  bool_decide (take (length prefix) candidate = prefix) && numeric_text (drop (length prefix) candidate).

(** [_nested_str]: the string at the end of a path of keys. *)
Definition get_of (document : option pvalue) (key : string) : option pvalue :=
  match document with Some (PDict m) => pget m key | _ => None end.
Definition _nested_str (document : pvalue) (keys : list string) : option text :=
  match foldl get_of (Some document) keys with Some (PStr t) => Some t | _ => None end.

Definition _identity_matches (project issuetype : list (text * pvalue)) (policy : JiraVenuePolicy) : bool :=
  is_text (pget project "id") (jp_project_id policy) && is_text (pget project "key") (jp_project_key policy) &&
  is_text (pget issuetype "id") (jp_issue_type_id policy).

(** The fields, the project and the issue type of an issue document, with its
    id and key. *)
Record issue_shape := mkIssueShape {
  is_id : text; is_key : text; is_fields : list (text * pvalue); is_project : list (text * pvalue);
  is_issuetype : list (text * pvalue);
}.
Definition str_if_present (m : list (text * pvalue)) (key : string) : bool :=
  match pget m key with Some v => is_pstr v | None => true end.
Definition _common_issue_shape (document : pvalue) (allowed_fields : list string) : option issue_shape :=
  match document with
  | PDict m =>
      if negb (has_keys m ["id"; "key"; "fields"] && keys_within m ["expand"; "id"; "key"; "self"; "fields"]) then None
      else match pget m "id", pget m "key" with
      | Some (PStr id), Some (PStr key) =>
          if negb (str_if_present m "self" && str_if_present m "expand") then None
          else match pget m "fields" with
          | Some (PDict fields) =>
              if negb (keys_within fields allowed_fields) then None
              else match pget fields "project", pget fields "issuetype" with
              | Some (PDict project), Some (PDict issuetype) => Some (mkIssueShape id key fields project issuetype)
              | _, _ => None
              end
          | _ => None
          end
      | _, _ => None
      end
  | _ => None
  end.

(** ** RoutePolicy *)
Record ParserOptions := mkParserOptions { allowed_query_keys : list string; po_accept : string }.

#[export] Instance upstream_request_eq_dec : EqDecision UpstreamRequest.
Proof. solve_decision. Defined.
#[export] Instance route_selection_eq_dec : EqDecision RouteSelection.
Proof. solve_decision. Defined.
#[export] Instance routed_request_eq_dec : EqDecision RoutedRequest.
Proof. solve_decision. Defined.

Record RoutePolicy := mkRoutePolicy {
  _jira : option JiraVenuePolicy;
  _issued : gmap nat RoutedRequest;
  next_object : nat;
}.
Definition new_route_policy (jira : option JiraVenuePolicy) : outcome RoutePolicy :=
  check_that (match jira with Some p => str_len (jp_canonical p) <=? MAX_POLICY_BYTES | None => true end)
    (RouteConfigError "policy_too_large");;
  Ret (mkRoutePolicy jira ∅ 0).

Definition _check_service (service : pyval) : outcome string :=
  match service with
  | VStr s => check_that (known_service s) (Exn "ValueError" "unknown service");; Ret s
  | _ => Raise (Exn "TypeError" "service must be a str")
  end.
Definition policy_digest (p : RoutePolicy) (service : pyval) : outcome (option string) :=
  s ← _check_service service;
  Ret (match _jira p with Some j => if String.eqb s "jira" then Some (jp_digest j) else None | None => None end).
Definition parser_options (p : RoutePolicy) (service : pyval) : outcome ParserOptions :=
  s ← _check_service service;
  Ret (match _jira p with
       | Some _ => if String.eqb s "jira" then mkParserOptions ["fields"] "application/json"
                   else mkParserOptions [] "application/json"
       | None => mkParserOptions [] "application/json" end).

(** A [RoutePolicyError] with its attributes. *)
Record Denial := mkDenial { dn_code : string; dn_route_id : string; dn_receipt_reason : string; dn_request_digest : string }.

(** What a call that may deny yields. *)
Inductive result (A : Type) := Done (a : A) | Denied (d : Denial) | Raised (e : exn).
Arguments Done {A} a.
Arguments Denied {A} d.
Arguments Raised {A} e.
#[export] Instance result_bind : MBind result :=
  λ A B k m, match m with Done a => k a | Denied d => Denied d | Raised e => Raised e end.
Definition of_outcome {A} (o : outcome A) : result A := match o with Ret a => Done a | Raise e => Raised e end.

(** [_deny]: the error names the code, the route and a constant digest. *)
Definition _deny {A} (code service route_id : string) : result A :=
  match denied_request_digest (VStr service) (VStr route_id), dict_get ROUTE_ERROR_REASONS code with
  | Ret digest, Some reason => Denied (mkDenial code route_id reason digest)
  | Raise e, _ => Raised e
  | _, None => Raised (Exn "KeyError" code)
  end.
Definition allow (b : bool) (code service route_id : string) : result unit :=
  if b then Done tt else _deny code service route_id.

Definition _select_issue_get (policy : JiraVenuePolicy) (request : ParsedRequest) (manifest : ScopeManifest)
    (selector service : string) : result RouteSelection :=
  let route_id := "jira.issue.get" in
  allow (String.eqb (body request) "") "request_invalid" service route_id;;
  let csv := join "," (jp_issue_fields policy) in
  allow (bool_decide (query request = []) || bool_decide (query request = [("fields", csv)])) "query_rejected" service route_id;;
  allow (_NUMERIC_ID_RE selector || _ISSUE_KEY_RE selector) "selector_invalid" service route_id;;
  match _lookup_issue manifest selector with
  | None => _deny "selector_out_of_scope" service route_id
  | Some entry => Done (mkRouteSelection (Some (issue_id entry)) (Some (issue_key entry)) None None)
  end.

(** The strings of a tuple of strings. *)
Definition texts_of (v : pvalue) : option (list text) :=
  match v with PList items => mapM (λ i, match i with PStr t => Some t | _ => None end) items | _ => None end.

(** The [fields] a search may name: exactly the policy's, in any order. *)
Definition fields_ok (policy : JiraVenuePolicy) (v : option pvalue) : bool :=
  match v with
  | None => true
  | Some v =>
      match texts_of v with
      | None => false
      | Some fields =>
          let wanted := map codes (jp_search_fields policy) in
          bool_decide (NoDup fields) && forallb (λ f, bool_decide (f ∈ wanted)) fields &&
          forallb (λ f, bool_decide (f ∈ fields)) wanted
      end
  end.

Definition _select_search (policy : JiraVenuePolicy) (request : ParsedRequest) (manifest : ScopeManifest) (service : string)
    : result (RouteSelection * string * Z) :=
  let route_id := "jira.search" in
  allow (bool_decide (query request = [])) "query_rejected" service route_id;;
  match parse_json (Some (body request)) (VInt MAX_REQUEST_JSON_BYTES) "integer" (Some false) (VInt MAX_JSON_STRING_BYTES) with
  | Raise _ => _deny "body_rejected" service route_id
  | Ret (PDict parsed) =>
      allow (has_key parsed "jql" && keys_within parsed ["jql"; "maxResults"; "fields"]) "body_rejected" service route_id;;
      match pget parsed "jql" with
      | Some (PStr jql) =>
          matches ← of_outcome (_match_templates (jp_search_templates policy) (sc_search_labels (sm_scope manifest)) jql);
          match matches with
          | [] => _deny "selector_out_of_scope" service route_id
          | _ :: _ :: _ => _deny "selector_ambiguous" service route_id
          | [(template, label)] =>
              match default (PInt (jp_search_max_results policy)) (pget parsed "maxResults") with
              | PInt max_results =>
                  allow ((1 <=? max_results) && (max_results <=? jp_search_max_results policy)) "body_rejected" service route_id;;
                  allow (fields_ok policy (pget parsed "fields")) "body_rejected" service route_id;;
                  Done (mkRouteSelection None None (Some label) (Some max_results), render template label, max_results)
              | _ => _deny "body_rejected" service route_id
              end
          end
      | _ => _deny "body_rejected" service route_id
      end
  | Ret _ => _deny "body_rejected" service route_id
  end.

(** The upstream request of a selection, from policy values only. *)
Definition issue_get_upstream (policy : JiraVenuePolicy) (issue_id : string) : outcome UpstreamRequest :=
  fields ← encode_query_value (join "," (jp_issue_fields policy));
  Ret (mkUpstreamRequest "GET" ("/rest/api/3/issue/" +:+ issue_id +:+ "?fields=" +:+ fields) "application/json" None "").
Definition search_upstream (policy : JiraVenuePolicy) (rendered_jql : string) (max_results : Z) : outcome UpstreamRequest :=
  body ← canonical_json (jdict [("fields", jstrs (jp_search_fields policy)); ("jql", JVStr rendered_jql);
                                ("maxResults", JVInt max_results)]) false;
  Ret (mkUpstreamRequest "POST" "/rest/api/3/search/jql" "application/json" (Some "application/json") body).

(** Steps 1 to 8 of [route]; a request of another type, or with a field of
    another type, is [None], and so is a manifest of another type. *)
Definition build_routed (p : RoutePolicy) (request : option ParsedRequest) (manifest : option ScopeManifest)
    : result RoutedRequest :=
  match request, manifest with
  | None, _ => Raised (Exn "TypeError" "request must be an exact ParsedRequest")
  | _, None => Raised (Exn "TypeError" "manifest must be an exact ScopeManifest")
  | Some request, Some manifest =>
      let service := HttpRequest.service request in
      if negb (known_service service) then Raised (Exn "ValueError" "unknown service")
      else
        allow (String.eqb service "jira") "service_unavailable" service UNMATCHED_ROUTE_ID;;
        match _jira p with
        | None => _deny "service_unavailable" service UNMATCHED_ROUTE_ID
        | Some policy =>
            allow (String.eqb (sm_service manifest) service && String.eqb (sm_policy_digest manifest) (jp_digest policy) &&
                   forallb (λ i, String.prefix (jp_project_key policy +:+ "-") (issue_key i)) (sc_issues (sm_scope manifest)))
              "manifest_mismatch" service UNMATCHED_ROUTE_ID;;
            allow (String.eqb (accept request) "application/json") "request_invalid" service UNMATCHED_ROUTE_ID;;
            match _match_route request with
            | None => _deny "route_unknown" service UNMATCHED_ROUTE_ID
            | Some (route_id, selector) =>
                allow (str_in route_id (sm_routes manifest)) "route_not_in_scope" service route_id;;
                '(selection, upstream) ←
                  (match selector with
                   | Some selector =>
                       selection ← _select_issue_get policy request manifest selector service;
                       Done (selection, issue_get_upstream policy (default "" (sel_issue_id selection)))
                   | None =>
                       '(selection, rendered_jql, max_results) ← _select_search policy request manifest service;
                       Done (selection, search_upstream policy rendered_jql max_results)
                   end);
                match (u ← upstream;
                       d ← request_digest (VStr service) (VStr route_id) (VStr (jp_digest policy)) (VStr (sm_digest manifest)) (Some u);
                       Ret (u, d)) with
                | Raise e =>
                    if str_in (exn_class e) ["RouteConfigError"; "JSONPolicyError"]
                    then _deny "upstream_unbuildable" service route_id else Raised e
                | Ret (upstream, digest) =>
                    Done (mkRoutedRequest route_id service (sm_digest manifest) (jp_digest policy) digest false upstream selection)
                end
            end
        end
  end.

(** A [RoutedRequest] object. *)
Record Routed := mkRouted { object_number : nat; routed_value : RoutedRequest }.

(** [route]: the object it returns is registered as issued. *)
Definition route (p : RoutePolicy) (request : option ParsedRequest) (manifest : option ScopeManifest)
    : result Routed * RoutePolicy :=
  match build_routed p request manifest with
  | Done routed => (Done (mkRouted (next_object p) routed),
                    mkRoutePolicy (_jira p) (<[next_object p := routed]> (_issued p)) (S (next_object p)))
  | Denied d => (Denied d, p)
  | Raised e => (Raised e, p)
  end.

(** ** Checking a response *)
Record ResponseVerdict := mkVerdict { v_route_id : string; v_receipt_reason : string; v_detail : string }.

Definition text_is (t : text) (s : option string) : bool := match s with Some s => bool_decide (t = codes s) | None => false end.

Definition _check_issue_get_response (policy : JiraVenuePolicy) (routed : RoutedRequest) (document : pvalue) : string :=
  match _common_issue_shape document (jp_issue_fields policy) with
  | None => "schema_invalid"
  | Some sh =>
      let selection := rq_selection routed in
      if negb (text_is (is_id sh) (sel_issue_id selection) && text_is (is_key sh) (sel_issue_key selection)) then "scope_mismatch"
      else if negb (_identity_matches (is_project sh) (is_issuetype sh) policy) then "scope_mismatch"
      else "ok"
  end.

(** The detail and [seen_ids] afterwards. *)
Definition _check_search_issue (policy : JiraVenuePolicy) (selection : RouteSelection) (seen_ids : list text) (issue : pvalue)
    : string * list text :=
  match _common_issue_shape issue (jp_search_fields policy) with
  | None => ("schema_invalid", seen_ids)
  | Some sh =>
      if negb (numeric_text (is_id sh)) || bool_decide (is_id sh ∈ seen_ids) then ("schema_invalid", seen_ids)
      else
        let seen_ids := is_id sh :: seen_ids in
        (if negb (_issue_key_matches (jp_project_key policy) (is_key sh)) then "schema_invalid"
         else if negb (_identity_matches (is_project sh) (is_issuetype sh) policy) then "scope_mismatch"
         else match pget (is_fields sh) "labels" ≫= texts_of with
         | Some labels =>
             if negb (existsb (λ l, text_is l (sel_search_label selection)) labels) then "scope_mismatch"
             else match _nested_str (PDict (is_fields sh)) ["status"; "statusCategory"; "key"] with
             | None => "schema_invalid"
             | Some category_key =>
                 if negb (existsb (λ k, bool_decide (category_key = codes k)) (jp_open_status_category_keys policy))
                 then "scope_mismatch" else "ok"
             end
         | None => "schema_invalid"
         end, seen_ids)
  end.

(** The loop over the issues; it returns at the first detail that is not ok. *)
Fixpoint check_search_issues (policy : JiraVenuePolicy) (selection : RouteSelection) (seen_ids : list text)
    (issues : list pvalue) : string :=
  match issues with
  | [] => "ok"
  | issue :: issues =>
      let '(detail, seen_ids) := _check_search_issue policy selection seen_ids issue in
      if String.eqb detail "ok" then check_search_issues policy selection seen_ids issues else detail
  end.

Definition _check_search_response (policy : JiraVenuePolicy) (routed : RoutedRequest) (document : pvalue) : outcome string :=
  match document with
  | PDict m =>
      if negb (has_keys m ["issues"] && keys_within m ["issues"; "isLast"; "nextPageToken"; "warnings"]) then Ret "schema_invalid"
      else if negb (match pget m "warnings" with Some (PList _) | None => true | _ => false end) then Ret "schema_invalid"
      else if negb (match pget m "isLast" with Some (PBool _) | None => true | _ => false end) then Ret "schema_invalid"
      else if negb (str_if_present m "nextPageToken") then Ret "schema_invalid"
      else match pget m "issues" with
      | Some (PList issues) =>
          let selection := rq_selection routed in
          match sel_max_results selection with
          | None => Raise (Exn "TypeError" "max_results")
          | Some max_results =>
              if max_results <? Z.of_nat (length issues) then Ret "count_exceeded"
              else Ret (check_search_issues policy selection [] issues)
          end
      | _ => Ret "schema_invalid"
      end
  | _ => Ret "schema_invalid"
  end.

(** [None] is an argument of another type. *)
Definition check_response (p : RoutePolicy) (routed : option Routed) (response : option ParsedResponse)
    : outcome ResponseVerdict :=
  match routed, response with
  | None, _ => Raise (Exn "TypeError" "routed must be an exact RoutedRequest")
  | _, None => Raise (Exn "TypeError" "response must be an exact ParsedResponse")
  | Some routed, Some response =>
      let v := routed_value routed in
      let rejected detail := Ret (mkVerdict (rq_route_id v) "response_policy_rejected" detail) in
      match _issued p !! object_number routed with
      | None => rejected "routed_unknown"
      | Some issued =>
          if negb (bool_decide (issued = v)) then rejected "routed_unknown"
          else match serialize_response response with
          | Raise _ => rejected "response_invalid"
          | Ret _ =>
              if negb (bool_decide (status response = VInt 200)) then rejected "status_not_allowed"
              else match parse_json (HttpResponse.body response) (VInt MAX_RESPONSE_BYTES) "finite" (Some false)
                           (VInt MAX_JSON_STRING_BYTES), _jira p with
              | Raise _, _ => rejected "json_invalid"
              | _, None => Raise (Exn "AttributeError" "issue_fields")
              | Ret parsed, Some policy =>
                  detail ← (if String.eqb (rq_route_id v) "jira.issue.get"
                            then Ret (_check_issue_get_response policy v parsed)
                            else _check_search_response policy v parsed);
                  if String.eqb detail "ok" then Ret (mkVerdict (rq_route_id v) "ok" "ok") else rejected detail
              end
          end
      end
  end.

(** ** A run *)
Definition demo_policy : outcome JiraVenuePolicy :=
  build_venue_policy (VStr "r1") (VStr "10000") (VStr "OPS") (VStr "10002") (Some [VStr "issuetype"; VStr "project"])
    (Some [VStr "issuetype"; VStr "labels"; VStr "project"; VStr "status"])
    (Some [VStr ("project = OPS AND labels = " +:+ dquote +:+ "{label}" +:+ dquote)]) (VInt 50) (Some [VStr "new"]).
Definition demo_scope : outcome JiraScope :=
  i ← build_scoped_issue (VStr "10001") (VStr "OPS-1"); build_jira_scope [i] (Some [VStr "alert-1"]).
Definition demo_routes_manifest : outcome ScopeManifest :=
  policy ← demo_policy; scope ← demo_scope;
  build_scope_manifest (VStr "jira") (VStr "run") (VStr "att") (VStr "reh") (VStr "r1")
    (Some [VStr "jira.issue.get"; VStr "jira.search"]) (VStr (jp_digest policy)) scope.
Definition get_request (selector : string) : ParsedRequest :=
  mkParsedRequest "jira" "GET" ("/rest/api/3/issue/" +:+ selector) [] "application/json" "" "".
Definition search_request (label : string) : ParsedRequest :=
  mkParsedRequest "jira" "POST" "/rest/api/3/search/jql" [] "application/json"
    ("{" +:+ dquote +:+ "jql" +:+ dquote +:+ ":" +:+ dquote +:+ "project = OPS AND labels = \" +:+ dquote +:+ label +:+
     "\" +:+ dquote +:+ dquote +:+ "}") "".
Definition demo_route (request : ParsedRequest) : string :=
  match demo_policy, demo_routes_manifest with
  | Ret policy, Ret manifest =>
      match new_route_policy (Some policy) with
      | Ret p => match (route p (Some request) (Some manifest)).1 with
          | Done r => ur_target (rq_upstream (routed_value r)) +:+ ur_body (rq_upstream (routed_value r))
          | Denied d => dn_code d
          | Raised e => exn_code e
          end
      | Raise e => exn_code e
      end
  | Raise e, _ | _, Raise e => exn_code e
  end.
Example demo_routes :
  map demo_route [get_request "OPS-1"; get_request "10001"; get_request "OPS-2"; get_request "../x"; search_request "alert-2"] =
  ["/rest/api/3/issue/10001?fields=issuetype%2Cproject"; "/rest/api/3/issue/10001?fields=issuetype%2Cproject";
   "selector_out_of_scope"; "route_unknown"; "selector_out_of_scope"].
Proof. vm_compute. reflexivity. Qed.
Example demo_search : demo_route (search_request "alert-1") =
  "/rest/api/3/search/jql{" +:+ dquote +:+ "fields" +:+ dquote +:+ ":[" +:+
  join "," (map (λ f, dquote +:+ f +:+ dquote) ["issuetype"; "labels"; "project"; "status"]) +:+ "]," +:+ dquote +:+ "jql" +:+ dquote +:+
  ":" +:+ dquote +:+ "project = OPS AND labels = \" +:+ dquote +:+ "alert-1\" +:+ dquote +:+ dquote +:+ "," +:+ dquote +:+ "maxResults" +:+
  dquote +:+ ":50}".
Proof. vm_compute. reflexivity. Qed.
