(* ===== verification/RoutesThm.v ===== *)
(** * Theorems about the route policy

    Requests and responses stay in scope; at the end, scope manifests are read
    back, and upstream requests can be built. *)

From stdpp Require Import gmap.
From S2P Require Import Prelude PyValue PyJson Services Sha256 CanonJson PyBytes.
From S2P Require Import HttpResponse HttpRequest JsonParse JsonParseThm JsonRoundtrip Scope Routes.
Local Open Scope string_scope.
Local Open Scope Z_scope.

(** ** Calls that may deny *)
Lemma result_bind_done {A B} (m : result A) (k : A → result B) b : (m ≫= k) = Done b → ∃ a, m = Done a ∧ k a = Done b.
Proof. destruct m; [eauto|done|done]. Qed.

Lemma deny_not_done {A} code service route_id (a : A) : _deny code service route_id = Done a → False.
Proof. unfold _deny. by repeat case_match. Qed.

Lemma allow_done b code service route_id u : allow b code service route_id = Done u → b = true.
Proof. unfold allow. destruct b; [done|]. by intros ?%deny_not_done. Qed.

Ltac inv_result :=
  repeat match goal with
  | H : Done _ = Done _ |- _ => injection H; clear H; intros; subst
  | H : Denied _ = Done _ |- _ => discriminate H
  | H : Raised _ = Done _ |- _ => discriminate H
  | H : _deny _ _ _ = Done _ |- _ => by apply deny_not_done in H
  | H : allow _ _ _ _ = Done _ |- _ => apply allow_done in H
  | H : mbind _ _ = Done _ |- _ =>
      let a := fresh "a" in let H' := fresh "H" in apply result_bind_done in H as (a & H' & H)
  end.

(** ** Matching templates *)
Lemma find_some_codes labels candidate label :
  List.find (λ l, bool_decide (codes l = candidate)) labels = Some label → label ∈ labels ∧ candidate = codes label.
Proof. intros [Hin Heq]%find_some. apply bool_decide_eq_true in Heq. by apply list_elem_of_In in Hin. Qed.

Lemma match_template_inv labels jql template matches t label :
  match_template labels jql template = Ret matches → (t, label) ∈ matches →
  t = template ∧ label ∈ labels ∧ jql = codes (render template label).
Proof.
  unfold match_template, render. destruct (template_parts template) as [|pre [|suf [|]]]; try done.
  destruct (bool_decide (length jql < _)%nat) eqn:Hl; [intros [= <-] H; by apply not_elem_of_nil in H|].
  destruct (negb _) eqn:Hn; [intros [= <-] H; by apply not_elem_of_nil in H|].
  destruct (List.find _ labels) as [l|] eqn:Hf; [|intros [= <-] H; by apply not_elem_of_nil in H].
  intros [= <-] [= <- <-]%list_elem_of_singleton. apply find_some_codes in Hf as [Hin Hc].
  apply bool_decide_eq_false, Nat.nlt_ge in Hl. apply negb_false_iff, andb_true_iff in Hn as [Hp Hs].
  apply bool_decide_eq_true in Hp, Hs. split_and!; [done|done|].
  cbn [join]. rewrite !codes_app, <-Hc, <-Hp, <-Hs.
  rewrite <-(take_drop (String.length pre) jql) at 1. f_equal.
  rewrite <-(take_drop (length jql - String.length suf - String.length pre) (drop (String.length pre) jql)) at 1.
  f_equal. rewrite drop_drop. f_equal. lia.
Qed.

Lemma match_templates_inv templates labels jql matches t label :
  _match_templates templates labels jql = Ret matches → (t, label) ∈ matches →
  t ∈ templates ∧ label ∈ labels ∧ jql = codes (render t label).
Proof.
  unfold _match_templates. intros H Hin. apply outcome_bind_ret_inv in H as (ms & Hm & [= <-]).
  apply seq_outcomes_ret in Hm. apply list_elem_of_In, in_concat in Hin as (m & Hms%list_elem_of_In & Hin%list_elem_of_In).
  apply list_elem_of_lookup in Hms as [i Hi]. destruct (Forall2_lookup_r _ _ _ _ _ Hm Hi) as (template & Ht & Hmt).
  destruct (match_template_inv _ _ _ _ _ _ Hmt Hin) as (-> & ? & ?). split_and!; [|done|done].
  by apply list_elem_of_lookup_2 with i.
Qed.

(** ** What was routed *)

(** The selection and the upstream request of an issue read. *)
Definition reads_issue (policy : JiraVenuePolicy) (m : ScopeManifest) (v : RoutedRequest) : Prop :=
  rq_route_id v = "jira.issue.get" ∧
  ∃ i, i ∈ sc_issues (sm_scope m) ∧ String.prefix (jp_project_key policy +:+ "-") (issue_key i) = true ∧
    rq_selection v = mkRouteSelection (Some (issue_id i)) (Some (issue_key i)) None None ∧
    issue_get_upstream policy (issue_id i) = Ret (rq_upstream v).

(** The selection and the upstream request of a search for at most [n] issues
    with [label] and a template of the policy. *)
Definition searches (policy : JiraVenuePolicy) (m : ScopeManifest) (v : RoutedRequest) (template label : string) (n : Z) : Prop :=
  rq_route_id v = "jira.search" ∧ template ∈ jp_search_templates policy ∧ label ∈ sc_search_labels (sm_scope m) ∧
  1 ≤ n ≤ jp_search_max_results policy ∧ rq_selection v = mkRouteSelection None None (Some label) (Some n) ∧
  search_upstream policy (render template label) n = Ret (rq_upstream v).

(** The caller's body asks for this query and this count; without a count, for
    as many as the policy allows. *)
Definition asks_for (policy : JiraVenuePolicy) (request : ParsedRequest) (jql : string) (n : Z) : Prop :=
  ∃ parsed, parse_json (Some (body request)) (VInt MAX_REQUEST_JSON_BYTES) "integer" (Some false) (VInt MAX_JSON_STRING_BYTES) =
      Ret (PDict parsed) ∧
    pget parsed "jql" = Some (PStr (codes jql)) ∧
    (pget parsed "maxResults" = Some (PInt n) ∨ pget parsed "maxResults" = None ∧ n = jp_search_max_results policy).

Lemma select_issue_get_inv policy request m selector service sel :
  _select_issue_get policy request m selector service = Done sel →
  ∃ i, i ∈ sc_issues (sm_scope m) ∧ sel = mkRouteSelection (Some (issue_id i)) (Some (issue_key i)) None None.
Proof.
  unfold _select_issue_get. intros H. inv_result. destruct (_lookup_issue m selector) as [i|] eqn:E; inv_result.
  exists i. split; [|done]. apply find_some in E as [E _]. by apply list_elem_of_In.
Qed.

Lemma select_search_inv policy request m service sel jql n :
  _select_search policy request m service = Done (sel, jql, n) →
  ∃ template label, asks_for policy request jql n ∧
    template ∈ jp_search_templates policy ∧ label ∈ sc_search_labels (sm_scope m) ∧ jql = render template label ∧ 1 ≤ n ≤ jp_search_max_results policy ∧
    sel = mkRouteSelection None None (Some label) (Some n).
Proof.
  unfold _select_search. intros H. inv_result. destruct (parse_json _ _ _ _ _) as [[| | | | | |parsed]|] eqn:Ep; inv_result.
  destruct (pget parsed "jql") as [[| | | |t| |]|] eqn:Ej; inv_result.
  destruct (_match_templates _ _ _) as [ms|] eqn:Em; [|done]. cbn [of_outcome] in *. inv_result.
  match goal with X : _match_templates _ _ _ = Ret ?ms |- _ => destruct ms as [|[template label] [|]] end; inv_result.
  destruct (match_templates_inv _ _ _ _ template label Em) as (Ht & Hl & Hj); [by apply list_elem_of_singleton|].
  destruct (default _ _) as [| |z| | | |] eqn:Ez; inv_result. bool_simpl.
  exists template, label. split_and!; try (done || lia). exists parsed. split_and!; [done|by simplify_eq|].
  destruct (pget parsed "maxResults"); cbn in Ez; [left|right]; split_and?; congruence.
Qed.

Lemma match_route_inv r route_id selector :
  _match_route r = Some (route_id, selector) → route_id = (if selector then "jira.issue.get" else "jira.search").
Proof.
  unfold _match_route. destruct (_ =? _)%string.
  - destruct (drop _ _) as [|x [|]]; [done| |done]. destruct (_ && _); [|done]. by intros [= <- <-].
  - destruct (_ && _); [|done]. by intros [= <- <-].
Qed.

(** What a request was routed to: an issue read or a search, within the scope,
    with a digest over exactly this upstream request. *)
Lemma build_routed_inv p request m v :
  build_routed p request m = Done v →
  ∃ policy r manifest, request = Some r ∧ m = Some manifest ∧ _jira p = Some policy ∧
    HttpRequest.service r = "jira" ∧ sm_service manifest = "jira" ∧ sm_policy_digest manifest = jp_digest policy ∧
    str_in (rq_route_id v) (sm_routes manifest) = true ∧
    (reads_issue policy manifest v ∨
     ∃ template label n, searches policy manifest v template label n ∧ asks_for policy r (render template label) n) ∧
    rq_service v = "jira" ∧ rq_scope_digest v = sm_digest manifest ∧ rq_policy_digest v = jp_digest policy ∧
    request_digest (VStr "jira") (VStr (rq_route_id v)) (VStr (jp_digest policy)) (VStr (sm_digest manifest)) (Some (rq_upstream v)) =
      Ret (rq_request_digest v).
Proof.
  unfold build_routed. destruct request as [r|]; [|done]. destruct m as [manifest|]; [|done].
  destruct (known_service _); cbn [negb]; [|done]. intros H. inv_result.
  match goal with X : (HttpRequest.service r =? "jira")%string = true |- _ => apply String.eqb_eq in X; rewrite X in * end.
  destruct (_jira p) as [policy|] eqn:Ej; inv_result. bool_simpl.
  repeat match goal with X : (_ =? _)%string = true |- _ => apply String.eqb_eq in X end.
  destruct (_match_route r) as [[route_id selector]|] eqn:Er; inv_result.
  match goal with X : _ = Done ?pair, Y : context [let '(_, _) := ?pair in _] |- _ =>
    destruct pair as [selection upstream]; rename X into Hsel; rename Y into H end.
  destruct upstream as [u|]; cbn [mbind outcome_bind] in H; [|destruct (str_in (exn_class _) _); inv_result].
  destruct (request_digest _ _ _ _ _) as [d|] eqn:Ed; cbn [mbind outcome_bind] in H; [|destruct (str_in (exn_class _) _); inv_result]. inv_result.
  apply match_route_inv in Er. exists policy, r, manifest. cbn.
  assert (Hscope : ∀ i, i ∈ sc_issues (sm_scope manifest) → String.prefix (jp_project_key policy +:+ "-") (issue_key i) = true).
  { intros i Hi%list_elem_of_In. match goal with X : forallb _ (sc_issues _) = true |- _ => exact (proj1 (forallb_forall _ _) X i Hi) end. }
  split_and!; try first [assumption|reflexivity]. destruct selector as [sel|]; inv_result.
  - match goal with X : _select_issue_get _ _ _ _ _ = _ |- _ => apply select_issue_get_inv in X as (i & Hi & ->) end.
    left. split; [done|]. exists i. split_and!; [done|by apply Hscope|done|]. cbn in *. congruence.
  - match goal with X : (let '(_, _) := ?x in _) = _ |- _ => destruct x as [[sel jql] n] end. inv_result.
    match goal with X : _select_search _ _ _ _ = _ |- _ =>
      apply select_search_inv in X as (template & label & ? & ? & ? & -> & ? & ->) end.
    right. exists template, label, n. split; [|assumption]. split_and!; try (assumption || lia); reflexivity.
Qed.

Lemma routed_at p request m r p' :
  route p request m = (Done r, p') →
  ∃ policy manifest, _jira p = Some policy ∧ sm_policy_digest manifest = jp_digest policy ∧
    (reads_issue policy manifest (routed_value r) ∨ ∃ template label n, searches policy manifest (routed_value r) template label n) ∧
    _issued p' = <[object_number r := routed_value r]> (_issued p) ∧ _jira p' = _jira p.
Proof.
  unfold route. destruct (build_routed p request m) as [v| |] eqn:E; intros H; simplify_eq.
  destruct (build_routed_inv _ _ _ _ E) as (policy & q & manifest & -> & -> & Hp & _ & _ & Hd & _ & Hs & _).
  exists policy, manifest. cbn. split_and!; try done. destruct Hs as [Hs|(template & label & n & Hs & _)]; [by left|right; eauto].
Qed.

(** ** Witnesses *)

(** The demonstration policy and manifest, and a request routed with them. *)
#[local] Opaque demo_policy demo_routes_manifest.
Definition demo_state : outcome (JiraVenuePolicy * ScopeManifest * RoutePolicy) :=
  j ← demo_policy; m ← demo_routes_manifest; p ← new_route_policy (Some j); Ret (j, m, p).
Definition demo_run (request : ParsedRequest) : outcome (JiraVenuePolicy * ScopeManifest * RoutePolicy * Routed * RoutePolicy) :=
  '(j, m, p) ← demo_state;
  match route p (Some request) (Some m) with (Done r, p') => Ret (j, m, p, r, p') | _ => Raise (Exn "Denied" "") end.

Lemma demo_run_inv request j m p r p' : demo_run request = Ret (j, m, p, r, p') →
  new_route_policy (Some j) = Ret p ∧ route p (Some request) (Some m) = (Done r, p').
Proof.
  unfold demo_run. intros H. apply outcome_bind_ret_inv in H as ([[j0 m0] p0] & Hs & H).
  destruct (route p0 _ _) as [[r0|d|e] q] eqn:E; [|discriminate H..]. injection H as -> -> -> -> ->.
  unfold demo_state in Hs. apply outcome_bind_ret_inv in Hs as (j0 & _ & Hs). apply outcome_bind_ret_inv in Hs as (m0 & _ & Hs).
  apply outcome_bind_ret_inv in Hs as (p0 & Hp & Hs). injection Hs as -> -> ->. split; assumption.
Qed.

Lemma demo_get_runs : returned (demo_run (get_request "OPS-1")) = true.
Proof. vm_compute. reflexivity. Qed.
Lemma demo_search_runs :
  match demo_run (search_request "alert-1") with
  | Ret (_, _, _, r, _) => bool_decide (rq_route_id (routed_value r) = "jira.search") | Raise _ => false end = true.
Proof. vm_compute. reflexivity. Qed.

(** C27: nothing leaves its scope.  Whatever request [route] accepts, the route
    is one the manifest names, the manifest is pinned to this policy, and the
    upstream request is either the read of an issue of the manifest, in the
    policy's project and with the policy's fields, or a search rendered from a
    template of the policy, a label of the manifest and a count.  Query and
    count are the caller's own: the body asks for character for character this
    query, and for this count, which the policy bounds and which is the policy's
    bound when the body names none.  The digest recorded for the request is the
    digest of exactly that upstream request, and the object is registered as
    issued. *)
Theorem routed_request_is_in_scope p request m r p' :
  route p (Some request) m = (Done r, p') →
  ∃ policy manifest, m = Some manifest ∧ _jira p = Some policy ∧ sm_policy_digest manifest = jp_digest policy ∧
    str_in (rq_route_id (routed_value r)) (sm_routes manifest) = true ∧
    (reads_issue policy manifest (routed_value r) ∨
     ∃ template label n, searches policy manifest (routed_value r) template label n ∧ asks_for policy request (render template label) n) ∧
    request_digest (VStr "jira") (VStr (rq_route_id (routed_value r))) (VStr (jp_digest policy)) (VStr (sm_digest manifest))
      (Some (rq_upstream (routed_value r))) = Ret (rq_request_digest (routed_value r)) ∧
    _issued p' !! object_number r = Some (routed_value r) ∧ _jira p' = _jira p.
Proof.
  unfold route. destruct (build_routed p (Some request) m) as [v| |] eqn:E; intros H; simplify_eq.
  destruct (build_routed_inv _ _ _ _ E) as (policy & q & manifest & [= <-] & -> & Hp & _ & _ & Hd & Hr & Hs & _ & _ & _ & Hdig).
  exists policy, manifest. cbn [routed_value object_number _issued _jira]. split_and!; try assumption; try reflexivity.
  apply lookup_insert_eq.
Qed.

Lemma routed_request_is_in_scope_witness : ∃ p m r p' policy template label n,
  route p (Some (search_request "alert-1")) (Some m) = (Done r, p') ∧ str_in (rq_route_id (routed_value r)) (sm_routes m) = true ∧
  searches policy m (routed_value r) template label n ∧ asks_for policy (search_request "alert-1") (render template label) n.
Proof.
  pose proof demo_search_runs as H. destruct (demo_run _) as [[[[[j m] p] r] p']|] eqn:E; [|discriminate H].
  apply bool_decide_eq_true in H. apply demo_run_inv in E as [_ Er].
  destruct (routed_request_is_in_scope p _ _ r p' Er) as (policy & m' & [= <-] & _ & _ & Hr & Hs & _).
  destruct Hs as [[Hs _]|(template & label & n & Hs & Ha)]; [rewrite Hs in H; discriminate H|].
  exists p, m, r, p', policy, template, label, n. split; [exact Er|]. split; [exact Hr|]. split; [exact Hs|exact Ha].
Defined.

(** ** What an accepted response shows *)

(** An issue of the policy's project and issue type, with no other fields than
    the allowed ones. *)
Definition issue_of_project (policy : JiraVenuePolicy) (allowed : list string) (document : pvalue) (id key : text)
    (fields : list (text * pvalue)) : Prop :=
  ∃ m project issuetype, document = PDict m ∧ pget m "id" = Some (PStr id) ∧ pget m "key" = Some (PStr key) ∧
    pget m "fields" = Some (PDict fields) ∧ keys_within fields allowed = true ∧
    pget fields "project" = Some (PDict project) ∧ pget project "id" = Some (PStr (codes (jp_project_id policy))) ∧
    pget project "key" = Some (PStr (codes (jp_project_key policy))) ∧
    pget fields "issuetype" = Some (PDict issuetype) ∧ pget issuetype "id" = Some (PStr (codes (jp_issue_type_id policy))).

Lemma is_text_inv v s : is_text v s = true → v = Some (PStr (codes s)).
Proof. destruct v as [[| | | |t| |]|]; try done. by intros ->%bool_decide_eq_true. Qed.

Lemma text_is_inv t s : text_is t (Some s) = true → t = codes s.
Proof. apply bool_decide_eq_true. Qed.

Lemma shape_inv policy allowed d sh :
  _common_issue_shape d allowed = Some sh → _identity_matches (is_project sh) (is_issuetype sh) policy = true →
  issue_of_project policy allowed d (is_id sh) (is_key sh) (is_fields sh).
Proof.
  unfold _common_issue_shape. destruct d as [| | | | | |m]; try done.
  destruct (negb _); [done|]. destruct (pget m "id") as [[| | | |id| |]|] eqn:E1; try done.
  destruct (pget m "key") as [[| | | |key| |]|] eqn:E2; try done. destruct (negb _); [done|].
  destruct (pget m "fields") as [[| | | | | |fields]|] eqn:E3; try done. destruct (keys_within fields allowed) eqn:E4; [|done].
  cbn [negb]. destruct (pget fields "project") as [[| | | | | |project]|] eqn:E5; try done.
  destruct (pget fields "issuetype") as [[| | | | | |issuetype]|] eqn:E6; try done. intros [= <-]. cbn.
  unfold _identity_matches. intros H. bool_simpl. exists m, project, issuetype.
  split_and!; try done; by apply is_text_inv.
Qed.

(** An issue a search for [label] may return. *)
Definition open_issue_with_label (policy : JiraVenuePolicy) (label : string) (document : pvalue) (id : text) : Prop :=
  numeric_text id = true ∧ ∃ key fields labels category,
    issue_of_project policy (jp_search_fields policy) document id key fields ∧
    _issue_key_matches (jp_project_key policy) key = true ∧
    pget fields "labels" = Some (PList labels) ∧ PStr (codes label) ∈ labels ∧
    category ∈ jp_open_status_category_keys policy ∧
    _nested_str (PDict fields) ["status"; "statusCategory"; "key"] = Some (codes category).

Lemma texts_of_elem v ts t : texts_of v = Some ts → t ∈ ts → ∃ l, v = PList l ∧ PStr t ∈ l.
Proof.
  destruct v as [| | | | |l|]; try done. cbn. intros H Ht. exists l. split; [done|].
  apply mapM_Some in H. apply list_elem_of_lookup in Ht as [i Hi]. destruct (Forall2_lookup_r _ _ _ _ _ H Hi) as (x & Hx & Hxt).
  destruct x; try done. injection Hxt as ->. by apply list_elem_of_lookup_2 with i.
Qed.

Lemma existsb_codes (t : text) ks : existsb (λ k, bool_decide (t = codes k)) ks = true → ∃ k, k ∈ ks ∧ t = codes k.
Proof. intros (k & Hk & Ht)%existsb_exists. exists k. split; [by apply list_elem_of_In|by apply bool_decide_eq_true in Ht]. Qed.

Lemma check_search_issue_inv policy sel label seen d seen' :
  sel_search_label sel = Some label → _check_search_issue policy sel seen d = ("ok", seen') →
  ∃ id, seen' = id :: seen ∧ id ∉ seen ∧ open_issue_with_label policy label d id.
Proof.
  intros Hlabel. unfold _check_search_issue. destruct (_common_issue_shape _ _) as [sh|] eqn:Es; [|done].
  destruct (negb (numeric_text (is_id sh)) || _) eqn:En; [done|]. apply orb_false_iff in En as [En Hseen].
  apply negb_false_iff in En. apply bool_decide_eq_false in Hseen.
  destruct (_issue_key_matches _ _) eqn:Ek; [|done]. destruct (_identity_matches _ _ _) eqn:Ei; [|done]. cbn [negb].
  destruct (pget (is_fields sh) "labels") as [lv|] eqn:El; [|done]. cbn [mbind option_bind].
  destruct (texts_of lv) as [labels|] eqn:Et; [|done].
  destruct (existsb _ labels) eqn:Ex; [|done]. cbn [negb]. destruct (_nested_str _ _) as [category|] eqn:Ec; [|done].
  destruct (existsb _ (jp_open_status_category_keys policy)) eqn:Eo; [|done]. cbn [negb]. intros [= <-].
  exists (is_id sh). split_and!; [done|done|]. split; [done|].
  apply existsb_exists in Ex as (t & Hin & Htl). rewrite Hlabel in Htl. apply text_is_inv in Htl as ->. apply list_elem_of_In in Hin.
  destruct (texts_of_elem _ _ _ Et Hin) as (l & -> & Hl). apply existsb_codes in Eo as (k & Hk & ->).
  exists (is_key sh), (is_fields sh), l, k. split_and!; try done. by apply shape_inv.
Qed.

Lemma check_search_issues_inv policy sel label issues seen :
  sel_search_label sel = Some label → check_search_issues policy sel seen issues = "ok" → NoDup seen →
  ∃ ids, Forall2 (open_issue_with_label policy label) issues ids ∧ NoDup (reverse ids ++ seen)%list.
Proof.
  intros Hl. revert seen. induction issues as [|d issues IH]; intros seen H Hnd; [by exists []|].
  cbn in H. destruct (_check_search_issue _ _ _ _) as [detail seen'] eqn:E.
  destruct (detail =? "ok")%string eqn:Ed; [apply String.eqb_eq in Ed as ->|by subst].
  destruct (check_search_issue_inv _ _ _ _ _ _ Hl E) as (id & -> & Hid & Ho).
  destruct (IH _ H) as (ids & HF & Hnd'); [by constructor|].
  exists (id :: ids). split; [by constructor|]. by rewrite reverse_cons, <-app_assoc.
Qed.

(** The calls that change a policy. *)
Definition route_step (p p' : RoutePolicy) : Prop := ∃ request m, p' = (route p request m).2.

Definition issued_by (policy : JiraVenuePolicy) (v : RoutedRequest) : Prop :=
  ∃ manifest, sm_policy_digest manifest = jp_digest policy ∧
    (reads_issue policy manifest v ∨ ∃ template label n, searches policy manifest v template label n).

Lemma issued_in_scope jira p0 p :
  new_route_policy (Some jira) = Ret p0 → rtc route_step p0 p →
  _jira p = Some jira ∧ ∀ n v, _issued p !! n = Some v → issued_by jira v.
Proof.
  intros Hnew. unfold new_route_policy in Hnew. inv_do. injection Hnew as <-. revert p.
  apply rtc_ind_r; [split; [done|]; cbn; intros n v Hl; by rewrite lookup_empty in Hl|].
  intros p p' _ (request & m & ->) [Hj Hi]. destruct (route p request m) as [[r|d|e] p'] eqn:E; cbn [snd].
  - destruct (routed_at _ _ _ _ _ E) as (policy & manifest & Hp & Hd & Hs & -> & Hj'). rewrite Hj in Hp. injection Hp as <-.
    split; [cbn; congruence|]. cbn. intros n v [[<- <-]|[_ Hl]]%lookup_insert_Some; [|eauto]. by exists manifest.
  - unfold route in E. destruct (build_routed _ _ _); by simplify_eq.
  - unfold route in E. destruct (build_routed _ _ _); by simplify_eq.
Qed.

Lemma issue_get_response_inv policy v d id key :
  _check_issue_get_response policy v d = "ok" → sel_issue_id (rq_selection v) = Some id → sel_issue_key (rq_selection v) = Some key →
  ∃ fields, issue_of_project policy (jp_issue_fields policy) d (codes id) (codes key) fields.
Proof.
  unfold _check_issue_get_response. destruct (_common_issue_shape _ _) as [sh|] eqn:Es; [|done]. cbv zeta. intros H Hi Hk. rewrite Hi, Hk in H.
  revert H. destruct (text_is (is_id sh) _ && _) eqn:Et; [|done]. apply andb_true_iff in Et as [<-%text_is_inv <-%text_is_inv].
  destruct (_identity_matches _ _ _) eqn:Ei; [|done]. intros _. exists (is_fields sh). by apply shape_inv.
Qed.

Lemma search_response_inv policy v d label n :
  _check_search_response policy v d = Ret "ok" → sel_search_label (rq_selection v) = Some label → sel_max_results (rq_selection v) = Some n →
  ∃ m issues ids, d = PDict m ∧ pget m "issues" = Some (PList issues) ∧ Z.of_nat (length issues) ≤ n ∧ NoDup ids ∧
    Forall2 (open_issue_with_label policy label) issues ids.
Proof.
  unfold _check_search_response. intros H Hl Hn. rewrite Hn in H. destruct d as [| | | | | |m]; try done.
  do 4 (destruct (negb _) in H; [done|]). destruct (pget m "issues") as [[| | | | |issues|]|] eqn:Ei; try done.
  destruct (n <? _) eqn:Ec; [done|]. apply Z.ltb_ge in Ec. injection H as H.
  destruct (check_search_issues_inv _ _ _ _ _ Hl H (NoDup_nil_2)) as (ids & HF & Hnd). rewrite app_nil_r, reverse_Permutation in Hnd.
  exists m, issues, ids. done.
Qed.

(** C28: an accepted response is within scope.  After any sequence of [route]
    calls on a policy, if [check_response] says ok for a routed request, some
    manifest pinned to that policy allowed it, the response has status 200 and
    its body is a document that is either the very issue that was asked for, in
    the policy's project, or a list of distinct issues, at most as many as the
    routed search asks for, all of them of the project, with the asked label and
    open. *)
Theorem accepted_response_is_in_scope jira p0 p r response v :
  new_route_policy (Some jira) = Ret p0 → rtc route_step p0 p →
  check_response p (Some r) (Some response) = Ret v → v_receipt_reason v = "ok" →
  status response = VInt 200 ∧
  ∃ manifest document,
    sm_policy_digest manifest = jp_digest jira ∧
    parse_json (HttpResponse.body response) (VInt MAX_RESPONSE_BYTES) "finite" (Some false) (VInt MAX_JSON_STRING_BYTES) = Ret document ∧
    ((reads_issue jira manifest (routed_value r) ∧ ∃ i fields, i ∈ sc_issues (sm_scope manifest) ∧
        sel_issue_id (rq_selection (routed_value r)) = Some (issue_id i) ∧
        issue_of_project jira (jp_issue_fields jira) document (codes (issue_id i)) (codes (issue_key i)) fields) ∨
     (∃ template label n m issues ids, searches jira manifest (routed_value r) template label n ∧
        document = PDict m ∧ pget m "issues" = Some (PList issues) ∧
        Z.of_nat (length issues) ≤ n ∧ NoDup ids ∧
        Forall2 (open_issue_with_label jira label) issues ids)).
Proof.
  intros Hnew Hsteps. destruct (issued_in_scope _ _ _ Hnew Hsteps) as [Hj Hi]. unfold check_response. rewrite Hj.
  destruct (_issued p !! object_number r) as [v'|] eqn:El; [|intros [= <-] Hok; done].
  destruct (bool_decide (v' = routed_value r)) eqn:Ev; cbn [negb]; [|intros [= <-] Hok; done]. apply bool_decide_eq_true in Ev as ->.
  destruct (serialize_response response); [|intros [= <-] Hok; done].
  destruct (bool_decide (status response = VInt 200)) eqn:Es; cbn [negb]; [|intros [= <-] Hok; done]. apply bool_decide_eq_true in Es.
  destruct (parse_json _ _ _ _ _) as [d|] eqn:Ep; [|intros [= <-] Hok; done]. intros H Hok. inv_do.
  destruct (a0 =? "ok")%string eqn:Ea; [apply String.eqb_eq in Ea as ->|by injection H as <-].
  split; [done|]. destruct (Hi _ _ El) as (manifest & Hd & [Hr|(template & label & n & Hs)]); exists manifest, d; (split; [done|split; [done|]]).
  - left. split; [done|]. destruct Hr as (Hid & i & Hin & _ & Hsel & _). rewrite Hid in *. cbn in *.
    match goal with X : Ret _ = Ret _ |- _ => injection X as X; edestruct issue_get_response_inv as [fields Hf]; [exact X|by rewrite Hsel..|] end.
    exists i, fields. by rewrite Hsel.
  - right. destruct Hs as (Hid & Ht & Hl & Hn & Hsel & Hu). rewrite Hid in *. cbn in *.
    edestruct search_response_inv as (m & issues & ids & -> & Hm & Hlen & Hnd & HF); [eassumption|by rewrite Hsel..|].
    exists template, label, n, m, issues, ids. by split_and!.
Qed.

(** A response with the issue that was asked for. *)
Definition quoted (s : string) : string := dquote +:+ s +:+ dquote.
Definition field (k v : string) : string := quoted k +:+ ":" +:+ v.
Definition issue_response : ParsedResponse :=
  mkParsedResponse (VInt 200) (Some
    ("{" +:+ join "," [field "id" (quoted "10001"); field "key" (quoted "OPS-1");
       field "fields" ("{" +:+ join ","
         [field "project" ("{" +:+ join "," [field "id" (quoted "10000"); field "key" (quoted "OPS")] +:+ "}");
          field "issuetype" ("{" +:+ field "id" (quoted "10002") +:+ "}")] +:+ "}")] +:+ "}")).

Lemma issue_response_accepted :
  match demo_run (get_request "OPS-1") with
  | Ret (_, _, _, r, p') =>
      match check_response p' (Some r) (Some issue_response) with Ret v => String.eqb (v_receipt_reason v) "ok" | Raise _ => false end
  | Raise _ => false
  end = true.
Proof. vm_compute. reflexivity. Qed.

Lemma accepted_response_is_in_scope_witness : ∃ jira p r v,
  check_response p (Some r) (Some issue_response) = Ret v ∧ v_receipt_reason v = "ok" ∧
  ∃ manifest, sm_policy_digest manifest = jp_digest jira.
Proof.
  pose proof issue_response_accepted as H. destruct (demo_run _) as [[[[[j m] p] r] p']|] eqn:E; [|discriminate H].
  destruct (check_response p' _ _) as [v|] eqn:Ev; [|discriminate H]. apply String.eqb_eq in H.
  apply demo_run_inv in E as [Hnew Er]. exists j, p', r, v. split; [exact Ev|]. split; [exact H|].
  destruct (accepted_response_is_in_scope j p p' r issue_response v Hnew) as (_ & manifest & _ & Hd & _);
    [apply rtc_once; do 2 eexists; by rewrite Er|exact Ev|exact H|].
  by exists manifest.
Defined.

(** ** Strings of a document *)
Lemma char_of_code_ord c : char_of_code (ord c) = Some c.
Proof.
  unfold char_of_code, ord. pose proof (nat_ascii_bounded c).
  rewrite (proj2 (Z.leb_le _ _)), (proj2 (Z.ltb_lt _ _)) by lia. cbn. by rewrite Nat2Z.id, ascii_nat_embedding.
Qed.

Lemma string_of_codes_codes s : string_of_codes (codes s) = Some s.
Proof.
  induction s as [|c s IH]; [done|]. change (codes (String c s)) with (ord c :: codes s). cbn [string_of_codes].
  by rewrite char_of_code_ord, IH.
Qed.

Lemma arg_of_codes s : arg_of (PStr (codes s)) = VStr s.
Proof. cbn. by rewrite string_of_codes_codes. Qed.

Lemma str_items_inv v items : str_items v = Some items → v = Some (map VStr items).
Proof.
  destruct v as [vs|]; [|done]. cbn. intros H%mapM_Some. f_equal.
  induction H as [|x s vs items Hx _ IH]; [done|]. cbn. rewrite IH. destruct x; try done. by injection Hx as ->.
Qed.

Lemma str_items_map items : str_items (Some (map VStr items)) = Some items.
Proof. cbn. induction items as [|s items IH]; [done|]. cbn. by rewrite IH. Qed.

Lemma str_tuple_embed items : str_tuple (Some (PList (map embed (map JVStr items)))) = Some (map VStr items).
Proof.
  unfold str_tuple. assert (forallb is_pstr (map embed (map JVStr items)) = true) as ->.
  { by induction items as [|s items IH]. }
  f_equal. rewrite !map_map. apply map_ext. intros s. apply arg_of_codes.
Qed.

(** Dicts with literal keys are embedded in the order they are written. *)
Lemma jdict_distinct m : NoDup m.*1 → Forall distinct_keys m.*2 → distinct_keys (jdict m).
Proof.
  intros Hnd Hv. unfold jdict. cbn [distinct_keys]. rewrite foldr_and_Forall. split.
  - rewrite <-list_fmap_compose. change (NoDup ((JVStr ∘ fst) <$> m)). rewrite list_fmap_compose.
    apply NoDup_fmap_2; [by intros ?? [= ->]|done].
  - apply Forall_map. rewrite Forall_map in Hv. exact Hv.
Qed.

Lemma list_distinct l : Forall distinct_keys l → distinct_keys (JVList l).
Proof. cbn [distinct_keys]. by rewrite foldr_and_Forall. Qed.

Lemma strs_distinct xs : distinct_keys (jstrs xs).
Proof. apply list_distinct, Forall_map, Forall_true. done. Qed.

Ltac literal_dict := apply jdict_distinct; [apply (bool_decide_unpack _); vm_compute; exact I|].

Lemma manifest_document_distinct service run_id attempt_id rehearsal_id revision routes policy_digest scope :
  distinct_keys (manifest_document service run_id attempt_id rehearsal_id revision routes policy_digest scope).
Proof.
  literal_dict. repeat (apply Forall_cons; split; [try done; try apply strs_distinct|]); [|by apply Forall_nil].
  literal_dict. repeat (apply Forall_cons; split); [|apply strs_distinct|by apply Forall_nil].
  apply list_distinct, Forall_map, Forall_true. intros i. unfold compose. literal_dict. repeat constructor.
Qed.

(** ** Round trip *)

(** [m] was built by the constructors from some arguments. *)
Definition manifest_built (m : ScopeManifest) : Prop :=
  ∃ issues labels scope service run_id attempt_id rehearsal_id revision routes policy_digest,
    Forall (λ i, ∃ id key, build_scoped_issue id key = Ret i) issues ∧
    build_jira_scope issues labels = Ret scope ∧
    build_scope_manifest service run_id attempt_id rehearsal_id revision routes policy_digest scope = Ret m.

Lemma str_arg_inv ok v : str_arg ok v = true → v = VStr (str_of v) ∧ ok (str_of v) = true.
Proof. by destruct v. Qed.

Lemma valid_tuple_inv v lo hi ok : _valid_tuple v lo hi ok = true →
  v = Some (map VStr (items_of v)) ∧ Forall (λ s, ok s = true) (items_of v) ∧ lo ≤ Z.of_nat (length (items_of v)) ≤ hi.
Proof.
  unfold _valid_tuple, items_of. destruct (str_items v) as [items|] eqn:E; [|done]. intros H. cbn. bool_simpl.
  split_and!; [by apply str_items_inv| |lia|lia]. by apply Forall_forall; intros s Hs%list_elem_of_In; eapply forallb_forall in Hs.
Qed.

Lemma scoped_issue_inv id key i : build_scoped_issue id key = Ret i →
  id = VStr (issue_id i) ∧ key = VStr (issue_key i) ∧ _NUMERIC_ID_RE (issue_id i) = true.
Proof.
  unfold build_scoped_issue. intros H. inv_do. injection H as <-. bool_simpl. cbn.
  repeat match goal with X : str_arg _ _ = true |- _ => apply str_arg_inv in X as [? ?] end. done.
Qed.

Lemma jira_scope_inv issues labels scope : build_jira_scope issues labels = Ret scope →
  sc_issues scope = issues ∧ labels = Some (map VStr (sc_search_labels scope)).
Proof.
  unfold build_jira_scope. intros H. inv_do. injection H as <-. cbn. split; [done|].
  match goal with X : _valid_tuple _ _ _ _ = true |- _ => by apply valid_tuple_inv in X as [? _] end.
Qed.

Lemma issues_of_documents issues :
  Forall (λ i, ∃ id key, build_scoped_issue id key = Ret i) issues →
  seq_outcomes (map issue_of_document (map embed (map (λ i, jdict [("id", JVStr (issue_id i)); ("key", JVStr (issue_key i))]) issues))) = Ret issues.
Proof.
  induction 1 as [|i issues (id & key & Hi) _ IH]; [done|]. cbn [map seq_outcomes]. rewrite IH.
  assert (issue_of_document (embed (jdict [("id", JVStr (issue_id i)); ("key", JVStr (issue_key i))])) = Ret i) as ->; [|done].
  pose proof Hi as (-> & -> & _)%scoped_issue_inv.
  transitivity (build_scoped_issue (arg_of (PStr (codes (issue_id i)))) (arg_of (PStr (codes (issue_key i))))); [reflexivity|].
  by rewrite !arg_of_codes.
Qed.

Lemma document_read_back service run_id attempt_id rehearsal_id revision routes policy_digest scope :
  _manifest_from_document (embed (manifest_document service run_id attempt_id rehearsal_id revision routes policy_digest scope)) =
  (scope ←
     (issues ← seq_outcomes (map issue_of_document (map embed
        (map (λ i, jdict [("id", JVStr (issue_id i)); ("key", JVStr (issue_key i))]) (sc_issues scope))));
      match str_tuple (Some (PList (map embed (map JVStr (sc_search_labels scope))))) with
      | None => manifest_invalid
      | Some labels => build_jira_scope issues (Some labels)
      end);
   match str_tuple (Some (PList (map embed (map JVStr routes)))) with
   | None => manifest_invalid
   | Some routes =>
       build_scope_manifest (arg_of (PStr (codes service))) (arg_of (PStr (codes run_id))) (arg_of (PStr (codes attempt_id)))
         (arg_of (PStr (codes rehearsal_id))) (arg_of (PStr (codes revision))) (Some routes)
         (arg_of (PStr (codes policy_digest))) scope
   end).
Proof. reflexivity. Qed.

Lemma valid_hex64_inv v : _valid_hex64 v = true → v = VStr (str_of v).
Proof. by destruct v. Qed.

(** The document of a manifest, as the parser yields it, gives the manifest. *)
Lemma manifest_of_document m :
  manifest_built m → ∃ document, distinct_keys document ∧ canonical_json document true = Ret (sm_canonical m) ∧
    str_len (sm_canonical m) ≤ MAX_MANIFEST_BYTES ∧ _manifest_from_document (embed document) = Ret m.
Proof.
  intros (issues & labels & scope & service & run_id & attempt_id & rehearsal_id & revision & routes & policy_digest & Hi & Hs & Hm).
  pose proof Hs as (Hsi & Hl)%jira_scope_inv. pose proof Hm as Hm'. unfold build_scope_manifest in Hm'. inv_do.
  injection Hm' as <-. cbn [forallb] in *. bool_simpl.
  repeat match goal with X : str_arg _ ?v = true |- _ => apply str_arg_inv in X as [X _] end.
  match goal with X : _valid_tuple routes _ _ _ = true |- _ => apply valid_tuple_inv in X as (Hr & _ & _) end.
  match goal with X : _valid_hex64 _ = true |- _ => apply valid_hex64_inv in X as Hp end.
  eexists. split; [apply manifest_document_distinct|]. cbn [sm_canonical]. split; [eassumption|]. split; [lia|].
  rewrite document_read_back, Hsi, issues_of_documents by assumption. cbn [mbind outcome_bind].
  rewrite !str_tuple_embed, <-Hl, Hs. cbn [mbind outcome_bind]. rewrite !arg_of_codes, <-Hr.
  repeat match goal with X : ?v = VStr (str_of ?v) |- _ => rewrite <-X; clear X end. exact Hm.
Qed.

Lemma issue_of_document_built d i : issue_of_document d = Ret i → ∃ id key, build_scoped_issue id key = Ret i.
Proof. unfold issue_of_document. destruct (exact_keys _ _); [|done]. intros H. inv_do. eauto. Qed.

Lemma manifest_from_document_built d m : _manifest_from_document d = Ret m → manifest_built m.
Proof.
  unfold _manifest_from_document. destruct (exact_keys _ _) as [l|]; [|done]. intros H. inv_do.
  match goal with X : scope_of_document _ = Ret ?s |- _ => rename s into scope; unfold scope_of_document in X; rename X into Hs end.
  destruct (str_tuple _) as [routes|] eqn:Er; [|done]. inv_do.
  destruct (_ ≫= _) as [sm|]; [|done]. destruct (pget sm "issues") as [[| | | | |entries|]|]; try done. inv_do.
  destruct (str_tuple _) as [labels|]; [|done].
  match goal with X : seq_outcomes _ = Ret ?iss |- _ => apply seq_outcomes_ret in X; exists iss; rename X into Hi end.
  repeat eexists; [|exact Hs|exact H]. clear -Hi. induction Hi; constructor; eauto using issue_of_document_built.
Qed.

(** C30: canonical manifest bytes and manifests are the same thing.
    [parse_scope_manifest] accepts a byte string exactly when it is the canonical
    encoding of a manifest the constructors accept, and yields that manifest. *)
Theorem scope_manifest_roundtrip data m :
  parse_scope_manifest (Some data) = Ret m ↔ manifest_built m ∧ sm_canonical m = data.
Proof.
  unfold parse_scope_manifest. split.
  - intros H. inv_do. destruct (parse_json _ _ _ _ _) as [d|]; [|done]. inv_do. injection H as <-.
    split; [by eapply manifest_from_document_built|by apply String.eqb_eq].
  - intros [Hm <-]. destruct (manifest_of_document m Hm) as (doc & Hd & Hc & Hlen & Hback).
    apply canonicalize_emits in Hc as [Hc Hok]; [|done].
    rewrite (proj2 (Z.leb_le _ _)) by done. cbn [check_that mbind outcome_bind].
    rewrite (parse_emit _ _ _ _ _ Hok Hc) by (split; first [done|vm_compute; discriminate]). rewrite Hback. cbn [mbind outcome_bind].
    by rewrite String.eqb_refl.
Qed.
