(* ===== verification/RouteTotal.v ===== *)
(** * Routing always answers

    The encoder accepts every value within its bounds; what [route] encodes
    stays within them, so a request of a known service is routed or denied, and
    never denied because the upstream request could not be built. *)

From Stdlib Require Import Permutation.
From S2P Require Import Prelude PyValue PyJson Services Sha256 CanonJson PyBytes HttpResponse.
From S2P Require Import HttpRequest JsonParse JsonParseThm JsonRoundtrip Scope Routes RoutesThm.
Local Open Scope string_scope.
Local Open Scope Z_scope.

(** ** Encodable values *)
Lemma tagged_digest_total tag v : valid_tag tag = true → encodable 1 v → ∃ d, tagged_digest tag v = Ret d ∧ _HEX64_RE d = true.
Proof.
  intros Ht Hv. destruct (tagged_digest_returns tag v Ht Hv) as [d Hd]. exists d. split; [exact Hd|].
  unfold _HEX64_RE. by destruct (tagged_digest_hex _ _ _ Hd) as [-> ->].
Qed.

Lemma encodable_jdict d m : d ≤ MAX_JSON_DEPTH → Forall (λ kv, clean kv.1 ∧ encodable (d + 1) kv.2) m → encodable d (jdict m).
Proof.
  intros Hd H. unfold jdict. cbn [encodable]. rewrite foldr_and_Forall. split; [done|]. apply Forall_map.
  eapply Forall_impl; [exact H|]. by intros kv [? ?].
Qed.

Lemma encodable_jstrs d xs : d ≤ MAX_JSON_DEPTH → Z.of_nat (length xs) ≤ MAX_JSON_ARRAY_ITEMS → Forall clean xs → encodable d (jstrs xs).
Proof.
  intros Hd Hl H. unfold jstrs. cbn [encodable]. rewrite foldr_and_Forall, length_map. split_and!; [done|done|]. by apply Forall_map.
Qed.

Ltac lit_clean := split; [vm_compute; reflexivity|vm_compute; discriminate].
Ltac members := repeat (apply Forall_cons; split; [split; [lit_clean|]|]); [..|by apply Forall_nil].

Lemma hex_clean s : _HEX64_RE s = true → clean s.
Proof. unfold _HEX64_RE. intros H. bool_simpl. by apply hex_digits_clean. Qed.

Lemma shaped_chars first rest lo hi s (P : ascii → bool) :
  shaped first rest lo hi s = true → all_chars P first = true → all_chars P rest = true →
  all_chars P s = true ∧ str_len s ≤ hi + 1.
Proof.
  unfold shaped. destruct s as [|c s]; [done|]. intros H Hf Hr. bool_simpl. cbn [all_chars]. split.
  - apply andb_true_iff. split; [by eapply char_in_all|]. eapply all_chars_impl; [|eassumption]. intros x Hx. by eapply char_in_all.
  - unfold str_len in *. cbn [String.length]. lia.
Qed.

(** ** Templates *)
Lemma count_char_app c a b : count_char c (a +:+ b) = count_char c a + count_char c b.
Proof. induction a as [|x a IH]; [done|]. rewrite app_cons. cbn. rewrite IH. lia. Qed.

Lemma count_char_lacks c s : count_char c s = 0 → lacks c s = true.
Proof.
  assert (Hnn : ∀ s, 0 ≤ count_char c s) by (induction s0 as [|x s0 IH]; cbn; [done|case_bool_decide; lia]).
  induction s as [|x s IH]; [done|]. cbn [count_char lacks all_chars]. specialize (Hnn s). unfold lacks in IH. case_bool_decide.
  - lia.
  - intros. rewrite bool_decide_false by congruence. apply IH. lia.
Qed.

Lemma count_char_nonneg c s : 0 ≤ count_char c s.
Proof. induction s as [|x s IH]; cbn; [done|case_bool_decide; lia]. Qed.

(** A valid template has exactly one placeholder. *)
Lemma template_shape t : _valid_template t = true →
  ∃ pre suf, template_parts t = [pre; suf] ∧ t = pre +:+ "{label}" +:+ suf ∧ all_chars clean_char t = true ∧ str_len t ≤ MAX_TEMPLATE_BYTES.
Proof.
  unfold _valid_template. intros H. bool_simpl. destruct (String.index 0 _ t) as [i|] eqn:Ei; [|done].
  apply index_split in Ei as (a & b & Et & _); [|done].
  assert (String.index 0 "{label}" t ≠ None) as Hn.
  { rewrite Et. rewrite !app_assoc_str. rewrite <-app_assoc_str. by apply index_occurs. }
  destruct (String.index 0 "{label}" t) as [n|] eqn:En; [|done]. pose proof En as (pre & suf & Hs & <-)%index_split; [|done].
  exists pre, suf. split_and!; [|done|done|done]. unfold template_parts, _TEMPLATE_PLACEHOLDER.
  destruct (String.length t) as [|k] eqn:Hlen; [by destruct t|]. cbn [split_str]. rewrite En.
  rewrite Hs at 1. rewrite slice_prefix. f_equal.
  assert (slice_from (String.length pre + String.length "{label}") t = suf) as ->.
  { rewrite Hs, <-app_assoc_str, <-length_app_str. apply slice_from_app. }
  assert (lacks "{" suf = true) as Hl.
  { apply count_char_lacks. rewrite Hs, !count_char_app in *. change (count_char "{" "{label}") with 1 in *.
    pose proof (count_char_nonneg "{" pre). pose proof (count_char_nonneg "{" suf). lia. }
  destruct k; cbn [split_str]; [done|]. by rewrite (index_lacks "{" "label}" suf Hl).
Qed.

(** ** What the constructors guarantee *)
Definition policy_built (policy : JiraVenuePolicy) : Prop :=
  ∃ revision project_id project_key issue_type_id issue_fields search_fields search_templates search_max_results categories,
    build_venue_policy revision project_id project_key issue_type_id issue_fields search_fields search_templates
      search_max_results categories = Ret policy.

Lemma str_in_all P s xs : str_in s xs = true → forallb P xs = true → P s = true.
Proof. intros Hx%bool_decide_eq_true%list_elem_of_In H. rewrite forallb_forall in H. by apply H. Qed.

(** Characters that need no care in a target. *)
Definition target_char (c : ascii) : bool := clean_char c && negb (bool_decide (c = " "%char)) && negb (bool_decide (c = "#"%char)).
Definition field_ok (f : string) : bool := all_chars clean_char f && (str_len f <=? 14).

Lemma field_tuple_inv v required : _valid_field_tuple v required = true →
  Forall (λ f, field_ok f = true) (items_of v) ∧ Z.of_nat (length (items_of v)) ≤ 9.
Proof.
  unfold _valid_field_tuple. intros [H _]%andb_true_iff. apply valid_tuple_inv in H as (_ & H & Hl).
  split; [|change (Z.of_nat (length JIRA_READABLE_SYSTEM_FIELDS)) with 9 in Hl; lia].
  eapply Forall_impl; [exact H|]. intros f Hf. eapply (str_in_all field_ok); [exact Hf|]. vm_compute. reflexivity.
Qed.

Lemma policy_built_inv policy : policy_built policy →
  Forall (λ f, field_ok f = true) (jp_issue_fields policy) ∧ Z.of_nat (length (jp_issue_fields policy)) ≤ 9 ∧
  Forall (λ f, field_ok f = true) (jp_search_fields policy) ∧ Z.of_nat (length (jp_search_fields policy)) ≤ 9 ∧
  Forall (λ t, _valid_template t = true) (jp_search_templates policy) ∧ jp_search_max_results policy ≤ 100 ∧
  _HEX64_RE (jp_digest policy) = true.
Proof.
  intros (? & ? & ? & ? & ? & ? & ? & n & ? & H). unfold build_venue_policy in H. inv_do. bool_simpl. injection H as <-. cbn.
  repeat match goal with X : _valid_field_tuple _ _ = true |- _ => apply field_tuple_inv in X as [? ?] end.
  match goal with X : _valid_tuple _ 1 MAX_SEARCH_TEMPLATES _ = true |- _ => apply valid_tuple_inv in X as (_ & ? & _) end.
  split_and!; try assumption.
  - destruct n; try discriminate. bool_simpl. unfold MAX_SEARCH_RESULTS in *. lia.
  - match goal with X : tagged_digest _ _ = Ret _ |- _ => unfold tagged_digest in X end. inv_do.
    match goal with X : Ret (sha256_hex ?x) = Ret _ |- _ => injection X as <-; unfold _HEX64_RE; destruct (sha256_hex_shape x) as [-> ->]; done end.
Qed.

Lemma manifest_built_inv m : manifest_built m →
  Forall (λ i, _NUMERIC_ID_RE (issue_id i) = true) (sc_issues (sm_scope m)) ∧
  Forall (λ l, _SEARCH_LABEL_RE l = true) (sc_search_labels (sm_scope m)) ∧ _HEX64_RE (sm_digest m) = true.
Proof.
  intros (issues & labels & scope & ? & ? & ? & ? & ? & ? & ? & Hi & Hs & Hm). pose proof Hs as (Hsi & _)%jira_scope_inv.
  unfold build_jira_scope in Hs. inv_do. injection Hs as <-. cbn in *.
  match goal with X : _valid_tuple labels _ _ _ = true |- _ => apply valid_tuple_inv in X as (_ & Hl & _) end.
  unfold build_scope_manifest in Hm. inv_do. injection Hm as <-. cbn. split_and!; [|done|].
  - eapply Forall_impl; [exact Hi|]. by intros i (id & key & (_ & _ & ?)%scoped_issue_inv).
  - match goal with X : tagged_digest _ _ = Ret _ |- _ => unfold tagged_digest in X end. inv_do.
    match goal with X : Ret (sha256_hex ?x) = Ret _ |- _ => injection X as <-; unfold _HEX64_RE; destruct (sha256_hex_shape x) as [-> ->]; done end.
Qed.

(** ** The upstream requests *)
Lemma all_chars_concat P sep xs : all_chars P sep = true → Forall (λ x, all_chars P x = true) xs → all_chars P (join sep xs) = true.
Proof.
  intros Hs. induction 1 as [|x [|y xs] Hx _ IH]; [done|done|].
  change (join sep (x :: y :: xs)) with (x +:+ sep +:+ join sep (y :: xs)). by rewrite !all_chars_app, Hx, Hs, IH.
Qed.

Lemma csv_ok fields : Forall (λ f, field_ok f = true) fields → Z.of_nat (length fields) ≤ 9 →
  all_chars clean_char (join "," fields) = true ∧ str_len (join "," fields) ≤ 134.
Proof.
  intros H Hl. split.
  - apply all_chars_concat; [done|]. eapply Forall_impl; [exact H|]. intros f Hf. unfold field_ok in Hf. by bool_simpl.
  - rewrite str_len_join. assert (sum_len fields ≤ 14 * Z.of_nat (length fields)); [|lia]. clear Hl. unfold sum_len.
    induction H as [|f fields Hf _ IH]; cbn [foldr length]; [lia|]. unfold field_ok in Hf. bool_simpl. lia.
Qed.

Lemma upper_hex_ok n : target_char (upper_hex n) = true.
Proof.
  unfold upper_hex. destruct (String.get _ _) as [c|] eqn:E; [|done]. apply get_char_in in E. cbn [default].
  eapply (char_in_all target_char); [exact E|]. vm_compute. reflexivity.
Qed.

Lemma encode_query_ok s : all_chars target_char (encode_query_chars s) = true ∧ str_len (encode_query_chars s) ≤ 3 * str_len s.
Proof.
  induction s as [|c s [IH1 IH2]]; [done|]. cbn [encode_query_chars]. rewrite all_chars_app, IH1, andb_true_r, str_len_app.
  assert (Hs : str_len (String c s) = str_len s + 1) by (unfold str_len; cbn [String.length]; lia). rewrite Hs. split.
  - destruct (char_in _QUERY_UNRESERVED c) eqn:E.
    + cbn [all_chars]. rewrite andb_true_r. eapply (char_in_all target_char); [exact E|]. vm_compute. reflexivity.
    + cbn [all_chars]. by rewrite !upper_hex_ok.
  - destruct (char_in _ _); unfold str_len in *; cbn [String.length] in *; lia.
Qed.

Lemma target_ok s : all_chars target_char s = true → _printable_ascii s = true ∧ char_in s " " = false ∧ char_in s "#" = false.
Proof.
  intros H. unfold _printable_ascii. rewrite !char_in_false, !negb_false_iff. unfold target_char in H.
  split_and!; revert H; apply all_chars_impl; intros c Hc; rewrite !andb_true_iff in Hc; by destruct Hc as [[? ?] ?].
Qed.

Lemma numeric_id_ok s : _NUMERIC_ID_RE s = true → all_chars target_char s = true ∧ str_len s ≤ 18.
Proof. intros H. change 18 with (17 + 1). eapply shaped_chars; [exact H|vm_compute; reflexivity..]. Qed.

Lemma issue_get_upstream_ok policy id : policy_built policy → _NUMERIC_ID_RE id = true →
  ∃ target, issue_get_upstream policy id = Ret (mkUpstreamRequest "GET" target "application/json" None "") ∧
    _valid_target target = true ∧ clean target.
Proof.
  intros (Hf & Hl & _)%policy_built_inv (Hid & Hidl)%numeric_id_ok. destruct (csv_ok _ Hf Hl) as [Hc Hcl].
  unfold issue_get_upstream, encode_query_value. change (_printable_ascii _) with (all_chars clean_char (join "," (jp_issue_fields policy))).
  rewrite Hc. cbn [check_that mbind outcome_bind]. eexists. split; [reflexivity|].
  destruct (encode_query_ok (join "," (jp_issue_fields policy))) as [He Hel].
  set (t := "/rest/api/3/issue/" +:+ _).
  assert (Ht : all_chars target_char t = true) by (unfold t; rewrite !all_chars_app, Hid, He; reflexivity).
  assert (Hlen : str_len t ≤ 2048).
  { unfold t. rewrite !str_len_app. change (str_len "/rest/api/3/issue/") with 18. change (str_len "?fields=") with 8. lia. }
  split; [|split; [by apply target_ok|unfold MAX_JSON_STRING_BYTES; lia]].
  unfold _valid_target. destruct (target_ok t Ht) as (-> & -> & ->). change (String.prefix "/" t) with true.
  by rewrite (proj2 (Z.leb_le _ _)) by lia.
Qed.

Lemma label_ok l : _SEARCH_LABEL_RE l = true → all_chars clean_char l = true ∧ str_len l ≤ 128.
Proof. intros H. change 128 with (127 + 1). eapply shaped_chars; [exact H|vm_compute; reflexivity..]. Qed.

Lemma render_clean t l : _valid_template t = true → _SEARCH_LABEL_RE l = true → clean (render t l) ∧ str_len (render t l) ≤ 8400.
Proof.
  intros (pre & suf & Hp & Et & Hc & Hl)%template_shape [Hlc Hll]%label_ok. unfold render. rewrite Hp. cbn [join].
  rewrite Et, !all_chars_app in Hc. apply andb_true_iff in Hc as [Hc1 [_ Hc2]%andb_true_iff].
  rewrite Et, !str_len_app in Hl. change (str_len "{label}") with 7 in Hl. unfold MAX_TEMPLATE_BYTES in Hl.
  unfold clean. rewrite !all_chars_app, !str_len_app, Hc1, Hlc, Hc2. unfold MAX_JSON_STRING_BYTES. split; [split; [done|]|]; lia.
Qed.

Lemma field_clean f : field_ok f = true → clean f.
Proof. unfold field_ok, clean, MAX_JSON_STRING_BYTES. intros H. bool_simpl. split; [done|lia]. Qed.

Lemma search_upstream_ok policy t l n :
  policy_built policy → t ∈ jp_search_templates policy → _SEARCH_LABEL_RE l = true → 1 ≤ n ≤ jp_search_max_results policy →
  ∃ body, search_upstream policy (render t l) n =
      Ret (mkUpstreamRequest "POST" "/rest/api/3/search/jql" "application/json" (Some "application/json") body) ∧
    body ≠ "" ∧ str_len body ≤ MAX_REQUEST_JSON_BYTES.
Proof.
  intros (_ & _ & Hf & Hfl & Hts & Hmax & _)%policy_built_inv Ht Hl Hn. rewrite Forall_forall in Hts. specialize (Hts t Ht).
  destruct (render_clean t l Hts Hl) as [Hr Hrl]. unfold search_upstream, canonical_json.
  set (v := jdict _). assert (Hv : encodable 1 v).
  { apply encodable_jdict; [vm_compute; discriminate|]. members.
    - apply encodable_jstrs; [vm_compute; discriminate|unfold MAX_JSON_ARRAY_ITEMS; lia|]. eapply Forall_impl; [exact Hf|]. apply field_clean.
    - exact Hr.
    - cbn. unfold MAX_SAFE_INTEGER. lia. }
  destruct (canonicalize_total false v 1 Hv) as (b & Hb & Hw). rewrite Hb. cbn [mbind outcome_bind]. exists b. split_and!; [reflexivity| |].
  - intros ->. unfold v, jdict in Hb. cbn [_canonicalize] in Hb. inv_do. done.
  - unfold MAX_REQUEST_JSON_BYTES. etransitivity; [exact Hw|]. unfold v, jdict, jstrs. cbn [map weight foldr fst snd key_of].
    assert (foldr (λ v acc, weight v + 1 + acc) 0 (map JVStr (jp_search_fields policy)) ≤ 31 * Z.of_nat (length (jp_search_fields policy))).
    { clear -Hf. induction Hf as [|f fs Hf _ IH]; cbn [map foldr length weight]; [lia|]. unfold field_ok in Hf. bool_simpl. lia. }
    change (str_len "fields") with 6. change (str_len "jql") with 3. change (str_len "maxResults") with 10. lia.
Qed.

Lemma body_hash_clean b : encodable 2 (if String.eqb b "" then JVNone else JVStr (sha256_hex b)).
Proof.
  destruct (String.eqb b ""); [done|]. cbn [encodable]. apply hex_clean. unfold _HEX64_RE. destruct (sha256_hex_shape b) as [-> ->]. done.
Qed.

(** An upstream request of the shape the routes build. *)
Definition routable (u : UpstreamRequest) : Prop :=
  _valid_target (ur_target u) = true ∧ clean (ur_target u) ∧ ur_accept u = "application/json" ∧
  (ur_method u = "GET" ∧ ur_content_type u = None ∧ ur_body u = "" ∨
   ur_method u = "POST" ∧ ur_content_type u = Some "application/json" ∧ ur_body u ≠ "" ∧ str_len (ur_body u) ≤ MAX_REQUEST_JSON_BYTES).

Lemma routable_digestible u : routable u → digest_input_ok u = true.
Proof.
  intros (Ht & _ & Ha & Hu). unfold digest_input_ok. rewrite Ht, Ha. destruct Hu as [(-> & -> & ->)|(-> & -> & Hb & Hl)]; [done|].
  rewrite (proj2 (Z.leb_le _ _)) by done. apply String.eqb_neq in Hb as ->. done.
Qed.

Lemma clean_json : clean "application/json".
Proof. lit_clean. Qed.

Lemma descriptor_encodable route_id pd sd u :
  clean route_id → _HEX64_RE pd = true → _HEX64_RE sd = true → routable u →
  encodable 1 (request_descriptor "jira" route_id pd sd u).
Proof.
  intros Hid Hpd%hex_clean Hsd%hex_clean (Ht & Hc & Ha & Hu). unfold request_descriptor.
  apply encodable_jdict; [vm_compute; discriminate|]. members; try assumption.
  - vm_compute. discriminate.
  - lit_clean.
  - destruct Hu as [(-> & _)|(-> & _)]; lit_clean.
  - rewrite Ha. apply clean_json.
  - destruct Hu as [(_ & -> & _)|(_ & -> & _)]; [done|]. apply clean_json.
  - destruct Hu as [(_ & _ & ->)|(_ & _ & _ & Hl)]; [vm_compute; discriminate|].
    change (Z.abs (str_len (ur_body u)) ≤ 9007199254740991). pose proof (str_len_nonneg (ur_body u)). unfold MAX_REQUEST_JSON_BYTES in Hl. lia.
  - apply body_hash_clean.
Qed.

Definition matchable (route_id : string) : Prop := route_id = "jira.issue.get" ∨ route_id = "jira.search".

Lemma request_digest_ok route_id pd sd u :
  matchable route_id → _HEX64_RE pd = true → _HEX64_RE sd = true → routable u →
  ∃ d, request_digest (VStr "jira") (VStr route_id) (VStr pd) (VStr sd) (Some u) = Ret d.
Proof.
  intros Hid Hpd Hsd Hu. unfold request_digest. cbn [_valid_hex64 str_of]. rewrite Hpd, Hsd, (routable_digestible _ Hu).
  assert (_valid_route_id (VStr route_id) = true ∧ clean route_id) as [-> Hc]
    by (destruct Hid as [-> | ->]; (split; [vm_compute; reflexivity|lit_clean])).
  change (known_service "jira") with true. cbn [andb check_that mbind outcome_bind].
  edestruct tagged_digest_total as (d & Hd & _); [| |by exists d]; [vm_compute; reflexivity|]. by apply descriptor_encodable.
Qed.

(** ** Every call answers *)

(** [answers ok m Q]: [m] yields a value in [Q] or a denial in [ok]; it does
    not raise. *)
Definition answers {A} (ok : Denial → Prop) (m : result A) (Q : A → Prop) : Prop :=
  match m with Done a => Q a | Denied d => ok d | Raised _ => False end.

Lemma answers_bind {A B} ok (m : result A) (k : A → result B) P Q :
  answers ok m P → (∀ a, P a → answers ok (k a) Q) → answers ok (m ≫= k) Q.
Proof. destruct m; cbn; auto. Qed.

(** A denial that tells nothing but its code and its route. *)
Definition fixed_denial (service : string) (d : Denial) : Prop :=
  dn_code d ≠ "upstream_unbuildable" ∧ dict_get ROUTE_ERROR_REASONS (dn_code d) = Some (dn_receipt_reason d) ∧
  denied_request_digest (VStr service) (VStr (dn_route_id d)) = Ret (dn_request_digest d) ∧
  (dn_route_id d = UNMATCHED_ROUTE_ID ∨ matchable (dn_route_id d)).

Lemma known_clean s : known_service s = true → clean s.
Proof.
  intros H. pose proof (str_in_all (λ s, all_chars clean_char s && (str_len s <=? MAX_JSON_STRING_BYTES)) _ _ H ltac:(vm_compute; reflexivity)) as Hs.
  cbn beta in Hs. apply andb_true_iff in Hs as [? ?%Z.leb_le]. by split.
Qed.

Lemma denied_digest_ok service route_id :
  known_service service = true → route_id = UNMATCHED_ROUTE_ID ∨ service = "jira" ∧ matchable route_id →
  ∃ d, denied_request_digest (VStr service) (VStr route_id) = Ret d.
Proof.
  intros Hs Hr. unfold denied_request_digest. rewrite Hs. cbn [check_that mbind outcome_bind str_of].
  assert (str_in route_id (UNMATCHED_ROUTE_ID :: map fst (List.filter (λ kv, String.eqb (rt_service kv.2) service) ROUTE_CATALOG)) = true ∧
    clean route_id) as [-> Hc].
  { destruct Hr as [->|[-> [->| ->]]]; (split; [|lit_clean]); [|vm_compute; reflexivity..].
    apply bool_decide_eq_true. apply list_elem_of_here. }
  cbn [check_that mbind outcome_bind]. edestruct tagged_digest_total as (d & Hd & _); [| |by exists d]; [vm_compute; reflexivity|].
  apply encodable_jdict; [vm_compute; discriminate|]. members; [vm_compute; discriminate|by apply known_clean|done].
Qed.

Lemma deny_answers {A} code service route_id (Q : A → Prop) :
  known_service service = true → route_id = UNMATCHED_ROUTE_ID ∨ service = "jira" ∧ matchable route_id →
  code ≠ "upstream_unbuildable" → is_Some (dict_get ROUTE_ERROR_REASONS code) →
  answers (fixed_denial service) (_deny code service route_id) Q.
Proof.
  intros Hs Hr Hc [reason Hreason]. unfold _deny. destruct (denied_digest_ok _ _ Hs Hr) as [d Hd]. rewrite Hd, Hreason. cbn.
  split_and!; [done|done|done|]. cbn. destruct Hr as [->|[_ Hr]]; [by left|by right].
Qed.

Lemma allow_answers b code service route_id :
  known_service service = true → route_id = UNMATCHED_ROUTE_ID ∨ service = "jira" ∧ matchable route_id →
  code ≠ "upstream_unbuildable" → is_Some (dict_get ROUTE_ERROR_REASONS code) →
  answers (fixed_denial service) (allow b code service route_id) (λ _, b = true).
Proof. intros. unfold allow. destruct b; [done|]. by apply deny_answers. Qed.

(** [answer_step] passes one guard or ends in a denial. *)
Ltac answer_side := first [assumption|discriminate|by eexists|by left|by right; split; [reflexivity|first [by left|by right]]|reflexivity].
Ltac answer_step :=
  match goal with
  | |- answers _ (allow _ _ _ _ ≫= _) _ => eapply answers_bind; [apply allow_answers; answer_side|cbv beta; intros ? ?]
  | |- answers _ (_deny _ _ _) _ => apply deny_answers; answer_side
  end.

Lemma select_issue_get_answers policy request m selector :
  answers (fixed_denial "jira") (_select_issue_get policy request m selector "jira") (λ sel, ∃ i, i ∈ sc_issues (sm_scope m) ∧
    sel_issue_id sel = Some (issue_id i)).
Proof.
  unfold _select_issue_get. repeat answer_step. destruct (_lookup_issue m selector) as [i|] eqn:E; [|answer_step].
  cbn. exists i. split; [|done]. apply find_some in E as [E _]. by apply list_elem_of_In.
Qed.

Lemma match_templates_total templates labels jql :
  Forall (λ t, _valid_template t = true) templates → ∃ ms, _match_templates templates labels jql = Ret ms.
Proof.
  intros H. unfold _match_templates. destruct (seq_outcomes_total (match_template labels jql) templates) as [ms Hms].
  - eapply Forall_impl; [exact H|]. intros t (pre & suf & Hp & _)%template_shape. unfold match_template. rewrite Hp.
    destruct (bool_decide _); [by eexists|]. destruct (negb _); by eexists.
  - rewrite Hms. by eexists.
Qed.

Lemma select_search_answers policy request m :
  policy_built policy →
  answers (fixed_denial "jira") (_select_search policy request m "jira") (λ r, let '(sel, jql, n) := r in
    ∃ t l, t ∈ jp_search_templates policy ∧ l ∈ sc_search_labels (sm_scope m) ∧ jql = render t l ∧ 1 ≤ n ≤ jp_search_max_results policy).
Proof.
  intros (_ & _ & _ & _ & Hts & _)%policy_built_inv. unfold _select_search. answer_step.
  destruct (parse_json _ _ _ _ _) as [[| | | | | |parsed]|]; try answer_step.
  destruct (pget parsed "jql") as [[| | | |t| |]|]; try answer_step.
  destruct (match_templates_total _ (sc_search_labels (sm_scope m)) t Hts) as [ms Hms]. rewrite Hms. cbn [of_outcome mbind result_bind].
  destruct ms as [|[template label] [|]]; try answer_step.
  destruct (default _ _) as [| |n| | | |]; try answer_step. answer_step. bool_simpl. cbn [answers].
  destruct (match_templates_inv _ _ _ _ template label Hms) as (Ht & Hl & _); [by apply list_elem_of_singleton|].
  exists template, label. split_and!; done || lia.
Qed.

Lemma build_routed_answers p jira m request :
  policy_built jira → _jira p = Some jira → manifest_built m → known_service (HttpRequest.service request) = true →
  answers (fixed_denial (HttpRequest.service request)) (build_routed p (Some request) (Some m)) (λ _, True).
Proof.
  intros Hp Hj Hm Hs. unfold build_routed. rewrite Hs, Hj. cbn [negb]. answer_step.
  match goal with X : (_ =? "jira")%string = true |- _ => apply String.eqb_eq in X; rewrite X in * end.
  do 2 answer_step.
  destruct (_match_route request) as [[route_id selector]|] eqn:Er; [|answer_step]. apply match_route_inv in Er.
  assert (Hid : matchable route_id) by (destruct selector; subst; [by left|by right]).
  eapply answers_bind; [apply allow_answers; try done; by right|]. intros _ _.
  pose proof Hp as (_ & _ & _ & _ & _ & _ & Hpd)%policy_built_inv. destruct (manifest_built_inv m Hm) as (His & Hls & Hmd).
  eapply (answers_bind _ _ _ (λ su, ∃ u, su.2 = Ret u ∧ routable u)).
  - destruct selector as [sel|].
    + eapply answers_bind; [apply select_issue_get_answers|]. intros s (i & Hi & Hsi). cbn. rewrite Hsi. cbn [default].
      rewrite Forall_forall in His. destruct (issue_get_upstream_ok jira (issue_id i) Hp (His i Hi)) as (t & Ht & Hv & Hc).
      eexists. split; [exact Ht|]. split_and!; try done. by left.
    + eapply answers_bind; [by apply select_search_answers|]. intros [[s jql] n] (t & l & Ht & Hl & -> & Hn). cbn [answers].
      rewrite Forall_forall in Hls. destruct (search_upstream_ok jira t l n Hp Ht (Hls l Hl) Hn) as (b & Hb & Hne & Hlen).
      eexists. split; [exact Hb|]. split_and!; [vm_compute; reflexivity|lit_clean|done|by right].
  - intros [s up] (u & Hup & Hu). cbn [snd] in Hup. subst up. cbn [mbind outcome_bind].
    destruct (request_digest_ok route_id (jp_digest jira) (sm_digest m) u Hid Hpd Hmd Hu) as [d Hd]. rewrite Hd. done.
Qed.

(** C29: routing always answers.  For a policy and a manifest the constructors
    accepted and a request of a known service, [route] never raises: it returns
    a routed request, or a denial whose receipt reason and digest are the fixed
    ones of its code and its route; the step that builds and digests the
    upstream request never fails, so [upstream_unbuildable] never happens. *)
Theorem routing_always_answers p jira m request :
  policy_built jira → _jira p = Some jira → manifest_built m → known_service (HttpRequest.service request) = true →
  (∃ r, (route p (Some request) (Some m)).1 = Done r) ∨
  (∃ d, (route p (Some request) (Some m)).1 = Denied d ∧ fixed_denial (HttpRequest.service request) d).
Proof.
  intros Hp Hj Hm Hs. pose proof (build_routed_answers p jira m request Hp Hj Hm Hs) as H. unfold route.
  destruct (build_routed _ _ _); cbn in *; [left; by eexists|right; by eexists|done].
Qed.

Lemma routing_always_answers_witness : ∃ p m, ∀ selector,
  (∃ r, (route p (Some (get_request selector)) (Some m)).1 = Done r) ∨
  (∃ d, (route p (Some (get_request selector)) (Some m)).1 = Denied d ∧ fixed_denial "jira" d).
Proof.
  pose proof demo_get_runs as H. unfold demo_run in H. destruct demo_state as [[[j m] p]|] eqn:E; [|discriminate H].
  clear H. unfold demo_state in E. inv_do. injection E as -> -> ->. exists p, m. intros selector.
  refine (routing_always_answers p j m (get_request selector) _ _ _ _).
  - match goal with X : demo_policy = _ |- _ => unfold demo_policy in X; do 9 eexists; exact X end.
  - match goal with X : new_route_policy _ = _ |- _ => unfold new_route_policy in X; inv_do; by injection X as <- end.
  - match goal with X : demo_routes_manifest = _ |- _ => unfold demo_routes_manifest in X; inv_do; unfold demo_scope in *; inv_do; do 10 eexists;
    split; [apply Forall_cons; split; [do 2 eexists; eassumption|by apply Forall_nil]|]; split; [eassumption|exact X] end.
  - vm_compute. reflexivity.
Defined.
