(* ===== verification/JournalValue.v ===== *)
(** * The values of journal records

    The recovery journal (journal_source.py, journal_records.py,
    journal_reducer.py) builds, checks and compares trees of Python values.
    [value] is such a tree.  A read-only view that [_freeze] makes of a dict is
    the same [DDict]; the keys of every dict are [str], distinct, and keep their
    order.  [to_json] is the value as the encoder of forwarder_json.py sees it,
    [of_parsed] what the strict parser built. *)

From S2P Require Import Prelude PyValue PyJson Sha256 CanonJson PyBytes JsonParse.
Local Open Scope string_scope.
Local Open Scope Z_scope.

Inductive value :=
| DNone
| DBool (b : bool)
| DInt (z : Z)
| DStr (s : string)
| DTuple (l : list value)
| DList (l : list value)
| DDict (m : list (string * value))
| DOther.

Definition members : Type := list (string * value).

Section value_ind.
Context (P : value → Prop).
Hypothesis (Hnone : P DNone) (Hbool : ∀ b, P (DBool b)) (Hint : ∀ z, P (DInt z)) (Hstr : ∀ s, P (DStr s)).
Hypothesis (Htuple : ∀ l, Forall P l → P (DTuple l)) (Hlist : ∀ l, Forall P l → P (DList l)).
Hypothesis (Hdict : ∀ m, Forall (λ kv, P kv.2) m → P (DDict m)) (Hother : P DOther).

Fixpoint value_nested_ind (v : value) : P v :=
  match v with
  | DNone => Hnone | DBool b => Hbool b | DInt z => Hint z | DStr s => Hstr s | DOther => Hother
  | DTuple l => Htuple l ((fix go l := match l return Forall P l with [] => Forall_nil_2 _
      | x :: l => Forall_cons_2 _ _ _ (value_nested_ind x) (go l) end) l)
  | DList l => Hlist l ((fix go l := match l return Forall P l with [] => Forall_nil_2 _
      | x :: l => Forall_cons_2 _ _ _ (value_nested_ind x) (go l) end) l)
  | DDict m => Hdict m ((fix go m := match m return Forall (λ kv, P kv.2) m with [] => Forall_nil_2 _
      | kv :: m => Forall_cons_2 _ kv _ (value_nested_ind kv.2) (go m) end) m)
  end.
End value_ind.

#[export] Instance value_eq_dec : EqDecision value.
Proof.
  refine (fix go (v w : value) : Decision (v = w) :=
    let D : EqDecision value := go in
    match v, w with
    | DNone, DNone | DOther, DOther => left eq_refl
    | DBool a, DBool b => cast_if (decide (a = b))
    | DInt a, DInt b => cast_if (decide (a = b))
    | DStr a, DStr b => cast_if (decide (a = b))
    | DTuple a, DTuple b => cast_if (decide (a = b))
    | DList a, DList b => cast_if (decide (a = b))
    | DDict a, DDict b => cast_if (decide (a = b))
    | _, _ => right _
    end); clear D go; abstract congruence.
Defined.

(** ** Dicts *)
Definition MISSING : value := DNone.

(** [d[key]], for a key whose presence was checked. *)
Definition get (m : members) (key : string) : value := default MISSING (dict_get m key).

(** [value.keys() == keys]. *)
Definition same_keys (m : members) (keys : list string) : bool :=
  forallb (λ k, str_in k keys) m.*1 && forallb (λ k, str_in k m.*1) keys.

(** [type(value) is dict and value.keys() == keys]. *)
Definition _exact_keys_ok (v : value) (keys : list string) : option members :=
  match v with DDict m => if same_keys m keys then Some m else None | _ => None end.

Definition is_none (v : value) : bool := match v with DNone => true | _ => false end.
Definition is_str (v : value) : bool := match v with DStr _ => true | _ => false end.
Definition is_bool (v : value) : bool := match v with DBool _ => true | _ => false end.
(** A [str] that passes a test. *)
Definition str_ok (ok : string → bool) (v : value) : bool := match v with DStr s => ok s | _ => false end.

Definition _hex64_ok (v : value) : bool := str_ok (λ s, (str_len s =? 64) && all_chars (char_in HEX_DIGITS) s) v.
Definition _enum_ok (v : value) (choices : list string) : bool := str_ok (λ s, str_in s choices) v.

(** The text and the number of a value whose type was checked. *)
Definition text_of (v : value) : string := match v with DStr s => s | _ => "" end.
Definition int_of (v : value) : Z := match v with DInt z => z | _ => 0 end.

(** The item of a [tuple] or [list]. *)
Definition items (v : value) : option (list value) :=
  match v with DTuple l | DList l => Some l | _ => None end.

(** [[A-Za-z0-9._-]{1,n}], matched in full. *)
Definition ID_CHARS : string := "ABCDEFGHIJKLMNOPQRSTUVWXYZabcdefghijklmnopqrstuvwxyz0123456789._-".
Definition id_pattern (n : Z) (s : string) : bool :=
  (1 <=? str_len s) && (str_len s <=? n) && all_chars (char_in ID_CHARS) s.

(** ** Equality of Python values

    Two dicts are equal whatever their order, and [True == 1]. *)
Fixpoint eq_key (v : value) : value :=
  match v with
  | DBool b => DInt (if b then 1 else 0)
  | DTuple l => DTuple (map eq_key l)
  | DList l => DList (map eq_key l)
  | DDict m => DDict (sort_keys (map (λ kv, (kv.1, eq_key kv.2)) m))
  | v => v
  end.
Definition py_eq (v w : value) : bool := bool_decide (eq_key v = eq_key w).

(** [len(set(xs)) == len(xs)] and [x in xs], for values checked to be [str]. *)
Definition distinct (xs : list value) : bool := bool_decide (NoDup (map text_of xs)).
Definition among (x : string) (xs : list value) : bool := str_in x (map text_of xs).
Definition same_text (v w : value) : bool := bool_decide (text_of v = text_of w).

(** ** Encoding and reading back *)
Fixpoint to_json (v : value) : jvalue :=
  match v with
  | DNone => JVNone
  | DBool b => JVBool b
  | DInt z => JVInt z
  | DStr s => JVStr s
  | DTuple l | DList l => JVList (map to_json l)
  | DDict m => JVDict (map (λ kv, (JVStr kv.1, to_json kv.2)) m)
  | DOther => JVOther
  end.

(** A text whose code points were checked to be ASCII. *)
Definition chars (t : text) : string := String.string_of_list_ascii (map (λ c, ascii_of_nat (Z.to_nat c)) t).

Fixpoint of_parsed (p : pvalue) : value :=
  match p with
  | PNone => DNone
  | PBool b => DBool b
  | PInt z => DInt z
  | PDecimal _ => DOther
  | PStr s => DStr (chars s)
  | PList l => DTuple (map of_parsed l)
  | PDict m => DDict (map (λ kv, (chars kv.1, of_parsed kv.2)) m)
  end.

(** What a value is read back as: every sequence a tuple, every dict in the
    order of its keys. *)
Fixpoint stored (v : value) : value :=
  match v with
  | DTuple l | DList l => DTuple (map stored l)
  | DDict m => DDict (sort_keys (map (λ kv, (kv.1, stored kv.2)) m))
  | v => v
  end.

Definition encode (v : value) : outcome string := canonical_json (to_json v) true.
