(* ===== verification/JournalSource.v ===== *)
(** * The sanitized source record (journal_source.py)

    What one accepted notification leaves in the recovery journal: bounded,
    canonically ordered alerts with canonical numbers.  A [SourceRecord] is
    typed, so the type guards of [source_to_json] on its fields cannot fire;
    [source_from_json] reads any [value].  The [budget] list that the parser
    shares between alerts is a number passed along. *)

From S2P Require Import Prelude PyValue PyJson Sha256 CanonJson PyBytes JsonParse JournalValue.
Local Open Scope string_scope.
Local Open Scope Z_scope.
Local Open Scope list_scope.

Definition ALERT_STATUSES : list string := ["firing"; "resolved"].
Definition PROVENANCE_KINDS : list string := ["http"].
Definition MAX_ALERTS : Z := 32.
Definition MAX_VALUES : Z := 64.
Definition MAX_SOURCE_RECORD_BYTES : Z := 4096.
Definition MAX_FINGERPRINT_BYTES : Z := 64.
Definition MAX_REF_ID_BYTES : Z := 32.
Definition MAX_GROUP_KEY_BYTES : Z := 1024.
Definition MAX_STARTS_AT_BYTES : Z := 30.
Definition MAX_TRUNCATED_ALERTS : Z := 2 ^ 31 - 1.
Definition SOURCE_TAG : string := "rj.source.v1".
Definition SOURCE_GROUP_TAG : string := "rj.source-group.v1".
Definition DEDUPE_KEY_TAG : string := "rj.dedupe-key.v1".

Definition SourceError (code : string) : exn := Exn "SourceError" code.
Definition _fail_source {A} (code : string) : outcome A := Raise (SourceError code).

(** ** Patterns *)
Definition _FINGERPRINT_PATTERN : string → bool := id_pattern MAX_FINGERPRINT_BYTES.
Definition _REF_ID_PATTERN : string → bool := id_pattern MAX_REF_ID_BYTES.

(** The text after one of the given shape, in which [0] stands for a digit. *)
Fixpoint after_shape (shape s : string) : option string :=
  match shape, s with
  | EmptyString, _ => Some s
  | String c shape', String x s' =>
      if (if bool_decide (c = "0"%char) then is_digit x else bool_decide (x = c))
      then after_shape shape' s' else None
  | _, _ => None
  end.

(** The text after the leading digits, and their number. *)
Fixpoint after_digits (s : string) : Z * string :=
  match s with
  | String c s' => if is_digit c then let '(n, r) := after_digits s' in (n + 1, r) else (0, s)
  | EmptyString => (0, s)
  end.

Definition _STARTS_AT_PATTERN (s : string) : bool :=
  match after_shape "0000-00-00T00:00:00" s with
  | None => false
  | Some r =>
      bool_decide (r = "Z") ||
      match after_shape "." r with
      | Some r =>
          let '(n, r) := after_digits r in (1 <=? n) && (n <=? 9) && bool_decide (r = "Z")
      | None => false
      end
  end.

(** ** Canonical numbers *)

(** A number lexeme: its sign, integer digits, fraction digits, exponent text
    and exponent. *)
Record lexeme := Lexeme {
  lex_negative : bool;
  lex_int : text;
  lex_frac : text;
  lex_exp_text : text;
  lex_exp : Z;
}.

(** [_JSON_NUMBER_LEXEME.fullmatch(text)]. *)
Definition _JSON_NUMBER_LEXEME (s : string) : option lexeme :=
  let '(sign, body) := split_sign (codes s) in
  match int_part body with
  | None => None
  | Some (ip, r1) =>
      let '(fp, r2) := frac_part r1 in
      let '(ep, e, r3) := exp_part r2 in
      match r3 with
      | [] => Some (Lexeme (bool_decide (sign = [45])) ip fp ep e)
      | _ => None
      end
  end.

(** [_CANONICAL_NUMBER_PATTERN.fullmatch(text)]: a lower-case [e] and a sign. *)
Definition _CANONICAL_NUMBER_PATTERN (s : string) : bool :=
  match _JSON_NUMBER_LEXEME s with
  | None => false
  | Some l =>
      match lex_exp_text l with
      | [] => true
      | e :: sign :: _ => (e =? 101) && ((sign =? 43) || (sign =? 45))
      | _ => false
      end
  end.

(** [float(text)] when it is finite; the mantissa has at most 32 digits, so an
    exponent below -400 leaves nothing. *)
Definition lexeme_float (l : lexeme) : option float :=
  let m := number_value (lex_int l ++ lex_frac l) in
  let e := lex_exp l - Z.of_nat (length (lex_frac l)) in
  let sign x := match x with S754_finite _ m e => S754_finite (lex_negative l) m e | x => x end in
  if negb (decimal_finite m e) then None
  else if (m =? 0) || (e <? -400) then Some fzero
  else Some (sign (float_of_decimal m e)).

(** [int(parsed)] when [parsed.is_integer()]. *)
Definition float_integer (x : float) : option Z :=
  match x with
  | S754_zero _ => Some 0
  | S754_finite s m e =>
      let sign z := if s : bool then - z else z in
      if 0 <=? e then Some (sign (Zpos m * 2 ^ e))
      else if Zpos m mod 2 ^ (- e) =? 0 then Some (sign (Zpos m / 2 ^ (- e))) else None
  | _ => None
  end.

Inductive number := NInt (z : Z) | NDecimal (lexeme_text : string).

Definition canonical_number (v : number) : outcome string :=
  match v with
  | NInt z =>
      check_that (Z.abs z <=? MAX_SAFE_INTEGER) (SourceError "source_number");; Ret (int_repr z)
  | NDecimal s =>
      check_that (str_len s <=? MAX_JSON_NUMBER_CHARS) (SourceError "source_number");;
      match _JSON_NUMBER_LEXEME s with
      | None => _fail_source "source_number"
      | Some l =>
          match lexeme_float l with
          | None => _fail_source "source_number"
          | Some parsed =>
              match float_integer parsed with
              | Some z => if Z.abs z <=? MAX_SAFE_INTEGER then Ret (int_repr z) else Ret (float_repr parsed)
              | None => Ret (float_repr parsed)
              end
          end
      end
  end.

(** [JSONDecimal(text) if ("." in text or "e" in text) else int(text)]. *)
Definition number_of_text (s : string) (l : lexeme) : number :=
  match lex_frac l, lex_exp_text l with
  | [], [] => NInt (if lex_negative l then - number_value (lex_int l) else number_value (lex_int l))
  | _, _ => NDecimal s
  end.

Definition is_canonical_number (s : string) : bool :=
  if negb (str_len s <=? MAX_JSON_NUMBER_CHARS) || negb (_CANONICAL_NUMBER_PATTERN s) then false
  else match _JSON_NUMBER_LEXEME s with
  | None => false
  | Some l => holds (λ t, bool_decide (t = s)) (canonical_number (number_of_text s l))
  end.

Example canonical_numbers :
  map (λ v, match canonical_number v with Ret s => s | Raise _ => "" end)
    [NInt (-7); NDecimal "1.50"; NDecimal "2e3"; NDecimal "-0.0"; NDecimal "1e400"; NDecimal "1e-999999"; NDecimal "0.1";
     NDecimal "1e22"; NDecimal "-12345678901234567890"; NDecimal "1."; NInt (2 ^ 53)]
  = ["-7"; "1.5"; "2000"; "0"; ""; "0"; "0.1"; "1e+22"; "-1.2345678901234567e+19"; ""; ""].
Proof. vm_compute. reflexivity. Qed.
Example canonical_texts :
  map is_canonical_number ["1.5"; "1.50"; "-0"; "0"; "1e+22"; "1e22"; "10000000000000000000000"; "1.0"; "5e-324"; "-7"]
  = [true; false; false; true; true; false; false; false; true; true].
Proof. vm_compute. reflexivity. Qed.

(** ** Value types *)
Record Provenance := {
  kind : string;
  path : string;
  line : option Z;
}.
Definition HTTP_PROVENANCE : Provenance := {| kind := "http"; path := "/notification"; line := None |}.

Record SourceAlert := {
  fingerprint : string;
  status : string;
  values : option (list (string * option string));
  starts_at : option string;
}.

Record SourceRecord := {
  source_group : string;
  alerts : list SourceAlert;
  truncated_alerts : option Z;
  body_digest : string;
  provenance : Provenance;
}.

#[export] Instance provenance_eq_dec : EqDecision Provenance.
Proof. solve_decision. Defined.
#[export] Instance source_alert_eq_dec : EqDecision SourceAlert.
Proof. solve_decision. Defined.
#[export] Instance source_record_eq_dec : EqDecision SourceRecord.
Proof. solve_decision. Defined.

(** ** Source group *)
Definition source_group_digest (group_key : string) : outcome string :=
  check_that ((1 <=? str_len group_key) && (str_len group_key <=? MAX_GROUP_KEY_BYTES) &&
      all_chars (λ c, (32 <=? ord c) && (ord c <=? 126)) group_key) (SourceError "source_group");;
  tagged_digest SOURCE_GROUP_TAG (JVDict [(JVStr "group_key", JVStr group_key)]).

(** ** To and from JSON *)
Definition _SOURCE_JSON_KEYS : list string :=
  ["alerts"; "body_digest"; "provenance"; "source_group"; "truncated_alerts"].
Definition _ALERT_JSON_KEYS : list string := ["fingerprint"; "starts_at"; "status"; "values"].
Definition _PROVENANCE_JSON_KEYS : list string := ["kind"; "line"; "path"].

Definition of_option {A} (f : A → value) (o : option A) : value := match o with None => DNone | Some a => f a end.

(** The dict that assigning the pairs in turn leaves. *)
Definition pairs_dict (pairs : list (string * option string)) : members :=
  foldl (λ m kv, dict_set m kv.1 (of_option DStr kv.2)) [] pairs.

Definition _alert_to_json (alert : SourceAlert) : value :=
  DDict [("fingerprint", DStr (fingerprint alert)); ("starts_at", of_option DStr (starts_at alert));
         ("status", DStr (status alert)); ("values", of_option (λ vs, DDict (pairs_dict vs)) (values alert))].

Definition source_to_json (source : SourceRecord) : value :=
  DDict [("alerts", DTuple (map _alert_to_json (alerts source))); ("body_digest", DStr (body_digest source));
         ("provenance", DDict [("kind", DStr (kind (provenance source))); ("line", of_option DInt (line (provenance source)));
                               ("path", DStr (path (provenance source)))]);
         ("source_group", DStr (source_group source)); ("truncated_alerts", of_option DInt (truncated_alerts source))].

Definition _parse_provenance (v : value) : outcome Provenance :=
  match _exact_keys_ok v _PROVENANCE_JSON_KEYS with
  | None => _fail_source "source_provenance"
  | Some m =>
      match get m "kind", get m "path", get m "line" with
      | DStr kind, DStr path, (DNone | DInt _) as line =>
          check_that (str_in kind PROVENANCE_KINDS) (SourceError "source_provenance");;
          let provenance := {| kind := kind; path := path; line := match line with DInt z => Some z | _ => None end |} in
          check_that (bool_decide (provenance = HTTP_PROVENANCE)) (SourceError "source_provenance");;
          Ret provenance
      | _, _, _ => _fail_source "source_provenance"
      end
  end.

(** The loop of [_parse_values]; [prev] is [items[-1][0]]. *)
Fixpoint parse_value_items (m : members) (prev : option string) : outcome (list (string * option string)) :=
  match m with
  | [] => Ret []
  | (ref_id, v) :: m' =>
      check_that (_REF_ID_PATTERN ref_id) (SourceError "source_values");;
      check_that (match prev with Some p => negb (String.leb ref_id p) | None => true end) (SourceError "source_order");;
      match v with
      | DNone => rest ← parse_value_items m' (Some ref_id); Ret ((ref_id, None) :: rest)
      | DStr s =>
          check_that (is_canonical_number s) (SourceError "source_values");;
          rest ← parse_value_items m' (Some ref_id); Ret ((ref_id, Some s) :: rest)
      | _ => _fail_source "source_values"
      end
  end.

Definition _parse_values (v : value) (budget : Z) : outcome (option (list (string * option string)) * Z) :=
  match v with
  | DNone => Ret (None, budget)
  | DDict m =>
      items ← parse_value_items m None;
      let budget := budget + Z.of_nat (length items) in
      check_that (budget <=? MAX_VALUES) (SourceError "source_too_many_values");;
      Ret (Some items, budget)
  | _ => _fail_source "source_values"
  end.

Definition _parse_alert (v : value) (budget : Z) : outcome (SourceAlert * Z) :=
  match _exact_keys_ok v _ALERT_JSON_KEYS with
  | None => _fail_source "source_shape"
  | Some m =>
      check_that (str_ok _FINGERPRINT_PATTERN (get m "fingerprint")) (SourceError "source_fingerprint");;
      check_that (_enum_ok (get m "status") ALERT_STATUSES) (SourceError "source_status");;
      check_that (is_none (get m "starts_at") ||
          str_ok (λ s, (str_len s <=? MAX_STARTS_AT_BYTES) && _STARTS_AT_PATTERN s) (get m "starts_at"))
        (SourceError "source_starts_at");;
      '(vs, budget) ← _parse_values (get m "values") budget;
      Ret ({| fingerprint := text_of (get m "fingerprint"); status := text_of (get m "status"); values := vs;
              starts_at := match get m "starts_at" with DStr s => Some s | _ => None end |}, budget)
  end.

(** [tuple(_parse_alert(item, budget) for item in alerts_raw)]. *)
Fixpoint parse_alerts (xs : list value) (budget : Z) : outcome (list SourceAlert) :=
  match xs with
  | [] => Ret []
  | x :: xs' => '(alert, budget) ← _parse_alert x budget; rest ← parse_alerts xs' budget; Ret (alert :: rest)
  end.

Fixpoint check_order (xs : list SourceAlert) (previous : option string) : outcome unit :=
  match xs with
  | [] => Ret tt
  | alert :: xs' =>
      match previous with
      | Some p =>
          if String.leb (fingerprint alert) p
          then _fail_source (if bool_decide (fingerprint alert = p) then "source_duplicate_fingerprint" else "source_order")
          else check_order xs' (Some (fingerprint alert))
      | None => check_order xs' (Some (fingerprint alert))
      end
  end.

Definition truncated_ok (v : value) : bool :=
  match v with DNone => true | DInt z => (0 <=? z) && (z <=? MAX_TRUNCATED_ALERTS) | _ => false end.

Definition source_from_json (v : value) : outcome SourceRecord :=
  match _exact_keys_ok v _SOURCE_JSON_KEYS with
  | None => _fail_source "source_shape"
  | Some m =>
      match get m "alerts" with
      | DTuple ((_ :: _) as raw) =>
          check_that (Z.of_nat (length raw) <=? MAX_ALERTS) (SourceError "source_too_many_alerts");;
          alerts ← parse_alerts raw 0;
          check_order alerts None;;
          check_that (truncated_ok (get m "truncated_alerts")) (SourceError "source_truncated");;
          check_that (_hex64_ok (get m "body_digest")) (SourceError "source_body_digest");;
          provenance ← _parse_provenance (get m "provenance");
          check_that (_hex64_ok (get m "source_group")) (SourceError "source_group");;
          let record := {| source_group := text_of (get m "source_group"); alerts := alerts;
            truncated_alerts := match get m "truncated_alerts" with DInt z => Some z | _ => None end;
            body_digest := text_of (get m "body_digest"); provenance := provenance |} in
          encoded ← encode (source_to_json record);
          check_that (str_len encoded <=? MAX_SOURCE_RECORD_BYTES) (SourceError "source_too_large");;
          Ret record
      | _ => _fail_source "source_shape"
      end
  end.

Definition validate_source (source : SourceRecord) : outcome SourceRecord :=
  reconstructed ← source_from_json (source_to_json source);
  check_that (bool_decide (reconstructed = source)) (SourceError "source_shape");;
  Ret reconstructed.

(** ** Digests *)
Definition source_digest (source : SourceRecord) : outcome string :=
  tagged_digest SOURCE_TAG (to_json (source_to_json source)).

Definition dedupe_row (alert : SourceAlert) : value :=
  DTuple [DStr (fingerprint alert); DStr (status alert); of_option (λ vs, DDict (pairs_dict vs)) (values alert)].
Definition dedupe_key (source : SourceRecord) : outcome string :=
  tagged_digest DEDUPE_KEY_TAG (to_json (DTuple (map dedupe_row (alerts source)))).
