(* ===== verification/JournalRecords.v ===== *)
(** * Journal records: types, shared checks, front-door validators (journal_records.py)

    A validator takes the [ids] and [data] of an envelope, which are any
    values, and the checked event id.  [_require_...] raises the code's
    [RecordError].  [Draft], [Position] and [Stamp] are typed, so the guards of
    [seal] on their fields are those of the envelope it builds. *)

From S2P Require Import Prelude PyValue PyJson Sha256 CanonJson PyBytes PyTime JsonParse JournalValue JournalSource.
Local Open Scope string_scope.
Local Open Scope Z_scope.
Local Open Scope list_scope.

(** ** Format constants *)
Definition SCHEMA_VERSION : Z := 1.
Definition MAX_RECORD_BYTES : Z := 16384.
Definition MAX_ID_BYTES : Z := 128.
Definition MAX_COMMIT_RECORDS : Z := 8.
Definition MAX_SEQ : Z := 2 ^ 53 - 1.
Definition MAX_GENERATION : Z := 2 ^ 31 - 1.
Definition ZERO_DIGEST : string := "0000000000000000000000000000000000000000000000000000000000000000".

Definition V1_BOUND_CEILINGS : list (string * Z) :=
  [("max_admissions", 10000); ("max_pending_fingerprints", 1024);
   ("ordinary_bytes", 112 * 2 ^ 20); ("total_bytes", 128 * 2 ^ 20)].

Definition ACTORS : list string := ["receiver"; "spawner"; "forwarder"; "operator"].
Definition DEDUPE_RULE : string := "latest-admitted-v1".
Definition DEDUPE_RESULTS : list string := ["admitted"; "suppressed"; "pending_reduced"].
Definition ADMISSION_DECISIONS : list string := ["admitted"; "held"].
Definition CAPACITY_CODES : list string := ["capacity_admissions"; "capacity_pending"; "capacity_bytes"].
Definition DISPATCH_HOLD_CODES : list string := CAPACITY_CODES ++ ["restart_recovery"].
Definition RECORD_TAG : string := "rj.record.v1".
Definition CONTENT_TAG : string := "rj.content.v1".

Definition REFUSAL_RULE : string := "first-per-membership-v1".
Definition MAX_REFUSAL_RECORDS : Z := 256.
Definition REFUSAL_RESOLVED_RESERVE : Z := 64.
Definition INGRESS_REFUSAL_CODES_V1 : list string := sorted
  ["ingress_too_large"; "ingress_json_invalid"; "ingress_shape"; "ingress_group_key";
   "ingress_truncated"; "ingress_fingerprint"; "ingress_status"; "ingress_values";
   "ingress_duplicate_fingerprint"; "ingress_json_unsupported"; "ingress_group_key_unsupported";
   "ingress_ref_id_unsupported"; "ingress_too_many_alerts"; "ingress_too_many_values";
   "ingress_record_too_large"; "ingress_divergence"].
Definition OPERATOR_ACTIONS : list string := ["resume"].
Definition RESUME_RULE : string := "resume-at-open-v1".
Definition RESUMABLE_HOLDS : list string := ["restart_recovery"].
Definition RUN_HOLD_REASONS_V2 : list string :=
  ["accounting_unavailable"; "restart_recovery"; "venue_unready"; "reference_revoked"; "operator_review";
   "required_effect_unknown"].

Definition _MEMBER_CODES : list string :=
  ["ingress_group_key_unsupported"; "ingress_ref_id_unsupported"; "ingress_too_many_alerts";
   "ingress_too_many_values"; "ingress_record_too_large"].
Definition _NO_GROUP_CODES : list string :=
  ["ingress_too_large"; "ingress_json_invalid"; "ingress_json_unsupported"; "ingress_group_key"].
Definition _MAX_REFUSAL_MEMBERS : Z := 32.
Definition _MAX_JSON_ARRAY_ITEMS : Z := 256.
Definition _MAX_REFUSAL_JSON_BYTES : Z := 4096.
Definition _MAX_INGRESS_BODY_BYTES : Z := 262144.
Definition _MAX_DISPATCH_HOLDS : Z := 8.
Definition _MAX_SUPERSEDED : Z := 32.
Definition _MAX_THAW_DEPTH : Z := 16.

Definition RecordError (code : string) : exn := Exn "RecordError" code.
Definition _fail_record {A} (code : string) : outcome A := Raise (RecordError code).
(** [if not ok: _fail_record(code)]. *)
Definition record_check (ok : bool) (code : string) : outcome unit := check_that ok (RecordError code).

(** ** Value types *)
Record Head := {
  hd_generation : Z;
  hd_commit_seq : Z;
  hd_event_seq : Z;
  hd_record_digest : string;
}.

Record Stamp := {
  boot_id : string;
  wall_time : string;
  mono_us : Z;
}.

Record WalFound := {
  wal_size : Z;
  wal_digest : string;
}.

Record Position := {
  journal_generation : Z;
  event_seq : Z;
  commit_seq : Z;
  commit_index : Z;
  commit_size : Z;
  prev_record_digest : string;
}.

Record Draft := {
  dr_event_id : string;
  dr_event_type : string;
  dr_actor : string;
  dr_ids : members;
  dr_data : members;
}.

(** [Record] in the code. *)
Record JournalRecord := {
  position : Position;
  stamp : Stamp;
  event_id : string;
  event_type : string;
  schema_version : Z;
  actor : string;
  ids : members;
  data : members;
  body : string;
  record_digest : string;
}.

#[export] Instance stamp_eq_dec : EqDecision Stamp.
Proof. solve_decision. Defined.

(** ** Shared checks *)
Definition _ID_PATTERN : string → bool := id_pattern MAX_ID_BYTES.

Definition validate_id (v : value) : outcome string :=
  match v with
  | DStr s => record_check (_ID_PATTERN s) "record_id";; Ret s
  | _ => _fail_record "record_id"
  end.

(** [_thaw]: a list is returned as it is, and so is any other value. *)
Fixpoint _thaw (v : value) (depth : Z) : outcome value :=
  match v with
  | DDict m =>
      record_check (depth <=? _MAX_THAW_DEPTH) "record_field";;
      vs ← seq_outcomes (map (λ kv, _thaw kv.2 (depth + 1)) m); Ret (DDict (zip m.*1 vs))
  | DTuple l =>
      record_check (depth <=? _MAX_THAW_DEPTH) "record_field";;
      vs ← seq_outcomes (map (λ v, _thaw v (depth + 1)) l); Ret (DTuple vs)
  | v => Ret v
  end.
Definition thaw (v : value) : outcome value := _thaw v 1.

Fixpoint _freeze (v : value) : value :=
  match v with
  | DDict m => DDict (map (λ kv, (kv.1, _freeze kv.2)) m)
  | DTuple l | DList l => DTuple (map _freeze l)
  | v => v
  end.
Definition freeze_dict (m : members) : members := map (λ kv, (kv.1, _freeze kv.2)) m.

(** [for x in xs: f(x)]. *)
Definition each {A} (f : A → outcome unit) (xs : list A) : outcome unit := fold_outcome (λ _ x, f x) tt xs.

Definition _require_bound_int (v : value) (lo hi : Z) (field_code : string) : outcome Z :=
  match v with
  | DInt z => record_check ((lo <=? z) && (z <=? hi)) field_code;; Ret z
  | _ => _fail_record "record_type"
  end.
Definition bound (v : value) (lo hi : Z) : outcome unit := _require_bound_int v lo hi "record_field";; Ret tt.

Definition _require_keys (v : value) (keys : list string) : outcome members :=
  match _exact_keys_ok v keys with Some m => Ret m | None => _fail_record "record_field" end.

Definition _require_hex64 (v : value) : outcome unit := record_check (_hex64_ok v) "record_field".

(** [_UUID_PATTERN]: lower-case hexadecimal in groups of 8, 4, 4, 4 and 12. *)
Fixpoint match_uuid (shape s : string) : bool :=
  match shape, s with
  | EmptyString, EmptyString => true
  | String c shape', String x s' =>
      (if bool_decide (c = "-"%char) then bool_decide (x = c) else char_in HEX_DIGITS x) && match_uuid shape' s'
  | _, _ => false
  end.
Definition _UUID_PATTERN : string → bool := match_uuid "00000000-0000-0000-0000-000000000000".
Definition _require_uuid (v : value) : outcome unit := record_check (str_ok _UUID_PATTERN v) "record_field".

Definition _require_literal (v : value) (literal code : string) : outcome unit :=
  record_check (str_ok (λ s, bool_decide (s = literal)) v) code.
Definition _require_enum (v : value) (choices : list string) : outcome unit :=
  record_check (_enum_ok v choices) "record_field".
Definition require_id (v : value) : outcome unit := validate_id v;; Ret tt.
(** [if not ok: _fail_record("record_field")]. *)
Definition field_check (ok : bool) : outcome unit := record_check ok "record_field".

(** ** Wall time *)
Definition days_in_month (year month : Z) : Z :=
  let leap := (year mod 4 =? 0) && (negb (year mod 100 =? 0) || (year mod 400 =? 0)) in
  if month =? 2 then (if leap then 29 else 28)
  else if (month =? 4) || (month =? 6) || (month =? 9) || (month =? 11) then 30 else 31.

(** [datetime(year, ...)] does not raise [ValueError]. *)
Definition datetime_ok (year month day hours minutes seconds : Z) : bool :=
  (1 <=? year) && (year <=? 9999) && (1 <=? month) && (month <=? 12) &&
  (1 <=? day) && (day <=? days_in_month year month) && (hours <=? 23) && (minutes <=? 59) && (seconds <=? 59).

Definition decimal_at (i n : nat) (s : string) : Z := decimal 0 (slice i (i + n) s).

Definition wall_time_ok (s : string) : bool :=
  bool_decide (after_shape "0000-00-00T00:00:00.000000Z" s = Some "") &&
  (2000 <=? decimal_at 0 4 s) &&
  datetime_ok (decimal_at 0 4 s) (decimal_at 5 2 s) (decimal_at 8 2 s)
    (decimal_at 11 2 s) (decimal_at 14 2 s) (decimal_at 17 2 s).
Definition _require_wall_time (v : value) : outcome unit := record_check (str_ok wall_time_ok v) "record_time".

Definition EPOCH_DAY : Z := 719162.
Definition format_wall_time (epoch_ns : Z) : outcome string :=
  record_check (0 <=? epoch_ns) "record_time";;
  let t := EPOCH_DAY * DAY + epoch_ns / 1000000000 * SECOND in
  (* [fromtimestamp] rejects a second after 9999-12-31T23:59:59. *)
  record_check (t <? 3652059 * DAY) "record_time";;
  record_check ((2000 <=? year_of t) && (year_of t <=? 9999)) "record_time";;
  Ret (date_isoformat t +:+ "T" +:+ zero_pad 2 (t mod DAY / HOUR) +:+ ":" +:+ zero_pad 2 (t mod HOUR / MINUTE) +:+ ":" +:+
       zero_pad 2 (t mod MINUTE / SECOND) +:+ "." +:+ zero_pad 6 (epoch_ns mod 1000000000 / 1000) +:+ "Z").

Example wall_time_ex : format_wall_time 1704067199123456789 = Ret "2023-12-31T23:59:59.123456Z".
Proof. vm_compute. reflexivity. Qed.

(** ** Keys *)
Definition _ADMISSION_IDS_KEYS : list string := ["admission_id"].
Definition _GENESIS_DATA_KEYS : list string := ["format"; "journal_uuid"; "bounds"].
Definition _BOUNDS_KEYS : list string := ["max_admissions"; "max_pending_fingerprints"; "ordinary_bytes"; "total_bytes"].
Definition _RESTART_DATA_KEYS : list string :=
  ["previous_boot_id"; "recovered"; "anchor_lag"; "wal_found"; "dispatch_hold"; "prior_leases"].
Definition _RECOVERED_KEYS : list string := ["commit_seq"; "event_seq"; "record_digest"].
Definition _WAL_FOUND_KEYS : list string := ["size"; "digest"].
Definition _CAPACITY_DATA_KEYS : list string :=
  ["code"; "limit"; "observed"; "requested"; "refused_source_digest"; "action"].
Definition _ADMISSION_DATA_KEYS : list string := ["arrival_seq"; "decision"; "dispatch_holds"; "source"; "source_digest"].
Definition _DEDUPE_DATA_KEYS : list string :=
  ["rule"; "result"; "source_group"; "dedupe_key"; "baseline_before"; "baseline_after"; "superseded"; "pending_count_after"].
Definition _BASELINE_KEYS : list string := ["admission_id"; "complete"; "dedupe_key"].
Definition _SUPERSEDED_ENTRY_KEYS : list string := ["admission_id"; "fingerprint"].
Definition _INGRESS_REFUSAL_DATA_KEYS : list string := ["rule"; "summary"; "refusal_key"; "refusal_seq"].
Definition _REFUSAL_SUMMARY_KEYS : list string :=
  ["alerts"; "body_bytes"; "body_digest"; "code"; "members"; "members_omitted"; "refused_group"; "resolved"; "source_group"].
Definition _OPERATOR_ACTION_DATA_KEYS : list string :=
  ["action"; "rule"; "hold"; "since_commit_seq"; "inspected"; "pending_digest"; "operator"; "reason"].
Definition _INSPECTED_KEYS : list string := ["commit_seq"; "event_seq"; "record_digest"].

(** ** Validators of version 1 *)
Definition _require_empty_ids (ids : value) : outcome unit := _require_keys ids [];; Ret tt.
Definition _require_admission_id (ids : value) : outcome string :=
  ids ← _require_keys ids _ADMISSION_IDS_KEYS; validate_id (get ids "admission_id").

Definition _validate_baseline (v : value) : outcome unit :=
  m ← _require_keys v _BASELINE_KEYS;
  require_id (get m "admission_id");;
  record_check (is_bool (get m "complete")) "record_type";;
  _require_hex64 (get m "dedupe_key").

Definition _validate_journal_genesis (ids data : value) (event_id : string) : outcome unit :=
  _require_empty_ids ids;;
  data ← _require_keys data _GENESIS_DATA_KEYS;
  _require_literal (get data "format") "rj.journal.v1" "record_unsupported";;
  _require_uuid (get data "journal_uuid");;
  bounds ← _require_keys (get data "bounds") _BOUNDS_KEYS;
  each (λ kv, bound (get bounds kv.1) 1 kv.2) V1_BOUND_CEILINGS;;
  field_check (int_of (get bounds "ordinary_bytes") <=? int_of (get bounds "total_bytes")).

Definition _validate_restart_recovery (ids data : value) (event_id : string) : outcome unit :=
  _require_empty_ids ids;;
  data ← _require_keys data _RESTART_DATA_KEYS;
  require_id (get data "previous_boot_id");;
  recovered ← _require_keys (get data "recovered") _RECOVERED_KEYS;
  bound (get recovered "commit_seq") 1 MAX_SEQ;;
  bound (get recovered "event_seq") 1 MAX_SEQ;;
  _require_hex64 (get recovered "record_digest");;
  bound (get data "anchor_lag") 0 1;;
  (if is_none (get data "wal_found") then Ret tt
   else
     wal_found ← _require_keys (get data "wal_found") _WAL_FOUND_KEYS;
     bound (get wal_found "size") 0 MAX_SEQ;;
     _require_hex64 (get wal_found "digest"));;
  _require_literal (get data "dispatch_hold") "restart_recovery" "record_field";;
  _require_literal (get data "prior_leases") "invalid" "record_field".

Definition _validate_capacity_hold (ids data : value) (event_id : string) : outcome unit :=
  _require_empty_ids ids;;
  data ← _require_keys data _CAPACITY_DATA_KEYS;
  _require_enum (get data "code") CAPACITY_CODES;;
  bound (get data "limit") 0 MAX_SEQ;;
  bound (get data "observed") 0 MAX_SEQ;;
  bound (get data "requested") 1 MAX_SEQ;;
  _require_hex64 (get data "refused_source_digest");;
  _require_literal (get data "action") "set" "record_field".

Definition _validate_admission (ids data : value) (event_id : string) : outcome unit :=
  admission_id ← _require_admission_id ids;
  field_check (bool_decide (admission_id = event_id));;
  data ← _require_keys data _ADMISSION_DATA_KEYS;
  bound (get data "arrival_seq") 1 MAX_SEQ;;
  _require_enum (get data "decision") ADMISSION_DECISIONS;;
  match get data "dispatch_holds" with
  | DTuple holds =>
      field_check (Z.of_nat (length holds) <=? _MAX_DISPATCH_HOLDS);;
      each (λ code, _require_enum code DISPATCH_HOLD_CODES) holds;;
      field_check (bool_decide (map text_of holds = sorted (remove_dups (map text_of holds))))
  | _ => _fail_record "record_field"
  end;;
  source_from_json (get data "source");;
  _require_hex64 (get data "source_digest").

(** The loop over [superseded]. *)
Fixpoint check_superseded (entries : list value) (previous : option string) : outcome unit :=
  match entries with
  | [] => Ret tt
  | e :: entries =>
      e ← _require_keys e _SUPERSEDED_ENTRY_KEYS;
      require_id (get e "admission_id");;
      field_check (str_ok _FINGERPRINT_PATTERN (get e "fingerprint"));;
      let fingerprint := text_of (get e "fingerprint") in
      field_check (match previous with Some p => negb (String.leb fingerprint p) | None => true end);;
      check_superseded entries (Some fingerprint)
  end.

Definition _validate_dedupe_decision (ids data : value) (event_id : string) : outcome unit :=
  _require_admission_id ids;;
  data ← _require_keys data _DEDUPE_DATA_KEYS;
  _require_literal (get data "rule") DEDUPE_RULE "record_unsupported";;
  _require_enum (get data "result") DEDUPE_RESULTS;;
  _require_hex64 (get data "source_group");;
  _require_hex64 (get data "dedupe_key");;
  (if is_none (get data "baseline_before") then Ret tt else _validate_baseline (get data "baseline_before"));;
  _validate_baseline (get data "baseline_after");;
  match get data "superseded" with
  | DTuple superseded =>
      field_check (Z.of_nat (length superseded) <=? _MAX_SUPERSEDED);; check_superseded superseded None
  | _ => _fail_record "record_field"
  end;;
  bound (get data "pending_count_after") 0 MAX_SEQ.

(** *** Refusal summaries *)
Definition _int_in (v : value) (low high : Z) : bool :=
  match v with DInt z => (low <=? z) && (z <=? high) | _ => false end.

Definition _refusal_groups_ok (summary : members) : bool :=
  let source_group := get summary "source_group" in
  let refused_group := get summary "refused_group" in
  let code := text_of (get summary "code") in
  let has v := if is_none v then 0 else 1 in
  let count := has source_group + has refused_group in
  if negb (forallb (λ v, is_none v || _hex64_ok v) [source_group; refused_group]) then false
  else if str_in code _NO_GROUP_CODES then count =? 0
  else if bool_decide (code = "ingress_group_key_unsupported") then is_none source_group && negb (is_none refused_group)
  else if str_in code _MEMBER_CODES || (bool_decide (code = "ingress_divergence") && negb (is_none (get summary "alerts")))
  then negb (is_none source_group) && is_none refused_group
  else if str_in code ["ingress_shape"; "ingress_divergence"] then count <=? 1
  else count =? 1.

(** A [(fingerprint, status)] pair of the right grammar. *)
Definition member_pair (v : value) : option (string * string) :=
  match v with
  | DTuple [DStr fingerprint; DStr status] =>
      if _FINGERPRINT_PATTERN fingerprint && str_in status ALERT_STATUSES then Some (fingerprint, status) else None
  | _ => None
  end.

(** [keys[index] < keys[index + 1]] for [(member[1] != "resolved", member[0])]. *)
Definition member_before (a b : string * string) : bool :=
  let late m := negb (bool_decide (m.2 = "resolved")) in
  match late a, late b with
  | false, true => true
  | true, false => false
  | _, _ => String.ltb a.1 b.1
  end.
Fixpoint members_ascending (ms : list (string * string)) : bool :=
  match ms with
  | a :: (b :: _) as rest => member_before a b && members_ascending rest
  | _ => true
  end.

Definition _refusal_members_ok (summary : members) : bool :=
  let code := text_of (get summary "code") in
  let omitted := int_of (get summary "members_omitted") in
  match get summary "alerts" with
  | DNone =>
      is_none (get summary "resolved") && bool_decide (get summary "members" = DTuple []) &&
      (omitted =? 0) && negb (str_in code _MEMBER_CODES)
  | DInt alerts_count =>
      let divergence := bool_decide (code = "ingress_divergence") in
      if negb (str_in code _MEMBER_CODES) && negb divergence then false
      else match get summary "resolved" with
      | DInt resolved =>
          if negb ((1 <=? alerts_count) && (alerts_count <=? _MAX_JSON_ARRAY_ITEMS) &&
                   (0 <=? resolved) && (resolved <=? alerts_count)) then false
          else if bool_decide (code = "ingress_too_many_alerts") && (alerts_count <=? MAX_ALERTS) then false
          else if str_in code ["ingress_too_many_values"; "ingress_record_too_large"; "ingress_divergence"] &&
                  (MAX_ALERTS <? alerts_count) then false
          else match get summary "members" with
          | DTuple members =>
              let len := Z.of_nat (length members) in
              if negb (len =? Z.min alerts_count _MAX_REFUSAL_MEMBERS) then false
              else if negb (omitted =? alerts_count - len) then false
              else match mapM member_pair members with
              | None => false
              | Some pairs =>
                  members_ascending pairs && bool_decide (NoDup pairs.*1) &&
                  (Z.of_nat (length (filter (λ m, m.2 = "resolved") pairs)) =? Z.min resolved len)
              end
          | _ => false
          end
      | _ => false
      end
  | _ => false
  end.

Definition _check_refusal_summary (v : value) : outcome unit :=
  summary ← _require_keys v _REFUSAL_SUMMARY_KEYS;
  field_check (_enum_ok (get summary "code") INGRESS_REFUSAL_CODES_V1);;
  field_check (match get summary "members_omitted" with DInt _ => true | _ => false end);;
  field_check
    (if bool_decide (get summary "code" = DStr "ingress_too_large")
     then _int_in (get summary "body_bytes") (_MAX_INGRESS_BODY_BYTES + 1) MAX_SEQ && is_none (get summary "body_digest")
     else _int_in (get summary "body_bytes") 0 _MAX_INGRESS_BODY_BYTES && _hex64_ok (get summary "body_digest"));;
  field_check (_refusal_groups_ok summary);;
  field_check (_refusal_members_ok summary);;
  match encode v with
  | Raise _ => _fail_record "record_field"
  | Ret encoded => field_check (str_len encoded <=? _MAX_REFUSAL_JSON_BYTES)
  end.

(** The tuple of pairs [refusal_summary_data] rebuilds. *)
Definition normalized_member (v : value) : outcome value :=
  match items v with
  | Some [a; b] => Ret (DTuple [a; b])
  | _ => _fail_record "record_field"
  end.
Definition refusal_summary_data (v : value) : outcome value :=
  summary ← _require_keys v _REFUSAL_SUMMARY_KEYS;
  match items (get summary "members") with
  | None => _fail_record "record_field"
  | Some members =>
      normalized_members ← seq_outcomes (map normalized_member members);
      let normalized := DDict (dict_set summary "members" (DTuple normalized_members)) in
      _check_refusal_summary normalized;;
      Ret normalized
  end.

(** [type(data) is not dict or "rule" not in data]. *)
Definition ruled (data : value) : outcome members :=
  match data with
  | DDict m => if str_in "rule" m.*1 then Ret m else _fail_record "record_field"
  | _ => _fail_record "record_field"
  end.

Definition _validate_ingress_refusal (ids data : value) (event_id : string) : outcome unit :=
  _require_empty_ids ids;;
  m ← ruled data;
  _require_literal (get m "rule") REFUSAL_RULE "record_unsupported";;
  data ← _require_keys data _INGRESS_REFUSAL_DATA_KEYS;
  _check_refusal_summary (get data "summary");;
  _require_hex64 (get data "refusal_key");;
  bound (get data "refusal_seq") 1 MAX_REFUSAL_RECORDS.

Definition _validate_operator_action (ids data : value) (event_id : string) : outcome unit :=
  _require_empty_ids ids;;
  m ← ruled data;
  _require_literal (get m "rule") RESUME_RULE "record_unsupported";;
  data ← _require_keys data _OPERATOR_ACTION_DATA_KEYS;
  _require_enum (get data "action") OPERATOR_ACTIONS;;
  _require_enum (get data "hold") RESUMABLE_HOLDS;;
  bound (get data "since_commit_seq") 2 MAX_SEQ;;
  inspected ← _require_keys (get data "inspected") _INSPECTED_KEYS;
  bound (get inspected "commit_seq") 1 MAX_SEQ;;
  bound (get inspected "event_seq") 1 MAX_SEQ;;
  _require_hex64 (get inspected "record_digest");;
  _require_hex64 (get data "pending_digest");;
  each (λ key, field_check (str_ok _ID_PATTERN (get data key))) ["operator"; "reason"].
