(* ===== verification/JournalClaims.v ===== *)
(** * Journal records: validators of the claim families (journal_records.py)

    The version 2 and 3 record types, one validator each: run holds, reservation
    and run intents, launch, spawn, release, effects, supervision, execution and
    reconciliation.  They check the form of a claim; whether it follows from the
    history is the reducer's business. *)

From S2P Require Import Prelude PyValue CanonJson PyBytes JsonParse JournalValue JournalSource JournalRecords.
Local Open Scope string_scope.
Local Open Scope Z_scope.
Local Open Scope list_scope.

(** ** Keys *)
Definition _RUN_HOLD_IDS_KEYS : list string := ["job_id"; "admission_id"].
Definition _RUN_HOLD_DATA_KEYS : list string :=
  ["rule"; "reason"; "based_on_commit_seq"; "pending_digest"; "member_count"; "member_digest"].
Definition _RESERVATION_INTENT_IDS_KEYS : list string :=
  ["job_id"; "admission_id"; "intent_id"; "attempt_id"; "reservation_id"; "run_id"; "lease_id"].
Definition _RESERVATION_INTENT_DATA_KEYS : list string := ["rule"; "based_on_commit_seq"; "intent_digest"].
Definition _RESERVATION_INTENT_V3_DATA_KEYS : list string :=
  ["rule"; "based_on_commit_seq"; "intent_digest"; "member_count"; "member_digest"].
Definition _RESERVATION_CONFIRMATION_IDS_KEYS : list string := ["intent_id"].
Definition _RESERVATION_CONFIRMATION_DATA_KEYS : list string :=
  ["rule"; "intent_digest"; "ledger_uuid"; "ledger_generation"; "ledger_event_id"; "sequence"; "event_digest"].
Definition _RUN_INTENT_IDS_KEYS : list string := _RESERVATION_INTENT_IDS_KEYS ++ ["journal_uuid"].
Definition _RUN_INTENT_DATA_KEYS : list string :=
  ["rule"; "based_on_commit_seq"; "based_on_record_digest"; "initial_intent_commit_seq"; "intent_digest";
   "confirmation_event_id"; "confirmation_commit_seq"; "ledger_uuid"; "ledger_generation"; "ledger_event_id"; "sequence";
   "event_digest"; "ledger_head"; "member_count"; "member_digest"; "services"; "work_deadline_seconds";
   "flush_deadline_seconds"; "hard_deadline_seconds"; "run_intent_digest"].
Definition _RUN_INTENT_LEDGER_HEAD_KEYS : list string := ["sequence"; "event_digest"].
Definition _RUN_INTENT_SERVICE_KEYS : list string := ["service"; "lease_claim_id"; "scope_digest"].
Definition _RUN_INTENT_MANDATORY_SERVICES : list string := ["anthropic"; "jira"; "grafana"; "kubernetes"].
Definition _RUN_INTENT_ALLOWED_SERVICES : list string := _RUN_INTENT_MANDATORY_SERVICES ++ ["confluence"].
Definition _LAUNCH_CLAIM_DATA_KEYS : list string :=
  ["rule"; "based_on_commit_seq"; "based_on_record_digest"; "run_intent_event_id"; "run_intent_digest";
   "run_intent_commit_seq"; "receiver_boot_id"; "forwarder_generation"; "barrier_token_digest"; "origin_us";
   "work_deadline_us"; "flush_deadline_us"; "hard_deadline_us"; "grants"; "launch_claim_digest"].
Definition _LAUNCH_CLAIM_GRANT_KEYS : list string :=
  ["service"; "lease_claim_id"; "scope_digest"; "grant_id"; "grant_expiry_us"].
Definition _SPAWN_ATTESTATION_DATA_KEYS : list string :=
  ["rule"; "based_on_commit_seq"; "based_on_record_digest"; "launch_claim_event_id"; "launch_claim_digest";
   "launch_claim_commit_seq"; "receiver_boot_id"; "observed_us"; "blocked_ack_digest"; "anchor_key_digest"; "witness_kind";
   "verifier_version"; "witness_locator"; "witness_identity_digest"; "registry_entry_digest"; "spawn_attestation_digest"].
Definition _RELEASE_INTENT_DATA_KEYS : list string :=
  ["rule"; "based_on_commit_seq"; "based_on_record_digest"; "spawn_attestation_event_id"; "spawn_attestation_digest";
   "spawn_attestation_commit_seq"; "receiver_boot_id"; "forwarder_generation"; "intended_release_us"; "activated_grants";
   "release_intent_digest"].
Definition _RELEASE_ACTIVATION_KEYS : list string := ["service"; "grant_id"; "activation_digest"; "activation_us"].
Definition _RELEASE_OBSERVATION_DATA_KEYS : list string :=
  ["rule"; "based_on_commit_seq"; "based_on_record_digest"; "release_intent_event_id"; "release_intent_digest";
   "release_intent_commit_seq"; "receiver_boot_id"; "observed_us"; "ack_digest"; "release_observation_digest"].
Definition _EFFECT_INTENT_IDS_KEYS : list string := ["journal_uuid"; "run_id"; "attempt_id"; "reservation_id"; "operation_id"].
Definition _EFFECT_INTENT_DATA_KEYS : list string :=
  ["rule"; "based_on_commit_seq"; "based_on_record_digest"; "release_observation_event_id"; "release_observation_digest";
   "release_observation_commit_seq"; "receiver_boot_id"; "forwarder_generation"; "service"; "route_id"; "grant_id";
   "scope_digest"; "flight_id"; "forwarder_receipt_id"; "request_digest"; "target_digest"; "observed_us"; "expires_us";
   "effect_intent_digest"].
Definition _EFFECT_RECEIPT_IDS_KEYS : list string := ["run_id"; "attempt_id"; "operation_id"].
Definition _EFFECT_RECEIPT_DATA_KEYS : list string :=
  ["rule"; "based_on_commit_seq"; "based_on_record_digest"; "effect_intent_event_id"; "effect_intent_digest";
   "effect_intent_commit_seq"; "receiver_boot_id"; "service"; "grant_id"; "flight_id"; "forwarder_receipt_id";
   "claimed_dispatch_state"; "claimed_reason"; "finalized_receipt_digest"; "observed_us"; "effect_receipt_digest"].
Definition _SUPERVISION_ACTION_IDS_KEYS : list string := ["journal_uuid"; "run_id"; "attempt_id"; "action_id"].
Definition _SUPERVISION_ACTION_RESULT_IDS_KEYS : list string := ["run_id"; "attempt_id"; "action_id"].
Definition _SUPERVISION_ACTION_INTENT_DATA_KEYS : list string :=
  ["rule"; "based_on_commit_seq"; "based_on_record_digest"; "launch_claim_event_id"; "launch_claim_digest";
   "receiver_boot_id"; "forwarder_generation"; "action_kind"; "phase"; "phase_event_id"; "phase_digest"; "service";
   "grant_id"; "attestation_event_id"; "attestation_digest"; "witness_locator"; "witness_identity_digest";
   "prior_revoke_action_ids"; "observed_us"; "action_intent_digest"].
Definition _SUPERVISION_ACTION_RESULT_DATA_KEYS : list string :=
  ["rule"; "based_on_commit_seq"; "based_on_record_digest"; "action_intent_event_id"; "action_intent_digest";
   "action_intent_commit_seq"; "receiver_boot_id"; "action_kind"; "claimed_outcome"; "observed_us"; "action_result_digest"].
Definition _EXECUTION_IDS_KEYS : list string := ["journal_uuid"; "run_id"; "attempt_id"].
Definition _OBSERVATION_BASE_KEYS : list string :=
  ["rule"; "based_on_commit_seq"; "based_on_record_digest"; "launch_claim_event_id"; "launch_claim_digest";
   "receiver_boot_id"; "observed_us"].
Definition _PROCESS_OBSERVATION_DATA_KEYS : list string := _OBSERVATION_BASE_KEYS ++
  ["spawn_state"; "exit_observed"; "exit_code"; "exit_signal"; "timed_out"; "cancelled"; "containment"; "source_digest";
   "process_observation_digest"].
Definition _TERMINAL_OBSERVATION_DATA_KEYS : list string := _OBSERVATION_BASE_KEYS ++
  ["process_event_id"; "process_digest"; "process_commit_seq"; "count_class"; "quality"; "invalidity_code"; "subtype";
   "is_error"; "reason_code"; "usage_state"; "source_digest"; "terminal_observation_digest"].
Definition _EXECUTION_ASSESSMENT_DATA_KEYS : list string := _OBSERVATION_BASE_KEYS ++
  ["process_event_id"; "process_digest"; "process_commit_seq"; "terminal_event_id"; "terminal_digest"; "terminal_commit_seq";
   "state"; "reasons"; "usage"; "never_started"; "execution_assessment_digest"].
Definition _RECONCILIATION_IDS_KEYS : list string := ["journal_uuid"; "run_id"; "attempt_id"; "operation_id"].
(** The keys the two reconciliation records share. *)
Definition reconciliation_base_keys : list string :=
  ["rule"; "based_on_commit_seq"; "based_on_record_digest"; "launch_claim_event_id"; "launch_claim_digest";
   "effect_intent_event_id"; "effect_intent_digest"; "effect_intent_commit_seq"; "receiver_boot_id"; "observed_us";
   "observation_index"; "source_kind"; "reported_state"; "source_evidence_digest"; "target_digest"; "version_digest"].
Definition _RECONCILIATION_DATA_KEYS : list string := reconciliation_base_keys ++ ["reconciliation_observation_digest"].
Definition _RESTART_RECONCILIATION_DATA_KEYS : list string := reconciliation_base_keys ++
  ["restart_commit_seq"; "restart_record_digest"; "recovered_commit_seq"; "recovered_event_seq"; "recovered_record_digest";
   "prior_effect_boot_id"; "restart_reconciliation_observation_digest"].

Definition RECONCILIATION_SOURCE_BY_ROUTE : dict string string :=
  [("jira.issue.create", "jira_issue_readback"); ("jira.issue.update", "jira_issue_readback");
   ("jira.transition", "jira_issue_readback"); ("jira.comment.add", "jira_comment_readback")].
Definition RECONCILIATION_REPORTED_STATES : list string := ["confirmed"; "absent"; "conflict"; "unavailable"].
Definition TERMINAL_REASON_CODES : list string :=
  ["reported_error"; "provider_unavailable"; "interrupted"; "runtime_error"; "unknown_error"].
Definition TERMINAL_INVALIDITY_CODES : list string := ["parse_invalid"; "shape_invalid"; "field_invalid"; "contradictory"].
Definition _EXECUTION_STATES : list string := ["succeeded"; "failed"; "cancelled"; "containment_failed"; "incomplete"].
Definition _EXECUTION_REASONS : list string :=
  ["containment_failed"; "containment_unknown"; "timeout"; "cancelled"; "spawn_failed"; "spawn_unknown"; "exit_missing";
   "signaled_exit"; "nonzero_exit"; "missing_terminal"; "duplicate_terminal"; "terminal_invalid"; "result_error";
   "usage_malformed"].
Definition EFFECT_CLAIM_REASONS : dict string (list string) :=
  [("NOT_DISPATCHED", ["request_rejected"; "lease_denied"; "route_denied"; "permit_denied"; "deadline"; "abandoned"]);
   ("FAILED", ["connect_failed"; "upstream_tls_failed"]);
   ("DISPATCHED_UNKNOWN", ["write_failed"; "receive_failed"; "malformed_response"; "abandoned"; "deadline"]);
   ("PARTIAL", ["response_incomplete"; "response_overflow"]);
   ("TRANSPORT_CONFIRMED", ["ok"; "response_policy_rejected"])].
Definition SUPERVISION_ACTION_OUTCOMES : dict string (list string) :=
  [("revoke_grant", ["acknowledged"; "failed"; "unknown"]);
   ("signal_interrupt", ["requested"; "failed"; "unknown"]);
   ("signal_kill", ["requested"; "failed"; "unknown"])].
Definition SUPERVISION_ACTION_PHASES : list string :=
  ["pre_attestation"; "blocked_pre_release"; "release_unknown"; "released_observed"].

(** ** Shared steps *)

(** [_f(data[key])] for each key. *)
Definition hex_fields (data : members) (keys : list string) : outcome unit := each (λ k, _require_hex64 (get data k)) keys.
Definition uuid_fields (data : members) (keys : list string) : outcome unit := each (λ k, _require_uuid (get data k)) keys.
Definition id_fields (data : members) (keys : list string) : outcome unit := each (λ k, require_id (get data k)) keys.
Definition seq_fields (data : members) (keys : list string) : outcome unit := each (λ k, bound (get data k) 1 MAX_SEQ) keys.

(** The ids of a claim: exactly [keys], all UUIDs, and a UUID event id. *)
Definition claim_ids (ids : value) (keys : list string) (event_id : string) : outcome members :=
  ids ← _require_keys ids keys;
  each _require_uuid ids.*2;;
  _require_uuid (DStr event_id);;
  Ret ids.

(** [len({*ids.values(), event_id, other}) != len(ids) + 2]. *)
Definition fresh_ids (ids : members) (event_id : string) (other : value) : bool :=
  distinct (ids.*2 ++ [DStr event_id; other]).

(** A [str] among the keys of a table, and a [str] among the values stored
    under another. *)
Definition key_of {A} (table : dict string A) (v : value) : bool := str_ok (λ s, some_b (dict_get table s)) v.
Definition listed_under (table : dict string (list string)) (key v : value) : bool :=
  str_ok (λ s, str_in s (default [] (dict_get table (text_of key)))) v.

(** The service, claim and grant lists: four or five items in a [list] or
    [tuple]. *)
Definition service_items (v : value) : outcome (list value) :=
  match items v with
  | Some l => field_check ((4 <=? Z.of_nat (length l)) && (Z.of_nat (length l) <=? 5));; Ret l
  | None => _fail_record "record_field"
  end.
Definition service_name (item : members) : outcome string :=
  field_check (_enum_ok (get item "service") _RUN_INTENT_ALLOWED_SERVICES);; Ret (text_of (get item "service")).

(** Sorted, distinct, and no mandatory service missing. *)
Definition names_ok (names : list string) : bool :=
  bool_decide (names = sorted names) && bool_decide (NoDup names) &&
  forallb (λ s, str_in s names) _RUN_INTENT_MANDATORY_SERVICES.

(** [[f(item) for item in xs]]. *)
Definition collect {A B} (f : A → outcome B) (xs : list A) : outcome (list B) := seq_outcomes (map f xs).

(** ** Holds and reservations *)
Definition _validate_run_hold_v2 (ids data : value) (event_id : string) : outcome unit :=
  ids ← _require_keys ids _RUN_HOLD_IDS_KEYS;
  require_id (get ids "job_id");;
  require_id (get ids "admission_id");;
  data ← _require_keys data _RUN_HOLD_DATA_KEYS;
  _require_literal (get data "rule") "run-hold-v2" "record_unsupported";;
  _require_enum (get data "reason") RUN_HOLD_REASONS_V2;;
  bound (get data "based_on_commit_seq") 1 MAX_SEQ;;
  _require_hex64 (get data "pending_digest");;
  bound (get data "member_count") 1 32;;
  _require_hex64 (get data "member_digest").

Definition _validate_reservation_intent_v2 (ids data : value) (event_id : string) : outcome unit :=
  ids ← _require_keys ids _RESERVATION_INTENT_IDS_KEYS;
  require_id (get ids "job_id");;
  uuid_fields ids ["admission_id"; "intent_id"; "attempt_id"; "reservation_id"; "run_id"; "lease_id"];;
  field_check (bool_decide (text_of (get ids "intent_id") = event_id) && distinct ids.*2);;
  data ← _require_keys data _RESERVATION_INTENT_DATA_KEYS;
  _require_literal (get data "rule") "reservation-intent-v2" "record_unsupported";;
  bound (get data "based_on_commit_seq") 1 MAX_SEQ;;
  _require_hex64 (get data "intent_digest").

Definition _validate_reservation_intent_v3 (ids data : value) (event_id : string) : outcome unit :=
  ids ← _require_keys ids _RESERVATION_INTENT_IDS_KEYS;
  uuid_fields ids _RESERVATION_INTENT_IDS_KEYS;;
  field_check (bool_decide (text_of (get ids "intent_id") = event_id) && distinct ids.*2);;
  data ← _require_keys data _RESERVATION_INTENT_V3_DATA_KEYS;
  _require_literal (get data "rule") "reservation-intent-v3" "record_unsupported";;
  bound (get data "based_on_commit_seq") 1 MAX_SEQ;;
  bound (get data "member_count") 1 32;;
  _require_hex64 (get data "member_digest");;
  _require_hex64 (get data "intent_digest").

(** The two confirmation validators differ in the rule they name. *)
Definition validate_confirmation (rule : string) (ids data : value) (event_id : string) : outcome unit :=
  ids ← _require_keys ids _RESERVATION_CONFIRMATION_IDS_KEYS;
  _require_uuid (get ids "intent_id");;
  _require_uuid (DStr event_id);;
  data ← _require_keys data _RESERVATION_CONFIRMATION_DATA_KEYS;
  _require_literal (get data "rule") rule "record_unsupported";;
  _require_hex64 (get data "intent_digest");;
  _require_uuid (get data "ledger_uuid");;
  bound (get data "ledger_generation") 1 MAX_GENERATION;;
  _require_uuid (get data "ledger_event_id");;
  bound (get data "sequence") 1 MAX_SEQ;;
  _require_hex64 (get data "event_digest");;
  field_check (distinct [get ids "intent_id"; DStr event_id; get data "ledger_uuid"; get data "ledger_event_id"]).
Definition _validate_reservation_confirmation_v2 (ids data : value) (event_id : string) : outcome unit :=
  validate_confirmation "reservation-confirmation-v2" ids data event_id.
Definition _validate_reservation_confirmation_v3 (ids data : value) (event_id : string) : outcome unit :=
  validate_confirmation "reservation-confirmation-v3" ids data event_id.

(** ** Run intent and launch *)
Definition run_intent_service (item : value) : outcome (string * string) :=
  item ← _require_keys item _RUN_INTENT_SERVICE_KEYS;
  name ← service_name item;
  _require_uuid (get item "lease_claim_id");;
  _require_hex64 (get item "scope_digest");;
  Ret (name, text_of (get item "lease_claim_id")).

Definition _validate_run_intent_v3 (ids data : value) (event_id : string) : outcome unit :=
  ids ← claim_ids ids _RUN_INTENT_IDS_KEYS event_id;
  data ← _require_keys data _RUN_INTENT_DATA_KEYS;
  _require_literal (get data "rule") "run-intent-v3" "record_unsupported";;
  seq_fields data ["based_on_commit_seq"; "initial_intent_commit_seq"; "confirmation_commit_seq"];;
  hex_fields data ["based_on_record_digest"; "intent_digest"; "event_digest"; "member_digest"; "run_intent_digest"];;
  uuid_fields data ["confirmation_event_id"; "ledger_uuid"; "ledger_event_id"];;
  bound (get data "ledger_generation") 1 MAX_GENERATION;;
  bound (get data "sequence") 1 MAX_SEQ;;
  bound (get data "member_count") 1 32;;
  ledger_head ← _require_keys (get data "ledger_head") _RUN_INTENT_LEDGER_HEAD_KEYS;
  bound (get ledger_head "sequence") 1 MAX_SEQ;;
  _require_hex64 (get ledger_head "event_digest");;
  let behind := int_of (get ledger_head "sequence") <? int_of (get data "sequence") in
  let same := int_of (get ledger_head "sequence") =? int_of (get data "sequence") in
  field_check (negb (behind || (same && negb (same_text (get ledger_head "event_digest") (get data "event_digest")))));;
  each (λ kv, bound (get data kv.1) kv.2 kv.2)
    [("work_deadline_seconds", 270); ("flush_deadline_seconds", 290); ("hard_deadline_seconds", 300)];;
  services ← service_items (get data "services");
  rows ← collect run_intent_service services;
  field_check (names_ok rows.*1);;
  field_check (bool_decide (head rows.*2 = Some (text_of (get ids "lease_id"))));;
  field_check (distinct (ids.*2 ++ DStr event_id :: get data "confirmation_event_id" :: get data "ledger_uuid" ::
                         get data "ledger_event_id" :: map DStr (drop 1 rows.*2))).

Definition launch_grant (origin : Z) (item : value) : outcome (string * string) :=
  item ← _require_keys item _LAUNCH_CLAIM_GRANT_KEYS;
  name ← service_name item;
  _require_uuid (get item "lease_claim_id");;
  _require_hex64 (get item "scope_digest");;
  grant_id ← validate_id (get item "grant_id");
  expiry ← _require_bound_int (get item "grant_expiry_us") 0 MAX_SEQ "record_field";
  field_check ((origin <? expiry) && (expiry <=? origin + 270000000));;
  Ret (name, grant_id).

Definition _validate_launch_claim_v3 (ids data : value) (event_id : string) : outcome unit :=
  ids ← claim_ids ids _RUN_INTENT_IDS_KEYS event_id;
  data ← _require_keys data _LAUNCH_CLAIM_DATA_KEYS;
  _require_literal (get data "rule") "launch-claim-v3" "record_unsupported";;
  seq_fields data ["based_on_commit_seq"; "run_intent_commit_seq"];;
  hex_fields data ["based_on_record_digest"; "run_intent_digest"; "barrier_token_digest"; "launch_claim_digest"];;
  _require_uuid (get data "run_intent_event_id");;
  require_id (get data "receiver_boot_id");;
  require_id (get data "forwarder_generation");;
  origin ← _require_bound_int (get data "origin_us") 0 (MAX_SEQ - 300000000) "record_field";
  each (λ kv, v ← _require_bound_int (get data kv.1) 0 MAX_SEQ "record_field"; field_check (v =? origin + kv.2))
    [("work_deadline_us", 270000000); ("flush_deadline_us", 290000000); ("hard_deadline_us", 300000000)];;
  grants ← service_items (get data "grants");
  rows ← collect (launch_grant origin) grants;
  field_check (names_ok rows.*1 && bool_decide (NoDup rows.*2));;
  field_check (fresh_ids ids event_id (get data "run_intent_event_id")).

(** ** Spawn and release *)
Definition _validate_spawn_attestation_v3 (ids data : value) (event_id : string) : outcome unit :=
  ids ← claim_ids ids _RUN_INTENT_IDS_KEYS event_id;
  data ← _require_keys data _SPAWN_ATTESTATION_DATA_KEYS;
  _require_literal (get data "rule") "spawn-attestation-v3" "record_unsupported";;
  seq_fields data ["based_on_commit_seq"; "launch_claim_commit_seq"];;
  hex_fields data ["based_on_record_digest"; "launch_claim_digest"; "blocked_ack_digest"; "anchor_key_digest";
                   "witness_identity_digest"; "registry_entry_digest"; "spawn_attestation_digest"];;
  _require_uuid (get data "launch_claim_event_id");;
  id_fields data ["receiver_boot_id"; "witness_kind"; "verifier_version"; "witness_locator"];;
  bound (get data "observed_us") 0 MAX_SEQ;;
  field_check (fresh_ids ids event_id (get data "launch_claim_event_id")).

Definition release_activation (item : value) : outcome (string * string) :=
  item ← _require_keys item _RELEASE_ACTIVATION_KEYS;
  name ← service_name item;
  grant_id ← validate_id (get item "grant_id");
  _require_hex64 (get item "activation_digest");;
  bound (get item "activation_us") 0 MAX_SEQ;;
  Ret (name, grant_id).

Definition _validate_release_intent_v3 (ids data : value) (event_id : string) : outcome unit :=
  ids ← claim_ids ids _RUN_INTENT_IDS_KEYS event_id;
  data ← _require_keys data _RELEASE_INTENT_DATA_KEYS;
  _require_literal (get data "rule") "release-intent-v3" "record_unsupported";;
  seq_fields data ["based_on_commit_seq"; "spawn_attestation_commit_seq"];;
  hex_fields data ["based_on_record_digest"; "spawn_attestation_digest"; "release_intent_digest"];;
  _require_uuid (get data "spawn_attestation_event_id");;
  require_id (get data "receiver_boot_id");;
  require_id (get data "forwarder_generation");;
  bound (get data "intended_release_us") 0 MAX_SEQ;;
  grants ← service_items (get data "activated_grants");
  rows ← collect release_activation grants;
  field_check (names_ok rows.*1 && bool_decide (NoDup rows.*2));;
  field_check (fresh_ids ids event_id (get data "spawn_attestation_event_id")).

Definition _validate_release_observation_v3 (ids data : value) (event_id : string) : outcome unit :=
  ids ← claim_ids ids _RUN_INTENT_IDS_KEYS event_id;
  data ← _require_keys data _RELEASE_OBSERVATION_DATA_KEYS;
  _require_literal (get data "rule") "release-observation-v3" "record_unsupported";;
  seq_fields data ["based_on_commit_seq"; "release_intent_commit_seq"];;
  hex_fields data ["based_on_record_digest"; "release_intent_digest"; "ack_digest"; "release_observation_digest"];;
  _require_uuid (get data "release_intent_event_id");;
  require_id (get data "receiver_boot_id");;
  bound (get data "observed_us") 0 MAX_SEQ;;
  field_check (fresh_ids ids event_id (get data "release_intent_event_id")).

(** ** Effects *)
Definition _validate_effect_intent_v3 (ids data : value) (event_id : string) : outcome unit :=
  ids ← claim_ids ids _EFFECT_INTENT_IDS_KEYS event_id;
  data ← _require_keys data _EFFECT_INTENT_DATA_KEYS;
  _require_literal (get data "rule") "effect-intent-v3" "record_unsupported";;
  seq_fields data ["based_on_commit_seq"; "release_observation_commit_seq"];;
  hex_fields data ["based_on_record_digest"; "release_observation_digest"; "scope_digest"; "request_digest"; "target_digest";
                   "effect_intent_digest"];;
  _require_uuid (get data "release_observation_event_id");;
  id_fields data ["receiver_boot_id"; "forwarder_generation"; "route_id"; "grant_id"; "flight_id"; "forwarder_receipt_id"];;
  field_check (_enum_ok (get data "service") _RUN_INTENT_ALLOWED_SERVICES);;
  observed ← _require_bound_int (get data "observed_us") 0 MAX_SEQ "record_field";
  expiry ← _require_bound_int (get data "expires_us") 0 MAX_SEQ "record_field";
  field_check ((observed <? expiry) && fresh_ids ids event_id (get data "release_observation_event_id")).

Definition _validate_effect_receipt_v3 (ids data : value) (event_id : string) : outcome unit :=
  ids ← claim_ids ids _EFFECT_RECEIPT_IDS_KEYS event_id;
  data ← _require_keys data _EFFECT_RECEIPT_DATA_KEYS;
  _require_literal (get data "rule") "effect-receipt-v3" "record_unsupported";;
  seq_fields data ["based_on_commit_seq"; "effect_intent_commit_seq"];;
  hex_fields data ["based_on_record_digest"; "effect_intent_digest"; "finalized_receipt_digest"; "effect_receipt_digest"];;
  _require_uuid (get data "effect_intent_event_id");;
  id_fields data ["receiver_boot_id"; "grant_id"; "flight_id"; "forwarder_receipt_id"];;
  field_check (_enum_ok (get data "service") _RUN_INTENT_ALLOWED_SERVICES);;
  field_check (key_of EFFECT_CLAIM_REASONS (get data "claimed_dispatch_state") &&
               listed_under EFFECT_CLAIM_REASONS (get data "claimed_dispatch_state") (get data "claimed_reason"));;
  bound (get data "observed_us") 0 MAX_SEQ;;
  field_check (fresh_ids ids event_id (get data "effect_intent_event_id")).

(** ** Supervision *)

(** [event_id in ids.values()]. *)
Definition among_ids (event_id : string) (ids : members) : bool := among event_id ids.*2.

Definition _validate_supervision_action_intent_v3 (ids data : value) (event_id : string) : outcome unit :=
  ids ← claim_ids ids _SUPERVISION_ACTION_IDS_KEYS event_id;
  field_check (negb (among_ids event_id ids));;
  data ← _require_keys data _SUPERVISION_ACTION_INTENT_DATA_KEYS;
  _require_literal (get data "rule") "supervision-action-intent-v3" "record_unsupported";;
  bound (get data "based_on_commit_seq") 1 MAX_SEQ;;
  hex_fields data ["based_on_record_digest"; "launch_claim_digest"; "phase_digest"; "action_intent_digest"];;
  uuid_fields data ["launch_claim_event_id"; "phase_event_id"];;
  id_fields data ["receiver_boot_id"; "forwarder_generation"];;
  bound (get data "observed_us") 0 MAX_SEQ;;
  field_check (key_of SUPERVISION_ACTION_OUTCOMES (get data "action_kind") &&
               _enum_ok (get data "phase") SUPERVISION_ACTION_PHASES);;
  let pre_attestation := bool_decide (text_of (get data "phase") = "pre_attestation") in
  match items (get data "prior_revoke_action_ids") with
  | None => _fail_record "record_field"
  | Some prior =>
      let count := Z.of_nat (length prior) in
      field_check (count <=? 5);;
      each _require_uuid prior;;
      field_check (distinct prior);;
      (if pre_attestation then
         field_check (forallb (λ k, is_none (get data k))
           ["attestation_event_id"; "attestation_digest"; "witness_locator"; "witness_identity_digest"])
       else
         _require_uuid (get data "attestation_event_id");;
         hex_fields data ["attestation_digest"; "witness_identity_digest"];;
         require_id (get data "witness_locator"));;
      if bool_decide (text_of (get data "action_kind") = "revoke_grant") then
        field_check (_enum_ok (get data "service") _RUN_INTENT_ALLOWED_SERVICES && (count =? 0));;
        require_id (get data "grant_id")
      else
        field_check (is_none (get data "service") && is_none (get data "grant_id") && negb pre_attestation &&
                     (4 <=? count) && (count <=? 5))
  end.

Definition _validate_supervision_action_result_v3 (ids data : value) (event_id : string) : outcome unit :=
  ids ← claim_ids ids _SUPERVISION_ACTION_RESULT_IDS_KEYS event_id;
  field_check (negb (among_ids event_id ids));;
  data ← _require_keys data _SUPERVISION_ACTION_RESULT_DATA_KEYS;
  _require_literal (get data "rule") "supervision-action-result-v3" "record_unsupported";;
  seq_fields data ["based_on_commit_seq"; "action_intent_commit_seq"];;
  hex_fields data ["based_on_record_digest"; "action_intent_digest"; "action_result_digest"];;
  _require_uuid (get data "action_intent_event_id");;
  require_id (get data "receiver_boot_id");;
  field_check (key_of SUPERVISION_ACTION_OUTCOMES (get data "action_kind") &&
               listed_under SUPERVISION_ACTION_OUTCOMES (get data "action_kind") (get data "claimed_outcome"));;
  bound (get data "observed_us") 0 MAX_SEQ.

(** ** Execution *)
Definition _validate_execution_base (ids data : value) (event_id : string) (keys : list string) (rule digest_key : string)
    : outcome members :=
  ids ← claim_ids ids _EXECUTION_IDS_KEYS event_id;
  field_check (negb (among_ids event_id ids));;
  data ← _require_keys data keys;
  _require_literal (get data "rule") rule "record_unsupported";;
  bound (get data "based_on_commit_seq") 1 MAX_SEQ;;
  hex_fields data ["based_on_record_digest"; "launch_claim_digest"; digest_key];;
  _require_uuid (get data "launch_claim_event_id");;
  require_id (get data "receiver_boot_id");;
  bound (get data "observed_us") 0 MAX_SEQ;;
  Ret data.

Definition _validate_process_observation_v3 (ids data : value) (event_id : string) : outcome unit :=
  data ← _validate_execution_base ids data event_id _PROCESS_OBSERVATION_DATA_KEYS
    "process-observation-v3" "process_observation_digest";
  _require_hex64 (get data "source_digest");;
  field_check (_enum_ok (get data "spawn_state") ["accepted"; "failed_before_process"; "unknown"] &&
               _enum_ok (get data "containment") ["confirmed"; "failed"; "unknown"] &&
               forallb (λ k, is_bool (get data k)) ["exit_observed"; "timed_out"; "cancelled"]);;
  let code := get data "exit_code" in
  let signal := get data "exit_signal" in
  let exited := bool_decide (get data "exit_observed" = DBool true) in
  field_check
    (if exited
     then (_int_in code (- 2 ^ 31) (2 ^ 31 - 1) && is_none signal) || (_int_in signal 1 64 && is_none code)
     else is_none code && is_none signal);;
  field_check (negb (bool_decide (text_of (get data "spawn_state") = "failed_before_process") &&
                     (exited || bool_decide (text_of (get data "containment") = "failed")))).

Definition _validate_terminal_observation_v3 (ids data : value) (event_id : string) : outcome unit :=
  data ← _validate_execution_base ids data event_id _TERMINAL_OBSERVATION_DATA_KEYS
    "terminal-observation-v3" "terminal_observation_digest";
  _require_uuid (get data "process_event_id");;
  _require_hex64 (get data "process_digest");;
  bound (get data "process_commit_seq") 1 MAX_SEQ;;
  let absent keys := forallb (λ k, is_none (get data k)) keys in
  let parsed := ["subtype"; "is_error"; "reason_code"; "usage_state"] in
  field_check (_enum_ok (get data "count_class") ["none"; "one"; "multiple"]);;
  let count := text_of (get data "count_class") in
  if bool_decide (count = "none") then field_check (absent (["quality"; "invalidity_code"; "source_digest"] ++ parsed))
  else
    _require_hex64 (get data "source_digest");;
    if bool_decide (count = "multiple") then field_check (absent (["quality"; "invalidity_code"] ++ parsed))
    else if bool_decide (get data "quality" = DStr "invalid") then
      field_check (_enum_ok (get data "invalidity_code") TERMINAL_INVALIDITY_CODES && absent parsed)
    else
      field_check (bool_decide (get data "quality" = DStr "recognized") && is_none (get data "invalidity_code"));;
      let subtype := text_of (get data "subtype") in
      let reason := get data "reason_code" in
      field_check (_enum_ok (get data "subtype") ["success"; "error"] &&
        bool_decide (get data "is_error" = DBool (bool_decide (subtype = "error"))) &&
        (is_none reason || _enum_ok reason TERMINAL_REASON_CODES) &&
        negb (bool_decide (subtype = "success") && negb (is_none reason)) &&
        _enum_ok (get data "usage_state") ["known"; "absent"; "malformed"]).

Definition _validate_execution_assessment_v3 (ids data : value) (event_id : string) : outcome unit :=
  data ← _validate_execution_base ids data event_id _EXECUTION_ASSESSMENT_DATA_KEYS
    "execution-assessment-v3" "execution_assessment_digest";
  each (λ prefix, _require_uuid (get data (prefix +:+ "_event_id"));; _require_hex64 (get data (prefix +:+ "_digest"));;
                  bound (get data (prefix +:+ "_commit_seq")) 1 MAX_SEQ) ["process"; "terminal"];;
  match items (get data "reasons") with
  | None => _fail_record "record_field"
  | Some reasons =>
      field_check (_enum_ok (get data "state") _EXECUTION_STATES && _enum_ok (get data "usage") ["known"; "unknown"] &&
                   is_bool (get data "never_started") && forallb (λ r, _enum_ok r _EXECUTION_REASONS) reasons);;
      field_check (bool_decide (map text_of reasons = sorted (remove_dups (map text_of reasons))))
  end.

(** ** Reconciliation *)
Definition _validate_reconciliation_common (ids data : value) (event_id : string) (keys : list string)
    (rule digest_key : string) : outcome members :=
  ids ← claim_ids ids _RECONCILIATION_IDS_KEYS event_id;
  field_check (negb (among_ids event_id ids));;
  data ← _require_keys data keys;
  _require_literal (get data "rule") rule "record_unsupported";;
  seq_fields data ["based_on_commit_seq"; "effect_intent_commit_seq"];;
  hex_fields data ["based_on_record_digest"; "launch_claim_digest"; "effect_intent_digest"; "source_evidence_digest";
                   "target_digest"; digest_key];;
  uuid_fields data ["launch_claim_event_id"; "effect_intent_event_id"];;
  require_id (get data "receiver_boot_id");;
  bound (get data "observed_us") 0 MAX_SEQ;;
  bound (get data "observation_index") 1 4;;
  field_check (_enum_ok (get data "source_kind") RECONCILIATION_SOURCE_BY_ROUTE.*2 &&
               _enum_ok (get data "reported_state") RECONCILIATION_REPORTED_STATES);;
  (if str_in (text_of (get data "reported_state")) ["confirmed"; "conflict"] then _require_hex64 (get data "version_digest")
   else field_check (is_none (get data "version_digest")));;
  Ret data.

Definition _validate_reconciliation_observation_v3 (ids data : value) (event_id : string) : outcome unit :=
  _validate_reconciliation_common ids data event_id _RECONCILIATION_DATA_KEYS
    "reconciliation-observation-v3" "reconciliation_observation_digest";;
  Ret tt.

Definition _validate_restart_reconciliation_observation_v3 (ids data : value) (event_id : string) : outcome unit :=
  data ← _validate_reconciliation_common ids data event_id _RESTART_RECONCILIATION_DATA_KEYS
    "restart-reconciliation-observation-v3" "restart_reconciliation_observation_digest";
  seq_fields data ["restart_commit_seq"; "recovered_commit_seq"; "recovered_event_seq"];;
  hex_fields data ["restart_record_digest"; "recovered_record_digest"];;
  require_id (get data "prior_effect_boot_id");;
  field_check (int_of (get data "recovered_commit_seq") <? int_of (get data "restart_commit_seq")).
