(* ===== verification/JournalSeal.v ===== *)
(** * Journal records: envelope, sealing and opening (journal_records.py)

    [seal] turns a draft at a position into a record with its canonical body and
    digest; [open_record] reads a body back.  SHA-256 and the strict JSON codec
    are the ones of [Sha256], [CanonJson] and [JsonParse]. *)

From S2P Require Import Prelude PyValue PyJson Sha256 CanonJson PyBytes JsonParse JournalValue JournalSource JournalRecords.
From S2P Require Import JournalClaims.
Local Open Scope string_scope.
Local Open Scope Z_scope.
Local Open Scope list_scope.

Definition validator : Type := value → value → string → outcome unit.

(** ** Registered types *)
Definition _TYPE_VALIDATORS : list (string * Z * validator) :=
  [("journal_genesis", 1, _validate_journal_genesis); ("restart_recovery", 1, _validate_restart_recovery);
   ("capacity_hold", 1, _validate_capacity_hold); ("admission", 1, _validate_admission);
   ("dedupe_decision", 1, _validate_dedupe_decision); ("ingress_refusal", 1, _validate_ingress_refusal);
   ("operator_action", 1, _validate_operator_action)].
Definition _V2_TYPE_VALIDATORS : list (string * Z * validator) :=
  [("run_hold", 2, _validate_run_hold_v2); ("reservation_intent", 2, _validate_reservation_intent_v2);
   ("reservation_confirmation", 2, _validate_reservation_confirmation_v2)].
Definition _V3_TYPE_VALIDATORS : list (string * Z * validator) :=
  [("reservation_intent", 3, _validate_reservation_intent_v3);
   ("reservation_confirmation", 3, _validate_reservation_confirmation_v3);
   ("run_intent", 3, _validate_run_intent_v3); ("launch_claim", 3, _validate_launch_claim_v3);
   ("spawn_attestation", 3, _validate_spawn_attestation_v3); ("release_intent", 3, _validate_release_intent_v3);
   ("release_observation", 3, _validate_release_observation_v3); ("effect_intent", 3, _validate_effect_intent_v3);
   ("effect_receipt", 3, _validate_effect_receipt_v3);
   ("supervision_action_intent", 3, _validate_supervision_action_intent_v3);
   ("supervision_action_result", 3, _validate_supervision_action_result_v3);
   ("process_observation", 3, _validate_process_observation_v3);
   ("terminal_observation", 3, _validate_terminal_observation_v3);
   ("execution_assessment", 3, _validate_execution_assessment_v3);
   ("reconciliation_observation", 3, _validate_reconciliation_observation_v3);
   ("restart_reconciliation_observation", 3, _validate_restart_reconciliation_observation_v3)].

(** [table.get((event_type, version))]. *)
Fixpoint lookup_type (table : list (string * Z * validator)) (event_type : string) (version : Z) : option validator :=
  match table with
  | [] => None
  | (t, v, f) :: table => if bool_decide (t = event_type) && (v =? version) then Some f else lookup_type table event_type version
  end.
Definition all_validators : list (string * Z * validator) := _TYPE_VALIDATORS ++ _V2_TYPE_VALIDATORS ++ _V3_TYPE_VALIDATORS.

(** [TYPE_ACTORS] and its successors: an operator acts in one type only. *)
Definition TYPE_ACTORS (event_type : string) : string :=
  if bool_decide (event_type = "operator_action") then "operator" else "receiver".

Definition SCHEMA_VERSIONS : list Z := [1].

(** The record types with a cap of their own; the others of versions 2 and 3
    share the cap of a run hold. *)
Definition private_caps : dict string Z :=
  [("run_intent", 4096); ("launch_claim", 6144); ("spawn_attestation", 4096); ("release_intent", 4096);
   ("release_observation", 2048); ("effect_intent", 4096); ("effect_receipt", 2048); ("supervision_action_intent", 4096);
   ("supervision_action_result", 2048); ("process_observation", 4096); ("terminal_observation", 4096);
   ("execution_assessment", 2048); ("reconciliation_observation", 2048); ("restart_reconciliation_observation", 3072)].
Definition MAX_RUN_HOLD_RECORD_BYTES : Z := 2048.
Definition private_cap (event_type : string) (version : Z) : Z :=
  if version =? 3 then default MAX_RUN_HOLD_RECORD_BYTES (dict_get private_caps event_type) else MAX_RUN_HOLD_RECORD_BYTES.
(** [schema_version in (2, 3) and len(body) > private_cap]. *)
Definition over_cap (event_type : string) (version : Z) (body : string) : bool :=
  ((version =? 2) || (version =? 3)) && (private_cap event_type version <? str_len body).

(** ** The envelope *)
Definition _ENVELOPE_KEYS : list string :=
  ["schema_version"; "journal_generation"; "event_id"; "event_seq"; "commit_seq"; "commit_index"; "commit_size"; "event_type";
   "actor"; "boot_id"; "wall_time"; "mono_us"; "ids"; "data"; "prev_record_digest"].

(** The validator of the envelope's type, [None] when it is not registered. *)
Definition registered (m : members) : option validator :=
  match get m "event_type", get m "schema_version" with
  | DStr t, DInt v => lookup_type all_validators t v
  | _, _ => None
  end.

Definition _validate_envelope (envelope : value) : outcome unit :=
  m ← _require_keys envelope _ENVELOPE_KEYS;
  match get m "schema_version" with
  | DInt schema_version =>
      record_check (bool_decide (schema_version ∈ SCHEMA_VERSIONS) || some_b (registered m)) "record_unsupported";;
      bound (get m "journal_generation") 1 MAX_GENERATION;;
      event_id ← validate_id (get m "event_id");
      event_seq ← _require_bound_int (get m "event_seq") 1 MAX_SEQ "record_field";
      bound (get m "commit_seq") 1 MAX_SEQ;;
      commit_size ← _require_bound_int (get m "commit_size") 1 MAX_COMMIT_RECORDS "record_field";
      match get m "commit_index" with
      | DInt commit_index => field_check ((0 <=? commit_index) && (commit_index <? commit_size))
      | _ => _fail_record "record_type"
      end;;
      match registered m with
      | None => _fail_record "record_unsupported"
      | Some validator =>
          field_check (str_ok (λ s, str_in s ACTORS && bool_decide (s = TYPE_ACTORS (text_of (get m "event_type")))) (get m "actor"));;
          require_id (get m "boot_id");;
          _require_wall_time (get m "wall_time");;
          bound (get m "mono_us") 0 MAX_SEQ;;
          _require_hex64 (get m "prev_record_digest");;
          field_check (bool_decide ((event_seq =? 1) = bool_decide (get m "prev_record_digest" = DStr ZERO_DIGEST)));;
          validator (get m "ids") (get m "data") event_id
      end
  | _ => _fail_record "record_type"
  end.

(** ** Sealing *)
Definition _record_digest (body : string) : string := sha256_hex (RECORD_TAG +:+ nul +:+ body).

(** The members of a value that was checked to be a dict. *)
Definition dict_of (v : value) : members := match v with DDict m => m | _ => [] end.

Definition envelope_of (draft : Draft) (position : Position) (stamp : Stamp) (schema_version : Z) (ids data : value) : members :=
  [("schema_version", DInt schema_version);
   ("journal_generation", DInt (journal_generation position));
   ("event_id", DStr (dr_event_id draft));
   ("event_seq", DInt (event_seq position));
   ("commit_seq", DInt (commit_seq position));
   ("commit_index", DInt (commit_index position));
   ("commit_size", DInt (commit_size position));
   ("event_type", DStr (dr_event_type draft));
   ("actor", DStr (dr_actor draft));
   ("boot_id", DStr (boot_id stamp));
   ("wall_time", DStr (wall_time stamp));
   ("mono_us", DInt (mono_us stamp));
   ("ids", ids);
   ("data", data);
   ("prev_record_digest", DStr (prev_record_digest position))].

Definition _build_record (m : members) (position : Position) (stamp : Stamp) (body digest : string) : JournalRecord :=
  {| position := position; stamp := stamp; event_id := text_of (get m "event_id"); event_type := text_of (get m "event_type");
     schema_version := int_of (get m "schema_version"); actor := text_of (get m "actor");
     ids := dict_of (_freeze (get m "ids")); data := dict_of (_freeze (get m "data"));
     body := body; record_digest := digest |}.

Definition encode_record (envelope : value) : outcome string :=
  match encode envelope with Ret body => Ret body | Raise _ => _fail_record "record_field" end.

Definition seal (draft : Draft) (position : Position) (stamp : Stamp) (schema_version : Z) : outcome JournalRecord :=
  ids ← thaw (DDict (dr_ids draft));
  data ← thaw (DDict (dr_data draft));
  let m := envelope_of draft position stamp schema_version ids data in
  _validate_envelope (DDict m);;
  body ← encode_record (DDict m);
  record_check (str_len body <=? MAX_RECORD_BYTES) "record_too_large";;
  record_check (negb (over_cap (dr_event_type draft) schema_version body)) "record_too_large";;
  Ret (_build_record m position stamp body (_record_digest body)).

(** ** Opening *)
Definition verify_body (body record_digest : string) : outcome value :=
  record_check (bool_decide (_record_digest body = record_digest)) "record_digest";;
  match parse_json (Some body) (VInt MAX_RECORD_BYTES) "integer" (Some true) (VInt MAX_JSON_STRING_BYTES) with
  | Ret parsed => Ret (of_parsed parsed)
  | Raise e => _fail_record (if bool_decide (exn_code e = "json_too_large") then "record_too_large" else "record_json")
  end.

Definition decode_record (envelope : value) (body record_digest : string) : outcome JournalRecord :=
  match envelope with
  | DDict m =>
      canonical_body ← encode_record envelope;
      record_check (bool_decide (canonical_body = body)) "record_not_canonical";;
      _validate_envelope envelope;;
      record_check (negb (over_cap (text_of (get m "event_type")) (int_of (get m "schema_version")) body)) "record_too_large";;
      let position := {| journal_generation := int_of (get m "journal_generation"); event_seq := int_of (get m "event_seq");
        commit_seq := int_of (get m "commit_seq"); commit_index := int_of (get m "commit_index");
        commit_size := int_of (get m "commit_size"); prev_record_digest := text_of (get m "prev_record_digest") |} in
      let stamp := {| boot_id := text_of (get m "boot_id"); wall_time := text_of (get m "wall_time");
        mono_us := int_of (get m "mono_us") |} in
      Ret (_build_record m position stamp body record_digest)
  | _ => _fail_record "record_field"
  end.

Definition open_record (body : string) : outcome JournalRecord :=
  let digest := _record_digest body in
  envelope ← verify_body body digest; decode_record envelope body digest.

Definition content_digest (record : JournalRecord) : outcome string :=
  ids ← thaw (DDict (ids record));
  data ← thaw (DDict (data record));
  tagged_digest CONTENT_TAG (to_json (DDict
    [("schema_version", DInt (schema_version record)); ("journal_generation", DInt (journal_generation (position record)));
     ("event_id", DStr (event_id record)); ("event_type", DStr (event_type record)); ("actor", DStr (actor record));
     ("ids", ids); ("data", data)])).
