(* ===== verification/JournalStored.v ===== *)
(** * Reading journal values back

    [stored v] is what the strict parser makes of the canonical encoding of
    [v].  This file shows so, and that the checks a validator is made of do not
    see the difference.  [o ⊑ o'] says that what [o] returns, [o'] returns too;
    [JournalAccepts] carries it through the validators. *)

From Stdlib Require Import Permutation Sorting.Sorted.
From S2P Require Import Prelude PyValue PyJson Sha256 CanonJson PyBytes JsonParse JsonParseThm JsonRoundtrip JournalValue.
From S2P Require Import JournalSource JournalRecords JournalClaims JournalSeal.
Local Open Scope string_scope.
Local Open Scope Z_scope.
Local Open Scope list_scope.

(** ** Sorting is idempotent *)
Definition key_le {A} (a b : string * A) : Prop := String.leb a.1 b.1 = true.

Lemma leb_flip a b : String.leb a b = false → String.leb b a = true.
Proof. intros H. destruct (String.leb_total a b) as [X|X]; [congruence|done]. Qed.

Lemma insert_key_sorted {A} (kv : string * A) m : Sorted key_le m → Sorted key_le (insert_key kv m).
Proof.
  unfold key_le. induction 1 as [|kv' m Hs IH Hh]; cbn; [by repeat constructor|].
  destruct (String.leb kv.1 kv'.1) eqn:E; [by repeat constructor|]. apply leb_flip in E.
  constructor; [done|]. clear -E Hh. destruct m as [|kv2 m]; cbn; [by constructor|].
  inversion Hh; subst. destruct (String.leb kv.1 kv2.1); by constructor.
Qed.

Lemma sort_keys_sorted {A} (m : list (string * A)) : Sorted key_le (sort_keys m).
Proof. induction m as [|kv m IH]; [constructor|]. by apply insert_key_sorted. Qed.

Lemma sort_keys_idem {A} (m : list (string * A)) : sort_keys (sort_keys m) = sort_keys m.
Proof.
  generalize (sort_keys_sorted m). generalize (sort_keys m). clear m. unfold sort_keys.
  induction 1 as [|kv m Hs IH Hh]; [done|]. cbn [foldr]. rewrite IH.
  destruct Hh as [|kv' m Hle]; [done|]. cbn. by unfold key_le in Hle; rewrite Hle.
Qed.

(** ** Dicts *)
Definition sort_members (m : members) : members := sort_keys (map (λ kv, (kv.1, stored kv.2)) m).

Lemma stored_dict m : stored (DDict m) = DDict (sort_members m).
Proof. done. Qed.

(** The keys of every dict in the value are distinct. *)
Fixpoint value_ok (v : value) : Prop :=
  match v with
  | DTuple l | DList l => foldr (λ v acc, value_ok v ∧ acc) True l
  | DDict m => NoDup m.*1 ∧ foldr (λ kv acc, value_ok kv.2 ∧ acc) True m
  | _ => True
  end.
Definition members_ok (m : members) : Prop := value_ok (DDict m).

Lemma members_ok_spec m : members_ok m ↔ NoDup m.*1 ∧ Forall (λ kv, value_ok kv.2) m.
Proof. unfold members_ok. cbn. by rewrite foldr_and_Forall. Qed.

Lemma dict_get_perm (m m' : members) k : m ≡ₚ m' → NoDup m.*1 → dict_get m k = dict_get m' k.
Proof.
  intros Hp Hnd. assert (dict_ok m') as Hnd' by (unfold dict_ok, dict_keys; by rewrite <-Hp).
  destruct (dict_get m k) as [v|] eqn:E.
  - symmetry. apply elem_dict_get; [done|]. rewrite <-Hp. by apply dict_get_elem.
  - destruct (dict_get m' k) as [v|] eqn:E'; [|done]. apply dict_get_elem in E'. rewrite <-Hp in E'.
    by rewrite (elem_dict_get m k v) in E.
Qed.

Lemma map_keys {A B} (f : A → B) (m : list (string * A)) : (map (λ kv, (kv.1, f kv.2)) m).*1 = m.*1.
Proof. induction m as [|kv m IH]; cbn; [done|]. by rewrite IH. Qed.

Lemma members_get_map (f : value → value) (m : members) k : dict_get (map (λ kv, (kv.1, f kv.2)) m) k = f <$> dict_get m k.
Proof. induction m as [|[k' v] m IH]; cbn; [done|]. by case_decide. Qed.

Lemma stored_members_perm m : sort_members m ≡ₚ map (λ kv, (kv.1, stored kv.2)) m.
Proof. apply sort_keys_perm. Qed.

Lemma sort_members_keys m : (sort_members m).*1 ≡ₚ m.*1.
Proof. by rewrite stored_members_perm, map_keys. Qed.

Lemma get_stored m k : members_ok m → get (sort_members m) k = stored (get m k).
Proof.
  intros [Hnd _]%members_ok_spec. unfold get.
  rewrite (dict_get_perm (sort_members m) (map (λ kv, (kv.1, stored kv.2)) m)).
  - rewrite members_get_map. by destruct (dict_get m k).
  - apply stored_members_perm.
  - by rewrite sort_members_keys.
Qed.

Lemma get_ok m k : members_ok m → value_ok (get m k).
Proof.
  intros [_ H]%members_ok_spec. unfold get. destruct (dict_get m k) as [v|] eqn:E; [|done].
  apply dict_get_elem in E. rewrite Forall_forall in H. by apply (H _ E).
Qed.

Lemma forallb_perm {A} (f : A → bool) xs ys : xs ≡ₚ ys → forallb f xs = forallb f ys.
Proof. induction 1; cbn; [done|by f_equal| |congruence]. by rewrite !andb_assoc, (andb_comm (f x)). Qed.

Lemma str_in_perm x xs ys : xs ≡ₚ ys → str_in x xs = str_in x ys.
Proof. intros H. unfold str_in. apply bool_decide_ext. by rewrite H. Qed.

Lemma forallb_ext {A} (f g : A → bool) xs : (∀ x, f x = g x) → forallb f xs = forallb g xs.
Proof. intros H. induction xs; cbn; by rewrite ?H, ?IHxs. Qed.

Lemma same_keys_stored m keys : same_keys (sort_members m) keys = same_keys m keys.
Proof.
  unfold same_keys. rewrite (forallb_perm _ _ _ (sort_members_keys m)). f_equal.
  apply forallb_ext. intros k. apply str_in_perm, sort_members_keys.
Qed.

(** ** Leaves

    A check of a value that is not a container does not see the difference. *)
Lemma str_ok_stored p v : str_ok p (stored v) = str_ok p v.
Proof. by destruct v. Qed.
Lemma is_none_stored v : JournalValue.is_none (stored v) = JournalValue.is_none v.
Proof. by destruct v. Qed.
Lemma is_bool_stored v : JournalValue.is_bool (stored v) = JournalValue.is_bool v.
Proof. by destruct v. Qed.
Lemma text_of_stored v : text_of (stored v) = text_of v.
Proof. by destruct v. Qed.
Lemma int_of_stored v : int_of (stored v) = int_of v.
Proof. by destruct v. Qed.
Lemma hex64_stored v : _hex64_ok (stored v) = _hex64_ok v.
Proof. by destruct v. Qed.
Lemma enum_ok_stored v cs : _enum_ok (stored v) cs = _enum_ok v cs.
Proof. by destruct v. Qed.
Lemma int_in_stored v lo hi : _int_in (stored v) lo hi = _int_in v lo hi.
Proof. by destruct v. Qed.
Lemma bound_int_stored v lo hi c : _require_bound_int (stored v) lo hi c = _require_bound_int v lo hi c.
Proof. by destruct v. Qed.
Lemma bound_stored v lo hi : bound (stored v) lo hi = bound v lo hi.
Proof. by destruct v. Qed.
Lemma require_hex_stored v : _require_hex64 (stored v) = _require_hex64 v.
Proof. by destruct v. Qed.
Lemma require_uuid_stored v : _require_uuid (stored v) = _require_uuid v.
Proof. by destruct v. Qed.
Lemma literal_stored v l c : _require_literal (stored v) l c = _require_literal v l c.
Proof. by destruct v. Qed.
Lemma require_enum_stored v cs : _require_enum (stored v) cs = _require_enum v cs.
Proof. by destruct v. Qed.
Lemma validate_id_stored v : validate_id (stored v) = validate_id v.
Proof. by destruct v. Qed.
Lemma require_id_stored v : require_id (stored v) = require_id v.
Proof. by destruct v. Qed.
Lemma wall_time_stored v : _require_wall_time (stored v) = _require_wall_time v.
Proof. by destruct v. Qed.
Lemma is_text_stored v s : bool_decide (stored v = DStr s) = bool_decide (v = DStr s).
Proof. apply bool_decide_ext. destruct v; cbn; naive_solver. Qed.
Lemma is_flag_stored v b : bool_decide (stored v = DBool b) = bool_decide (v = DBool b).
Proof. apply bool_decide_ext. destruct v; cbn; naive_solver. Qed.
Lemma key_of_stored {A} (t : dict string A) v : JournalClaims.key_of t (stored v) = JournalClaims.key_of t v.
Proof. by destruct v. Qed.
Lemma listed_under_stored t k v : listed_under t (stored k) (stored v) = listed_under t k v.
Proof. unfold listed_under. by rewrite str_ok_stored, text_of_stored. Qed.
Lemma same_text_stored v w : same_text (stored v) (stored w) = same_text v w.
Proof. unfold same_text. by rewrite !text_of_stored. Qed.

Create HintDb stored.
#[export] Hint Rewrite str_ok_stored is_none_stored is_bool_stored text_of_stored int_of_stored hex64_stored enum_ok_stored
  int_in_stored bound_int_stored bound_stored require_hex_stored require_uuid_stored literal_stored require_enum_stored
  validate_id_stored require_id_stored wall_time_stored is_text_stored is_flag_stored @key_of_stored listed_under_stored
  same_text_stored : stored.

(** ** Outcomes that return at least as much *)
Definition returns_too {A} (o o' : outcome A) : Prop := ∀ a, o = Ret a → o' = Ret a.
Infix "⊑" := returns_too (at level 70, no associativity).

#[export] Instance returns_too_preorder {A} : PreOrder (@returns_too A).
Proof. split; [by intros o a|]. intros o1 o2 o3 H1 H2 a Ha. auto. Qed.

Lemma bind_mono {A B} (o o' : outcome A) (k k' : A → outcome B) :
  o ⊑ o' → (∀ a, o = Ret a → k a ⊑ k' a) → (o ≫= k) ⊑ (o' ≫= k').
Proof. intros Ho Hk b H. apply outcome_bind_ret_inv in H as (a & Ha & Hb). rewrite (Ho a Ha). by apply Hk. Qed.

Lemma raise_mono {A} e (o : outcome A) : Raise e ⊑ o.
Proof. by intros a. Qed.

Lemma check_mono (b b' : bool) e : (b = true → b' = true) → check_that b e ⊑ check_that b' e.
Proof. intros H a. destruct b; [by rewrite H|done]. Qed.

Lemma each_mono {A} (f f' : A → outcome unit) xs : (∀ x, f x ⊑ f' x) → each f xs ⊑ each f' xs.
Proof.
  intros Hf. unfold each. generalize tt. induction xs as [|x xs IH]; intros u; cbn; [done|].
  intros a H. destruct (f x) as [v|] eqn:E; [|done]. rewrite (Hf x v E). by apply IH.
Qed.

Lemma each_ret {A} (f : A → outcome unit) xs : each f xs = Ret tt ↔ Forall (λ x, f x = Ret tt) xs.
Proof.
  unfold each. generalize tt at 1. induction xs as [|x xs IH]; intros []; cbn; [by split|].
  rewrite Forall_cons, <-(IH tt). destruct (f x) as [[]|]; naive_solver.
Qed.

Lemma each_values (f : value → outcome unit) m : (∀ v, f (stored v) = f v) → each f m.*2 ⊑ each f (sort_members m).*2.
Proof.
  intros Hf [] H. rewrite each_ret in *. rewrite stored_members_perm. clear -Hf H.
  induction m as [|kv m IH]; cbn in *; [done|]. apply Forall_cons in H as [? ?]. constructor; [by rewrite Hf|auto].
Qed.

(** A dict with the required keys, and the rest of the validator. *)
Lemma keys_mono {B} v keys (k k' : members → outcome B) :
  value_ok v → (∀ m, members_ok m → k m ⊑ k' (sort_members m)) →
  (m ← _require_keys v keys; k m) ⊑ (m ← _require_keys (stored v) keys; k' m).
Proof.
  intros Hv Hk. unfold _require_keys, _exact_keys_ok. destruct v as [| | | | | |m|]; try apply raise_mono.
  rewrite stored_dict, same_keys_stored. destruct (same_keys m keys); [|apply raise_mono]. exact (Hk m Hv).
Qed.

(** ** Encoding *)
Lemma seq_outcomes_spec {A B} (f : A → outcome B) xs ys :
  seq_outcomes (map f xs) = Ret ys ↔ Forall2 (λ x y, f x = Ret y) xs ys.
Proof.
  split; [apply seq_outcomes_ret|]. induction 1 as [|x y xs ys Hx _ IH]; cbn; [done|].
  rewrite Hx. cbn. by rewrite IH.
Qed.

Lemma collect_mono {A B C} (f : A → outcome C) (g : B → outcome C) (h : A → B) xs :
  Forall (λ x, f x ⊑ g (h x)) xs → seq_outcomes (map f xs) ⊑ seq_outcomes (map g (map h xs)).
Proof.
  intros H zs Hz. rewrite seq_outcomes_spec in Hz. rewrite seq_outcomes_spec. revert zs Hz.
  induction H as [|x xs Hx _ IH]; intros zs Hz; inversion Hz; subst; cbn; [constructor|]. constructor; auto.
Qed.

Definition json_members (m : members) : list (jvalue * jvalue) := map (λ kv, (JVStr kv.1, to_json kv.2)) m.
Definition key_ok (k : string) : Prop := _check_string k true "json_string_too_long" MAX_JSON_STRING_BYTES = Ret tt.

Lemma check_keys_spec m ks : check_keys (json_members m) true = Ret ks ↔ ks = m.*1 ∧ Forall key_ok m.*1.
Proof.
  revert ks. induction m as [|[k v] m IH]; intros ks; cbn; [naive_solver|].
  rewrite Forall_cons. unfold key_ok at 1. destruct (_check_string _ _ _ _) as [[]|]; cbn; [|naive_solver].
  destruct (check_keys _ _) as [ks'|] eqn:E; cbn.
  - destruct (proj1 (IH ks') eq_refl) as [-> ?]. naive_solver.
  - split; [done|]. intros (_ & _ & H). by pose proof (proj2 (IH m.*1) (conj eq_refl H)).
Qed.

Lemma zip_keys {A B} (f : A → B) (m : list (string * A)) : zip m.*1 (map (λ kv, f kv.2) m) = map (λ kv, (kv.1, f kv.2)) m.
Proof. induction m as [|kv m IH]; cbn; [done|]. by rewrite IH. Qed.

Definition member_part (d : Z) (kv : string * value) : outcome string :=
  body ← _canonicalize (to_json kv.2) d true; Ret (_encode_string kv.1 +:+ ":" +:+ body).

(** The encoder on a dict, in terms of its sorted members. *)
Lemma canonicalize_dict m d : _canonicalize (to_json (DDict m)) d true =
  (check_that (d <=? MAX_JSON_DEPTH) (JSONPolicyError "json_depth");;
   check_keys (json_members m) true;;
   parts ← seq_outcomes (map (member_part (d + 1)) (sort_keys m)); Ret ("{" +:+ join "," parts +:+ "}")).
Proof.
  cbn [to_json _canonicalize]. fold (json_members m). destruct (check_that _ _) as [[]|]; [|done].
  cbn [mbind outcome_bind]. destruct (check_keys _ _) as [ks|] eqn:E; [|done]. apply check_keys_spec in E as [-> _].
  cbn [mbind outcome_bind]. unfold json_members. rewrite map_map. cbn [snd].
  set (f v := _canonicalize (to_json v) (d + 1) true). by rewrite (zip_keys f), (sort_keys_map f), map_map.
Qed.

Lemma canonicalize_stored v : ∀ d, _canonicalize (to_json v) d true ⊑ _canonicalize (to_json (stored v)) d true.
Proof.
  induction v as [| | | |l IH|l IH|m IH|] using value_nested_ind; intros d; try done.
  1, 2: cbn [to_json stored _canonicalize]; rewrite !length_map; repeat (apply bind_mono; [|intros ? _]); try done;
    rewrite (map_map to_json), (map_map to_json); apply (collect_mono (λ v, _canonicalize (to_json v) (d + 1) true)
      (λ v, _canonicalize (to_json v) (d + 1) true)); rewrite Forall_forall in *; intros v Hv; by apply IH.
  rewrite stored_dict, !canonicalize_dict. apply bind_mono; [done|intros _ _]. intros b H. inv_do.
  match goal with X : check_keys _ _ = Ret _ |- _ => apply check_keys_spec in X as [_ Hkeys] end.
  assert (Forall key_ok (sort_members m).*1) as Hkeys' by by rewrite sort_members_keys.
  rewrite (proj2 (check_keys_spec (sort_members m) _) (conj eq_refl Hkeys')).
  cbn [mbind outcome_bind]. unfold sort_members. rewrite sort_keys_idem, sort_keys_map.
  match goal with X : seq_outcomes _ = Ret _ |- _ => eapply (collect_mono _ (member_part (d + 1)) (λ kv, (kv.1, stored kv.2))) in X as -> end.
  - done.
  - rewrite sort_keys_perm. rewrite Forall_forall in *. intros kv Hkv. apply bind_mono; [by apply IH|done].
Qed.

Lemma encode_stored v : encode v ⊑ encode (stored v).
Proof. apply canonicalize_stored. Qed.

(** ** Parsing *)
Lemma chars_codes s : chars (codes s) = s.
Proof.
  unfold chars, codes. induction s as [|c s IH]; cbn; [done|]. f_equal; [|exact IH].
  unfold ord. by rewrite Nat2Z.id, ascii_nat_embedding.
Qed.

Lemma value_ok_distinct v : value_ok v → distinct_keys (to_json v).
Proof.
  induction v as [| | | |l IH|l IH|m IH|] using value_nested_ind; try done;
    cbn [value_ok to_json distinct_keys]; rewrite !foldr_and_Forall, ?Forall_map.
  1, 2: intros H; rewrite !Forall_forall in *; auto.
  intros [Hnd H]. split.
  - replace (map (λ kv, (JVStr kv.1, to_json kv.2)) m).*1 with (JVStr <$> m.*1); [apply NoDup_fmap_2; [by intros ?? [=]|done]|].
    clear. induction m as [|kv m IH]; cbn; [done|]. by rewrite <-IH.
  - rewrite !Forall_forall in *. cbn. auto.
Qed.

Lemma Forall2_left {A B} (R : A → B → Prop) (P Q : A → Prop) xs ys :
  Forall2 R xs ys → Forall Q xs → (∀ x y, Q x → R x y → P x) → Forall P xs.
Proof. intros H HQ HP. induction H; [done|]. apply Forall_cons in HQ as [? ?]. constructor; eauto. Qed.

Fixpoint jsonable (v : value) : Prop :=
  match v with
  | DOther => False
  | DTuple l | DList l => foldr (λ v acc, jsonable v ∧ acc) True l
  | DDict m => foldr (λ kv acc, jsonable kv.2 ∧ acc) True m
  | _ => True
  end.

Lemma canonicalize_jsonable v : ∀ d b, _canonicalize (to_json v) d true = Ret b → jsonable v.
Proof.
  induction v as [| | | |l IH|l IH|m IH|] using value_nested_ind; intros d text H; try done.
  3: rewrite canonicalize_dict in H. 1, 2: cbn [to_json _canonicalize] in H; rewrite map_map in H.
  all: inv_do; match goal with X : seq_outcomes _ = Ret _ |- _ => rewrite seq_outcomes_spec in X; rename X into Hp end;
    cbn [jsonable]; rewrite foldr_and_Forall.
  1, 2: eapply Forall2_left; [exact Hp|exact IH|naive_solver].
  rewrite <-sort_keys_perm. eapply Forall2_left; [exact Hp|by rewrite sort_keys_perm|].
  intros kv part IHkv Hkv. cbn beta in IHkv. unfold member_part in Hkv. inv_do. eauto.
Qed.

Lemma parsed_stored v : jsonable v → of_parsed (embed (to_json v)) = stored v.
Proof.
  induction v as [| | | |l IH|l IH|m IH|] using value_nested_ind; intros H; try done.
  - cbn. by rewrite chars_codes.
  - cbn [jsonable to_json embed of_parsed stored] in *. f_equal. rewrite foldr_and_Forall in H. rewrite !map_map.
    apply map_ext_Forall. rewrite Forall_forall in *. auto.
  - cbn [jsonable to_json embed of_parsed stored] in *. f_equal. rewrite foldr_and_Forall in H. rewrite !map_map.
    apply map_ext_Forall. rewrite Forall_forall in *. auto.
  - cbn [jsonable to_json embed of_parsed stored] in *. f_equal. rewrite foldr_and_Forall in H. rewrite !map_map. cbn [fst snd JsonRoundtrip.key_of].
    rewrite (sort_keys_map (λ v, embed (to_json v))), map_map, sort_keys_map. cbn [fst snd].
    apply map_ext_Forall. rewrite sort_keys_perm. rewrite Forall_forall in *. intros kv Hkv. rewrite chars_codes. f_equal. auto.
Qed.

(** The strict parser reads an encoded value as the stored one. *)
Lemma read_encoded_within limit v b : value_ok v → encode v = Ret b → str_len b ≤ limit → 1 ≤ limit ≤ MAX_RECORD_BYTES →
  parse_json (Some b) (VInt limit) "integer" (Some true) (VInt MAX_JSON_STRING_BYTES) = Ret (embed (to_json v)) ∧
  of_parsed (embed (to_json v)) = stored v.
Proof.
  intros Hv Hb Hlen Hlim. pose proof (canonicalize_jsonable _ _ _ Hb) as He. unfold encode, canonical_json in Hb.
  apply canonicalize_emits in Hb as [Hb Hok]; [|by apply value_ok_distinct].
  unfold MAX_RECORD_BYTES in *. split; [|by apply parsed_stored].
  apply parse_emit; try done; unfold MAX_JSON_DOCUMENT_BYTES, MAX_JSON_STRING_BYTES; lia.
Qed.

Lemma read_encoded v b : value_ok v → encode v = Ret b → str_len b ≤ MAX_RECORD_BYTES →
  parse_json (Some b) (VInt MAX_RECORD_BYTES) "integer" (Some true) (VInt MAX_JSON_STRING_BYTES) = Ret (embed (to_json v)) ∧
  of_parsed (embed (to_json v)) = stored v.
Proof. intros. by apply read_encoded_within. Qed.
