(* ===== verification/JournalAccepts.v ===== *)
(** * Validators accept what is read back

    Every validator of journal_records.py that accepts the ids and data of a
    record accepts them in the form the record is read back: dict members in
    the order of their keys, every sequence a tuple. *)

From Stdlib Require Import Sorting.Sorted.
From S2P Require Import Prelude PyValue PyJson CanonJson PyBytes JsonParse JsonParseThm JsonRoundtrip JournalValue.
From S2P Require Import JournalSource.
From S2P Require Import JournalRecords JournalClaims JournalSeal JournalStored.
Local Open Scope string_scope.
Local Open Scope Z_scope.
Local Open Scope list_scope.

(** ** Automation

    [carry] takes one step of a validator; [carry_all] as many as it can. *)
Ltac see := rewrite ?get_stored by assumption; autorewrite with stored.
Ltac carry :=
  match goal with
  | |- Raise _ ⊑ _ => apply raise_mono
  | |- (_ ← _require_keys _ _; _) ⊑ _ =>
      see; apply keys_mono; [first [assumption | apply get_ok; assumption] | intros ? ?]
  | |- (_ ≫= _) ⊑ (_ ≫= _) => apply bind_mono; [|intros ? _]
  | |- each _ _ ⊑ each _ _ => apply each_mono; intros ?
  | |- (if ?b then _ else _) ⊑ _ => see; destruct b
  end.
Ltac carry_all := cbn beta zeta; repeat first [solve [see; reflexivity] | carry; cbn beta zeta].
Ltac carry_on :=
  repeat (first [apply bind_mono; [solve [carry_all] | intros ? _]
    | match goal with |- (_ ← _require_keys _ _; _) ⊑ _ => carry end]; cbn beta zeta).

(** [accepts f]: a value [f] accepts, it accepts as read back. *)
Definition accepts (f : validator) : Prop := ∀ ids data event_id,
  value_ok ids → value_ok data → f ids data event_id ⊑ f (stored ids) (stored data) event_id.
Ltac start := intros ids data event_id Hids Hdata.

(** Loops over the stored items of a sequence. *)
Lemma each_stored (f g : value → outcome unit) xs : (∀ v, v ∈ xs → f v ⊑ g (stored v)) → each f xs ⊑ each g (map stored xs).
Proof.
  intros H [] Hx. rewrite each_ret in *. apply Forall_map. rewrite Forall_forall in *. intros v Hv. by apply H, Hx.
Qed.

Lemma forallb_mapped {A B} (f : B → bool) (g : A → B) xs : forallb f (map g xs) = forallb (λ x, f (g x)) xs.
Proof. induction xs as [|x xs IH]; cbn; by rewrite ?IH. Qed.

Lemma texts_stored xs : map text_of (map stored xs) = map text_of xs.
Proof. rewrite map_map. apply map_ext, text_of_stored. Qed.

Lemma items_ok v xs : items v = Some xs → value_ok v → Forall value_ok xs.
Proof. destruct v; try done; intros [= <-]; cbn; by rewrite foldr_and_Forall. Qed.

Lemma items_stored v xs : items v = Some xs → items (stored v) = Some (map stored xs).
Proof. by destruct v; try done; intros [= <-]. Qed.

(** ** The source record *)
Lemma sort_keys_id {A} (m : list (string * A)) : Sorted key_le m → sort_keys m = m.
Proof.
  induction 1 as [|kv m Hs IH Hh]; [done|]. unfold sort_keys in *. cbn [foldr]. rewrite IH.
  destruct Hh as [|kv' m Hle]; [done|]. cbn. by unfold key_le in Hle; rewrite Hle.
Qed.

Lemma value_items_plain m prev xs : parse_value_items m prev = Ret xs →
  Sorted key_le m ∧ Forall (λ kv, stored kv.2 = kv.2) m ∧
  (∀ p, prev = Some p → HdRel key_le (p, DNone) m).
Proof.
  revert prev xs. induction m as [|[k v] m IH]; intros prev xs H; cbn in H; [repeat constructor|].
  inv_do. match goal with X : match prev with _ => _ end = true |- _ => rename X into Hprev end.
  assert (∃ ys, stored v = v ∧ parse_value_items m (Some k) = Ret ys) as (ys & Hv & Hm) by (destruct v; try done; inv_do; eauto).
  apply IH in Hm as (Hs & Hall & Hhd). specialize (Hhd k eq_refl).
  assert (HdRel key_le (k, v) m) as Hhd' by (destruct Hhd; by constructor).
  split_and!; [by constructor|by constructor|]. intros p ->. constructor. unfold key_le. cbn.
  apply negb_true_iff in Hprev. by apply leb_flip.
Qed.

Lemma parse_values_stored v budget : _parse_values v budget ⊑ _parse_values (stored v) budget.
Proof.
  destruct v as [| | | | | |m|]; try apply raise_mono; [done|]. rewrite stored_dict. cbn [_parse_values].
  intros r H. inv_do. match goal with X : parse_value_items _ _ = Ret _ |- _ => rename X into Hm end.
  pose proof (value_items_plain _ _ _ Hm) as (Hs & Hall & _).
  assert (sort_members m = m) as ->.
  { unfold sort_members. replace (map (λ kv, (kv.1, stored kv.2)) m) with m; [by apply sort_keys_id|].
    clear -Hall. induction Hall as [|[k v] m Hv _ IH]; cbn in *; [done|]. by rewrite Hv, <-IH. }
  rewrite Hm. cbn. match goal with X : (_ <=? _) = true |- _ => by rewrite X end.
Qed.

Lemma exact_keys_mono {B} v keys (e : outcome B) (k k' : members → outcome B) :
  value_ok v → (∀ b, e ≠ Ret b) → (∀ m, members_ok m → k m ⊑ k' (sort_members m)) →
  match _exact_keys_ok v keys with Some m => k m | None => e end ⊑
  match _exact_keys_ok (stored v) keys with Some m => k' m | None => e end.
Proof.
  intros Hv He Hk. unfold _exact_keys_ok.
  destruct v as [| | | | | |m|]; try (intros ? Hb; by destruct (He _ Hb)).
  rewrite stored_dict, same_keys_stored. destruct (same_keys m keys); [|done]. exact (Hk m Hv).
Qed.

Lemma starts_at_stored v : match stored v with DStr s => Some s | _ => None end = match v with DStr s => Some s | _ => None end.
Proof. by destruct v. Qed.

Lemma parse_alert_stored v budget : value_ok v → _parse_alert v budget ⊑ _parse_alert (stored v) budget.
Proof.
  intros Hv. apply (exact_keys_mono v); [done|done|]. intros m Hm.
  do 3 (apply bind_mono; [see; done|intros _ _]).
  rewrite !get_stored, starts_at_stored by done. autorewrite with stored.
  apply bind_mono; [apply parse_values_stored|]. by intros [vs b] _.
Qed.

Lemma parse_alerts_stored xs budget : Forall value_ok xs → parse_alerts xs budget ⊑ parse_alerts (map stored xs) budget.
Proof.
  intros H. revert budget. induction H as [|v xs Hv _ IH]; intros budget; cbn [parse_alerts map]; [done|].
  apply bind_mono; [by apply parse_alert_stored|]. intros [alert b] _. by apply bind_mono.
Qed.

Lemma provenance_stored v : value_ok v → _parse_provenance v ⊑ _parse_provenance (stored v).
Proof.
  intros Hv. apply (exact_keys_mono v); [done|done|]. intros m Hm. rewrite !get_stored by done.
  destruct (get m "kind"), (get m "path"); try apply raise_mono. by destruct (get m "line").
Qed.

Lemma truncated_stored v : truncated_ok (stored v) = truncated_ok v.
Proof. by destruct v. Qed.
Lemma int_option_stored v : match stored v with DInt z => Some z | _ => None end = match v with DInt z => Some z | _ => None end.
Proof. by destruct v. Qed.

Lemma source_stored v : value_ok v → source_from_json v ⊑ source_from_json (stored v).
Proof.
  intros Hv. apply (exact_keys_mono v); [done|done|]. intros m Hm.
  assert (value_ok (get m "alerts")) as Ha by by apply get_ok.
  rewrite !get_stored by done. destruct (get m "alerts") as [| | | |[|x raw]| | |]; try apply raise_mono.
  cbn [stored map]. cbn [value_ok foldr] in Ha. destruct Ha as [Hx Hraw]. rewrite foldr_and_Forall in Hraw.
  apply bind_mono; [by rewrite <-(length_map stored (x :: raw))|intros _ _].
  apply bind_mono; [exact (parse_alerts_stored (x :: raw) 0 (Forall_cons_2 _ _ _ Hx Hraw))|intros alerts _].
  apply bind_mono; [done|intros _ _]. rewrite truncated_stored, int_option_stored. autorewrite with stored.
  do 2 (apply bind_mono; [done|intros _ _]). apply bind_mono; [by apply provenance_stored, get_ok|intros prov _].
  done.
Qed.

(** ** Version 1 *)
Lemma empty_ids_stored ids : value_ok ids → _require_empty_ids ids ⊑ _require_empty_ids (stored ids).
Proof. intros. unfold _require_empty_ids. carry_all. Qed.

Lemma admission_id_stored ids : value_ok ids → _require_admission_id ids ⊑ _require_admission_id (stored ids).
Proof. intros. unfold _require_admission_id. carry_all. Qed.

Lemma baseline_stored v : value_ok v → _validate_baseline v ⊑ _validate_baseline (stored v).
Proof. intros. unfold _validate_baseline. carry_all. Qed.

Ltac ids_done := apply bind_mono; [by first [apply empty_ids_stored | apply admission_id_stored] | intros ? _].

Lemma genesis_accepts : accepts _validate_journal_genesis.
Proof. start. unfold _validate_journal_genesis. ids_done. carry_all. Qed.

Lemma restart_accepts : accepts _validate_restart_recovery.
Proof. start. unfold _validate_restart_recovery. ids_done. carry_all. Qed.

Lemma capacity_accepts : accepts _validate_capacity_hold.
Proof. start. unfold _validate_capacity_hold. ids_done. carry_all. Qed.

Lemma admission_accepts : accepts _validate_admission.
Proof.
  start. unfold _validate_admission. ids_done. carry_on.
  rewrite !get_stored by done. apply bind_mono; [|intros ? _].
  - destruct (get _ "dispatch_holds"); try apply raise_mono. cbn [stored]. rewrite length_map, texts_stored.
    apply bind_mono; [done|intros _ _]. apply bind_mono; [|done]. apply each_stored. intros v _. by autorewrite with stored.
  - apply bind_mono; [by apply source_stored, get_ok|intros ? _]. by autorewrite with stored.
Qed.

Lemma superseded_stored xs prev : Forall value_ok xs → check_superseded xs prev ⊑ check_superseded (map stored xs) prev.
Proof.
  intros H. revert prev. induction H as [|v xs Hv _ IH]; intros prev; cbn [check_superseded map]; [done|].
  carry_all. see. apply IH.
Qed.

Lemma dedupe_accepts : accepts _validate_dedupe_decision.
Proof.
  start. unfold _validate_dedupe_decision. ids_done. carry_on.
  apply bind_mono; [|intros ? _].
  { see. destruct (JournalValue.is_none _); [done|]. by apply baseline_stored, get_ok. }
  apply bind_mono; [rewrite get_stored by done; by apply baseline_stored, get_ok|intros ? _].
  apply bind_mono; [|intros ? _; see; done]. rewrite get_stored by done.
  pose proof (get_ok m "superseded" H) as Hs. destruct (get m "superseded"); try apply raise_mono. cbn [stored]. rewrite length_map.
  apply bind_mono; [done|intros _ _]. apply superseded_stored. cbn in Hs. by rewrite foldr_and_Forall in Hs.
Qed.

(** *** Refusal summaries *)
Lemma groups_ok_stored m : members_ok m → _refusal_groups_ok (sort_members m) = _refusal_groups_ok m.
Proof. intros. unfold _refusal_groups_ok. cbn [forallb]. see. reflexivity. Qed.

Lemma member_pair_stored v p : member_pair v = Some p → member_pair (stored v) = Some p.
Proof.
  destruct v as [| | | |[|x [|y [|z l]]]| | |]; try done; (destruct x; try done); (destruct y; try done).
Qed.

Lemma member_pairs_stored xs ps : mapM member_pair xs = Some ps → mapM member_pair (map stored xs) = Some ps.
Proof.
  rewrite !mapM_Some. induction 1; cbn; [constructor|]. constructor; [by apply member_pair_stored|done].
Qed.

Lemma no_members_stored v (p q r : bool) :
  p && bool_decide (v = DTuple []) && q && r = true → p && bool_decide (stored v = DTuple []) && q && r = true.
Proof.
  assert (bool_decide (v = DTuple []) = true → bool_decide (stored v = DTuple []) = true) as H by (rewrite !bool_decide_eq_true; by intros ->).
  destruct p, q, r; rewrite ?andb_false_r; try done. by rewrite !andb_true_r.
Qed.

Lemma listed_members_stored v (f : Z → list (string * string) → bool) (g h : Z → bool) :
  let check v := match v with
  | DTuple ms =>
      if g (Z.of_nat (length ms)) then false else if h (Z.of_nat (length ms)) then false
      else match mapM member_pair ms with None => false | Some pairs => f (Z.of_nat (length ms)) pairs end
  | _ => false
  end in check v = true → check (stored v) = true.
Proof.
  destruct v as [| | | |l| | |]; try done. cbn [stored]. cbv zeta. rewrite length_map. destruct (g _); [done|]. destruct (h _); [done|].
  destruct (mapM member_pair l) as [ps|] eqn:E; [|done]. by rewrite (member_pairs_stored _ _ E).
Qed.

Lemma members_ok_stored m : members_ok m → _refusal_members_ok m = true → _refusal_members_ok (sort_members m) = true.
Proof.
  intros Hm. unfold _refusal_members_ok. rewrite !get_stored by done. autorewrite with stored.
  destruct (get m "alerts") as [| |n| | | | |]; try done; cbn [stored]; [apply no_members_stored|].
  cbv zeta. destruct (_ && _); [done|]. destruct (get m "resolved") as [| |resolved| | | | |]; try done; cbn [stored].
  do 3 (case_match; [done|]).
  exact (listed_members_stored (get m "members")
    (λ len pairs, members_ascending pairs && bool_decide (NoDup pairs.*1) &&
      (Z.of_nat (length (filter (λ m, m.2 = "resolved") pairs)) =? Z.min resolved len))
    (λ len, negb (len =? Z.min n _MAX_REFUSAL_MEMBERS)) (λ len, negb (int_of (get m "members_omitted") =? n - len))).
Qed.

Lemma is_int_stored v : match stored v with DInt _ => true | _ => false end = match v with DInt _ => true | _ => false end.
Proof. by destruct v. Qed.

Lemma summary_stored v : value_ok v → _check_refusal_summary v ⊑ _check_refusal_summary (stored v).
Proof.
  intros Hv. unfold _check_refusal_summary. apply keys_mono; [done|]. intros m Hm.
  rewrite !get_stored, is_int_stored by done. autorewrite with stored.
  do 3 (apply bind_mono; [done|intros _ _]). apply bind_mono; [by rewrite groups_ok_stored|intros _ _].
  apply bind_mono; [apply check_mono; by apply members_ok_stored|intros _ _].
  destruct (encode v) as [b|] eqn:E; [|apply raise_mono]. by rewrite (encode_stored v b E).
Qed.

Lemma ruled_stored v : ruled v ≫= (λ m, Ret (sort_members m)) = ruled (stored v).
Proof.
  destruct v as [| | | | | |m|]; try done. rewrite stored_dict. cbn [ruled].
  rewrite (str_in_perm _ _ _ (sort_members_keys m)). by destruct (str_in _ _).
Qed.

(** The two validators that look at the rule before the other keys. *)
Lemma ruled_mono {B} v (k k' : members → outcome B) :
  value_ok v → (∀ m, members_ok m → k m ⊑ k' (sort_members m)) → (ruled v ≫= k) ⊑ (ruled (stored v) ≫= k').
Proof.
  intros Hv Hk. rewrite <-ruled_stored. destruct v as [| | | | | |m|]; try apply raise_mono. cbn [ruled].
  destruct (str_in _ _); [|apply raise_mono]. by apply Hk.
Qed.

Lemma ingress_refusal_accepts : accepts _validate_ingress_refusal.
Proof.
  start. unfold _validate_ingress_refusal. ids_done. apply ruled_mono; [done|]. intros m Hm. carry_on.
  apply bind_mono; [rewrite get_stored by done; by apply summary_stored, get_ok|intros _ _]. carry_all.
Qed.

Lemma operator_action_accepts : accepts _validate_operator_action.
Proof. start. unfold _validate_operator_action. ids_done. apply ruled_mono; [done|]. intros m Hm. carry_all. Qed.

(** ** Claims *)
Lemma each_ext {A} (f g : A → outcome unit) xs : (∀ x, f x = g x) → each f xs = each g xs.
Proof. intros H. unfold each. generalize tt. induction xs as [|x xs IH]; intros u; cbn; [done|]. rewrite H. by destruct (g x). Qed.

Section fields.
Context (m : members) (Hm : members_ok m).

Lemma hex_fields_stored keys : hex_fields (sort_members m) keys = hex_fields m keys.
Proof using Hm. apply each_ext. intros k. see. reflexivity. Qed.
Lemma uuid_fields_stored keys : uuid_fields (sort_members m) keys = uuid_fields m keys.
Proof using Hm. apply each_ext. intros k. see. reflexivity. Qed.
Lemma id_fields_stored keys : id_fields (sort_members m) keys = id_fields m keys.
Proof using Hm. apply each_ext. intros k. see. reflexivity. Qed.
Lemma seq_fields_stored keys : seq_fields (sort_members m) keys = seq_fields m keys.
Proof using Hm. apply each_ext. intros k. see. reflexivity. Qed.
Lemma service_name_stored : service_name (sort_members m) = service_name m.
Proof using Hm. unfold service_name. see. reflexivity. Qed.
Lemma absent_stored keys :
  forallb (λ k, JournalValue.is_none (get (sort_members m) k)) keys = forallb (λ k, JournalValue.is_none (get m k)) keys.
Proof using Hm. apply forallb_ext. intros k. see. reflexivity. Qed.
Lemma flags_stored keys :
  forallb (λ k, JournalValue.is_bool (get (sort_members m) k)) keys = forallb (λ k, JournalValue.is_bool (get m k)) keys.
Proof using Hm. apply forallb_ext. intros k. see. reflexivity. Qed.
End fields.

Lemma values_texts m : map text_of (sort_members m).*2 ≡ₚ map text_of m.*2.
Proof.
  rewrite stored_members_perm. clear. induction m as [|kv m IH]; cbn; [done|]. by rewrite text_of_stored, IH.
Qed.

Lemma distinct_perm xs ys : map text_of xs ≡ₚ map text_of ys → distinct xs = distinct ys.
Proof. intros H. unfold distinct. apply bool_decide_ext. by rewrite H. Qed.

Lemma distinct_values m : distinct (sort_members m).*2 = distinct m.*2.
Proof. apply distinct_perm, values_texts. Qed.

Lemma distinct_values_app m xs ys : map text_of xs = map text_of ys →
  distinct ((sort_members m).*2 ++ xs) = distinct (m.*2 ++ ys).
Proof. intros H. apply distinct_perm. by rewrite !map_app, H, values_texts. Qed.

Lemma fresh_ids_stored m event_id v : fresh_ids (sort_members m) event_id (stored v) = fresh_ids m event_id v.
Proof. apply distinct_values_app. cbn. by rewrite text_of_stored. Qed.

Lemma among_ids_stored event_id m : among_ids event_id (sort_members m) = among_ids event_id m.
Proof. apply str_in_perm, values_texts. Qed.

Lemma claim_mono {B} ids keys event_id (k k' : members → outcome B) :
  value_ok ids → (∀ m, members_ok m → k m ⊑ k' (sort_members m)) →
  (claim_ids ids keys event_id ≫= k) ⊑ (claim_ids (stored ids) keys event_id ≫= k').
Proof.
  intros Hids Hk. unfold claim_ids. intros b H. inv_do.
  match goal with X : _require_keys _ _ = Ret ?m |- _ => rename X into Hkeys; rename m into m0 end.
  assert (members_ok m0 ∧ _require_keys (stored ids) keys = Ret (sort_members m0)) as [Hm Hkeys'].
  { unfold _require_keys, _exact_keys_ok in *. destruct ids as [| | | | | |m|]; try done. rewrite stored_dict, same_keys_stored.
    destruct (same_keys m keys); [|done]. by injection Hkeys as <-. }
  rewrite Hkeys'. cbn [mbind outcome_bind].
  match goal with X : each _ _ = Ret ?u |- _ => destruct u; rewrite (each_values _ _ require_uuid_stored _ X) end.
  cbn [mbind outcome_bind]. match goal with X : _require_uuid (DStr _) = _ |- _ => rewrite X end.
  cbn [mbind outcome_bind]. simplify_eq. by apply Hk.
Qed.

Lemma services_mono {A B} (f : value → outcome A) v (k k' : list A → outcome B) :
  value_ok v → (∀ x, value_ok x → f x ⊑ f (stored x)) → (∀ rows, k rows ⊑ k' rows) →
  (xs ← service_items v; rows ← collect f xs; k rows) ⊑ (xs ← service_items (stored v); rows ← collect f xs; k' rows).
Proof.
  intros Hv Hf Hk. unfold service_items. destruct (items v) as [l|] eqn:E; [|apply raise_mono].
  rewrite (items_stored _ _ E), length_map. destruct (field_check _) as [[]|]; [|apply raise_mono]. cbn [mbind outcome_bind].
  apply bind_mono; [|by intros rows _]. apply collect_mono. pose proof (items_ok _ _ E Hv) as Hl.
  rewrite Forall_forall in *. auto.
Qed.

Ltac see ::=
  rewrite ?get_stored by assumption;
  rewrite ?hex_fields_stored, ?uuid_fields_stored, ?id_fields_stored, ?seq_fields_stored, ?service_name_stored, ?absent_stored, ?flags_stored by assumption;
  rewrite ?fresh_ids_stored, ?among_ids_stored, ?distinct_values; autorewrite with stored.
Ltac claim := start; unfold _validate_execution_base; apply claim_mono; [assumption|]; intros m0 Hm0; carry_all.

Lemma run_hold_accepts : accepts _validate_run_hold_v2.
Proof. start. unfold _validate_run_hold_v2. carry_all. Qed.
Lemma reservation_intent_v2_accepts : accepts _validate_reservation_intent_v2.
Proof. start. unfold _validate_reservation_intent_v2. carry_all. Qed.
Lemma reservation_intent_v3_accepts : accepts _validate_reservation_intent_v3.
Proof. start. unfold _validate_reservation_intent_v3. carry_all. Qed.

Lemma confirmation_accepts rule : accepts (validate_confirmation rule).
Proof.
  start. unfold validate_confirmation. carry_all. see.
  apply check_mono. intros Hd. etransitivity; [|exact Hd]. apply distinct_perm. cbn. by rewrite !text_of_stored.
Qed.

Lemma confirmation_v2_accepts : accepts _validate_reservation_confirmation_v2.
Proof. exact (confirmation_accepts _). Qed.
Lemma confirmation_v3_accepts : accepts _validate_reservation_confirmation_v3.
Proof. exact (confirmation_accepts _). Qed.

Lemma spawn_attestation_accepts : accepts _validate_spawn_attestation_v3.
Proof. claim. Qed.
Lemma release_observation_accepts : accepts _validate_release_observation_v3.
Proof. claim. Qed.
Lemma effect_intent_accepts : accepts _validate_effect_intent_v3.
Proof. claim. Qed.
Lemma effect_receipt_accepts : accepts _validate_effect_receipt_v3.
Proof. claim. Qed.
Lemma supervision_action_result_accepts : accepts _validate_supervision_action_result_v3.
Proof. claim. Qed.

(** *** Service lists *)
Lemma run_intent_service_stored v : value_ok v → run_intent_service v ⊑ run_intent_service (stored v).
Proof. intros. unfold run_intent_service. carry_all. Qed.
Lemma launch_grant_stored origin v : value_ok v → launch_grant origin v ⊑ launch_grant origin (stored v).
Proof. intros. unfold launch_grant. carry_all. Qed.
Lemma release_activation_stored v : value_ok v → release_activation v ⊑ release_activation (stored v).
Proof. intros. unfold release_activation. carry_all. Qed.

Ltac services := rewrite ?get_stored by assumption; apply services_mono; [by apply get_ok | | intros rows; carry_all].

Lemma run_intent_accepts : accepts _validate_run_intent_v3.
Proof.
  start. apply claim_mono; [done|]. intros m0 Hm0. carry_on.
  services; [apply run_intent_service_stored|]. see.
  apply check_mono. intros Hd. etransitivity; [|exact Hd]. apply distinct_values_app. cbn. by rewrite !text_of_stored.
Qed.

Lemma launch_claim_accepts : accepts _validate_launch_claim_v3.
Proof.
  start. apply claim_mono; [done|]. intros m0 Hm0. carry_on. services. apply launch_grant_stored.
Qed.

Lemma release_intent_accepts : accepts _validate_release_intent_v3.
Proof. start. apply claim_mono; [done|]. intros m0 Hm0. carry_on. services. apply release_activation_stored. Qed.

(** *** Supervision, execution, reconciliation *)
Lemma supervision_action_intent_accepts : accepts _validate_supervision_action_intent_v3.
Proof.
  start. apply claim_mono; [done|]. intros m0 Hm0. carry_on. see.
  destruct (items (get _ "prior_revoke_action_ids")) as [prior|] eqn:E; [|apply raise_mono].
  rewrite (items_stored _ _ E), length_map. apply bind_mono; [done|intros _ _].
  apply bind_mono; [apply each_stored; intros; by see|intros _ _].
  apply bind_mono; [|intros _ _; carry_all].
  apply check_mono. intros Hd. etransitivity; [|exact Hd]. apply distinct_perm. by rewrite texts_stored.
Qed.

Lemma execution_base_mono {B} ids data event_id keys rule digest_key (k k' : members → outcome B) :
  value_ok ids → value_ok data → (∀ m, members_ok m → k m ⊑ k' (sort_members m)) →
  (_validate_execution_base ids data event_id keys rule digest_key ≫= k) ⊑
  (_validate_execution_base (stored ids) (stored data) event_id keys rule digest_key ≫= k').
Proof.
  intros Hids Hdata Hk. unfold _validate_execution_base. rewrite ?bind_assoc_outcome.
  apply claim_mono; [done|]. intros m Hm. rewrite ?bind_assoc_outcome.
  apply bind_mono; [by see|intros _ _]. rewrite ?bind_assoc_outcome. apply keys_mono; [done|]. intros d Hd.
  repeat (rewrite ?bind_assoc_outcome; apply bind_mono; [by see|intros _ _]). cbn. by apply Hk.
Qed.

Lemma process_observation_accepts : accepts _validate_process_observation_v3.
Proof. start. apply execution_base_mono; [done|done|]. intros m Hm. carry_all. Qed.

Lemma terminal_observation_accepts : accepts _validate_terminal_observation_v3.
Proof. start. apply execution_base_mono; [done|done|]. intros m Hm. carry_all. Qed.

Lemma execution_assessment_accepts : accepts _validate_execution_assessment_v3.
Proof.
  start. apply execution_base_mono; [done|done|]. intros m Hm. apply bind_mono; [carry_all|intros _ _]. see.
  destruct (items (get m "reasons")) as [reasons|] eqn:E; [|apply raise_mono]. rewrite (items_stored _ _ E), texts_stored.
  apply bind_mono; [|done]. apply check_mono.
  rewrite forallb_mapped, (forallb_ext (λ r, _enum_ok (stored r) _) (λ r, _enum_ok r _EXECUTION_REASONS)); [done|].
  intros r. apply enum_ok_stored.
Qed.

Lemma reconciliation_mono {B} ids data event_id keys rule digest_key (k k' : members → outcome B) :
  value_ok ids → value_ok data → (∀ m, members_ok m → k m ⊑ k' (sort_members m)) →
  (_validate_reconciliation_common ids data event_id keys rule digest_key ≫= k) ⊑
  (_validate_reconciliation_common (stored ids) (stored data) event_id keys rule digest_key ≫= k').
Proof.
  intros Hids Hdata Hk. unfold _validate_reconciliation_common. rewrite ?bind_assoc_outcome.
  apply claim_mono; [done|]. intros m Hm. rewrite ?bind_assoc_outcome.
  apply bind_mono; [by see|intros _ _]. rewrite ?bind_assoc_outcome. apply keys_mono; [done|]. intros d Hd.
  repeat (rewrite ?bind_assoc_outcome; apply bind_mono; [by see|intros _ _]). cbn. by apply Hk.
Qed.

Lemma reconciliation_observation_accepts : accepts _validate_reconciliation_observation_v3.
Proof. start. by apply reconciliation_mono. Qed.

Lemma restart_reconciliation_accepts : accepts _validate_restart_reconciliation_observation_v3.
Proof. start. apply reconciliation_mono; [done|done|]. intros m Hm. carry_all. Qed.

(** ** All of them *)
Create HintDb accepts.
#[export] Hint Resolve genesis_accepts restart_accepts capacity_accepts admission_accepts dedupe_accepts
  ingress_refusal_accepts operator_action_accepts run_hold_accepts reservation_intent_v2_accepts
  reservation_intent_v3_accepts confirmation_v2_accepts confirmation_v3_accepts run_intent_accepts launch_claim_accepts spawn_attestation_accepts
  release_intent_accepts release_observation_accepts effect_intent_accepts effect_receipt_accepts
  supervision_action_intent_accepts supervision_action_result_accepts process_observation_accepts
  terminal_observation_accepts execution_assessment_accepts reconciliation_observation_accepts
  restart_reconciliation_accepts : accepts.

Lemma all_accept : Forall (λ row, accepts row.2) all_validators.
Proof. unfold all_validators, _TYPE_VALIDATORS, _V2_TYPE_VALIDATORS, _V3_TYPE_VALIDATORS. repeat constructor; cbn; auto with accepts nocore.
Qed.

Lemma lookup_accepts t v f : lookup_type all_validators t v = Some f → accepts f.
Proof.
  generalize all_accept. generalize all_validators. induction 1 as [|[[t' v'] g] table Hg _ IH]; cbn; [done|].
  destruct (_ && _); [by intros [= <-]|done].
Qed.
