(* ===== verification/JournalSealThm.v ===== *)
(** * Sealed records are the records that can be opened

    [open_record] reads back the body [seal] wrote, and sealing the parts of an
    opened record gives its body again. *)

From S2P Require Import Prelude PyValue PyJson Sha256 CanonJson PyBytes JsonParse JsonParseThm JsonRoundtrip JournalValue.
From S2P Require Import JournalSource JournalRecords JournalClaims JournalSeal JournalStored JournalAccepts.
Local Open Scope string_scope.
Local Open Scope Z_scope.
Local Open Scope list_scope.

#[local] Opaque sha256_hex.

(** ** Thawing and freezing *)
Lemma thaw_same v : ∀ d w, _thaw v d = Ret w → w = v.
Proof.
  induction v as [| | | |l IH|l IH|m IH|] using value_nested_ind; intros d w H; try by injection H as <-.
  - cbn in H. inv_do. injection H as <-. f_equal.
    match goal with X : seq_outcomes _ = Ret _ |- _ => rewrite seq_outcomes_spec in X; rename X into Hp end.
    revert IH. induction Hp as [|x y xs ys Hx _ IHp]; intros IH; [done|]. apply Forall_cons in IH as [IHx IH].
    f_equal; eauto.
  - cbn in H. inv_do. injection H as <-. f_equal.
    match goal with X : seq_outcomes _ = Ret _ |- _ => rewrite seq_outcomes_spec in X; rename X into Hp end.
    revert IH. induction Hp as [|[k x] y xs ys Hx _ IHp]; intros IH; [done|]. apply Forall_cons in IH as [IHx IH].
    cbn. f_equal; [|by apply IHp]. cbn in *. f_equal. eauto.
Qed.

Lemma thaw_ret v w : thaw v = Ret w → w = v.
Proof. apply thaw_same. Qed.

Lemma freeze_stored v : _freeze (stored v) = stored v.
Proof.
  induction v as [| | | |l IH|l IH|m IH|] using value_nested_ind; try done; cbn [stored _freeze]; f_equal.
  1, 2: rewrite map_map; apply map_ext_Forall; done.
  rewrite <-sort_keys_map, map_map. f_equal. apply map_ext_Forall. rewrite Forall_forall in *. intros kv Hkv. cbn.
  by rewrite IH.
Qed.

Lemma stored_freeze v : stored (_freeze v) = stored v.
Proof.
  induction v as [| | | |l IH|l IH|m IH|] using value_nested_ind; try done; cbn [stored _freeze]; f_equal.
  1, 2: rewrite map_map; apply map_ext_Forall; done.
  f_equal. rewrite map_map. apply map_ext_Forall. rewrite Forall_forall in *. intros kv Hkv. cbn. by rewrite IH.
Qed.

(** ** The envelope *)
Lemma registered_stored m : members_ok m → registered (sort_members m) = registered m.
Proof.
  intros Hm. unfold registered. rewrite !get_stored by done.
  destruct (get m "event_type"); try done. by destruct (get m "schema_version").
Qed.

Lemma envelope_stored v : value_ok v → _validate_envelope v ⊑ _validate_envelope (stored v).
Proof.
  intros Hv. unfold _validate_envelope. apply keys_mono; [done|]. intros m Hm.
  rewrite registered_stored, !get_stored by done. autorewrite with stored.
  destruct (get m "schema_version"); try apply raise_mono. cbn [stored].
  do 6 (apply bind_mono; [done|intros ? _]). apply bind_mono; [by destruct (get m "commit_index")|intros _ _].
  destruct (registered m) as [f|] eqn:E; [|apply raise_mono].
  do 6 (apply bind_mono; [done|intros _ _]).
  assert (accepts f) as Hf.
  { unfold registered in E. destruct (get m "event_type"); try done. destruct (get m "schema_version"); try done.
    by eapply lookup_accepts. }
  by apply Hf; apply get_ok.
Qed.

Definition read_back (r : JournalRecord) : JournalRecord :=
  {| position := position r; stamp := stamp r; event_id := event_id r; event_type := event_type r;
     schema_version := schema_version r; actor := actor r;
     ids := sort_members (ids r); data := sort_members (data r); body := body r; record_digest := record_digest r |}.

Lemma envelope_of_ok draft pos st v : members_ok (dr_ids draft) → members_ok (dr_data draft) →
  members_ok (envelope_of draft pos st v (DDict (dr_ids draft)) (DDict (dr_data draft))).
Proof.
  intros Hids Hdata. apply members_ok_spec. split.
  2: { unfold envelope_of. repeat (apply Forall_cons; split; [first [exact I | exact Hids | exact Hdata]|]). by apply Forall_nil. }
  apply (bool_decide_eq_true _). vm_compute. reflexivity.
Qed.

Lemma build_read_back m pos st b d ids data :
  members_ok m → get m "ids" = DDict ids → get m "data" = DDict data →
  _build_record (sort_members m) pos st b d = read_back (_build_record m pos st b d).
Proof.
  intros Hm Hids Hdata. unfold _build_record, read_back. rewrite !get_stored, Hids, Hdata by done.
  autorewrite with stored. cbn [JournalRecords.position stamp event_id event_type schema_version actor JournalRecords.ids
    JournalRecords.data body record_digest].
  f_equal; rewrite freeze_stored, <-stored_freeze; done.
Qed.

(** ** What a record is *)
Definition hex64 (s : string) : Prop := str_len s = 64 ∧ all_chars (char_in HEX_DIGITS) s = true.

Record position_ok (p : Position) : Prop := {
  generation_range : 1 ≤ journal_generation p ≤ MAX_GENERATION;
  event_seq_range : 1 ≤ event_seq p ≤ MAX_SEQ;
  commit_seq_range : 1 ≤ commit_seq p ≤ MAX_SEQ;
  commit_size_range : 1 ≤ commit_size p ≤ MAX_COMMIT_RECORDS;
  commit_index_range : 0 ≤ commit_index p < commit_size p;
  prev_is_digest : hex64 (prev_record_digest p);
  first_has_no_predecessor : event_seq p = 1 ↔ prev_record_digest p = ZERO_DIGEST;
}.

(** The envelope, body and digest of a record fit together. *)
Record record_ok (r : JournalRecord) : Prop := {
  rec_position : position_ok (position r);
  rec_event_id : _ID_PATTERN (event_id r) = true;
  rec_boot_id : _ID_PATTERN (boot_id (stamp r)) = true;
  rec_wall_time : wall_time_ok (wall_time (stamp r)) = true;
  rec_mono : 0 ≤ mono_us (stamp r) ≤ MAX_SEQ;
  rec_actor : actor r = TYPE_ACTORS (event_type r);
  rec_type : ∃ f raw_ids raw_data, lookup_type all_validators (event_type r) (schema_version r) = Some f ∧
    f raw_ids raw_data (event_id r) = Ret tt ∧
    ids r = dict_of (_freeze raw_ids) ∧ data r = dict_of (_freeze raw_data);
  rec_size : str_len (body r) ≤ MAX_RECORD_BYTES;
  rec_cap : over_cap (event_type r) (schema_version r) (body r) = false;
  rec_digest : record_digest r = _record_digest (body r);
}.

Lemma hex64_spec v : _hex64_ok v = true → hex64 (text_of v).
Proof. destruct v; try done. cbn. intros H. bool_simpl. done. Qed.

Lemma str_ok_spec p v : str_ok p v = true → p (text_of v) = true.
Proof. by destruct v. Qed.

Lemma bound_int_ret v lo hi c z : _require_bound_int v lo hi c = Ret z → v = DInt z ∧ lo ≤ z ≤ hi.
Proof. destruct v; try done. cbn. unfold record_check. intros H. inv_do. injection H as ->. bool_simpl. auto. Qed.

Lemma bound_ret v lo hi u : bound v lo hi = Ret u → ∃ z, v = DInt z ∧ lo ≤ z ≤ hi.
Proof. unfold bound. intros H. inv_do. match goal with X : _ = Ret _ |- _ => apply bound_int_ret in X end. eauto. Qed.

Lemma validate_id_ret v s : validate_id v = Ret s → v = DStr s ∧ _ID_PATTERN s = true.
Proof. destruct v; try done. cbn. unfold record_check. intros H. inv_do. injection H as ->. done. Qed.

Lemma registered_lookup m f : registered m = Some f →
  lookup_type all_validators (text_of (get m "event_type")) (int_of (get m "schema_version")) = Some f.
Proof. unfold registered. destruct (get m "event_type"); try done. by destruct (get m "schema_version"). Qed.

(** The position and stamp [decode_record] reads from an envelope. *)
Definition position_of (m : members) : Position :=
  {| journal_generation := int_of (get m "journal_generation"); event_seq := int_of (get m "event_seq");
     commit_seq := int_of (get m "commit_seq"); commit_index := int_of (get m "commit_index");
     commit_size := int_of (get m "commit_size"); prev_record_digest := text_of (get m "prev_record_digest") |}.
Definition stamp_of (m : members) : Stamp :=
  {| boot_id := text_of (get m "boot_id"); wall_time := text_of (get m "wall_time"); mono_us := int_of (get m "mono_us") |}.

Lemma validated_envelope m b :
  _validate_envelope (DDict m) = Ret tt → str_len b ≤ MAX_RECORD_BYTES →
  over_cap (text_of (get m "event_type")) (int_of (get m "schema_version")) b = false →
  record_ok (_build_record m (position_of m) (stamp_of m) b (_record_digest b)).
Proof.
  intros H Hsize Hcap. unfold _validate_envelope, _require_keys in H. inv_do.
  match goal with X : match _exact_keys_ok _ _ with _ => _ end = Ret ?m' |- _ =>
    cbn in X; destruct (same_keys m _ ) in X; [injection X as <-|done] end.
  destruct (get m "schema_version") as [| |ver| | | | |] eqn:Ever; try done.
  unfold require_id, field_check, _require_wall_time, _require_hex64, record_check in H. inv_do.
  destruct (registered m) as [f|] eqn:Ef; [|done]. inv_do.
  repeat match goal with
  | X : _require_bound_int _ _ _ _ = Ret _ |- _ => apply bound_int_ret in X as [? ?]
  | X : bound _ _ _ = Ret _ |- _ => apply bound_ret in X as (? & ? & ?)
  | X : validate_id _ = Ret _ |- _ => apply validate_id_ret in X as [? ?]
  end.
  destruct (get m "commit_index") as [| |index| | | | |] eqn:Eindex; try done. inv_do. bool_simpl.
  match goal with X : str_ok _ (get m "actor") = true |- _ => apply str_ok_spec in X end.
  match goal with X : str_ok _ (get m "wall_time") = true |- _ => apply str_ok_spec in X end.
  match goal with X : _hex64_ok (get m "prev_record_digest") = true |- _ => pose proof (hex64_spec _ X) end.
  apply registered_lookup in Ef.
  repeat match goal with X : get m _ = DInt _ |- _ => apply (f_equal int_of) in X end.
  repeat match goal with X : get m _ = DStr _ |- _ => apply (f_equal text_of) in X end. cbn [int_of text_of] in *. subst.
  bool_simpl. split; try done.
  - split; try done. change (int_of (get m "event_seq") = 1 ↔ text_of (get m "prev_record_digest") = ZERO_DIGEST).
    match goal with X : (_ =? 1) = bool_decide _ |- _ => rename X into Hfirst end.
    match goal with X : _hex64_ok (get m "prev_record_digest") = true |- _ => rename X into Hprev end.
    destruct (get m "prev_record_digest"); try done. cbn [text_of].
    rewrite <-Z.eqb_eq, Hfirst, bool_decide_eq_true. naive_solver.
  - by exists f, (get m "ids"), (get m "data").
Qed.

Lemma opened_record_ok b r : open_record b = Ret r → record_ok r ∧ body r = b.
Proof.
  unfold open_record, verify_body. rewrite bool_decide_true by done. unfold record_check at 1. cbn [check_that mbind outcome_bind].
  destruct (parse_json _ _ _ _ _) as [p|] eqn:Hp; [|done]. cbn [mbind outcome_bind]. unfold decode_record.
  destruct (of_parsed p) as [| | | | | |m|]; try done. unfold record_check. intros H. inv_do. injection H as <-.
  match goal with X : _validate_envelope _ = Ret ?u |- _ => destruct u end. bool_simpl.
  split; [|done]. apply validated_envelope; [done| |done].
  clear -Hp. unfold parse_json in Hp. inv_do. by apply Z.leb_le.
Qed.

(** C20: Every record the journal opens is well typed.  When [open_record]
    returns, every number of the envelope is in its range, the index is below
    the size of its commit, digests are 64 hexadecimal digits, the first record
    and no other has the zero predecessor, the type is registered and has the
    actor and passes the validator registered for it, the body is within the
    record and type caps, and the digest is the digest of that body. *)
Theorem opened_record_is_well_typed b r : open_record b = Ret r → record_ok r ∧ body r = b.
Proof. apply opened_record_ok. Qed.

Lemma sealed_is_read_back draft pos st v r :
  members_ok (dr_ids draft) → members_ok (dr_data draft) → seal draft pos st v = Ret r →
  open_record (body r) = Ret (read_back r).
Proof.
  intros Hids Hdata H. unfold seal in H. inv_do.
  repeat match goal with X : thaw _ = Ret _ |- _ => apply thaw_ret in X as -> end.
  match goal with X : _validate_envelope _ = Ret ?u |- _ => rename X into Henv; destruct u end.
  match goal with X : encode_record _ = Ret ?b |- _ => rename X into Hb; rename b into bd end.
  set (m := envelope_of draft pos st v (DDict (dr_ids draft)) (DDict (dr_data draft))) in *.
  assert (members_ok m) as Hm by by apply envelope_of_ok.
  unfold record_check in *. inv_do. injection H as <-. cbn [body _build_record].
  assert (encode (DDict m) = Ret bd) as Hb' by (unfold encode_record in Hb; by destruct (encode _); [injection Hb as ->|]).
  destruct (read_encoded (DDict m) bd Hm Hb') as [Hp Hs]; [by apply Z.leb_le|].
  unfold open_record, verify_body. rewrite bool_decide_true by done. unfold record_check at 1. cbn [check_that mbind outcome_bind].
  rewrite Hp. cbn [mbind outcome_bind]. rewrite Hs. change (stored (DDict m)) with (DDict (sort_members m)).
  unfold decode_record. unfold encode_record at 1. change (DDict (sort_members m)) with (stored (DDict m)).
  rewrite (encode_stored _ _ Hb'). cbn [mbind outcome_bind]. rewrite bool_decide_true by done.
  rewrite (envelope_stored _ Hm _ Henv). unfold record_check. cbn [check_that mbind outcome_bind].
  rewrite !get_stored by done. autorewrite with stored. destruct pos, st.
  change (text_of (get m "event_type")) with (dr_event_type draft). change (int_of (get m "schema_version")) with v.
  match goal with X : negb (over_cap _ _ _) = true |- _ => rewrite X end. cbn [check_that mbind outcome_bind].
  f_equal. by eapply build_read_back.
Qed.

(** C19: What the journal seals it can read again.  For every draft (a Python
    value: dict keys are distinct), position, stamp and schema version, when
    [seal] returns a record, [open_record] of its body returns that record,
    dict members in the order of their keys: the body is canonical, within the
    parser's limits and passes every check of the envelope and of its type. *)
Theorem sealed_records_are_read_back draft pos st v r :
  members_ok (dr_ids draft) → members_ok (dr_data draft) → seal draft pos st v = Ret r →
  open_record (body r) = Ret (read_back r).
Proof. apply sealed_is_read_back. Qed.

Lemma sealed_record_ok draft pos st v r : seal draft pos st v = Ret r →
  record_ok r ∧ r = _build_record (envelope_of draft pos st v (DDict (dr_ids draft)) (DDict (dr_data draft))) pos st (body r)
    (_record_digest (body r)) ∧
  encode (DDict (envelope_of draft pos st v (DDict (dr_ids draft)) (DDict (dr_data draft)))) = Ret (body r).
Proof.
  unfold seal, record_check. intros H. inv_do.
  repeat match goal with X : thaw _ = Ret _ |- _ => apply thaw_ret in X as -> end.
  match goal with X : _validate_envelope _ = Ret ?u |- _ => rename X into Henv; destruct u end.
  match goal with X : encode_record _ = Ret ?b |- _ => rename X into Hb; rename b into bd end.
  injection H as <-. bool_simpl. split_and!; [|done|].
  - destruct pos, st. by apply validated_envelope.
  - cbn [body _build_record]. unfold encode_record in Hb. by destruct (encode _).
Qed.

(** *** A genesis record *)
(** The validator registered for the type accepted the ids and data. *)
Lemma validated_type m : _validate_envelope (DDict m) = Ret tt →
  ∃ f, registered m = Some f ∧ f (get m "ids") (get m "data") (text_of (get m "event_id")) = Ret tt.
Proof.
  intros H. unfold _validate_envelope, _require_keys in H. inv_do.
  match goal with X : match _exact_keys_ok _ _ with _ => _ end = Ret ?m' |- _ =>
    cbn in X; destruct (same_keys m _ ) in X; [injection X as <-|done] end.
  destruct (get m "schema_version"); try done. inv_do. destruct (registered m) as [f|]; [|done]. inv_do.
  match goal with X : validate_id _ = Ret _ |- _ => apply validate_id_ret in X as [Hid ?]; rewrite Hid end. eauto.
Qed.

Lemma sealed_validates draft pos st v r : seal draft pos st v = Ret r →
  ∃ f, lookup_type all_validators (dr_event_type draft) v = Some f ∧
    f (DDict (dr_ids draft)) (DDict (dr_data draft)) (dr_event_id draft) = Ret tt.
Proof.
  unfold seal. intros H. inv_do.
  repeat match goal with X : thaw _ = Ret _ |- _ => apply thaw_ret in X as -> end.
  match goal with X : _validate_envelope _ = Ret ?u |- _ => destruct u; apply validated_type in X as (f & Hf & Hacc) end.
  exists f. split; [exact Hf|exact Hacc].
Qed.

Definition demo_stamp : Stamp := {| boot_id := "boot-1"; wall_time := "2024-01-01T00:00:00.000000Z"; mono_us := 5 |}.
Definition demo_draft : Draft :=
  {| dr_event_id := "genesis-1"; dr_event_type := "journal_genesis"; dr_actor := "receiver"; dr_ids := [];
     dr_data := [("format", DStr "rj.journal.v1"); ("journal_uuid", DStr "00000000-0000-4000-8000-000000000001");
                 ("bounds", DDict [("max_admissions", DInt 3); ("max_pending_fingerprints", DInt 4);
                                   ("ordinary_bytes", DInt 20000); ("total_bytes", DInt 40000)])] |}.
Definition demo_position : Position :=
  {| journal_generation := 1; event_seq := 1; commit_seq := 1; commit_index := 0; commit_size := 1;
     prev_record_digest := ZERO_DIGEST |}.

Lemma demo_sealed : returned (seal demo_draft demo_position demo_stamp 1) = true.
Proof. vm_compute. reflexivity. Qed.

Lemma demo_draft_ok : members_ok (dr_ids demo_draft) ∧ members_ok (dr_data demo_draft).
Proof.
  split; apply members_ok_spec; (split; [apply (bool_decide_eq_true _); vm_compute; reflexivity|]); [constructor|].
  repeat (apply Forall_cons; split; [try exact I|]); [|constructor].
  apply members_ok_spec. split; [apply (bool_decide_eq_true _); vm_compute; reflexivity|].
  repeat (apply Forall_cons; split; [exact I|]). constructor.
Qed.

Lemma sealed_records_are_read_back_witness : ∃ r,
  seal demo_draft demo_position demo_stamp 1 = Ret r ∧ open_record (body r) = Ret (read_back r).
Proof.
  pose proof demo_sealed as H. destruct (seal demo_draft demo_position demo_stamp 1) as [r|] eqn:E; [|discriminate H].
  exists r. split; [reflexivity|].
  exact (sealed_records_are_read_back demo_draft demo_position demo_stamp 1 r (proj1 demo_draft_ok) (proj2 demo_draft_ok) E).
Defined.

Definition demo_body : string := match seal demo_draft demo_position demo_stamp 1 with Ret r => body r | Raise _ => "" end.

Lemma demo_opened : returned (open_record demo_body) = true.
Proof. vm_compute. reflexivity. Qed.

Lemma opened_record_is_well_typed_witness : ∃ r, open_record demo_body = Ret r ∧ record_ok r ∧ body r = demo_body.
Proof.
  pose proof demo_opened as H. destruct (open_record demo_body) as [r|] eqn:E; [|discriminate H].
  exists r. split; [reflexivity|]. exact (opened_record_is_well_typed demo_body r E).
Defined.
