(* ===== verification/JournalSourceThm.v ===== *)
(** * Theorems about source records

    What [source_from_json] accepts it also accepts as [source_to_json] writes
    it, and stays within the bounds of journal_source.py. *)

From Stdlib Require Import Sorting.Sorted.
From S2P Require Import Prelude PyValue PyJson Sha256 CanonJson PyBytes JsonParse JournalValue JournalSource JournalRecords.
Local Open Scope string_scope.
Local Open Scope Z_scope.
Local Open Scope list_scope.

(** ** The order of strings *)
Definition str_lt (a b : string) : Prop := String.compare a b = Lt.

#[export] Instance str_lt_trans : Transitive str_lt.
Proof.
  intros a. unfold str_lt. induction a as [|x a IH]; intros [|y b] [|z c]; cbn; try done.
  unfold Ascii.compare. destruct (N.compare_spec (N_of_ascii x) (N_of_ascii y)) as [E|E|E]; [| |done];
    destruct (N.compare_spec (N_of_ascii y) (N_of_ascii z)) as [E'|E'|E']; try done; intros H1 H2.
  - rewrite E, E', N.compare_refl. by eapply IH.
  - by rewrite E, (proj2 (N.compare_lt_iff _ _) E').
  - by rewrite <-E', (proj2 (N.compare_lt_iff _ _) E).
  - by rewrite (proj2 (N.compare_lt_iff _ _) (N.lt_trans _ _ _ E E')).
Qed.

Lemma str_lt_irrefl a : ¬ str_lt a a.
Proof. unfold str_lt. induction a as [|x a IH]; cbn; [done|]. unfold Ascii.compare. by rewrite N.compare_refl. Qed.

Lemma leb_false a b : String.leb a b = false ↔ str_lt b a.
Proof.
  unfold String.leb, str_lt. rewrite (String.compare_antisym b a). by destruct (String.compare a b).
Qed.

Lemma str_lt_NoDup xs : StronglySorted str_lt xs → NoDup xs.
Proof.
  induction 1 as [|x xs _ IH Hx]; [constructor|]. constructor; [|done]. intros Hin.
  rewrite Forall_forall in Hx. by apply (str_lt_irrefl x), Hx.
Qed.

(** ** The values of an alert *)
Definition item_values (xs : list (string * option string)) : members := map (λ kv, (kv.1, of_option DStr kv.2)) xs.

Lemma value_items_shape m prev xs : parse_value_items m prev = Ret xs →
  m = item_values xs ∧ StronglySorted str_lt xs.*1 ∧ (∀ p, prev = Some p → Forall (str_lt p) xs.*1).
Proof.
  revert prev xs. induction m as [|[k v] m IH]; intros prev xs H; cbn in H.
  { injection H as <-. split_and!; [done|constructor|by constructor]. }
  inv_do. match goal with X : match prev with _ => _ end = true |- _ => rename X into Hprev end.
  assert (∃ o rest, xs = (k, o) :: rest ∧ v = of_option DStr o ∧ parse_value_items m (Some k) = Ret rest) as (o & rest & -> & -> & Hm).
  { destruct v; try done; inv_do; injection H as <-; eexists _, _; split_and!; try done; by cbn. }
  apply IH in Hm as (-> & Hs & Hk). specialize (Hk k eq_refl). split_and!; [done|by constructor|].
  intros p ->. apply negb_true_iff, leb_false in Hprev. cbn. constructor; [done|].
  eapply Forall_impl; [exact Hk|]. intros y Hy. by transitivity k.
Qed.

Lemma members_set_fresh (m : members) k v : k ∉ m.*1 → dict_set m k v = m ++ [(k, v)].
Proof.
  induction m as [|[k' v'] m IH]; cbn; [done|]. rewrite not_elem_of_cons. intros [Hk Hm].
  rewrite decide_False by congruence. by rewrite IH.
Qed.

Lemma pairs_dict_distinct xs : NoDup xs.*1 → pairs_dict xs = item_values xs.
Proof.
  intros Hnd. unfold pairs_dict.
  cut (∀ acc : members, NoDup (acc.*1 ++ xs.*1) →
    foldl (λ m kv, dict_set m kv.1 (of_option DStr kv.2)) acc xs = acc ++ item_values xs).
  { intros H. by apply (H []). }
  clear Hnd. induction xs as [|[k o] xs IH]; intros acc Hnd; cbn; [by rewrite app_nil_r|].
  rewrite members_set_fresh.
  - rewrite IH; [by rewrite <-app_assoc|]. by rewrite fmap_app, <-app_assoc.
  - cbn in Hnd. apply NoDup_app in Hnd as (_ & Hd & _). intros Hk. apply (Hd k Hk). by left.
Qed.

Lemma parse_values_again v budget vs budget' : _parse_values v budget = Ret (vs, budget') →
  _parse_values (of_option (λ vs, DDict (pairs_dict vs)) vs) budget = Ret (vs, budget').
Proof.
  destruct v as [| | | | | |m|]; try done; cbn [_parse_values]; intros H; [by injection H as <- <-|]. inv_do.
  match goal with X : parse_value_items _ _ = Ret _ |- _ => rename X into Hm end. injection H as <- <-.
  pose proof (value_items_shape _ _ _ Hm) as (-> & Hs & _). cbn [of_option _parse_values].
  rewrite pairs_dict_distinct by by apply str_lt_NoDup. rewrite Hm. cbn [mbind outcome_bind].
  match goal with X : (_ <=? _) = true |- _ => by rewrite X end.
Qed.

(** ** Alerts *)

(** A value that was read as an optional [str] or [int]. *)
Lemma optional_str v p : is_none v || str_ok p v = true →
  of_option DStr (match v with DStr s => Some s | _ => None end) = v.
Proof. by destruct v. Qed.

Lemma text_of_checked v p : str_ok p v = true → DStr (text_of v) = v.
Proof. by destruct v. Qed.

Lemma parse_alert_again v budget alert budget' : _parse_alert v budget = Ret (alert, budget') →
  _parse_alert (_alert_to_json alert) budget = Ret (alert, budget').
Proof.
  unfold _parse_alert at 1. destruct (_exact_keys_ok v _) as [m|]; [|done]. intros H. inv_do.
  match goal with X : _parse_values _ _ = Ret ?p |- _ => destruct p as [vs b]; apply parse_values_again in X end.
  injection H as <- <-. unfold _parse_alert, _alert_to_json. cbn [fingerprint status starts_at values].
  match goal with X : is_none _ || _ = true |- _ => pose proof X as Hst; rewrite (optional_str _ _ X) end.
  match goal with X : str_ok _ (get m "fingerprint") = true |- _ => pose proof X as Hf; rewrite (text_of_checked _ _ X) end.
  match goal with X : _enum_ok (get m "status") _ = true |- _ => pose proof X as Hs; rewrite (text_of_checked _ _ X) end.
  change (_exact_keys_ok _ _) with (Some [("fingerprint", get m "fingerprint"); ("starts_at", get m "starts_at");
    ("status", get m "status"); ("values", of_option (λ vs, DDict (pairs_dict vs)) vs)]). cbn iota beta.
  set (j := [("fingerprint", _); _; _; _]).
  change (get j "fingerprint") with (get m "fingerprint"). change (get j "starts_at") with (get m "starts_at").
  change (get j "status") with (get m "status"). change (get j "values") with (of_option (λ vs, DDict (pairs_dict vs)) vs).
  rewrite Hf, Hs, Hst. cbn [check_that mbind outcome_bind].
  match goal with X : _parse_values _ _ = Ret _ |- _ => by rewrite X end.
Qed.

Lemma parse_alerts_again xs budget alerts : parse_alerts xs budget = Ret alerts →
  parse_alerts (map _alert_to_json alerts) budget = Ret alerts ∧ length alerts = length xs.
Proof.
  revert budget alerts. induction xs as [|x xs IH]; intros budget alerts H; cbn in H; [by injection H as <-|].
  inv_do. destruct a as [alert b]. inv_do. injection H as <-. cbn [map parse_alerts].
  match goal with X : _parse_alert _ _ = Ret _ |- _ => apply parse_alert_again in X; rewrite X end.
  match goal with X : parse_alerts _ _ = Ret _ |- _ => apply IH in X as [X Y] end.
  cbn [mbind outcome_bind]. match goal with Y : parse_alerts (map _ _) _ = _ |- _ => rewrite Y end. cbn. split; [done|]. by f_equal.
Qed.

Lemma parse_provenance_http v p : _parse_provenance v = Ret p → p = HTTP_PROVENANCE.
Proof.
  unfold _parse_provenance. destruct (_exact_keys_ok v _) as [m|]; [|done].
  destruct (get m "kind"), (get m "path"); try done. destruct (get m "line"); try done; intros H; inv_do; injection H as <-; by bool_simpl.
Qed.

Lemma truncated_again v : truncated_ok v = true → of_option DInt (match v with DInt z => Some z | _ => None end) = v.
Proof. by destruct v. Qed.

(** ** The whole record *)

(** The record that [source_from_json] built, and the facts it checked. *)
Record source_ok (s : SourceRecord) : Prop := {
  src_alert_count : 1 ≤ Z.of_nat (length (alerts s)) ≤ MAX_ALERTS;
  src_alerts_parse : parse_alerts (map _alert_to_json (alerts s)) 0 = Ret (alerts s);
  src_order : check_order (alerts s) None = Ret tt;
  src_truncated : truncated_ok (of_option DInt (truncated_alerts s)) = true;
  src_body_digest : _hex64_ok (DStr (body_digest s)) = true;
  src_group : _hex64_ok (DStr (source_group s)) = true;
  src_provenance : provenance s = HTTP_PROVENANCE;
  src_size : ∃ encoded, encode (source_to_json s) = Ret encoded ∧ str_len encoded ≤ MAX_SOURCE_RECORD_BYTES;
}.

Lemma source_from_json_ok v s : source_from_json v = Ret s → source_ok s.
Proof.
  unfold source_from_json. destruct (_exact_keys_ok v _) as [m|]; [|done].
  destruct (get m "alerts") as [| | | |[|x raw]| | |]; try done. intros H. inv_do.
  match goal with X : parse_alerts _ _ = Ret _ |- _ => pose proof (parse_alerts_again _ _ _ X) as [Hal Hlen] end.
  match goal with X : check_order _ _ = Ret ?u |- _ => destruct u end.
  match goal with X : _parse_provenance _ = Ret _ |- _ => apply parse_provenance_http in X end.
  injection H as <-. bool_simpl. split; cbn [alerts truncated_alerts body_digest source_group provenance]; try done.
  - rewrite Hlen. cbn [length] in *. lia.
  - by rewrite truncated_again.
  - by erewrite text_of_checked.
  - by erewrite text_of_checked.
  - eauto.
Qed.

Lemma source_ok_again s : source_ok s → source_from_json (source_to_json s) = Ret s.
Proof.
  intros [Hn Hal Hord Htr Hbd Hsg Hpr (encoded & Henc & Hsize)].
  unfold source_from_json. unfold source_to_json at 1.
  change (_exact_keys_ok _ _) with (Some [("alerts", DTuple (map _alert_to_json (alerts s))); ("body_digest", DStr (body_digest s));
    ("provenance", DDict [("kind", DStr (kind (provenance s))); ("line", of_option DInt (line (provenance s)));
                          ("path", DStr (path (provenance s)))]);
    ("source_group", DStr (source_group s)); ("truncated_alerts", of_option DInt (truncated_alerts s))]). cbn iota beta.
  set (j := [_; _; _; _; _]).
  change (get j "alerts") with (DTuple (map _alert_to_json (alerts s))).
  change (get j "truncated_alerts") with (of_option DInt (truncated_alerts s)).
  change (get j "body_digest") with (DStr (body_digest s)). change (get j "source_group") with (DStr (source_group s)).
  change (get j "provenance") with (DDict [("kind", DStr (kind (provenance s))); ("line", of_option DInt (line (provenance s)));
                          ("path", DStr (path (provenance s)))]).
  destruct (map _alert_to_json (alerts s)) as [|x raw] eqn:E.
  { destruct (alerts s); [cbn in Hn; lia|done]. }
  rewrite <-E, length_map. rewrite (proj2 (Z.leb_le _ _)) by lia. cbn [check_that mbind outcome_bind].
  rewrite E, Hal. cbn [mbind outcome_bind].
  rewrite Hord, Htr, Hbd, Hpr, Hsg. cbn [check_that mbind outcome_bind text_of].
  change (_parse_provenance _) with (Ret HTTP_PROVENANCE). cbn [mbind outcome_bind].
  replace {| source_group := source_group s; alerts := alerts s;
    truncated_alerts := match of_option DInt (truncated_alerts s) with DInt z => Some z | _ => None end;
    body_digest := body_digest s; provenance := HTTP_PROVENANCE |} with s
    by (destruct s as [? ? [] ? ?]; cbn in *; by rewrite Hpr).
  rewrite Henc. cbn [mbind outcome_bind]. by rewrite (proj2 (Z.leb_le _ _)).
Qed.

Lemma check_order_sorted xs prev : check_order xs prev = Ret tt →
  StronglySorted str_lt (map fingerprint xs) ∧ (∀ p, prev = Some p → Forall (str_lt p) (map fingerprint xs)).
Proof.
  revert prev. induction xs as [|x xs IH]; intros prev H; [split; [constructor|by constructor]|].
  assert (check_order xs (Some (fingerprint x)) = Ret tt ∧ ∀ p, prev = Some p → str_lt p (fingerprint x)) as [Hxs Hp].
  { cbn in H. destruct prev as [p|]; [|done]. destruct (String.leb _ _) eqn:E; [done|]. split; [done|].
    intros ? [= <-]. by apply leb_false. }
  destruct (IH _ Hxs) as [Hs Hall]. specialize (Hall _ eq_refl). split; [by constructor|].
  intros p Hprev. specialize (Hp p Hprev). cbn. constructor; [done|].
  eapply Forall_impl; [exact Hall|]. intros y Hy. by transitivity (fingerprint x).
Qed.

Lemma source_fingerprints s : source_ok s → StronglySorted str_lt (map fingerprint (alerts s)).
Proof. intros H. apply (check_order_sorted _ _ (src_order s H)). Qed.

Definition value_count (alert : SourceAlert) : Z := Z.of_nat (length (default [] (values alert))).
Definition value_total (xs : list SourceAlert) : Z := foldr (λ alert acc, value_count alert + acc) 0 xs.

Lemma parse_alert_budget v budget alert budget' : _parse_alert v budget = Ret (alert, budget') →
  budget' = budget + value_count alert ∧ (budget ≤ MAX_VALUES → budget' ≤ MAX_VALUES).
Proof.
  unfold _parse_alert. destruct (_exact_keys_ok v _) as [m|]; [|done]. intros H. inv_do.
  match goal with X : _parse_values _ _ = Ret ?p |- _ => destruct p as [vs b]; rename X into Hv end.
  injection H as <- <-. unfold value_count. cbn [values]. destruct (get m "values"); try done; cbn in Hv.
  - injection Hv as <- <-. cbn. lia.
  - inv_do. injection Hv as <- <-. bool_simpl. cbn. lia.
Qed.

Lemma parse_alerts_budget xs budget alerts : parse_alerts xs budget = Ret alerts → budget ≤ MAX_VALUES →
  budget + value_total alerts ≤ MAX_VALUES.
Proof.
  revert budget alerts. induction xs as [|x xs IH]; intros budget alerts H Hb; cbn in H; [injection H as <-; cbn; lia|].
  inv_do. destruct a as [alert b]. inv_do. injection H as <-. cbn [value_total foldr].
  match goal with X : _parse_alert _ _ = Ret _ |- _ => apply parse_alert_budget in X as [-> Hb'] end.
  match goal with X : parse_alerts _ _ = Ret _ |- _ => apply IH in X; [|by apply Hb'] end. unfold value_total in *. lia.
Qed.

(** A source record that was accepted is canonical and bounded.  When
    [source_from_json] returns a record, the record's own JSON form is read as
    the same record, [validate_source] accepts it, its fingerprints are strictly
    increasing, it has 1 to 32 alerts with at most 64 values in all, and its
    canonical encoding has at most 4096 bytes. *)
Theorem accepted_source_is_canonical v s : source_from_json v = Ret s →
  source_from_json (source_to_json s) = Ret s ∧ validate_source s = Ret s ∧
  StronglySorted str_lt (map fingerprint (alerts s)) ∧ 1 ≤ Z.of_nat (length (alerts s)) ≤ MAX_ALERTS ∧
  value_total (alerts s) ≤ MAX_VALUES ∧
  ∃ encoded, encode (source_to_json s) = Ret encoded ∧ str_len encoded ≤ MAX_SOURCE_RECORD_BYTES.
Proof.
  intros H%source_from_json_ok. pose proof (source_ok_again s H) as Hagain. split_and!; try done.
  - unfold validate_source. rewrite Hagain. cbn [mbind outcome_bind]. by rewrite bool_decide_true.
  - by apply source_fingerprints.
  - by apply H.
  - by apply H.
  - apply (parse_alerts_budget _ 0 _ (src_alerts_parse s H)). done.
  - by apply H.
Qed.

Definition hex_of (c : string) : string := String.concat "" (repeat c 64).
Definition demo_source_value : value :=
  DDict [("alerts", DTuple [
           DDict [("fingerprint", DStr "aa"); ("starts_at", DStr "2024-01-01T00:00:00Z"); ("status", DStr "firing");
                  ("values", DDict [("A", DStr "1.5"); ("B", DNone)])];
           DDict [("fingerprint", DStr "bb"); ("starts_at", DNone); ("status", DStr "resolved"); ("values", DNone)]]);
         ("body_digest", DStr (hex_of "a"));
         ("provenance", DDict [("kind", DStr "http"); ("line", DNone); ("path", DStr "/notification")]);
         ("source_group", DStr (hex_of "b")); ("truncated_alerts", DInt 0)].

Lemma demo_source_accepted : returned (source_from_json demo_source_value) = true.
Proof. vm_compute. reflexivity. Qed.

Lemma accepted_source_is_canonical_witness : ∃ s,
  source_from_json demo_source_value = Ret s ∧ validate_source s = Ret s.
Proof.
  pose proof demo_source_accepted as H. destruct (source_from_json demo_source_value) as [s|] eqn:E; [|discriminate H].
  exists s. split; [reflexivity|]. exact (proj1 (proj2 (accepted_source_is_canonical demo_source_value s E))).
Defined.
