(* ===== verification/JournalState.v ===== *)
(** * The journal's projection (journal_reducer.py)

    What a history of records amounts to: [Projection] is the fold state,
    [Delta] the change one commit makes to it, [apply_delta] makes it.  The
    dicts the code only looks up, extends and sorts are [gmap]s.  At most one of
    the [_add] fields of a [Delta] is set; here they are the constructors of
    [change].  The fields that only claim records write form [Claims]. *)

From S2P Require Import Prelude PyValue PyJson Sha256 CanonJson PyBytes JsonParse JournalValue JournalSource JournalRecords.
From S2P Require Import JournalClaims JournalSeal.
From S2P Require RunOutcome.
Local Open Scope string_scope.
Local Open Scope Z_scope.
Local Open Scope list_scope.

Definition ReplayError (code : string) : exn := Exn "ReplayError" code.
Definition _fail_replay {A} (code : string) : outcome A := Raise (ReplayError code).
Definition replay_check (ok : bool) (code : string) : outcome unit := check_that ok (ReplayError code).

Definition RECORD_OVERHEAD_BYTES : Z := 384.

(** ** Values *)
Record JournalBounds := {
  max_admissions : Z;
  max_pending_fingerprints : Z;
  ordinary_bytes : Z;
  total_bytes : Z;
}.

Record Baseline := {
  bl_admission_id : string;
  bl_dedupe_key : string;
  bl_complete : bool;
}.

Record PendingEntry := {
  pe_fingerprint : string;
  pe_admission_id : string;
  pe_arrival_seq : Z;
  pe_source_group : string;
  pe_status : string;
  pe_values : option (list (string * option string));
}.

Record RunHold := {
  rh_admission_id : string;
  rh_reason : string;
  rh_since_commit_seq : Z;
  rh_member_digest : string;
}.

Record ReservationIntentClaim := {
  ri_journal_uuid : string; ri_journal_generation : Z; ri_admission_id : string; ri_job_id : string;
  ri_intent_id : string; ri_attempt_id : string; ri_reservation_id : string; ri_run_id : string; ri_lease_id : string;
  ri_intent_digest : string; ri_based_on_commit_seq : Z; ri_committed_at_seq : Z;
}.

(** [InitialReservationIntentClaim] has the members as well. *)
Record InitialReservationIntentClaim := {
  ii_claim : ReservationIntentClaim;
  ii_member_count : Z;
  ii_member_digest : string;
}.

Record ReservationConfirmationClaim := {
  rc_intent_id : string; rc_confirmation_event_id : string; rc_intent_digest : string; rc_ledger_uuid : string;
  rc_ledger_generation : Z; rc_ledger_event_id : string; rc_sequence : Z; rc_event_digest : string; rc_committed_at_seq : Z;
}.

(** [(service, lease_claim_id, scope_digest)] *)
Record ServiceRow := { sr_service : string; sr_lease_claim_id : string; sr_scope_digest : string }.

Record RunIntentClaim := {
  rn_run_intent_id : string; rn_journal_uuid : string; rn_journal_generation : Z; rn_admission_id : string; rn_job_id : string;
  rn_intent_id : string; rn_attempt_id : string; rn_reservation_id : string; rn_run_id : string; rn_model_lease_id : string;
  rn_initial_intent_digest : string; rn_confirmation_event_id : string; rn_ledger_uuid : string; rn_ledger_generation : Z;
  rn_ledger_event_id : string; rn_ledger_sequence : Z; rn_ledger_event_digest : string; rn_ledger_head_sequence : Z;
  rn_ledger_head_digest : string; rn_member_count : Z; rn_member_digest : string; rn_services : list ServiceRow;
  rn_run_intent_digest : string; rn_committed_at_seq : Z;
}.

(** [(service, lease_claim_id, scope_digest, grant_id, expiry_us)] *)
Record GrantRow := { gr_row : ServiceRow; gr_grant_id : string; gr_expiry_us : Z }.

Record LaunchClaim := {
  lc_launch_claim_id : string; lc_run_intent_id : string; lc_run_intent_digest : string; lc_journal_uuid : string;
  lc_admission_id : string; lc_job_id : string; lc_intent_id : string; lc_attempt_id : string; lc_reservation_id : string;
  lc_run_id : string; lc_model_lease_id : string; lc_receiver_boot_id : string; lc_forwarder_generation : string;
  lc_barrier_token_digest : string; lc_origin_us : Z; lc_work_deadline_us : Z; lc_flush_deadline_us : Z;
  lc_hard_deadline_us : Z; lc_grants : list GrantRow; lc_launch_claim_digest : string; lc_committed_at_seq : Z;
}.

Record SpawnAttestationClaim := {
  sa_event_id : string; sa_claim_digest : string; sa_launch_claim_id : string; sa_run_id : string; sa_attempt_id : string;
  sa_receiver_boot_id : string; sa_observed_us : Z; sa_witness_locator : string; sa_witness_identity_digest : string;
  sa_committed_at_seq : Z;
}.

(** [(service, grant_id, activation_digest, activation_us)] *)
Record ActivationRow := { ac_service : string; ac_grant_id : string; ac_digest : string; ac_us : Z }.

Record ReleaseIntentClaim := {
  rl_event_id : string; rl_claim_digest : string; rl_spawn_attestation_id : string; rl_receiver_boot_id : string;
  rl_intended_release_us : Z; rl_activated_grants : list ActivationRow; rl_committed_at_seq : Z;
}.

Record ReleaseObservationClaim := {
  ro_event_id : string; ro_claim_digest : string; ro_release_intent_id : string; ro_receiver_boot_id : string;
  ro_observed_us : Z; ro_committed_at_seq : Z;
}.

Record EffectIntentClaim := {
  ei_event_id : string; ei_claim_digest : string; ei_operation_id : string; ei_run_id : string; ei_attempt_id : string;
  ei_receiver_boot_id : string; ei_forwarder_generation : string; ei_service : string; ei_route_id : string;
  ei_grant_id : string; ei_scope_digest : string; ei_flight_id : string; ei_forwarder_receipt_id : string;
  ei_request_digest : string; ei_target_digest : string; ei_observed_us : Z; ei_expires_us : Z; ei_committed_at_seq : Z;
}.

Record EffectReceiptClaim := {
  er_event_id : string; er_claim_digest : string; er_operation_id : string; er_intent_event_id : string;
  er_receiver_boot_id : string; er_claimed_dispatch_state : string; er_claimed_reason : string;
  er_finalized_receipt_digest : string; er_observed_us : Z; er_committed_at_seq : Z;
}.

Record SupervisionActionIntentClaim := {
  si_event_id : string; si_claim_digest : string; si_action_id : string; si_action_kind : string; si_phase : string;
  si_phase_event_id : string; si_service : option string; si_grant_id : option string; si_observed_us : Z;
  si_committed_at_seq : Z;
}.

Record SupervisionActionResultClaim := {
  so_event_id : string; so_claim_digest : string; so_action_id : string; so_intent_event_id : string;
  so_claimed_outcome : string; so_observed_us : Z; so_committed_at_seq : Z;
}.

Record ProcessObservationClaim := {
  po_event_id : string; po_claim_digest : string; po_launch_claim_id : string; po_receiver_boot_id : string;
  po_facts : RunOutcome.ProcessFacts; po_source_digest : string; po_observed_us : Z; po_committed_at_seq : Z;
}.

(** The fields a terminal record copies from its data are [value]s. *)
Record TerminalObservationClaim := {
  to_event_id : string; to_claim_digest : string; to_process_event_id : string; to_receiver_boot_id : string;
  to_count_class : string; to_quality : value; to_invalidity_code : value; to_subtype : value; to_is_error : value;
  to_reason_code : value; to_usage_state : value; to_source_digest : value; to_observed_us : Z; to_committed_at_seq : Z;
}.

Record ExecutionAssessmentClaim := {
  ea_event_id : string; ea_claim_digest : string; ea_process_event_id : string; ea_terminal_event_id : string;
  ea_receiver_boot_id : string; ea_assessment : RunOutcome.ExecutionAssessment; ea_observed_us : Z; ea_committed_at_seq : Z;
}.

Record ReconciliationObservationClaim := {
  rb_event_id : string; rb_claim_digest : string; rb_operation_id : string; rb_intent_event_id : string;
  rb_receiver_boot_id : string; rb_observation_index : Z; rb_source_kind : string; rb_reported_state : string;
  rb_source_evidence_digest : string; rb_target_digest : string; rb_version_digest : option string; rb_observed_us : Z;
  rb_committed_at_seq : Z;
}.

(** [RestartReconciliationClaim] names the restart as well. *)
Record RestartReconciliationClaim := {
  rr_claim : ReconciliationObservationClaim;
  rr_prior_effect_boot_id : string;
  rr_restart_commit_seq : Z;
  rr_restart_record_digest : string;
}.

Record CapacityRefusal := {
  rf_code : string;
  rf_limit : Z;
  rf_observed : Z;
  rf_requested : Z;
}.

(** [RefusalNotRecorded(reason)] *)
Inductive RefusalNotRecorded := Coalesced | Limit | NoRoom.

Record Plan := {
  pl_records : list JournalRecord;
  pl_charge : Z;
  pl_outcome : members;
}.

(** ** The projection *)
Record Claims := {
  c_run_holds : gmap string RunHold;
  c_intents : gmap string ReservationIntentClaim;
  c_confirmations : gmap string ReservationConfirmationClaim;
  c_initial_intents : gmap string InitialReservationIntentClaim;
  c_initial_confirmations : gmap string ReservationConfirmationClaim;
  c_run_intent : option RunIntentClaim;
  c_launch_claim : option LaunchClaim;
  c_spawn_attestation : option SpawnAttestationClaim;
  c_release_intent : option ReleaseIntentClaim;
  c_release_observation : option ReleaseObservationClaim;
  c_effect_intents : gmap string EffectIntentClaim;
  c_effect_receipts : gmap string EffectReceiptClaim;
  c_supervision_action_intents : gmap string SupervisionActionIntentClaim;
  c_supervision_action_results : gmap string SupervisionActionResultClaim;
  c_process_observation : option ProcessObservationClaim;
  c_terminal_observation : option TerminalObservationClaim;
  c_execution_assessment : option ExecutionAssessmentClaim;
  c_reconciliation_observations : gmap string (list ReconciliationObservationClaim);
  c_restart_reconciliations : gmap string (list RestartReconciliationClaim);
}.

Record Projection := {
  p_journal_uuid : option string;
  p_generation : Z;
  p_bounds : option JournalBounds;
  p_head : option Head;
  p_boot_id : option string;
  p_last_mono_us : Z;
  p_seen_boot_ids : gset string;
  p_logical_bytes : Z;
  p_admission_count : Z;
  p_last_arrival_seq : Z;
  p_baselines : gmap string Baseline;
  p_pending : gmap string PendingEntry;
  p_claims : Claims;
  p_dispatch_holds : gmap string Z;
  p_refusal_keys : gset string;
  p_refusal_count : Z;
  p_refusal_unreserved_count : Z;
  p_resume_count : Z;
  p_last_resume_commit_seq : option Z;
  p_boot_start_commit_seq : option Z;
  p_boot_start_record_digest : option string;
  p_boot_recovered : option Head;
}.

Definition no_claims : Claims :=
  {| c_run_holds := ∅; c_intents := ∅; c_confirmations := ∅; c_initial_intents := ∅; c_initial_confirmations := ∅;
     c_run_intent := None; c_launch_claim := None; c_spawn_attestation := None; c_release_intent := None;
     c_release_observation := None; c_effect_intents := ∅; c_effect_receipts := ∅; c_supervision_action_intents := ∅;
     c_supervision_action_results := ∅; c_process_observation := None; c_terminal_observation := None;
     c_execution_assessment := None; c_reconciliation_observations := ∅; c_restart_reconciliations := ∅ |}.

Definition new_projection : Projection :=
  {| p_journal_uuid := None; p_generation := 0; p_bounds := None; p_head := None; p_boot_id := None; p_last_mono_us := 0;
     p_seen_boot_ids := ∅; p_logical_bytes := 0; p_admission_count := 0; p_last_arrival_seq := 0; p_baselines := ∅;
     p_pending := ∅; p_claims := no_claims; p_dispatch_holds := ∅; p_refusal_keys := ∅; p_refusal_count := 0;
     p_refusal_unreserved_count := 0; p_resume_count := 0; p_last_resume_commit_seq := None; p_boot_start_commit_seq := None;
     p_boot_start_record_digest := None; p_boot_recovered := None |}.

(** [any((p.run_holds, ...))]: whether some claim field is set or not empty. *)
Definition filled {A} (m : gmap string A) : bool := negb (Nat.eqb (size m) 0).
Definition private_claims_outstanding (p : Projection) : bool :=
  let c := p_claims p in
  filled (c_run_holds c) || filled (c_intents c) || filled (c_confirmations c) ||
  filled (c_initial_intents c) || filled (c_initial_confirmations c) ||
  some_b (c_run_intent c) || some_b (c_launch_claim c) || some_b (c_spawn_attestation c) ||
  some_b (c_release_intent c) || some_b (c_release_observation c) ||
  filled (c_effect_intents c) || filled (c_effect_receipts c) ||
  filled (c_supervision_action_intents c) || filled (c_supervision_action_results c) ||
  some_b (c_process_observation c) || some_b (c_terminal_observation c) || some_b (c_execution_assessment c) ||
  filled (c_reconciliation_observations c) || filled (c_restart_reconciliations c).

(** ** Changes *)
Inductive change :=
| NoChange
| DispatchHoldAdd (code : string) (commit_seq : Z)
| RefusalKeyAdd (key : string) (unreserved : bool)
| DispatchHoldClear (hold : string) (resume_commit_seq : Z)
| RunHoldAdd (job_id : string) (held : RunHold)
| ReservationIntentAdd (c : ReservationIntentClaim)
| ReservationConfirmationAdd (c : ReservationConfirmationClaim)
| InitialReservationIntentAdd (c : InitialReservationIntentClaim)
| InitialReservationConfirmationAdd (c : ReservationConfirmationClaim)
| RunIntentAdd (c : RunIntentClaim)
| LaunchClaimAdd (c : LaunchClaim)
| SpawnAttestationAdd (c : SpawnAttestationClaim)
| ReleaseIntentAdd (c : ReleaseIntentClaim)
| ReleaseObservationAdd (c : ReleaseObservationClaim)
| EffectIntentAdd (c : EffectIntentClaim)
| EffectReceiptAdd (c : EffectReceiptClaim)
| SupervisionActionIntentAdd (c : SupervisionActionIntentClaim)
| SupervisionActionResultAdd (c : SupervisionActionResultClaim)
| ProcessObservationAdd (c : ProcessObservationClaim)
| TerminalObservationAdd (c : TerminalObservationClaim)
| ExecutionAssessmentAdd (c : ExecutionAssessmentClaim)
| ReconciliationObservationAdd (c : ReconciliationObservationClaim)
| RestartReconciliationAdd (c : RestartReconciliationClaim).

Record Delta := {
  d_head : Head;
  d_generation : Z;
  d_journal_uuid : option string;
  d_bounds : option JournalBounds;
  d_boot_id : string;
  d_last_mono_us : Z;
  d_new_boot_id : option string;
  d_logical_bytes : Z;
  d_admission_count : Z;
  d_last_arrival_seq : Z;
  d_baseline_update : option (string * Baseline);
  d_pending_updates : list (string * PendingEntry);
  d_change : change;
}.

(** ** [apply_delta] *)

(** The claim fields after a change. *)
Definition apply_claim (c : Claims) (d : change) : Claims :=
  let '(Build_Claims holds intents confs iintents iconfs ri lc sa rl ro ei er si so po to ea rb rr) := c in
  let mk := Build_Claims in
  match d with
  | RunHoldAdd job held => mk (<[job := held]> holds) intents confs iintents iconfs ri lc sa rl ro ei er si so po to ea rb rr
  | ReservationIntentAdd x =>
      mk holds (<[ri_intent_id x := x]> intents) confs iintents iconfs ri lc sa rl ro ei er si so po to ea rb rr
  | ReservationConfirmationAdd x =>
      mk holds intents (<[rc_intent_id x := x]> confs) iintents iconfs ri lc sa rl ro ei er si so po to ea rb rr
  | InitialReservationIntentAdd x =>
      mk holds intents confs (<[ri_intent_id (ii_claim x) := x]> iintents) iconfs ri lc sa rl ro ei er si so po to ea rb rr
  | InitialReservationConfirmationAdd x =>
      mk holds intents confs iintents (<[rc_intent_id x := x]> iconfs) ri lc sa rl ro ei er si so po to ea rb rr
  | RunIntentAdd x => mk holds intents confs iintents iconfs (Some x) lc sa rl ro ei er si so po to ea rb rr
  | LaunchClaimAdd x => mk holds intents confs iintents iconfs ri (Some x) sa rl ro ei er si so po to ea rb rr
  | SpawnAttestationAdd x => mk holds intents confs iintents iconfs ri lc (Some x) rl ro ei er si so po to ea rb rr
  | ReleaseIntentAdd x => mk holds intents confs iintents iconfs ri lc sa (Some x) ro ei er si so po to ea rb rr
  | ReleaseObservationAdd x => mk holds intents confs iintents iconfs ri lc sa rl (Some x) ei er si so po to ea rb rr
  | EffectIntentAdd x =>
      mk holds intents confs iintents iconfs ri lc sa rl ro (<[ei_operation_id x := x]> ei) er si so po to ea rb rr
  | EffectReceiptAdd x =>
      mk holds intents confs iintents iconfs ri lc sa rl ro ei (<[er_operation_id x := x]> er) si so po to ea rb rr
  | SupervisionActionIntentAdd x =>
      mk holds intents confs iintents iconfs ri lc sa rl ro ei er (<[si_action_id x := x]> si) so po to ea rb rr
  | SupervisionActionResultAdd x =>
      mk holds intents confs iintents iconfs ri lc sa rl ro ei er si (<[so_action_id x := x]> so) po to ea rb rr
  | ProcessObservationAdd x => mk holds intents confs iintents iconfs ri lc sa rl ro ei er si so (Some x) to ea rb rr
  | TerminalObservationAdd x => mk holds intents confs iintents iconfs ri lc sa rl ro ei er si so po (Some x) ea rb rr
  | ExecutionAssessmentAdd x => mk holds intents confs iintents iconfs ri lc sa rl ro ei er si so po to (Some x) rb rr
  | ReconciliationObservationAdd x =>
      let prior := default [] (rb !! rb_operation_id x) in
      mk holds intents confs iintents iconfs ri lc sa rl ro ei er si so po to ea (<[rb_operation_id x := prior ++ [x]]> rb) rr
  | RestartReconciliationAdd x =>
      let prior := default [] (rr !! rb_operation_id (rr_claim x)) in
      mk holds intents confs iintents iconfs ri lc sa rl ro ei er si so po to ea rb
        (<[rb_operation_id (rr_claim x) := prior ++ [x]]> rr)
  | _ => c
  end.

Definition apply_holds (holds : gmap string Z) (d : change) : gmap string Z :=
  match d with
  | DispatchHoldAdd code commit_seq => if some_b (holds !! code) then holds else <[code := commit_seq]> holds
  | DispatchHoldClear hold _ => delete hold holds
  | _ => holds
  end.

(** [a if a is not None else b]. *)
Definition or_else {A} (a b : option A) : option A := match a with Some _ => a | None => b end.

Definition apply_delta (p : Projection) (d : Delta) : Projection :=
  let new_boot := some_b (d_new_boot_id d) in
  {| p_journal_uuid := or_else (d_journal_uuid d) (p_journal_uuid p);
     p_generation := d_generation d;
     p_bounds := or_else (d_bounds d) (p_bounds p);
     p_head := Some (d_head d);
     p_boot_id := Some (d_boot_id d);
     p_last_mono_us := d_last_mono_us d;
     p_seen_boot_ids := match d_new_boot_id d with Some b => {[b]} ∪ p_seen_boot_ids p | None => p_seen_boot_ids p end;
     p_logical_bytes := d_logical_bytes d;
     p_admission_count := d_admission_count d;
     p_last_arrival_seq := d_last_arrival_seq d;
     p_baselines := match d_baseline_update d with Some (group, b) => <[group := b]> (p_baselines p) | None => p_baselines p end;
     p_pending := foldl (λ m kv, <[kv.1 := kv.2]> m) (p_pending p) (d_pending_updates d);
     p_claims := apply_claim (p_claims p) (d_change d);
     p_dispatch_holds := apply_holds (p_dispatch_holds p) (d_change d);
     p_refusal_keys := match d_change d with RefusalKeyAdd key _ => {[key]} ∪ p_refusal_keys p | _ => p_refusal_keys p end;
     p_refusal_count := match d_change d with RefusalKeyAdd _ _ => p_refusal_count p + 1 | _ => p_refusal_count p end;
     p_refusal_unreserved_count :=
       match d_change d with RefusalKeyAdd _ true => p_refusal_unreserved_count p + 1 | _ => p_refusal_unreserved_count p end;
     p_resume_count := match d_change d with DispatchHoldClear _ _ => p_resume_count p + 1 | _ => p_resume_count p end;
     p_last_resume_commit_seq :=
       match d_change d with DispatchHoldClear _ seq => Some seq | _ => p_last_resume_commit_seq p end;
     p_boot_start_commit_seq := if new_boot then Some (hd_commit_seq (d_head d)) else p_boot_start_commit_seq p;
     p_boot_start_record_digest := if new_boot then Some (hd_record_digest (d_head d)) else p_boot_start_record_digest p;
     p_boot_recovered := if new_boot then p_head p else p_boot_recovered p |}.

(** ** Digests of the projection *)
Definition keys_of {A} (m : gmap string A) : list string := (map_to_list m).*1.
Definition values_of {A} (m : gmap string A) : list A := (map_to_list m).*2.

(** [dict(values)]. *)
Definition _values_json (values : option (list (string * option string))) : value :=
  of_option (λ vs, DDict (pairs_dict vs)) values.

Definition _list_digest (tag : string) (items : list value) : outcome string :=
  canonical_items ← collect encode items;
  let leaves := String.concat "" (map sha256_digest (sorted canonical_items)) in
  let header := tag +:+ nul +:+ string_of_bytes (be_bytes 4 (Z.of_nat (length canonical_items))) in
  Ret (sha256_hex (header +:+ leaves)).

Definition pending_item (e : PendingEntry) : value :=
  DList [DStr (pe_fingerprint e); DStr (pe_admission_id e); DInt (pe_arrival_seq e); DStr (pe_source_group e);
         DStr (pe_status e); _values_json (pe_values e)].
Definition pending_digest (p : Projection) : outcome string :=
  _list_digest "rj.pending-set.v1" (map pending_item (values_of (p_pending p))).

Definition dispatch_holds (p : Projection) : list string := sorted (keys_of (p_dispatch_holds p)).

Definition state_digest (p : Projection) : outcome string :=
  let head := of_option (λ h, DDict [("commit_seq", DInt (hd_commit_seq h)); ("event_seq", DInt (hd_event_seq h));
    ("generation", DInt (hd_generation h)); ("record_digest", DStr (hd_record_digest h))]) (p_head p) in
  let hold_items := map (λ kv, DList [DStr kv.1; DInt kv.2]) (sort_keys (map_to_list (p_dispatch_holds p))) in
  pending ← pending_digest p;
  baselines ← _list_digest "rj.baseline-set.v1"
    (map (λ kv, DList [DStr kv.1; DStr (bl_admission_id kv.2); DBool (bl_complete kv.2); DStr (bl_dedupe_key kv.2)])
      (map_to_list (p_baselines p)));
  tagged_digest "rj.state.v1" (to_json (DDict
    [("journal_uuid", of_option DStr (p_journal_uuid p)); ("generation", DInt (p_generation p)); ("head", head);
     ("admission_count", DInt (p_admission_count p)); ("last_arrival_seq", DInt (p_last_arrival_seq p));
     ("logical_bytes", DInt (p_logical_bytes p)); ("dispatch_holds", DList hold_items); ("pending_digest", DStr pending);
     ("baseline_digest", DStr baselines)])).

Definition FRONT_DOOR_STATE_TAG : string := "rj.front-door-state.v1".
Definition front_door_digest (p : Projection) : outcome string :=
  keys ← _list_digest "rj.refusal-key-set.v1" (map DStr (elements (p_refusal_keys p)));
  tagged_digest FRONT_DOOR_STATE_TAG (to_json (DDict
    [("refusal_count", DInt (p_refusal_count p)); ("refusal_unreserved_count", DInt (p_refusal_unreserved_count p));
     ("refusal_keys_digest", DStr keys); ("resume_count", DInt (p_resume_count p));
     ("last_resume_commit_seq", of_option DInt (p_last_resume_commit_seq p))])).
