(* ===== verification/JournalPlan.v ===== *)
(** * Planning front-door commits (journal_reducer.py)

    A plan function turns a projection and fresh inputs into the sealed records
    of one commit, or says why none is made: [inl] a plan, [inr] a refusal.
    [the] is the attribute access [p.head.x] or [p.bounds.x], which raises when
    the projection has no head or bounds yet.  The [outcome] of a plan is a dict
    that callers only report; the genesis outcome holds the bounds as a dict. *)

From S2P Require Import Prelude PyValue PyJson Sha256 CanonJson PyBytes JsonParse JournalValue JournalSource JournalRecords.
From S2P Require Import JournalClaims JournalSeal JournalState.
Local Open Scope string_scope.
Local Open Scope Z_scope.
Local Open Scope list_scope.

Definition REFUSAL_KEY_TAG : string := "rj.refusal-key.v1".
Definition _REFUSAL_KEY_FIELDS : list string :=
  ["alerts"; "code"; "members"; "members_omitted"; "refused_group"; "resolved"; "source_group"].
Definition MAX_RUN_HOLDS : Z := 1024.
Definition RUN_HOLD_MEMBERS_TAG : string := "rj.run-hold-members.v2".

(** ** Projection attributes *)
Definition AttributeError : exn := Exn "AttributeError" "".
Definition the {A} (o : option A) : outcome A := match o with Some a => Ret a | None => Raise AttributeError end.

(** [p.head is None or p.bounds is None or p.boot_id != stamp.boot_id], negated. *)
Definition ready (p : Projection) (stamp : Stamp) : bool :=
  some_b (p_head p) && some_b (p_bounds p) && bool_decide (p_boot_id p = Some (boot_id stamp)).

Definition mismatch (ok : bool) : outcome unit := replay_check ok "replay_mismatch".

Definition CAPACITY_BYTES : string := "capacity_bytes".
Definition str_opt (o : option string) : value := of_option DStr o.
Definition pending_len (p : Projection) : Z := Z.of_nat (size (p_pending p)).

(** ** The decision *)
Record _Decision := {
  dn_result : string;
  baseline_before : option Baseline;
  baseline_after : Baseline;
  superseded : list (string * string);
  new_pending : Z;
}.

(** [(alert.fingerprint, p.pending[...].admission_id)] of the alerts whose
    pending entry passes a test, sorted.  Equal fingerprints have equal
    admission ids, so sorting by fingerprint sorts the pairs. *)
Definition pending_pairs (p : Projection) (keep : PendingEntry → bool) (source : SourceRecord) : list (string * string) :=
  sort_keys (omap (λ alert,
    match p_pending p !! fingerprint alert with
    | Some entry => if keep entry then Some (fingerprint alert, pe_admission_id entry) else None
    | None => None
    end) (alerts source)).

Definition _decide (p : Projection) (source : SourceRecord) (admission_id : string) : outcome _Decision :=
  key ← dedupe_key source;
  let group := source_group source in
  let complete := bool_decide (truncated_alerts source = Some 0) in
  let before := p_baselines p !! group in
  let fresh :=
    let superseded := pending_pairs p (λ _, true) source in
    {| dn_result := if decide (superseded = []) then "admitted" else "pending_reduced";
       baseline_before := before;
       baseline_after := {| bl_admission_id := admission_id; bl_dedupe_key := key; bl_complete := complete |};
       superseded := superseded;
       new_pending := Z.of_nat (length (alerts source)) - Z.of_nat (length superseded) |} in
  match before with
  | Some b =>
      if complete && bl_complete b && bool_decide (bl_dedupe_key b = key) then
        Ret {| dn_result := "suppressed"; baseline_before := before; baseline_after := b;
               superseded := pending_pairs p (λ e, negb (bool_decide (pe_source_group e = group))) source;
               new_pending := 0 |}
      else Ret fresh
  | None => Ret fresh
  end.

Definition suppressed (d : _Decision) : bool := bool_decide (dn_result d = "suppressed").

Definition _baseline_json (baseline : option Baseline) : value :=
  of_option (λ b, DDict [("admission_id", DStr (bl_admission_id b)); ("complete", DBool (bl_complete b));
    ("dedupe_key", DStr (bl_dedupe_key b))]) baseline.

Definition _superseded_json (superseded : list (string * string)) : value :=
  DTuple (map (λ kv, DDict [("admission_id", DStr kv.2); ("fingerprint", DStr kv.1)]) superseded).

Definition _pending_count_after (p : Projection) (decision : _Decision) : Z :=
  if suppressed decision then pending_len p else pending_len p + new_pending decision.

(** [alerts_by_fingerprint]: the last alert with a fingerprint. *)
Definition alert_of (source : SourceRecord) (fp : string) : option SourceAlert :=
  foldl (λ found alert, if decide (fingerprint alert = fp) then Some alert else found) None (alerts source).

Definition _pending_updates (p : Projection) (source : SourceRecord) (decision : _Decision)
    (admission_id : string) (arrival_seq : Z) : outcome (list (string * PendingEntry)) :=
  let fingerprints := if suppressed decision then (superseded decision).*1 else map fingerprint (alerts source) in
  collect (λ fp,
    match alert_of source fp with
    | None => Raise (Exn "KeyError" "")
    | Some alert => Ret (fp, {| pe_fingerprint := fp; pe_admission_id := admission_id; pe_arrival_seq := arrival_seq;
        pe_source_group := source_group source; pe_status := status alert; pe_values := values alert |})
    end) fingerprints.

(** ** Sealing one record after the head *)
Definition _single_position (p : Projection) : outcome Position :=
  head ← the (p_head p);
  Ret {| journal_generation := p_generation p; event_seq := hd_event_seq head + 1; commit_seq := hd_commit_seq head + 1;
         commit_index := 0; commit_size := 1; prev_record_digest := hd_record_digest head |}.

Definition record_charge (r : JournalRecord) : Z := str_len (body r) + RECORD_OVERHEAD_BYTES.

(** The end of a plan function: refused when the commit does not fit. *)
Definition within_region (p : Projection) (region : JournalBounds → Z) (records : list JournalRecord) (out : members) :
    outcome (Plan + CapacityRefusal) :=
  let charge := foldr (λ r acc, record_charge r + acc) 0 records in
  bounds ← the (p_bounds p);
  if region bounds <? p_logical_bytes p + charge
  then Ret (inr {| rf_code := CAPACITY_BYTES; rf_limit := region bounds; rf_observed := p_logical_bytes p; rf_requested := charge |})
  else Ret (inl {| pl_records := records; pl_charge := charge; pl_outcome := out |}).

Definition head_json (head : Head) : value :=
  DDict [("commit_seq", DInt (hd_commit_seq head)); ("event_seq", DInt (hd_event_seq head));
         ("record_digest", DStr (hd_record_digest head))].

(** ** Plan functions *)
Definition bounds_json (b : JournalBounds) : value :=
  DDict [("max_admissions", DInt (max_admissions b)); ("max_pending_fingerprints", DInt (max_pending_fingerprints b));
         ("ordinary_bytes", DInt (ordinary_bytes b)); ("total_bytes", DInt (total_bytes b))].

Definition plan_genesis (journal_uuid : string) (bounds : JournalBounds) (event_id : string) (stamp : Stamp) : outcome Plan :=
  let position := {| journal_generation := 1; event_seq := 1; commit_seq := 1; commit_index := 0; commit_size := 1;
    prev_record_digest := ZERO_DIGEST |} in
  record ← seal {| dr_event_id := event_id; dr_event_type := "journal_genesis"; dr_actor := "receiver"; dr_ids := [];
    dr_data := [("format", DStr "rj.journal.v1"); ("journal_uuid", DStr journal_uuid); ("bounds", bounds_json bounds)] |}
    position stamp SCHEMA_VERSION;
  Ret {| pl_records := [record]; pl_charge := record_charge record;
         pl_outcome := [("journal_uuid", DStr journal_uuid); ("bounds", bounds_json bounds)] |}.

Definition wal_json (wal_found : option WalFound) : value :=
  of_option (λ w, DDict [("size", DInt (wal_size w)); ("digest", DStr (wal_digest w))]) wal_found.

Definition plan_restart (p : Projection) (event_id : string) (stamp : Stamp) (anchor_lag : Z) (wal_found : option WalFound) :
    outcome (Plan + CapacityRefusal) :=
  head ← the (p_head p);
  position ← _single_position p;
  record ← seal {| dr_event_id := event_id; dr_event_type := "restart_recovery"; dr_actor := "receiver"; dr_ids := [];
    dr_data := [("previous_boot_id", str_opt (p_boot_id p)); ("recovered", head_json head); ("anchor_lag", DInt anchor_lag);
      ("wal_found", wal_json wal_found); ("dispatch_hold", DStr "restart_recovery"); ("prior_leases", DStr "invalid")] |}
    position stamp SCHEMA_VERSION;
  within_region p total_bytes [record] [("anchor_lag", DInt anchor_lag); ("dispatch_hold", DStr "restart_recovery")].

Definition admission_draft (admission_id : string) (arrival_seq : Z) (decision : string) (holds : list string)
    (source : SourceRecord) (digest : string) : Draft :=
  {| dr_event_id := admission_id; dr_event_type := "admission"; dr_actor := "receiver";
     dr_ids := [("admission_id", DStr admission_id)];
     dr_data := [("arrival_seq", DInt arrival_seq); ("decision", DStr decision); ("dispatch_holds", DTuple (map DStr holds));
       ("source", source_to_json source); ("source_digest", DStr digest)] |}.

Definition dedupe_draft (event_id admission_id : string) (decision : _Decision) (source : SourceRecord) (key : string)
    (pending_after : Z) : Draft :=
  {| dr_event_id := event_id; dr_event_type := "dedupe_decision"; dr_actor := "receiver";
     dr_ids := [("admission_id", DStr admission_id)];
     dr_data := [("rule", DStr DEDUPE_RULE); ("result", DStr (dn_result decision)); ("source_group", DStr (source_group source));
       ("dedupe_key", DStr key); ("baseline_before", _baseline_json (baseline_before decision));
       ("baseline_after", _baseline_json (Some (baseline_after decision)));
       ("superseded", _superseded_json (superseded decision)); ("pending_count_after", DInt pending_after)] |}.

(** ["held" if active_holds else "admitted"] *)
Definition held_or_admitted (holds : list string) : string := if decide (holds = []) then "admitted" else "held".

Definition plan_admission (p : Projection) (source : SourceRecord) (admission_id dedupe_event_id : string) (stamp : Stamp) :
    outcome (Plan + CapacityRefusal) :=
  decision ← _decide p source admission_id;
  bounds ← the (p_bounds p);
  if max_admissions bounds <? p_admission_count p + 1 then
    Ret (inr {| rf_code := "capacity_admissions"; rf_limit := max_admissions bounds; rf_observed := p_admission_count p;
                rf_requested := 1 |})
  else if negb (suppressed decision) && (max_pending_fingerprints bounds <? pending_len p + new_pending decision) then
    Ret (inr {| rf_code := "capacity_pending"; rf_limit := max_pending_fingerprints bounds; rf_observed := pending_len p;
                rf_requested := new_pending decision |})
  else
    let active_holds := dispatch_holds p in
    let admission_decision := held_or_admitted active_holds in
    let arrival_seq := p_last_arrival_seq p + 1 in
    digest_of_source ← source_digest source;
    head ← the (p_head p);
    let admission_position := {| journal_generation := p_generation p; event_seq := hd_event_seq head + 1;
      commit_seq := hd_commit_seq head + 1; commit_index := 0; commit_size := 2;
      prev_record_digest := hd_record_digest head |} in
    admission_record ←
      seal (admission_draft admission_id arrival_seq admission_decision active_holds source digest_of_source)
        admission_position stamp SCHEMA_VERSION;
    let dedupe_position := {| journal_generation := p_generation p; event_seq := event_seq admission_position + 1;
      commit_seq := commit_seq admission_position; commit_index := 1; commit_size := 2;
      prev_record_digest := record_digest admission_record |} in
    key ← dedupe_key source;
    dedupe_record ←
      seal (dedupe_draft dedupe_event_id admission_id decision source key (_pending_count_after p decision))
        dedupe_position stamp SCHEMA_VERSION;
    within_region p ordinary_bytes [admission_record; dedupe_record]
      [("decision", DStr admission_decision); ("result", DStr (dn_result decision));
       ("dispatch_holds", DTuple (map DStr active_holds)); ("source_group", DStr (source_group source));
       ("dedupe_key", DStr key);
       ("superseded", DTuple (map (λ kv, DTuple [DStr kv.1; DStr kv.2]) (superseded decision)));
       ("arrival_seq", DInt arrival_seq)].

Definition plan_capacity_hold (p : Projection) (refusal : CapacityRefusal) (event_id : string) (stamp : Stamp)
    (refused_source_digest : string) : outcome (option (Plan + CapacityRefusal)) :=
  if some_b (p_dispatch_holds p !! rf_code refusal) then Ret None else
  position ← _single_position p;
  record ← seal {| dr_event_id := event_id; dr_event_type := "capacity_hold"; dr_actor := "receiver"; dr_ids := [];
    dr_data := [("code", DStr (rf_code refusal)); ("limit", DInt (rf_limit refusal)); ("observed", DInt (rf_observed refusal));
      ("requested", DInt (rf_requested refusal)); ("refused_source_digest", DStr refused_source_digest);
      ("action", DStr "set")] |} position stamp SCHEMA_VERSION;
  result ← within_region p total_bytes [record] [("code", DStr (rf_code refusal))];
  Ret (Some result).

(** ** Ingress refusals *)

(** [{field: summary[field] for field in fields}]; a missing field raises. *)
Definition pick (m : members) (field : string) : outcome (string * value) :=
  match dict_get m field with Some v => Ret (field, v) | None => Raise (Exn "KeyError" "") end.
Definition refusal_key (summary : members) : outcome string :=
  payload ← collect (pick summary) _REFUSAL_KEY_FIELDS;
  tagged_digest REFUSAL_KEY_TAG (to_json (DDict payload)).

(** [not (type(resolved) is int and resolved > 0)] *)
Definition is_unreserved (summary : members) : bool :=
  match get summary "resolved" with DInt z => negb (0 <? z) | _ => true end.

Definition plan_ingress_refusal (p : Projection) (summary : members) (event_id : string) (stamp : Stamp) :
    outcome (Plan + RefusalNotRecorded) :=
  key ← refusal_key summary;
  if decide (key ∈ p_refusal_keys p) then Ret (inr Coalesced)
  else if MAX_REFUSAL_RECORDS <? p_refusal_count p + 1 then Ret (inr Limit)
  else if is_unreserved summary && (MAX_REFUSAL_RECORDS - REFUSAL_RESOLVED_RESERVE <? p_refusal_unreserved_count p + 1)
  then Ret (inr Limit)
  else
    position ← _single_position p;
    record ← seal {| dr_event_id := event_id; dr_event_type := "ingress_refusal"; dr_actor := "receiver"; dr_ids := [];
      dr_data := [("rule", DStr REFUSAL_RULE); ("summary", DDict summary); ("refusal_key", DStr key);
        ("refusal_seq", DInt (p_refusal_count p + 1))] |} position stamp SCHEMA_VERSION;
    result ← within_region p ordinary_bytes [record] [("refusal_key", DStr key); ("refusal_seq", DInt (p_refusal_count p + 1))];
    Ret (match result with inl plan => inl plan | inr _ => inr NoRoom end).

(** ** Operator resume and run holds *)
Definition plan_operator_resume (p : Projection) (event_id : string) (stamp : Stamp) (operator reason : string) :
    outcome (Plan + CapacityRefusal) :=
  mismatch (negb (private_claims_outstanding p));;
  match p_dispatch_holds p !! "restart_recovery" with
  | None => Raise (Exn "KeyError" "restart_recovery")
  | Some since_commit_seq =>
      inspected ← the (p_boot_recovered p);
      position ← _single_position p;
      pending ← pending_digest p;
      record ← seal {| dr_event_id := event_id; dr_event_type := "operator_action"; dr_actor := "operator"; dr_ids := [];
        dr_data := [("action", DStr "resume"); ("rule", DStr RESUME_RULE); ("hold", DStr "restart_recovery");
          ("since_commit_seq", DInt since_commit_seq); ("inspected", head_json inspected); ("pending_digest", DStr pending);
          ("operator", DStr operator); ("reason", DStr reason)] |} position stamp SCHEMA_VERSION;
      within_region p total_bytes [record] [("since_commit_seq", DInt since_commit_seq)]
  end.

(** The pending fingerprints of an admission, sorted. *)
Definition members_of (p : Projection) (admission_id : string) : list string :=
  sorted (omap (λ kv, if decide (pe_admission_id kv.2 = admission_id) then Some kv.1 else None) (map_to_list (p_pending p))).

Definition plan_run_hold (p : Projection) (job_id admission_id event_id reason : string) (stamp : Stamp) :
    outcome (Plan + CapacityRefusal) :=
  mismatch (ready p stamp);;
  let holds := c_run_holds (p_claims p) in
  mismatch (negb (some_b (holds !! job_id) || existsb (λ h, bool_decide (rh_admission_id h = admission_id)) (values_of holds)));;
  mismatch (negb (existsb (λ claim, negb (bool_decide
      (bool_decide (ri_job_id (ii_claim claim) = job_id) = bool_decide (ri_admission_id (ii_claim claim) = admission_id))))
    (values_of (c_initial_intents (p_claims p)))));;
  let members := members_of p admission_id in
  let count := Z.of_nat (length members) in
  mismatch ((1 <=? count) && (count <=? 32));;
  if MAX_RUN_HOLDS <=? Z.of_nat (size holds) then
    Ret (inr {| rf_code := "capacity_run_holds"; rf_limit := MAX_RUN_HOLDS; rf_observed := Z.of_nat (size holds);
                rf_requested := 1 |})
  else
    head ← the (p_head p);
    position ← _single_position p;
    pending ← pending_digest p;
    member_digest ← tagged_digest RUN_HOLD_MEMBERS_TAG (to_json (DTuple (map DStr members)));
    record ← seal {| dr_event_id := event_id; dr_event_type := "run_hold"; dr_actor := "receiver";
      dr_ids := [("job_id", DStr job_id); ("admission_id", DStr admission_id)];
      dr_data := [("rule", DStr "run-hold-v2"); ("reason", DStr reason); ("based_on_commit_seq", DInt (hd_commit_seq head));
        ("pending_digest", DStr pending); ("member_count", DInt count); ("member_digest", DStr member_digest)] |}
      position stamp 2;
    within_region p total_bytes [record] [("job_id", DStr job_id); ("admission_id", DStr admission_id)].
