(* ===== verification/JournalVerify.v ===== *)
(** * Verifying front-door commits (journal_reducer.py)

    A [_verify_...] function re-derives what a commit claims from the projection
    before it and returns the change, or raises.  The records come from [seal]
    or [open_record], so the keys read here are present and have the types the
    record's validator checked; [get], [int_of] and [text_of] read them. *)

From S2P Require Import Prelude PyValue PyJson Sha256 CanonJson PyBytes JsonParse JournalValue JournalSource JournalRecords.
From S2P Require Import JournalClaims JournalSeal JournalState JournalPlan.
Local Open Scope string_scope.
Local Open Scope Z_scope.
Local Open Scope list_scope.

(** ** The change a single record makes

    [after p record commit_seq charge] leaves every field to the projection;
    the verifiers below say what differs. *)
Definition head_after (p : Projection) (r : JournalRecord) (commit_seq : Z) : Head :=
  {| hd_generation := p_generation p; hd_commit_seq := commit_seq; hd_event_seq := event_seq (position r);
     hd_record_digest := record_digest r |}.

(** [boot_id=p.boot_id]: every commit but genesis and a restart keeps it, and
    has been checked to carry it. *)
Definition after (p : Projection) (r : JournalRecord) (commit_seq charge : Z) (d : change) : Delta :=
  {| d_head := head_after p r commit_seq; d_generation := p_generation p; d_journal_uuid := None; d_bounds := None;
     d_boot_id := default "" (p_boot_id p); d_last_mono_us := mono_us (stamp r); d_new_boot_id := None;
     d_logical_bytes := p_logical_bytes p + charge; d_admission_count := p_admission_count p;
     d_last_arrival_seq := p_last_arrival_seq p; d_baseline_update := None; d_pending_updates := []; d_change := d |}.

(** [p.logical_bytes + charge > region] *)
Definition fits (p : Projection) (region : JournalBounds → Z) (charge : Z) : outcome unit :=
  bounds ← the (p_bounds p); mismatch (p_logical_bytes p + charge <=? region bounds).

(** ** Genesis and restart *)
Definition bounds_of (b : members) : JournalBounds :=
  {| max_admissions := int_of (get b "max_admissions"); max_pending_fingerprints := int_of (get b "max_pending_fingerprints");
     ordinary_bytes := int_of (get b "ordinary_bytes"); total_bytes := int_of (get b "total_bytes") |}.

Definition _verify_genesis (record : JournalRecord) : outcome Delta :=
  let bounds_data := dict_of (get (data record) "bounds") in
  each (λ kv, mismatch ((1 <=? int_of (get bounds_data kv.1)) && (int_of (get bounds_data kv.1) <=? kv.2))) V1_BOUND_CEILINGS;;
  mismatch (int_of (get bounds_data "ordinary_bytes") <=? int_of (get bounds_data "total_bytes"));;
  Ret {| d_head := {| hd_generation := journal_generation (position record); hd_commit_seq := commit_seq (position record);
           hd_event_seq := event_seq (position record); hd_record_digest := record_digest record |};
         d_generation := journal_generation (position record);
         d_journal_uuid := Some (text_of (get (data record) "journal_uuid")); d_bounds := Some (bounds_of bounds_data);
         d_boot_id := boot_id (stamp record); d_last_mono_us := mono_us (stamp record);
         d_new_boot_id := Some (boot_id (stamp record)); d_logical_bytes := record_charge record; d_admission_count := 0;
         d_last_arrival_seq := 0; d_baseline_update := None; d_pending_updates := []; d_change := NoChange |}.

(** The three fields of a recorded head equal those of [head]. *)
Definition same_head (v : value) (head : Head) : bool :=
  let m := dict_of v in
  (int_of (get m "commit_seq") =? hd_commit_seq head) && (int_of (get m "event_seq") =? hd_event_seq head) &&
  bool_decide (text_of (get m "record_digest") = hd_record_digest head).

Definition _verify_restart (p : Projection) (record : JournalRecord) (commit_seq : Z) : outcome Delta :=
  head ← the (p_head p);
  mismatch (same_head (get (data record) "recovered") head);;
  let charge := record_charge record in
  fits p total_bytes charge;;
  Ret {| d_head := head_after p record commit_seq; d_generation := p_generation p; d_journal_uuid := None; d_bounds := None;
         d_boot_id := boot_id (stamp record); d_last_mono_us := mono_us (stamp record);
         d_new_boot_id := Some (boot_id (stamp record)); d_logical_bytes := p_logical_bytes p + charge;
         d_admission_count := p_admission_count p; d_last_arrival_seq := p_last_arrival_seq p; d_baseline_update := None;
         d_pending_updates := []; d_change := DispatchHoldAdd "restart_recovery" commit_seq |}.

(** ** Capacity holds *)

(** [_CAPACITY_LIMITS[code](p)] and [_CAPACITY_OBSERVED[code](p)]. *)
Definition _CAPACITY_LIMITS (b : JournalBounds) : dict string Z :=
  [("capacity_admissions", max_admissions b); ("capacity_pending", max_pending_fingerprints b);
   ("capacity_bytes", ordinary_bytes b)].
Definition _CAPACITY_OBSERVED (p : Projection) : dict string Z :=
  [("capacity_admissions", p_admission_count p); ("capacity_pending", pending_len p); ("capacity_bytes", p_logical_bytes p)].

Definition item {A} (d : dict string A) (k : string) : outcome A :=
  match dict_get d k with Some v => Ret v | None => Raise (Exn "KeyError" "") end.

Definition _verify_capacity_hold (p : Projection) (record : JournalRecord) (commit_seq : Z) : outcome Delta :=
  let data := data record in
  let code := text_of (get data "code") in
  mismatch (negb (some_b (p_dispatch_holds p !! code)));;
  bounds ← the (p_bounds p);
  limit ← item (_CAPACITY_LIMITS bounds) code;
  observed ← item (_CAPACITY_OBSERVED p) code;
  mismatch ((int_of (get data "limit") =? limit) && (int_of (get data "observed") =? observed));;
  mismatch (int_of (get data "limit") <? int_of (get data "observed") + int_of (get data "requested"));;
  let charge := record_charge record in
  fits p total_bytes charge;;
  Ret (after p record commit_seq charge (DispatchHoldAdd code commit_seq)).

(** ** Ingress refusals and operator actions *)
Definition _verify_ingress_refusal (p : Projection) (record : JournalRecord) (commit_seq : Z) : outcome Delta :=
  let summary := dict_of (get (data record) "summary") in
  mismatch (int_of (get (data record) "refusal_seq") =? p_refusal_count p + 1);;
  mismatch (p_refusal_count p + 1 <=? MAX_REFUSAL_RECORDS);;
  let unreserved := is_unreserved summary in
  mismatch (negb (unreserved && (MAX_REFUSAL_RECORDS - REFUSAL_RESOLVED_RESERVE <? p_refusal_unreserved_count p + 1)));;
  key ← refusal_key summary;
  mismatch (bool_decide (text_of (get (data record) "refusal_key") = key) && negb (bool_decide (key ∈ p_refusal_keys p)));;
  let charge := record_charge record in
  fits p ordinary_bytes charge;;
  Ret (after p record commit_seq charge (RefusalKeyAdd key unreserved)).

Definition _verify_operator_action (p : Projection) (record : JournalRecord) (commit_seq : Z) : outcome Delta :=
  let data := data record in
  let hold := text_of (get data "hold") in
  mismatch (str_in hold RESUMABLE_HOLDS && some_b (p_dispatch_holds p !! hold) && negb (private_claims_outstanding p));;
  mismatch (bool_decide (p_dispatch_holds p !! hold = Some (int_of (get data "since_commit_seq"))));;
  head ← the (p_head p);
  mismatch (bool_decide (Some (hd_commit_seq head) = p_boot_start_commit_seq p));;
  mismatch (match p_boot_recovered p with Some recovered => same_head (get data "inspected") recovered | None => false end);;
  pending ← pending_digest p;
  mismatch (bool_decide (text_of (get data "pending_digest") = pending));;
  let charge := record_charge record in
  fits p total_bytes charge;;
  Ret (after p record commit_seq charge (DispatchHoldClear hold commit_seq)).

(** ** Run holds *)

(** [isinstance(plan, CapacityRefusal) or plan.records[0] differs from record]. *)
Definition exact_plan (result : outcome (Plan + CapacityRefusal)) (record : JournalRecord) : outcome Plan :=
  plan ← result;
  match plan with
  | inl plan =>
      match pl_records plan with
      | planned :: _ =>
          mismatch (bool_decide (body planned = body record) && bool_decide (record_digest planned = record_digest record));;
          Ret plan
      | [] => Raise (Exn "IndexError" "")
      end
  | inr _ => _fail_replay "replay_mismatch"
  end.

(** [record.ids[key]] and [record.data[key]], checked to be [str]. *)
Definition id_of (r : JournalRecord) (key : string) : string := text_of (get (ids r) key).
Definition text_at (r : JournalRecord) (key : string) : string := text_of (get (data r) key).
Definition int_at (r : JournalRecord) (key : string) : Z := int_of (get (data r) key).

Definition _verify_run_hold (p : Projection) (record : JournalRecord) (commit_seq : Z) : outcome Delta :=
  mismatch ((schema_version record =? 2) && (str_len (body record) <=? MAX_RUN_HOLD_RECORD_BYTES));;
  plan ← exact_plan (plan_run_hold p (id_of record "job_id") (id_of record "admission_id") (event_id record)
    (text_at record "reason") (stamp record)) record;
  let held := {| rh_admission_id := id_of record "admission_id"; rh_reason := text_at record "reason";
    rh_since_commit_seq := commit_seq; rh_member_digest := text_at record "member_digest" |} in
  Ret (after p record commit_seq (pl_charge plan) (RunHoldAdd (id_of record "job_id") held)).

(** ** Admission pairs *)
Definition _verify_admission_pair (p : Projection) (admission dedupe : JournalRecord) (commit_seq : Z) : outcome Delta :=
  let admission_id := id_of admission "admission_id" in
  replay_check (bool_decide (admission_id = event_id admission) && bool_decide (id_of dedupe "admission_id" = admission_id))
    "replay_shape";;
  raw ← thaw (get (data admission) "source");
  source ← source_from_json raw;
  digest ← source_digest source;
  mismatch (bool_decide (digest = text_at admission "source_digest"));;
  decision ← _decide p source admission_id;
  bounds ← the (p_bounds p);
  mismatch (p_admission_count p + 1 <=? max_admissions bounds);;
  let pending_after := pending_len p + new_pending decision in
  mismatch (negb (negb (suppressed decision) && (max_pending_fingerprints bounds <? pending_after)));;
  let charge := record_charge admission + record_charge dedupe in
  fits p ordinary_bytes charge;;
  let active_holds := dispatch_holds p in
  let arrival_seq := p_last_arrival_seq p + 1 in
  key ← dedupe_key source;
  mismatch (
    (int_at admission "arrival_seq" =? arrival_seq) &&
    bool_decide (text_at admission "decision" = held_or_admitted active_holds) &&
    py_eq (get (data admission) "dispatch_holds") (DTuple (map DStr active_holds)) &&
    bool_decide (text_at dedupe "rule" = DEDUPE_RULE) &&
    bool_decide (text_at dedupe "result" = dn_result decision) &&
    bool_decide (text_at dedupe "source_group" = source_group source) &&
    bool_decide (text_at dedupe "dedupe_key" = key) &&
    py_eq (get (data dedupe) "baseline_before") (_baseline_json (baseline_before decision)) &&
    py_eq (get (data dedupe) "baseline_after") (_baseline_json (Some (baseline_after decision))) &&
    py_eq (get (data dedupe) "superseded") (_superseded_json (superseded decision)) &&
    (int_at dedupe "pending_count_after" =? _pending_count_after p decision));;
  updates ← _pending_updates p source decision admission_id arrival_seq;
  Ret {| d_head := head_after p dedupe commit_seq; d_generation := p_generation p; d_journal_uuid := None; d_bounds := None;
         d_boot_id := default "" (p_boot_id p); d_last_mono_us := mono_us (stamp admission); d_new_boot_id := None;
         d_logical_bytes := p_logical_bytes p + charge; d_admission_count := p_admission_count p + 1;
         d_last_arrival_seq := arrival_seq;
         d_baseline_update := Some (source_group source, baseline_after decision);
         d_pending_updates := updates; d_change := NoChange |}.
