(* ===== verification/JournalClaimPlan.v ===== *)
(** * Planning claim commits: reservations and launch (journal_reducer.py)

    The claim families record, in order, what the receiver intends and observes
    of one Run: reservation intent and confirmation, run intent, launch claim,
    spawn attestation, release intent and observation.  No claim is authority.
    Arguments are typed, so the code's [type(...)] guards on them cannot fire;
    every other guard is here, in the order of the code.  Rows of tuples are the
    row records of [JournalState]. *)

From S2P Require Import Prelude PyValue PyJson Sha256 CanonJson PyBytes JsonParse JournalValue JournalSource JournalRecords.
From S2P Require Import JournalClaims JournalSeal JournalState JournalPlan.
Local Open Scope string_scope.
Local Open Scope Z_scope.
Local Open Scope list_scope.

Definition MAX_RESERVATION_CLAIMS : Z := 256.
Definition RESERVATION_INTENT_TAG : string := "rj.reservation-intent.v2".
Definition INITIAL_INTENT_MEMBERS_TAG : string := "rj.initial-intent-members.v3".
Definition INITIAL_INTENT_TAG : string := "rj.reservation-intent.v3".
Definition RUN_INTENT_TAG : string := "rj.run-intent.v3".
Definition LAUNCH_CLAIM_TAG : string := "rj.launch-claim.v3".
Definition SPAWN_ATTESTATION_TAG : string := "rj.spawn-attestation.v3".
Definition RELEASE_INTENT_TAG : string := "rj.release-intent.v3".
Definition RELEASE_OBSERVATION_TAG : string := "rj.release-observation.v3".

(** ** Predicates on texts *)
Definition _UUID_DASHES : list nat := [8; 13; 18; 23]%nat.
Definition _canonical_uuid (s : string) : bool :=
  (str_len s =? 36) &&
  forallb id (imap (λ i c, if decide (i ∈ _UUID_DASHES) then bool_decide (c = "-"%char) else char_in HEX_DIGITS c)
    (String.list_ascii_of_string s)).
Definition _digest64 (s : string) : bool := (str_len s =? 64) && all_chars (char_in HEX_DIGITS) s.
Definition _safe_grant_id (s : string) : bool := id_pattern MAX_ID_BYTES s.

(** [len(set(xs)) == len(xs)] *)
Definition all_different (xs : list string) : bool := bool_decide (NoDup xs).
Definition disjoint_b (xs ys : list string) : bool := forallb (λ x, negb (str_in x ys)) xs.

(** [tagged_digest(INITIAL_INTENT_MEMBERS_TAG, members)] *)
Definition members_digest (tag : string) (members : list string) : outcome string :=
  tagged_digest tag (to_json (DTuple (map DStr members))).
Definition count (xs : list string) : Z := Z.of_nat (length xs).

(** ** Sealing a claim

    The digest covers the event id, the ids and the data before it is added. *)
Definition claim_digest (tag event_id : string) (ids data : members) : outcome string :=
  tagged_digest tag (to_json (DDict [("event_id", DStr event_id); ("ids", DDict ids); ("data", DDict data)])).

Definition seal_claim (p : Projection) (event_type event_id : string) (ids data : members) (digest_key tag : string)
    (cap : Z) (region : JournalBounds → Z) (stamp : Stamp) (out : string → members) : outcome (Plan + CapacityRefusal) :=
  digest ← claim_digest tag event_id ids data;
  position ← _single_position p;
  record ← seal {| dr_event_id := event_id; dr_event_type := event_type; dr_actor := "receiver"; dr_ids := ids;
    dr_data := dict_set data digest_key (DStr digest) |} position stamp 3;
  mismatch (str_len (body record) <=? cap);;
  within_region p region [record] (out digest).

Definition state_only (state key v : string) : string → members := λ _, [("state", DStr state); (key, DStr v)].

(** ** Reservation intents *)
Record IntentIds := {
  job : string; admission : string; intent : string; attempt : string; reservation : string; run : string; lease : string;
}.
Definition ids_of_claim (c : ReservationIntentClaim) : IntentIds :=
  {| job := ri_job_id c; admission := ri_admission_id c; intent := ri_intent_id c; attempt := ri_attempt_id c;
     reservation := ri_reservation_id c; run := ri_run_id c; lease := ri_lease_id c |}.

Definition intent_ids_json (i : IntentIds) : members :=
  [("job_id", DStr (job i)); ("admission_id", DStr (admission i)); ("intent_id", DStr (intent i));
   ("attempt_id", DStr (attempt i)); ("reservation_id", DStr (reservation i)); ("run_id", DStr (run i));
   ("lease_id", DStr (lease i))].

Definition _intent_digest_fields (p : Projection) (head : Head) (i : IntentIds) : members :=
  [("journal_uuid", str_opt (p_journal_uuid p)); ("journal_generation", DInt (p_generation p));
   ("admission_id", DStr (admission i)); ("job_id", DStr (job i)); ("intent_id", DStr (intent i));
   ("attempt_id", DStr (attempt i)); ("reservation_id", DStr (reservation i)); ("run_id", DStr (run i));
   ("lease_id", DStr (lease i)); ("based_on_commit_seq", DInt (hd_commit_seq head))].

Definition initial_claims (p : Projection) : list ReservationIntentClaim := map ii_claim (values_of (c_initial_intents (p_claims p))).
Definition capacity (code : string) (limit observed : Z) : Plan + CapacityRefusal :=
  inr {| rf_code := code; rf_limit := limit; rf_observed := observed; rf_requested := 1 |}.

Definition plan_reservation_intent (p : Projection) (i : IntentIds) (stamp : Stamp) : outcome (Plan + CapacityRefusal) :=
  let c := p_claims p in
  mismatch (ready p stamp);;
  mismatch (negb (filled (c_initial_intents c)));;
  let total := Z.of_nat (size (c_intents c)) + Z.of_nat (size (c_initial_intents c)) in
  if MAX_RESERVATION_CLAIMS <=? total then Ret (capacity "capacity_reservation_intents" MAX_RESERVATION_CLAIMS total) else
  let members := members_of p (admission i) in
  match c_run_holds c !! job i, p_journal_uuid p with
  | Some held, Some journal_uuid =>
      mismatch (bool_decide (rh_admission_id held = admission i) && negb (bool_decide (members = [])));;
      digest ← members_digest RUN_HOLD_MEMBERS_TAG members;
      mismatch (bool_decide (digest = rh_member_digest held));;
      mismatch (all_different [journal_uuid; admission i; job i; intent i; attempt i; reservation i; run i; lease i] &&
        forallb _canonical_uuid [journal_uuid; admission i; intent i; attempt i; reservation i; run i; lease i] &&
        negb (some_b (c_intents c !! intent i)));;
      mismatch (forallb (λ prior, disjoint_b [intent i; attempt i; reservation i; run i; lease i]
          [ri_intent_id prior; ri_attempt_id prior; ri_reservation_id prior; ri_run_id prior; ri_lease_id prior])
        (values_of (c_intents c)));;
      head ← the (p_head p);
      digest ← tagged_digest RESERVATION_INTENT_TAG (to_json (DDict (_intent_digest_fields p head i)));
      position ← _single_position p;
      record ← seal {| dr_event_id := intent i; dr_event_type := "reservation_intent"; dr_actor := "receiver";
        dr_ids := intent_ids_json i;
        dr_data := [("rule", DStr "reservation-intent-v2"); ("based_on_commit_seq", DInt (hd_commit_seq head));
          ("intent_digest", DStr digest)] |} position stamp 2;
      within_region p total_bytes [record] [("intent_id", DStr (intent i)); ("intent_digest", DStr digest)]
  | _, _ => _fail_replay "replay_mismatch"
  end.

Definition plan_initial_reservation_intent (p : Projection) (i : IntentIds) (stamp : Stamp) : outcome (Plan + CapacityRefusal) :=
  let c := p_claims p in
  mismatch (ready p stamp);;
  mismatch (negb (filled (p_dispatch_holds p) || filled (c_run_holds c) || filled (c_initial_intents c)));;
  let total := Z.of_nat (size (c_intents c)) + Z.of_nat (size (c_initial_intents c)) in
  if MAX_RESERVATION_CLAIMS <=? total then Ret (capacity "capacity_reservation_intents" MAX_RESERVATION_CLAIMS total) else
  let members := members_of p (admission i) in
  match p_journal_uuid p with
  | None => _fail_replay "replay_mismatch"
  | Some journal_uuid =>
      let identifiers := [journal_uuid; admission i; job i; intent i; attempt i; reservation i; run i; lease i] in
      mismatch ((1 <=? count members) && (count members <=? 32) && forallb _canonical_uuid identifiers &&
        all_different identifiers &&
        negb (existsb (λ claim, bool_decide (ri_admission_id claim = admission i)) (values_of (c_intents c))) &&
        negb (existsb (λ claim, bool_decide (ri_job_id claim = job i)) (values_of (c_intents c))) &&
        negb (existsb (λ kv, bool_decide (rh_admission_id kv.2 = admission i) || bool_decide (kv.1 = job i))
          (map_to_list (c_run_holds c))));;
      mismatch (forallb (λ prior, disjoint_b [job i; intent i; attempt i; reservation i; run i; lease i]
          [ri_job_id prior; ri_intent_id prior; ri_attempt_id prior; ri_reservation_id prior; ri_run_id prior; ri_lease_id prior])
        (values_of (c_intents c) ++ initial_claims p));;
      member_digest ← members_digest INITIAL_INTENT_MEMBERS_TAG members;
      head ← the (p_head p);
      digest ← tagged_digest INITIAL_INTENT_TAG (to_json (DDict (_intent_digest_fields p head i ++
        [("member_count", DInt (count members)); ("member_digest", DStr member_digest)])));
      position ← _single_position p;
      record ← seal {| dr_event_id := intent i; dr_event_type := "reservation_intent"; dr_actor := "receiver";
        dr_ids := intent_ids_json i;
        dr_data := [("rule", DStr "reservation-intent-v3"); ("based_on_commit_seq", DInt (hd_commit_seq head));
          ("member_count", DInt (count members)); ("member_digest", DStr member_digest); ("intent_digest", DStr digest)] |}
        position stamp 3;
      within_region p ordinary_bytes [record] [("intent_id", DStr (intent i)); ("intent_digest", DStr digest)]
  end.

(** ** Reservation confirmations *)
Record LedgerEvent := {
  ledger_uuid : string; ledger_generation : Z; ledger_event_id : string; sequence : Z; event_digest : string;
}.

Definition all_confirmations (p : Projection) : list ReservationConfirmationClaim :=
  values_of (c_confirmations (p_claims p)) ++ values_of (c_initial_confirmations (p_claims p)).

Definition _confirmation_ledger_identity_conflict (p : Projection) (e : LedgerEvent) : bool :=
  existsb (λ prior, bool_decide (rc_ledger_event_id prior = ledger_event_id e) ||
    (bool_decide (rc_ledger_uuid prior = ledger_uuid e) && (rc_ledger_generation prior =? ledger_generation e) &&
     (rc_sequence prior =? sequence e))) (all_confirmations p).

Definition confirmation_identifiers (claimed : ReservationIntentClaim) (event_id : string) (e : LedgerEvent) : list string :=
  [ri_journal_uuid claimed; ri_admission_id claimed; ri_job_id claimed; ri_intent_id claimed; ri_attempt_id claimed;
   ri_reservation_id claimed; ri_run_id claimed; ri_lease_id claimed; event_id; ledger_uuid e; ledger_event_id e].

Definition confirmation_draft (rule intent_id event_id intent_digest : string) (e : LedgerEvent) : Draft :=
  {| dr_event_id := event_id; dr_event_type := "reservation_confirmation"; dr_actor := "receiver";
     dr_ids := [("intent_id", DStr intent_id)];
     dr_data := [("rule", DStr rule); ("intent_digest", DStr intent_digest); ("ledger_uuid", DStr (ledger_uuid e));
       ("ledger_generation", DInt (ledger_generation e)); ("ledger_event_id", DStr (ledger_event_id e));
       ("sequence", DInt (sequence e)); ("event_digest", DStr (event_digest e))] |}.

(** [any(prior.confirmation_event_id == event_id for prior in claims)] *)
Definition confirmed_by (claims : list ReservationConfirmationClaim) (event_id : string) : bool :=
  existsb (λ prior, bool_decide (rc_confirmation_event_id prior = event_id)) claims.
Definition confirmation_total (p : Projection) : Z :=
  Z.of_nat (size (c_confirmations (p_claims p))) + Z.of_nat (size (c_initial_confirmations (p_claims p))).

Definition plan_reservation_confirmation (p : Projection) (intent_id event_id : string) (e : LedgerEvent) (stamp : Stamp) :
    outcome (Plan + CapacityRefusal) :=
  let c := p_claims p in
  mismatch (ready p stamp);;
  if MAX_RESERVATION_CLAIMS <=? confirmation_total p
  then Ret (capacity "capacity_reservation_confirmations" MAX_RESERVATION_CLAIMS (confirmation_total p)) else
  match c_intents c !! intent_id with
  | None => _fail_replay "replay_mismatch"
  | Some claimed =>
      mismatch (negb (some_b (c_confirmations c !! intent_id)));;
      mismatch (all_different (confirmation_identifiers claimed event_id e) &&
        forallb _canonical_uuid [event_id; ledger_uuid e; ledger_event_id e]);;
      mismatch (negb (_confirmation_ledger_identity_conflict p e) &&
        negb (confirmed_by (values_of (c_initial_confirmations c)) event_id));;
      position ← _single_position p;
      record ← seal (confirmation_draft "reservation-confirmation-v2" intent_id event_id (ri_intent_digest claimed) e)
        position stamp 2;
      within_region p total_bytes [record] [("intent_id", DStr intent_id); ("claim_event_id", DStr event_id)]
  end.

Definition plan_initial_reservation_confirmation (p : Projection) (intent_id event_id : string) (e : LedgerEvent)
    (stamp : Stamp) : outcome (Plan + CapacityRefusal) :=
  let c := p_claims p in
  mismatch (ready p stamp);;
  if MAX_RESERVATION_CLAIMS <=? confirmation_total p
  then Ret (capacity "capacity_reservation_confirmations" MAX_RESERVATION_CLAIMS (confirmation_total p)) else
  match c_initial_intents c !! intent_id with
  | None => _fail_replay "replay_mismatch"
  | Some claimed =>
      let claimed := ii_claim claimed in
      mismatch (negb (some_b (c_initial_confirmations c !! intent_id)) && negb (some_b (c_confirmations c !! intent_id)));;
      mismatch (forallb _canonical_uuid (confirmation_identifiers claimed event_id e) &&
        all_different (confirmation_identifiers claimed event_id e) && negb (confirmed_by (all_confirmations p) event_id));;
      mismatch (negb (_confirmation_ledger_identity_conflict p e));;
      position ← _single_position p;
      record ← seal (confirmation_draft "reservation-confirmation-v3" intent_id event_id (ri_intent_digest claimed) e)
        position stamp 3;
      within_region p total_bytes [record] [("intent_id", DStr intent_id); ("claim_event_id", DStr event_id)]
  end.

(** ** Run intents *)

(** The recorded identities; a journal without a UUID adds none. *)
Definition _known_reservation_ids (p : Projection) : list string :=
  let c := p_claims p in
  option_list (p_journal_uuid p) ++ keys_of (c_run_holds c) ++ map rh_admission_id (values_of (c_run_holds c)) ++
  concat (map (λ claim, [ri_admission_id claim; ri_job_id claim; ri_intent_id claim; ri_attempt_id claim;
    ri_reservation_id claim; ri_run_id claim; ri_lease_id claim]) (values_of (c_intents c) ++ initial_claims p)) ++
  concat (map (λ claim, [rc_confirmation_event_id claim; rc_ledger_uuid claim; rc_ledger_event_id claim]) (all_confirmations p)).

Definition service_row_json (s : ServiceRow) : value :=
  DDict [("service", DStr (sr_service s)); ("lease_claim_id", DStr (sr_lease_claim_id s));
         ("scope_digest", DStr (sr_scope_digest s))].

(** [services[0][1]]; the list was checked not to be empty. *)
Definition first_lease (services : list ServiceRow) : option string := sr_lease_claim_id <$> head services.

Definition run_ids_json (journal_uuid : string) (i : IntentIds) : members :=
  [("journal_uuid", DStr journal_uuid); ("job_id", DStr (job i)); ("admission_id", DStr (admission i));
   ("intent_id", DStr (intent i)); ("attempt_id", DStr (attempt i)); ("reservation_id", DStr (reservation i));
   ("run_id", DStr (run i)); ("lease_id", DStr (lease i))].

Definition run_intent_data (head : Head) (initial : InitialReservationIntentClaim) (confirmation : ReservationConfirmationClaim)
    (head_sequence : Z) (head_digest : string) (services : list ServiceRow) : members :=
  [("rule", DStr "run-intent-v3"); ("based_on_commit_seq", DInt (hd_commit_seq head));
   ("based_on_record_digest", DStr (hd_record_digest head));
   ("initial_intent_commit_seq", DInt (ri_committed_at_seq (ii_claim initial)));
   ("intent_digest", DStr (ri_intent_digest (ii_claim initial)));
   ("confirmation_event_id", DStr (rc_confirmation_event_id confirmation));
   ("confirmation_commit_seq", DInt (rc_committed_at_seq confirmation)); ("ledger_uuid", DStr (rc_ledger_uuid confirmation));
   ("ledger_generation", DInt (rc_ledger_generation confirmation)); ("ledger_event_id", DStr (rc_ledger_event_id confirmation));
   ("sequence", DInt (rc_sequence confirmation)); ("event_digest", DStr (rc_event_digest confirmation));
   ("ledger_head", DDict [("sequence", DInt head_sequence); ("event_digest", DStr head_digest)]);
   ("member_count", DInt (ii_member_count initial)); ("member_digest", DStr (ii_member_digest initial));
   ("services", DList (map service_row_json services)); ("work_deadline_seconds", DInt 270);
   ("flush_deadline_seconds", DInt 290); ("hard_deadline_seconds", DInt 300)].

Definition plan_run_intent (p : Projection) (intent_id event_id : string) (ledger_head_sequence : Z) (ledger_head_digest : string)
    (services : list ServiceRow) (stamp : Stamp) : outcome (Plan + CapacityRefusal) :=
  let c := p_claims p in
  mismatch (ready p stamp);;
  mismatch (negb (filled (p_dispatch_holds p) || filled (c_run_holds c) || some_b (c_run_intent c)));;
  head ← the (p_head p);
  match c_initial_intents c !! intent_id, c_initial_confirmations c !! intent_id with
  | Some initial, Some confirmation =>
      let i := ids_of_claim (ii_claim initial) in
      mismatch (bool_decide (rc_intent_digest confirmation = ri_intent_digest (ii_claim initial)) &&
        (ri_committed_at_seq (ii_claim initial) <? rc_committed_at_seq confirmation) &&
        (rc_committed_at_seq confirmation <=? hd_commit_seq head));;
      let members := members_of p (admission i) in
      mismatch (count members =? ii_member_count initial);;
      digest ← members_digest INITIAL_INTENT_MEMBERS_TAG members;
      mismatch (bool_decide (digest = ii_member_digest initial));;
      let known := _known_reservation_ids p in
      mismatch (_canonical_uuid event_id && negb (str_in event_id known));;
      mismatch ((rc_sequence confirmation <=? ledger_head_sequence) && (ledger_head_sequence <=? MAX_SEQ) &&
        _digest64 ledger_head_digest &&
        negb ((ledger_head_sequence =? rc_sequence confirmation) &&
              negb (bool_decide (ledger_head_digest = rc_event_digest confirmation))));;
      mismatch ((4 <=? Z.of_nat (length services)) && (Z.of_nat (length services) <=? 5));;
      mismatch (names_ok (map sr_service services) &&
        forallb (λ name, str_in name _RUN_INTENT_ALLOWED_SERVICES) (map sr_service services));;
      mismatch (bool_decide (first_lease services = Some (lease i)) &&
        forallb (λ s, _canonical_uuid (sr_lease_claim_id s) && _digest64 (sr_scope_digest s)) services);;
      let fresh := event_id :: map sr_lease_claim_id (tail services) in
      mismatch (all_different fresh && disjoint_b fresh known);;
      seal_claim p "run_intent" event_id (run_ids_json (ri_journal_uuid (ii_claim initial)) i)
        (run_intent_data head initial confirmation ledger_head_sequence ledger_head_digest services)
        "run_intent_digest" RUN_INTENT_TAG 4096 ordinary_bytes stamp
        (λ digest, [("run_intent_id", DStr event_id); ("run_intent_digest", DStr digest);
                    ("state", DStr "outstanding_unqualified")])
  | _, _ => _fail_replay "replay_mismatch"
  end.

(** ** Launch claims *)
Definition grant_row_json (g : GrantRow) : value :=
  DDict [("service", DStr (sr_service (gr_row g))); ("lease_claim_id", DStr (sr_lease_claim_id (gr_row g)));
         ("scope_digest", DStr (sr_scope_digest (gr_row g))); ("grant_id", DStr (gr_grant_id g));
         ("grant_expiry_us", DInt (gr_expiry_us g))].

#[export] Instance service_row_eq_dec : EqDecision ServiceRow.
Proof. solve_decision. Defined.

Definition launch_ids_json (n : RunIntentClaim) : members :=
  [("journal_uuid", DStr (rn_journal_uuid n)); ("admission_id", DStr (rn_admission_id n)); ("job_id", DStr (rn_job_id n));
   ("intent_id", DStr (rn_intent_id n)); ("attempt_id", DStr (rn_attempt_id n)); ("reservation_id", DStr (rn_reservation_id n));
   ("run_id", DStr (rn_run_id n)); ("lease_id", DStr (rn_model_lease_id n))].

Definition launch_data (head : Head) (n : RunIntentClaim) (boot : option string) (forwarder_generation barrier_token_digest : string)
    (grants : list GrantRow) (origin : Z) : members :=
  [("rule", DStr "launch-claim-v3"); ("based_on_commit_seq", DInt (hd_commit_seq head));
   ("based_on_record_digest", DStr (hd_record_digest head)); ("run_intent_event_id", DStr (rn_run_intent_id n));
   ("run_intent_digest", DStr (rn_run_intent_digest n)); ("run_intent_commit_seq", DInt (rn_committed_at_seq n));
   ("receiver_boot_id", str_opt boot); ("forwarder_generation", DStr forwarder_generation);
   ("barrier_token_digest", DStr barrier_token_digest); ("origin_us", DInt origin);
   ("work_deadline_us", DInt (origin + 270000000)); ("flush_deadline_us", DInt (origin + 290000000));
   ("hard_deadline_us", DInt (origin + 300000000)); ("grants", DList (map grant_row_json grants))].

(** [p.boot_start_commit_seq is None or seq < p.boot_start_commit_seq], negated. *)
Definition since_boot (p : Projection) (seq : Z) : bool :=
  match p_boot_start_commit_seq p with Some start => start <=? seq | None => false end.

Definition plan_launch_claim (p : Projection) (event_id forwarder_generation barrier_token_digest : string)
    (grants : list GrantRow) (stamp : Stamp) : outcome (Plan + CapacityRefusal) :=
  let c := p_claims p in
  let now := mono_us stamp in
  match c_run_intent c with
  | None => _fail_replay "replay_mismatch"
  | Some n =>
      mismatch (ready p stamp && negb (some_b (c_launch_claim c)) && negb (filled (p_dispatch_holds p)) &&
        negb (filled (c_run_holds c)) && since_boot p (rn_committed_at_seq n) && (p_last_mono_us p <=? now) &&
        (now <=? MAX_SEQ - 300000000));;
      match c_initial_intents c !! rn_intent_id n with
      | None => _fail_replay "replay_mismatch"
      | Some initial =>
          mismatch (bool_decide (ri_admission_id (ii_claim initial) = rn_admission_id n) &&
            (ii_member_count initial =? rn_member_count n) && bool_decide (ii_member_digest initial = rn_member_digest n))
      end;;
      let members := members_of p (rn_admission_id n) in
      mismatch (count members =? rn_member_count n);;
      digest ← members_digest INITIAL_INTENT_MEMBERS_TAG members;
      mismatch (bool_decide (digest = rn_member_digest n));;
      mismatch (_canonical_uuid event_id && negb (str_in event_id (_known_reservation_ids p)) &&
        negb (bool_decide (event_id = rn_run_intent_id n)) && negb (str_in event_id (map sr_lease_claim_id (rn_services n))) &&
        _safe_grant_id forwarder_generation && _digest64 barrier_token_digest);;
      mismatch (Z.of_nat (length grants) =? Z.of_nat (length (rn_services n)));;
      mismatch (forallb (λ '(g, service), bool_decide (gr_row g = service) && _safe_grant_id (gr_grant_id g) &&
          (now <? gr_expiry_us g) && (gr_expiry_us g <=? now + 270000000)) (zip grants (rn_services n)));;
      mismatch (all_different (map gr_grant_id grants));;
      head ← the (p_head p);
      seal_claim p "launch_claim" event_id (launch_ids_json n)
        (launch_data head n (p_boot_id p) forwarder_generation barrier_token_digest grants now)
        "launch_claim_digest" LAUNCH_CLAIM_TAG 6144 ordinary_bytes stamp
        (λ digest, [("launch_claim_id", DStr event_id); ("launch_claim_digest", DStr digest);
                    ("state", DStr "outstanding_unqualified_launch_claim")])
  end.

Definition _launch_claim_ids (l : LaunchClaim) : members :=
  [("journal_uuid", DStr (lc_journal_uuid l)); ("admission_id", DStr (lc_admission_id l)); ("job_id", DStr (lc_job_id l));
   ("intent_id", DStr (lc_intent_id l)); ("attempt_id", DStr (lc_attempt_id l)); ("reservation_id", DStr (lc_reservation_id l));
   ("run_id", DStr (lc_run_id l)); ("lease_id", DStr (lc_model_lease_id l))].

(** ** Claims after the launch *)
Definition used_ids (p : Projection) : list string :=
  let c := p_claims p in
  _known_reservation_ids p ++
  concat (map (λ n, rn_run_intent_id n :: map sr_lease_claim_id (rn_services n)) (option_list (c_run_intent c))) ++
  concat (map (λ l, lc_launch_claim_id l :: map gr_grant_id (lc_grants l)) (option_list (c_launch_claim c))) ++
  map sa_event_id (option_list (c_spawn_attestation c)) ++ map rl_event_id (option_list (c_release_intent c)) ++
  map ro_event_id (option_list (c_release_observation c)) ++
  keys_of (c_effect_intents c) ++ map ei_event_id (values_of (c_effect_intents c)) ++
  map er_event_id (values_of (c_effect_receipts c)) ++
  keys_of (c_supervision_action_intents c) ++ map si_event_id (values_of (c_supervision_action_intents c)) ++
  map so_event_id (values_of (c_supervision_action_results c)) ++
  map po_event_id (option_list (c_process_observation c)) ++ map to_event_id (option_list (c_terminal_observation c)) ++
  map ea_event_id (option_list (c_execution_assessment c)) ++
  map rb_event_id (concat (values_of (c_reconciliation_observations c))) ++
  map (λ r, rb_event_id (rr_claim r)) (concat (values_of (c_restart_reconciliations c))).

Definition _claim_event_id_ok (p : Projection) (event_id : string) : bool :=
  _canonical_uuid event_id && negb (str_in event_id (used_ids p)).

Definition _claim_pre_release (p : Projection) (stamp : Stamp) : outcome LaunchClaim :=
  let c := p_claims p in
  match c_launch_claim c, c_run_intent c with
  | Some launch, Some intent =>
      mismatch (ready p stamp && bool_decide (lc_run_intent_id launch = rn_run_intent_id intent) &&
        bool_decide (lc_run_intent_digest launch = rn_run_intent_digest intent) &&
        bool_decide (lc_receiver_boot_id launch = boot_id stamp) && negb (filled (p_dispatch_holds p)) &&
        negb (filled (c_run_holds c)) && since_boot p (lc_committed_at_seq launch) &&
        (p_last_mono_us p <=? mono_us stamp) && (mono_us stamp <? lc_work_deadline_us launch));;
      let members := members_of p (rn_admission_id intent) in
      mismatch (count members =? rn_member_count intent);;
      digest ← members_digest INITIAL_INTENT_MEMBERS_TAG members;
      mismatch (bool_decide (digest = rn_member_digest intent));;
      Ret launch
  | _, _ => _fail_replay "replay_mismatch"
  end.

(** The members every later claim starts with. *)
Definition based_on (rule : string) (head : Head) : members :=
  [("rule", DStr rule); ("based_on_commit_seq", DInt (hd_commit_seq head));
   ("based_on_record_digest", DStr (hd_record_digest head))].
Definition launch_link (launch : LaunchClaim) : members :=
  [("launch_claim_event_id", DStr (lc_launch_claim_id launch)); ("launch_claim_digest", DStr (lc_launch_claim_digest launch))].
Definition observed_now (p : Projection) (stamp : Stamp) : members :=
  [("receiver_boot_id", str_opt (p_boot_id p)); ("observed_us", DInt (mono_us stamp))].

Record Attestation := {
  blocked_ack_digest : string; anchor_key_digest : string; witness_kind : string; verifier_version : string;
  witness_locator : string; witness_identity_digest : string; registry_entry_digest : string;
}.

Definition OUTSTANDING : string := "outstanding_unqualified_launch_claim".

Definition plan_spawn_attestation (p : Projection) (event_id : string) (a : Attestation) (stamp : Stamp) :
    outcome (Plan + CapacityRefusal) :=
  let c := p_claims p in
  launch ← _claim_pre_release p stamp;
  mismatch (negb (some_b (c_spawn_attestation c)) && negb (some_b (c_process_observation c)) &&
    _claim_event_id_ok p event_id &&
    forallb _digest64 [blocked_ack_digest a; anchor_key_digest a; witness_identity_digest a; registry_entry_digest a] &&
    forallb _safe_grant_id [witness_kind a; verifier_version a; witness_locator a]);;
  head ← the (p_head p);
  seal_claim p "spawn_attestation" event_id (_launch_claim_ids launch)
    (based_on "spawn-attestation-v3" head ++ launch_link launch ++
     [("launch_claim_commit_seq", DInt (lc_committed_at_seq launch))] ++ observed_now p stamp ++
     [("blocked_ack_digest", DStr (blocked_ack_digest a)); ("anchor_key_digest", DStr (anchor_key_digest a));
      ("witness_kind", DStr (witness_kind a)); ("verifier_version", DStr (verifier_version a));
      ("witness_locator", DStr (witness_locator a)); ("witness_identity_digest", DStr (witness_identity_digest a));
      ("registry_entry_digest", DStr (registry_entry_digest a))])
    "spawn_attestation_digest" SPAWN_ATTESTATION_TAG 4096 ordinary_bytes stamp
    (state_only OUTSTANDING "claimed_phase" "attested").

Definition activation_json (a : ActivationRow) : value :=
  DDict [("service", DStr (ac_service a)); ("grant_id", DStr (ac_grant_id a)); ("activation_digest", DStr (ac_digest a));
         ("activation_us", DInt (ac_us a))].

Definition plan_release_intent (p : Projection) (event_id : string) (activated_grants : list ActivationRow) (stamp : Stamp) :
    outcome (Plan + CapacityRefusal) :=
  let c := p_claims p in
  launch ← _claim_pre_release p stamp;
  match c_spawn_attestation c with
  | None => _fail_replay "replay_mismatch"
  | Some attested =>
      mismatch (negb (some_b (c_release_intent c)) && negb (some_b (c_process_observation c)) &&
        negb (filled (c_supervision_action_intents c)) && _claim_event_id_ok p event_id &&
        bool_decide (sa_receiver_boot_id attested = boot_id stamp) &&
        (Z.of_nat (length activated_grants) =? Z.of_nat (length (lc_grants launch))));;
      mismatch (forallb (λ '(a, grant), bool_decide (ac_service a = sr_service (gr_row grant)) &&
          bool_decide (ac_grant_id a = gr_grant_id grant) && _digest64 (ac_digest a) &&
          (sa_observed_us attested <=? ac_us a) && (ac_us a <=? mono_us stamp) && (ac_us a <? gr_expiry_us grant))
        (zip activated_grants (lc_grants launch)));;
      head ← the (p_head p);
      seal_claim p "release_intent" event_id (_launch_claim_ids launch)
        (based_on "release-intent-v3" head ++
         [("spawn_attestation_event_id", DStr (sa_event_id attested)); ("spawn_attestation_digest", DStr (sa_claim_digest attested));
          ("spawn_attestation_commit_seq", DInt (sa_committed_at_seq attested)); ("receiver_boot_id", str_opt (p_boot_id p));
          ("forwarder_generation", DStr (lc_forwarder_generation launch)); ("intended_release_us", DInt (mono_us stamp));
          ("activated_grants", DList (map activation_json activated_grants))])
        "release_intent_digest" RELEASE_INTENT_TAG 4096 ordinary_bytes stamp
        (state_only OUTSTANDING "claimed_phase" "release_intended")
  end.

Definition plan_release_observation (p : Projection) (event_id ack_digest : string) (stamp : Stamp) :
    outcome (Plan + CapacityRefusal) :=
  let c := p_claims p in
  match c_launch_claim c, c_release_intent c with
  | Some launch, Some intended =>
      mismatch (negb (some_b (c_release_observation c)) && _claim_event_id_ok p event_id && ready p stamp &&
        bool_decide (rl_receiver_boot_id intended = boot_id stamp) &&
        (Z.max (p_last_mono_us p) (rl_intended_release_us intended) <=? mono_us stamp) && (mono_us stamp <=? MAX_SEQ) &&
        _digest64 ack_digest);;
      head ← the (p_head p);
      seal_claim p "release_observation" event_id (_launch_claim_ids launch)
        (based_on "release-observation-v3" head ++
         [("release_intent_event_id", DStr (rl_event_id intended)); ("release_intent_digest", DStr (rl_claim_digest intended));
          ("release_intent_commit_seq", DInt (rl_committed_at_seq intended))] ++ observed_now p stamp ++
         [("ack_digest", DStr ack_digest)])
        "release_observation_digest" RELEASE_OBSERVATION_TAG 2048 total_bytes stamp
        (state_only OUTSTANDING "claimed_phase" "release_observed")
  | _, _ => _fail_replay "replay_mismatch"
  end.
