(* ===== verification/JournalEffects.v ===== *)
(** * Planning claim commits: effects, supervision, execution (journal_reducer.py)

    The claims of a released Run: effect intents and receipts, supervision
    actions and their results, what was observed of the process and its terminal
    result, the assessment, and read-back observations.  journal_execution_adapter.py
    is here too.  A claim's [None] fields are [DNone] in its record. *)

From S2P Require Import Prelude PyValue PyJson Sha256 CanonJson PyBytes JsonParse JournalValue JournalSource JournalRecords.
From S2P Require Import JournalClaims JournalSeal JournalState JournalPlan JournalClaimPlan.
From S2P Require RunOutcome.
Local Open Scope string_scope.
Local Open Scope Z_scope.
Local Open Scope list_scope.

Definition MAX_EFFECT_CLAIMS : Z := 64.
Definition MAX_RECONCILIATION_PER_OPERATION : Z := 4.
Definition MAX_RESTART_RECONCILIATION_PER_OPERATION : Z := 4.
Definition EFFECT_INTENT_TAG : string := "rj.effect-intent.v3".
Definition EFFECT_RECEIPT_TAG : string := "rj.effect-receipt.v3".
Definition SUPERVISION_ACTION_INTENT_TAG : string := "rj.supervision-action-intent.v3".
Definition SUPERVISION_ACTION_RESULT_TAG : string := "rj.supervision-action-result.v3".
Definition PROCESS_OBSERVATION_TAG : string := "rj.process-observation.v3".
Definition TERMINAL_OBSERVATION_TAG : string := "rj.terminal-observation.v3".
Definition EXECUTION_ASSESSMENT_TAG : string := "rj.execution-assessment.v3".
Definition RECONCILIATION_OBSERVATION_TAG : string := "rj.reconciliation-observation.v3".
Definition RESTART_RECONCILIATION_OBSERVATION_TAG : string := "rj.restart-reconciliation-observation.v3".

Definition EFFECT_ROUTE_SERVICE_V3 : dict string string :=
  [("anthropic.messages", "anthropic"); ("draft.create", "confluence"); ("draft.read", "confluence");
   ("draft.update", "confluence"); ("eyes.change_query", "grafana"); ("eyes.run_telemetry_query", "grafana");
   ("grafana_health", "grafana"); ("jira.comment.add", "jira"); ("jira.comment.get", "jira");
   ("jira.comments.list", "jira"); ("jira.issue.create", "jira"); ("jira.issue.get", "jira"); ("jira.issue.update", "jira");
   ("jira.search", "jira"); ("jira.transition", "jira"); ("logs_range", "grafana"); ("metrics_instant", "grafana");
   ("metrics_range", "grafana"); ("pod_events", "kubernetes"); ("pod_list", "kubernetes"); ("pod_status", "kubernetes");
   ("service_endpoints", "kubernetes"); ("reference.read", "confluence"); ("trace_get", "grafana");
   ("traces_search", "grafana")].

(** ** Effects *)
Record EffectRequest := {
  rq_service : string; rq_route_id : string; rq_grant_id : string; rq_scope_digest : string; rq_flight_id : string;
  rq_forwarder_receipt_id : string; rq_request_digest : string; rq_target_digest : string; rq_expires_us : Z;
}.

(** [next((row for row in launch.grants if row[0] == service), None)] *)
Definition grant_of (launch : LaunchClaim) (service : string) : option GrantRow :=
  head (filter (λ g, sr_service (gr_row g) = service) (lc_grants launch)).

Definition plan_effect_intent (p : Projection) (event_id operation_id : string) (q : EffectRequest) (stamp : Stamp) :
    outcome (Plan + CapacityRefusal) :=
  let c := p_claims p in
  let now := mono_us stamp in
  let effects := values_of (c_effect_intents c) in
  launch ← _claim_pre_release p stamp;
  match c_release_observation c, grant_of launch (rq_service q) with
  | Some released, Some grant =>
      mismatch (bool_decide (ro_receiver_boot_id released = boot_id stamp) && negb (some_b (c_process_observation c)) &&
        negb (filled (c_supervision_action_intents c)) && (ro_observed_us released <=? now) &&
        _claim_event_id_ok p event_id && _canonical_uuid operation_id && _claim_event_id_ok p operation_id &&
        negb (bool_decide (operation_id = event_id)) &&
        bool_decide (dict_get EFFECT_ROUTE_SERVICE_V3 (rq_route_id q) = Some (rq_service q)) &&
        _safe_grant_id (rq_grant_id q) && _digest64 (rq_scope_digest q) &&
        bool_decide (gr_grant_id grant = rq_grant_id q) && bool_decide (sr_scope_digest (gr_row grant) = rq_scope_digest q) &&
        _safe_grant_id (rq_flight_id q) && _safe_grant_id (rq_forwarder_receipt_id q) &&
        negb (bool_decide (rq_flight_id q = rq_forwarder_receipt_id q)) &&
        negb (str_in (rq_flight_id q) (map ei_flight_id effects)) &&
        negb (str_in (rq_forwarder_receipt_id q) (map ei_forwarder_receipt_id effects)) &&
        _digest64 (rq_request_digest q) && _digest64 (rq_target_digest q) &&
        (now <? rq_expires_us q) && (rq_expires_us q <=? Z.min (lc_work_deadline_us launch) (gr_expiry_us grant)));;
      if MAX_EFFECT_CLAIMS <=? Z.of_nat (size (c_effect_intents c))
      then Ret (capacity "capacity_effect_claims" MAX_EFFECT_CLAIMS (Z.of_nat (size (c_effect_intents c)))) else
      head ← the (p_head p);
      seal_claim p "effect_intent" event_id
        [("journal_uuid", DStr (lc_journal_uuid launch)); ("run_id", DStr (lc_run_id launch));
         ("attempt_id", DStr (lc_attempt_id launch)); ("reservation_id", DStr (lc_reservation_id launch));
         ("operation_id", DStr operation_id)]
        (based_on "effect-intent-v3" head ++
         [("release_observation_event_id", DStr (ro_event_id released));
          ("release_observation_digest", DStr (ro_claim_digest released));
          ("release_observation_commit_seq", DInt (ro_committed_at_seq released)); ("receiver_boot_id", str_opt (p_boot_id p));
          ("forwarder_generation", DStr (lc_forwarder_generation launch)); ("service", DStr (rq_service q));
          ("route_id", DStr (rq_route_id q)); ("grant_id", DStr (rq_grant_id q)); ("scope_digest", DStr (rq_scope_digest q));
          ("flight_id", DStr (rq_flight_id q)); ("forwarder_receipt_id", DStr (rq_forwarder_receipt_id q));
          ("request_digest", DStr (rq_request_digest q)); ("target_digest", DStr (rq_target_digest q));
          ("observed_us", DInt now); ("expires_us", DInt (rq_expires_us q))])
        "effect_intent_digest" EFFECT_INTENT_TAG 4096 ordinary_bytes stamp
        (state_only "effects_unqualified" "operation_id" operation_id)
  | _, _ => _fail_replay "replay_mismatch"
  end.

Definition plan_effect_receipt (p : Projection) (event_id operation_id claimed_dispatch_state claimed_reason
    finalized_receipt_digest : string) (stamp : Stamp) : outcome (Plan + CapacityRefusal) :=
  let c := p_claims p in
  match c_effect_intents c !! operation_id with
  | None => _fail_replay "replay_mismatch"
  | Some intent =>
      mismatch (negb (some_b (c_effect_receipts c !! operation_id)) && _claim_event_id_ok p event_id && ready p stamp &&
        bool_decide (ei_receiver_boot_id intent = boot_id stamp) &&
        (Z.max (p_last_mono_us p) (ei_observed_us intent) <=? mono_us stamp) && (mono_us stamp <=? MAX_SEQ) &&
        listed_under EFFECT_CLAIM_REASONS (DStr claimed_dispatch_state) (DStr claimed_reason) &&
        _digest64 finalized_receipt_digest);;
      head ← the (p_head p);
      seal_claim p "effect_receipt" event_id
        [("run_id", DStr (ei_run_id intent)); ("attempt_id", DStr (ei_attempt_id intent)); ("operation_id", DStr operation_id)]
        (based_on "effect-receipt-v3" head ++
         [("effect_intent_event_id", DStr (ei_event_id intent)); ("effect_intent_digest", DStr (ei_claim_digest intent));
          ("effect_intent_commit_seq", DInt (ei_committed_at_seq intent)); ("receiver_boot_id", str_opt (p_boot_id p));
          ("service", DStr (ei_service intent)); ("grant_id", DStr (ei_grant_id intent));
          ("flight_id", DStr (ei_flight_id intent)); ("forwarder_receipt_id", DStr (ei_forwarder_receipt_id intent));
          ("claimed_dispatch_state", DStr claimed_dispatch_state); ("claimed_reason", DStr claimed_reason);
          ("finalized_receipt_digest", DStr finalized_receipt_digest); ("observed_us", DInt (mono_us stamp))])
        "effect_receipt_digest" EFFECT_RECEIPT_TAG 2048 total_bytes stamp
        (state_only "effects_unqualified" "operation_id" operation_id)
  end.

(** ** Supervision actions *)
Definition _supervision_action_phase (p : Projection) (launch : LaunchClaim) : string * string * string :=
  let c := p_claims p in
  match c_release_observation c, c_release_intent c, c_spawn_attestation c with
  | Some observed, _, _ => ("released_observed", ro_event_id observed, ro_claim_digest observed)
  | None, Some intended, _ => ("release_unknown", rl_event_id intended, rl_claim_digest intended)
  | None, None, Some attested => ("blocked_pre_release", sa_event_id attested, sa_claim_digest attested)
  | None, None, None => ("pre_attestation", lc_launch_claim_id launch, lc_launch_claim_digest launch)
  end.

(** The actions of a kind, and [revokes.get(grant_id)].  A grant is revoked at
    most once, so the order of the dict does not matter. *)
Definition acted (p : Projection) (kind : string) : bool :=
  existsb (λ a, bool_decide (si_action_kind a = kind)) (values_of (c_supervision_action_intents (p_claims p))).
Definition revokes (p : Projection) : list SupervisionActionIntentClaim :=
  filter (λ a, si_action_kind a = "revoke_grant") (values_of (c_supervision_action_intents (p_claims p))).
Definition revoke_of (p : Projection) (grant_id : string) : option SupervisionActionIntentClaim :=
  head (filter (λ a, si_grant_id a = Some grant_id) (revokes p)).

(** The guard of a revocation and of a signal. *)
Definition revoke_allowed (p : Projection) (launch : LaunchClaim) (service grant_id : option string) : bool :=
  match service, grant_id with
  | Some service, Some grant_id =>
      _safe_grant_id grant_id &&
      existsb (λ row, bool_decide (sr_service (gr_row row) = service) && bool_decide (gr_grant_id row = grant_id))
        (lc_grants launch) &&
      negb (some_b (revoke_of p grant_id)) &&
      forallb (λ a, bool_decide (si_action_kind a = "revoke_grant")) (values_of (c_supervision_action_intents (p_claims p)))
  | _, _ => false
  end.
Definition signal_allowed (p : Projection) (launch : LaunchClaim) (kind : string) (service grant_id : option string) : bool :=
  negb (some_b service) && negb (some_b grant_id) && some_b (c_spawn_attestation (p_claims p)) &&
  (Z.of_nat (length (remove_dups (map si_grant_id (revokes p)))) =? Z.of_nat (length (lc_grants launch))) &&
  forallb (λ row, some_b (revoke_of p (gr_grant_id row))) (lc_grants launch) && negb (acted p kind) &&
  negb (bool_decide (kind = "signal_interrupt") && acted p "signal_kill").

Definition plan_supervision_action_intent (p : Projection) (event_id action_id action_kind : string)
    (service grant_id : option string) (stamp : Stamp) : outcome (Plan + CapacityRefusal) :=
  let c := p_claims p in
  match c_launch_claim c with
  | None => _fail_replay "replay_mismatch"
  | Some launch =>
      mismatch (some_b (dict_get SUPERVISION_ACTION_OUTCOMES action_kind) && _claim_event_id_ok p event_id &&
        _claim_event_id_ok p action_id && negb (bool_decide (event_id = action_id)) && ready p stamp &&
        bool_decide (lc_receiver_boot_id launch = boot_id stamp) && since_boot p (lc_committed_at_seq launch) &&
        (p_last_mono_us p <=? mono_us stamp) && (mono_us stamp <? lc_hard_deadline_us launch));;
      mismatch (if bool_decide (action_kind = "revoke_grant") then revoke_allowed p launch service grant_id
                else signal_allowed p launch action_kind service grant_id);;
      mismatch (Z.of_nat (size (c_supervision_action_intents c)) <? Z.of_nat (length (lc_grants launch)) + 2);;
      let '(phase, phase_event_id, phase_digest) := _supervision_action_phase p launch in
      let of_attested f := of_option (λ a, DStr (f a)) (c_spawn_attestation c) in
      head ← the (p_head p);
      seal_claim p "supervision_action_intent" event_id
        [("journal_uuid", DStr (lc_journal_uuid launch)); ("run_id", DStr (lc_run_id launch));
         ("attempt_id", DStr (lc_attempt_id launch)); ("action_id", DStr action_id)]
        (based_on "supervision-action-intent-v3" head ++ launch_link launch ++
         [("receiver_boot_id", str_opt (p_boot_id p)); ("forwarder_generation", DStr (lc_forwarder_generation launch));
          ("action_kind", DStr action_kind); ("phase", DStr phase); ("phase_event_id", DStr phase_event_id);
          ("phase_digest", DStr phase_digest); ("service", str_opt service); ("grant_id", str_opt grant_id);
          ("attestation_event_id", of_attested sa_event_id); ("attestation_digest", of_attested sa_claim_digest);
          ("witness_locator", of_attested sa_witness_locator);
          ("witness_identity_digest", of_attested sa_witness_identity_digest);
          ("prior_revoke_action_ids", DList (if bool_decide (action_kind = "revoke_grant") then []
             else omap (λ row, (λ a, DStr (si_action_id a)) <$> revoke_of p (gr_grant_id row)) (lc_grants launch)));
          ("observed_us", DInt (mono_us stamp))])
        "action_intent_digest" SUPERVISION_ACTION_INTENT_TAG 4096 total_bytes stamp
        (state_only "supervision_actions_unqualified" "action_id" action_id)
  end.

Definition plan_supervision_action_result (p : Projection) (event_id action_id claimed_outcome : string) (stamp : Stamp) :
    outcome (Plan + CapacityRefusal) :=
  let c := p_claims p in
  match c_supervision_action_intents c !! action_id, c_launch_claim c with
  | Some intent, Some launch =>
      mismatch (negb (some_b (c_supervision_action_results c !! action_id)) && _claim_event_id_ok p event_id && ready p stamp &&
        bool_decide (lc_receiver_boot_id launch = boot_id stamp) &&
        (Z.max (p_last_mono_us p) (si_observed_us intent) <=? mono_us stamp) && (mono_us stamp <=? MAX_SEQ));;
      match dict_get SUPERVISION_ACTION_OUTCOMES (si_action_kind intent) with
      | None => Raise (Exn "KeyError" "")
      | Some outcomes =>
          mismatch (str_in claimed_outcome outcomes);;
          head ← the (p_head p);
          seal_claim p "supervision_action_result" event_id
            [("run_id", DStr (lc_run_id launch)); ("attempt_id", DStr (lc_attempt_id launch)); ("action_id", DStr action_id)]
            (based_on "supervision-action-result-v3" head ++
             [("action_intent_event_id", DStr (si_event_id intent)); ("action_intent_digest", DStr (si_claim_digest intent));
              ("action_intent_commit_seq", DInt (si_committed_at_seq intent)); ("receiver_boot_id", str_opt (p_boot_id p));
              ("action_kind", DStr (si_action_kind intent)); ("claimed_outcome", DStr claimed_outcome);
              ("observed_us", DInt (mono_us stamp))])
            "action_result_digest" SUPERVISION_ACTION_RESULT_TAG 2048 total_bytes stamp
            (state_only "supervision_actions_unqualified" "action_id" action_id)
      end
  | _, _ => _fail_replay "replay_mismatch"
  end.

(** ** Execution (with journal_execution_adapter.py) *)
Definition validate_execution_process (facts : RunOutcome.ProcessFacts) : bool :=
  match RunOutcome.assess_execution (Some facts) (Some []) with
  | Ret _ => true
  | Raise _ => false
  end.

(** [JSONPolicyError] and [RecordError] become [None]; no other error occurs. *)
Definition seal_execution_claim (draft : Draft) (position : Position) (stamp : Stamp) (tag digest_key : string) :
    outcome (option JournalRecord) :=
  data ← thaw (DDict (dr_data draft));
  let sealed :=
    ids ← thaw (DDict (dr_ids draft));
    digest ← claim_digest tag (dr_event_id draft) (dict_of ids) (dict_of data);
    seal {| dr_event_id := dr_event_id draft; dr_event_type := dr_event_type draft; dr_actor := dr_actor draft;
            dr_ids := dr_ids draft; dr_data := dict_set (dict_of data) digest_key (DStr digest) |} position stamp 3 in
  match sealed with
  | Ret record => Ret (Some record)
  | Raise e => if str_in (exn_class e) ["JSONPolicyError"; "RecordError"] then Ret None else Raise e
  end.

Definition _execution_base (p : Projection) (event_id : string) (stamp : Stamp) (rule : string) :
    outcome (LaunchClaim * members * members) :=
  match c_launch_claim (p_claims p) with
  | None => _fail_replay "replay_mismatch"
  | Some launch =>
      mismatch (_claim_event_id_ok p event_id && ready p stamp && bool_decide (lc_receiver_boot_id launch = boot_id stamp) &&
        since_boot p (lc_committed_at_seq launch) && (p_last_mono_us p <=? mono_us stamp) && (mono_us stamp <=? MAX_SEQ));;
      head ← the (p_head p);
      Ret (launch,
        [("journal_uuid", DStr (lc_journal_uuid launch)); ("run_id", DStr (lc_run_id launch));
         ("attempt_id", DStr (lc_attempt_id launch))],
        based_on rule head ++ launch_link launch ++ observed_now p stamp)
  end.

Definition _seal_execution (p : Projection) (event_id event_type : string) (ids data : members) (digest_key tag : string)
    (cap : Z) (stamp : Stamp) : outcome (Plan + CapacityRefusal) :=
  position ← _single_position p;
  sealed ← seal_execution_claim {| dr_event_id := event_id; dr_event_type := event_type; dr_actor := "receiver";
    dr_ids := ids; dr_data := data |} position stamp tag digest_key;
  match sealed with
  | None => _fail_replay "replay_mismatch"
  | Some record =>
      mismatch (str_len (body record) <=? cap);;
      within_region p total_bytes [record] [("state", DStr "execution_unqualified"); ("claim", DStr event_type)]
  end.

(** Python values of the two models. *)
Definition of_pyval (v : pyval) : value :=
  match v with VNone => DNone | VBool b => DBool b | VInt z => DInt z | VStr s => DStr s | VFloat _ | VObject => DOther end.
Definition to_pyval (v : value) : pyval :=
  match v with DNone => VNone | DBool b => VBool b | DInt z => VInt z | DStr s => VStr s | _ => VObject end.

Definition facts_json (f : RunOutcome.ProcessFacts) : members :=
  [("spawn_state", of_pyval (RunOutcome.spawn_state f)); ("exit_observed", of_pyval (RunOutcome.exit_observed f));
   ("exit_code", of_pyval (RunOutcome.exit_code f)); ("exit_signal", of_pyval (RunOutcome.exit_signal f));
   ("timed_out", of_pyval (RunOutcome.timed_out f)); ("cancelled", of_pyval (RunOutcome.cancelled f));
   ("containment", of_pyval (RunOutcome.containment f))].

Definition plan_process_observation (p : Projection) (event_id : string) (facts : RunOutcome.ProcessFacts)
    (source_digest : string) (stamp : Stamp) : outcome (Plan + CapacityRefusal) :=
  '(_, ids, data) ← _execution_base p event_id stamp "process-observation-v3";
  let c := p_claims p in
  mismatch (negb (some_b (c_process_observation c)) &&
    negb (bool_decide (of_pyval (RunOutcome.spawn_state facts) = DStr "failed_before_process") && some_b (c_spawn_attestation c)));;
  mismatch (validate_execution_process facts && _digest64 source_digest);;
  _seal_execution p event_id "process_observation" ids (data ++ facts_json facts ++ [("source_digest", DStr source_digest)])
    "process_observation_digest" PROCESS_OBSERVATION_TAG 4096 stamp.

Record TerminalSummary := {
  ts_count_class : value; ts_quality : value; ts_invalidity_code : value; ts_subtype : value; ts_is_error : value;
  ts_reason_code : value; ts_usage_state : value; ts_source_digest : value;
}.
Definition summary_json (t : TerminalSummary) : members :=
  [("count_class", ts_count_class t); ("quality", ts_quality t); ("invalidity_code", ts_invalidity_code t);
   ("subtype", ts_subtype t); ("is_error", ts_is_error t); ("reason_code", ts_reason_code t);
   ("usage_state", ts_usage_state t); ("source_digest", ts_source_digest t)].

Definition process_link (process : ProcessObservationClaim) : members :=
  [("process_event_id", DStr (po_event_id process)); ("process_digest", DStr (po_claim_digest process));
   ("process_commit_seq", DInt (po_committed_at_seq process))].

Definition plan_terminal_observation (p : Projection) (event_id : string) (t : TerminalSummary) (stamp : Stamp) :
    outcome (Plan + CapacityRefusal) :=
  '(_, ids, data) ← _execution_base p event_id stamp "terminal-observation-v3";
  match c_process_observation (p_claims p) with
  | None => _fail_replay "replay_mismatch"
  | Some process =>
      mismatch (negb (some_b (c_terminal_observation (p_claims p))) &&
        bool_decide (Some (po_receiver_boot_id process) = p_boot_id p));;
      _seal_execution p event_id "terminal_observation" ids (data ++ process_link process ++ summary_json t)
        "terminal_observation_digest" TERMINAL_OBSERVATION_TAG 4096 stamp
  end.

(** [terminal.source_digest or ZERO_DIGEST] *)
Definition digest_or_zero (v : value) : value :=
  match v with DNone | DStr EmptyString => DStr ZERO_DIGEST | _ => v end.

Definition terminal_facts (t : TerminalObservationClaim) : list RunOutcome.TerminalFacts :=
  let digest := to_pyval (digest_or_zero (to_source_digest t)) in
  let dummy := RunOutcome.mkTerminalFacts (VStr "success") (VBool false) VNone (VStr "absent") digest in
  if bool_decide (to_count_class t = "none") then []
  else if bool_decide (to_count_class t = "multiple") then [dummy; dummy]
  else if bool_decide (to_quality t = DStr "invalid")
  then [RunOutcome.mkTerminalFacts (VStr "invalid") (VBool false) VNone (VStr "absent") digest]
  else [RunOutcome.mkTerminalFacts (to_pyval (to_subtype t)) (to_pyval (to_is_error t)) (to_pyval (to_reason_code t))
          (to_pyval (to_usage_state t)) digest].

Definition _derive_execution (p : Projection) : outcome RunOutcome.ExecutionAssessment :=
  match c_process_observation (p_claims p), c_terminal_observation (p_claims p) with
  | Some process, Some terminal => RunOutcome.assess_execution (Some (po_facts process)) (Some (map Some (terminal_facts terminal)))
  | _, _ => _fail_replay "replay_mismatch"
  end.

Definition plan_execution_assessment (p : Projection) (event_id : string) (stamp : Stamp) : outcome (Plan + CapacityRefusal) :=
  '(_, ids, data) ← _execution_base p event_id stamp "execution-assessment-v3";
  match c_process_observation (p_claims p), c_terminal_observation (p_claims p) with
  | Some process, Some terminal =>
      mismatch (negb (some_b (c_execution_assessment (p_claims p))) &&
        bool_decide (Some (po_receiver_boot_id process) = p_boot_id p) &&
        bool_decide (Some (to_receiver_boot_id terminal) = p_boot_id p));;
      assessment ← _derive_execution p;
      _seal_execution p event_id "execution_assessment" ids
        (data ++ process_link process ++
         [("terminal_event_id", DStr (to_event_id terminal)); ("terminal_digest", DStr (to_claim_digest terminal));
          ("terminal_commit_seq", DInt (to_committed_at_seq terminal)); ("state", DStr (RunOutcome.ea_state assessment));
          ("reasons", DList (map DStr (RunOutcome.ea_reasons assessment))); ("usage", DStr (RunOutcome.ea_usage assessment));
          ("never_started", DBool (RunOutcome.ea_never_started assessment))])
        "execution_assessment_digest" EXECUTION_ASSESSMENT_TAG 2048 stamp
  | _, _ => _fail_replay "replay_mismatch"
  end.

(** ** Read-back observations *)
Record ReadBack := {
  rd_reported_state : string; rd_source_evidence_digest : string; rd_version_digest : option string;
}.
Definition read_back_ok (r : ReadBack) : bool :=
  str_in (rd_reported_state r) RECONCILIATION_REPORTED_STATES && _digest64 (rd_source_evidence_digest r) &&
  (negb (str_in (rd_reported_state r) ["confirmed"; "conflict"]) ||
   match rd_version_digest r with Some d => _digest64 d | None => false end) &&
  (negb (str_in (rd_reported_state r) ["absent"; "unavailable"]) || negb (some_b (rd_version_digest r))).

Definition operation_ids (launch : LaunchClaim) (operation_id : string) : members :=
  [("journal_uuid", DStr (lc_journal_uuid launch)); ("run_id", DStr (lc_run_id launch));
   ("attempt_id", DStr (lc_attempt_id launch)); ("operation_id", DStr operation_id)].
Definition effect_link (intent : EffectIntentClaim) : members :=
  [("effect_intent_event_id", DStr (ei_event_id intent)); ("effect_intent_digest", DStr (ei_claim_digest intent));
   ("effect_intent_commit_seq", DInt (ei_committed_at_seq intent))].
Definition read_back_json (index : Z) (source_kind : string) (r : ReadBack) (intent : EffectIntentClaim) : members :=
  [("observation_index", DInt index); ("source_kind", DStr source_kind); ("reported_state", DStr (rd_reported_state r));
   ("source_evidence_digest", DStr (rd_source_evidence_digest r)); ("target_digest", DStr (ei_target_digest intent));
   ("version_digest", str_opt (rd_version_digest r))].
Definition source_kind_of (intent : EffectIntentClaim) : option string :=
  dict_get RECONCILIATION_SOURCE_BY_ROUTE (ei_route_id intent).

Definition plan_reconciliation_observation (p : Projection) (event_id operation_id : string) (r : ReadBack) (stamp : Stamp) :
    outcome (Plan + CapacityRefusal) :=
  let c := p_claims p in
  match c_effect_intents c !! operation_id, c_launch_claim c with
  | Some intent, Some launch =>
      match source_kind_of intent with
      | None => _fail_replay "replay_mismatch"
      | Some source_kind =>
          mismatch (_claim_event_id_ok p event_id && ready p stamp && bool_decide (lc_receiver_boot_id launch = boot_id stamp) &&
            bool_decide (ei_receiver_boot_id intent = boot_id stamp) && since_boot p (lc_committed_at_seq launch) &&
            (Z.max (p_last_mono_us p) (ei_observed_us intent) <=? mono_us stamp) && (mono_us stamp <=? MAX_SEQ) &&
            read_back_ok r);;
          let previous := Z.of_nat (length (default [] (c_reconciliation_observations c !! operation_id))) in
          if MAX_RECONCILIATION_PER_OPERATION <=? previous
          then Ret (capacity "capacity_reconciliation_claims" MAX_RECONCILIATION_PER_OPERATION previous) else
          head ← the (p_head p);
          seal_claim p "reconciliation_observation" event_id (operation_ids launch operation_id)
            (based_on "reconciliation-observation-v3" head ++ launch_link launch ++ effect_link intent ++ observed_now p stamp ++
             read_back_json (previous + 1) source_kind r intent)
            "reconciliation_observation_digest" RECONCILIATION_OBSERVATION_TAG 2048 total_bytes stamp
            (state_only "reconciliation_unqualified" "operation_id" operation_id)
      end
  | _, _ => _fail_replay "replay_mismatch"
  end.

Definition plan_restart_reconciliation_observation (p : Projection) (event_id operation_id : string) (r : ReadBack)
    (stamp : Stamp) : outcome (Plan + CapacityRefusal) :=
  let c := p_claims p in
  match c_effect_intents c !! operation_id, c_launch_claim c, p_boot_recovered p with
  | Some intent, Some launch, Some recovered =>
      match source_kind_of intent, p_boot_start_commit_seq p, p_boot_start_record_digest p with
      | Some source_kind, Some start_seq, Some start_digest =>
          mismatch (some_b (p_dispatch_holds p !! "restart_recovery") && _claim_event_id_ok p event_id && ready p stamp &&
            negb (bool_decide (ei_receiver_boot_id intent = boot_id stamp)) && (p_last_mono_us p <=? mono_us stamp) &&
            (mono_us stamp <=? MAX_SEQ) && (ei_committed_at_seq intent <? start_seq) &&
            (hd_commit_seq recovered + 1 =? start_seq) && read_back_ok r);;
          let previous := Z.of_nat (length (default [] (c_restart_reconciliations c !! operation_id))) in
          if MAX_RESTART_RECONCILIATION_PER_OPERATION <=? previous
          then Ret (capacity "capacity_restart_reconciliation_claims" MAX_RESTART_RECONCILIATION_PER_OPERATION previous) else
          head ← the (p_head p);
          seal_claim p "restart_reconciliation_observation" event_id (operation_ids launch operation_id)
            (based_on "restart-reconciliation-observation-v3" head ++ launch_link launch ++ effect_link intent ++
             observed_now p stamp ++
             [("prior_effect_boot_id", DStr (ei_receiver_boot_id intent)); ("restart_commit_seq", DInt start_seq);
              ("restart_record_digest", DStr start_digest); ("recovered_commit_seq", DInt (hd_commit_seq recovered));
              ("recovered_event_seq", DInt (hd_event_seq recovered));
              ("recovered_record_digest", DStr (hd_record_digest recovered))] ++
             read_back_json (previous + 1) source_kind r intent)
            "restart_reconciliation_observation_digest" RESTART_RECONCILIATION_OBSERVATION_TAG 3072 total_bytes stamp
            (state_only "reconciliation_unqualified" "operation_id" operation_id)
      | _, _, _ => _fail_replay "replay_mismatch"
      end
  | _, _, _ => _fail_replay "replay_mismatch"
  end.
