(* ===== verification/JournalClaimVerify.v ===== *)
(** * Verifying claim commits (journal_reducer.py)

    Each verifier plans the claim again from the fields of the record and
    demands the very same record.  As in [JournalVerify], the keys read here
    were checked when the record was sealed or opened. *)

From S2P Require Import Prelude PyValue PyJson Sha256 CanonJson PyBytes JsonParse JournalValue JournalSource JournalRecords.
From S2P Require Import JournalClaims JournalSeal JournalState JournalPlan JournalVerify JournalClaimPlan JournalEffects.
From S2P Require RunOutcome.
Local Open Scope string_scope.
Local Open Scope Z_scope.
Local Open Scope list_scope.

(** ** Shared steps *)

(** [schema_version != 3 or len(body) > cap], negated. *)
Definition version_3 (record : JournalRecord) (cap : Z) : outcome unit :=
  mismatch ((schema_version record =? 3) && (str_len (body record) <=? cap)).

(** [exact_plan], with equal ids and data as well. *)
Definition _verify_exact_claim_plan (result : outcome (Plan + CapacityRefusal)) (record : JournalRecord) : outcome Plan :=
  plan ← exact_plan result record;
  match pl_records plan with
  | planned :: _ =>
      mismatch (py_eq (DDict (ids planned)) (DDict (ids record)) && py_eq (DDict (data planned)) (DDict (data record)));;
      Ret plan
  | [] => Raise (Exn "IndexError" "")
  end.

Definition _claim_delta (p : Projection) (record : JournalRecord) (commit_seq charge : Z) (claim : change) : Delta :=
  after p record commit_seq charge claim.

(** A field that may be [None]. *)
Definition opt_at (r : JournalRecord) (key : string) : option string :=
  match get (data r) key with DStr s => Some s | _ => None end.
(** The dicts of a list of rows. *)
Definition rows_at (r : JournalRecord) (key : string) : list members := map dict_of (default [] (items (get (data r) key))).

(** ** Reservations *)
Definition intent_ids_of (r : JournalRecord) : IntentIds :=
  {| job := id_of r "job_id"; admission := id_of r "admission_id"; intent := id_of r "intent_id";
     attempt := id_of r "attempt_id"; reservation := id_of r "reservation_id"; run := id_of r "run_id";
     lease := id_of r "lease_id" |}.

Definition reservation_claim (p : Projection) (r : JournalRecord) (commit_seq : Z) : ReservationIntentClaim :=
  {| ri_journal_uuid := default "" (p_journal_uuid p); ri_journal_generation := p_generation p;
     ri_admission_id := id_of r "admission_id"; ri_job_id := id_of r "job_id"; ri_intent_id := id_of r "intent_id";
     ri_attempt_id := id_of r "attempt_id"; ri_reservation_id := id_of r "reservation_id"; ri_run_id := id_of r "run_id";
     ri_lease_id := id_of r "lease_id"; ri_intent_digest := text_at r "intent_digest";
     ri_based_on_commit_seq := int_at r "based_on_commit_seq"; ri_committed_at_seq := commit_seq |}.

Definition _verify_reservation_intent (p : Projection) (record : JournalRecord) (commit_seq : Z) : outcome Delta :=
  mismatch (schema_version record =? 2);;
  plan ← exact_plan (plan_reservation_intent p (intent_ids_of record) (stamp record)) record;
  Ret (after p record commit_seq (pl_charge plan) (ReservationIntentAdd (reservation_claim p record commit_seq))).

Definition _verify_initial_reservation_intent (p : Projection) (record : JournalRecord) (commit_seq : Z) : outcome Delta :=
  mismatch (schema_version record =? 3);;
  plan ← exact_plan (plan_initial_reservation_intent p (intent_ids_of record) (stamp record)) record;
  Ret (after p record commit_seq (pl_charge plan) (InitialReservationIntentAdd
    {| ii_claim := reservation_claim p record commit_seq; ii_member_count := int_at record "member_count";
       ii_member_digest := text_at record "member_digest" |})).

Definition _verify_reservation_confirmation (p : Projection) (record : JournalRecord) (commit_seq : Z) : outcome Delta :=
  mismatch ((schema_version record =? 2) || (schema_version record =? 3));;
  let planner := if schema_version record =? 2 then plan_reservation_confirmation else plan_initial_reservation_confirmation in
  let event := {| ledger_uuid := text_at record "ledger_uuid"; ledger_generation := int_at record "ledger_generation";
    ledger_event_id := text_at record "ledger_event_id"; sequence := int_at record "sequence";
    event_digest := text_at record "event_digest" |} in
  plan ← exact_plan (planner p (id_of record "intent_id") (event_id record) event (stamp record)) record;
  let claim := {| rc_intent_id := id_of record "intent_id"; rc_confirmation_event_id := event_id record;
    rc_intent_digest := text_at record "intent_digest"; rc_ledger_uuid := ledger_uuid event;
    rc_ledger_generation := ledger_generation event; rc_ledger_event_id := ledger_event_id event;
    rc_sequence := sequence event; rc_event_digest := event_digest event; rc_committed_at_seq := commit_seq |} in
  Ret (after p record commit_seq (pl_charge plan)
    (if schema_version record =? 2 then ReservationConfirmationAdd claim else InitialReservationConfirmationAdd claim)).

(** ** Run intent, launch, spawn and release *)
Definition service_row (m : members) : ServiceRow :=
  {| sr_service := text_of (get m "service"); sr_lease_claim_id := text_of (get m "lease_claim_id");
     sr_scope_digest := text_of (get m "scope_digest") |}.

Definition _verify_run_intent (p : Projection) (record : JournalRecord) (commit_seq : Z) : outcome Delta :=
  version_3 record 4096;;
  let ledger_head := dict_of (get (data record) "ledger_head") in
  let services := map service_row (rows_at record "services") in
  plan ← exact_plan (plan_run_intent p (id_of record "intent_id") (event_id record) (int_of (get ledger_head "sequence"))
    (text_of (get ledger_head "event_digest")) services (stamp record)) record;
  Ret (after p record commit_seq (pl_charge plan) (RunIntentAdd
    {| rn_run_intent_id := event_id record; rn_journal_uuid := id_of record "journal_uuid"; rn_journal_generation := p_generation p;
       rn_admission_id := id_of record "admission_id"; rn_job_id := id_of record "job_id"; rn_intent_id := id_of record "intent_id";
       rn_attempt_id := id_of record "attempt_id"; rn_reservation_id := id_of record "reservation_id";
       rn_run_id := id_of record "run_id"; rn_model_lease_id := id_of record "lease_id";
       rn_initial_intent_digest := text_at record "intent_digest"; rn_confirmation_event_id := text_at record "confirmation_event_id";
       rn_ledger_uuid := text_at record "ledger_uuid"; rn_ledger_generation := int_at record "ledger_generation";
       rn_ledger_event_id := text_at record "ledger_event_id"; rn_ledger_sequence := int_at record "sequence";
       rn_ledger_event_digest := text_at record "event_digest"; rn_ledger_head_sequence := int_of (get ledger_head "sequence");
       rn_ledger_head_digest := text_of (get ledger_head "event_digest"); rn_member_count := int_at record "member_count";
       rn_member_digest := text_at record "member_digest"; rn_services := services;
       rn_run_intent_digest := text_at record "run_intent_digest"; rn_committed_at_seq := commit_seq |})).

Definition grant_row (m : members) : GrantRow :=
  {| gr_row := service_row m; gr_grant_id := text_of (get m "grant_id"); gr_expiry_us := int_of (get m "grant_expiry_us") |}.

Definition _verify_launch_claim (p : Projection) (record : JournalRecord) (commit_seq : Z) : outcome Delta :=
  version_3 record 6144;;
  let grants := map grant_row (rows_at record "grants") in
  plan ← _verify_exact_claim_plan (plan_launch_claim p (event_id record) (text_at record "forwarder_generation")
    (text_at record "barrier_token_digest") grants (stamp record)) record;
  Ret (after p record commit_seq (pl_charge plan) (LaunchClaimAdd
    {| lc_launch_claim_id := event_id record; lc_run_intent_id := text_at record "run_intent_event_id";
       lc_run_intent_digest := text_at record "run_intent_digest"; lc_journal_uuid := id_of record "journal_uuid";
       lc_admission_id := id_of record "admission_id"; lc_job_id := id_of record "job_id"; lc_intent_id := id_of record "intent_id";
       lc_attempt_id := id_of record "attempt_id"; lc_reservation_id := id_of record "reservation_id";
       lc_run_id := id_of record "run_id"; lc_model_lease_id := id_of record "lease_id";
       lc_receiver_boot_id := text_at record "receiver_boot_id"; lc_forwarder_generation := text_at record "forwarder_generation";
       lc_barrier_token_digest := text_at record "barrier_token_digest"; lc_origin_us := int_at record "origin_us";
       lc_work_deadline_us := int_at record "work_deadline_us"; lc_flush_deadline_us := int_at record "flush_deadline_us";
       lc_hard_deadline_us := int_at record "hard_deadline_us"; lc_grants := grants;
       lc_launch_claim_digest := text_at record "launch_claim_digest"; lc_committed_at_seq := commit_seq |})).

Definition _verify_spawn_attestation (p : Projection) (record : JournalRecord) (commit_seq : Z) : outcome Delta :=
  version_3 record 4096;;
  plan ← _verify_exact_claim_plan (plan_spawn_attestation p (event_id record)
    {| blocked_ack_digest := text_at record "blocked_ack_digest"; anchor_key_digest := text_at record "anchor_key_digest";
       witness_kind := text_at record "witness_kind"; verifier_version := text_at record "verifier_version";
       witness_locator := text_at record "witness_locator"; witness_identity_digest := text_at record "witness_identity_digest";
       registry_entry_digest := text_at record "registry_entry_digest" |} (stamp record)) record;
  Ret (_claim_delta p record commit_seq (pl_charge plan) (SpawnAttestationAdd
    {| sa_event_id := event_id record; sa_claim_digest := text_at record "spawn_attestation_digest";
       sa_launch_claim_id := text_at record "launch_claim_event_id"; sa_run_id := id_of record "run_id";
       sa_attempt_id := id_of record "attempt_id"; sa_receiver_boot_id := text_at record "receiver_boot_id";
       sa_observed_us := int_at record "observed_us"; sa_witness_locator := text_at record "witness_locator";
       sa_witness_identity_digest := text_at record "witness_identity_digest"; sa_committed_at_seq := commit_seq |})).

Definition activation_row (m : members) : ActivationRow :=
  {| ac_service := text_of (get m "service"); ac_grant_id := text_of (get m "grant_id");
     ac_digest := text_of (get m "activation_digest"); ac_us := int_of (get m "activation_us") |}.

Definition _verify_release_intent (p : Projection) (record : JournalRecord) (commit_seq : Z) : outcome Delta :=
  version_3 record 4096;;
  let activations := map activation_row (rows_at record "activated_grants") in
  plan ← _verify_exact_claim_plan (plan_release_intent p (event_id record) activations (stamp record)) record;
  Ret (_claim_delta p record commit_seq (pl_charge plan) (ReleaseIntentAdd
    {| rl_event_id := event_id record; rl_claim_digest := text_at record "release_intent_digest";
       rl_spawn_attestation_id := text_at record "spawn_attestation_event_id";
       rl_receiver_boot_id := text_at record "receiver_boot_id"; rl_intended_release_us := int_at record "intended_release_us";
       rl_activated_grants := activations; rl_committed_at_seq := commit_seq |})).

Definition _verify_release_observation (p : Projection) (record : JournalRecord) (commit_seq : Z) : outcome Delta :=
  version_3 record 2048;;
  plan ← _verify_exact_claim_plan (plan_release_observation p (event_id record) (text_at record "ack_digest") (stamp record)) record;
  Ret (_claim_delta p record commit_seq (pl_charge plan) (ReleaseObservationAdd
    {| ro_event_id := event_id record; ro_claim_digest := text_at record "release_observation_digest";
       ro_release_intent_id := text_at record "release_intent_event_id"; ro_receiver_boot_id := text_at record "receiver_boot_id";
       ro_observed_us := int_at record "observed_us"; ro_committed_at_seq := commit_seq |})).

(** ** Effects *)
Definition effect_request (r : JournalRecord) : EffectRequest :=
  {| rq_service := text_at r "service"; rq_route_id := text_at r "route_id"; rq_grant_id := text_at r "grant_id";
     rq_scope_digest := text_at r "scope_digest"; rq_flight_id := text_at r "flight_id";
     rq_forwarder_receipt_id := text_at r "forwarder_receipt_id"; rq_request_digest := text_at r "request_digest";
     rq_target_digest := text_at r "target_digest"; rq_expires_us := int_at r "expires_us" |}.

Definition _verify_effect_intent (p : Projection) (record : JournalRecord) (commit_seq : Z) : outcome Delta :=
  version_3 record 4096;;
  let q := effect_request record in
  plan ← _verify_exact_claim_plan (plan_effect_intent p (event_id record) (id_of record "operation_id") q (stamp record)) record;
  Ret (_claim_delta p record commit_seq (pl_charge plan) (EffectIntentAdd
    {| ei_event_id := event_id record; ei_claim_digest := text_at record "effect_intent_digest";
       ei_operation_id := id_of record "operation_id"; ei_run_id := id_of record "run_id"; ei_attempt_id := id_of record "attempt_id";
       ei_receiver_boot_id := text_at record "receiver_boot_id"; ei_forwarder_generation := text_at record "forwarder_generation";
       ei_service := rq_service q; ei_route_id := rq_route_id q; ei_grant_id := rq_grant_id q;
       ei_scope_digest := rq_scope_digest q; ei_flight_id := rq_flight_id q;
       ei_forwarder_receipt_id := rq_forwarder_receipt_id q; ei_request_digest := rq_request_digest q;
       ei_target_digest := rq_target_digest q; ei_observed_us := int_at record "observed_us"; ei_expires_us := rq_expires_us q;
       ei_committed_at_seq := commit_seq |})).

Definition _verify_effect_receipt (p : Projection) (record : JournalRecord) (commit_seq : Z) : outcome Delta :=
  version_3 record 2048;;
  plan ← _verify_exact_claim_plan (plan_effect_receipt p (event_id record) (id_of record "operation_id")
    (text_at record "claimed_dispatch_state") (text_at record "claimed_reason") (text_at record "finalized_receipt_digest")
    (stamp record)) record;
  Ret (_claim_delta p record commit_seq (pl_charge plan) (EffectReceiptAdd
    {| er_event_id := event_id record; er_claim_digest := text_at record "effect_receipt_digest";
       er_operation_id := id_of record "operation_id"; er_intent_event_id := text_at record "effect_intent_event_id";
       er_receiver_boot_id := text_at record "receiver_boot_id";
       er_claimed_dispatch_state := text_at record "claimed_dispatch_state"; er_claimed_reason := text_at record "claimed_reason";
       er_finalized_receipt_digest := text_at record "finalized_receipt_digest"; er_observed_us := int_at record "observed_us";
       er_committed_at_seq := commit_seq |})).

(** ** Supervision actions *)
Definition _verify_supervision_action_intent (p : Projection) (record : JournalRecord) (commit_seq : Z) : outcome Delta :=
  version_3 record 4096;;
  plan ← _verify_exact_claim_plan (plan_supervision_action_intent p (event_id record) (id_of record "action_id")
    (text_at record "action_kind") (opt_at record "service") (opt_at record "grant_id") (stamp record)) record;
  Ret (_claim_delta p record commit_seq (pl_charge plan) (SupervisionActionIntentAdd
    {| si_event_id := event_id record; si_claim_digest := text_at record "action_intent_digest";
       si_action_id := id_of record "action_id"; si_action_kind := text_at record "action_kind";
       si_phase := text_at record "phase"; si_phase_event_id := text_at record "phase_event_id";
       si_service := opt_at record "service"; si_grant_id := opt_at record "grant_id";
       si_observed_us := int_at record "observed_us"; si_committed_at_seq := commit_seq |})).

Definition _verify_supervision_action_result (p : Projection) (record : JournalRecord) (commit_seq : Z) : outcome Delta :=
  version_3 record 2048;;
  plan ← _verify_exact_claim_plan (plan_supervision_action_result p (event_id record) (id_of record "action_id")
    (text_at record "claimed_outcome") (stamp record)) record;
  Ret (_claim_delta p record commit_seq (pl_charge plan) (SupervisionActionResultAdd
    {| so_event_id := event_id record; so_claim_digest := text_at record "action_result_digest";
       so_action_id := id_of record "action_id"; so_intent_event_id := text_at record "action_intent_event_id";
       so_claimed_outcome := text_at record "claimed_outcome"; so_observed_us := int_at record "observed_us";
       so_committed_at_seq := commit_seq |})).

(** ** Execution *)
Definition facts_of (r : JournalRecord) : RunOutcome.ProcessFacts :=
  let at_key key := to_pyval (get (data r) key) in
  RunOutcome.mkProcessFacts (at_key "spawn_state") (at_key "exit_observed") (at_key "exit_code") (at_key "exit_signal")
    (at_key "timed_out") (at_key "cancelled") (at_key "containment").

Definition _verify_process_observation (p : Projection) (record : JournalRecord) (commit_seq : Z) : outcome Delta :=
  version_3 record 4096;;
  let facts := facts_of record in
  plan ← _verify_exact_claim_plan (plan_process_observation p (event_id record) facts (text_at record "source_digest")
    (stamp record)) record;
  Ret (_claim_delta p record commit_seq (pl_charge plan) (ProcessObservationAdd
    {| po_event_id := event_id record; po_claim_digest := text_at record "process_observation_digest";
       po_launch_claim_id := text_at record "launch_claim_event_id"; po_receiver_boot_id := text_at record "receiver_boot_id";
       po_facts := facts; po_source_digest := text_at record "source_digest"; po_observed_us := int_at record "observed_us";
       po_committed_at_seq := commit_seq |})).

Definition summary_of (r : JournalRecord) : TerminalSummary :=
  let at_key := get (data r) in
  {| ts_count_class := at_key "count_class"; ts_quality := at_key "quality"; ts_invalidity_code := at_key "invalidity_code";
     ts_subtype := at_key "subtype"; ts_is_error := at_key "is_error"; ts_reason_code := at_key "reason_code";
     ts_usage_state := at_key "usage_state"; ts_source_digest := at_key "source_digest" |}.

Definition _verify_terminal_observation (p : Projection) (record : JournalRecord) (commit_seq : Z) : outcome Delta :=
  version_3 record 4096;;
  let t := summary_of record in
  plan ← _verify_exact_claim_plan (plan_terminal_observation p (event_id record) t (stamp record)) record;
  Ret (_claim_delta p record commit_seq (pl_charge plan) (TerminalObservationAdd
    {| to_event_id := event_id record; to_claim_digest := text_at record "terminal_observation_digest";
       to_process_event_id := text_at record "process_event_id"; to_receiver_boot_id := text_at record "receiver_boot_id";
       to_count_class := text_of (ts_count_class t); to_quality := ts_quality t; to_invalidity_code := ts_invalidity_code t;
       to_subtype := ts_subtype t; to_is_error := ts_is_error t; to_reason_code := ts_reason_code t;
       to_usage_state := ts_usage_state t; to_source_digest := ts_source_digest t; to_observed_us := int_at record "observed_us";
       to_committed_at_seq := commit_seq |})).

Definition _verify_execution_assessment (p : Projection) (record : JournalRecord) (commit_seq : Z) : outcome Delta :=
  version_3 record 2048;;
  plan ← _verify_exact_claim_plan (plan_execution_assessment p (event_id record) (stamp record)) record;
  let assessment := RunOutcome.mkAssessment (text_at record "state")
    (map text_of (default [] (items (get (data record) "reasons")))) (text_at record "usage")
    (bool_decide (get (data record) "never_started" = DBool true)) in
  Ret (_claim_delta p record commit_seq (pl_charge plan) (ExecutionAssessmentAdd
    {| ea_event_id := event_id record; ea_claim_digest := text_at record "execution_assessment_digest";
       ea_process_event_id := text_at record "process_event_id"; ea_terminal_event_id := text_at record "terminal_event_id";
       ea_receiver_boot_id := text_at record "receiver_boot_id"; ea_assessment := assessment;
       ea_observed_us := int_at record "observed_us"; ea_committed_at_seq := commit_seq |})).

(** ** Read-back observations *)
Definition read_back_of (r : JournalRecord) : ReadBack :=
  {| rd_reported_state := text_at r "reported_state"; rd_source_evidence_digest := text_at r "source_evidence_digest";
     rd_version_digest := opt_at r "version_digest" |}.

Definition read_back_claim (r : JournalRecord) (digest_key : string) (commit_seq : Z) : ReconciliationObservationClaim :=
  {| rb_event_id := event_id r; rb_claim_digest := text_at r digest_key; rb_operation_id := id_of r "operation_id";
     rb_intent_event_id := text_at r "effect_intent_event_id"; rb_receiver_boot_id := text_at r "receiver_boot_id";
     rb_observation_index := int_at r "observation_index"; rb_source_kind := text_at r "source_kind";
     rb_reported_state := text_at r "reported_state"; rb_source_evidence_digest := text_at r "source_evidence_digest";
     rb_target_digest := text_at r "target_digest"; rb_version_digest := opt_at r "version_digest";
     rb_observed_us := int_at r "observed_us"; rb_committed_at_seq := commit_seq |}.

Definition _verify_reconciliation_observation (p : Projection) (record : JournalRecord) (commit_seq : Z) : outcome Delta :=
  version_3 record 2048;;
  plan ← _verify_exact_claim_plan (plan_reconciliation_observation p (event_id record) (id_of record "operation_id")
    (read_back_of record) (stamp record)) record;
  Ret (_claim_delta p record commit_seq (pl_charge plan)
    (ReconciliationObservationAdd (read_back_claim record "reconciliation_observation_digest" commit_seq))).

Definition _verify_restart_reconciliation_observation (p : Projection) (record : JournalRecord) (commit_seq : Z) : outcome Delta :=
  version_3 record 3072;;
  plan ← _verify_exact_claim_plan (plan_restart_reconciliation_observation p (event_id record) (id_of record "operation_id")
    (read_back_of record) (stamp record)) record;
  Ret (_claim_delta p record commit_seq (pl_charge plan) (RestartReconciliationAdd
    {| rr_claim := read_back_claim record "restart_reconciliation_observation_digest" commit_seq;
       rr_prior_effect_boot_id := text_at record "prior_effect_boot_id"; rr_restart_commit_seq := int_at record "restart_commit_seq";
       rr_restart_record_digest := text_at record "restart_record_digest" |})).
