(* ===== verification/JournalReplay.v ===== *)
(** * Commits and replay (journal_reducer.py)

    [verify_commit] checks the framing, chain, generation, boot and clock of a
    commit and dispatches on the types of its records; [group_commits] cuts a
    history into commits and [replay] folds each commit as it is yielded. *)

From S2P Require Import Prelude PyValue PyJson Sha256 CanonJson PyBytes JsonParse JournalValue JournalSource JournalRecords.
From S2P Require Import JournalClaims JournalSeal JournalState JournalPlan JournalVerify JournalClaimPlan JournalEffects.
From S2P Require Import JournalClaimVerify.
Local Open Scope string_scope.
Local Open Scope Z_scope.
Local Open Scope list_scope.

(** ** Shapes *)
Definition SINGLE_SHAPES : list string :=
  ["journal_genesis"; "restart_recovery"; "capacity_hold"; "ingress_refusal"; "operator_action"; "run_hold";
   "reservation_intent"; "reservation_confirmation"; "run_intent"; "launch_claim"; "spawn_attestation"; "release_intent";
   "release_observation"; "effect_intent"; "effect_receipt"; "supervision_action_intent"; "supervision_action_result";
   "process_observation"; "terminal_observation"; "execution_assessment"; "reconciliation_observation";
   "restart_reconciliation_observation"].
Definition _ADMISSION_PAIR_SHAPE : list string := ["admission"; "dedupe_decision"].

Inductive shape := Single (event_type : string) | AdmissionPair.
#[export] Instance shape_eq_dec : EqDecision shape.
Proof. solve_decision. Defined.

Definition _commit_shape (records : list JournalRecord) : outcome shape :=
  match map event_type records with
  | [t] => if str_in t SINGLE_SHAPES then Ret (Single t) else _fail_replay "replay_shape"
  | ts => if decide (ts = _ADMISSION_PAIR_SHAPE) then Ret AdmissionPair else _fail_replay "replay_shape"
  end.

(** ** Framing and chain *)

(** [enumerate(records)] against the first record's commit. *)
Fixpoint check_framing (records : list JournalRecord) (commit_seq0 size index : Z) : outcome unit :=
  match records with
  | [] => Ret tt
  | r :: records =>
      let pos := position r in
      replay_check ((commit_seq pos =? commit_seq0) && (commit_size pos =? size) && (commit_index pos =? index)) "replay_framing";;
      check_framing records commit_seq0 size (index + 1)
  end.

Fixpoint check_chain (records : list JournalRecord) (expected_event_seq : Z) (expected_prev_digest : string) : outcome unit :=
  match records with
  | [] => Ret tt
  | r :: records =>
      replay_check ((event_seq (position r) =? expected_event_seq) &&
        bool_decide (prev_record_digest (position r) = expected_prev_digest)) "replay_chain";;
      check_chain records (expected_event_seq + 1) (record_digest r)
  end.

(** [{f(record) for record in records}] has one element. *)
Definition one_value {A} `{EqDecision A} (f : JournalRecord → A) (records : list JournalRecord) : bool :=
  Nat.eqb (length (remove_dups (map f records))) 1.

(** The verifiers of single-record commits after genesis and restart, by type. *)
Definition verifiers : dict string (Projection → JournalRecord → Z → outcome Delta) :=
  [("capacity_hold", _verify_capacity_hold); ("ingress_refusal", _verify_ingress_refusal);
   ("operator_action", _verify_operator_action); ("run_hold", _verify_run_hold);
   ("reservation_intent", λ p r, if schema_version r =? 3 then _verify_initial_reservation_intent p r
                                 else _verify_reservation_intent p r);
   ("reservation_confirmation", _verify_reservation_confirmation); ("run_intent", _verify_run_intent);
   ("launch_claim", _verify_launch_claim); ("spawn_attestation", _verify_spawn_attestation);
   ("release_intent", _verify_release_intent); ("release_observation", _verify_release_observation);
   ("effect_intent", _verify_effect_intent); ("effect_receipt", _verify_effect_receipt);
   ("supervision_action_intent", _verify_supervision_action_intent);
   ("supervision_action_result", _verify_supervision_action_result);
   ("process_observation", _verify_process_observation); ("terminal_observation", _verify_terminal_observation);
   ("execution_assessment", _verify_execution_assessment);
   ("reconciliation_observation", _verify_reconciliation_observation);
   ("restart_reconciliation_observation", _verify_restart_reconciliation_observation)].

(** The first half of [verify_commit]: everything that does not depend on the
    types of the records, and their shape. *)
Definition check_commit (p : Projection) (first : JournalRecord) (records : list JournalRecord) : outcome shape :=
  let size := commit_size (position first) in
  let seq := commit_seq (position first) in
  replay_check (Z.of_nat (length records) =? size) "replay_framing";;
  check_framing records seq size 0;;
  replay_check (seq =? match p_head p with None => 1 | Some h => hd_commit_seq h + 1 end) "replay_framing";;
  check_chain records (match p_head p with None => 1 | Some h => hd_event_seq h + 1 end)
    (match p_head p with None => ZERO_DIGEST | Some h => hd_record_digest h end);;
  let expected_generation := if p_generation p =? 0 then 1 else p_generation p in
  replay_check (forallb (λ r, journal_generation (position r) =? expected_generation) records) "replay_generation";;
  replay_check (one_value (λ r, boot_id (stamp r)) records) "replay_boot";;
  replay_check (one_value (λ r, (wall_time (stamp r), mono_us (stamp r))) records) "replay_clock";;
  _commit_shape records.

Definition verify_commit (p : Projection) (records : list JournalRecord) : outcome Delta :=
  match records with
  | [] => _fail_replay "replay_framing"
  | first :: _ =>
      shape ← check_commit p first records;
      let boot := boot_id (stamp first) in
      let seq := commit_seq (position first) in
      if decide (shape = Single "journal_genesis") then
        replay_check (negb (some_b (p_journal_uuid p)) && negb (some_b (p_head p))) "replay_boot";;
        _verify_genesis first
      else if decide (shape = Single "restart_recovery") then
        replay_check (negb (bool_decide (boot ∈ p_seen_boot_ids p))) "replay_boot";;
        replay_check (bool_decide (get (data first) "previous_boot_id" = str_opt (p_boot_id p))) "replay_boot";;
        _verify_restart p first seq
      else
        replay_check (bool_decide (Some boot = p_boot_id p)) "replay_boot";;
        replay_check (p_last_mono_us p <=? mono_us (stamp first)) "replay_clock";;
        match shape, records with
        | Single t, _ => f ← item verifiers t; f p first seq
        | AdmissionPair, [admission; dedupe] => _verify_admission_pair p admission dedupe seq
        | AdmissionPair, _ => Raise (Exn "IndexError" "")
        end
  end.

(** ** Grouping and replay *)

(** The loop of the generator [group_commits]: [current] is the commit being
    read, of size [size] and number [seq] once it is not empty, and [resume] is
    what its caller does with each commit before it asks for the next. *)
Fixpoint group_loop {A} (resume : A → list JournalRecord → outcome A) (acc : A)
    (records current : list JournalRecord) (size seq : Z) : outcome A :=
  match records with
  | [] => match current with [] => Ret acc | _ => _fail_replay "replay_tail_incomplete" end
  | r :: records =>
      let pos := position r in
      let fresh := match current with [] => true | _ => false end in
      replay_check (fresh || (commit_seq pos =? seq)) "replay_framing";;
      replay_check (if fresh then commit_index pos =? 0
                    else (commit_size pos =? size) && (commit_index pos =? Z.of_nat (length current))) "replay_framing";;
      let size := if fresh then commit_size pos else size in
      let seq := if fresh then commit_seq pos else seq in
      let current := current ++ [r] in
      if Z.of_nat (length current) =? size
      then acc ← resume acc current; group_loop resume acc records [] 0 0
      else group_loop resume acc records current size seq
  end.
Definition group_commits (records : list JournalRecord) : outcome (list (list JournalRecord)) :=
  group_loop (λ groups group, Ret (groups ++ [group])) [] records [] 0 0.

(** [apply_delta(p, verify_commit(p, group))] *)
Definition commit (p : Projection) (group : list JournalRecord) : outcome Projection :=
  d ← verify_commit p group; Ret (apply_delta p d).

Definition replay (records : list JournalRecord) : outcome Projection := group_loop commit new_projection records [] 0 0.
