(* ===== verification/JournalCopies.v ===== *)
(** * Records as sealed and as read back, and the commits they make

    A record holds its ids and data frozen; read back from its body it holds
    them with every dict in the order of its keys.  [copy w v] says that [v] is
    the value [w] in either form, [shows] that a record is the sealed record of
    a draft in either form.  What the reducer reads off a record is the same in
    both: [text_at], [int_at], rows of a list, equality.

    [verified p plan] says that [verify_commit] accepts the records of a plan,
    in either form, with the charge the plan announced.  [verify_single] reduces
    it, for a commit of one record after the head, to the verifier of the
    record's type. *)

From S2P Require Import Prelude PyValue PyJson Sha256 CanonJson PyBytes JsonParse JsonRoundtrip JournalValue JournalSource.
From S2P Require Import JournalRecords JournalClaims JournalSeal JournalStored JournalAccepts JournalSealThm JournalState.
From S2P Require Import JournalPlan JournalVerify.
From S2P Require Import JournalClaimPlan JournalEffects JournalClaimVerify JournalReplay.
Local Open Scope string_scope.
Local Open Scope Z_scope.
Local Open Scope list_scope.

#[local] Opaque sha256_hex.

(** ** Copies of a value *)
Definition copy (w v : value) : Prop := v = _freeze w ∨ v = stored w.

Lemma copy_freeze w : copy w (_freeze w).
Proof. by left. Qed.
Lemma copy_stored w : copy w (stored w).
Proof. by right. Qed.

Lemma copy_text w v : copy w v → text_of v = text_of w.
Proof. intros [-> | ->]; by destruct w. Qed.
Lemma copy_int w v : copy w v → int_of v = int_of w.
Proof. intros [-> | ->]; by destruct w. Qed.

(** A value that is neither a sequence nor a dict. *)
Definition scalar (v : value) : bool := match v with DTuple _ | DList _ | DDict _ => false | _ => true end.
Lemma copy_scalar w v : copy w v → scalar w = true → v = w.
Proof. intros [-> | ->]; by destruct w. Qed.

Lemma freeze_get m k : get (freeze_dict m) k = _freeze (get m k).
Proof. unfold get, freeze_dict. rewrite members_get_map. by destruct (dict_get m k). Qed.

Lemma copy_get m v k : copy (DDict m) v → members_ok m → copy (get m k) (get (dict_of v) k).
Proof.
  intros [-> | ->] Hm; cbn [_freeze stored dict_of].
  - rewrite freeze_get. apply copy_freeze.
  - change (copy (get m k) (get (sort_members m) k)). rewrite get_stored by done. apply copy_stored.
Qed.

Lemma copy_rows w v l : copy w v → items w = Some l → ∃ l', items v = Some l' ∧ Forall2 copy l l'.
Proof.
  intros Hc Hl. assert (∀ f, (∀ x, copy x (f x)) → Forall2 copy l (map f l)) as Hmap.
  { intros f Hf. clear -Hf. induction l; constructor; auto. }
  destruct w; try done; injection Hl as ->; destruct Hc as [-> | ->]; cbn; eexists; split; try done; apply Hmap; auto using copy_freeze, copy_stored.
Qed.

Lemma eq_key_stored w : eq_key (stored w) = eq_key (_freeze w).
Proof.
  induction w as [| | | |l IH|l IH|m IH|] using value_nested_ind; try done; cbn [stored _freeze eq_key].
  1, 2: f_equal; rewrite !map_map; by apply map_ext_Forall.
  f_equal. rewrite <-(sort_keys_map eq_key), sort_keys_idem, !map_map. f_equal.
  apply map_ext_Forall. rewrite Forall_forall in *. intros kv Hkv. cbn. by rewrite IH.
Qed.

Lemma copy_eq w v u : copy w v → py_eq v u = py_eq (_freeze w) u.
Proof. intros [-> | ->]; [done|]. unfold py_eq. by rewrite eq_key_stored. Qed.

(** *** Shallow values

    [shallow n v]: no [list] in [v], and sequences and dicts nested at most [n]
    deep.  Freezing and thawing leave such a value as it is. *)
Fixpoint shallow (n : nat) (v : value) : Prop :=
  match v, n with
  | DDict m, S n => Forall (λ kv, shallow n kv.2) m
  | DTuple l, S n => Forall (shallow n) l
  | DDict _, O | DTuple _, O | DList _, _ => False
  | _, _ => True
  end.

Lemma shallow_freeze n v : shallow n v → _freeze v = v.
Proof.
  revert v. induction n as [|n IH]; intros v H; destruct v; try done; cbn in H |- *; f_equal.
  - rewrite <-(map_id l) at 2. apply map_ext_Forall. eapply Forall_impl; [exact H|]. auto.
  - rewrite <-(map_id m) at 2. apply map_ext_Forall. eapply Forall_impl; [exact H|]. intros [k w] Hw. cbn. f_equal. by apply IH.
Qed.

Lemma shallow_stored n v : shallow n v → shallow n (stored v).
Proof.
  revert v. induction n as [|n IH]; intros v H; destruct v; try done; cbn in H |- *.
  - apply Forall_map. eapply Forall_impl; [exact H|]. auto.
  - rewrite sort_keys_perm. apply Forall_map. eapply Forall_impl; [exact H|]. intros kv Hkv. by apply IH.
Qed.

Lemma shallow_copy n w v : shallow n w → copy w v → shallow n v.
Proof. intros Hw [-> | ->]; [by rewrite (shallow_freeze n)|by apply shallow_stored]. Qed.

Lemma shallow_thaw n v : ∀ d, shallow n v → d + Z.of_nat n ≤ _MAX_THAW_DEPTH + 1 → _thaw v d = Ret v.
Proof.
  revert v. induction n as [|n IH]; intros v d H Hd; destruct v; try done; cbn in H |- *.
  - rewrite (proj2 (Z.leb_le _ _)) by (unfold _MAX_THAW_DEPTH in *; lia). cbn [record_check check_that mbind outcome_bind].
    rewrite (proj2 (seq_outcomes_spec _ l l)); [done|]. clear -IH H Hd. induction H; constructor; [apply IH; [done|lia]|done].
  - rewrite (proj2 (Z.leb_le _ _)) by (unfold _MAX_THAW_DEPTH in *; lia). cbn [record_check check_that mbind outcome_bind].
    rewrite (proj2 (seq_outcomes_spec _ m m.*2)); cbn [mbind outcome_bind].
    + do 2 f_equal. clear. induction m as [|[k v] m IHm]; cbn; [done|by rewrite IHm].
    + clear -IH H Hd. induction H; constructor; [apply IH; [done|lia]|done].
Qed.

Lemma copy_eq_shallow n w v : shallow n w → copy w v → py_eq v w = true.
Proof.
  intros Hs Hc. assert (eq_key v = eq_key w) as H.
  { destruct Hc as [-> | ->]; rewrite ?eq_key_stored; by rewrite (shallow_freeze n). }
  unfold py_eq. by apply bool_decide_true.
Qed.

(** *** Digests *)
Lemma freeze_json w : to_json (_freeze w) = to_json w.
Proof.
  induction w as [| | | |l IH|l IH|m IH|] using value_nested_ind; try done; cbn [_freeze to_json]; f_equal; rewrite map_map.
  1, 2: by apply map_ext_Forall.
  apply map_ext_Forall. rewrite Forall_forall in *. intros kv Hkv. cbn. by rewrite IH.
Qed.

Lemma copy_digest w v tag d : copy w v → tagged_digest tag (to_json w) = Ret d → tagged_digest tag (to_json v) = Ret d.
Proof.
  intros [-> | ->]; [by rewrite freeze_json|]. unfold tagged_digest. intros H. inv_do. injection H as <-.
  match goal with X : canonical_json _ _ = Ret _ |- _ => apply canonicalize_stored in X; unfold canonical_json; rewrite X end.
  match goal with X : valid_tag _ = true |- _ => by rewrite X end.
Qed.

Lemma copy_lookup m v k x : copy (DDict m) v → members_ok m → dict_get m k = Some x → ∃ y, dict_get (dict_of v) k = Some y.
Proof.
  intros Hc [Hnd _]%members_ok_spec Hx. destruct Hc as [-> | ->]; cbn [_freeze stored dict_of].
  - rewrite members_get_map, Hx. by eexists.
  - rewrite (dict_get_perm _ (map (λ kv, (kv.1, stored kv.2)) m)), members_get_map, Hx; [by eexists|apply sort_keys_perm|].
    by rewrite sort_keys_perm, map_keys.
Qed.

(** ** Records *)
Record shows (draft : Draft) (sealed r : JournalRecord) : Prop := {
  sh_position : position r = position sealed;
  sh_stamp : stamp r = stamp sealed;
  sh_event_id : event_id r = dr_event_id draft;
  sh_event_type : event_type r = dr_event_type draft;
  sh_version : schema_version r = schema_version sealed;
  sh_ids : copy (DDict (dr_ids draft)) (DDict (ids r));
  sh_data : copy (DDict (dr_data draft)) (DDict (data r));
  sh_body : body r = body sealed;
  sh_digest : record_digest r = record_digest sealed;
}.

(** The record itself, or as its body reads back. *)
Definition form_of (sealed r : JournalRecord) : Prop := r = sealed ∨ r = read_back sealed.

Definition draft_ok (d : Draft) : Prop := members_ok (dr_ids d) ∧ members_ok (dr_data d).

Record sealed_as (draft : Draft) (pos : Position) (st : Stamp) (v : Z) (r : JournalRecord) : Prop := {
  sa_position : position r = pos;
  sa_stamp : stamp r = st;
  sa_version : schema_version r = v;
  sa_size : (v = 2 ∨ v = 3) → str_len (body r) ≤ private_cap (dr_event_type draft) v;
  sa_generation : 1 ≤ journal_generation pos;
  sa_reopens : draft_ok draft → open_record (body r) = Ret (read_back r);
  sa_shows : ∀ r', form_of r r' → shows draft r r';
}.

Lemma seal_shows draft pos st v r : seal draft pos st v = Ret r → sealed_as draft pos st v r.
Proof.
  intros H. pose proof (sealed_record_ok _ _ _ _ _ H) as (Hok & Hr & _).
  assert (ids r = freeze_dict (dr_ids draft)) as Hids by (rewrite Hr; done).
  assert (data r = freeze_dict (dr_data draft)) as Hdata by (rewrite Hr; done).
  assert (position r = pos) as Hpos by (rewrite Hr; done).
  assert (event_type r = dr_event_type draft) as Htype by (rewrite Hr; done).
  assert (schema_version r = v) as Hv by (rewrite Hr; done).
  split; try (rewrite Hr; done).
  - pose proof (rec_cap r Hok) as Hcap. rewrite Htype, Hv in Hcap. unfold over_cap in Hcap. intros Hv23.
    apply andb_false_iff in Hcap as [Hcap|Hcap]; [|by apply Z.ltb_ge].
    apply orb_false_iff in Hcap as [?%Z.eqb_neq ?%Z.eqb_neq]. lia.
  - rewrite <-Hpos. apply (rec_position r Hok).
  - intros [Hi Hd]. by eapply sealed_is_read_back.
  - intros r' [-> | ->]; split; try done; try (rewrite Hr; done); cbn [read_back ids data].
    + left. by rewrite Hids.
    + left. by rewrite Hdata.
    + right. rewrite <-stored_dict, Hids. change (DDict (freeze_dict (dr_ids draft))) with (_freeze (DDict (dr_ids draft))).
      by rewrite stored_freeze.
    + right. rewrite <-stored_dict, Hdata. change (DDict (freeze_dict (dr_data draft))) with (_freeze (DDict (dr_data draft))).
      by rewrite stored_freeze.
Qed.

(** ** Reading a record *)
Section reading.
Context (draft : Draft) (sealed r : JournalRecord) (Hr : shows draft sealed r) (Hok : draft_ok draft).

Lemma shows_data k : copy (get (dr_data draft) k) (get (data r) k).
Proof. apply (copy_get _ (DDict (data r))); [apply Hr|apply Hok]. Qed.
Lemma shows_ids k : copy (get (dr_ids draft) k) (get (ids r) k).
Proof. apply (copy_get _ (DDict (ids r))); [apply Hr|apply Hok]. Qed.

Lemma shows_text k : text_at r k = text_of (get (dr_data draft) k).
Proof. apply copy_text, shows_data. Qed.
Lemma shows_int k : int_at r k = int_of (get (dr_data draft) k).
Proof. apply copy_int, shows_data. Qed.
Lemma shows_id k : id_of r k = text_of (get (dr_ids draft) k).
Proof. apply copy_text, shows_ids. Qed.
Lemma shows_charge : record_charge r = record_charge sealed.
Proof. unfold record_charge. by rewrite (sh_body _ _ _ Hr). Qed.
Lemma shows_after p seq charge d : after p r seq charge d = after p sealed seq charge d.
Proof. unfold after, head_after. by rewrite (sh_position _ _ _ Hr), (sh_digest _ _ _ Hr), (sh_stamp _ _ _ Hr). Qed.
End reading.

Definition verified (p : Projection) (plan : Plan) : Prop :=
  ∃ d, d_logical_bytes d = p_logical_bytes p + pl_charge plan ∧
    (∀ rs, Forall2 form_of (pl_records plan) rs → verify_commit p rs = Ret d) ∧
    Forall (λ r, open_record (body r) = Ret (read_back r)) (pl_records plan).

Lemma the_ret {A} (o : option A) a : the o = Ret a → o = Some a.
Proof. destruct o; [by intros [= ->]|done]. Qed.

Lemma replay_check_true c : replay_check true c = Ret tt.
Proof. done. Qed.
Lemma replay_check_ret b c u : replay_check b c = Ret u → b = true.
Proof. by destruct b. Qed.
Lemma mismatch_true b : b = true → mismatch b = Ret tt.
Proof. by intros ->. Qed.
Lemma mismatch_ret b u : mismatch b = Ret u → b = true.
Proof. unfold mismatch, replay_check. intros H. by inv_do. Qed.

(** The position of a single record after [head]. *)
Definition next_position (p : Projection) (head : Head) (size : Z) : Position :=
  {| journal_generation := p_generation p; event_seq := hd_event_seq head + 1; commit_seq := hd_commit_seq head + 1;
     commit_index := 0; commit_size := size; prev_record_digest := hd_record_digest head |}.

Lemma single_position p pos : _single_position p = Ret pos → ∃ head, p_head p = Some head ∧ pos = next_position p head 1.
Proof. unfold _single_position. intros H. inv_do. injection H as <-. exists a. split; [by apply the_ret|done]. Qed.

Lemma within_inl p region rs out plan : within_region p region rs out = Ret (inl plan) →
  pl_records plan = rs ∧ pl_charge plan = foldr (λ r acc, record_charge r + acc) 0 rs ∧
  fits p region (pl_charge plan) = Ret tt.
Proof.
  unfold within_region, fits. intros H. inv_do. destruct (_ <? _) eqn:E; [done|]. injection H as <-. cbn.
  match goal with X : the _ = _ |- _ => rewrite X end. cbn. unfold mismatch. by rewrite (proj2 (Z.leb_le _ _)) by (by apply Z.ltb_ge).
Qed.

Lemma one_value_pair {A} `{EqDecision A} (f : JournalRecord → A) r r' : f r = f r' → one_value f [r; r'] = true.
Proof.
  intros E. unfold one_value. cbn [map remove_dups]. rewrite E.
  destruct (decide_rel _ (f r') [f r']) as [_|Hn]; [|destruct Hn; by left].
  by destruct (decide_rel _ (f r') []) as [Hn%elem_of_nil|_].
Qed.

Lemma generation_expected p : 1 ≤ p_generation p → (if p_generation p =? 0 then 1 else p_generation p) = p_generation p.
Proof. intros H. by rewrite (proj2 (Z.eqb_neq _ _)) by lia. Qed.

(** The verifier of a record type that is neither genesis nor a restart. *)
Definition handled_by (t : string) (f : Projection → JournalRecord → Z → outcome Delta) : Prop :=
  str_in t SINGLE_SHAPES = true ∧ t ≠ "journal_genesis" ∧ t ≠ "restart_recovery" ∧ dict_get verifiers t = Some f.
Ltac handled := unfold handled_by; split_and!; [vm_compute; reflexivity|discriminate|discriminate|reflexivity].

Section single.
Context (p : Projection) (head : Head) (draft : Draft) (st : Stamp) (v : Z) (sealed : JournalRecord).
Context (Hhead : p_head p = Some head) (Hsealed : sealed_as draft (next_position p head 1) st v sealed).

Lemma check_single r : form_of sealed r → str_in (dr_event_type draft) SINGLE_SHAPES = true →
  check_commit p r [r] = Ret (Single (dr_event_type draft)).
Proof.
  intros Hf Ht. pose proof (sa_shows _ _ _ _ _ Hsealed r Hf) as Hr. pose proof (sa_generation _ _ _ _ _ Hsealed) as Hgen.
  unfold check_commit, _commit_shape. rewrite Hhead. cbn [check_framing check_chain forallb map].
  rewrite (sh_position _ _ _ Hr), (sa_position _ _ _ _ _ Hsealed), (sh_event_type _ _ _ Hr), Ht.
  cbn in Hgen |- *. rewrite generation_expected by done. rewrite !Z.eqb_refl, bool_decide_true by done. done.
Qed.

Lemma verify_single r f : form_of sealed r → handled_by (dr_event_type draft) f →
  p_boot_id p = Some (boot_id st) → p_last_mono_us p ≤ mono_us st →
  verify_commit p [r] = f p r (hd_commit_seq head + 1).
Proof.
  intros Hf (Ht & Hg & Hrs & Hv) Hboot Hmono. pose proof (sa_shows _ _ _ _ _ Hsealed r Hf) as Hr.
  unfold verify_commit. rewrite check_single by done. cbn [mbind outcome_bind].
  rewrite decide_False by congruence. rewrite decide_False by congruence.
  rewrite (sh_stamp _ _ _ Hr), (sa_stamp _ _ _ _ _ Hsealed), Hboot, bool_decide_true by done.
  rewrite (proj2 (Z.leb_le _ _)) by done. rewrite !replay_check_true. cbn [mbind outcome_bind]. unfold item. rewrite Hv.
  cbn [mbind outcome_bind]. by rewrite (sh_position _ _ _ Hr), (sa_position _ _ _ _ _ Hsealed).
Qed.

(** A verifier that returns the same change for both forms of the record. *)
Lemma verified_single region out plan f chg :
  within_region p region [sealed] out = Ret (inl plan) → draft_ok draft → handled_by (dr_event_type draft) f →
  p_boot_id p = Some (boot_id st) → p_last_mono_us p ≤ mono_us st →
  (∀ r, form_of sealed r → shows draft sealed r → fits p region (record_charge r) = Ret tt →
     f p r (hd_commit_seq head + 1) = Ret (after p r (hd_commit_seq head + 1) (record_charge r) chg)) →
  verified p plan.
Proof.
  intros Hw Hok Ht Hboot Hmono Hf. apply within_inl in Hw as (Hrs & Hc & Hfit).
  cbn in Hc. rewrite Z.add_0_r in Hc. rewrite Hc in Hfit.
  exists (after p sealed (hd_commit_seq head + 1) (record_charge sealed) chg). split_and!.
  - by rewrite Hc.
  - intros rs Hrs'. rewrite Hrs in Hrs'. apply Forall2_cons_inv_l in Hrs' as (r & rs' & Hr & Hnil & ->).
    apply Forall2_nil_inv_l in Hnil as ->. pose proof (sa_shows _ _ _ _ _ Hsealed r Hr) as Hs.
    rewrite (verify_single r f) by done. rewrite Hf; [|done|done|by rewrite (shows_charge _ _ _ Hs)].
    by rewrite (shows_charge _ _ _ Hs), (shows_after _ _ _ Hs).
  - rewrite Hrs. constructor; [by apply (sa_reopens _ _ _ _ _ Hsealed)|constructor].
Qed.
End single.

(** *** Plans that are made again

    Most verifiers plan the record again from its own fields. *)
Section planned_again.
Context (draft : Draft) (pos : Position) (st : Stamp) (v : Z) (sealed r : JournalRecord).
Context (Hsealed : sealed_as draft pos st v sealed) (Hr : shows draft sealed r) (Hok : draft_ok draft).

Lemma shows_stamp : stamp r = st.
Proof. by rewrite (sh_stamp _ _ _ Hr), (sa_stamp _ _ _ _ _ Hsealed). Qed.
Lemma shows_version : schema_version r = v.
Proof. by rewrite (sh_version _ _ _ Hr), (sa_version _ _ _ _ _ Hsealed). Qed.

Lemma within_cap cap : v = 2 ∨ v = 3 → private_cap (dr_event_type draft) v = cap → (str_len (body r) <=? cap) = true.
Proof. intros Hv <-. rewrite (sh_body _ _ _ Hr). apply Z.leb_le. by apply (sa_size _ _ _ _ _ Hsealed). Qed.

Lemma exact_plan_same plan : pl_records plan = [sealed] → exact_plan (Ret (inl plan)) r = Ret plan.
Proof.
  intros Hrs. unfold exact_plan. cbn [mbind outcome_bind]. rewrite Hrs, (sh_body _ _ _ Hr), (sh_digest _ _ _ Hr).
  rewrite !bool_decide_true by done. done.
Qed.

Lemma exact_claim_same plan : form_of sealed r → pl_records plan = [sealed] →
  _verify_exact_claim_plan (Ret (inl plan)) r = Ret plan.
Proof.
  intros Hf Hrs. unfold _verify_exact_claim_plan. rewrite exact_plan_same by done. cbn [mbind outcome_bind]. rewrite Hrs.
  assert (∀ m m', copy (DDict m) (DDict m') → ∀ w, copy (DDict m) (DDict w) → py_eq (DDict w) (DDict m') = true) as Heq.
  { intros m m' H w Hw. rewrite (copy_eq _ _ _ Hw). unfold py_eq. apply bool_decide_true.
    destruct H as [-> | ->]; [done|]. by rewrite eq_key_stored. }
  pose proof (sa_shows _ _ _ _ _ Hsealed sealed (or_introl eq_refl)) as Hs.
  rewrite (Heq _ _ (sh_ids _ _ _ Hr) _ (sh_ids _ _ _ Hs)), (Heq _ _ (sh_data _ _ _ Hr) _ (sh_data _ _ _ Hs)). done.
Qed.
End planned_again.

(** Reading the arguments of a plan back off its record, [Hplan] being the
    plan: [again Hplan Hs Hsh Hok] leaves a goal about [Ret (inl plan)]. *)
Ltac read_fields Hs Hsh Hok :=
  rewrite ?(shows_id _ _ _ Hsh Hok), ?(shows_text _ _ _ Hsh Hok), ?(shows_int _ _ _ Hsh Hok), ?(sh_event_id _ _ _ Hsh),
    ?(shows_stamp _ _ _ _ _ _ Hs Hsh), ?(shows_version _ _ _ _ _ _ Hs Hsh).
Ltac again Hplan :=
  match type of Hplan with ?l = ?x =>
    match goal with
    | |- context [exact_plan ?e _] => change e with l; rewrite Hplan
    | |- context [_verify_exact_claim_plan ?e _] => change e with l; rewrite Hplan
    end
  end.

