(* ===== verification/JournalFrontThm.v ===== *)
(** * Front-door plans are accepted on replay

    For every front-door plan function: the records it seals pass
    [verify_commit], also as they are read back from their bodies, and the
    change charges exactly what the plan announced.  Of an admission the source
    is read back from the first record as it was admitted, and the decision
    that the second records is made again. *)

From S2P Require Import Prelude PyValue PyJson Sha256 CanonJson PyBytes JsonParse JsonRoundtrip JournalValue JournalSource.
From S2P Require Import JournalSourceThm JournalRecords JournalClaims JournalSeal JournalStored JournalAccepts JournalSealThm.
From S2P Require Import JournalState JournalPlan JournalVerify JournalClaimPlan JournalEffects JournalClaimVerify JournalReplay.
From S2P Require Import JournalCopies.
Local Open Scope string_scope.
Local Open Scope Z_scope.
Local Open Scope list_scope.

#[local] Opaque sha256_hex.

(** ** Well-formed drafts *)
Create HintDb value_ok.

Lemma value_ok_str s : value_ok (DStr s).
Proof. exact I. Qed.
Lemma value_ok_int z : value_ok (DInt z).
Proof. exact I. Qed.
Lemma value_ok_opt {A} (f : A → value) o : (∀ a, value_ok (f a)) → value_ok (of_option f o).
Proof. intros Hf. destruct o; [apply Hf|exact I]. Qed.
Lemma value_ok_str_opt o : value_ok (str_opt o).
Proof. by apply value_ok_opt. Qed.
Lemma value_ok_tuple l : Forall value_ok l → value_ok (DTuple l).
Proof. intros H. cbn. by rewrite foldr_and_Forall. Qed.
Lemma value_ok_list l : Forall value_ok l → value_ok (DList l).
Proof. intros H. cbn. by rewrite foldr_and_Forall. Qed.
Lemma Forall_map_all {A B} (P : B → Prop) (f : A → B) l : (∀ x, P (f x)) → Forall P (map f l).
Proof. intros H. induction l; constructor; auto. Qed.
Lemma value_ok_texts l : value_ok (DTuple (map DStr l)).
Proof. by apply value_ok_tuple, Forall_map_all. Qed.
#[export] Hint Resolve value_ok_str value_ok_int value_ok_str_opt value_ok_texts value_ok_opt value_ok_tuple value_ok_list
  Forall_map_all : value_ok.

(** A dict of fixed keys. *)
Ltac value_ok_dict :=
  apply members_ok_spec; split; [apply (bool_decide_eq_true _); vm_compute; reflexivity|];
  repeat (apply Forall_cons; split; [cbn [snd]; auto with value_ok nocore|]); try apply Forall_nil_2.
Ltac draft_ok := split; cbn [dr_ids dr_data]; value_ok_dict.

Lemma value_ok_head h : value_ok (head_json h).
Proof. value_ok_dict. Qed.
Lemma value_ok_wal w : value_ok (wal_json w).
Proof. apply value_ok_opt. intros. value_ok_dict. Qed.
Lemma value_ok_bounds b : value_ok (bounds_json b).
Proof. value_ok_dict. Qed.
Lemma value_ok_baseline b : value_ok (_baseline_json b).
Proof. apply value_ok_opt. intros. value_ok_dict; exact I. Qed.
Lemma value_ok_superseded l : value_ok (_superseded_json l).
Proof. apply value_ok_tuple, Forall_map_all. intros. value_ok_dict. Qed.
#[export] Hint Resolve value_ok_head value_ok_wal value_ok_bounds value_ok_baseline value_ok_superseded : value_ok.

(** ** Reading heads and bounds back *)
Lemma copy_same_head h v : copy (head_json h) v → same_head v h = true.
Proof.
  intros Hc. pose proof (λ k, copy_get _ _ k Hc (value_ok_head h)) as Hg. unfold same_head.
  rewrite (copy_int _ _ (Hg "commit_seq")), (copy_int _ _ (Hg "event_seq")), (copy_text _ _ (Hg "record_digest")).
  cbn. by rewrite !Z.eqb_refl, bool_decide_true.
Qed.

Lemma copy_bounds b v : copy (bounds_json b) v →
  int_of (get (dict_of v) "max_admissions") = max_admissions b ∧
  int_of (get (dict_of v) "max_pending_fingerprints") = max_pending_fingerprints b ∧
  int_of (get (dict_of v) "ordinary_bytes") = ordinary_bytes b ∧ int_of (get (dict_of v) "total_bytes") = total_bytes b.
Proof.
  intros Hc. pose proof (λ k, copy_int _ _ (copy_get _ _ k Hc (value_ok_bounds b))) as Hg.
  split_and!; [exact (Hg "max_admissions")|exact (Hg "max_pending_fingerprints")|exact (Hg "ordinary_bytes")|exact (Hg "total_bytes")].
Qed.

(** ** Genesis and restart *)
Lemma new_position_ok r draft st v pos : pos = {| journal_generation := 1; event_seq := 1; commit_seq := 1; commit_index := 0;
    commit_size := 1; prev_record_digest := ZERO_DIGEST |} →
  sealed_as draft pos st v r → dr_event_type draft = "journal_genesis" → ∀ r', form_of r r' →
  check_commit new_projection r' [r'] = Ret (Single "journal_genesis").
Proof.
  intros -> Hr Ht r' Hf. pose proof (sa_shows _ _ _ _ _ Hr r' Hf) as Hs. unfold check_commit, _commit_shape.
  cbn [check_framing check_chain forallb map].
  by rewrite (sh_position _ _ _ Hs), (sa_position _ _ _ _ _ Hr), (sh_event_type _ _ _ Hs), Ht.
Qed.

(** [_require_keys] of a dict literal, or of one under a key of a literal. *)
Ltac keys_literal :=
  repeat match goal with X : _require_keys ?v _ = Ret ?a |- _ => change (Ret (dict_of v) = Ret a) in X; injection X as <- end.

Lemma genesis_bounds uuid bounds eid :
  _validate_journal_genesis (DDict []) (DDict [("format", DStr "rj.journal.v1"); ("journal_uuid", DStr uuid);
    ("bounds", bounds_json bounds)]) eid = Ret tt →
  1 ≤ max_admissions bounds ≤ 10000 ∧ 1 ≤ max_pending_fingerprints bounds ≤ 1024 ∧
  1 ≤ ordinary_bytes bounds ≤ 112 * 2 ^ 20 ∧ 1 ≤ total_bytes bounds ≤ 128 * 2 ^ 20 ∧
  ordinary_bytes bounds ≤ total_bytes bounds.
Proof.
  unfold _validate_journal_genesis, field_check, record_check. intros H. inv_do. unfold _require_empty_ids in *. inv_do.
  keys_literal. unfold each in *.
  match goal with X : fold_outcome _ _ _ = Ret _ |- _ => cbn [fold_outcome V1_BOUND_CEILINGS fst snd] in X end.
  repeat match goal with X : match bound ?v ?lo ?hi with _ => _ end = Ret _ |- _ =>
    let E := fresh "E" in destruct (bound v lo hi) eqn:E; [apply bound_ret in E as (? & [= <-] & ?)|done] end.
  bool_simpl. split_and!; try lia. exact H.
Qed.

Definition genesis_delta (uuid : string) (bounds : JournalBounds) (r : JournalRecord) : Delta :=
  {| d_head := {| hd_generation := 1; hd_commit_seq := 1; hd_event_seq := 1; hd_record_digest := record_digest r |};
     d_generation := 1; d_journal_uuid := Some uuid; d_bounds := Some bounds; d_boot_id := boot_id (stamp r);
     d_last_mono_us := mono_us (stamp r); d_new_boot_id := Some (boot_id (stamp r)); d_logical_bytes := record_charge r;
     d_admission_count := 0; d_last_arrival_seq := 0; d_baseline_update := None; d_pending_updates := []; d_change := NoChange |}.

Lemma genesis_verified uuid bounds eid st plan : plan_genesis uuid bounds eid st = Ret plan → verified new_projection plan.
Proof.
  unfold plan_genesis. intros H. inv_do. rename a into r. injection H as <-. unfold verified. cbn [pl_records pl_charge].
  match goal with X : seal ?d ?pos _ _ = Ret _ |- _ => set (draft := d) in *; set (p0 := pos) in *; rename X into Hs end.
  pose proof (seal_shows _ _ _ _ _ Hs) as Hr. assert (draft_ok draft) as Hok by draft_ok.
  destruct (sealed_validates _ _ _ _ _ Hs) as (f & [= <-] & Hv). apply genesis_bounds in Hv.
  exists (genesis_delta uuid bounds r). split_and!; [done|intros rs Hrs|]; [|constructor; [by apply Hr|constructor]].
  apply Forall2_cons_inv_l in Hrs as (r' & rs' & Hf & Hnil & ->). apply Forall2_nil_inv_l in Hnil as ->.
  pose proof (sa_shows _ _ _ _ _ Hr r' Hf) as Hsh. unfold verify_commit.
  rewrite (new_position_ok _ _ _ _ _ eq_refl Hr eq_refl _ Hf). cbn [mbind outcome_bind].
  rewrite decide_True by done. cbn [p_journal_uuid p_head new_projection some_b negb andb].
  rewrite replay_check_true. cbn [mbind outcome_bind]. unfold _verify_genesis.
  pose proof (shows_data _ _ _ Hsh Hok "bounds") as Hb. change (get (dr_data draft) "bounds") with (bounds_json bounds) in Hb.
  destruct (copy_bounds _ _ Hb) as (Hb1 & Hb2 & Hb3 & Hb4). set (b := dict_of (get (data r') "bounds")) in *.
  change (text_of (get (data r') "journal_uuid")) with (text_at r' "journal_uuid"). rewrite (shows_text _ _ _ Hsh Hok).
  unfold each, V1_BOUND_CEILINGS, bounds_of. cbn [fold_outcome fst snd]. rewrite !Hb1, !Hb2, !Hb3, !Hb4.
  rewrite !mismatch_true by (rewrite ?andb_true_iff, !Z.leb_le; lia). cbn [mbind outcome_bind].
  rewrite (sh_position _ _ _ Hsh), (sh_stamp _ _ _ Hsh), (sh_digest _ _ _ Hsh), (shows_charge _ _ _ Hsh), (sa_position _ _ _ _ _ Hr).
  by destruct bounds.
Qed.

Lemma restart_verified p eid st lag wal plan :
  plan_restart p eid st lag wal = Ret (inl plan) → boot_id st ∉ p_seen_boot_ids p → verified p plan.
Proof.
  unfold plan_restart. intros H Hnew. inv_do. rename a into head, a0 into pos, a1 into r.
  repeat match goal with X : the _ = Ret _ |- _ => apply the_ret in X end.
  match goal with X : _single_position _ = _ |- _ => apply single_position in X as (h & Hh & ->) end.
  assert (h = head) as -> by congruence.
  match goal with X : seal ?d _ _ _ = Ret _ |- _ => set (draft := d) in *; rename X into Hs end.
  pose proof (seal_shows _ _ _ _ _ Hs) as Hr. assert (draft_ok draft) as Hok by draft_ok.
  apply within_inl in H as (Hrs & Hc & Hfit). cbn in Hc. rewrite Z.add_0_r in Hc. rewrite Hc in Hfit.
  eexists. split_and!; [|intros rs Hrs'|].
  3: { rewrite Hrs. constructor; [by apply Hr|constructor]. }
  2: { rewrite Hrs in Hrs'. apply Forall2_cons_inv_l in Hrs' as (r' & rs' & Hf & Hnil & ->).
    apply Forall2_nil_inv_l in Hnil as ->. pose proof (sa_shows _ _ _ _ _ Hr r' Hf) as Hsh. unfold verify_commit.
    rewrite (check_single _ _ _ _ _ _ Hh Hr r' Hf) by (vm_compute; reflexivity). cbn [mbind outcome_bind].
    rewrite decide_False by done. rewrite decide_True by done.
    rewrite (sh_stamp _ _ _ Hsh), (sa_stamp _ _ _ _ _ Hr), (bool_decide_false _ Hnew).
    rewrite (copy_scalar _ _ (shows_data _ _ _ Hsh Hok "previous_boot_id")) by (by destruct (p_boot_id p)).
    rewrite bool_decide_true by done. cbn [negb]. rewrite !replay_check_true. cbn [mbind outcome_bind].
    unfold _verify_restart. rewrite Hh. cbn [the mbind outcome_bind].
    rewrite (copy_same_head _ _ (shows_data _ _ _ Hsh Hok "recovered")). rewrite mismatch_true by done. cbn [mbind outcome_bind].
    rewrite (shows_charge _ _ _ Hsh), Hfit. cbn [mbind outcome_bind]. unfold head_after.
    rewrite (sh_position _ _ _ Hsh), (sh_stamp _ _ _ Hsh), (sh_digest _ _ _ Hsh). reflexivity. }
  cbn. by rewrite Hc.
Qed.

(** ** Commits of one record in a running boot *)

(** What a plan function did, once it returned a plan of one sealed record. *)
Ltac planned_record r draft Hh Hr Hok :=
  repeat match goal with X : mismatch _ = Ret _ |- _ => apply mismatch_ret in X | X : the _ = Ret _ |- _ => apply the_ret in X end;
  match goal with X : _single_position _ = Ret _ |- _ =>
    let h := fresh "h" in apply single_position in X as (h & Hh & ->) end;
  match goal with X : seal ?d _ _ _ = Ret ?r' |- _ =>
    set (draft := d) in *; rename r' into r;
    pose proof (seal_shows _ _ _ _ _ X) as Hr; assert (draft_ok draft) as Hok by draft_ok end.

(** A capacity refusal a plan of the projection may give. *)
Definition refused (p : Projection) (refusal : CapacityRefusal) : Prop :=
  ∃ b, p_bounds p = Some b ∧ dict_get (_CAPACITY_LIMITS b) (rf_code refusal) = Some (rf_limit refusal) ∧
    dict_get (_CAPACITY_OBSERVED p) (rf_code refusal) = Some (rf_observed refusal) ∧
    rf_limit refusal < rf_observed refusal + rf_requested refusal.

Lemma admission_refused p source aid did st refusal : plan_admission p source aid did st = Ret (inr refusal) → refused p refusal.
Proof.
  unfold plan_admission. intros H. inv_do. apply the_ret in H1.
  destruct (_ <? _) eqn:E1 in H; [injection H as <-; exists a0; bool_simpl; split_and!; try done; cbn; lia|].
  destruct (negb _ && _) eqn:E2 in H; [injection H as <-; exists a0; bool_simpl; split_and!; try done; cbn; lia|].
  inv_do. unfold within_region in H. inv_do. destruct (_ <? _) eqn:E3 in H; [|done]. injection H as <-.
  match goal with X : the _ = Ret ?b |- _ => apply the_ret in X; exists b end. bool_simpl. done.
Qed.

Lemma capacity_hold_verified p refusal eid st dig plan :
  plan_capacity_hold p refusal eid st dig = Ret (Some (inl plan)) → refused p refusal →
  p_boot_id p = Some (boot_id st) → p_last_mono_us p ≤ mono_us st → verified p plan.
Proof.
  unfold plan_capacity_hold. intros H (b & Hb & Hlim & Hobs & Hover) Hboot Hmono.
  destruct (some_b _) eqn:Ehold; [done|]. inv_do. injection H as ->. planned_record r draft Hh Hr Hok.
  eapply (verified_single _ _ _ _ _ _ Hh Hr _ _ _ _verify_capacity_hold); [eassumption|done|handled|done|done|].
  intros r' Hf Hsh Hfit. unfold _verify_capacity_hold.
  rewrite !(copy_text _ _ (shows_data _ _ _ Hsh Hok _)), !(copy_int _ _ (shows_data _ _ _ Hsh Hok _)).
  change (text_of (get (dr_data draft) "code")) with (rf_code refusal).
  change (int_of (get (dr_data draft) "limit")) with (rf_limit refusal).
  change (int_of (get (dr_data draft) "observed")) with (rf_observed refusal).
  change (int_of (get (dr_data draft) "requested")) with (rf_requested refusal).
  rewrite Ehold, Hb. cbn [negb the mbind outcome_bind]. unfold item. rewrite Hlim, Hobs, Hfit. cbn [mbind outcome_bind].
  rewrite !mismatch_true by (rewrite ?Z.eqb_refl, ?Z.ltb_lt; done). done.
Qed.

Lemma refusal_key_ret m key : refusal_key m = Ret key ↔
  Forall (λ f, ∃ x, dict_get m f = Some x) _REFUSAL_KEY_FIELDS ∧
  tagged_digest REFUSAL_KEY_TAG (to_json (DDict (map (λ f, (f, get m f)) _REFUSAL_KEY_FIELDS))) = Ret key.
Proof.
  assert (∀ payload, collect (pick m) _REFUSAL_KEY_FIELDS = Ret payload ↔
    Forall (λ f, ∃ x, dict_get m f = Some x) _REFUSAL_KEY_FIELDS ∧ payload = map (λ f, (f, get m f)) _REFUSAL_KEY_FIELDS) as Hp.
  { generalize _REFUSAL_KEY_FIELDS. intros fs payload. unfold collect. rewrite seq_outcomes_spec. split.
    - induction 1 as [|f y fs payload Hf _ [IH ->]]; [done|]. unfold pick in Hf. destruct (dict_get m f) eqn:E; [|done].
      injection Hf as <-. split; [constructor; eauto|]. cbn. unfold get. by rewrite E.
    - intros [Hall ->]. induction Hall as [|f fs [x Hx] _ IH]; constructor; [|done]. unfold pick, get. by rewrite Hx. }
  unfold refusal_key. split.
  - intros H. inv_do. match goal with X : collect _ _ = Ret _ |- _ => apply Hp in X as [? ->] end. done.
  - intros [Hall Hd]. rewrite (proj2 (Hp _) (conj Hall eq_refl)). done.
Qed.

Lemma copy_refusal_key m v key : copy (DDict m) v → members_ok m → refusal_key m = Ret key → refusal_key (dict_of v) = Ret key.
Proof.
  intros Hc Hm [Hall Hd]%refusal_key_ret. apply refusal_key_ret. split.
  - eapply Forall_impl; [exact Hall|]. intros f [x Hx]. by eapply copy_lookup.
  - eapply copy_digest; [|exact Hd]. destruct Hc as [-> | ->]; [left|right].
    + cbn [_freeze dict_of map _REFUSAL_KEY_FIELDS]. by rewrite !(freeze_get m).
    + rewrite stored_dict. cbn [dict_of map _REFUSAL_KEY_FIELDS]. by rewrite !(get_stored m) by done.
Qed.

Lemma copy_unreserved m v : copy (DDict m) v → members_ok m → is_unreserved (dict_of v) = is_unreserved m.
Proof.
  intros Hc Hm. pose proof (copy_get _ _ "resolved" Hc Hm) as Hg. unfold is_unreserved.
  destruct Hg as [-> | ->]; by destruct (get m "resolved").
Qed.

Lemma ingress_refusal_verified p summary eid st plan :
  plan_ingress_refusal p summary eid st = Ret (inl plan) → members_ok summary →
  p_boot_id p = Some (boot_id st) → p_last_mono_us p ≤ mono_us st → verified p plan.
Proof.
  unfold plan_ingress_refusal. intros H Hm Hboot Hmono. inv_do. rename a into key.
  destruct (decide _) as [|Hkey]; [done|]. destruct (_ <? _) eqn:E1; [done|]. destruct (_ && _) eqn:E2; [done|]. inv_do.
  match goal with X : within_region _ _ _ _ = Ret ?res |- _ => destruct res; [|done] end. injection H as ->. planned_record r draft Hh Hr Hok.
  eapply (verified_single _ _ _ _ _ _ Hh Hr _ _ _ _verify_ingress_refusal); [eassumption|done|handled|done|done|].
  intros r' Hf Hsh Hfit. unfold _verify_ingress_refusal.
  pose proof (shows_data _ _ _ Hsh Hok "summary") as Hsum. change (get (dr_data draft) "summary") with (DDict summary) in Hsum.
  rewrite (copy_int _ _ (shows_data _ _ _ Hsh Hok "refusal_seq")), (copy_text _ _ (shows_data _ _ _ Hsh Hok "refusal_key")).
  change (int_of (get (dr_data draft) "refusal_seq")) with (p_refusal_count p + 1).
  change (text_of (get (dr_data draft) "refusal_key")) with key.
  rewrite (copy_unreserved _ _ Hsum Hm), E2, (copy_refusal_key _ _ _ Hsum Hm H0), Hfit. cbn [negb mbind outcome_bind].
  rewrite (bool_decide_true (key = key)), (bool_decide_false _ Hkey) by done.
  rewrite !mismatch_true by (rewrite ?Z.eqb_refl, ?Z.leb_le; bool_simpl; done). done.
Qed.

Lemma operator_resume_verified p eid st op reason plan :
  plan_operator_resume p eid st op reason = Ret (inl plan) →
  hd_commit_seq <$> p_head p = p_boot_start_commit_seq p → p_boot_id p = Some (boot_id st) → p_last_mono_us p ≤ mono_us st →
  verified p plan.
Proof.
  unfold plan_operator_resume. intros H Hnow Hboot Hmono. inv_do.
  destruct (p_dispatch_holds p !! "restart_recovery") as [since|] eqn:Ehold; [|done]. inv_do. rename a0 into inspected.
  planned_record r draft Hh Hr Hok.
  eapply (verified_single _ _ _ _ _ _ Hh Hr _ _ _ _verify_operator_action); [eassumption|done|handled|done|done|].
  intros r' Hf Hsh Hfit. unfold _verify_operator_action.
  rewrite !(copy_text _ _ (shows_data _ _ _ Hsh Hok _)), !(copy_int _ _ (shows_data _ _ _ Hsh Hok _)).
  change (text_of (get (dr_data draft) "hold")) with "restart_recovery".
  change (int_of (get (dr_data draft) "since_commit_seq")) with since.
  change (text_of (get (dr_data draft) "pending_digest")) with a2.
  rewrite <-Hnow, Hh, H1, H3, Hfit. cbn [fmap option_fmap option_map the mbind outcome_bind].
  pose proof (shows_data _ _ _ Hsh Hok "inspected") as Hins. rewrite (copy_same_head _ _ Hins).
  rewrite !mismatch_true by first [done | by rewrite Ehold, H0 | by apply bool_decide_true]. done.
Qed.

Lemma run_hold_verified p job aid eid reason st plan :
  plan_run_hold p job aid eid reason st = Ret (inl plan) → p_last_mono_us p ≤ mono_us st → verified p plan.
Proof.
  intros Hplan Hmono. pose proof Hplan as H. unfold plan_run_hold in H. inv_do. destruct (MAX_RUN_HOLDS <=? _) eqn:Efull; [done|].
  inv_do. planned_record r draft Hh Hr Hok.
  match goal with X : ready _ _ = true |- _ => unfold ready in X; bool_simpl; rename X into Hready end.
  eapply (verified_single _ _ _ _ _ _ Hh Hr _ _ _ _verify_run_hold); [eassumption|done|handled|done|done|].
  intros r' Hf Hsh Hfit. unfold _verify_run_hold. read_fields Hr Hsh Hok. again Hplan.
  rewrite (within_cap _ _ _ _ _ _ Hr Hsh) by auto. rewrite mismatch_true by done. cbn [mbind outcome_bind].
  destruct (within_inl _ _ _ _ _ H) as (Hrs & Hc & _). rewrite (exact_plan_same _ _ _ Hsh _ Hrs). cbn [mbind outcome_bind].
  cbn in Hc. rewrite Z.add_0_r in Hc. by rewrite Hc, (shows_charge _ _ _ Hsh).
Qed.

(** ** The source of an admission *)
Lemma pairs_dict_ok pairs : members_ok (pairs_dict pairs).
Proof.
  unfold pairs_dict. apply members_ok_spec.
  assert (∀ m : members, (dict_ok m ∧ Forall (λ kv, value_ok kv.2) m) →
    dict_ok (foldl (λ m kv, dict_set m kv.1 (of_option DStr kv.2)) m pairs) ∧
    Forall (λ kv, value_ok kv.2) (foldl (λ m kv, dict_set m kv.1 (of_option DStr kv.2)) m pairs)) as H.
  { induction pairs as [|kv pairs IH]; intros m [Hm Hv]; [done|]. cbn. apply IH. split; [by apply dict_ok_set|].
    clear -Hv. unfold dict_set. induction m as [|[k v] m IHm]; cbn.
    - constructor; [by destruct kv.2|done].
    - apply Forall_cons in Hv as [? ?]. case_decide; constructor; try done; [by destruct kv.2|by apply IHm]. }
  apply (H []). split; [apply dict_ok_nil|constructor].
Qed.

Lemma values_shallow vs : shallow 1 (of_option (λ vs, DDict (pairs_dict vs)) vs).
Proof.
  destruct vs as [pairs|]; [|done]. cbn. unfold pairs_dict.
  assert (∀ m : members, Forall (λ kv, shallow 0 kv.2) m →
    Forall (λ kv, shallow 0 kv.2) (foldl (λ m kv, dict_set m kv.1 (of_option DStr kv.2)) m pairs)) as H; [|by apply H].
  induction pairs as [|kv pairs IH]; intros m Hm; [done|]. cbn. apply IH. clear -Hm.
  induction m as [|[k v] m IHm]; cbn.
  - constructor; [by destruct kv.2|done].
  - apply Forall_cons in Hm as [? ?]. case_decide; constructor; try done; [by destruct kv.2|by apply IHm].
Qed.

Lemma source_json_ok s : value_ok (source_to_json s).
Proof.
  unfold source_to_json. value_ok_dict.
  - apply value_ok_tuple, Forall_map_all. intros al. unfold _alert_to_json. value_ok_dict.
    apply value_ok_opt. intros. apply pairs_dict_ok.
  - value_ok_dict.
Qed.

Lemma source_json_shallow s : shallow 4 (source_to_json s).
Proof.
  unfold source_to_json. cbn [shallow snd]. repeat (apply Forall_cons; split; [cbn [snd]|]); try apply Forall_nil_2; try exact I.
  - cbn. apply Forall_map_all. intros al. cbn. repeat (apply Forall_cons; split; [cbn [snd]|]); try apply Forall_nil_2; try exact I.
    + by destruct (starts_at al).
    + pose proof (values_shallow (values al)) as H. by destruct (values al).
  - cbn. repeat (apply Forall_cons; split; [cbn [snd]|]); try apply Forall_nil_2; try exact I. by destruct (line _).
  - by destruct (truncated_alerts s).
Qed.

Lemma source_copied s v : source_ok s → copy (source_to_json s) v → thaw v = Ret v ∧ source_from_json v = Ret s.
Proof.
  intros Hs Hc. pose proof (source_json_shallow s) as Hsh. split.
  - apply (shallow_thaw 4); [by eapply shallow_copy|unfold _MAX_THAW_DEPTH; lia].
  - apply source_ok_again in Hs. destruct Hc as [-> | ->]; [by rewrite (shallow_freeze 4)|].
    by apply (source_stored _ (source_json_ok s)).
Qed.

(** ** Pending updates always exist *)
Lemma alert_of_found s fp : fp ∈ map fingerprint (alerts s) → ∃ a, alert_of s fp = Some a.
Proof.
  unfold alert_of. generalize (alerts s). intros xs.
  assert (∀ found, fp ∈ map fingerprint xs ∨ some_b found = true →
    ∃ a, foldl (λ found alert, if decide (fingerprint alert = fp) then Some alert else found) found xs = Some a) as H; [|by auto].
  induction xs as [|x xs IH]; cbn; intros found [Hin|Hf].
  - by apply elem_of_nil in Hin.
  - destruct found; [eauto|done].
  - apply IH. case_decide; [by right|]. apply elem_of_cons in Hin as [->|Hin]; [done|by left].
  - apply IH. right. by case_decide.
Qed.

Lemma pending_pairs_alerts p keep s : Forall (λ fp, fp ∈ map fingerprint (alerts s)) (pending_pairs p keep s).*1.
Proof.
  unfold pending_pairs. rewrite sort_keys_perm. generalize (alerts s). intros xs.
  cut (∀ ys, (∀ x, x ∈ xs → x ∈ ys) → Forall (λ fp, fp ∈ map fingerprint ys) (omap (λ alert,
    match p_pending p !! fingerprint alert with
    | Some entry => if keep entry then Some (fingerprint alert, pe_admission_id entry) else None
    | None => None
    end) xs).*1); [intros H; by apply H|].
  intros ys Hys. induction xs as [|x xs IH]; [constructor|]. cbn.
  assert (∀ y, y ∈ xs → y ∈ ys) as Hxs by (intros y Hy; apply Hys; by right).
  destruct (p_pending p !! _); [|by apply IH]. destruct (keep _); [|by apply IH]. cbn. constructor; [|by apply IH].
  apply (list_elem_of_fmap_2 fingerprint). apply Hys. by left.
Qed.

Lemma decided_superseded p s aid d : _decide p s aid = Ret d → suppressed d = true →
  Forall (λ fp, fp ∈ map fingerprint (alerts s)) (superseded d).*1.
Proof.
  unfold _decide. intros H Hd. inv_do. revert Hd.
  destruct (p_baselines p !! source_group s) as [b|]; [destruct (_ && _ && _)|]; injection H as <-; intros Hd;
    [by apply pending_pairs_alerts|..]; unfold suppressed in Hd; cbn in Hd; bool_simpl; by case_decide.
Qed.

Lemma pending_updates_exist p s aid d seq : _decide p s aid = Ret d → ∃ us, _pending_updates p s d aid seq = Ret us.
Proof.
  intros Hd. unfold _pending_updates, collect. apply seq_outcomes_total.
  assert (Forall (λ fp, fp ∈ map fingerprint (alerts s))
    (if suppressed d then (superseded d).*1 else map fingerprint (alerts s))) as Hall.
  { destruct (suppressed d) eqn:E; [by eapply decided_superseded|]. apply Forall_forall. done. }
  eapply Forall_impl; [exact Hall|]. intros fp Hfp. destruct (alert_of_found s fp Hfp) as [a Ha]. rewrite Ha. by eexists.
Qed.

(** ** The pair *)
Section pair.
Context (p : Projection) (h : Head) (da dd : Draft) (st : Stamp) (a d : JournalRecord).
Context (Hh : p_head p = Some h) (Ha : sealed_as da (next_position p h 2) st 1 a).

Definition second_position : Position :=
  {| journal_generation := p_generation p; event_seq := hd_event_seq h + 1 + 1; commit_seq := hd_commit_seq h + 1;
     commit_index := 1; commit_size := 2; prev_record_digest := record_digest a |}.
Context (Hd : sealed_as dd second_position st 1 d).
Context (Hta : dr_event_type da = "admission") (Htd : dr_event_type dd = "dedupe_decision").

Lemma check_pair a' d' : form_of a a' → form_of d d' → check_commit p a' [a'; d'] = Ret AdmissionPair.
Proof.
  intros Hfa Hfd. pose proof (sa_shows _ _ _ _ _ Ha a' Hfa) as Hsa. pose proof (sa_shows _ _ _ _ _ Hd d' Hfd) as Hsd.
  pose proof (sa_generation _ _ _ _ _ Ha) as Hgen. cbn in Hgen.
  unfold check_commit, _commit_shape. rewrite Hh. cbn [check_framing check_chain forallb map].
  rewrite !one_value_pair by by rewrite (sh_stamp _ _ _ Hsa), (sa_stamp _ _ _ _ _ Ha), (sh_stamp _ _ _ Hsd), (sa_stamp _ _ _ _ _ Hd).
  rewrite (sh_position _ _ _ Hsa), (sa_position _ _ _ _ _ Ha), (sh_position _ _ _ Hsd), (sa_position _ _ _ _ _ Hd),
    (sh_event_type _ _ _ Hsa), (sh_event_type _ _ _ Hsd), (sh_digest _ _ _ Hsa), Hta, Htd.
  cbn [journal_generation event_seq commit_seq commit_index commit_size prev_record_digest next_position second_position].
  rewrite generation_expected by done. by rewrite !Z.eqb_refl, !bool_decide_true by done.
Qed.
End pair.

Lemma holds_shallow holds : shallow 1 (DTuple (map DStr holds)).
Proof. by apply Forall_map_all. Qed.
Lemma baseline_shallow b : shallow 1 (_baseline_json b).
Proof. destruct b; [|done]. by repeat constructor. Qed.
Lemma superseded_shallow l : shallow 2 (_superseded_json l).
Proof. apply Forall_map_all. intros. by repeat constructor. Qed.

Lemma admission_verified p s aid did st plan :
  plan_admission p s aid did st = Ret (inl plan) → source_ok s → p_boot_id p = Some (boot_id st) →
  p_last_mono_us p ≤ mono_us st → verified p plan.
Proof.
  unfold plan_admission. intros H Hs Hboot Hmono. inv_do. rename a into dec, a0 into b.
  destruct (_ <? _) eqn:Eadm in H; [done|]. destruct (negb _ && _) eqn:Epend in H; [done|]. inv_do.
  repeat match goal with X : the _ = Ret _ |- _ => apply the_ret in X end.
  rename a into sd, a0 into h, a1 into ra, a2 into key, a3 into rd.
  match goal with X : seal (admission_draft _ _ _ _ _ _) _ _ _ = _, Y : seal (dedupe_draft _ _ _ _ _ _) _ _ _ = _ |- _ =>
    rename X into Hsa, Y into Hsd end.
  match type of Hsa with seal ?d _ _ _ = _ => set (da := d) in * end.
  match type of Hsd with seal ?d _ _ _ = _ => set (dd := d) in * end.
  pose proof (seal_shows _ _ _ _ _ Hsa) as Ha. pose proof (seal_shows _ _ _ _ _ Hsd) as Hd.
  pose proof (source_json_ok s) as Hsrc. assert (draft_ok da) as Hoka by draft_ok. assert (draft_ok dd) as Hokd by draft_ok.
  apply within_inl in H as (Hrs & Hc & Hfit). cbn [foldr] in Hc. rewrite Z.add_0_r in Hc. rewrite Hc in Hfit.
  destruct (pending_updates_exist p s aid dec (p_last_arrival_seq p + 1)) as [us Hus]; [done|].
  eexists. split_and!; [|intros rs Hrs'|].
  3: { rewrite Hrs. constructor; [by apply Ha|]. constructor; [by apply Hd|constructor]. }
  2: { rewrite Hrs in Hrs'. apply Forall2_cons_inv_l in Hrs' as (a' & rs' & Hfa & Hrs' & ->).
    apply Forall2_cons_inv_l in Hrs' as (d' & rs'' & Hfd & Hnil & ->). apply Forall2_nil_inv_l in Hnil as ->.
    pose proof (sa_shows _ _ _ _ _ Ha a' Hfa) as Hsha. pose proof (sa_shows _ _ _ _ _ Hd d' Hfd) as Hshd.
    unfold verify_commit. rewrite (check_pair p h da dd st ra rd) by done. cbn [mbind outcome_bind].
    rewrite !decide_False by done.
    rewrite (shows_stamp _ _ _ _ _ _ Ha Hsha), Hboot, bool_decide_true by done.
    rewrite (proj2 (Z.leb_le _ _)) by done. rewrite !replay_check_true. cbn [mbind outcome_bind].
    unfold _verify_admission_pair. read_fields Ha Hsha Hoka. read_fields Hd Hshd Hokd.
    change (text_of (get (dr_ids da) "admission_id")) with aid. change (text_of (get (dr_ids dd) "admission_id")) with aid.
    change (dr_event_id da) with aid. rewrite !(bool_decide_true (aid = aid)) by done. rewrite replay_check_true.
    cbn [andb mbind outcome_bind].
    destruct (source_copied s _ Hs (shows_data _ _ _ Hsha Hoka "source")) as [Hthaw Hread].
    rewrite Hthaw. cbn [mbind outcome_bind]. rewrite Hread. cbn [mbind outcome_bind]. rewrite H2. cbn [mbind outcome_bind].
    change (text_of (get (dr_data da) "source_digest")) with sd. rewrite (bool_decide_true (sd = sd)) by done.
    rewrite H0. cbn [mbind outcome_bind]. rewrite H1. cbn [the mbind outcome_bind].
    rewrite (shows_charge _ _ _ Hsha), (shows_charge _ _ _ Hshd), Hfit, H5. cbn [mbind outcome_bind].
    rewrite (copy_eq_shallow 1 _ _ (holds_shallow (dispatch_holds p)) (shows_data _ _ _ Hsha Hoka "dispatch_holds")).
    rewrite (copy_eq_shallow 1 _ _ (baseline_shallow (baseline_before dec)) (shows_data _ _ _ Hshd Hokd "baseline_before")).
    rewrite (copy_eq_shallow 1 _ _ (baseline_shallow (Some (baseline_after dec))) (shows_data _ _ _ Hshd Hokd "baseline_after")).
    rewrite (copy_eq_shallow 2 _ _ (superseded_shallow (superseded dec)) (shows_data _ _ _ Hshd Hokd "superseded")).
    change (int_of (get (dr_data da) "arrival_seq")) with (p_last_arrival_seq p + 1).
    change (text_of (get (dr_data da) "decision")) with (held_or_admitted (dispatch_holds p)).
    change (text_of (get (dr_data dd) "rule")) with DEDUPE_RULE. change (text_of (get (dr_data dd) "result")) with (dn_result dec).
    change (text_of (get (dr_data dd) "source_group")) with (source_group s).
    change (text_of (get (dr_data dd) "dedupe_key")) with key.
    change (int_of (get (dr_data dd) "pending_count_after")) with (_pending_count_after p dec).
    rewrite Hus, Epend, !Z.eqb_refl, !bool_decide_true by done. rewrite !mismatch_true by (rewrite ?Z.leb_le; bool_simpl; done).
    cbn [mbind outcome_bind]. unfold head_after.
    rewrite (sh_position _ _ _ Hsha), (sh_position _ _ _ Hshd), (sh_digest _ _ _ Hshd). reflexivity. }
  cbn. by rewrite Hc.
Qed.
