(* ===== verification/JournalClaimThm.v ===== *)
(** * Planned claims are accepted on replay

    Every claim's verifier plans the claim again from the record; these proofs
    read each argument of the plan back off the record, in either form.  The
    second half is about a released run: effects, supervision actions, what was
    observed of the process and its result, its assessment, and read-back
    observations. *)

From S2P Require Import Prelude PyValue PyJson Sha256 CanonJson PyBytes JsonParse JsonRoundtrip JournalValue JournalSource.
From S2P Require Import JournalSourceThm JournalRecords JournalClaims JournalSeal JournalStored JournalAccepts JournalSealThm.
From S2P Require Import JournalState JournalPlan JournalVerify JournalClaimPlan JournalEffects JournalClaimVerify JournalReplay.
From S2P Require Import JournalCopies JournalFrontThm.
From S2P Require RunOutcome.
From S2P Require Supervision.
Local Open Scope string_scope.
Local Open Scope Z_scope.
Local Open Scope list_scope.

#[local] Opaque sha256_hex.

(** ** A stamp of the running boot *)
Definition running (p : Projection) (st : Stamp) : Prop := p_boot_id p = Some (boot_id st) ∧ p_last_mono_us p ≤ mono_us st.

(** ** Reading rows back *)
Section rows.
Context {A : Type} (to : A → value) (from : members → A).
Hypothesis (Hrow : ∀ a v, copy (to a) v → from (dict_of v) = a).

Lemma rows_copied l v : copy (DList (map to l)) v → map from (map dict_of (default [] (items v))) = l.
Proof.
  intros Hc. destruct (copy_rows _ _ _ Hc eq_refl) as (l' & -> & Hl). change (default [] (Some l')) with l'. clear Hc v.
  revert l' Hl. induction l as [|a l IH]; intros l' Hl; cbn in Hl.
  - by apply Forall2_nil_inv_l in Hl as ->.
  - apply Forall2_cons_inv_l in Hl as (v & vs & Ha & Hl & ->). cbn. by rewrite (Hrow _ _ Ha), IH.
Qed.
End rows.

Lemma service_row_copied s v : copy (service_row_json s) v → service_row (dict_of v) = s.
Proof.
  intros Hc. assert (value_ok (service_row_json s)) as Hm by value_ok_dict.
  pose proof (λ k, copy_text _ _ (copy_get _ _ k Hc Hm)) as Hg. unfold service_row. rewrite !Hg. by destruct s.
Qed.
Lemma grant_row_copied g v : copy (grant_row_json g) v → grant_row (dict_of v) = g.
Proof.
  intros Hc. assert (value_ok (grant_row_json g)) as Hm by value_ok_dict.
  pose proof (λ k, copy_text _ _ (copy_get _ _ k Hc Hm)) as Hg. pose proof (λ k, copy_int _ _ (copy_get _ _ k Hc Hm)) as Hi.
  unfold grant_row, service_row. rewrite !Hg, !Hi. by destruct g as [[] ? ?].
Qed.
Lemma activation_row_copied a v : copy (activation_json a) v → activation_row (dict_of v) = a.
Proof.
  intros Hc. assert (value_ok (activation_json a)) as Hm by value_ok_dict.
  pose proof (λ k, copy_text _ _ (copy_get _ _ k Hc Hm)) as Hg. pose proof (λ k, copy_int _ _ (copy_get _ _ k Hc Hm)) as Hi.
  unfold activation_row. rewrite !Hg, !Hi. by destruct a.
Qed.

Lemma opt_copied o v : copy (str_opt o) v → match v with DStr s => Some s | _ => None end = o.
Proof. intros Hc. rewrite (copy_scalar _ _ Hc); by destruct o. Qed.

(** ** One sealed claim *)
Lemma members_ok_set m k v : members_ok m → value_ok v → members_ok (dict_set m k v).
Proof.
  rewrite !members_ok_spec. intros [Hnd Hm] Hv. split; [by apply dict_ok_set|]. clear Hnd.
  induction m as [|[k' w] m IH]; cbn; [by constructor|]. apply Forall_cons in Hm as [? ?]. case_decide; constructor; auto.
Qed.

(** The plan of a claim: a record sealed with a digest in its data. *)
Definition sealed_claim (p : Projection) (event_type event_id : string) (ids data : members) (key : string) (st : Stamp) (plan : Plan)
    (h : Head) : Prop :=
  ∃ digest sealed region out,
    seal {| dr_event_id := event_id; dr_event_type := event_type; dr_actor := "receiver"; dr_ids := ids;
            dr_data := dict_set data key (DStr digest) |} (next_position p h 1) st 3 = Ret sealed ∧
    within_region p region [sealed] out = Ret (inl plan).

Lemma seal_claim_sealed p h t e ids data key tag cap region st out plan : p_head p = Some h →
  seal_claim p t e ids data key tag cap region st out = Ret (inl plan) → sealed_claim p t e ids data key st plan h.
Proof.
  intros Hh. unfold seal_claim. intros H. inv_do.
  match goal with X : _single_position _ = _ |- _ => apply single_position in X as (h' & Hh' & ->) end.
  assert (h' = h) as -> by congruence. do 4 eexists. split; eassumption.
Qed.

Lemma seal_execution_sealed p h t e ids data key tag cap st plan : p_head p = Some h →
  _seal_execution p e t ids data key tag cap st = Ret (inl plan) → sealed_claim p t e ids data key st plan h.
Proof.
  intros Hh. unfold _seal_execution, seal_execution_claim. intros H. inv_do.
  match goal with X : _single_position _ = _ |- _ => apply single_position in X as (h' & Hh' & ->) end.
  assert (h' = h) as -> by congruence.
  match goal with X : thaw _ = Ret _ |- _ => apply thaw_ret in X as -> end.
  cbn [dr_event_id dr_event_type dr_actor dr_ids dr_data dict_of] in *.
  match goal with X : match ?o with Ret _ => _ | Raise _ => _ end = Ret ?res |- _ =>
    destruct o as [rec|] eqn:Eo; [injection X as <-|by destruct (str_in _ _); [injection X as <-|]] end.
  inv_do. do 4 eexists. split; eassumption.
Qed.

Lemma planned_verified p h draft st v sealed region out plan f : p_head p = Some h →
  sealed_as draft (next_position p h 1) st v sealed → within_region p region [sealed] out = Ret (inl plan) →
  draft_ok draft → handled_by (dr_event_type draft) f → running p st →
  (pl_records plan = [sealed] → ∃ chg, ∀ r, form_of sealed r → shows draft sealed r →
     f p r (hd_commit_seq h + 1) = Ret (after p r (hd_commit_seq h + 1) (pl_charge plan) chg)) →
  verified p plan.
Proof.
  intros Hh Hs Hw Hok Ht [Hboot Hmono] Hf. destruct (within_inl _ _ _ _ _ Hw) as (Hrs & Hc & _). destruct (Hf Hrs) as [chg Hchg].
  eapply (verified_single _ _ _ _ _ _ Hh Hs region out plan f chg); try done.
  intros r Hfr Hsh _. rewrite Hchg by done. cbn in Hc. by rewrite Hc, Z.add_0_r, (shows_charge _ _ _ Hsh).
Qed.

Lemma claim_verified p h t e ids data key st plan f : p_head p = Some h → sealed_claim p t e ids data key st plan h →
  members_ok ids → members_ok data → handled_by t f → running p st →
  (∀ digest sealed, let draft := {| dr_event_id := e; dr_event_type := t; dr_actor := "receiver"; dr_ids := ids;
       dr_data := dict_set data key (DStr digest) |} in
     sealed_as draft (next_position p h 1) st 3 sealed → draft_ok draft → pl_records plan = [sealed] →
     ∃ chg, ∀ r, form_of sealed r → shows draft sealed r →
       f p r (hd_commit_seq h + 1) = Ret (after p r (hd_commit_seq h + 1) (pl_charge plan) chg)) →
  verified p plan.
Proof.
  intros Hh (digest & sealed & region & out & Hseal & Hw) Hids Hdata Ht Hrun Hf.
  pose proof (seal_shows _ _ _ _ _ Hseal) as Hs. assert (draft_ok {| dr_event_id := e; dr_event_type := t; dr_actor := "receiver";
    dr_ids := ids; dr_data := dict_set data key (DStr digest) |}) as Hok by (split; [done|by apply members_ok_set]).
  eapply (planned_verified _ _ _ _ _ _ _ _ _ f Hh Hs Hw Hok Ht Hrun). by apply Hf.
Qed.

(** The steps every claim's proof has: the plan up to the sealing of its
    record; then the verifier, whose arguments are read back. *)
Ltac claim_plan := inv_do; repeat match goal with
  | X : mismatch _ = Ret _ |- _ => apply mismatch_ret in X
  | X : the _ = Ret _ |- _ => apply the_ret in X
  end.
Ltac claim_reads Hs Hsh Hok Hplan Hf Hrs :=
  read_fields Hs Hsh Hok; again Hplan;
  rewrite ?(within_cap _ _ _ _ _ _ Hs Hsh) by auto; rewrite ?mismatch_true by done; cbn [mbind outcome_bind];
  rewrite ?(exact_claim_same _ _ _ _ _ _ Hs Hsh _ Hf Hrs), ?(exact_plan_same _ _ _ Hsh _ Hrs); reflexivity.
(** A claim sealed by [seal_claim] or [_seal_execution]. *)
Ltac sealed_by X H :=
  first [pose proof (seal_claim_sealed _ _ _ _ _ _ _ _ _ _ _ _ _ X H) | pose proof (seal_execution_sealed _ _ _ _ _ _ _ _ _ _ _ X H)].
Ltac claim_sealed H :=
  match goal with X : p_head ?p = Some ?h |- verified ?p _ =>
    let Hs := fresh in
    first [pose proof (seal_claim_sealed _ _ _ _ _ _ _ _ _ _ _ _ _ X H) as Hs |
           pose proof (seal_execution_sealed _ _ _ _ _ _ _ _ _ _ _ X H) as Hs];
    eapply (claim_verified _ _ _ _ _ _ _ _ _ _ X Hs); [value_ok_dict| |handled|done|] end.

Lemma value_ok_rows {A} (to : A → value) l : (∀ a, value_ok (to a)) → value_ok (DList (map to l)).
Proof. intros H. by apply value_ok_list, Forall_map_all. Qed.

Lemma Forall_omap_all {A B} (P : B → Prop) (f : A → option B) l : (∀ x y, f x = Some y → P y) → Forall P (omap f l).
Proof. intros H. induction l as [|x l IH]; [constructor|]. cbn. destruct (f x) eqn:E; [constructor; eauto|done]. Qed.

(** ** Reservations *)
Lemma reservation_intent_verified p i st plan :
  plan_reservation_intent p i st = Ret (inl plan) → running p st → verified p plan.
Proof.
  intros Hplan Hrun. pose proof Hplan as H. unfold plan_reservation_intent in H. inv_do.
  destruct (MAX_RESERVATION_CLAIMS <=? _); [done|]. destruct (c_run_holds (p_claims p) !! job i) as [held|]; [|done].
  destruct (p_journal_uuid p); [|done]. inv_do. planned_record r draft Hh Hs Hok.
  eapply (planned_verified _ _ _ _ _ _ _ _ _ _ Hh Hs H Hok); [handled|done|].
  intros Hrs. eexists. intros r' Hf Hsh. cbv beta. rewrite (shows_version _ _ _ _ _ _ Hs Hsh).
  cbn [Z.eqb Pos.eqb]. unfold _verify_reservation_intent, intent_ids_of, reservation_claim. destruct i.
  claim_reads Hs Hsh Hok Hplan Hf Hrs.
Qed.

Lemma initial_reservation_intent_verified p i st plan :
  plan_initial_reservation_intent p i st = Ret (inl plan) → running p st → verified p plan.
Proof.
  intros Hplan Hrun. pose proof Hplan as H. unfold plan_initial_reservation_intent in H. inv_do.
  destruct (MAX_RESERVATION_CLAIMS <=? _); [done|]. destruct (p_journal_uuid p); [|done]. inv_do. planned_record r draft Hh Hs Hok.
  eapply (planned_verified _ _ _ _ _ _ _ _ _ _ Hh Hs H Hok); [handled|done|].
  intros Hrs. eexists. intros r' Hf Hsh. cbv beta. rewrite (shows_version _ _ _ _ _ _ Hs Hsh).
  cbn [Z.eqb Pos.eqb]. unfold _verify_initial_reservation_intent, intent_ids_of, reservation_claim. destruct i.
  claim_reads Hs Hsh Hok Hplan Hf Hrs.
Qed.

Lemma reservation_confirmation_verified p i e ev st plan :
  plan_reservation_confirmation p i e ev st = Ret (inl plan) → running p st → verified p plan.
Proof.
  intros Hplan Hrun. pose proof Hplan as H. unfold plan_reservation_confirmation in H. inv_do.
  destruct (MAX_RESERVATION_CLAIMS <=? _); [done|]. destruct (c_intents (p_claims p) !! i) as [claimed|]; [|done]. inv_do.
  unfold confirmation_draft in *. planned_record r draft Hh Hs Hok.
  eapply (planned_verified _ _ _ _ _ _ _ _ _ _ Hh Hs H Hok); [handled|done|].
  intros Hrs. eexists. intros r' Hf Hsh. unfold _verify_reservation_confirmation. rewrite (shows_version _ _ _ _ _ _ Hs Hsh).
  cbn [Z.eqb Pos.eqb orb]. destruct ev. claim_reads Hs Hsh Hok Hplan Hf Hrs.
Qed.

Lemma initial_reservation_confirmation_verified p i e ev st plan :
  plan_initial_reservation_confirmation p i e ev st = Ret (inl plan) → running p st → verified p plan.
Proof.
  intros Hplan Hrun. pose proof Hplan as H. unfold plan_initial_reservation_confirmation in H. inv_do.
  destruct (MAX_RESERVATION_CLAIMS <=? _); [done|]. destruct (c_initial_intents (p_claims p) !! i) as [claimed|]; [|done]. inv_do.
  unfold confirmation_draft in *. planned_record r draft Hh Hs Hok.
  eapply (planned_verified _ _ _ _ _ _ _ _ _ _ Hh Hs H Hok); [handled|done|].
  intros Hrs. eexists. intros r' Hf Hsh. unfold _verify_reservation_confirmation. rewrite (shows_version _ _ _ _ _ _ Hs Hsh).
  cbn [Z.eqb Pos.eqb orb]. destruct ev. claim_reads Hs Hsh Hok Hplan Hf Hrs.
Qed.

(** ** Run intent, launch, spawn and release *)

(** Initial intents are kept under their own ids. *)
Definition intents_keyed (p : Projection) : Prop :=
  ∀ i claim, c_initial_intents (p_claims p) !! i = Some claim → ri_intent_id (ii_claim claim) = i.

Lemma run_intent_verified p i e seq digest services st plan :
  plan_run_intent p i e seq digest services st = Ret (inl plan) → intents_keyed p → running p st → verified p plan.
Proof.
  intros Hplan Hkeyed Hrun. pose proof Hplan as H. unfold plan_run_intent in H. inv_do.
  destruct (c_initial_intents (p_claims p) !! i) as [initial|] eqn:Ei; [|done]. apply Hkeyed in Ei.
  destruct (c_initial_confirmations (p_claims p) !! i) as [confirmation|]; [|done]. claim_plan. claim_sealed H.
  { unfold run_intent_data. value_ok_dict; [value_ok_dict|]. apply value_ok_rows. intros. value_ok_dict. }
  intros dg sealed draft Hs Hok Hrs. eexists. intros r Hf Hsh. unfold _verify_run_intent, version_3, rows_at.
  rewrite (rows_copied _ _ service_row_copied services _ (shows_data _ _ _ Hsh Hok "services")).
  pose proof (shows_data _ _ _ Hsh Hok "ledger_head") as Hl.
  change (get (dr_data draft) "ledger_head") with (DDict [("sequence", DInt seq); ("event_digest", DStr digest)]) in Hl.
  assert (members_ok [("sequence", DInt seq); ("event_digest", DStr digest)]) as Hm by value_ok_dict.
  rewrite !(copy_int _ _ (copy_get _ _ _ Hl Hm)), !(copy_text _ _ (copy_get _ _ _ Hl Hm)).
  read_fields Hs Hsh Hok. change (text_of (get (dr_ids draft) "intent_id")) with (ri_intent_id (ii_claim initial)). rewrite Ei.
  claim_reads Hs Hsh Hok Hplan Hf Hrs.
Qed.

Lemma launch_claim_verified p e fg btd grants st plan :
  plan_launch_claim p e fg btd grants st = Ret (inl plan) → running p st → verified p plan.
Proof.
  intros Hplan Hrun. pose proof Hplan as H. unfold plan_launch_claim in H. inv_do.
  destruct (c_run_intent (p_claims p)) as [n|] eqn:En; [|done]. claim_plan. claim_sealed H.
  { unfold launch_data. value_ok_dict. apply value_ok_rows. intros. value_ok_dict. }
  intros dg sealed draft Hs Hok Hrs. eexists. intros r Hf Hsh. unfold _verify_launch_claim, version_3, rows_at.
  rewrite (rows_copied _ _ grant_row_copied grants _ (shows_data _ _ _ Hsh Hok "grants")).
  claim_reads Hs Hsh Hok Hplan Hf Hrs.
Qed.

Lemma spawn_attestation_verified p e at_ st plan :
  plan_spawn_attestation p e at_ st = Ret (inl plan) → running p st → verified p plan.
Proof.
  intros Hplan Hrun. pose proof Hplan as H. unfold plan_spawn_attestation in H. claim_plan. claim_sealed H.
  { value_ok_dict. }
  intros dg sealed draft Hs Hok Hrs. eexists. intros r Hf Hsh. unfold _verify_spawn_attestation, version_3.
  destruct at_. claim_reads Hs Hsh Hok Hplan Hf Hrs.
Qed.

Lemma release_intent_verified p e activated st plan :
  plan_release_intent p e activated st = Ret (inl plan) → running p st → verified p plan.
Proof.
  intros Hplan Hrun. pose proof Hplan as H. unfold plan_release_intent in H. inv_do.
  destruct (c_spawn_attestation (p_claims p)) as [attested|]; [|done]. claim_plan. claim_sealed H.
  { value_ok_dict. apply value_ok_rows. intros. value_ok_dict. }
  intros dg sealed draft Hs Hok Hrs. eexists. intros r Hf Hsh. unfold _verify_release_intent, version_3, rows_at.
  rewrite (rows_copied _ _ activation_row_copied activated _ (shows_data _ _ _ Hsh Hok "activated_grants")).
  claim_reads Hs Hsh Hok Hplan Hf Hrs.
Qed.

Lemma release_observation_verified p e ack st plan :
  plan_release_observation p e ack st = Ret (inl plan) → running p st → verified p plan.
Proof.
  intros Hplan Hrun. pose proof Hplan as H. unfold plan_release_observation in H.
  destruct (c_launch_claim (p_claims p)) as [launch|]; [|done]. destruct (c_release_intent (p_claims p)) as [intended|]; [|done].
  claim_plan. claim_sealed H. { value_ok_dict. }
  intros dg sealed draft Hs Hok Hrs. eexists. intros r Hf Hsh. unfold _verify_release_observation, version_3.
  claim_reads Hs Hsh Hok Hplan Hf Hrs.
Qed.

(** ** Effects *)
Lemma effect_intent_verified p e op q st plan :
  plan_effect_intent p e op q st = Ret (inl plan) → running p st → verified p plan.
Proof.
  intros Hplan Hrun. pose proof Hplan as H. unfold plan_effect_intent in H. inv_do.
  destruct (c_release_observation (p_claims p)) as [released|]; [|done].
  destruct (grant_of _ (rq_service q)) as [grant|]; [|done]. inv_do.
  destruct (MAX_EFFECT_CLAIMS <=? _); [done|]. claim_plan. claim_sealed H. { value_ok_dict. }
  intros dg sealed draft Hs Hok Hrs. eexists. intros r Hf Hsh. unfold _verify_effect_intent, version_3, effect_request.
  destruct q. claim_reads Hs Hsh Hok Hplan Hf Hrs.
Qed.

Lemma effect_receipt_verified p e op state reason digest st plan :
  plan_effect_receipt p e op state reason digest st = Ret (inl plan) → running p st → verified p plan.
Proof.
  intros Hplan Hrun. pose proof Hplan as H. unfold plan_effect_receipt in H.
  destruct (c_effect_intents (p_claims p) !! op) as [intent|]; [|done]. claim_plan. claim_sealed H. { value_ok_dict. }
  intros dg sealed draft Hs Hok Hrs. eexists. intros r Hf Hsh. unfold _verify_effect_receipt, version_3.
  claim_reads Hs Hsh Hok Hplan Hf Hrs.
Qed.

(** ** Supervision actions *)
Lemma supervision_action_intent_verified p e aid kind service grant st plan :
  plan_supervision_action_intent p e aid kind service grant st = Ret (inl plan) → running p st → verified p plan.
Proof.
  intros Hplan Hrun. pose proof Hplan as H. unfold plan_supervision_action_intent in H.
  destruct (c_launch_claim (p_claims p)) as [launch|]; [|done]. inv_do.
  destruct (_supervision_action_phase p launch) as [[phase pid] pdg]. claim_plan. claim_sealed H.
  { value_ok_dict. apply value_ok_list. case_bool_decide; [constructor|]. apply Forall_omap_all. intros row v. by intros (? & _ & ->)%fmap_Some. }
  intros dg sealed draft Hs Hok Hrs. eexists. intros r Hf Hsh. unfold _verify_supervision_action_intent, version_3, opt_at.
  rewrite (opt_copied service _ (shows_data _ _ _ Hsh Hok "service")), (opt_copied grant _ (shows_data _ _ _ Hsh Hok "grant_id")).
  claim_reads Hs Hsh Hok Hplan Hf Hrs.
Qed.

Lemma supervision_action_result_verified p e aid out st plan :
  plan_supervision_action_result p e aid out st = Ret (inl plan) → running p st → verified p plan.
Proof.
  intros Hplan Hrun. pose proof Hplan as H. unfold plan_supervision_action_result in H.
  destruct (c_supervision_action_intents (p_claims p) !! aid) as [intent|]; [|done].
  destruct (c_launch_claim (p_claims p)) as [launch|]; [|done]. inv_do.
  destruct (dict_get SUPERVISION_ACTION_OUTCOMES _) as [outcomes|]; [|done]. claim_plan. claim_sealed H. { value_ok_dict. }
  intros dg sealed draft Hs Hok Hrs. eexists. intros r Hf Hsh. unfold _verify_supervision_action_result, version_3.
  claim_reads Hs Hsh Hok Hplan Hf Hrs.
Qed.

(** ** Execution *)
Lemma execution_base p e st rule launch ids data : _execution_base p e st rule = Ret (launch, ids, data) →
  ∃ h, p_head p = Some h ∧ ids = [("journal_uuid", DStr (lc_journal_uuid launch)); ("run_id", DStr (lc_run_id launch));
    ("attempt_id", DStr (lc_attempt_id launch))] ∧ data = based_on rule h ++ launch_link launch ++ observed_now p st.
Proof.
  unfold _execution_base. intros H. destruct (c_launch_claim (p_claims p)); [|done]. claim_plan. injection H as <- <- <-. by eexists.
Qed.

(** The facts of a process, once checked, are scalars. *)
Definition plain (v : pyval) : bool := match v with VFloat _ | VObject => false | _ => true end.

Lemma plain_copied v w : plain v = true → copy (of_pyval v) w → to_pyval w = v.
Proof. intros Hv Hc. rewrite (copy_scalar _ _ Hc); by destruct v. Qed.
Lemma plain_value_ok v : plain v = true → value_ok (of_pyval v).
Proof. by destruct v. Qed.

Lemma valid_facts_plain f : validate_execution_process f = true →
  plain (RunOutcome.spawn_state f) = true ∧ plain (RunOutcome.exit_observed f) = true ∧ plain (RunOutcome.exit_code f) = true ∧
  plain (RunOutcome.exit_signal f) = true ∧ plain (RunOutcome.timed_out f) = true ∧ plain (RunOutcome.cancelled f) = true ∧
  plain (RunOutcome.containment f) = true.
Proof.
  unfold validate_execution_process, RunOutcome.assess_execution. intros H.
  destruct (RunOutcome._process_valid (Some f)) eqn:E; [|done]. clear H. cbn [RunOutcome._process_valid] in E.
  assert (∀ v l, Supervision.str_among v l = true → plain v = true) as Hs by (by intros []).
  assert (∀ v, Supervision.is_bool v = true → plain v = true) as Hb by (by intros []).
  assert (∀ v lo hi, RunOutcome.int_in lo hi v = true → plain v = true) as Hi by (by intros []).
  assert (∀ v, Supervision.is_none v = true → plain v = true) as Hn by (by intros []).
  bool_simpl. split_and!; eauto; match goal with X : (if ?b then _ else _) = true |- _ => destruct b in X; clear -X Hi Hn end;
    bool_simpl; try match goal with X : _ || _ = true |- _ => apply orb_true_iff in X as [X|X]; bool_simpl end; eauto.
Qed.

Lemma process_observation_verified p e facts digest st plan :
  plan_process_observation p e facts digest st = Ret (inl plan) → running p st → verified p plan.
Proof.
  intros Hplan Hrun. pose proof Hplan as H. unfold plan_process_observation in H. inv_do. destruct a as [[launch ids] data].
  claim_plan. match goal with X : _execution_base _ _ _ _ = _ |- _ => apply execution_base in X as (h & Hh & -> & ->) end. claim_sealed H.
  { value_ok_dict; by match goal with |- value_ok (of_pyval ?v) => destruct v end. }
  match goal with X : _ && _ = true |- _ => apply andb_true_iff in X as [Hv%valid_facts_plain _] end.
  destruct Hv as (Hv1 & Hv2 & Hv3 & Hv4 & Hv5 & Hv6 & Hv7).
  intros dg sealed draft Hs Hok Hrs. eexists. intros r Hf Hsh. unfold _verify_process_observation, version_3.
  assert (facts_of r = facts) as ->.
  { unfold facts_of. pose proof (λ k, shows_data _ _ _ Hsh Hok k) as Hg.
    rewrite (plain_copied _ _ Hv1 (Hg "spawn_state")), (plain_copied _ _ Hv2 (Hg "exit_observed")),
      (plain_copied _ _ Hv3 (Hg "exit_code")), (plain_copied _ _ Hv4 (Hg "exit_signal")), (plain_copied _ _ Hv5 (Hg "timed_out")),
      (plain_copied _ _ Hv6 (Hg "cancelled")), (plain_copied _ _ Hv7 (Hg "containment")). by destruct facts. }
  claim_reads Hs Hsh Hok Hplan Hf Hrs.
Qed.

Lemma terminal_observation_verified p e t st plan :
  plan_terminal_observation p e t st = Ret (inl plan) → Forall (λ kv, scalar kv.2 = true) (summary_json t) →
  running p st → verified p plan.
Proof.
  intros Hplan Ht Hrun. pose proof Hplan as H. unfold plan_terminal_observation in H. inv_do. destruct a as [[launch ids] data].
  destruct (c_process_observation (p_claims p)) as [process|]; [|done].
  claim_plan. match goal with X : _execution_base _ _ _ _ = _ |- _ => apply execution_base in X as (h & Hh & -> & ->) end.
  destruct t as [t1 t2 t3 t4 t5 t6 t7 t8]. unfold summary_json in Ht.
  repeat match goal with X : Forall _ (_ :: _) |- _ => let E := fresh "Et" in apply Forall_cons in X as [E X]; cbn [snd] in E end.
  assert (∀ v, scalar v = true → value_ok v) as Hval by (by intros []).
  claim_sealed H. { value_ok_dict; auto. }
  intros dg sealed draft Hs Hok Hrs. eexists. intros r Hf Hsh. unfold _verify_terminal_observation, version_3.
  assert (summary_of r = {| ts_count_class := t1; ts_quality := t2; ts_invalidity_code := t3; ts_subtype := t4; ts_is_error := t5;
    ts_reason_code := t6; ts_usage_state := t7; ts_source_digest := t8 |}) as ->.
  { unfold summary_of. pose proof (λ k, copy_scalar _ _ (shows_data _ _ _ Hsh Hok k)) as Hg. by rewrite !Hg. }
  claim_reads Hs Hsh Hok Hplan Hf Hrs.
Qed.

Lemma texts_copied l v : copy (DList (map DStr l)) v → map text_of (default [] (items v)) = l.
Proof.
  intros Hc. destruct (copy_rows _ _ _ Hc eq_refl) as (l' & -> & Hl). change (default [] (Some l')) with l'. clear Hc v.
  revert l' Hl. induction l as [|a l IH]; intros l' Hl; cbn in Hl.
  - by apply Forall2_nil_inv_l in Hl as ->.
  - apply Forall2_cons_inv_l in Hl as (v & vs & Ha & Hl & ->). cbn. by rewrite (copy_text _ _ Ha), IH.
Qed.

Lemma execution_assessment_verified p e st plan :
  plan_execution_assessment p e st = Ret (inl plan) → running p st → verified p plan.
Proof.
  intros Hplan Hrun. pose proof Hplan as H. unfold plan_execution_assessment in H. inv_do. destruct a as [[launch ids] data].
  destruct (c_process_observation (p_claims p)) as [process|]; [|done].
  destruct (c_terminal_observation (p_claims p)) as [terminal|]; [|done].
  claim_plan. match goal with X : _execution_base _ _ _ _ = _ |- _ => apply execution_base in X as (h & Hh & -> & ->) end. claim_sealed H.
  { value_ok_dict; exact I. }
  intros dg sealed draft Hs Hok Hrs. eexists. intros r Hf Hsh. unfold _verify_execution_assessment, version_3.
  rewrite (texts_copied (RunOutcome.ea_reasons a0) _ (shows_data _ _ _ Hsh Hok "reasons")).
  rewrite (copy_scalar _ _ (shows_data _ _ _ Hsh Hok "never_started")) by done.
  claim_reads Hs Hsh Hok Hplan Hf Hrs.
Qed.

(** ** Read-back observations *)
Lemma reconciliation_observation_verified p e op rd st plan :
  plan_reconciliation_observation p e op rd st = Ret (inl plan) → running p st → verified p plan.
Proof.
  intros Hplan Hrun. destruct rd as [state digest version]. pose proof Hplan as H. unfold plan_reconciliation_observation in H.
  destruct (c_effect_intents (p_claims p) !! op) as [intent|]; [|done].
  destruct (c_launch_claim (p_claims p)) as [launch|]; [|done]. destruct (source_kind_of intent) as [kind|]; [|done]. inv_do.
  destruct (MAX_RECONCILIATION_PER_OPERATION <=? _); [done|]. claim_plan. claim_sealed H. { value_ok_dict. }
  intros dg sealed draft Hs Hok Hrs. eexists. intros r Hf Hsh.
  unfold _verify_reconciliation_observation, version_3, read_back_of, read_back_claim, opt_at.
  rewrite !(opt_copied version _ (shows_data _ _ _ Hsh Hok "version_digest")).
  claim_reads Hs Hsh Hok Hplan Hf Hrs.
Qed.

Lemma restart_reconciliation_observation_verified p e op rd st plan :
  plan_restart_reconciliation_observation p e op rd st = Ret (inl plan) → running p st → verified p plan.
Proof.
  intros Hplan Hrun. destruct rd as [state digest version]. pose proof Hplan as H. unfold plan_restart_reconciliation_observation in H.
  destruct (c_effect_intents (p_claims p) !! op) as [intent|]; [|done].
  destruct (c_launch_claim (p_claims p)) as [launch|]; [|done]. destruct (p_boot_recovered p) as [recovered|]; [|done].
  destruct (source_kind_of intent) as [kind|]; [|done]. destruct (p_boot_start_commit_seq p) as [start|]; [|done].
  destruct (p_boot_start_record_digest p) as [sdigest|]; [|done]. inv_do.
  destruct (MAX_RESTART_RECONCILIATION_PER_OPERATION <=? _); [done|]. claim_plan. claim_sealed H. { value_ok_dict. }
  intros dg sealed draft Hs Hok Hrs. eexists. intros r Hf Hsh.
  unfold _verify_restart_reconciliation_observation, version_3, read_back_of, read_back_claim, opt_at.
  rewrite !(opt_copied version _ (shows_data _ _ _ Hsh Hok "version_digest")).
  claim_reads Hs Hsh Hok Hplan Hf Hrs.
Qed.
