(* ===== verification/JournalReplayThm.v ===== *)
(** * Planning and replay agree

    A live journal commits what its plan functions return; on the next open the
    rows are grouped into commits and verified again.  [live] histories are
    those the plan functions make; replaying one, from its records or from the
    bodies that were stored, gives the projection the journal had. *)

From S2P Require Import Prelude PyValue PyJson Sha256 CanonJson PyBytes JsonParse JsonRoundtrip JournalValue JournalSource.
From S2P Require Import JournalSourceThm JournalRecords JournalClaims JournalSeal JournalStored JournalAccepts JournalSealThm.
From S2P Require Import JournalState JournalPlan JournalVerify JournalClaimPlan JournalEffects JournalClaimVerify JournalReplay.
From S2P Require Import JournalCopies JournalFrontThm JournalClaimThm.
Local Open Scope string_scope.
Local Open Scope Z_scope.
Local Open Scope list_scope.

#[local] Opaque sha256_hex.

(** ** What a journal may commit

    The conditions are those [RecoveryJournal] establishes before it calls a
    plan function: the stamp is of the boot the journal runs in and not before
    the last one, a boot id is fresh, a source is validated, a hold records the
    refusal [plan_admission] gave, a resume follows its restart at once. *)
Inductive claim_planned (p : Projection) (st : Stamp) (plan : Plan) : Prop :=
| planned_reservation_intent i : plan_reservation_intent p i st = Ret (inl plan) → claim_planned p st plan
| planned_initial_intent i : plan_initial_reservation_intent p i st = Ret (inl plan) → claim_planned p st plan
| planned_confirmation i e ev : plan_reservation_confirmation p i e ev st = Ret (inl plan) → claim_planned p st plan
| planned_initial_confirmation i e ev :
    plan_initial_reservation_confirmation p i e ev st = Ret (inl plan) → claim_planned p st plan
| planned_run_intent i e seq digest services : plan_run_intent p i e seq digest services st = Ret (inl plan) → claim_planned p st plan
| planned_launch e generation barrier grants : plan_launch_claim p e generation barrier grants st = Ret (inl plan) → claim_planned p st plan
| planned_attestation e a : plan_spawn_attestation p e a st = Ret (inl plan) → claim_planned p st plan
| planned_release e activated : plan_release_intent p e activated st = Ret (inl plan) → claim_planned p st plan
| planned_released e ack : plan_release_observation p e ack st = Ret (inl plan) → claim_planned p st plan
| planned_effect e op q : plan_effect_intent p e op q st = Ret (inl plan) → claim_planned p st plan
| planned_receipt e op state reason digest : plan_effect_receipt p e op state reason digest st = Ret (inl plan) → claim_planned p st plan
| planned_action e a kind service grant :
    plan_supervision_action_intent p e a kind service grant st = Ret (inl plan) → claim_planned p st plan
| planned_result e a out : plan_supervision_action_result p e a out st = Ret (inl plan) → claim_planned p st plan
| planned_process e facts digest : plan_process_observation p e facts digest st = Ret (inl plan) → claim_planned p st plan
| planned_terminal e t : Forall (λ kv, scalar kv.2 = true) (summary_json t) →
    plan_terminal_observation p e t st = Ret (inl plan) → claim_planned p st plan
| planned_assessment e : plan_execution_assessment p e st = Ret (inl plan) → claim_planned p st plan
| planned_reconciliation e op rd : plan_reconciliation_observation p e op rd st = Ret (inl plan) → claim_planned p st plan
| planned_restart_reconciliation e op rd :
    plan_restart_reconciliation_observation p e op rd st = Ret (inl plan) → claim_planned p st plan.

Inductive planned (p : Projection) (plan : Plan) : Prop :=
| planned_genesis uuid bounds e st : p = new_projection → plan_genesis uuid bounds e st = Ret plan → planned p plan
| planned_restart e st lag wal : boot_id st ∉ p_seen_boot_ids p → plan_restart p e st lag wal = Ret (inl plan) → planned p plan
| planned_resume e st operator reason : running p st → hd_commit_seq <$> p_head p = p_boot_start_commit_seq p →
    plan_operator_resume p e st operator reason = Ret (inl plan) → planned p plan
| planned_admission s aid did st : running p st → source_ok s → plan_admission p s aid did st = Ret (inl plan) → planned p plan
| planned_capacity_hold s aid did refusal e st digest : running p st → plan_admission p s aid did st = Ret (inr refusal) →
    plan_capacity_hold p refusal e st digest = Ret (Some (inl plan)) → planned p plan
| planned_refusal summary e st : running p st → members_ok summary → plan_ingress_refusal p summary e st = Ret (inl plan) → planned p plan
| planned_run_hold job aid e reason st : running p st → plan_run_hold p job aid e reason st = Ret (inl plan) → planned p plan
| planned_claim st : running p st → claim_planned p st plan → planned p plan.

Inductive live : list JournalRecord → Projection → Prop :=
| live_new : live [] new_projection
| live_commit rs p plan d : live rs p → planned p plan → verify_commit p (pl_records plan) = Ret d →
    live (rs ++ pl_records plan) (apply_delta p d).

#[local] Hint Resolve reservation_intent_verified initial_reservation_intent_verified reservation_confirmation_verified
  initial_reservation_confirmation_verified run_intent_verified launch_claim_verified spawn_attestation_verified
  release_intent_verified release_observation_verified effect_intent_verified effect_receipt_verified
  supervision_action_intent_verified supervision_action_result_verified process_observation_verified
  terminal_observation_verified execution_assessment_verified reconciliation_observation_verified
  restart_reconciliation_observation_verified : verified.

Lemma claim_planned_verified p st plan : claim_planned p st plan → intents_keyed p → running p st → verified p plan.
Proof. destruct 1; eauto with verified. Qed.

Lemma planned_is_verified p plan : intents_keyed p → planned p plan → verified p plan.
Proof.
  intros Hk. destruct 1; try match goal with X : running _ _ |- _ => pose proof (proj1 X); pose proof (proj2 X) end.
  - subst. by eapply genesis_verified.
  - by eapply restart_verified.
  - by eapply operator_resume_verified.
  - by eapply admission_verified.
  - eapply capacity_hold_verified; try done. by eapply admission_refused.
  - by eapply ingress_refusal_verified.
  - by eapply run_hold_verified.
  - by eapply claim_planned_verified.
Qed.

(** Initial intents stay under their own ids. *)
Lemma apply_claim_keyed c d : (∀ i claim, c_initial_intents c !! i = Some claim → ri_intent_id (ii_claim claim) = i) →
  ∀ i claim, c_initial_intents (apply_claim c d) !! i = Some claim → ri_intent_id (ii_claim claim) = i.
Proof.
  intros Hc i claim. destruct c, d; cbn; try apply Hc. intros H.
  apply lookup_insert_Some in H as [[<- <-]|[_ H]]; [done|by apply Hc].
Qed.
Lemma apply_delta_keyed p d : intents_keyed p → intents_keyed (apply_delta p d).
Proof. intros H i claim. cbn. by apply apply_claim_keyed. Qed.

Lemma live_keyed rs p : live rs p → intents_keyed p.
Proof. induction 1; [done|by apply apply_delta_keyed]. Qed.

(** ** Grouping *)

(** A commit as [group_commits] yields it. *)
Definition framed (g : list JournalRecord) : Prop :=
  ∃ r rest, g = r :: rest ∧ commit_size (position r) = Z.of_nat (length g) ∧
    check_framing g (commit_seq (position r)) (commit_size (position r)) 0 = Ret tt.

Section grouping.
Context {A : Type} (resume : A → list JournalRecord → outcome A).

Lemma group_fresh acc rs size seq : group_loop resume acc rs [] size seq = group_loop resume acc rs [] 0 0.
Proof. by destruct rs. Qed.

Lemma group_app acc acc' rs rest : ∀ current size seq, group_loop resume acc rs current size seq = Ret acc' →
  group_loop resume acc (rs ++ rest) current size seq = group_loop resume acc' rest [] 0 0.
Proof.
  revert acc. induction rs as [|r rs IH]; intros acc current size seq H.
  - cbn in H. destruct current; [|done]. injection H as <-. apply group_fresh.
  - cbn [app group_loop] in H |- *. inv_do. repeat match goal with X : replay_check _ _ = Ret ?u |- _ => rewrite X; clear X end.
    cbn [mbind outcome_bind]. destruct (_ =? _).
    + inv_do. match goal with X : resume _ _ = Ret _ |- _ => rewrite X end. cbn [mbind outcome_bind]. by apply IH.
    + by apply IH.
Qed.

(** A complete commit is handed over, whatever follows it. *)
Lemma group_rest acc rest g : ∀ current size seq, g ≠ [] → current ≠ [] →
  check_framing g seq size (Z.of_nat (length current)) = Ret tt → Z.of_nat (length (current ++ g)) = size →
  group_loop resume acc (g ++ rest) current size seq =
    (acc ← resume acc (current ++ g); group_loop resume acc rest [] 0 0).
Proof.
  induction g as [|r g IH]; intros current size seq Hg Hc Hf Hlen; [done|]. cbn [check_framing] in Hf. inv_do.
  destruct current as [|c current]; [done|]. clear Hg Hc. cbn [app group_loop].
  match goal with X : replay_check _ _ = Ret _ |- _ => unfold replay_check, check_that in X; destruct (_ && _) eqn:E in X; [|done]; clear X end.
  apply andb_true_iff in E as [[Eseq Esize]%andb_true_iff Eindex]. apply Z.eqb_eq in Eseq, Esize, Eindex.
  rewrite Eseq, Esize, Eindex, !Z.eqb_refl. cbn [orb andb]. rewrite !replay_check_true. cbn [mbind outcome_bind].
  destruct (decide (g = [])) as [->|Hg].
  - rewrite (proj2 (Z.eqb_eq _ _)) by done. done.
  - rewrite (proj2 (Z.eqb_neq _ _)); [|rewrite <-Hlen; destruct g; [done|]; cbn [length app]; rewrite !length_app; cbn [length]; lia].
    rewrite IH; [|done|by destruct current| |].
    + cbn [app]. by rewrite <-app_assoc.
    + match goal with X : check_framing _ _ _ _ = _ |- _ => rewrite <-X end. f_equal. cbn [length app]. rewrite length_app. cbn [length]. lia.
    + rewrite <-Hlen. cbn [app]. by rewrite <-app_assoc.
Qed.

Lemma group_framed acc rest g : framed g →
  group_loop resume acc (g ++ rest) [] 0 0 = (acc ← resume acc g; group_loop resume acc rest [] 0 0).
Proof.
  intros (r & g' & -> & Hsize & Hf). cbn [check_framing] in Hf. inv_do.
  match goal with X : replay_check _ _ = Ret _ |- _ => unfold replay_check, check_that in X; destruct (_ && _) eqn:E in X; [|done]; clear X end.
  apply andb_true_iff in E as [_ Eindex]. apply Z.eqb_eq in Eindex. cbn [app group_loop length orb].
  rewrite Eindex. cbn [Z.eqb]. rewrite !replay_check_true. cbn [mbind outcome_bind]. destruct (decide (g' = [])) as [->|Hg].
  - rewrite (proj2 (Z.eqb_eq _ _)) by done. done.
  - rewrite (proj2 (Z.eqb_neq _ _)); [|rewrite Hsize; destruct g'; [done|]; cbn; lia]. by rewrite group_rest.
Qed.

(** The loop over a list of commits, and over nothing else. *)
Lemma group_concat acc gs : Forall framed gs → group_loop resume acc (concat gs) [] 0 0 = fold_outcome resume acc gs.
Proof.
  intros H. revert acc. induction H as [|g gs Hg Hgs IH]; intros acc; [done|]. cbn [concat fold_outcome].
  rewrite group_framed by done. destruct (resume acc g); [apply IH|done].
Qed.

(** The commit being read. *)
Definition reading (current : list JournalRecord) (size seq : Z) : Prop :=
  match current with
  | [] => True
  | r :: _ => commit_seq (position r) = seq ∧ commit_size (position r) = size ∧ check_framing current seq size 0 = Ret tt
  end.

Lemma check_framing_snoc g r seq size i :
  check_framing g seq size i = Ret tt → commit_seq (position r) = seq → commit_size (position r) = size →
  commit_index (position r) = i + Z.of_nat (length g) → check_framing (g ++ [r]) seq size i = Ret tt.
Proof.
  revert i. induction g as [|x g IH]; intros i H <- <- Hi; cbn [app check_framing length] in *.
  - rewrite Hi, Z.add_0_r, !Z.eqb_refl. done.
  - inv_do. match goal with X : replay_check _ _ = Ret ?u |- _ => rewrite X end. cbn [mbind outcome_bind]. apply IH; try done. lia.
Qed.

Lemma group_inv acc acc' rs : ∀ current size seq, reading current size seq →
  group_loop resume acc rs current size seq = Ret acc' →
  ∃ gs, Forall framed gs ∧ concat gs = current ++ rs ∧ fold_outcome resume acc gs = Ret acc'.
Proof.
  revert acc. induction rs as [|r rs IH]; intros acc current size seq Hr H.
  - cbn in H. destruct current; [|done]. injection H as <-. by exists [].
  - cbn [group_loop] in H. inv_do.
    repeat match goal with X : replay_check _ _ = Ret _ |- _ => apply replay_check_ret in X end.
    set (size' := if match current with [] => true | _ => false end then _ else size) in *.
    set (seq' := if match current with [] => true | _ => false end then _ else seq) in *.
    assert (reading (current ++ [r]) size' seq' ∧ commit_size (position r) = size') as [Hr' Hsize].
    { subst size' seq'. destruct current as [|c current].
      - cbn [reading app check_framing]. match goal with X : (commit_index _ =? 0) = true |- _ => rewrite X end. by rewrite !Z.eqb_refl.
      - destruct Hr as (? & ? & ?). cbn [orb] in *. bool_simpl.
        repeat match goal with X : (_ =? _) = true |- _ => apply Z.eqb_eq in X end. cbn [app reading]. split_and!; try done.
        change (c :: current ++ [r]) with ((c :: current) ++ [r]). by apply check_framing_snoc. }
    destruct (_ =? _) eqn:E in H.
    + inv_do. apply Z.eqb_eq in E. apply (IH _ [] 0 0) in H as (gs & Hgs & Hc & Hf); [|done].
      exists ((current ++ [r]) :: gs). split_and!; [constructor; [|done]|cbn; rewrite Hc; by rewrite <-app_assoc|].
      * destruct (current ++ [r]) as [|x g] eqn:Ec; [by destruct current|]. destruct Hr' as (Hs & Hz & Hcf).
        exists x, g. by rewrite Hs, Hz, E.
      * cbn. match goal with X : resume _ _ = Ret _ |- _ => by rewrite X end.
    + apply IH in H as (gs & Hgs & Hc & Hf); [|done]. exists gs. split_and!; try done. by rewrite Hc, <-app_assoc.
Qed.

Lemma group_loop_spec acc acc' rs : group_loop resume acc rs [] 0 0 = Ret acc' ↔
  ∃ gs, Forall framed gs ∧ concat gs = rs ∧ fold_outcome resume acc gs = Ret acc'.
Proof. split; [by apply group_inv|]. intros (gs & Hgs & <- & Hf). by rewrite group_concat. Qed.
End grouping.

Lemma collect_groups acc gs : fold_outcome (λ groups (group : list JournalRecord), Ret (groups ++ [group])) acc gs = Ret (acc ++ gs).
Proof. revert acc. induction gs as [|g gs IH]; intros acc; cbn; [by rewrite app_nil_r|]. by rewrite IH, <-app_assoc. Qed.

Lemma group_commits_framed rs gs : group_commits rs = Ret gs ↔ Forall framed gs ∧ concat gs = rs.
Proof.
  unfold group_commits. rewrite group_loop_spec. split.
  - intros (gs' & Hf & Hc & H). rewrite collect_groups in H. by injection H as <-.
  - intros [Hf Hc]. exists gs. by rewrite collect_groups.
Qed.

(** [group_commits] is exact.  It yields the commits [gs] of a history just
    when the history is their concatenation and each of them is framed: it is
    not empty, its records carry its length as their size, one commit number
    and the indices from zero.  So the grouping of a history is unique, and a
    history that ends inside a commit has none. *)
Theorem group_commits_is_exact rs gs : group_commits rs = Ret gs ↔ Forall framed gs ∧ concat gs = rs.
Proof. apply group_commits_framed. Qed.

(** Replaying a history while it is read is the same as grouping it first
    and then verifying and applying each commit in order. *)
Theorem replay_folds_the_commits rs p :
  replay rs = Ret p ↔ ∃ gs, group_commits rs = Ret gs ∧ fold_outcome commit new_projection gs = Ret p.
Proof.
  unfold replay. rewrite group_loop_spec. split.
  - intros (gs & Hf & Hc & H). exists gs. by rewrite group_commits_framed.
  - intros (gs & [Hf Hc]%group_commits_framed & H). eauto.
Qed.

(** ** Live histories *)

(** [verify_commit] accepts only framed commits. *)
Lemma verified_framed p g d : verify_commit p g = Ret d → framed g.
Proof.
  unfold verify_commit. destruct g as [|r g]; [done|]. unfold check_commit. intros H. inv_do.
  repeat match goal with X : replay_check _ _ = Ret _ |- _ => apply replay_check_ret in X end.
  exists r, g. split_and!; [done| |].
  - match goal with X : (Z.of_nat (length _) =? _) = true |- _ => by apply Z.eqb_eq in X end.
  - match goal with X : check_framing _ _ _ _ = Ret ?u |- _ => by destruct u end.
Qed.

Lemma replay_commit rs p g p' : replay rs = Ret p → commit p g = Ret p' → replay (rs ++ g) = Ret p'.
Proof.
  intros Hr Hg. unfold replay. rewrite (group_app _ _ _ _ g _ _ _ Hr). rewrite <-(app_nil_r g).
  rewrite group_framed; [by rewrite Hg|]. unfold commit in Hg. inv_do. by eapply verified_framed.
Qed.

(** Replaying the records of a live history, each in either of its forms. *)
Lemma live_replays rs p : live rs p → ∀ rs', Forall2 form_of rs rs' → replay rs' = Ret p.
Proof.
  induction 1 as [|rs p plan d Hl IH Hp Hd]; intros rs' Hrs.
  - by apply Forall2_nil_inv_l in Hrs as ->.
  - apply Forall2_app_inv_l in Hrs as (rs1 & rs2 & H1 & H2 & ->).
    destruct (planned_is_verified p plan) as (d' & _ & Hv & _); [by eapply live_keyed|done|].
    eapply replay_commit; [by apply IH|]. unfold commit. rewrite Hv by done. cbn [mbind outcome_bind].
    assert (d' = d) as ->; [|done]. rewrite (Hv (pl_records plan)) in Hd; [by injection Hd|].
    clear. induction (pl_records plan); constructor; [by left|done].
Qed.

Lemma live_opens rs p : live rs p → Forall (λ r, open_record (body r) = Ret (read_back r)) rs.
Proof.
  induction 1 as [|rs p plan d Hl IH Hp Hd]; [constructor|]. apply Forall_app. split; [done|].
  destruct (planned_is_verified p plan) as (_ & _ & _ & H); [by eapply live_keyed|done|done].
Qed.

(** Opening every stored body in order, and replaying the records. *)
Definition reopen (bodies : list string) : outcome Projection := records ← collect open_record bodies; replay records.

Lemma read_back_forms rs : Forall2 form_of rs (map read_back rs).
Proof. induction rs; constructor; [by right|done]. Qed.
Lemma same_forms rs : Forall2 form_of rs rs.
Proof. induction rs; constructor; [by left|done]. Qed.

(** C17: A restart rebuilds exactly the state the journal had.  Take any history
    [rs] whose commits were all made by the plan functions of the journal
    (genesis, admissions, refusals, holds, resumes, restarts and every claim),
    and the projection [p] it ended in.  Opening the stored bodies one by one,
    grouping and verifying them, gives [p] again: every body opens, every
    commit a plan makes passes its verifier on replay, whatever the dict order
    in which the records are read back, and makes the same change. *)
Theorem restart_rebuilds_the_projection rs p : live rs p → reopen (map body rs) = Ret p.
Proof.
  intros Hl. unfold reopen, collect. rewrite map_map.
  rewrite (proj2 (seq_outcomes_spec (λ r, open_record (body r)) rs (map read_back rs))).
  - cbn [mbind outcome_bind]. apply (live_replays rs p Hl), read_back_forms.
  - pose proof (live_opens rs p Hl) as H. clear Hl. induction H; constructor; done.
Qed.

(** C18: What the journal plans, its verifier accepts.  After any live history
    every plan, of an admission, a hold, a refusal, a resume, a restart or a
    claim, passes [verify_commit] on the projection it was planned from, with
    the records as they were sealed and as they are read back, and the change
    charges the bytes the plan announced: the check before every write never
    refuses a commit of the journal's own. *)
Theorem planned_commits_are_verified rs p plan : live rs p → planned p plan → verified p plan.
Proof. intros Hl Hp. apply planned_is_verified; [by eapply live_keyed|done]. Qed.

(** *** A live history *)
Definition demo_step (s : list JournalRecord * Projection) (f : Projection → outcome (Plan + CapacityRefusal)) :
    option (list JournalRecord * Projection) :=
  match f s.2 with
  | Ret (inl plan) =>
      match verify_commit s.2 (pl_records plan) with
      | Ret d => Some (s.1 ++ pl_records plan, apply_delta s.2 d)
      | Raise _ => None
      end
  | _ => None
  end.

Lemma live_step s f s' : demo_step s f = Some s' → live s.1 s.2 → (∀ plan, f s.2 = Ret (inl plan) → planned s.2 plan) → live s'.1 s'.2.
Proof.
  unfold demo_step. intros H Hl Hp. destruct (f s.2) as [[plan|]|]; try done.
  destruct (verify_commit s.2 (pl_records plan)) as [d|] eqn:E; [|done]. injection H as <-. apply live_commit; auto.
Qed.

(** A boot with one admission, a restart that an operator resumes, and the
    intent to reserve the admitted run. *)
Definition demo_bounds : JournalBounds :=
  {| max_admissions := 3; max_pending_fingerprints := 4; ordinary_bytes := 20000; total_bytes := 40000 |}.
Definition stamp_at (boot : string) (mono : Z) : Stamp :=
  {| boot_id := boot; wall_time := "2024-01-01T00:00:00.000000Z"; mono_us := mono |}.
Definition uuid_of (c : string) : string := "0000000" +:+ c +:+ "-0000-4000-8000-000000000000".

Definition demo_genesis (_ : Projection) : outcome (Plan + CapacityRefusal) :=
  plan ← plan_genesis (uuid_of "1") demo_bounds "genesis-1" (stamp_at "boot-1" 5); Ret (inl plan).
Definition demo_admission (p : Projection) : outcome (Plan + CapacityRefusal) :=
  s ← source_from_json demo_source_value; plan_admission p s (uuid_of "2") "dedupe-1" (stamp_at "boot-1" 7).
Definition demo_restart (p : Projection) : outcome (Plan + CapacityRefusal) := plan_restart p "restart-1" (stamp_at "boot-2" 3) 0 None.
Definition demo_resume (p : Projection) : outcome (Plan + CapacityRefusal) :=
  plan_operator_resume p "resume-1" (stamp_at "boot-2" 4) "operator-1" "restart-inspected".
Definition demo_ids : IntentIds :=
  {| job := uuid_of "3"; admission := uuid_of "2"; intent := uuid_of "4"; attempt := uuid_of "5"; reservation := uuid_of "6";
     run := uuid_of "7"; lease := uuid_of "8" |}.
Definition demo_intent (p : Projection) : outcome (Plan + CapacityRefusal) :=
  plan_initial_reservation_intent p demo_ids (stamp_at "boot-2" 9).

Definition demo_state : Type := list JournalRecord * Projection.
Definition demo_1 : option demo_state := demo_step ([], new_projection) demo_genesis.
Definition demo_2 : option demo_state := s ← demo_1; demo_step s demo_admission.
Definition demo_3 : option demo_state := s ← demo_2; demo_step s demo_restart.
Definition demo_4 : option demo_state := s ← demo_3; demo_step s demo_resume.
Definition demo_5 : option demo_state := s ← demo_4; demo_step s demo_intent.

(** The conditions of the steps, as tests. *)
Definition running_b (p : Projection) (st : Stamp) : bool :=
  bool_decide (p_boot_id p = Some (boot_id st)) && (p_last_mono_us p <=? mono_us st).
Lemma running_spec p st : running_b p st = true → running p st.
Proof. unfold running_b, running. intros H. bool_simpl. by split. Qed.

Definition passes (o : option demo_state) (test : Projection → bool) : bool := match o with Some s => test s.2 | None => false end.
Lemma demo_tests : passes demo_1 (λ p, running_b p (stamp_at "boot-1" 7)) = true ∧
  passes demo_2 (λ p, negb (bool_decide ("boot-2" ∈ p_seen_boot_ids p))) = true ∧
  passes demo_3 (λ p, running_b p (stamp_at "boot-2" 4) && bool_decide (hd_commit_seq <$> p_head p = p_boot_start_commit_seq p)) = true ∧
  passes demo_4 (λ p, running_b p (stamp_at "boot-2" 9)) = true ∧ some_b demo_5 = true.
Proof. vm_compute. done. Qed.

Lemma demo_step_commit s f s' : demo_step s f = Some s' → ∃ g, s'.1 = s.1 ++ g ∧ commit s.2 g = Ret s'.2.
Proof.
  unfold demo_step, commit. intros H. destruct (f s.2) as [[plan|]|]; try done.
  destruct (verify_commit s.2 (pl_records plan)) as [d|] eqn:E; [|done]. injection H as <-. exists (pl_records plan). by rewrite E.
Qed.

#[local] Opaque seal verify_commit tagged_digest source_from_json demo_step.

Record demo_history (s3 s4 s5 : demo_state) : Prop := {
  dh_3 : demo_3 = Some s3;
  dh_4 : demo_4 = Some s4;
  dh_5 : demo_5 = Some s5;
  dh_live_4 : live s4.1 s4.2;
  dh_live_5 : live s5.1 s5.2;
  dh_commit_4 : ∃ g, s4.1 = s3.1 ++ g ∧ commit s3.2 g = Ret s4.2;
  dh_commit_5 : ∃ g, s5.1 = s4.1 ++ g ∧ commit s4.2 g = Ret s5.2;
  dh_running : running s4.2 (stamp_at "boot-2" 9);
}.

Lemma demo_lives : ∃ s3 s4 s5, demo_history s3 s4 s5.
Proof.
  pose proof demo_tests as (H1 & H2 & H3 & H4 & H5).
  destruct demo_5 as [s5|] eqn:E5; [|discriminate H5]. pose proof E5 as E5'. unfold demo_5 in E5'.
  destruct demo_4 as [s4|] eqn:E4; [|discriminate H4]. pose proof E4 as E4'. unfold demo_4 in E4'.
  destruct demo_3 as [s3|] eqn:E3; [|discriminate H3]. pose proof E3 as E3'. unfold demo_3 in E3'.
  destruct demo_2 as [s2|] eqn:E2; [|discriminate H2]. unfold demo_2 in E2.
  destruct demo_1 as [s1|] eqn:E1; [|discriminate H1]. unfold demo_1 in E1. cbn [passes mbind option_bind] in *.
  apply running_spec in H1, H4.
  assert (live s1.1 s1.2) as L1.
  { apply (live_step _ _ _ E1 live_new). intros plan Hp. unfold demo_genesis in Hp. inv_do. injection Hp as <-. by eapply planned_genesis. }
  assert (live s2.1 s2.2) as L2.
  { apply (live_step _ _ _ E2 L1). intros plan Hp. unfold demo_admission in Hp. inv_do. eapply planned_admission; [exact H1| |exact Hp].
    by eapply source_from_json_ok. }
  assert (live s3.1 s3.2) as L3.
  { apply (live_step _ _ _ E3' L2). intros plan Hp. eapply planned_restart; [|exact Hp].
    apply negb_true_iff in H2. exact (proj1 (bool_decide_eq_false _) H2). }
  assert (live s4.1 s4.2) as L4.
  { apply (live_step _ _ _ E4' L3). intros plan Hp. apply andb_true_iff in H3 as [H3 H3'].
    eapply planned_resume; [exact (running_spec _ _ H3)|exact (proj1 (bool_decide_eq_true _) H3')|exact Hp]. }
  exists s3, s4, s5. split; [exact E3|exact E4|exact E5|exact L4| |exact (demo_step_commit _ _ _ E4')|exact (demo_step_commit _ _ _ E5')|exact H4].
  apply (live_step _ _ _ E5' L4). intros plan Hp. eapply planned_claim; [exact H4|]. exact (planned_initial_intent _ _ _ _ Hp).
Qed.

Lemma restart_rebuilds_the_projection_witness : ∃ rs p, live rs p ∧ reopen (map body rs) = Ret p.
Proof.
  destruct demo_lives as (s3 & s4 & s5 & H). exists s5.1, s5.2. split; [exact (dh_live_5 _ _ _ H)|].
  exact (restart_rebuilds_the_projection s5.1 s5.2 (dh_live_5 _ _ _ H)).
Defined.

Lemma demo_plan : passes demo_4 (λ p, match demo_intent p with Ret (inl _) => true | _ => false end) = true.
Proof. vm_compute. reflexivity. Qed.

Lemma planned_commits_are_verified_witness : ∃ p plan, planned p plan ∧ verified p plan.
Proof.
  destruct demo_lives as (s3 & s4 & s5 & H). pose proof demo_plan as Hp. rewrite (dh_4 _ _ _ H) in Hp. cbn [passes] in Hp.
  destruct (demo_intent s4.2) as [[plan|]|] eqn:E; try discriminate Hp.
  assert (planned s4.2 plan) as Hplan by (eapply planned_claim; [exact (dh_running _ _ _ H)|exact (planned_initial_intent _ _ _ _ E)]).
  exists s4.2, plan. split; [exact Hplan|]. exact (planned_commits_are_verified s4.1 s4.2 plan (dh_live_4 _ _ _ H) Hplan).
Defined.

(** The same history, replayed. *)
Lemma demo_replayed : ∃ rs g p p', replay rs = Ret p ∧ replay (rs ++ g) = Ret p' ∧ demo_5 = Some (rs ++ g, p').
Proof.
  destruct demo_lives as (s3 & s4 & s5 & H). destruct (dh_commit_5 _ _ _ H) as (g & Hg & _). exists s4.1, g, s4.2, s5.2.
  split; [exact (live_replays _ _ (dh_live_4 _ _ _ H) _ (same_forms _))|].
  rewrite <-Hg. split; [exact (live_replays _ _ (dh_live_5 _ _ _ H) _ (same_forms _))|].
  rewrite (dh_5 _ _ _ H). by destruct s5.
Qed.

Lemma demo_resumed : ∃ p g p' since, commit p g = Ret p' ∧ p_dispatch_holds p !! "restart_recovery" = Some since.
Proof.
  destruct demo_lives as (s3 & s4 & s5 & H). destruct (dh_commit_4 _ _ _ H) as (g & _ & Hc).
  assert (passes demo_3 (λ p, some_b (p_dispatch_holds p !! "restart_recovery")) = true) as Hs by (vm_compute; reflexivity).
  rewrite (dh_3 _ _ _ H) in Hs. cbn [passes] in Hs. exists s3.2, g, s4.2.
  destruct (p_dispatch_holds s3.2 !! "restart_recovery") as [since|]; [|discriminate Hs]. exists since. split; [exact Hc|reflexivity].
Qed.
