(* ===== verification/JournalInv.v ===== *)
(** * What an accepted commit may change

    [verify_commit] is the only way into a projection.  Each verifier is
    inverted once: an accepted commit makes a change [allowed] in the projection
    before it, and its charge fits the journal's bounds. *)

From S2P Require Import Prelude PyValue PyJson Sha256 CanonJson PyBytes JsonParse JournalValue JournalSource JournalRecords.
From S2P Require Import JournalClaims JournalSeal JournalState JournalPlan JournalVerify JournalClaimPlan JournalEffects.
From S2P Require Import JournalClaimVerify JournalReplay JournalCopies.
Local Open Scope string_scope.
Local Open Scope Z_scope.
Local Open Scope list_scope.

#[local] Opaque sha256_hex.

(** ** Charges *)

(** The bytes of the commit fit the journal, or even its ordinary region. *)
Definition room (p : Projection) (charge : Z) : Prop :=
  ∃ b, p_bounds p = Some b ∧ (p_logical_bytes p + charge ≤ total_bytes b ∨ p_logical_bytes p + charge ≤ ordinary_bytes b).

Lemma fits_room p region charge u : fits p region charge = Ret u → region = total_bytes ∨ region = ordinary_bytes → room p charge.
Proof.
  unfold fits. intros H Hr. inv_do. apply mismatch_ret, Z.leb_le in H.
  match goal with X : the _ = Ret _ |- _ => apply the_ret in X end. exists a. split; [done|]. destruct Hr as [-> | ->]; auto.
Qed.

(** A plan of one record, whose charge fits. *)
Definition one_record (p : Projection) (plan : Plan) : Prop :=
  ∃ x, pl_records plan = [x] ∧ pl_charge plan = record_charge x ∧ room p (pl_charge plan).

Lemma within_one p region x out plan : within_region p region [x] out = Ret (inl plan) →
  region = total_bytes ∨ region = ordinary_bytes → one_record p plan.
Proof.
  intros (Hrs & Hc & H)%within_inl Hr. cbn in Hc. exists x. split_and!; [done|lia|]. by apply (fits_room _ _ _ _ H).
Qed.
Lemma seal_claim_one p t e ids data key tag cap region st out plan :
  seal_claim p t e ids data key tag cap region st out = Ret (inl plan) → region = total_bytes ∨ region = ordinary_bytes →
  one_record p plan.
Proof. unfold seal_claim. intros H. inv_do. by eapply within_one. Qed.
Lemma seal_execution_one p e t ids data key tag cap st plan :
  _seal_execution p e t ids data key tag cap st = Ret (inl plan) → one_record p plan.
Proof. unfold _seal_execution. intros H. inv_do. destruct a0; [|done]. inv_do. eapply within_one; [done|by left]. Qed.

(** The record is the first of the plan. *)
Definition planned_body (plan : Plan) (r : JournalRecord) : Prop := ∃ x xs, pl_records plan = x :: xs ∧ body x = body r.

Lemma exact_plan_inv res r plan : exact_plan res r = Ret plan → res = Ret (inl plan) ∧ planned_body plan r.
Proof.
  unfold exact_plan. intros H. inv_do. destruct a as [pl|]; [|done]. destruct (pl_records pl) as [|x xs] eqn:E; [done|]. inv_do.
  injection H as <-. match goal with X : mismatch _ = Ret _ |- _ => apply mismatch_ret in X; bool_simpl end. split; [done|]. by exists x, xs.
Qed.
Lemma exact_claim_inv res r plan : _verify_exact_claim_plan res r = Ret plan → res = Ret (inl plan) ∧ planned_body plan r.
Proof.
  unfold _verify_exact_claim_plan. intros H. inv_do. destruct (pl_records a) eqn:E; [done|]. inv_do. injection H as <-.
  by apply exact_plan_inv.
Qed.

(** ** The changes a commit may make *)
Definition no_holds (p : Projection) : Prop := p_dispatch_holds p = ∅ ∧ c_run_holds (p_claims p) = ∅.

Definition allowed (p : Projection) (d : change) : Prop :=
  let c := p_claims p in
  match d with
  | NoChange => True
  | DispatchHoldAdd code _ => p_dispatch_holds p !! code = None ∨ code = "restart_recovery"
  | RefusalKeyAdd key unreserved => key ∉ p_refusal_keys p ∧ p_refusal_count p + 1 ≤ MAX_REFUSAL_RECORDS ∧
      (unreserved = true → p_refusal_unreserved_count p + 1 ≤ MAX_REFUSAL_RECORDS - REFUSAL_RESOLVED_RESERVE)
  | DispatchHoldClear hold _ => hold = "restart_recovery" ∧ some_b (p_dispatch_holds p !! hold) = true ∧
      private_claims_outstanding p = false ∧ hd_commit_seq <$> p_head p = p_boot_start_commit_seq p
  | RunHoldAdd job _ => c_run_holds c !! job = None
  | ReservationIntentAdd x => c_intents c !! ri_intent_id x = None ∧ some_b (c_run_holds c !! ri_job_id x) = true ∧ c_initial_intents c = ∅
  | ReservationConfirmationAdd x => c_confirmations c !! rc_intent_id x = None ∧ some_b (c_intents c !! rc_intent_id x) = true
  | InitialReservationIntentAdd x => no_holds p ∧ c_initial_intents c = ∅
  | InitialReservationConfirmationAdd x =>
      c_initial_confirmations c !! rc_intent_id x = None ∧ some_b (c_initial_intents c !! rc_intent_id x) = true
  | RunIntentAdd x => no_holds p ∧ c_run_intent c = None ∧ some_b (c_initial_intents c !! rn_intent_id x) = true ∧
      some_b (c_initial_confirmations c !! rn_intent_id x) = true
  | LaunchClaimAdd _ => no_holds p ∧ c_launch_claim c = None ∧ some_b (c_run_intent c) = true
  | SpawnAttestationAdd _ => no_holds p ∧ c_spawn_attestation c = None ∧ c_process_observation c = None ∧
      some_b (c_launch_claim c) = true
  | ReleaseIntentAdd _ => no_holds p ∧ c_release_intent c = None ∧ c_process_observation c = None ∧
      c_supervision_action_intents c = ∅ ∧ some_b (c_spawn_attestation c) = true
  | ReleaseObservationAdd _ => c_release_observation c = None ∧ some_b (c_release_intent c) = true
  | EffectIntentAdd x => no_holds p ∧ c_effect_intents c !! ei_operation_id x = None ∧ c_process_observation c = None ∧
      c_supervision_action_intents c = ∅ ∧ some_b (c_release_observation c) = true ∧ Z.of_nat (size (c_effect_intents c)) < MAX_EFFECT_CLAIMS
  | EffectReceiptAdd x => c_effect_receipts c !! er_operation_id x = None ∧ some_b (c_effect_intents c !! er_operation_id x) = true
  | SupervisionActionIntentAdd x => c_supervision_action_intents c !! si_action_id x = None ∧ some_b (c_launch_claim c) = true
  | SupervisionActionResultAdd x => c_supervision_action_results c !! so_action_id x = None ∧
      some_b (c_supervision_action_intents c !! so_action_id x) = true
  | ProcessObservationAdd _ => c_process_observation c = None ∧ some_b (c_launch_claim c) = true
  | TerminalObservationAdd _ => c_terminal_observation c = None ∧ some_b (c_process_observation c) = true
  | ExecutionAssessmentAdd _ => c_execution_assessment c = None ∧ some_b (c_process_observation c) = true ∧
      some_b (c_terminal_observation c) = true
  | ReconciliationObservationAdd x => some_b (c_effect_intents c !! rb_operation_id x) = true ∧
      Z.of_nat (length (default [] (c_reconciliation_observations c !! rb_operation_id x))) < MAX_RECONCILIATION_PER_OPERATION
  | RestartReconciliationAdd x => some_b (c_effect_intents c !! rb_operation_id (rr_claim x)) = true ∧
      Z.of_nat (length (default [] (c_restart_reconciliations c !! rb_operation_id (rr_claim x)))) <
        MAX_RESTART_RECONCILIATION_PER_OPERATION
  end.

(** What the verifier of a single record returns. *)
Definition single_ok (p : Projection) (r : JournalRecord) (seq : Z) (d : Delta) : Prop :=
  ∃ chg, d = after p r seq (record_charge r) chg ∧ room p (record_charge r) ∧ allowed p chg.

Lemma single_by_plan p r seq plan chg : one_record p plan → planned_body plan r → allowed p chg →
  single_ok p r seq (after p r seq (pl_charge plan) chg).
Proof.
  intros (x & Hx & Hc & Hr) (y & ys & Hy & Hb) Ha. assert (pl_charge plan = record_charge r) as Heq.
  { rewrite Hx in Hy. injection Hy as -> _. rewrite Hc. unfold record_charge. by rewrite Hb. }
  exists chg. by rewrite <-Heq.
Qed.

Lemma filled_false {A} (m : gmap string A) : filled m = false → m = ∅.
Proof. unfold filled. intros H. bool_simpl. apply map_size_empty_iff. by apply Nat.eqb_eq. Qed.
Lemma some_b_false {A} (o : option A) : some_b o = false → o = None.
Proof. by destruct o. Qed.

(** The steps of an inversion: the plan function was applied and returned. *)
Ltac plan_inv H :=
  repeat (inv_do; match type of H with
  | match ?o with _ => _ end = Ret (inl _) => let E := fresh "E" in destruct o eqn:E; try discriminate H
  end); inv_do.

Ltac plan_room H :=
  lazymatch type of H with
  | within_region _ _ _ _ = _ => eapply within_one; [exact H|by auto]
  | seal_claim _ _ _ _ _ _ _ _ _ _ _ = _ => eapply seal_claim_one; [exact H|by auto]
  | _seal_execution _ _ _ _ _ _ _ _ _ = _ => eapply seal_execution_one; exact H
  end; clear H.
(** The change: each of its conditions is a guard of the plan. *)
Ltac allow := cbn; split_and?; first [assumption | reflexivity | by auto with arith].
(** After a plan was inverted: its guards as facts. *)
Ltac guards :=
  repeat match goal with
  | X : mismatch _ = Ret _ |- _ => apply mismatch_ret in X
  | X : the _ = Ret _ |- _ => apply the_ret in X
  end; bool_simpl;
  repeat match goal with
  | X : filled _ = false |- _ => apply filled_false in X
  | X : some_b _ = false |- _ => apply some_b_false in X
  end.

Lemma claim_pre_release p st launch : _claim_pre_release p st = Ret launch →
  c_launch_claim (p_claims p) = Some launch ∧ no_holds p.
Proof.
  unfold _claim_pre_release. intros H. destruct (c_launch_claim (p_claims p)) as [l|]; [|done].
  destruct (c_run_intent (p_claims p)); [|done]. inv_do. injection H as <-. guards. done.
Qed.

Lemma fresh_id p e : _claim_event_id_ok p e = true → e ∉ used_ids p.
Proof. unfold _claim_event_id_ok. intros H. bool_simpl. intros Hin. apply str_in_spec in Hin. congruence. Qed.
Lemma key_used {A} (m : gmap string A) k x : m !! k = Some x → k ∈ keys_of m.
Proof. intros H. unfold keys_of. apply list_elem_of_fmap. exists (k, x). split; [done|]. by apply elem_of_map_to_list. Qed.
Lemma fresh_effect p e : _claim_event_id_ok p e = true → c_effect_intents (p_claims p) !! e = None.
Proof.
  intros H%fresh_id. destruct (c_effect_intents (p_claims p) !! e) as [x|] eqn:E; [|done]. destruct H.
  apply key_used in E. unfold used_ids. set_solver.
Qed.
Lemma fresh_action p e : _claim_event_id_ok p e = true → c_supervision_action_intents (p_claims p) !! e = None.
Proof.
  intros H%fresh_id. destruct (c_supervision_action_intents (p_claims p) !! e) as [x|] eqn:E; [|done]. destruct H.
  apply key_used in E. unfold used_ids. set_solver.
Qed.

(** ** The verifiers of single records *)
Ltac verifier H :=
  inv_do; match goal with
  | X : _verify_exact_claim_plan _ _ = Ret _ |- _ => apply exact_claim_inv in X as [Hplan Hbody]
  | X : exact_plan _ _ = Ret _ |- _ => apply exact_plan_inv in X as [Hplan Hbody]
  end; injection H as <-.

Lemma run_hold_allowed p r seq d : _verify_run_hold p r seq = Ret d → single_ok p r seq d.
Proof.
  unfold _verify_run_hold. intros H. verifier H. unfold plan_run_hold in Hplan. plan_inv Hplan.
  apply single_by_plan; [plan_room Hplan|exact Hbody|]; clear Hplan. guards. allow.
Qed.
Lemma reservation_intent_allowed p r seq d : _verify_reservation_intent p r seq = Ret d → single_ok p r seq d.
Proof.
  unfold _verify_reservation_intent. intros H. verifier H. unfold plan_reservation_intent in Hplan. plan_inv Hplan.
  apply single_by_plan; [plan_room Hplan|exact Hbody|]; clear Hplan. guards. unfold allowed, reservation_claim; cbn [ri_intent_id ri_job_id]. cbn in E0. rewrite E0. allow.
Qed.
Lemma initial_reservation_intent_allowed p r seq d : _verify_initial_reservation_intent p r seq = Ret d → single_ok p r seq d.
Proof.
  unfold _verify_initial_reservation_intent. intros H. verifier H. unfold plan_initial_reservation_intent in Hplan. plan_inv Hplan.
  apply single_by_plan; [plan_room Hplan|exact Hbody|]; clear Hplan. guards. allow.
Qed.
Lemma reservation_confirmation_allowed p r seq d : _verify_reservation_confirmation p r seq = Ret d → single_ok p r seq d.
Proof.
  unfold _verify_reservation_confirmation. intros H. verifier H. clear H0. destruct (schema_version r =? 2).
  - unfold plan_reservation_confirmation in Hplan. plan_inv Hplan. apply single_by_plan; [plan_room Hplan|exact Hbody|]; clear Hplan. guards. cbn. rewrite E0. allow.
  - unfold plan_initial_reservation_confirmation in Hplan. plan_inv Hplan. apply single_by_plan; [plan_room Hplan|exact Hbody|]; clear Hplan. guards. cbn. rewrite E0. allow.
Qed.
Lemma run_intent_allowed p r seq d : _verify_run_intent p r seq = Ret d → single_ok p r seq d.
Proof.
  unfold _verify_run_intent. intros H. verifier H. unfold plan_run_intent in Hplan. plan_inv Hplan.
  apply single_by_plan; [plan_room Hplan|exact Hbody|]; clear Hplan. guards. cbn. rewrite E, E0. allow.
Qed.
Lemma launch_claim_allowed p r seq d : _verify_launch_claim p r seq = Ret d → single_ok p r seq d.
Proof.
  unfold _verify_launch_claim. intros H. verifier H. unfold plan_launch_claim in Hplan. plan_inv Hplan.
  apply single_by_plan; [plan_room Hplan|exact Hbody|]; clear Hplan. guards. cbn. rewrite E. allow.
Qed.
Lemma spawn_attestation_allowed p r seq d : _verify_spawn_attestation p r seq = Ret d → single_ok p r seq d.
Proof.
  unfold _verify_spawn_attestation. intros H. verifier H. unfold plan_spawn_attestation in Hplan. plan_inv Hplan.
  apply single_by_plan; [plan_room Hplan|exact Hbody|]; clear Hplan. guards. match goal with X : _claim_pre_release _ _ = _ |- _ => apply claim_pre_release in X as [Hl ?] end.
  cbn. rewrite Hl. allow.
Qed.
Lemma release_intent_allowed p r seq d : _verify_release_intent p r seq = Ret d → single_ok p r seq d.
Proof.
  unfold _verify_release_intent. intros H. verifier H. unfold plan_release_intent in Hplan. plan_inv Hplan.
  apply single_by_plan; [plan_room Hplan|exact Hbody|]; clear Hplan. guards. match goal with X : _claim_pre_release _ _ = _ |- _ => apply claim_pre_release in X as [Hl ?] end.
  cbn. rewrite E. allow.
Qed.
Lemma release_observation_allowed p r seq d : _verify_release_observation p r seq = Ret d → single_ok p r seq d.
Proof.
  unfold _verify_release_observation. intros H. verifier H. unfold plan_release_observation in Hplan. plan_inv Hplan.
  apply single_by_plan; [plan_room Hplan|exact Hbody|]; clear Hplan. guards. cbn. rewrite E0. allow.
Qed.
Lemma effect_intent_allowed p r seq d : _verify_effect_intent p r seq = Ret d → single_ok p r seq d.
Proof.
  unfold _verify_effect_intent. intros H. verifier H. unfold plan_effect_intent in Hplan. plan_inv Hplan.
  apply single_by_plan; [plan_room Hplan|exact Hbody|]; clear Hplan. guards. match goal with X : _claim_pre_release _ _ = _ |- _ => apply claim_pre_release in X as [Hl ?] end.
  cbn. rewrite E. split_and!; first [assumption | reflexivity | by apply fresh_effect].
Qed.
Lemma effect_receipt_allowed p r seq d : _verify_effect_receipt p r seq = Ret d → single_ok p r seq d.
Proof.
  unfold _verify_effect_receipt. intros H. verifier H. unfold plan_effect_receipt in Hplan. plan_inv Hplan.
  apply single_by_plan; [plan_room Hplan|exact Hbody|]; clear Hplan. guards. cbn. rewrite E. allow.
Qed.
Lemma action_intent_allowed p r seq d : _verify_supervision_action_intent p r seq = Ret d → single_ok p r seq d.
Proof.
  unfold _verify_supervision_action_intent. intros H. verifier H. unfold plan_supervision_action_intent in Hplan. plan_inv Hplan.
  apply single_by_plan; [plan_room Hplan|exact Hbody|]; clear Hplan. guards. cbn. rewrite E. split; [by apply fresh_action|reflexivity].
Qed.
Lemma action_result_allowed p r seq d : _verify_supervision_action_result p r seq = Ret d → single_ok p r seq d.
Proof.
  unfold _verify_supervision_action_result. intros H. verifier H. unfold plan_supervision_action_result in Hplan. plan_inv Hplan.
  apply single_by_plan; [plan_room Hplan|exact Hbody|]; clear Hplan. guards. cbn. rewrite E. allow.
Qed.

Lemma execution_base_launch p e st rule launch ids data : _execution_base p e st rule = Ret (launch, ids, data) →
  c_launch_claim (p_claims p) = Some launch.
Proof. unfold _execution_base. intros H. destruct (c_launch_claim (p_claims p)); [|done]. inv_do. by injection H as <-. Qed.

Lemma process_observation_allowed p r seq d : _verify_process_observation p r seq = Ret d → single_ok p r seq d.
Proof.
  unfold _verify_process_observation. intros H. verifier H. unfold plan_process_observation in Hplan. inv_do. destruct a1 as [[launch ids] data].
  plan_inv Hplan. apply single_by_plan; [plan_room Hplan|exact Hbody|]; clear Hplan. guards.
  match goal with X : _execution_base _ _ _ _ = _ |- _ => apply execution_base_launch in X as Hl end. cbn. rewrite Hl. allow.
Qed.
Lemma terminal_observation_allowed p r seq d : _verify_terminal_observation p r seq = Ret d → single_ok p r seq d.
Proof.
  unfold _verify_terminal_observation. intros H. verifier H. unfold plan_terminal_observation in Hplan. inv_do. destruct a1 as [[launch ids] data].
  plan_inv Hplan. apply single_by_plan; [plan_room Hplan|exact Hbody|]; clear Hplan. guards. cbn. rewrite E. allow.
Qed.
Lemma execution_assessment_allowed p r seq d : _verify_execution_assessment p r seq = Ret d → single_ok p r seq d.
Proof.
  unfold _verify_execution_assessment. intros H. verifier H. unfold plan_execution_assessment in Hplan. inv_do. destruct a1 as [[launch ids] data].
  plan_inv Hplan. apply single_by_plan; [plan_room Hplan|exact Hbody|]; clear Hplan. guards. cbn. rewrite E, E0. allow.
Qed.
Lemma reconciliation_allowed p r seq d : _verify_reconciliation_observation p r seq = Ret d → single_ok p r seq d.
Proof.
  unfold _verify_reconciliation_observation. intros H. verifier H. unfold plan_reconciliation_observation in Hplan. plan_inv Hplan.
  apply single_by_plan; [plan_room Hplan|exact Hbody|]; clear Hplan. guards. cbn. rewrite E. allow.
Qed.
Lemma restart_reconciliation_allowed p r seq d : _verify_restart_reconciliation_observation p r seq = Ret d → single_ok p r seq d.
Proof.
  unfold _verify_restart_reconciliation_observation. intros H. verifier H. unfold plan_restart_reconciliation_observation in Hplan.
  plan_inv Hplan. apply single_by_plan; [plan_room Hplan|exact Hbody|]; clear Hplan. guards. cbn. rewrite E. allow.
Qed.

(** ** Front-door records *)
Lemma capacity_hold_allowed p r seq d : _verify_capacity_hold p r seq = Ret d → single_ok p r seq d.
Proof.
  unfold _verify_capacity_hold. intros H. inv_do. injection H as <-. eexists. split; [reflexivity|]. guards.
  split; [eapply fits_room; [eassumption|by left]|]. left. assumption.
Qed.
Lemma ingress_refusal_allowed p r seq d : _verify_ingress_refusal p r seq = Ret d → single_ok p r seq d.
Proof.
  unfold _verify_ingress_refusal. intros H. inv_do. injection H as <-. eexists. split; [reflexivity|]. guards.
  split; [eapply fits_room; [eassumption|by right]|]. cbn. subst. split_and!; [assumption|assumption|].
  intros Hu. match goal with X : is_unreserved _ && _ = false |- _ => rewrite Hu in X; cbn [andb] in X end. bool_simpl. assumption.
Qed.
Lemma operator_action_allowed p r seq d : _verify_operator_action p r seq = Ret d → single_ok p r seq d.
Proof.
  unfold _verify_operator_action. intros H. inv_do. injection H as <-. eexists. split; [reflexivity|]. guards.
  split; [eapply fits_room; [eassumption|by left]|]. cbn. split_and!; try assumption.
  - match goal with X : str_in _ RESUMABLE_HOLDS = true |- _ => apply str_in_spec in X; by apply list_elem_of_singleton in X end.
  - match goal with X : p_head p = Some _ |- _ => by rewrite X end.
Qed.

(** *** Commits *)
Definition genesis_ok (p : Projection) (r : JournalRecord) (d : Delta) : Prop :=
  p_journal_uuid p = None ∧ p_head p = None ∧ _verify_genesis r = Ret d.

Lemma verifier_allowed t f p r seq d : dict_get verifiers t = Some f → f p r seq = Ret d → single_ok p r seq d.
Proof.
  intros Ht%dict_get_elem. unfold verifiers in Ht.
  repeat (apply elem_of_cons in Ht as [[= _ ->]|Ht]; [try solve
    [apply capacity_hold_allowed | apply ingress_refusal_allowed | apply operator_action_allowed | apply run_hold_allowed
    | apply reservation_confirmation_allowed | apply run_intent_allowed | apply launch_claim_allowed
    | apply spawn_attestation_allowed | apply release_intent_allowed | apply release_observation_allowed
    | apply effect_intent_allowed | apply effect_receipt_allowed | apply action_intent_allowed | apply action_result_allowed
    | apply process_observation_allowed | apply terminal_observation_allowed | apply execution_assessment_allowed
    | apply reconciliation_allowed | apply restart_reconciliation_allowed]|]).
  - destruct (schema_version r =? 3); [apply initial_reservation_intent_allowed|apply reservation_intent_allowed].
  - by apply elem_of_nil in Ht.
Qed.

(** What [verify_commit] checked of an accepted commit of records after genesis. *)
Inductive accepted (p : Projection) (g : list JournalRecord) (d : Delta) : Prop :=
| accepted_genesis r : g = [r] → genesis_ok p r d → accepted p g d
| accepted_restart r : g = [r] → event_type r = "restart_recovery" → boot_id (stamp r) ∉ p_seen_boot_ids p →
    _verify_restart p r (commit_seq (position r)) = Ret d → accepted p g d
| accepted_single r t f : g = [r] → event_type r = t → dict_get verifiers t = Some f →
    p_boot_id p = Some (boot_id (stamp r)) → p_last_mono_us p ≤ mono_us (stamp r) → f p r (commit_seq (position r)) = Ret d → accepted p g d
| accepted_pair a b : g = [a; b] → p_boot_id p = Some (boot_id (stamp a)) → p_last_mono_us p ≤ mono_us (stamp a) →
    _verify_admission_pair p a b (commit_seq (position a)) = Ret d → accepted p g d.

Lemma commit_shape_single g t : _commit_shape g = Ret (Single t) → ∃ r, g = [r] ∧ event_type r = t.
Proof.
  unfold _commit_shape. destruct g as [|r [|]]; cbn [map]; try by case_decide.
  destruct (str_in _ _); [|done]. intros [= <-]. by exists r.
Qed.

Lemma verify_commit_accepted p g d : verify_commit p g = Ret d → accepted p g d.
Proof.
  unfold verify_commit. destruct g as [|r g]; [done|]. intros H. inv_do. rename a into sh.
  assert (_commit_shape (r :: g) = Ret sh) as Hsh by (unfold check_commit in *; inv_do; done).
  case_decide as Hg.
  - subst. inv_do. match goal with X : replay_check _ _ = Ret _ |- _ => apply replay_check_ret in X end. bool_simpl.
    apply commit_shape_single in Hsh as (r' & [= -> ->] & _). eapply accepted_genesis; [done|]. split_and!; [by apply some_b_false|by apply some_b_false|done].
  - case_decide as Hr.
    + subst. inv_do. repeat match goal with X : replay_check _ _ = Ret _ |- _ => apply replay_check_ret in X end. bool_simpl.
      apply commit_shape_single in Hsh as (r' & [= -> ->] & Ht). by eapply accepted_restart.
    + inv_do. repeat match goal with X : replay_check _ _ = Ret _ |- _ => apply replay_check_ret in X end. bool_simpl.
      destruct sh as [t|].
      * inv_do. apply commit_shape_single in Hsh as (r' & [= -> ->] & Ht). unfold item in *.
        destruct (dict_get verifiers t) as [f|] eqn:Ef; [|done]. match goal with X : Ret f = Ret _ |- _ => injection X as <- end. apply (accepted_single _ _ _ r' t f); done.
      * destruct g as [|b [|]]; try done. by eapply accepted_pair.
Qed.
