(* ===== verification/JournalSafe.v ===== *)
(** * What holds of every replayed journal

    Histories are lists of records from anywhere, as long as they replay: the
    invariants below are kept by every commit [verify_commit] accepts. *)

From S2P Require Import Prelude PyValue PyJson Sha256 CanonJson PyBytes JsonParse JournalValue JournalSource JournalRecords.
From S2P Require Import JournalClaims JournalSeal JournalState JournalPlan JournalVerify JournalClaimPlan JournalEffects.
From S2P Require Import JournalClaimVerify JournalReplay JournalSourceThm JournalSealThm JournalCopies JournalReplayThm JournalInv.
Local Open Scope string_scope.
Local Open Scope Z_scope.
Local Open Scope list_scope.

#[local] Opaque sha256_hex.

(** ** Induction over histories *)
Lemma commit_accepted p g p' : commit p g = Ret p' → ∃ d, p' = apply_delta p d ∧ verify_commit p g = Ret d ∧ accepted p g d.
Proof.
  unfold commit. intros H. inv_do. injection H as <-. exists a. split_and!; try done. by apply verify_commit_accepted.
Qed.

Lemma replay_ind (P : list JournalRecord → Projection → Prop) : P [] new_projection →
  (∀ rs p g d, P rs p → verify_commit p g = Ret d → P (rs ++ g) (apply_delta p d)) → ∀ rs p, replay rs = Ret p → P rs p.
Proof.
  intros H0 Hstep rs p H. apply group_loop_spec in H as (gs & _ & <- & H).
  apply (fold_outcome_ind commit (λ gs p, P (concat gs) p) gs _ _ H); [done|].
  intros done' g rest a a' -> Ha (d & -> & Hd & _)%commit_accepted. rewrite concat_app. cbn. rewrite app_nil_r. by apply Hstep.
Qed.

(** A longer history goes on from where a shorter one ended. *)
Lemma replay_continues (R : Projection → Projection → Prop) :
  (∀ p, R p p) → (∀ p q r, R p q → R q r → R p r) → (∀ p g d, verify_commit p g = Ret d → R p (apply_delta p d)) →
  ∀ rs more p p', replay rs = Ret p → replay (rs ++ more) = Ret p' → R p p'.
Proof.
  intros Hrefl Htrans Hstep rs more p p' Hp Hp'. unfold replay in *. rewrite (group_app _ _ _ _ more _ _ _ Hp) in Hp'.
  apply group_loop_spec in Hp' as (gs & _ & _ & H). clear Hp. revert p H.
  induction gs as [|g gs IH]; intros p H; cbn in H; [injection H as <-; apply Hrefl|].
  destruct (commit p g) as [q|] eqn:E; [|done]. apply commit_accepted in E as (d & -> & Hd & _).
  eapply Htrans; [by eapply Hstep|by apply IH].
Qed.

Lemma accepted_allowed p g d : accepted p g d → allowed p (d_change d).
Proof.
  destruct 1 as [r -> (_ & _ & H)|r -> _ _ H|r t f -> _ Ht _ _ H|a b -> _ _ H].
  - unfold _verify_genesis in H. inv_do. by injection H as <-.
  - unfold _verify_restart in H. inv_do. injection H as <-. by right.
  - by destruct (verifier_allowed _ _ _ _ _ _ Ht H) as (chg & -> & _ & ?).
  - unfold _verify_admission_pair in H. inv_do. by injection H as <-.
Qed.
Lemma verify_allowed p g d : verify_commit p g = Ret d → allowed p (d_change d).
Proof. intros H. by apply (accepted_allowed p g), verify_commit_accepted. Qed.

(** ** Claims are never changed *)
Definition kept {A} (a b : option A) : Prop := ∀ x, a = Some x → b = Some x.

Lemma kept_refl {A} (a : option A) : kept a a.
Proof. by intros x. Qed.
Lemma kept_None {A} (a b : option A) : a = None → kept a b.
Proof. by intros -> x. Qed.

Record claims_kept (c c' : Claims) : Prop := {
  ck_run_holds : c_run_holds c ⊆ c_run_holds c';
  ck_intents : c_intents c ⊆ c_intents c';
  ck_confirmations : c_confirmations c ⊆ c_confirmations c';
  ck_initial_intents : c_initial_intents c ⊆ c_initial_intents c';
  ck_initial_confirmations : c_initial_confirmations c ⊆ c_initial_confirmations c';
  ck_run_intent : kept (c_run_intent c) (c_run_intent c');
  ck_launch_claim : kept (c_launch_claim c) (c_launch_claim c');
  ck_spawn_attestation : kept (c_spawn_attestation c) (c_spawn_attestation c');
  ck_release_intent : kept (c_release_intent c) (c_release_intent c');
  ck_release_observation : kept (c_release_observation c) (c_release_observation c');
  ck_effect_intents : c_effect_intents c ⊆ c_effect_intents c';
  ck_effect_receipts : c_effect_receipts c ⊆ c_effect_receipts c';
  ck_action_intents : c_supervision_action_intents c ⊆ c_supervision_action_intents c';
  ck_action_results : c_supervision_action_results c ⊆ c_supervision_action_results c';
  ck_process : kept (c_process_observation c) (c_process_observation c');
  ck_terminal : kept (c_terminal_observation c) (c_terminal_observation c');
  ck_assessment : kept (c_execution_assessment c) (c_execution_assessment c');
  ck_reconciliations : ∀ op l, c_reconciliation_observations c !! op = Some l →
    ∃ l', c_reconciliation_observations c' !! op = Some (l ++ l');
  ck_restarts : ∀ op l, c_restart_reconciliations c !! op = Some l → ∃ l', c_restart_reconciliations c' !! op = Some (l ++ l');
}.

Lemma logs_refl {A} (m : gmap string (list A)) op l : m !! op = Some l → ∃ l', m !! op = Some (l ++ l').
Proof. exists []. by rewrite app_nil_r. Qed.
Lemma logs_insert {A} (m : gmap string (list A)) op x k l : m !! k = Some l →
  ∃ l', <[op := default [] (m !! op) ++ [x]]> m !! k = Some (l ++ l').
Proof.
  intros H. destruct (decide (op = k)) as [->|Hn].
  - exists [x]. by rewrite lookup_insert, H, decide_True.
  - exists []. by rewrite lookup_insert_ne, app_nil_r.
Qed.

#[export] Instance claims_kept_refl : Reflexive claims_kept.
Proof. intros c. split; try reflexivity; try apply kept_refl; apply logs_refl. Qed.
#[export] Instance claims_kept_trans : Transitive claims_kept.
Proof.
  intros a b c H1 H2. split; try (etrans; [apply H1|apply H2]); try (intros x Hx; apply H2, H1, Hx).
  - intros op l (l1 & (l2 & H)%(ck_reconciliations _ _ H2))%(ck_reconciliations _ _ H1). exists (l1 ++ l2). by rewrite app_assoc.
  - intros op l (l1 & (l2 & H)%(ck_restarts _ _ H2))%(ck_restarts _ _ H1). exists (l1 ++ l2). by rewrite app_assoc.
Qed.

Lemma allowed_keeps p d : allowed p d → claims_kept (p_claims p) (apply_claim (p_claims p) d).
Proof.
  unfold allowed. intros H. destruct d; try reflexivity; cbn in H; destruct (p_claims p); cbn in *; split; cbn;
    first [reflexivity | apply kept_refl | apply logs_refl | apply logs_insert | apply kept_None; tauto
      | apply insert_subseteq; tauto | destruct H as [_ ->]; apply insert_subseteq; apply lookup_empty].
Qed.

(** C21: The journal's claims are written once.  Whatever records follow a
    history that replays, every hold, intent, confirmation, launch, attestation,
    release, effect, receipt, action, result, observation and assessment of the
    history is still there, unchanged, and the read-back observations of an
    operation are only added to: no later commit replaces or erases one. *)
Theorem claims_are_written_once rs more p p' : replay rs = Ret p → replay (rs ++ more) = Ret p' →
  claims_kept (p_claims p) (p_claims p').
Proof.
  apply (replay_continues (λ p p', claims_kept (p_claims p) (p_claims p'))).
  - intros q. reflexivity.
  - intros q1 q2 q3. apply claims_kept_trans.
  - intros q g d Hd. by apply (allowed_keeps q), (verify_allowed q g).
Qed.

Lemma claims_are_written_once_witness : ∃ rs more p p', replay rs = Ret p ∧ replay (rs ++ more) = Ret p' ∧
  claims_kept (p_claims p) (p_claims p').
Proof.
  destruct demo_replayed as (rs & g & p & p' & H & H' & _). exists rs, g, p, p'. split; [exact H|split; [exact H'|]].
  exact (claims_are_written_once rs g p p' H H').
Defined.

(** ** Holds *)
Lemma clear_is_operator t f p r seq d hold since : dict_get verifiers t = Some f → f p r seq = Ret d →
  d_change d = DispatchHoldClear hold since → t = "operator_action" ∧ _verify_operator_action p r seq = Ret d.
Proof.
  intros Ht%dict_get_elem Hf Hd. unfold verifiers in Ht.
  repeat (apply elem_of_cons in Ht as [[= -> ->]|Ht]; [try done; exfalso|]); [..|by apply elem_of_nil in Ht].
  all: try (destruct (schema_version r =? 3)).
  all: match type of Hf with ?g _ _ _ = _ => unfold g in Hf end; inv_do; injection Hf as <-; try done; cbn in Hd; by destruct (_ =? 2).
Qed.

(** What the operator's record must show to lift a hold. *)
Record resumed (p : Projection) (r : JournalRecord) (hold : string) (since : Z) : Prop := {
  rs_type : event_type r = "operator_action";
  rs_hold : hold = "restart_recovery" ∧ text_at r "hold" = hold;
  rs_claims : private_claims_outstanding p = false;
  rs_at_once : hd_commit_seq <$> p_head p = p_boot_start_commit_seq p;
  rs_since : int_at r "since_commit_seq" = since;
  rs_inspected : ∃ h, p_boot_recovered p = Some h ∧ same_head (get (data r) "inspected") h = true;
  rs_pending : pending_digest p = Ret (text_at r "pending_digest");
}.

Lemma operator_resumes p r seq d : _verify_operator_action p r seq = Ret d → event_type r = "operator_action" →
  ∃ hold since, d_change d = DispatchHoldClear hold seq ∧ p_dispatch_holds p !! hold = Some since ∧ resumed p r hold since.
Proof.
  unfold _verify_operator_action. intros H Ht. inv_do. injection H as <-. guards.
  match goal with X : str_in _ RESUMABLE_HOLDS = true |- _ => apply str_in_spec in X; apply list_elem_of_singleton in X end.
  eexists _, _. split; [reflexivity|]. split; [eassumption|]. split; try done.
  - match goal with X : p_head p = Some _ |- _ => by rewrite X end.
  - destruct (p_boot_recovered p); [by eexists|done].
  - match goal with X : pending_digest p = Ret _ |- _ => rewrite X end. f_equal. done.
Qed.

(** C24: A dispatch hold is lifted only by the operator, and only in time.
    When a commit is accepted, every dispatch hold of the journal stays, with
    the commit it was set at, unless the commit is one operator action that
    names this hold, it is the restart hold, no claim is outstanding, the
    record's predecessor is the restart itself, and the record repeats the
    commit the hold was set at, the head the restart recovered and the digest
    of the pending alerts.  A capacity hold is never lifted. *)
Theorem holds_are_lifted_only_by_the_operator p g p' hold since : commit p g = Ret p' → p_dispatch_holds p !! hold = Some since →
  p_dispatch_holds p' !! hold = Some since ∨ ∃ r, g = [r] ∧ resumed p r hold since.
Proof.
  intros (d & -> & _ & Ha)%commit_accepted Hs. cbn [p_dispatch_holds apply_delta]. unfold apply_holds.
  destruct (d_change d) as [|code seq| |lifted seq| | | | | | | | | | | | | | | | | | |] eqn:Ed; try (by left).
  - left. destruct (p_dispatch_holds p !! code) as [x|] eqn:E; cbn [some_b]; [done|]. rewrite lookup_insert_ne; [done|congruence].
  - destruct (decide (lifted = hold)) as [<-|Hn]; [|left; by rewrite lookup_delete_ne]. right.
    destruct Ha as [r -> (_ & _ & H)|r -> _ _ H|r t f -> Ht Hv _ _ H|a b -> _ _ H].
    + exfalso. unfold _verify_genesis in H. inv_do. by injection H as <-.
    + exfalso. unfold _verify_restart in H. inv_do. by injection H as <-.
    + destruct (clear_is_operator _ _ _ _ _ _ _ _ Hv H Ed) as [-> Hop].
      destruct (operator_resumes _ _ _ _ Hop Ht) as (hold' & since' & Hc & Hs' & Hr).
      rewrite Ed in Hc. injection Hc as <- _. exists r. split; [done|]. assert (since' = since) as <- by congruence. done.
    + exfalso. unfold _verify_admission_pair in H. inv_do. by injection H as <-.
Qed.

Lemma holds_are_lifted_only_by_the_operator_witness : ∃ p g p' since, p_dispatch_holds p !! "restart_recovery" = Some since ∧
  (p_dispatch_holds p' !! "restart_recovery" = Some since ∨ ∃ r, g = [r] ∧ resumed p r "restart_recovery" since).
Proof.
  destruct demo_resumed as (p & g & p' & since & H & Hs). exists p, g, p', since. split; [exact Hs|].
  exact (holds_are_lifted_only_by_the_operator p g p' "restart_recovery" since H Hs).
Defined.

(** ** The order of claims *)
Definition has {A} (m : gmap string A) (k : string) : Prop := is_Some (m !! k).

Record claims_ordered (c : Claims) : Prop := {
  co_confirmed : ∀ k, has (c_confirmations c) k → has (c_intents c) k;
  co_initial : (size (c_initial_intents c) ≤ 1)%nat;
  co_initial_confirmed : ∀ k, has (c_initial_confirmations c) k → has (c_initial_intents c) k;
  co_run : ∀ n, c_run_intent c = Some n → has (c_initial_confirmations c) (rn_intent_id n);
  co_launch : is_Some (c_launch_claim c) → is_Some (c_run_intent c);
  co_attested : is_Some (c_spawn_attestation c) → is_Some (c_launch_claim c);
  co_release : is_Some (c_release_intent c) → is_Some (c_spawn_attestation c);
  co_released : is_Some (c_release_observation c) → is_Some (c_release_intent c);
  co_effects : c_effect_intents c ≠ ∅ → is_Some (c_release_observation c);
  co_effects_bound : Z.of_nat (size (c_effect_intents c)) ≤ MAX_EFFECT_CLAIMS;
  co_receipts : ∀ k, has (c_effect_receipts c) k → has (c_effect_intents c) k;
  co_actions : c_supervision_action_intents c ≠ ∅ → is_Some (c_launch_claim c);
  co_results : ∀ k, has (c_supervision_action_results c) k → has (c_supervision_action_intents c) k;
  co_process : is_Some (c_process_observation c) → is_Some (c_launch_claim c);
  co_terminal : is_Some (c_terminal_observation c) → is_Some (c_process_observation c);
  co_assessed : is_Some (c_execution_assessment c) → is_Some (c_terminal_observation c);
  co_reconciled : ∀ k l, c_reconciliation_observations c !! k = Some l →
    has (c_effect_intents c) k ∧ Z.of_nat (length l) ≤ MAX_RECONCILIATION_PER_OPERATION;
  co_restarted : ∀ k l, c_restart_reconciliations c !! k = Some l →
    has (c_effect_intents c) k ∧ Z.of_nat (length l) ≤ MAX_RESTART_RECONCILIATION_PER_OPERATION;
}.

Lemma some_b_spec {A} (o : option A) : some_b o = true ↔ is_Some o.
Proof. by destruct o; split; try done; intros [? ?]. Qed.
Lemma has_insert {A} (m : gmap string A) k x j : has (<[k := x]> m) j ↔ j = k ∨ has m j.
Proof. unfold has. rewrite lookup_insert_is_Some'. naive_solver. Qed.
Lemma log_insert {A} (m : gmap string (list A)) op x k l (P : string → Prop) (max : Z) :
  (∀ k l, m !! k = Some l → P k ∧ Z.of_nat (length l) ≤ max) → P op → Z.of_nat (length (default [] (m !! op))) < max →
  <[op := default [] (m !! op) ++ [x]]> m !! k = Some l → P k ∧ Z.of_nat (length l) ≤ max.
Proof.
  intros Hm Hop Hlen [[<- <-]|[_ H]]%lookup_insert_Some; [|by apply Hm].
  split; [done|]. rewrite length_app. cbn [length]. lia.
Qed.

Lemma claims_ordered_new : claims_ordered no_claims.
Proof.
  split; cbn; try done; try (unfold has; intros k; rewrite lookup_empty); try (by intros [? ?]).
  rewrite map_size_empty. lia.
Qed.

Lemma allowed_ordered p d : allowed p d → claims_ordered (p_claims p) → claims_ordered (apply_claim (p_claims p) d).
Proof.
  intros H Ho. destruct d; try exact Ho; cbn in H; rewrite ?some_b_spec in H; destruct (p_claims p), Ho; cbn in *; split; cbn; try assumption.
  all: try solve [intros _; by eexists | tauto | intros k; rewrite !has_insert; unfold has; naive_solver
    | intros n Hn; rewrite has_insert; eauto | intros n [= <-]; unfold has; tauto | intros k l Hl; rewrite has_insert; naive_solver
    | intros k l; apply log_insert; tauto].
  - destruct H as [_ ->]. rewrite map_size_insert, lookup_empty. cbn. by rewrite map_size_empty.
  - rewrite map_size_insert_None by tauto. lia.
Qed.

(** C22: The claims of a journal are in order.  In every replayed journal:
    confirmations are of recorded intents and a run intent of a confirmed one,
    there is at most one initial intent, a launch follows a run intent, an
    attestation the launch, the release intent the attestation, the observed
    release its intent; effects, at most 64, exist only after the observed
    release; receipts and read-back observations are of recorded effects, at
    most four per operation and kind; supervision actions follow the launch,
    results their actions, and the process, terminal and assessment observations
    each other. *)
Theorem replayed_claims_are_ordered rs p : replay rs = Ret p → claims_ordered (p_claims p).
Proof.
  revert rs p. apply (replay_ind (λ _ p, claims_ordered (p_claims p))); [apply claims_ordered_new|].
  intros rs p g d Ho Hd. apply allowed_ordered; [by eapply verify_allowed|done].
Qed.

Lemma replayed_claims_are_ordered_witness : ∃ rs p, replay rs = Ret p ∧ claims_ordered (p_claims p).
Proof.
  destruct demo_replayed as (rs & g & p & p' & _ & H & _). exists (rs ++ g), p'. split; [exact H|].
  exact (replayed_claims_are_ordered (rs ++ g) p' H).
Defined.

(** ** Stops and holds *)

(** A new version 2 intent is for a job under a run hold. *)
Lemma intent_of_held_job p d id x : allowed p d → c_intents (apply_claim (p_claims p) d) !! id = Some x → c_intents (p_claims p) !! id = None →
  is_Some (c_run_holds (p_claims p) !! ri_job_id x) ∧ c_initial_intents (p_claims p) = ∅.
Proof.
  intros Hd Hx Hn. destruct d as [| | | | |y| | | | | | | | | | | | | | | | |]; cbn in Hd, Hx; destruct (p_claims p); cbn in *; try congruence.
  destruct (decide (ri_intent_id y = id)) as [<-|Hne].
  - rewrite lookup_insert_eq in Hx. injection Hx as <-. rewrite some_b_spec in Hd. tauto.
  - rewrite lookup_insert_ne in Hx by done. congruence.
Qed.

(** C23: What is granted or started by a commit that is accepted.  Once a process was
    observed or a supervision action was recorded, no commit adds an effect
    intent or a release intent.  While a dispatch hold or a run hold stands no
    commit adds an initial (version 3) intent to reserve, a run intent, a launch,
    an attestation, a release intent or an effect intent.  A version 2 intent to
    reserve, which a dispatch hold does not stop, is added only for a job that
    is under a run hold, and only where there is no initial intent.
    Confirmations, receipts, observations and supervision actions may still be
    recorded under a hold: they follow up on what was granted before. *)
Theorem stopped_or_held_runs_go_no_further p g p' : commit p g = Ret p' →
  (is_Some (c_process_observation (p_claims p)) ∨ c_supervision_action_intents (p_claims p) ≠ ∅ →
    c_effect_intents (p_claims p') = c_effect_intents (p_claims p) ∧ c_release_intent (p_claims p') = c_release_intent (p_claims p)) ∧
  (p_dispatch_holds p ≠ ∅ ∨ c_run_holds (p_claims p) ≠ ∅ →
    c_initial_intents (p_claims p') = c_initial_intents (p_claims p) ∧ c_run_intent (p_claims p') = c_run_intent (p_claims p) ∧
    c_launch_claim (p_claims p') = c_launch_claim (p_claims p) ∧
    c_spawn_attestation (p_claims p') = c_spawn_attestation (p_claims p) ∧
    c_release_intent (p_claims p') = c_release_intent (p_claims p) ∧ c_effect_intents (p_claims p') = c_effect_intents (p_claims p)) ∧
  (∀ id x, c_intents (p_claims p') !! id = Some x → c_intents (p_claims p) !! id = None →
    is_Some (c_run_holds (p_claims p) !! ri_job_id x) ∧ c_initial_intents (p_claims p) = ∅).
Proof.
  intros (d & -> & Hd & _)%commit_accepted. apply verify_allowed in Hd. split_and!.
  3: { intros id x. by apply intent_of_held_job. }
  all: unfold allowed, no_holds in Hd; cbn [p_claims apply_delta].
  all: destruct (d_change d); cbn in Hd; destruct (p_claims p); cbn in *; try done;
    destruct_and?; subst; intros Hs; split_and?; try done; exfalso; destruct Hs as [Hs|Hs]; try done; by destruct Hs.
Qed.

(** The journal of [demo_5] goes on: the reservation is confirmed, the run is
    intended and launched, and the grant of Jira is revoked; then another one is. *)
Definition at_boot (mono : Z) : Stamp := stamp_at "boot-2" mono.
Definition second_uuid (c : string) : string := "1000000" +:+ c +:+ "-0000-4000-8000-000000000000".
Definition demo_confirmed (p : Projection) : outcome (Plan + CapacityRefusal) :=
  plan_initial_reservation_confirmation p (uuid_of "4") (uuid_of "9")
    {| ledger_uuid := uuid_of "a"; ledger_generation := 1; ledger_event_id := uuid_of "b"; sequence := 1; event_digest := hex_of "c" |}
    (at_boot 10).
Definition demo_services : list ServiceRow :=
  map (λ x, {| sr_service := x.1; sr_lease_claim_id := x.2; sr_scope_digest := hex_of "d" |})
    [("anthropic", uuid_of "8"); ("grafana", second_uuid "1"); ("jira", second_uuid "2"); ("kubernetes", second_uuid "3")].
Definition demo_run (p : Projection) : outcome (Plan + CapacityRefusal) :=
  plan_run_intent p (uuid_of "4") (uuid_of "c") 1 (hex_of "c") demo_services (at_boot 11).
Definition demo_grants : list GrantRow :=
  map (λ s, {| gr_row := s; gr_grant_id := "grant-" +:+ sr_service s; gr_expiry_us := 100000000 |}) demo_services.
Definition demo_launch (p : Projection) : outcome (Plan + CapacityRefusal) :=
  plan_launch_claim p (uuid_of "d") "forwarder-1" (hex_of "e") demo_grants (at_boot 12).
Definition demo_revoke (event action service : string) (p : Projection) : outcome (Plan + CapacityRefusal) :=
  plan_supervision_action_intent p event action "revoke_grant" (Some service) (Some ("grant-" +:+ service)) (at_boot 13).

Definition demo_stopping : option demo_state :=
  s ← demo_5; s ← demo_step s demo_confirmed; s ← demo_step s demo_run; s ← demo_step s demo_launch;
  demo_step s (demo_revoke (uuid_of "e") (uuid_of "f") "jira").
Definition demo_stopped : option demo_state := s ← demo_stopping; demo_step s (demo_revoke (second_uuid "4") (second_uuid "5") "grafana").

Lemma demo_stops : ∃ p g p', commit p g = Ret p' ∧ c_supervision_action_intents (p_claims p) ≠ ∅.
Proof.
  assert (passes demo_stopping (λ p, filled (c_supervision_action_intents (p_claims p))) && some_b demo_stopped = true) as H by (vm_compute; reflexivity).
  apply andb_true_iff in H as [Hp Hs]. destruct demo_stopped as [s'|] eqn:E; [|discriminate Hs]. unfold demo_stopped in E.
  destruct demo_stopping as [s|]; [|discriminate E]. destruct (demo_step_commit _ _ _ E) as (g & _ & Hc).
  exists s.2, g, s'.2. split; [exact Hc|]. cbn [passes] in Hp. intros He. rewrite He in Hp. discriminate Hp.
Qed.

Lemma stopped_or_held_runs_go_no_further_witness : ∃ p g p' q h q',
  (commit p g = Ret p' ∧ c_supervision_action_intents (p_claims p) ≠ ∅ ∧
    c_effect_intents (p_claims p') = c_effect_intents (p_claims p) ∧ c_release_intent (p_claims p') = c_release_intent (p_claims p)) ∧
  (commit q h = Ret q' ∧ p_dispatch_holds q ≠ ∅ ∧ c_launch_claim (p_claims q') = c_launch_claim (p_claims q)).
Proof.
  destruct demo_stops as (p & g & p' & H & Ha), demo_resumed as (q & h & q' & since & Hq & Hs).
  assert (p_dispatch_holds q ≠ ∅) as Hh by (intros He; rewrite He, lookup_empty in Hs; discriminate Hs).
  exists p, g, p', q, h, q'. split; (split; [assumption|split; [assumption|]]).
  - exact (proj1 (stopped_or_held_runs_go_no_further p g p' H) (or_intror Ha)).
  - exact (proj1 (proj2 (proj2 (proj1 (proj2 (stopped_or_held_runs_go_no_further q h q' Hq)) (or_introl Hh))))).
Defined.
