(* ===== verification/JournalBounds.v ===== *)
(** * The bounds of a replayed journal

    Bytes, admissions, pending alerts and refusals of every history that
    replays, the chain of its records, and that the digest of its state can
    always be computed. *)

From S2P Require Import Prelude PyValue PyJson Sha256 CanonJson PyBytes JsonParse JsonRoundtrip JournalValue JournalSource JournalRecords.
From S2P Require Import JournalClaims JournalSeal JournalStored JournalState JournalPlan JournalVerify JournalClaimPlan JournalEffects.
From S2P Require Import JournalClaimVerify JournalReplay JournalSourceThm JournalSealThm JournalCopies JournalReplayThm JournalInv.
From S2P Require Import JournalSafe.
Local Open Scope string_scope.
Local Open Scope Z_scope.
Local Open Scope list_scope.

#[local] Opaque sha256_hex.

(** ** The pending alerts after an admission *)
Definition insert_all {A} (m : gmap string A) (us : list (string * A)) : gmap string A := foldl (λ m kv, <[kv.1 := kv.2]> m) m us.

(** The keys an insertion adds. *)
Definition new_keys {A} (m : gmap string A) (ks : list string) : nat := length (filter (λ k, m !! k = None) ks).

Lemma new_keys_cons {A} (m : gmap string A) k ks :
  new_keys m (k :: ks) = ((if m !! k then 0 else 1) + new_keys m ks)%nat.
Proof. unfold new_keys. rewrite filter_cons. destruct (m !! k); [by rewrite decide_False|by rewrite decide_True]. Qed.

Lemma new_keys_insert {A} (m : gmap string A) k x ks : k ∉ ks → new_keys (<[k:=x]> m) ks = new_keys m ks.
Proof.
  induction ks as [|j ks IH]; intros Hk; [done|]. apply not_elem_of_cons in Hk as [Hj Hk].
  by rewrite !new_keys_cons, IH, lookup_insert_ne by done.
Qed.

Lemma insert_all_size {A} (us : list (string * A)) m : NoDup us.*1 →
  size (insert_all m us) = (size m + new_keys m us.*1)%nat.
Proof.
  revert m. induction us as [|[k x] us IH]; intros m Hnd.
  - unfold new_keys. cbn. lia.
  - apply NoDup_cons in Hnd as [Hk Hnd]. change (insert_all m ((k, x) :: us)) with (insert_all (<[k:=x]> m) us).
    change (((k, x) :: us).*1) with (k :: us.*1).
    rewrite IH, new_keys_insert, new_keys_cons by done. destruct (m !! k) eqn:E.
    + rewrite map_size_insert_Some by eauto. done.
    + rewrite map_size_insert_None by done. lia.
Qed.

Lemma insert_all_known {A} (us : list (string * A)) m : Forall (λ k, is_Some (m !! k)) us.*1 → size (insert_all m us) = size m.
Proof.
  revert m. induction us as [|[k x] us IH]; intros m H; [done|]. cbn in H. apply Forall_cons in H as [Hk H].
  change (insert_all m ((k, x) :: us)) with (insert_all (<[k:=x]> m) us). rewrite IH.
  - by apply map_size_insert_Some.
  - eapply Forall_impl; [exact H|]. intros j Hj. apply lookup_insert_is_Some'. by right.
Qed.

Lemma updates_keys p s dec aid seq us : _pending_updates p s dec aid seq = Ret us →
  us.*1 = if suppressed dec then (superseded dec).*1 else map fingerprint (alerts s).
Proof.
  unfold _pending_updates, collect. rewrite seq_outcomes_spec. intros H.
  induction H as [|fp kv fps us Hkv Hus IH]; [done|]. cbn. rewrite IH. f_equal.
  destruct (alert_of s fp); [|done]. by injection Hkv as <-.
Qed.

Lemma pairs_count p s : (length (pending_pairs p (λ _, true) s) + new_keys (p_pending p) (map fingerprint (alerts s)) =
  length (alerts s))%nat.
Proof.
  unfold pending_pairs. rewrite (Permutation_length (sort_keys_perm _)).
  induction (alerts s) as [|a l IH]; [done|]. cbn [map omap list_omap length]. rewrite new_keys_cons.
  destruct (p_pending p !! fingerprint a); cbn [length]; lia.
Qed.

Lemma superseded_known p s keep : Forall (λ k, is_Some (p_pending p !! k)) (pending_pairs p keep s).*1.
Proof.
  unfold pending_pairs. rewrite sort_keys_perm. induction (alerts s) as [|a l IH]; [constructor|]. cbn.
  destruct (p_pending p !! fingerprint a) eqn:E; [|done]. destruct (keep _); [|done]. constructor; [eexists; exact E|done].
Qed.

(** The number of pending alerts is the one the decision announced. *)
Lemma pending_after p s aid dec seq us : NoDup (map fingerprint (alerts s)) → _decide p s aid = Ret dec →
  _pending_updates p s dec aid seq = Ret us →
  Z.of_nat (size (insert_all (p_pending p) us)) = _pending_count_after p dec ∧
  (suppressed dec = true → size (insert_all (p_pending p) us) = size (p_pending p)).
Proof.
  intros Hnd Hd Hus%updates_keys. unfold _pending_count_after, pending_len.
  assert (suppressed dec = true → Forall (λ k, is_Some (p_pending p !! k)) us.*1) as Hsup.
  { intros E. rewrite Hus, E. unfold _decide in Hd. inv_do.
    destruct (p_baselines p !! source_group s) as [b|]; [destruct (_ && _ && _)|]; injection Hd as <-; [by apply superseded_known|..];
      unfold suppressed in E; cbn in E; bool_simpl; by case_decide. }
  destruct (suppressed dec) eqn:E.
  - rewrite insert_all_known by auto. done.
  - split; [|done]. rewrite insert_all_size by by rewrite Hus. rewrite Hus. pose proof (pairs_count p s) as Hcount.
    unfold _decide in Hd. inv_do. destruct (p_baselines p !! source_group s) as [b|]; [destruct (_ && _ && _)|]; injection Hd as <-;
      [done|cbn [new_pending]; lia..].
Qed.

(** ** The invariant *)
Definition charge_of (rs : list JournalRecord) : Z := foldr (λ r acc, record_charge r + acc) 0 rs.
Lemma charge_app rs g : charge_of (rs ++ g) = charge_of rs + charge_of g.
Proof. induction rs as [|r rs IH]; cbn; [done|]. fold (charge_of (rs ++ g)). rewrite IH. fold (charge_of rs). lia. Qed.

Record bounds_valid (b : JournalBounds) : Prop := {
  bv_admissions : 1 ≤ max_admissions b ≤ 10000;
  bv_pending : 1 ≤ max_pending_fingerprints b ≤ 1024;
  bv_ordinary : 1 ≤ ordinary_bytes b ≤ 112 * 2 ^ 20;
  bv_total : ordinary_bytes b ≤ total_bytes b ≤ 128 * 2 ^ 20;
}.

Record in_bounds (rs : list JournalRecord) (p : Projection) (b : JournalBounds) : Prop := {
  ib_bounds : bounds_valid b;
  ib_bytes : p_logical_bytes p = charge_of rs;
  ib_fits : length rs = 1%nat ∨ p_logical_bytes p ≤ total_bytes b;
  ib_admissions : 0 ≤ p_admission_count p ≤ max_admissions b;
  ib_arrivals : p_last_arrival_seq p = p_admission_count p;
  ib_pending : Z.of_nat (size (p_pending p)) ≤ max_pending_fingerprints b;
  ib_refusals : p_refusal_count p = Z.of_nat (size (p_refusal_keys p)) ∧ p_refusal_count p ≤ MAX_REFUSAL_RECORDS;
  ib_unreserved : p_refusal_unreserved_count p ≤ MAX_REFUSAL_RECORDS - REFUSAL_RESOLVED_RESERVE;
}.

Definition journal_ok (rs : list JournalRecord) (p : Projection) : Prop :=
  (rs = [] ∧ p = new_projection) ∨ ∃ b, p_bounds p = Some b ∧ is_Some (p_head p) ∧ in_bounds rs p b.

Lemma genesis_in_bounds r d : _verify_genesis r = Ret d → journal_ok [r] (apply_delta new_projection d).
Proof.
  unfold _verify_genesis. intros H. inv_do. injection H as <-. right. eexists. split_and!; [reflexivity|by eexists|].
  unfold each in *. match goal with X : fold_outcome _ _ _ = Ret _ |- _ => cbn [fold_outcome V1_BOUND_CEILINGS fst snd] in X end.
  repeat match goal with X : match mismatch ?e with _ => _ end = Ret _ |- _ =>
    let E := fresh "E" in destruct (mismatch e) eqn:E; [apply mismatch_ret in E; bool_simpl|done] end.
  match goal with X : mismatch _ = Ret _ |- _ => apply mismatch_ret in X; bool_simpl end.
  split; cbn; try done; try lia; try (unfold REFUSAL_RESOLVED_RESERVE, MAX_REFUSAL_RECORDS; lia).
  all: try (split; cbn; lia). rewrite map_size_empty. lia.
Qed.

(** What a change does to the counted parts. *)
Lemma change_in_bounds rs p g d b charge : in_bounds rs p b → allowed p (d_change d) →
  d_logical_bytes d = p_logical_bytes p + charge → charge = charge_of g → p_logical_bytes p + charge ≤ total_bytes b →
  d_admission_count d ≤ max_admissions b → 0 ≤ d_admission_count d → d_last_arrival_seq d = d_admission_count d →
  Z.of_nat (size (insert_all (p_pending p) (d_pending_updates d))) ≤ max_pending_fingerprints b →
  in_bounds (rs ++ g) (apply_delta p d) b.
Proof.
  intros [Hb Hbytes Hfits Hadm Harr Hpend [Href Hmax] Hun] Ha Hd Hc Hroom Ha1 Ha2 Ha3 Hp. split; cbn.
  - done.
  - rewrite Hd, charge_app, Hbytes. lia.
  - right. lia.
  - lia.
  - lia.
  - exact Hp.
  - destruct (d_change d); try done. cbn in Ha. rewrite size_union, size_singleton by set_solver. lia.
  - destruct (d_change d) as [| |key unreserved| | | | | | | | | | | | | | | | | | | |]; try done. cbn in Ha. destruct unreserved; [|done].
    destruct Ha as (_ & _ & Ha). by apply Ha.
Qed.

Lemma room_total p charge b : room p charge → p_bounds p = Some b → bounds_valid b → p_logical_bytes p + charge ≤ total_bytes b.
Proof. intros (b' & Hb' & Hr) Hb Hv. assert (b' = b) as -> by congruence. destruct Hv. lia. Qed.

Lemma restart_in_bounds rs p r seq d : _verify_restart p r seq = Ret d → journal_ok rs p → journal_ok (rs ++ [r]) (apply_delta p d).
Proof.
  unfold _verify_restart. intros H Hok. inv_do. injection H as <-. guards. destruct Hok as [[-> ->]|(b & Hb & Hh & Hin)]; [done|].
  right. exists b. split_and!; [done|by eexists|]. pose proof (ib_bounds _ _ _ Hin).
  apply (change_in_bounds rs p [r] _ b (record_charge r)); cbn; try done; try apply Hin.
  - by right.
  - lia.
  - eapply room_total; [eapply fits_room; [eassumption|by left]|done|done].
Qed.

Lemma single_in_bounds rs p r seq d : single_ok p r seq d → journal_ok rs p → journal_ok (rs ++ [r]) (apply_delta p d).
Proof.
  intros (chg & -> & Hroom & Ha) Hok. destruct Hok as [[-> ->]|(b & Hb & Hh & Hin)]; [by destruct Hroom as (? & ? & _)|].
  right. exists b. split_and!; [done|by eexists|]. pose proof (ib_bounds _ _ _ Hin).
  apply (change_in_bounds rs p [r] _ b (record_charge r)); cbn; try done; try apply Hin.
  - lia.
  - by eapply room_total.
Qed.

Lemma pair_in_bounds rs p x y seq d : _verify_admission_pair p x y seq = Ret d → journal_ok rs p →
  journal_ok (rs ++ [x; y]) (apply_delta p d).
Proof.
  unfold _verify_admission_pair. intros H Hok. inv_do. injection H as <-.
  match goal with X : source_from_json _ = Ret ?s |- _ => apply source_from_json_ok in X; set (src := s) in * end.
  match goal with X : _decide p _ _ = Ret ?d', Y : _pending_updates _ _ _ _ _ = Ret _ |- _ =>
    destruct (pending_after p src _ d' _ _ (str_lt_NoDup _ (source_fingerprints _ ltac:(eassumption))) X Y) as [Hafter Hsame] end.
  guards. destruct Hok as [[-> ->]|(b & Hb & Hh & Hin)]; [done|].
  right. exists b. split_and!; [done|by eexists|]. pose proof (ib_bounds _ _ _ Hin).
  match goal with X : p_bounds p = Some ?b' |- _ => assert (b' = b) as -> by congruence end.
  apply (change_in_bounds rs p [x; y] _ b (record_charge x + record_charge y)); cbn -[insert_all]; try done.
  - lia.
  - eapply room_total; [eapply fits_room; [eassumption|by right]|done|done].
  - pose proof (ib_admissions _ _ _ Hin). lia.
  - rewrite (ib_arrivals _ _ _ Hin). lia.
  - match goal with X : negb (suppressed ?d') && _ = false |- _ => destruct (suppressed d') eqn:E; cbn [negb andb] in X end.
    + rewrite Hsame by done. apply Hin.
    + rewrite Hafter. unfold _pending_count_after. rewrite E. bool_simpl. done.
Qed.

Lemma step_journal_ok rs p g d : journal_ok rs p → accepted p g d → journal_ok (rs ++ g) (apply_delta p d).
Proof.
  intros Hok. destruct 1 as [r -> (Hu & Hh & H)|r -> _ _ H|r t f -> _ Ht _ _ H|x y -> _ _ H].
  - destruct Hok as [[-> ->]|(b & _ & [h Hh'] & _)]; [by apply genesis_in_bounds|congruence].
  - by eapply restart_in_bounds.
  - eapply single_in_bounds; [by eapply verifier_allowed|done].
  - by eapply pair_in_bounds.
Qed.

(** ** The announced count *)

(** The number of pending alerts that the last dedupe decision of a history
    announced. *)
Definition announced (rs : list JournalRecord) : Z :=
  foldl (λ n r, if bool_decide (event_type r = "dedupe_decision") then int_at r "pending_count_after" else n) 0 rs.
Lemma announced_app rs g : announced (rs ++ g) =
  foldl (λ n r, if bool_decide (event_type r = "dedupe_decision") then int_at r "pending_count_after" else n) (announced rs) g.
Proof. apply foldl_app. Qed.

(** Only the second record of an admission pair is a dedupe decision. *)
Lemma commit_types p g d : verify_commit p g = Ret d →
  (∃ r, g = [r] ∧ event_type r ≠ "dedupe_decision") ∨
  ∃ x y, g = [x; y] ∧ event_type x ≠ "dedupe_decision" ∧ event_type y = "dedupe_decision".
Proof.
  unfold verify_commit, check_commit. destruct g as [|r g]; [done|]. intros H. inv_do. clear H.
  match goal with X : _commit_shape _ = Ret _ |- _ => unfold _commit_shape in X; rename X into Hsh end.
  destruct g as [|y [|]]; cbn [map] in Hsh.
  - left. exists r. split; [done|]. destruct (str_in _ _) eqn:E; [|done]. intros Ht. rewrite Ht in E. discriminate E.
  - right. exists r, y. case_decide as E; [|done]. injection E as -> ->. done.
  - case_decide as E; [discriminate E|done].
Qed.

Lemma pair_announces p x y seq d : _verify_admission_pair p x y seq = Ret d →
  Z.of_nat (size (p_pending (apply_delta p d))) = int_at y "pending_count_after".
Proof.
  unfold _verify_admission_pair. intros H. inv_do. injection H as <-.
  match goal with X : source_from_json _ = Ret ?s |- _ => apply source_from_json_ok in X; set (src := s) in * end.
  match goal with X : _decide p _ _ = Ret ?d', Y : _pending_updates _ _ _ _ _ = Ret _ |- _ =>
    destruct (pending_after p src _ d' _ _ (str_lt_NoDup _ (source_fingerprints _ ltac:(eassumption))) X Y) as [Hafter _] end.
  guards. cbn [p_pending apply_delta d_pending_updates]. unfold insert_all in Hafter. rewrite Hafter. done.
Qed.

Lemma pending_is_announced rs p : replay rs = Ret p → Z.of_nat (size (p_pending p)) = announced rs.
Proof.
  revert rs p. apply replay_ind; [done|]. intros rs p g d IH Hd. rewrite announced_app.
  destruct (commit_types _ _ _ Hd) as [(r & -> & Hr)|(x & y & -> & Hx & Hy)].
  - cbn [foldl]. rewrite bool_decide_false by done. rewrite <-IH. f_equal. f_equal. apply verify_commit_accepted in Hd.
    destruct Hd as [r' _ (_ & _ & H)|r' _ _ _ H|r' t f _ _ Ht _ _ H|x y [=] _ _ H].
    + unfold _verify_genesis in H. inv_do. by injection H as <-.
    + unfold _verify_restart in H. inv_do. by injection H as <-.
    + by destruct (verifier_allowed _ _ _ _ _ _ Ht H) as (chg & -> & _).
  - cbn [foldl]. rewrite (bool_decide_true (event_type y = _)) by done. apply verify_commit_accepted in Hd.
    destruct Hd as [r' [=] _|r' [=] _ _ _|r' t f [=] _ _ _ _ _|a b [= <- <-] _ _ H]. by eapply pair_announces.
Qed.

(** C25: A replayed journal keeps its bounds.  In every history that replays to
    a projection with bounds, the bounds are within the fixed ceilings; the
    byte count is the sum over all records of body length and overhead and is
    at most [total_bytes], except that genesis itself is not measured against
    it; admissions are numbered without gaps and at most [max_admissions]; at
    most [max_pending_fingerprints] alerts are pending, and exactly as many as
    the last admission record announced; refusals are counted once per key, at
    most 256, and at most 192 of them unreserved. *)
Theorem replayed_journal_is_in_bounds rs p b : replay rs = Ret p → p_bounds p = Some b →
  in_bounds rs p b ∧ Z.of_nat (size (p_pending p)) = announced rs.
Proof.
  intros Hr Hb. split; [|by apply pending_is_announced]. assert (journal_ok rs p) as [[-> ->]|(b' & Hb' & _ & Hin)].
  - revert rs p Hr Hb. intros rs p Hr _. revert rs p Hr. apply replay_ind; [by left|].
    intros rs p g d Hok Hd%verify_commit_accepted. by apply step_journal_ok.
  - done.
  - congruence.
Qed.

Lemma replayed_journal_is_in_bounds_witness : ∃ rs p b, replay rs = Ret p ∧ p_pending p ≠ ∅ ∧ in_bounds rs p b ∧
  Z.of_nat (size (p_pending p)) = announced rs.
Proof.
  destruct demo_replayed as (rs & g & p & p' & _ & H & Hd).
  assert (passes demo_5 (λ p, some_b (p_bounds p) && negb (Nat.eqb (size (p_pending p)) 0)) = true) as Hb by (vm_compute; reflexivity).
  rewrite Hd in Hb. cbn [passes snd] in Hb. apply andb_true_iff in Hb as [Hb Hp]. destruct (p_bounds p') as [b|] eqn:E; [|discriminate Hb].
  exists (rs ++ g), p', b. split; [exact H|]. split; [intros Hn; by rewrite Hn, map_size_empty in Hp|].
  exact (replayed_journal_is_in_bounds (rs ++ g) p' b H E).
Defined.

(** ** The chain *)

(** The digest a record must name: that of the record before it. *)
Definition predecessor (rs : list JournalRecord) (first : string) (i : nat) : string :=
  match i with O => first | S j => default first (record_digest <$> rs !! j) end.

Definition chained (rs : list JournalRecord) (seq : Z) (first : string) : Prop :=
  ∀ i r, rs !! i = Some r → event_seq (position r) = seq + Z.of_nat i ∧ prev_record_digest (position r) = predecessor rs first i.

Lemma check_chain_chained rs seq first u : check_chain rs seq first = Ret u → chained rs seq first.
Proof.
  revert seq first. induction rs as [|r rs IH]; intros seq first H i x Hi; [done|]. cbn [check_chain] in H. inv_do.
  match goal with X : replay_check _ _ = Ret _ |- _ => apply replay_check_ret in X; bool_simpl end.
  destruct i as [|i]; cbn in Hi.
  - injection Hi as <-. cbn. split; [lia|done].
  - destruct (IH _ _ H i x Hi) as [Hs Hp]. split; [lia|]. rewrite Hp. destruct i as [|j]; [done|]. cbn.
    destruct (rs !! j) eqn:E; [done|]. apply lookup_ge_None in E. apply lookup_lt_Some in Hi. lia.
Qed.

(** The head a history ends in. *)
Definition head_of (r : JournalRecord) : Head :=
  {| hd_generation := journal_generation (position r); hd_commit_seq := commit_seq (position r);
     hd_event_seq := event_seq (position r); hd_record_digest := record_digest r |}.

Lemma chained_app rs g seq first r : chained rs seq first → last rs = Some r →
  chained g (seq + Z.of_nat (length rs)) (record_digest r) → chained (rs ++ g) seq first.
Proof.
  intros H1 Hr H2 i x Hi. rewrite last_lookup in Hr. apply lookup_app_Some in Hi as [Hi|[Hle Hi]].
  - destruct (H1 i x Hi) as [Hs Hp]. split; [done|]. rewrite Hp. destruct i as [|i]; [done|]. cbn.
    rewrite lookup_app_l; [done|]. apply lookup_lt_Some in Hi. lia.
  - destruct (H2 _ x Hi) as [Hs Hp]. split; [lia|]. rewrite Hp. destruct rs as [|r0 rs]; [done|]. cbn [length] in *.
    destruct i as [|i]; [lia|]. cbn [predecessor]. destruct (S i - S (length rs))%nat as [|j] eqn:E; cbn [predecessor].
    + assert (i = length rs) as -> by lia. rewrite lookup_app_l by (cbn; lia). cbn in Hr. by rewrite Hr.
    + rewrite lookup_app_r by (cbn; lia). cbn [length]. assert (i - S (length rs) = j)%nat as -> by lia.
      destruct (g !! j) eqn:Ej; [done|]. apply lookup_ge_None in Ej. apply lookup_lt_Some in Hi. lia.
Qed.

Lemma framing_seq g seq size i r : check_framing g seq size i = Ret tt → r ∈ g → commit_seq (position r) = seq.
Proof.
  revert i. induction g as [|x g IH]; intros i H Hin; [by apply elem_of_nil in Hin|]. cbn [check_framing] in H. inv_do.
  match goal with X : replay_check _ _ = Ret _ |- _ => apply replay_check_ret in X; bool_simpl end.
  apply elem_of_cons in Hin as [->|Hin]; [done|by eapply IH].
Qed.

(** What [check_commit] checked of every accepted commit. *)
Lemma commit_checked p g d : verify_commit p g = Ret d → ∃ r g', g = r :: g' ∧
  (∀ x, x ∈ g → commit_seq (position x) = commit_seq (position r) ∧
     journal_generation (position x) = if p_generation p =? 0 then 1 else p_generation p) ∧
  chained g (match p_head p with None => 1 | Some h => hd_event_seq h + 1 end)
    (match p_head p with None => ZERO_DIGEST | Some h => hd_record_digest h end).
Proof.
  unfold verify_commit. destruct g as [|r g]; [done|]. unfold check_commit. intros H. inv_do. exists r, g. split_and!; [done| |].
  - intros x Hx. split.
    + match goal with X : check_framing _ _ _ _ = Ret ?u |- _ => destruct u; by eapply framing_seq end.
    + match goal with X : replay_check (forallb _ _) _ = Ret _ |- _ => apply replay_check_ret in X; rewrite forallb_forall in X;
        apply Z.eqb_eq, X, list_elem_of_In, Hx end.
  - by eapply check_chain_chained.
Qed.

(** The projection after a history: its head is the last record. *)
Definition chain_ok (rs : list JournalRecord) (p : Projection) : Prop :=
  (rs = [] ∧ p = new_projection) ∨
  ∃ r, last rs = Some r ∧ p_head p = Some (head_of r) ∧ p_generation p = 1 ∧ chained rs 1 ZERO_DIGEST ∧
    event_seq (position r) = Z.of_nat (length rs).

Lemma accepted_head p g d r : accepted p g d → p_generation p = 1 ∨ p = new_projection → last g = Some r →
  (∀ x y, x ∈ g → y ∈ g → commit_seq (position x) = commit_seq (position y)) →
  (∀ x, x ∈ g → journal_generation (position x) = 1) → d_head d = head_of r ∧ d_generation d = 1.
Proof.
  intros Ha Hp Hr Hseq Hgen. destruct Ha as [x -> (_ & _ & H)|x -> _ _ H|x t f -> _ Ht _ _ H|x y -> _ _ H].
  - injection Hr as <-. unfold _verify_genesis in H. inv_do. injection H as <-. cbn. unfold head_of. by rewrite (Hgen x) by by left.
  - injection Hr as <-. unfold _verify_restart in H. inv_do. injection H as <-. destruct Hp as [Hp| ->]; [|done].
    cbn. unfold head_after, head_of. by rewrite (Hgen x), Hp by by left.
  - injection Hr as <-. destruct (verifier_allowed _ _ _ _ _ _ Ht H) as (chg & -> & (b & Hb & _) & _).
    destruct Hp as [Hp| ->]; [|done]. cbn. unfold head_after, head_of. by rewrite (Hgen x), Hp by by left.
  - injection Hr as <-. unfold _verify_admission_pair in H. inv_do. injection H as <-. destruct Hp as [Hp| ->]; [|done].
    assert (x ∈ [x; y] ∧ y ∈ [x; y]) as [Hx Hy] by (split; [by left|by right; left]).
    cbn. unfold head_after, head_of. by rewrite (Hgen y Hy), Hp, (Hseq x y Hx Hy).
Qed.

Lemma chain_step rs p g d : chain_ok rs p → verify_commit p g = Ret d → chain_ok (rs ++ g) (apply_delta p d).
Proof.
  intros Hok Hd. destruct (commit_checked _ _ _ Hd) as (r0 & g' & Hg & Hall & Hch). pose proof (verify_commit_accepted _ _ _ Hd) as Ha.
  destruct (last g) as [r|] eqn:Hr; [|apply last_None in Hr; congruence].
  assert (p_generation p = 1 ∨ p = new_projection) as Hp.
  { destruct Hok as [[_ ->]|(? & _ & _ & ? & _)]; auto. }
  destruct (accepted_head p g d r Ha Hp Hr) as [Hh Hgen].
  { intros x y Hx Hy. by rewrite (proj1 (Hall x Hx)), (proj1 (Hall y Hy)). }
  { intros x Hx. rewrite (proj2 (Hall x Hx)). by destruct Hp as [->| ->]. }
  right. exists r. assert (last (rs ++ g) = Some r) as Hlast by by rewrite last_app, Hr.
  assert (chained (rs ++ g) 1 ZERO_DIGEST) as Hc.
  { destruct Hok as [[-> ->]|(x & Hx & Hhx & _ & Hcx & Hlen)]; [exact Hch|]. rewrite Hhx in Hch. cbn in Hch.
    eapply chained_app; [exact Hcx|exact Hx|]. by rewrite Hlen, Z.add_comm in Hch. }
  split_and!; try done; [cbn; by rewrite Hh|]. rewrite last_lookup in Hlast. destruct (Hc _ _ Hlast) as [Hs _].
  assert (length (rs ++ g) ≠ 0%nat) by (rewrite length_app, Hg; cbn; lia). lia.
Qed.

(** C26: A replayed history is one hash chain.  Its records are numbered from 1
    without gaps, each names the digest of the record before it (the first the
    zero digest), and the head of the projection is the number, commit and
    digest of the last record. *)
Theorem replayed_history_is_a_chain rs p : replay rs = Ret p →
  chained rs 1 ZERO_DIGEST ∧ p_head p = head_of <$> last rs.
Proof.
  intros Hr. assert (chain_ok rs p) as Hok.
  { revert rs p Hr. apply replay_ind; [by left|]. intros rs p g d. apply chain_step. }
  destruct Hok as [[-> ->]|(r & Hlast & Hh & _ & Hc & _)]; [by split|]. split; [done|]. by rewrite Hlast.
Qed.

Lemma replayed_history_is_a_chain_witness : ∃ rs p, replay rs = Ret p ∧ chained rs 1 ZERO_DIGEST.
Proof.
  destruct demo_replayed as (rs & g & p & p' & _ & H & _). exists (rs ++ g), p'. split; [exact H|].
  exact (proj1 (replayed_history_is_a_chain (rs ++ g) p' H)).
Defined.

(** ** The digests of a replayed projection *)

(** A projection all of whose texts and numbers the encoder takes. *)
Definition baseline_item (group : string) (b : Baseline) : value :=
  DList [DStr group; DStr (bl_admission_id b); DBool (bl_complete b); DStr (bl_dedupe_key b)].
Definition HOLD_CODES : list string := ["restart_recovery"; "capacity_admissions"; "capacity_pending"; "capacity_bytes"].

Record digestible (p : Projection) : Prop := {
  dg_uuid : ∀ uuid, p_journal_uuid p = Some uuid → clean uuid;
  dg_pending : map_Forall (λ _ e, encodable 1 (to_json (pending_item e))) (p_pending p);
  dg_baselines : map_Forall (λ group b, encodable 1 (to_json (baseline_item group b))) (p_baselines p);
  dg_holds : map_Forall (λ code since, code ∈ HOLD_CODES ∧ 1 ≤ since ≤ MAX_SEQ) (p_dispatch_holds p);
}.

Lemma uuid_is_clean s : _UUID_PATTERN s = true → clean s.
Proof.
  intros H. assert (all_chars clean_char s = true ∧ str_len s = 36) as [Hc Hl]; [|split; [done|rewrite Hl; vm_compute; discriminate]].
  unfold _UUID_PATTERN in H. change 36 with (str_len "00000000-0000-0000-0000-000000000000"). revert H.
  generalize "00000000-0000-0000-0000-000000000000" as shape. clear. induction s as [|x s IH]; intros [|c shape] H; try done.
  cbn [match_uuid] in H. apply andb_true_iff in H as [Hx Hs]. destruct (IH _ Hs) as [Hc Hl]. cbn [all_chars]. rewrite Hc, andb_true_r.
  split; [|unfold str_len in *; cbn [String.length]; lia]. case_bool_decide; [subst; by apply bool_decide_eq_true in Hx as ->|by eapply char_in_all].
Qed.
Lemma id_is_clean s : _ID_PATTERN s = true → clean s.
Proof.
  unfold _ID_PATTERN, id_pattern, MAX_ID_BYTES. intros H. bool_simpl.
  eapply (clean_class ID_CHARS _ 128); [vm_compute; reflexivity|done|done|vm_compute; discriminate].
Qed.
Lemma hex64_is_clean v : _hex64_ok v = true → clean (text_of v).
Proof. intros [? ?]%hex64_spec. by apply hex_digits_clean. Qed.
Lemma hold_code_is_clean s : s ∈ HOLD_CODES → clean s.
Proof.
  unfold HOLD_CODES. intros H. repeat (apply elem_of_cons in H as [->|H]; [split; vm_compute; [reflexivity|discriminate]|]). by apply elem_of_nil in H.
Qed.

Lemma encodable_list d xs : d ≤ MAX_JSON_DEPTH → Z.of_nat (length xs) ≤ MAX_JSON_ARRAY_ITEMS →
  Forall (λ v, encodable (d + 1) (to_json v)) xs → encodable d (to_json (DList xs)).
Proof. intros Hd Hl H. cbn [to_json encodable]. rewrite foldr_and_Forall, length_map. split_and!; [done..|]. by apply Forall_map. Qed.

(** *** What an admission adds *)
Lemma alert_of_spec s fp a : alert_of s fp = Some a → a ∈ alerts s ∧ fingerprint a = fp.
Proof.
  unfold alert_of. assert (∀ xs found, foldl (λ found alert, if decide (fingerprint alert = fp) then Some alert else found) found xs = Some a →
    found = Some a ∨ (a ∈ xs ∧ fingerprint a = fp)) as H; [|by intros [?|?]%H].
  induction xs as [|x xs IH]; cbn; intros found Hf; [by left|]. destruct (IH _ Hf) as [E|[Hin He]].
  - case_decide; [injection E as ->; right; split; [by left|done]|by left].
  - right. split; [by right|done].
Qed.

Lemma dedupe_rows_encodable s key : dedupe_key s = Ret key →
  Forall (λ alert, encodable 1 (to_json (dedupe_row alert))) (alerts s) ∧ clean key.
Proof.
  intros H. split.
  - unfold dedupe_key, tagged_digest, canonical_json in H. inv_do. match goal with X : _canonicalize _ _ _ = Ret _ |- _ => apply canonicalize_encodable in X as (_ & _ & X); rename X into Hall end.
    rewrite foldr_and_Forall, map_map, Forall_map in Hall. eapply Forall_impl; [exact Hall|]. intros alert Ha. by eapply encodable_shallower; [|exact Ha].
  - unfold dedupe_key in H. apply tagged_digest_hex in H as [? ?]. by apply hex_digits_clean.
Qed.

Lemma pending_item_encodable s key fp alert aid seq : dedupe_key s = Ret key → alert ∈ alerts s → fingerprint alert = fp → clean aid →
  clean (source_group s) → 0 ≤ seq ≤ MAX_SEQ →
  encodable 1 (to_json (pending_item {| pe_fingerprint := fp; pe_admission_id := aid; pe_arrival_seq := seq;
    pe_source_group := source_group s; pe_status := status alert; pe_values := values alert |})).
Proof.
  intros [Hrows _]%dedupe_rows_encodable Hin <- Haid Hg Hs. rewrite Forall_forall in Hrows. specialize (Hrows _ Hin).
  unfold dedupe_row in Hrows. cbn [to_json map encodable foldr] in Hrows. destruct Hrows as (_ & _ & Hfp & Hst & Hv & _).
  apply encodable_list; [done|done|]. cbn [pe_fingerprint pe_admission_id pe_arrival_seq pe_source_group pe_status pe_values].
  repeat apply Forall_cons_2; try apply Forall_nil_2; try done.
  cbn [to_json encodable]. unfold MAX_SEQ, MAX_SAFE_INTEGER in *. lia.
Qed.

Lemma map_Forall_insert_all {A} (P : string → A → Prop) us (m : gmap string A) : map_Forall P m → Forall (λ kv, P kv.1 kv.2) us →
  map_Forall P (foldl (λ m kv, <[kv.1 := kv.2]> m) m us).
Proof.
  revert m. induction us as [|[k x] us IH]; intros m Hm Hus; [done|]. apply Forall_cons in Hus as [Hk Hus]. cbn [foldl].
  apply IH; [|done]. by apply map_Forall_insert_2.
Qed.

(** *** Every commit keeps the projection digestible *)
Lemma digestible_same p d : digestible p → d_journal_uuid d = None → d_pending_updates d = [] → d_baseline_update d = None →
  (∀ code since, d_change d = DispatchHoldAdd code since → code ∈ HOLD_CODES ∧ 1 ≤ since ≤ MAX_SEQ) → digestible (apply_delta p d).
Proof.
  intros [Hu Hp Hb Hh] E1 E2 E3 Hc. split; cbn; rewrite ?E1, ?E2, ?E3; [done..|]. unfold apply_holds.
  destruct (d_change d) as [|code since| |hold since| | | | | | | | | | | | | | | | | | |]; try done.
  - destruct (some_b _); [done|]. apply map_Forall_insert_2; [by apply Hc|done].
  - by apply map_Forall_delete.
Qed.

Lemma hold_is_capacity t f p r seq d code since : dict_get verifiers t = Some f → f p r seq = Ret d →
  d_change d = DispatchHoldAdd code since → _verify_capacity_hold p r seq = Ret d.
Proof.
  intros Ht%dict_get_elem Hf Hd. unfold verifiers in Ht.
  repeat (apply elem_of_cons in Ht as [[= -> ->]|Ht]; [try done; exfalso|]); [..|by apply elem_of_nil in Ht].
  all: try (destruct (schema_version r =? 3)).
  all: match type of Hf with ?g _ _ _ = _ => unfold g in Hf end; inv_do; injection Hf as <-; try done; cbn in Hd; by destruct (_ =? 2).
Qed.
Lemma capacity_hold_code p r seq d code since : _verify_capacity_hold p r seq = Ret d → d_change d = DispatchHoldAdd code since →
  code ∈ HOLD_CODES ∧ since = seq.
Proof.
  unfold _verify_capacity_hold. intros H Hc. inv_do. injection H as <-. cbn in Hc. injection Hc as <- <-. split; [|done].
  match goal with X : item (_CAPACITY_LIMITS _) _ = Ret _ |- _ => unfold item in X; destruct (dict_get _ _) eqn:E in X; [|done] end.
  apply dict_get_elem in E. unfold _CAPACITY_LIMITS in E. unfold HOLD_CODES. set_solver.
Qed.

Lemma genesis_typed p r d uuid : verify_commit p [r] = Ret d → d_journal_uuid d = Some uuid → event_type r = "journal_genesis".
Proof.
  unfold verify_commit. intros H Hu. inv_do. rename a into sh.
  assert (_commit_shape [r] = Ret sh) as Hsh by (unfold check_commit in *; inv_do; done).
  case_decide as Hg; [subst; by apply commit_shape_single in Hsh as (r' & [= ->] & ->)|]. exfalso. case_decide.
  - unfold _verify_restart in H. inv_do. by injection H as <-.
  - inv_do. destruct sh as [t|]; [|done]. inv_do. unfold item in *. destruct (dict_get verifiers t) as [f|] eqn:Ef; [|done].
    match goal with X : Ret f = Ret _ |- _ => injection X as <- end. by destruct (verifier_allowed _ _ _ _ _ _ Ef H) as (chg & -> & _).
Qed.
Lemma genesis_uuid_clean r : record_ok r → event_type r = "journal_genesis" → clean (text_of (get (data r) "journal_uuid")).
Proof.
  intros Hr Ht. destruct (rec_type r Hr) as (f & ids & raw & Hf & Hacc & _ & ->). rewrite Ht in Hf.
  unfold all_validators, _TYPE_VALIDATORS, _V2_TYPE_VALIDATORS, _V3_TYPE_VALIDATORS in Hf. cbn [lookup_type app] in Hf.
  destruct (1 =? schema_version r); [|done]. injection Hf as <-. unfold _validate_journal_genesis, _require_keys, _exact_keys_ok in Hacc. inv_do.
  destruct raw as [| | | | | |m|]; try done. destruct (same_keys m _); [|done].
  match goal with X : Ret m = Ret _ |- _ => injection X as <- end. cbn [_freeze dict_of]. rewrite freeze_get.
  unfold _require_uuid, record_check in *. match goal with X : check_that (str_ok _UUID_PATTERN _) _ = Ret _ |- _ => apply check_that_ret_inv in X; rename X into Hu end.
  destruct (get m "journal_uuid"); try done. by apply uuid_is_clean.
Qed.

Lemma restart_hold p r seq d : _verify_restart p r seq = Ret d → d_journal_uuid d = None ∧ d_pending_updates d = [] ∧
  d_baseline_update d = None ∧ d_change d = DispatchHoldAdd "restart_recovery" seq.
Proof. unfold _verify_restart. intros H. inv_do. by injection H as <-. Qed.

Lemma baseline_encodable p s aid dec : digestible p → _decide p s aid = Ret dec → clean aid → clean (source_group s) →
  encodable 1 (to_json (baseline_item (source_group s) (baseline_after dec))).
Proof.
  intros Hd H Haid Hg. unfold _decide in H. inv_do. match goal with X : dedupe_key _ = Ret _ |- _ => apply dedupe_rows_encodable in X as [_ Hkey] end.
  assert (∀ complete, encodable 1 (to_json (baseline_item (source_group s) {| bl_admission_id := aid; bl_dedupe_key := a; bl_complete := complete |}))) as Hfresh.
  { intros complete. apply encodable_list; [done|done|]. by repeat apply Forall_cons_2. }
  destruct (p_baselines p !! source_group s) as [b|] eqn:E; [destruct (_ && _)|]; injection H as <-; cbn [baseline_after]; try apply Hfresh.
  exact (dg_baselines p Hd _ _ E).
Qed.

Lemma admission_digestible rs p x y d : _verify_admission_pair p x y (commit_seq (position x)) = Ret d → record_ok x → journal_ok rs p →
  digestible p → digestible (apply_delta p d).
Proof.
  unfold _verify_admission_pair. intros H Hx Hok [Hu Hp Hb Hh]. inv_do. injection H as <-.
  match goal with X : replay_check _ _ = Ret _ |- _ => apply replay_check_ret in X end. guards.
  destruct Hok as [[-> ->]|(b & Hbounds & _ & Hin)]; [done|].
  match goal with X : source_from_json _ = Ret _ |- _ => apply source_from_json_ok in X; rename X into Hsrc end.
  pose proof (hex64_is_clean _ (src_group _ Hsrc)) as Hgroup. cbn [text_of] in Hgroup.
  assert (clean (id_of x "admission_id")) as Haid.
  { match goal with X : id_of x _ = event_id x |- _ => rewrite X end. by apply id_is_clean, rec_event_id. }
  assert (0 ≤ p_last_arrival_seq p + 1 ≤ MAX_SEQ) as Hseq.
  { rewrite (ib_arrivals _ _ _ Hin). destruct (ib_admissions _ _ _ Hin), (bv_admissions _ (ib_bounds _ _ _ Hin)). unfold MAX_SEQ. lia. }
  match goal with X : dedupe_key _ = Ret ?k |- _ => rename k into key; rename X into Hkey end.
  split; cbn -[foldl]; [done| | |done].
  - apply map_Forall_insert_all; [done|].
    match goal with X : _pending_updates _ _ _ _ _ = Ret _ |- _ => unfold _pending_updates, collect in X; rewrite seq_outcomes_spec in X; rename X into Hus end.
    induction Hus as [|fp kv fps us Hkv Hus IH]; [done|]. constructor; [|done].
    destruct (alert_of _ fp) as [alert|] eqn:Ea; [|done]. injection Hkv as <-. cbn [fst snd]. apply alert_of_spec in Ea as [Hal Hfp].
    by eapply pending_item_encodable.
  - apply map_Forall_insert_2; [|done]. by eapply baseline_encodable.
Qed.

(** Every record of the history was read from its body. *)
Lemma replay_digestible rs p : replay rs = Ret p → journal_ok rs p ∧ (Forall record_ok rs → digestible p).
Proof.
  revert rs p. apply replay_ind; [split; [by left|by split]|]. intros rs p g d [Hok IH] Hd.
  pose proof (verify_commit_accepted _ _ _ Hd) as Ha. split; [by apply step_journal_ok|].
  intros [Hrs Hg]%Forall_app. specialize (IH Hrs).
  destruct Ha as [r -> (_ & _ & H)|r -> _ _ H|r t f -> _ Ht _ _ H|x y -> _ _ H]; apply Forall_cons in Hg as [Hr _].
  - unfold _verify_genesis in H. inv_do. injection H as <-. pose proof (genesis_typed _ _ _ _ Hd eq_refl) as Ht.
    destruct IH. split; cbn; [|done..]. intros uuid [= <-]. by apply genesis_uuid_clean.
  - destruct (restart_hold _ _ _ _ H) as (? & ? & ? & Hc). apply digestible_same; [done..|]. intros code since Hs. rewrite Hc in Hs.
    injection Hs as <- <-. split; [by left|]. apply commit_seq_range, rec_position, Hr.
  - pose proof H as H'. apply (verifier_allowed _ _ _ _ _ _ Ht) in H' as (chg & Hd' & _). apply digestible_same; [done|by rewrite Hd'..|].
    intros code since Hs. destruct (capacity_hold_code _ _ _ _ _ _ (hold_is_capacity _ _ _ _ _ _ _ _ Ht H Hs) Hs) as [? ->].
    split; [done|]. apply commit_seq_range, rec_position, Hr.
  - by eapply admission_digestible.
Qed.

(** *** The digests exist *)
Lemma list_digest_returns tag xs : Forall (λ v, encodable 1 (to_json v)) xs → ∃ d, _list_digest tag xs = Ret d ∧ clean d.
Proof.
  intros H. unfold _list_digest, collect. destruct (seq_outcomes_total encode xs) as [bs ->].
  { eapply Forall_impl; [exact H|]. intros v Hv. destruct (canonicalize_total true _ 1 Hv) as (b & Hb & _). by exists b. }
  cbn [mbind outcome_bind]. eexists. split; [reflexivity|]. apply hex_digits_clean; apply sha256_hex_shape.
Qed.

Lemma charge_nonneg rs : 0 ≤ charge_of rs.
Proof. induction rs as [|r rs IH]; [done|]. change (charge_of (r :: rs)) with (record_charge r + charge_of rs). unfold record_charge, str_len, RECORD_OVERHEAD_BYTES. lia. Qed.
Lemma journal_bytes rs p : journal_ok rs p → Forall record_ok rs → 0 ≤ p_logical_bytes p ≤ MAX_SAFE_INTEGER.
Proof.
  intros [[-> ->]|(b & _ & _ & Hin)] Hrs; [done|]. rewrite (ib_bytes _ _ _ Hin). split; [apply charge_nonneg|].
  destruct (ib_fits _ _ _ Hin) as [Hone|Hfits].
  - destruct rs as [|r [|]]; try done. apply Forall_cons in Hrs as [Hr _]. pose proof (rec_size r Hr). cbn. unfold record_charge.
    unfold MAX_RECORD_BYTES, RECORD_OVERHEAD_BYTES, MAX_SAFE_INTEGER in *. lia.
  - rewrite <-(ib_bytes _ _ _ Hin). destruct (bv_ordinary _ (ib_bounds _ _ _ Hin)), (bv_total _ (ib_bounds _ _ _ Hin)).
    unfold MAX_SAFE_INTEGER. lia.
Qed.

Lemma holds_listed p : digestible p → encodable 2 (to_json (DList (map (λ kv, DList [DStr kv.1; DInt kv.2])
  (sort_keys (map_to_list (p_dispatch_holds p)))))).
Proof.
  intros [_ _ _ Hh]. assert (Forall (λ kv, kv.1 ∈ HOLD_CODES ∧ 1 ≤ kv.2 ≤ MAX_SEQ) (map_to_list (p_dispatch_holds p))) as Hall.
  { apply Forall_forall. intros [k n] Hin%elem_of_map_to_list. exact (Hh k n Hin). }
  apply encodable_list; [done| |].
  - rewrite length_map, (Permutation_length (sort_keys_perm _)), <-(length_fmap fst).
    assert (length (map_to_list (p_dispatch_holds p)).*1 ≤ length HOLD_CODES)%nat as Hle; [|unfold MAX_JSON_ARRAY_ITEMS; change (length HOLD_CODES) with 4%nat in Hle; lia].
    apply submseteq_length, NoDup_submseteq; [apply NoDup_fst_map_to_list|]. intros k ([k' n] & -> & Hin)%list_elem_of_fmap.
    rewrite Forall_forall in Hall. by apply (Hall _ Hin).
  - rewrite sort_keys_perm, Forall_map. eapply Forall_impl; [exact Hall|]. intros [code n] [Hc Hn]. cbn [fst snd] in *.
    apply encodable_list; [done|done|]. repeat apply Forall_cons_2; [by apply hold_code_is_clean| |apply Forall_nil_2].
    cbn [to_json encodable]. unfold MAX_SEQ, MAX_SAFE_INTEGER in *. lia.
Qed.

Lemma pending_digest_returns p : digestible p → ∃ d, pending_digest p = Ret d ∧ clean d.
Proof.
  intros [_ Hp _ _]. apply list_digest_returns, Forall_map. unfold values_of. apply Forall_map, Forall_forall.
  intros [k e] Hin%elem_of_map_to_list. exact (Hp k e Hin).
Qed.

Definition head_value (h : Head) : value :=
  DDict [("commit_seq", DInt (hd_commit_seq h)); ("event_seq", DInt (hd_event_seq h));
    ("generation", DInt (hd_generation h)); ("record_digest", DStr (hd_record_digest h))].
Lemma head_listed r : record_ok r → encodable 2 (to_json (head_value (head_of r))).
Proof.
  intros Hr. destruct (rec_position r Hr) as [Hg He Hc _ _ _ _]. pose proof (rec_digest r Hr) as Hd.
  unfold head_value. cbn [to_json map fst snd encodable foldr JsonRoundtrip.key_of head_of hd_commit_seq hd_event_seq hd_generation hd_record_digest].
  assert (clean (record_digest r)) by (rewrite Hd; apply hex_digits_clean; apply sha256_hex_shape).
  unfold MAX_SEQ, MAX_GENERATION, MAX_SAFE_INTEGER in *.
  split_and!; try done; try lia; split; vm_compute; first [reflexivity|discriminate].
Qed.

(** The digest of a replayed projection is never refused by the encoder. *)
Lemma state_digest_returns rs p : replay rs = Ret p → Forall record_ok rs → ∃ d, state_digest p = Ret d.
Proof.
  intros Hr Hrs. destruct (replay_digestible rs p Hr) as [Hok Hdig]. specialize (Hdig Hrs).
  assert (chain_ok rs p) as Hchain.
  { clear -Hr. revert rs p Hr. apply replay_ind; [by left|]. intros rs p g d. apply chain_step. }
  destruct (pending_digest_returns p Hdig) as (dp & Hdp & Hcp).
  pose proof (journal_bytes rs p Hok Hrs) as Hbytes. pose proof (holds_listed p Hdig) as Hholds.
  destruct (list_digest_returns "rj.baseline-set.v1" (map (λ kv, baseline_item kv.1 kv.2) (map_to_list (p_baselines p)))) as (db & Hdb & Hcb).
  { apply Forall_map, Forall_forall. intros [k b] Hin%elem_of_map_to_list. exact (dg_baselines p Hdig k b Hin). }
  unfold state_digest. rewrite Hdp. cbn [mbind outcome_bind]. 
  match goal with |- context [_list_digest ?t ?xs] => change xs with (map (λ kv, baseline_item kv.1 kv.2) (map_to_list (p_baselines p))) end.
  rewrite Hdb. cbn [mbind outcome_bind]. apply tagged_digest_returns; [done|].
  assert (encodable 2 (to_json (of_option head_value (p_head p)))) as Hhead.
  { destruct Hchain as [[_ ->]|(r & Hlast & -> & _)]; [done|]. apply head_listed. rewrite Forall_forall in Hrs. apply Hrs. by apply last_Some_elem_of. }
  assert (0 ≤ p_generation p ≤ 1) as Hgen by (destruct Hchain as [[_ ->]|(r & _ & _ & -> & _)]; cbn; lia).
  assert (0 ≤ p_admission_count p ≤ 10000 ∧ p_last_arrival_seq p = p_admission_count p) as [Hadm Harr].
  { destruct Hok as [[_ ->]|(b & _ & _ & [Hb _ _ ? ? _ _ _])]; [done|]. destruct Hb. split; [lia|done]. }
  assert (encodable 2 (to_json (of_option DStr (p_journal_uuid p)))) as Huuid.
  { destruct (p_journal_uuid p) eqn:E; [|done]. by apply (dg_uuid p Hdig). }
  cbn [to_json map encodable foldr fst snd JsonRoundtrip.key_of]. rewrite Harr.
  cbn [to_json encodable] in Hholds. destruct Hholds as (_ & Hlen & Hitems).
  split_and!; try done; unfold MAX_SAFE_INTEGER in *; lia.
Qed.
