(* ===== verification/JournalAnchor.v ===== *)
(** * The anchor file of the recovery journal (journal_store.py)

    The anchor names the last commit that is known to be durable.  It is a file
    of two slots of 4096 bytes; each write goes to the slot the previous one
    left alone.  A slot is magic, length, canonical JSON, SHA-256 and zeros.
    This file is the codec; slot bodies are dicts, as in the code, because a
    slot that is read may hold anything. *)

From S2P Require Import Prelude PyValue PyJson Sha256 CanonJson PyBytes JsonParse JournalValue JournalSource JournalRecords.
From S2P Require Import JournalClaims JournalSeal.
Local Open Scope string_scope.
Local Open Scope Z_scope.
Local Open Scope list_scope.

Definition ANCHOR_BYTES : Z := 8192.
Definition ANCHOR_SLOT_BYTES : Z := 1024.
Definition ANCHOR_SLOT_OFFSETS : list Z := [0; 4096].
Definition ANCHOR_MAGIC : string := "RJANCHOR".
Definition ANCHOR_FORMAT : string := "rj.anchor.v1".
Definition MAX_ANCHOR_BODY_BYTES : Z := 960.

Definition RECOVERY_HOLD_CODES : list string :=
  ["journal_truncated"; "journal_anchor_missing"; "journal_anchor_invalid"; "journal_anchor_conflict";
   "journal_identity_mismatch"; "journal_schema_invalid"; "journal_corrupt"; "journal_record_invalid"; "journal_chain_broken";
   "journal_tail_unverified"; "journal_replay_mismatch"; "journal_event_conflict"].

Definition _ANCHOR_BODY_KEYS : list string := ["counter"; "format"; "head"; "hold"; "journal_uuid"].
Definition _ANCHOR_HEAD_KEYS : list string := ["commit_seq"; "event_seq"; "generation"; "record_digest"].
Definition _ANCHOR_HOLD_KEYS : list string := ["boot_id"; "code"; "observed_commit_seq"].

Definition StoreError (code : string) : exn := Exn "StoreError" code.

Record AnchorHold := { ah_code : string; ah_boot_id : string; ah_observed_commit_seq : option Z }.
Record AnchorState := { an_journal_uuid : string; an_counter : Z; an_head : Head; an_hold : option AnchorHold }.
Record Finding := { fi_code : string; fi_scope : string; fi_sqlite_error : option string }.

#[export] Instance head_eq_dec : EqDecision Head.
Proof. solve_decision. Defined.
#[export] Instance anchor_hold_eq_dec : EqDecision AnchorHold.
Proof. solve_decision. Defined.
#[export] Instance anchor_state_eq_dec : EqDecision AnchorState.
Proof. solve_decision. Defined.
#[export] Instance finding_eq_dec : EqDecision Finding.
Proof. solve_decision. Defined.

Definition _recovery (code : string) : Finding := {| fi_code := code; fi_scope := "recovery"; fi_sqlite_error := None |}.
Definition _process (code : string) : Finding := {| fi_code := code; fi_scope := "process"; fi_sqlite_error := None |}.

(** ** Checks of decoded values *)
Definition _UUID_DASHES : list nat := [8; 13; 18; 23]%nat.
Fixpoint uuid_chars (index : nat) (s : string) : bool :=
  match s with
  | EmptyString => true
  | String c s =>
      (if decide (index ∈ _UUID_DASHES) then bool_decide (c = "-"%char) else char_in HEX_DIGITS c) && uuid_chars (S index) s
  end.
Definition _uuid_ok (v : value) : bool := str_ok (λ s, (str_len s =? 36) && uuid_chars 0 s) v.

Definition _id_ok (v : value) : bool := returned (validate_id v).

Definition bad_head_keys (head : value) : bool :=
  match head with DDict h => negb (same_keys h _ANCHOR_HEAD_KEYS) | _ => false end.
Definition bad_hold_keys (hold : value) : bool :=
  match hold with
  | DDict h => negb (same_keys h _ANCHOR_HOLD_KEYS) || str_ok (λ code, negb (str_in code RECOVERY_HOLD_CODES)) (get h "code")
  | _ => false
  end.

Definition head_ok (head : value) : bool :=
  match head with
  | DDict h => _int_in (get h "generation") 1 MAX_GENERATION && _int_in (get h "commit_seq") 1 MAX_SEQ &&
               _int_in (get h "event_seq") 1 MAX_SEQ && _hex64_ok (get h "record_digest")
  | _ => false
  end.
Definition hold_ok (hold : value) : bool :=
  match hold with
  | DNone => true
  | DDict h => is_str (get h "code") && _id_ok (get h "boot_id") &&
               (is_none (get h "observed_commit_seq") || _int_in (get h "observed_commit_seq") 0 MAX_SEQ)
  | _ => false
  end.

(** ["v1"], ["newer"] for a format this code does not know, ["invalid"] for a
    slot of this format that no writer produces. *)
Definition _slot_kind (body : members) : string :=
  let head := get body "head" in
  let hold := get body "hold" in
  if negb (same_keys body _ANCHOR_BODY_KEYS) || negb (bool_decide (get body "format" = DStr ANCHOR_FORMAT)) ||
     bad_head_keys head || bad_hold_keys hold
  then "newer"
  else if _int_in (get body "counter") 1 MAX_SEQ && _uuid_ok (get body "journal_uuid") && head_ok head && hold_ok hold
  then "v1" else "invalid".

(** ** Writing and reading one slot *)

(** [struct.pack(">I", n)] and [struct.unpack(">I", s)[0]]. *)
Definition pack_u32 (n : Z) : string := string_of_bytes (be_bytes 4 n).
Definition unpack_u32 (s : string) : Z := word (bytes_of s).

(** [b"\x00" * n]. *)
Fixpoint zero_bytes (n : nat) : string := match n with O => EmptyString | S n => String (ascii_of_nat 0) (zero_bytes n) end.

Definition _encode_slot (body : members) : outcome string :=
  payload ← encode (DDict body);
  check_that ((1 <=? str_len payload) && (str_len payload <=? MAX_ANCHOR_BODY_BYTES)) (StoreError "journal_argument");;
  let header := ANCHOR_MAGIC +:+ pack_u32 (str_len payload) in
  let checksum := sha256_digest (header +:+ payload) in
  let slot := header +:+ payload +:+ checksum in
  Ret (slot +:+ zero_bytes (Z.to_nat (ANCHOR_SLOT_BYTES - str_len slot))).

(** The body of an intact slot. *)
Definition _decode_slot (region : string) : option members :=
  if (str_len region <? ANCHOR_SLOT_BYTES) || negb (bool_decide (slice 0 8 region = ANCHOR_MAGIC)) then None else
  let length := unpack_u32 (slice 8 12 region) in
  if negb ((1 <=? length) && (length <=? MAX_ANCHOR_BODY_BYTES)) then None else
  let end_ := Z.to_nat (12 + length) in
  if negb (bool_decide (sha256_digest (slice 0 end_ region) = slice end_ (end_ + 32) region)) ||
     negb (all_chars (λ c, bool_decide (c = ascii_of_nat 0)) (slice_from (end_ + 32) region)) then None else
  let payload := slice 12 end_ region in
  match parse_json (Some payload) (VInt MAX_ANCHOR_BODY_BYTES) "integer" (Some true) (VInt MAX_JSON_STRING_BYTES) with
  | Raise _ => None
  | Ret parsed =>
      match of_parsed parsed with
      | DDict body => if holds (λ text, bool_decide (text = payload)) (encode (DDict body)) then Some body else None
      | _ => None
      end
  end.

Definition _slot_bodies (raw : string) : list (option members) :=
  [_decode_slot (slice 0 4096 raw); _decode_slot (slice 4096 8192 raw)].

(** ** The state of the anchor *)
Definition _anchor_state_from_body (body : members) : AnchorState :=
  let head := dict_of (get body "head") in
  {| an_journal_uuid := text_of (get body "journal_uuid"); an_counter := int_of (get body "counter");
     an_head := {| hd_generation := int_of (get head "generation"); hd_commit_seq := int_of (get head "commit_seq");
                   hd_event_seq := int_of (get head "event_seq"); hd_record_digest := text_of (get head "record_digest") |};
     an_hold := match get body "hold" with
       | DDict hold => Some {| ah_code := text_of (get hold "code"); ah_boot_id := text_of (get hold "boot_id");
           ah_observed_commit_seq := match get hold "observed_commit_seq" with DInt z => Some z | _ => None end |}
       | _ => None
       end |}.

(** The body for a counter; the code writes 0 and replaces it in [_write_slot]. *)
Definition anchor_body_at (counter : Z) (journal_uuid : string) (head : Head) (hold : option AnchorHold) : members :=
  [("counter", DInt counter); ("format", DStr ANCHOR_FORMAT); ("journal_uuid", DStr journal_uuid);
   ("head", DDict [("commit_seq", DInt (hd_commit_seq head)); ("event_seq", DInt (hd_event_seq head));
                   ("generation", DInt (hd_generation head)); ("record_digest", DStr (hd_record_digest head))]);
   ("hold", of_option (λ h, DDict [("boot_id", DStr (ah_boot_id h)); ("code", DStr (ah_code h));
                                   ("observed_commit_seq", of_option DInt (ah_observed_commit_seq h))]) hold)].
Definition _anchor_body (journal_uuid : string) (head : Head) (hold : option AnchorHold) : members :=
  anchor_body_at 0 journal_uuid head hold.

(** ** Reading the file *)
Definition _slot_counter (body : members) : Z := match get body "counter" with DInt c => c | _ => -1 end.

Definition head_number (body : members) (key : string) : Z := int_of (get (dict_of (get body "head")) key).

(** The slots that are intact, with their index and kind. *)
Definition intact_slots (raw : string) : list (Z * members * string) :=
  omap (λ slot, (λ body, (slot.1, body, _slot_kind body)) <$> slot.2) (zip [0; 1] (_slot_bodies raw)).

(** [max(intact, key=_slot_counter)]: the first of the greatest. *)
Definition newest (a : Z * members * string) (rest : list (Z * members * string)) : Z * members * string :=
  foldl (λ best slot, if _slot_counter best.1.2 <? _slot_counter slot.1.2 then slot else best) a rest.

(** Whether [newer] may follow [older] in the other slot. *)
Definition slots_agree (older newer : members) : bool :=
  (int_of (get newer "counter") - int_of (get older "counter") =? 1) &&
  bool_decide (get newer "journal_uuid" = get older "journal_uuid") &&
  (head_number older "commit_seq" <=? head_number newer "commit_seq") &&
  negb (negb (is_none (get older "hold")) && is_none (get newer "hold")).

Definition anchor_invalid : option AnchorState * option Finding := (None, Some (_recovery "journal_anchor_invalid")).

Definition _analyze_anchor (raw : string) : option AnchorState * option Finding :=
  if negb (str_len raw =? ANCHOR_BYTES) then anchor_invalid else
  match intact_slots raw with
  | [] => anchor_invalid
  | first :: rest =>
      if existsb (λ slot, bool_decide (slot.2 = "invalid")) (first :: rest) then anchor_invalid
      else if bool_decide ((newest first rest).2 = "newer") then (None, Some (_process "journal_schema_unsupported"))
      else
        let v1_slots := List.filter (λ slot, bool_decide (slot.2 = "v1")) (first :: rest) in
        if existsb (λ slot, negb (int_of (get slot.1.2 "counter") mod 2 =? slot.1.1)) v1_slots then anchor_invalid
        else match map (λ slot, slot.1.2) v1_slots with
        | [body] => (Some (_anchor_state_from_body body), None)
        | [a; b] =>
            let '(older, newer) := if int_of (get b "counter") <? int_of (get a "counter") then (b, a) else (a, b) in
            if slots_agree older newer then (Some (_anchor_state_from_body newer), None) else anchor_invalid
        | _ => anchor_invalid
        end
  end.

Definition _held_slot_count (raw : string) : Z :=
  Z.of_nat (length (List.filter (λ body, match body with
    | Some body => bool_decide (_slot_kind body = "v1") && negb (is_none (get body "hold"))
    | None => false
    end) (_slot_bodies raw))).

(** [os.pwrite] of [data] at [offset]: the bytes of [data] that [landed]. *)
Fixpoint overlay (landed : nat → bool) (index : nat) (data file : string) : string :=
  match data, file with
  | String d data, String f file => String (if landed index then d else f) (overlay landed (S index) data file)
  | String _ _, EmptyString => data
  | EmptyString, file => file
  end.
Definition pwrite (landed : nat → bool) (data : string) (offset : nat) (file : string) : string :=
  slice 0 offset file +:+ overlay landed 0 data (slice_from offset file).
