(* ===== verification/JournalAnchorThm.v ===== *)
(** * Writing an anchor slot is atomic

    An anchor file is [layout r0 r1]: two slots of 1024 bytes, each padded with
    zeros.  [anchored file a]: the file names the state [a].  A write goes to the
    slot that does not hold [a]; whatever part of it reaches the disk, the file
    is read as [a] or as the state that was written, unless the interrupted slot
    passes the checksum by accident.  Whatever state the anchor is to name, if
    it is one a reader takes, its body encodes within the 960 bytes of a slot. *)

From S2P Require Import Prelude PyValue PyJson Sha256 CanonJson PyBytes JsonParse JsonRoundtrip JournalValue JournalSource.
From S2P Require Import JournalRecords JournalClaims JournalSeal JournalStored JournalAccepts JournalSealThm JournalAnchor.
From S2P Require Import RouteTotal.
Local Open Scope string_scope.
Local Open Scope Z_scope.
Local Open Scope list_scope.

#[local] Opaque sha256_digest.

(** ** Bytes *)
Lemma length_zero_bytes n : String.length (zero_bytes n) = n.
Proof. induction n as [|n IH]; cbn; [done|]. by rewrite IH. Qed.
Lemma zero_bytes_zero n : all_chars (λ c, bool_decide (c = ascii_of_nat 0)) (zero_bytes n) = true.
Proof. induction n as [|n IH]; [done|]. cbn [zero_bytes all_chars]. by rewrite IH. Qed.
Lemma length_string_of_bytes l : String.length (string_of_bytes l) = length l.
Proof. induction l as [|x l IH]; cbn; [done|]. by rewrite <-IH. Qed.

Lemma length_digest data : String.length (sha256_digest data) = 32%nat.
Proof.
  Local Transparent sha256_digest. unfold sha256_digest, sha256_words. rewrite length_string_of_bytes.
  generalize (foldl compress initial_hash (blocks (length (pad (bytes_of data)) / 64) (pad (bytes_of data)))). intros h.
  cbn [flat_map]. rewrite !length_app. reflexivity.
Qed.

(** The lengths an anchor body may have. *)
Lemma pack_unpack n : 1 ≤ n ≤ MAX_ANCHOR_BODY_BYTES → unpack_u32 (pack_u32 n) = n ∧ String.length (pack_u32 n) = 4%nat.
Proof.
  intros H. assert (forallb (λ n, (unpack_u32 (pack_u32 n) =? n) && Nat.eqb (String.length (pack_u32 n)) 4) (seqZ 1 960) = true) as Hall
    by (vm_compute; reflexivity).
  rewrite forallb_forall in Hall. specialize (Hall n). rewrite <-list_elem_of_In, elem_of_seqZ in Hall.
  unfold MAX_ANCHOR_BODY_BYTES in H. specialize (Hall ltac:(lia)). apply andb_true_iff in Hall as [H1 H2].
  apply Z.eqb_eq in H1. apply Nat.eqb_eq in H2. done.
Qed.

Definition PAD : string := zero_bytes 3072.
Definition layout (r0 r1 : string) : string := r0 +:+ PAD +:+ r1 +:+ PAD.
#[local] Opaque PAD.
Lemma length_pad : String.length PAD = 3072%nat.
Proof. Local Transparent PAD. apply length_zero_bytes. Local Opaque PAD. Qed.

Definition is_slot (r : string) : Prop := String.length r = 1024%nat.
(** The body a slot is read as. *)
Definition slot_body (r : string) : option members := _decode_slot (r +:+ PAD).

Lemma layout_length r0 r1 : is_slot r0 → is_slot r1 → str_len (layout r0 r1) = ANCHOR_BYTES.
Proof. unfold is_slot, layout, str_len. intros H0 H1. rewrite !length_app_str, length_pad, H0, H1. done. Qed.

Lemma layout_bodies r0 r1 : is_slot r0 → is_slot r1 → _slot_bodies (layout r0 r1) = [slot_body r0; slot_body r1].
Proof.
  intros H0 H1. unfold _slot_bodies, layout, slot_body. assert (String.length (r0 +:+ PAD) = 4096%nat) as L0.
  { by rewrite length_app_str, H0, length_pad. }
  assert (String.length (r1 +:+ PAD) = 4096%nat) as L1. { by rewrite length_app_str, H1, length_pad. }
  rewrite <-(app_assoc_str r0 PAD). rewrite <-L0 at 1. rewrite slice_prefix.
  do 2 f_equal. rewrite <-(app_nil_str (r1 +:+ PAD)) at 1. rewrite <-L0 at 1.
  replace 8192%nat with (String.length (r0 +:+ PAD) + String.length (r1 +:+ PAD))%nat by (rewrite L0, L1; reflexivity).
  by rewrite slice_middle.
Qed.

(** ** A slot that was written is read back *)
Lemma check_that_true b e : b = true → check_that b e = Ret tt.
Proof. by intros ->. Qed.

Lemma encode_slot_shape body slot : _encode_slot body = Ret slot → ∃ payload, encode (DDict body) = Ret payload ∧
  1 ≤ str_len payload ≤ MAX_ANCHOR_BODY_BYTES ∧
  slot = (ANCHOR_MAGIC +:+ pack_u32 (str_len payload)) +:+ payload +:+
    sha256_digest ((ANCHOR_MAGIC +:+ pack_u32 (str_len payload)) +:+ payload) +:+ zero_bytes (980 - String.length payload).
Proof.
  unfold _encode_slot. intros H. inv_do. injection H as <-.
  match goal with X : encode _ = Ret ?b |- _ => rename X into Hb; rename b into payload end. bool_simpl.
  exists payload. split_and!; try done. rewrite !app_assoc_str. repeat f_equal.
  assert (1 ≤ str_len payload ≤ MAX_ANCHOR_BODY_BYTES) as Hl by done.
  unfold str_len at 1, ANCHOR_SLOT_BYTES. rewrite !length_app_str, length_digest, (proj2 (pack_unpack _ Hl)).
  change (String.length ANCHOR_MAGIC) with 8%nat. unfold str_len, MAX_ANCHOR_BODY_BYTES in Hl; cbn [Init.Nat.add]; lia.
Qed.

Lemma encode_slot_length body slot : _encode_slot body = Ret slot → is_slot slot.
Proof.
  intros (payload & _ & Hl & ->)%encode_slot_shape. unfold is_slot.
  rewrite !length_app_str, length_digest, length_zero_bytes, (proj2 (pack_unpack _ Hl)).
  change (String.length ANCHOR_MAGIC) with 8%nat. unfold str_len, MAX_ANCHOR_BODY_BYTES in Hl; cbn [Init.Nat.add]; lia.
Qed.

Lemma encode_slot_body body slot : members_ok body → _encode_slot body = Ret slot → slot_body slot = Some (sort_members body).
Proof.
  intros Hm Hs. pose proof (encode_slot_length _ _ Hs) as Hlen. apply encode_slot_shape in Hs as (payload & Hb & Hl & Hs).
  destruct (read_encoded_within MAX_ANCHOR_BODY_BYTES (DDict body) payload Hm Hb) as [Hp Hp']; [lia|done|].
  destruct (pack_unpack (str_len payload) Hl) as [Hu Hpack]. set (len := pack_u32 (str_len payload)) in *.
  set (header := ANCHOR_MAGIC +:+ len) in *. set (sum := sha256_digest (header +:+ payload)) in *.
  set (zeros := zero_bytes (980 - String.length payload)) in *.
  assert (String.length header = 12%nat) as Hheader by (unfold header; by rewrite length_app_str, Hpack).
  assert (Z.to_nat (12 + str_len payload) = String.length (header +:+ payload)) as Hend.
  { rewrite length_app_str, Hheader. unfold str_len. lia. }
  assert (slot +:+ PAD = (header +:+ payload) +:+ sum +:+ zeros +:+ PAD) as Hregion by (rewrite Hs; by rewrite !app_assoc_str).
  unfold slot_body, _decode_slot.
  assert ((str_len (slot +:+ PAD) <? ANCHOR_SLOT_BYTES) = false) as ->.
  { apply Z.ltb_ge. unfold str_len, ANCHOR_SLOT_BYTES. rewrite length_app_str, Hlen. lia. }
  assert (slice 0 8 (slot +:+ PAD) = ANCHOR_MAGIC) as ->.
  { rewrite Hregion. unfold header. rewrite !app_assoc_str. change 8%nat with (String.length ANCHOR_MAGIC). apply slice_prefix. }
  assert (slice 8 12 (slot +:+ PAD) = len) as ->.
  { rewrite Hregion. unfold header. rewrite !app_assoc_str.
    pose proof (slice_middle ANCHOR_MAGIC len (payload +:+ sum +:+ zeros +:+ PAD)) as E. rewrite Hpack in E. exact E. }
  rewrite bool_decide_true by done. cbn [negb orb]. rewrite Hu.
  rewrite (proj2 (andb_true_iff _ _)) by (split; apply Z.leb_le; lia). cbn [negb]. rewrite Hend.
  assert (slice 0 (String.length (header +:+ payload)) (slot +:+ PAD) = header +:+ payload) as ->
    by (rewrite Hregion; apply slice_prefix).
  assert (slice (String.length (header +:+ payload)) (String.length (header +:+ payload) + 32) (slot +:+ PAD) = sum) as ->.
  { rewrite Hregion. replace 32%nat with (String.length sum) by apply length_digest. apply slice_middle. }
  rewrite bool_decide_true by done. cbn [negb orb].
  assert (slice_from (String.length (header +:+ payload) + 32) (slot +:+ PAD) = zeros +:+ PAD) as ->.
  { rewrite Hregion, <-(app_assoc_str (header +:+ payload)). replace (String.length (header +:+ payload) + 32)%nat
      with (String.length ((header +:+ payload) +:+ sum)); [apply slice_from_app|].
    rewrite (length_app_str (header +:+ payload)). unfold sum. by rewrite length_digest. }
  rewrite all_chars_app. unfold zeros at 1. Local Transparent PAD. unfold PAD at 1. Local Opaque PAD.
  rewrite !zero_bytes_zero. cbn [andb negb].
  assert (slice 12 (String.length (header +:+ payload)) (slot +:+ PAD) = payload) as ->.
  { rewrite Hregion, app_assoc_str, <-Hheader, length_app_str. apply slice_middle. }
  rewrite Hp, Hp'. cbn [stored]. change (DDict (sort_keys _)) with (stored (DDict body)).
  rewrite (encode_stored _ _ Hb). cbn [holds]. by rewrite bool_decide_true.
Qed.

(** ** The state a file names *)
Definition names (body : members) (a : AnchorState) : Prop := _slot_kind body = "v1" ∧ _anchor_state_from_body body = a.

(** [b] was written just before [a]. *)
Record precedes (b a : AnchorState) : Prop := {
  pr_counter : an_counter a = an_counter b + 1;
  pr_uuid : an_journal_uuid a = an_journal_uuid b;
  pr_commit : hd_commit_seq (an_head b) ≤ hd_commit_seq (an_head a);
  pr_hold : an_hold a = None → an_hold b = None;
}.

Definition slot_of (c : Z) (r0 r1 : string) : string := if c mod 2 =? 0 then r0 else r1.

(** The slot of its counter names [a]; the other is not intact or names the
    state before it. *)
Record anchored_slots (r0 r1 : string) (a : AnchorState) : Prop := {
  as_r0 : is_slot r0;
  as_r1 : is_slot r1;
  as_current : ∃ body, slot_body (slot_of (an_counter a) r0 r1) = Some body ∧ names body a;
  as_other : ∀ body, slot_body (slot_of (an_counter a + 1) r0 r1) = Some body → ∃ b, names body b ∧ precedes b a;
}.
Definition anchored (file : string) (a : AnchorState) : Prop := ∃ r0 r1, file = layout r0 r1 ∧ anchored_slots r0 r1 a.

(** What the checks of a slot say of its members. *)
Record slot_members (body : members) : Prop := {
  sm_counter : get body "counter" = DInt (int_of (get body "counter")) ∧ 1 ≤ int_of (get body "counter") ≤ MAX_SEQ;
  sm_uuid : get body "journal_uuid" = DStr (text_of (get body "journal_uuid"));
  sm_hold : get body "hold" = DNone ∨ ∃ h, get body "hold" = DDict h;
}.
Lemma int_in_ret v lo hi : _int_in v lo hi = true → v = DInt (int_of v) ∧ lo ≤ int_of v ≤ hi.
Proof. destruct v; try done. cbn. intros H. bool_simpl. done. Qed.

Lemma v1_members body : _slot_kind body = "v1" → slot_members body.
Proof.
  unfold _slot_kind. destruct (_ || _); [done|]. destruct (_ && _) eqn:E; [|done]. intros _. bool_simpl.
  match goal with X : _int_in _ _ _ = true |- _ => apply int_in_ret in X end. split; [done| |].
  - match goal with X : _uuid_ok _ = true |- _ => destruct (get body "journal_uuid"); done end.
  - destruct (get body "hold"); try done; [by left|by right; eauto].
Qed.

Lemma names_hold body a : names body a → is_none (get body "hold") = true ↔ an_hold a = None.
Proof. intros [Hk <-]. destruct (sm_hold _ (v1_members _ Hk)) as [H|[h H]]; cbn; rewrite H; done. Qed.
Lemma names_counter body a : names body a → int_of (get body "counter") = an_counter a.
Proof. by intros [_ <-]. Qed.
Lemma names_uuid body a : names body a → get body "journal_uuid" = DStr (an_journal_uuid a).
Proof. intros [Hk <-]. apply (sm_uuid _ (v1_members _ Hk)). Qed.

Lemma precedes_agree older newer b a : names older b → names newer a → precedes b a → slots_agree older newer = true.
Proof.
  intros Hb Ha [Hc Hu Hs Hh]. unfold slots_agree.
  rewrite (names_counter _ _ Hb), (names_counter _ _ Ha), (names_uuid _ _ Hb), (names_uuid _ _ Ha), Hc, Hu.
  rewrite bool_decide_true by done. replace (an_counter b + 1 - an_counter b =? 1) with true by (symmetry; apply Z.eqb_eq; lia).
  assert (head_number older "commit_seq" <=? head_number newer "commit_seq" = true) as ->.
  { apply Z.leb_le. destruct Hb as [_ <-], Ha as [_ <-]. exact Hs. }
  cbn [andb]. apply negb_true_iff, andb_false_iff. rewrite negb_false_iff, (names_hold _ _ Hb).
  destruct (is_none (get newer "hold")) eqn:E; [left|by right]. by apply Hh, (names_hold _ _ Ha).
Qed.

Lemma mod2_next c : c mod 2 = 0 ∧ (c + 1) mod 2 = 1 ∨ c mod 2 = 1 ∧ (c + 1) mod 2 = 0.
Proof. Z.to_euclidean_division_equations; lia. Qed.

Lemma analyze_one i body a : (i = 0 ∨ i = 1) → i = an_counter a mod 2 → names body a →
  ∀ r0 r1, is_slot r0 → is_slot r1 → intact_slots (layout r0 r1) = [(i, body, _slot_kind body)] →
  _analyze_anchor (layout r0 r1) = (Some a, None).
Proof.
  intros Hi Hc Hn r0 r1 H0 H1 E. unfold _analyze_anchor. rewrite layout_length, E by done. destruct Hn as [Hk Ha].
  rewrite Hk, Z.eqb_refl. cbn [existsb newest foldl map List.filter fst snd negb].
  do 2 rewrite bool_decide_false by done. rewrite bool_decide_true by done. cbn [existsb map fst snd orb].
  rewrite (names_counter body a), <-Hc, Z.eqb_refl by done. cbn [negb orb]. by rewrite Ha.
Qed.

Lemma analyze_two body0 body1 s0 s1 a : names body0 s0 → names body1 s1 → an_counter s0 mod 2 = 0 → an_counter s1 mod 2 = 1 →
  (precedes s1 s0 ∧ a = s0 ∨ precedes s0 s1 ∧ a = s1) →
  ∀ r0 r1, is_slot r0 → is_slot r1 → intact_slots (layout r0 r1) = [(0, body0, _slot_kind body0); (1, body1, _slot_kind body1)] →
  _analyze_anchor (layout r0 r1) = (Some a, None).
Proof.
  intros H0 H1 Hm0 Hm1 Hp r0 r1 L0 L1 E. unfold _analyze_anchor. rewrite layout_length, E by done.
  pose proof (proj1 H0) as Hk0. pose proof (proj1 H1) as Hk1. rewrite Hk0, Hk1. rewrite Z.eqb_refl.
  cbn [existsb map List.filter fst snd negb].
  assert ((newest (0, body0, "v1") [(1, body1, "v1")]).2 = "v1") as ->.
  { unfold newest. cbn [foldl fst snd]. by destruct (_ <? _). }
  do 2 rewrite bool_decide_false by done. cbn [orb existsb]. rewrite !bool_decide_true by done.
  cbn [existsb map List.filter fst snd negb orb].
  rewrite (names_counter _ _ H0), (names_counter _ _ H1), Hm0, Hm1. cbn [Z.eqb negb orb Pos.eqb].
  destruct Hp as [[Hp ->]|[Hp ->]].
  - assert ((an_counter s1 <? an_counter s0) = true) as -> by (apply Z.ltb_lt; destruct Hp; lia).
    rewrite (precedes_agree body1 body0 s1 s0) by done. by destruct H0 as [_ ->].
  - assert ((an_counter s1 <? an_counter s0) = false) as -> by (apply Z.ltb_ge; destruct Hp; lia).
    rewrite (precedes_agree body0 body1 s0 s1) by done. by destruct H1 as [_ ->].
Qed.

Lemma intact_layout r0 r1 : is_slot r0 → is_slot r1 → intact_slots (layout r0 r1) =
  match slot_body r0 with Some body => [(0, body, _slot_kind body)] | None => [] end ++
  match slot_body r1 with Some body => [(1, body, _slot_kind body)] | None => [] end.
Proof.
  intros H0 H1. unfold intact_slots. rewrite layout_bodies by done. cbn [zip zip_with omap list_omap fst snd].
  by destruct (slot_body r0), (slot_body r1).
Qed.

(** The code reads the file as the state it names. *)
Lemma anchored_analyzed file a : anchored file a → _analyze_anchor file = (Some a, None).
Proof.
  intros (r0 & r1 & -> & [L0 L1 (body & Hb & Hn) Hother]). pose proof (intact_layout r0 r1 L0 L1) as E.
  unfold slot_of in *. destruct (mod2_next (an_counter a)) as [[Hm Hm']|[Hm Hm']]; rewrite Hm, Hm' in *; cbn [Z.eqb] in *.
  - rewrite Hb in E. destruct (slot_body r1) as [older|]; cbn [app] in E.
    + destruct (Hother older eq_refl) as (b & Hnb & Hp). eapply (analyze_two body older a b); eauto.
      destruct Hp. Z.to_euclidean_division_equations; lia.
    + eapply (analyze_one 0 body); eauto.
  - rewrite Hb in E. destruct (slot_body r0) as [older|]; cbn [app] in E.
    + destruct (Hother older eq_refl) as (b & Hnb & Hp). eapply (analyze_two older body b a); eauto.
      destruct Hp. Z.to_euclidean_division_equations; lia.
    + eapply (analyze_one 1 body); eauto.
Qed.

(** ** Writing a slot *)
Lemma overlay_length landed data file : ∀ i, String.length data = String.length file →
  String.length (overlay landed i data file) = String.length file.
Proof. revert data. induction file as [|f file IH]; intros [|d data] i H; cbn in *; try done. f_equal. apply IH. lia. Qed.

Lemma overlay_all data file : ∀ i, String.length data = String.length file → overlay (λ _, true) i data file = data.
Proof. revert data. induction file as [|f file IH]; intros [|d data] i H; cbn in *; try done. f_equal. apply IH. lia. Qed.

Lemma overlay_app landed data file rest : ∀ i, String.length data = String.length file →
  overlay landed i data (file +:+ rest) = overlay landed i data file +:+ rest.
Proof.
  revert data. induction file as [|f file IH]; intros [|d data] i H; try done.
  rewrite app_cons. cbn [overlay]. rewrite app_cons. f_equal. apply IH. cbn in H. lia.
Qed.

(** The file after a write that [landed], by the slot that was written. *)
Lemma pwrite_layout landed slot c r0 r1 : is_slot slot → is_slot r0 → is_slot r1 →
  pwrite landed slot (if c mod 2 =? 0 then 0 else 4096) (layout r0 r1) =
    if c mod 2 =? 0 then layout (overlay landed 0 slot r0) r1 else layout r0 (overlay landed 0 slot r1).
Proof.
  intros Hs H0 H1. unfold pwrite. destruct (_ =? _).
  - unfold layout. assert (∀ s, slice 0 0 s = "") as -> by (by intros []).
    assert (∀ s, slice_from 0 s = s) as -> by (intros s; unfold slice_from; rewrite Nat.sub_0_r; apply substring_all).
    change ("" +:+ ?x) with x. apply overlay_app. congruence.
  - unfold layout. rewrite <-!(app_assoc_str r0 PAD).
    assert (4096%nat = String.length (r0 +:+ PAD)) as -> by (by rewrite length_app_str, H0, length_pad).
    rewrite slice_prefix, slice_from_app. f_equal. apply overlay_app. congruence.
Qed.

(** What became of a slot: it is read as before, as what was written, or not
    at all. *)
Definition settled (before slot after : string) : Prop :=
  slot_body after = slot_body before ∨ slot_body after = slot_body slot ∨ slot_body after = None.

Lemma bad_head_keys_stored v : bad_head_keys (stored v) = bad_head_keys v.
Proof. destruct v as [| | | | | |m|]; try done. cbn [stored bad_head_keys]. change (sort_keys _) with (sort_members m). by rewrite same_keys_stored. Qed.
Lemma bad_hold_keys_stored v : value_ok v → bad_hold_keys (stored v) = bad_hold_keys v.
Proof.
  destruct v as [| | | | | |m|]; try done. intros Hm. cbn [stored bad_hold_keys]. change (sort_keys _) with (sort_members m).
  by rewrite same_keys_stored, get_stored, str_ok_stored.
Qed.
Lemma head_ok_stored v : value_ok v → head_ok (stored v) = head_ok v.
Proof.
  destruct v as [| | | | | |m|]; try done. intros Hm. cbn [stored head_ok]. change (sort_keys _) with (sort_members m).
  rewrite !get_stored by done. by rewrite !int_in_stored, hex64_stored.
Qed.
Lemma hold_ok_stored v : value_ok v → hold_ok (stored v) = hold_ok v.
Proof.
  destruct v as [| | | | | |m|]; try done. intros Hm. cbn [stored hold_ok]. change (sort_keys _) with (sort_members m).
  rewrite !get_stored by done. unfold _id_ok. rewrite validate_id_stored, is_none_stored, int_in_stored. by destruct (get m "code").
Qed.
Lemma dict_of_stored v k : value_ok v → get (dict_of (stored v)) k = stored (get (dict_of v) k).
Proof. destruct v as [| | | | | |m|]; try done. intros Hm. by apply (get_stored m). Qed.

Lemma slot_kind_sorted body : members_ok body → _slot_kind (sort_members body) = _slot_kind body.
Proof.
  intros Hm. pose proof (get_ok body "head" Hm). pose proof (get_ok body "hold" Hm). unfold _slot_kind, _uuid_ok.
  rewrite same_keys_stored, !get_stored by done.
  by rewrite is_text_stored, str_ok_stored, int_in_stored, bad_head_keys_stored, bad_hold_keys_stored, head_ok_stored, hold_ok_stored.
Qed.

Lemma state_sorted body : members_ok body → _anchor_state_from_body (sort_members body) = _anchor_state_from_body body.
Proof.
  intros Hm. pose proof (get_ok body "head" Hm). pose proof (get_ok body "hold" Hm) as Hh. unfold _anchor_state_from_body.
  rewrite !get_stored by done. rewrite !dict_of_stored, !text_of_stored, !int_of_stored by done. f_equal.
  destruct (get body "hold") as [| | | | | |m|]; try done. cbn [stored]. change (sort_keys _) with (sort_members m).
  rewrite !get_stored by done. rewrite !text_of_stored. by destruct (get m "observed_commit_seq").
Qed.

Lemma names_sorted body a : members_ok body → names body a → names (sort_members body) a.
Proof. intros Hm [Hk Ha]. split; [by rewrite slot_kind_sorted|by rewrite state_sorted]. Qed.

(** A write of the state that follows [a]. *)
Lemma write_settles file a body a' slot landed : anchored file a → members_ok body → names body a' → precedes a a' →
  _encode_slot body = Ret slot →
  let file' := pwrite landed slot (if an_counter a' mod 2 =? 0 then 0 else 4096) file in
  (∀ r0 r1, file = layout r0 r1 → is_slot r0 → is_slot r1 →
     settled (slot_of (an_counter a') r0 r1) slot (overlay landed 0 slot (slot_of (an_counter a') r0 r1))) →
  anchored file' a ∨ anchored file' a'.
Proof.
  intros (r0 & r1 & -> & Hs) Hm Hn Hp Hslot file' Hset. specialize (Hset r0 r1 eq_refl (as_r0 _ _ _ Hs) (as_r1 _ _ _ Hs)).
  destruct Hs as [L0 L1 Hcur Hother]. pose proof (encode_slot_length _ _ Hslot) as Ls.
  pose proof (encode_slot_body _ _ Hm Hslot) as Hbody. pose proof (names_sorted _ _ Hm Hn) as Hn'.
  subst file'. rewrite pwrite_layout by done. rewrite (pr_counter _ _ Hp) in *.
  set (c := an_counter a) in *. unfold slot_of in *.
  assert (∀ r, is_slot r → is_slot (overlay landed 0 slot r)) as Lo.
  { intros r Hr. unfold is_slot in *. rewrite overlay_length; congruence. }
  assert ((c + 1 + 1) mod 2 = c mod 2) as Hm2 by (Z.to_euclidean_division_equations; lia).
  destruct (mod2_next c) as [[Hm0 Hm1]|[Hm0 Hm1]]; rewrite Hm0, Hm1 in *; cbn [Z.eqb] in *;
    (destruct Hset as [Hset|[Hset|Hset]];
     [left; eexists _, _; split; [reflexivity|]; split; unfold slot_of; fold c; rewrite ?Hm0, ?Hm1; cbn [Z.eqb]; eauto; by rewrite Hset
     |right; eexists _, _; split; [reflexivity|];
      split; unfold slot_of; rewrite ?(pr_counter _ _ Hp); fold c; rewrite ?Hm1, ?Hm2; cbn [Z.eqb]; eauto;
      [by rewrite Hset, Hbody; eauto|]
     |left; eexists _, _; split; [reflexivity|]; split; unfold slot_of; fold c; rewrite ?Hm0, ?Hm1; cbn [Z.eqb]; eauto; by rewrite Hset]).
  all: intros old Hold; destruct Hcur as (cur & Hcur & Hncur); rewrite Hcur in Hold; injection Hold as <-; eauto.
Qed.

Lemma uuid_clean s : _uuid_ok (DStr s) = true → clean s ∧ str_len s = 36.
Proof.
  unfold _uuid_ok, str_ok. intros H. bool_simpl. split; [|done]. split; [|match goal with X : str_len s = 36 |- _ => by rewrite X end].
  match goal with X : uuid_chars _ _ = true |- _ => revert X end. generalize 0%nat as i. clear.
  induction s as [|c s IH]; intros i; [done|]. cbn [uuid_chars all_chars]. intros [Hc Hs]%andb_true_iff. rewrite (IH _ Hs), andb_true_r.
  destruct (decide _); [by apply bool_decide_eq_true in Hc as ->|]. by eapply char_in_all.
Qed.

Lemma id_clean s : _id_ok (DStr s) = true → clean s ∧ str_len s ≤ 128.
Proof.
  unfold _id_ok. cbn [validate_id]. unfold record_check. destruct (_ID_PATTERN s) eqn:E; [intros _|done].
  unfold _ID_PATTERN, id_pattern, MAX_ID_BYTES in E. bool_simpl. split; [|done].
  eapply (clean_class ID_CHARS _ 128); [vm_compute; reflexivity|done|done|vm_compute; discriminate].
Qed.

Lemma digest_clean s : _hex64_ok (DStr s) = true → clean s ∧ str_len s = 64.
Proof.
  unfold _hex64_ok, str_ok. intros H. bool_simpl. split; [|done].
  eapply (clean_class HEX_DIGITS _ 64); [vm_compute; reflexivity|done|lia|vm_compute; discriminate].
Qed.

Lemma hold_code_clean s : str_in s RECOVERY_HOLD_CODES = true → clean s ∧ str_len s ≤ 25.
Proof.
  intros H%str_in_spec. unfold RECOVERY_HOLD_CODES in H.
  repeat (apply elem_of_cons in H as [->|H]; [split; [lit_clean|vm_compute; discriminate]|]). by apply elem_of_nil in H.
Qed.

Lemma seq_encodable z lo hi : 0 ≤ lo → hi ≤ MAX_SAFE_INTEGER → _int_in (DInt z) lo hi = true → Z.abs z ≤ MAX_SAFE_INTEGER.
Proof. intros Hlo Hhi [_ H]%int_in_ret. cbn [int_of] in H. lia. Qed.

Lemma optional_seq_encodable (o : option Z) d : is_none (of_option DInt o) || _int_in (of_option DInt o) 0 MAX_SEQ = true →
  encodable d (to_json (of_option DInt o)).
Proof. destruct o as [z|]; [|done]. cbn [of_option is_none orb to_json encodable]. by apply seq_encodable. Qed.
Lemma optional_weight (o : option Z) : weight (to_json (of_option DInt o)) ≤ 17.
Proof. by destruct o. Qed.

Lemma encodable_dict d m : d ≤ MAX_JSON_DEPTH → Forall (λ kv, clean kv.1 ∧ encodable (d + 1) (to_json kv.2)) m → encodable d (to_json (DDict m)).
Proof.
  intros Hd H. cbn [to_json encodable]. rewrite foldr_and_Forall. split; [done|]. apply Forall_map. eapply Forall_impl; [exact H|].
  by intros kv [? ?].
Qed.
Ltac dict_encodable := apply encodable_dict; [vm_compute; discriminate|]; members; cbn [snd to_json encodable]; first [assumption|lit_clean].

Definition anchor_head_json (head : Head) : value :=
  DDict [("commit_seq", DInt (hd_commit_seq head)); ("event_seq", DInt (hd_event_seq head));
         ("generation", DInt (hd_generation head)); ("record_digest", DStr (hd_record_digest head))].
Definition anchor_hold_json (h : AnchorHold) : value :=
  DDict [("boot_id", DStr (ah_boot_id h)); ("code", DStr (ah_code h));
         ("observed_commit_seq", of_option DInt (ah_observed_commit_seq h))].

Lemma head_fits head : head_ok (anchor_head_json head) = true → encodable 2 (to_json (anchor_head_json head)) ∧ weight (to_json (anchor_head_json head)) ≤ 283.
Proof.
  intros H. assert (_int_in (DInt (hd_generation head)) 1 MAX_GENERATION && _int_in (DInt (hd_commit_seq head)) 1 MAX_SEQ &&
    _int_in (DInt (hd_event_seq head)) 1 MAX_SEQ && _hex64_ok (DStr (hd_record_digest head)) = true) as H' by exact H. clear H. bool_simpl.
  repeat match goal with X : _int_in (DInt _) _ _ = true |- _ => apply seq_encodable in X; [|done|vm_compute; discriminate] end.
  match goal with X : _hex64_ok _ = true |- _ => apply digest_clean in X as [Hd Ld] end.
  split; [dict_encodable|]. cbn [anchor_head_json to_json map weight foldr fst snd JsonRoundtrip.key_of]. rewrite Ld. vm_compute. discriminate.
Qed.

Lemma hold_fits h : hold_ok (anchor_hold_json h) = true → bad_hold_keys (anchor_hold_json h) = false →
  encodable 2 (to_json (anchor_hold_json h)) ∧ weight (to_json (anchor_hold_json h)) ≤ 401.
Proof.
  intros H Hk. assert (is_str (DStr (ah_code h)) && _id_ok (DStr (ah_boot_id h)) &&
    (is_none (of_option DInt (ah_observed_commit_seq h)) || _int_in (of_option DInt (ah_observed_commit_seq h)) 0 MAX_SEQ) = true) as H'
    by exact H. clear H. assert (negb (str_in (ah_code h) RECOVERY_HOLD_CODES) = false) as Hcode by exact (proj2 (proj1 (orb_false_iff _ _) Hk)).
  apply negb_false_iff, hold_code_clean in Hcode as [Hcode Lcode]. apply andb_true_iff in H' as [H' Hseq]. apply andb_true_iff in H' as [_ Hid].
  apply id_clean in Hid as [Hid Lid]. pose proof (optional_weight (ah_observed_commit_seq h)) as Hw.
  apply (optional_seq_encodable _ 3) in Hseq. split; [dict_encodable|].
  cbn [anchor_hold_json to_json map weight foldr fst snd JsonRoundtrip.key_of]. change (str_len "boot_id") with 7. change (str_len "code") with 4.
  change (str_len "observed_commit_seq") with 19. lia.
Qed.

(** What a reader takes. *)
Lemma anchor_body_fits c uuid head hold : _slot_kind (anchor_body_at c uuid head hold) = "v1" →
  encodable 1 (to_json (DDict (anchor_body_at c uuid head hold))) ∧
  weight (to_json (DDict (anchor_body_at c uuid head hold))) ≤ MAX_ANCHOR_BODY_BYTES.
Proof.
  unfold _slot_kind. destruct (_ || _ || _ || _) eqn:Ekeys; [done|]. destruct (_ && _ && _ && _) eqn:Eok; [intros _|done].
  apply orb_false_iff in Ekeys as [_ Hkeys]. apply andb_true_iff in Eok as [Eok Hhold]. apply andb_true_iff in Eok as [Eok Hhead].
  apply andb_true_iff in Eok as [Hc Huuid]. apply uuid_clean in Huuid as [Huuid Lu].
  apply (seq_encodable c) in Hc; [|done|vm_compute; discriminate]. apply (head_fits head) in Hhead as [Hhead Whead].
  change (get (anchor_body_at c uuid head hold) "journal_uuid") with (DStr uuid) in *.
  assert (encodable 2 (to_json (of_option anchor_hold_json hold)) ∧ weight (to_json (of_option anchor_hold_json hold)) ≤ 401) as [Hh Wh].
  { destruct hold as [h|]; [by apply hold_fits|split; [done|vm_compute; discriminate]]. }
  unfold anchor_body_at. change (DDict [("commit_seq", _); _; _; _]) with (anchor_head_json head).
  change (of_option (λ h, DDict _) hold) with (of_option anchor_hold_json hold). split.
  - dict_encodable.
  - cbn [to_json map fst snd].
    generalize dependent (to_json (anchor_head_json head)). intros jv Hv Wv. cbn [weight foldr fst snd JsonRoundtrip.key_of].
    change (str_len "counter") with 7. change (str_len "format") with 6. change (str_len "journal_uuid") with 12.
    change (str_len "head") with 4. change (str_len "hold") with 4. change (str_len ANCHOR_FORMAT) with 12. unfold MAX_ANCHOR_BODY_BYTES. lia.
Qed.

Lemma anchor_slot_encodes c uuid head hold : _slot_kind (anchor_body_at c uuid head hold) = "v1" →
  ∃ slot, _encode_slot (anchor_body_at c uuid head hold) = Ret slot.
Proof.
  intros H. destruct (anchor_body_fits c uuid head hold H) as [He Hw]. destruct (canonicalize_total true _ 1 He) as (b & Hb & Hl).
  unfold _encode_slot, encode, canonical_json. rewrite Hb. cbn [mbind outcome_bind].
  assert (1 ≤ str_len b) as Hpos.
  { cbn [to_json _canonicalize] in Hb. inv_do. injection Hb as <-. rewrite !str_len_app. change (str_len "{") with 1.
    unfold str_len. lia. }
  rewrite (proj2 (andb_true_iff _ _)) by (split; apply Z.leb_le; lia). cbn. by eexists.
Qed.
