(* ===== verification/JournalStore.v ===== *)
(** * The storage of the recovery journal (journal_store.py)

    [JournalStore] is the state of the class of that name, the disk included.
    What SQLite and the file system do is a stream [js_io]: each statement, each
    file operation takes the next of its answers, [Works] or [Breaks]: the
    operation raises, and of what it was writing those bytes are on the disk that
    [landed] tells (of a COMMIT, all or nothing: byte 0).  A [Fatal] is a
    [BaseException]; what it leaves on the disk is what a crash at that point
    leaves.  A transaction is the rows it sees, [js_txn]; only COMMIT makes them
    the rows of the table.

    What is only read when a store is opened, the answers of [stat], of the
    PRAGMAs and of the lock, is the record [Host].  [js_error] holds the
    attributes of the [sqlite3.Error] raised last.  [os.close] of the anchor's
    descriptor does not fail. *)

From S2P Require Import Prelude PyValue PyJson Sha256 CanonJson PyBytes JsonParse JournalValue JournalSource JournalRecords.
From S2P Require Import JournalClaims JournalSeal JournalState JournalAnchor.
Local Open Scope string_scope.
Local Open Scope Z_scope.
Local Open Scope list_scope.

Definition PAGE_SIZE : Z := 4096.
Definition MAX_PAGE_COUNT : Z := 40960.
Definition JOURNAL_SIZE_LIMIT : Z := 8 * 2 ^ 20.
Definition WAL_AUTOCHECKPOINT_PAGES : Z := 1000.
Definition APPLICATION_ID : Z := 0x524A4E4C.
Definition USER_VERSION : Z := 1.
Definition MIN_SQLITE_VERSION : Z * Z * Z := (3, 37, 0).
Definition WAL_TAG : string := "rj.wal.v1".

(** ** The disk and what may go wrong *)

(** A row of [journal_events]. *)
Record Row := { rw_event_seq : Z; rw_event_id : string; rw_event_type : string; rw_body : string; rw_record_digest : string }.
#[export] Instance row_eq_dec : EqDecision Row.
Proof. solve_decision. Defined.

(** The table in the order of [event_seq], and the anchor file. *)
Record Disk := mkDisk { dk_rows : list Row; dk_anchor : option string }.

Inductive fault := SqliteError (code name : pyval) | OSError | Fatal.
Inductive io := Works | Breaks (f : fault) (landed : nat → bool).

(** A write of an anchor slot: the file before it and after it.  The store does
    not read these; they let theorems speak of what an interrupted write left. *)
Record SlotWrite := { sw_slot : string; sw_counter : Z; sw_before : string; sw_after : string }.

Record JournalStore := mkStore {
  js_disk : Disk;
  js_io : nat → io;
  js_ios : nat;
  js_slots : list SlotWrite;
  js_error : pyval * pyval;
  js_connection : bool;
  js_txn : option (list Row);
  js_finding : option Finding;
  js_anchor : option AnchorState;
  js_wal_found : option WalFound;
  js_verified_head : option Head;
  js_held_slots : Z;
  js_broken : bool;
  js_closed : bool;
}.

Definition set_disk (v : Disk) (s : JournalStore) : JournalStore :=
  mkStore v (js_io s) (js_ios s) (js_slots s) (js_error s) (js_connection s) (js_txn s) (js_finding s) (js_anchor s) (js_wal_found s) (js_verified_head s) (js_held_slots s) (js_broken s) (js_closed s).
Definition set_ios (v : nat) (s : JournalStore) : JournalStore :=
  mkStore (js_disk s) (js_io s) v (js_slots s) (js_error s) (js_connection s) (js_txn s) (js_finding s) (js_anchor s) (js_wal_found s) (js_verified_head s) (js_held_slots s) (js_broken s) (js_closed s).
Definition set_slots (v : list SlotWrite) (s : JournalStore) : JournalStore :=
  mkStore (js_disk s) (js_io s) (js_ios s) v (js_error s) (js_connection s) (js_txn s) (js_finding s) (js_anchor s) (js_wal_found s) (js_verified_head s) (js_held_slots s) (js_broken s) (js_closed s).
Definition set_error (v : pyval * pyval) (s : JournalStore) : JournalStore :=
  mkStore (js_disk s) (js_io s) (js_ios s) (js_slots s) v (js_connection s) (js_txn s) (js_finding s) (js_anchor s) (js_wal_found s) (js_verified_head s) (js_held_slots s) (js_broken s) (js_closed s).
Definition set_connection (v : bool) (s : JournalStore) : JournalStore :=
  mkStore (js_disk s) (js_io s) (js_ios s) (js_slots s) (js_error s) v (js_txn s) (js_finding s) (js_anchor s) (js_wal_found s) (js_verified_head s) (js_held_slots s) (js_broken s) (js_closed s).
Definition set_txn (v : option (list Row)) (s : JournalStore) : JournalStore :=
  mkStore (js_disk s) (js_io s) (js_ios s) (js_slots s) (js_error s) (js_connection s) v (js_finding s) (js_anchor s) (js_wal_found s) (js_verified_head s) (js_held_slots s) (js_broken s) (js_closed s).
Definition set_finding (v : option Finding) (s : JournalStore) : JournalStore :=
  mkStore (js_disk s) (js_io s) (js_ios s) (js_slots s) (js_error s) (js_connection s) (js_txn s) v (js_anchor s) (js_wal_found s) (js_verified_head s) (js_held_slots s) (js_broken s) (js_closed s).
Definition set_anchor (v : option AnchorState) (s : JournalStore) : JournalStore :=
  mkStore (js_disk s) (js_io s) (js_ios s) (js_slots s) (js_error s) (js_connection s) (js_txn s) (js_finding s) v (js_wal_found s) (js_verified_head s) (js_held_slots s) (js_broken s) (js_closed s).
Definition set_wal_found (v : option WalFound) (s : JournalStore) : JournalStore :=
  mkStore (js_disk s) (js_io s) (js_ios s) (js_slots s) (js_error s) (js_connection s) (js_txn s) (js_finding s) (js_anchor s) v (js_verified_head s) (js_held_slots s) (js_broken s) (js_closed s).
Definition set_verified_head (v : option Head) (s : JournalStore) : JournalStore :=
  mkStore (js_disk s) (js_io s) (js_ios s) (js_slots s) (js_error s) (js_connection s) (js_txn s) (js_finding s) (js_anchor s) (js_wal_found s) v (js_held_slots s) (js_broken s) (js_closed s).
Definition set_held_slots (v : Z) (s : JournalStore) : JournalStore :=
  mkStore (js_disk s) (js_io s) (js_ios s) (js_slots s) (js_error s) (js_connection s) (js_txn s) (js_finding s) (js_anchor s) (js_wal_found s) (js_verified_head s) v (js_broken s) (js_closed s).
Definition set_broken (v : bool) (s : JournalStore) : JournalStore :=
  mkStore (js_disk s) (js_io s) (js_ios s) (js_slots s) (js_error s) (js_connection s) (js_txn s) (js_finding s) (js_anchor s) (js_wal_found s) (js_verified_head s) (js_held_slots s) v (js_closed s).
Definition set_closed (v : bool) (s : JournalStore) : JournalStore :=
  mkStore (js_disk s) (js_io s) (js_ios s) (js_slots s) (js_error s) (js_connection s) (js_txn s) (js_finding s) (js_anchor s) (js_wal_found s) (js_verified_head s) (js_held_slots s) (js_broken s) v.

Notation journal_st := (st JournalStore).

(** ** Errors *)
Definition SQLITE_ERROR : string := "sqlite3.Error".
Definition OS_ERROR : string := "OSError".
Definition fault_exn (f : fault) : exn :=
  match f with SqliteError _ _ => Exn SQLITE_ERROR "" | OSError => Exn OS_ERROR "" | Fatal => Exn "BaseException" "" end.

(** [try: ... except classes: ...], with what the body returned. *)
Definition catching {S A} (classes : list string) (m : st S A) : st S (option A) :=
  o ← attempt m;
  match o with
  | Ret a => mret (Some a)
  | Raise e => if str_in (exn_class e) classes then mret None else raise e
  end.
(** The same for a pure call. *)
Definition caught_in {A} (classes : list string) (o : outcome A) : outcome (option A) :=
  match o with
  | Ret a => Ret (Some a)
  | Raise e => if str_in (exn_class e) classes then Ret None else Raise e
  end.

Definition RECOVERY_SQLITE_PRIMARY : list Z := [11; 26].

Definition classify_sqlite_error (code name : pyval) : Finding :=
  let sqlite_error := match name with VStr s => Some s | _ => None end in
  match code with
  | VInt raw_code =>
      if bool_decide (Z.land raw_code 0xFF ∈ RECOVERY_SQLITE_PRIMARY)
      then {| fi_code := "journal_corrupt"; fi_scope := "recovery"; fi_sqlite_error := sqlite_error |}
      else {| fi_code := "journal_open_failed"; fi_scope := "process"; fi_sqlite_error := sqlite_error |}
  | _ => {| fi_code := "journal_open_failed"; fi_scope := "process"; fi_sqlite_error := sqlite_error |}
  end.

(** ** Operations on the database and the files *)
Definition take_io : journal_st io := λ s, (Ret (js_io s (js_ios s)), set_ios (S (js_ios s)) s).

(** One operation: [effect] is what it does to the disk when the bytes that
    [landed] tells are written. *)
Definition operate (effect : (nat → bool) → JournalStore → JournalStore) : journal_st unit :=
  answer ← take_io;
  match answer with
  | Works => modify (effect (λ _, true))
  | Breaks f landed =>
      modify (effect landed);;
      match f with SqliteError code name => modify (set_error (code, name)) | _ => mret tt end;;
      raise (fault_exn f)
  end.
(** An operation that reads, or whose effect is not part of the model. *)
Definition touch : journal_st unit := operate (λ _ s, s).

(** [_sqlite_step]: a [sqlite3.Error] becomes a finding. *)
Definition _sqlite_step {A} (value : A) : journal_st (A + Finding) :=
  done ← catching [SQLITE_ERROR] touch;
  match done with
  | Some _ => mret (inl value)
  | None => error ← gets js_error; mret (inr (classify_sqlite_error error.1 error.2))
  end.

(** *** SQL *)

(** The CHECKs, the uniqueness constraints and the trigger of [SCHEMA_SQL]. *)
Definition insert_ok (rows : list Row) (row : Row) : bool :=
  (1 <=? rw_event_seq row) &&
  (1 <=? str_len (rw_event_id row)) && (str_len (rw_event_id row) <=? 128) &&
  (1 <=? str_len (rw_event_type row)) && (str_len (rw_event_type row) <=? 64) &&
  (2 <=? str_len (rw_body row)) && (str_len (rw_body row) <=? 16384) &&
  (str_len (rw_record_digest row) =? 64) &&
  forallb (λ r, negb (bool_decide (rw_event_id r = rw_event_id row)) &&
                negb (bool_decide (rw_record_digest r = rw_record_digest row))) rows &&
  (rw_event_seq row =? foldr (λ r m, Z.max (rw_event_seq r) m) 0 rows + 1).

Definition begin_immediate : journal_st unit :=
  touch;; modify (λ s, set_txn (Some (dk_rows (js_disk s))) s).
(** Outside a transaction this would commit at once; the code is always inside. *)
Definition insert_row (row : Row) : journal_st unit :=
  touch;;
  rows ← gets (λ s, default [] (js_txn s));
  if insert_ok rows row then modify (set_txn (Some (rows ++ [row])))
  else modify (set_error (VInt 19, VStr "SQLITE_CONSTRAINT"));; raise (Exn SQLITE_ERROR "").
Definition commit_rows (landed : nat → bool) (s : JournalStore) : JournalStore :=
  if landed 0%nat
  then set_txn None (set_disk (mkDisk (default (dk_rows (js_disk s)) (js_txn s)) (dk_anchor (js_disk s))) s)
  else s.
Definition sql_commit : journal_st unit := operate commit_rows.

(** *** Files *)
Definition set_anchor_file (file : option string) (s : JournalStore) : JournalStore :=
  set_disk (mkDisk (dk_rows (js_disk s)) file) s.
Definition _sync_path : journal_st unit := touch.

(** ** What is found when a store is opened *)
Record Stat := { st_mode : Z; st_uid : Z; st_nlink : Z; st_size : Z }.
Definition S_IFMT (mode : Z) : Z := Z.land mode 0xF000.
Definition S_ISLNK (mode : Z) : bool := S_IFMT mode =? 0xA000.
Definition S_ISDIR (mode : Z) : bool := S_IFMT mode =? 0x4000.
Definition S_ISREG (mode : Z) : bool := S_IFMT mode =? 0x8000.

Record Host := {
  h_setconfig : bool;                          (* Python has setconfig and the flag *)
  h_sqlite_version : Z * Z * Z;
  h_sync_primitive : bool;                     (* F_FULLFSYNC or Linux *)
  h_directory : option string;                 (* str(directory), of a Path *)
  h_euid : Z;
  h_dir_stat : outcome (option Stat);          (* lstat: None is FileNotFoundError *)
  h_before_lock : string → outcome (option Stat);
  h_lock_open : bool;
  h_lock_stat : outcome Stat;
  h_flock : option bool;                       (* None: taken; Some true: EWOULDBLOCK *)
  h_stat : string → outcome (option Stat);     (* under the lock *)
  h_wal : option string;                       (* the bytes of the WAL file *)
  h_no_ckpt : bool;                            (* getconfig is True *)
  h_main_is_db : bool;                         (* database_list is the one path *)
  h_set_pragma : string → string → pyval;      (* the value read back after [PRAGMA name=value] *)
  h_pragma : string → pyval;                   (* the value of [PRAGMA name] *)
  h_schema_rows : list (list string);
  h_reference_rows : list (list string);       (* of SCHEMA_SQL in memory *)
  h_integrity : list string;
}.

Definition DB_FILENAME : string := "journal.sqlite3".
Definition WAL_FILENAME : string := "journal.sqlite3-wal".
Definition ANCHOR_FILENAME : string := "anchor".

Definition version_le (a b : Z * Z * Z) : bool :=
  let '(a1, a2, a3) := a in
  let '(b1, b2, b3) := b in
  (a1 <? b1) || (a1 =? b1) && ((a2 <? b2) || (a2 =? b2) && (a3 <=? b3)).
Definition no_ckpt_supported (h : Host) : bool := h_setconfig h.
Definition _capability_ok (h : Host) : bool := no_ckpt_supported h && version_le MIN_SQLITE_VERSION (h_sqlite_version h).

Definition _check_stat (h : Host) (stat_result : Stat) (is_dir : bool) : outcome unit :=
  let mode := st_mode stat_result in
  check_that (negb (S_ISLNK mode) && (if is_dir then S_ISDIR mode else S_ISREG mode)) (StoreError "journal_path_invalid");;
  check_that ((st_uid stat_result =? h_euid h) && (Z.land mode 63 =? 0)) (StoreError "journal_permissions");;
  check_that (is_dir || (st_nlink stat_result =? 1)) (StoreError "journal_permissions").

Definition _URI_RESERVED : list ascii := ["?"; "#"; "%"]%char.
Definition _check_directory (h : Host) (directory : string) : outcome unit :=
  check_that (all_chars (λ c, negb (bool_decide (c ∈ _URI_RESERVED))) directory) (StoreError "journal_path_invalid");;
  found ← caught_in [OS_ERROR] (h_dir_stat h);
  match found with
  | Some (Some stat_result) => _check_stat h stat_result true
  | _ => Raise (StoreError "journal_path_invalid")
  end.

Definition _take_lock (h : Host) : outcome unit :=
  check_that (h_lock_open h) (StoreError "journal_path_invalid");;
  found ← caught_in [OS_ERROR] (h_lock_stat h);
  match found with
  | None => Raise (StoreError "journal_path_invalid")
  | Some stat_result =>
      _check_stat h stat_result false;;
      match h_flock h with
      | None => Ret tt
      | Some locked => Raise (StoreError (if locked : bool then "journal_locked" else "journal_path_invalid"))
      end
  end.

(** Before the lock an unreadable path counts as present. *)
Definition _maybe_present (h : Host) (name : string) : bool :=
  match h_before_lock h name with
  | Ret found => some_b found
  | Raise e => bool_decide (exn_class e = OS_ERROR)
  end.

(** *** Connection settings *)
Definition _set_pragma (h : Host) (name value : string) (expected : pyval) : journal_st unit :=
  touch;; touch;;
  require (bool_decide (h_set_pragma h name value = expected)) (StoreError "sqlite_unsupported").

Definition _SETTINGS : list (string * string * Z) :=
  [("synchronous", "FULL", 2); ("fullfsync", "ON", 1); ("checkpoint_fullfsync", "ON", 1); ("trusted_schema", "OFF", 0);
   ("cell_size_check", "ON", 1); ("max_page_count", "40960", MAX_PAGE_COUNT);
   ("journal_size_limit", "8388608", JOURNAL_SIZE_LIMIT);
   ("wal_autocheckpoint", "1000", WAL_AUTOCHECKPOINT_PAGES)].
Definition _apply_connection_settings (h : Host) : journal_st unit :=
  touch;;
  require (bool_decide (h_set_pragma h "locking_mode" "EXCLUSIVE" = VStr "exclusive")) (StoreError "sqlite_unsupported");;
  for_each _SETTINGS (λ '(name, value, expected), _set_pragma h name value (VInt expected)).

Definition _configure_for_create (h : Host) : journal_st unit :=
  _set_pragma h "page_size" "4096" (VInt PAGE_SIZE);;
  touch;;
  require (bool_decide (h_set_pragma h "journal_mode" "WAL" = VStr "wal")) (StoreError "sqlite_unsupported").

Definition _connect (h : Host) : journal_st unit :=
  touch;; modify (set_connection true);;
  touch;;
  require (h_no_ckpt h) (StoreError "sqlite_unsupported");;
  touch;;
  require (h_main_is_db h) (StoreError "journal_path_invalid").

Definition _presentation_finding (h : Host) : journal_st (option Finding) :=
  touch;; touch;; touch;; touch;;
  let user_version := h_pragma h "user_version" in
  if bool_decide (h_schema_rows h = []) && bool_decide (h_pragma h "application_id" = VInt 0) && bool_decide (user_version = VInt 0)
  then mret (Some (_recovery "journal_truncated"))
  else if negb (bool_decide (h_pragma h "application_id" = VInt APPLICATION_ID))
  then mret (Some (_recovery "journal_identity_mismatch"))
  else if match user_version with VInt v => USER_VERSION <? v | _ => false end
  then mret (Some (_process "journal_schema_unsupported"))
  else if negb (bool_decide (user_version = VInt USER_VERSION)) || negb (bool_decide (h_schema_rows h = h_reference_rows h)) ||
          negb (bool_decide (h_pragma h "journal_mode" = VStr "wal"))
  then mret (Some (_recovery "journal_schema_invalid"))
  else touch;; mret (if bool_decide (h_integrity h = ["ok"]) then None else Some (_recovery "journal_corrupt")).

(** ** Rows *)
#[export] Instance position_eq_dec : EqDecision Position.
Proof. solve_decision. Defined.
#[export] Instance stamp_eq_dec : EqDecision Stamp.
Proof. solve_decision. Defined.

(** [==] of two [Record]s. *)
Definition record_eq (a b : JournalRecord) : bool :=
  bool_decide (position a = position b) && bool_decide (stamp a = stamp b) && bool_decide (event_id a = event_id b) &&
  bool_decide (event_type a = event_type b) && (schema_version a =? schema_version b) && bool_decide (actor a = actor b) &&
  py_eq (DDict (ids a)) (DDict (ids b)) && py_eq (DDict (data a)) (DDict (data b)) && bool_decide (body a = body b) &&
  bool_decide (record_digest a = record_digest b).

Definition _record_head (r : JournalRecord) : Head :=
  {| hd_generation := journal_generation (position r); hd_commit_seq := commit_seq (position r);
     hd_event_seq := event_seq (position r); hd_record_digest := record_digest r |}.

Definition _row_params (r : JournalRecord) : Row :=
  {| rw_event_seq := event_seq (position r); rw_event_id := event_id r; rw_event_type := event_type r; rw_body := body r;
     rw_record_digest := record_digest r |}.

Definition DECODE_ERRORS : list string := ["RecordError"; "SourceError"].

(** [all(open_record(record.body) == record for record in records)]. *)
Fixpoint all_agree (records : list JournalRecord) : outcome bool :=
  match records with
  | [] => Ret true
  | r :: records => opened ← open_record (body r); if record_eq opened r then all_agree records else Ret false
  end.
Definition _checked_records (records : list JournalRecord) : outcome (list JournalRecord) :=
  agree ← match records with [] => Ret (Some false) | _ => caught_in DECODE_ERRORS (all_agree records) end;
  check_that (default false agree) (StoreError "journal_argument");;
  Ret records.

(** ** Verifying one row *)
Definition _chain_finding (envelope : members) (event_seq0 : Z) (previous : option JournalRecord) : option Finding :=
  match get envelope "event_seq", get envelope "prev_record_digest" with
  | DInt body_seq, DStr prev_digest =>
      if negb (_hex64_ok (DStr prev_digest)) then Some (_process "journal_schema_unsupported") else
      let expected_prev := match previous with Some r => record_digest r | None => ZERO_DIGEST end in
      let expected_seq := match previous with Some r => event_seq (position r) + 1 | None => 1 end in
      if negb (body_seq =? event_seq0) || negb (body_seq =? expected_seq) || negb (bool_decide (prev_digest = expected_prev))
      then Some (_recovery "journal_chain_broken") else None
  | _, _ => Some (_process "journal_schema_unsupported")
  end.

Definition _column_finding (envelope : members) (event_id0 event_type0 : string) (seen_ids : list string) : option Finding :=
  match get envelope "event_id", get envelope "event_type" with
  | DStr body_id, DStr body_type =>
      if negb (bool_decide (body_id = event_id0)) || negb (bool_decide (body_type = event_type0))
      then Some (_recovery "journal_record_invalid")
      else if str_in event_id0 seen_ids then Some (_recovery "journal_event_conflict") else None
  | _, _ => Some (_process "journal_schema_unsupported")
  end.

Definition record_or_finding : Type := JournalRecord + Finding.

(** Digest, parse, chain, columns, typed decode. *)
Definition _verify_row (row : Row) (previous : option JournalRecord) (seen_ids : list string) : outcome record_or_finding :=
  match verify_body (rw_body row) (rw_record_digest row) with
  | Raise e =>
      if negb (bool_decide (exn_class e = "RecordError")) then Raise e
      else if bool_decide (exn_code e = "record_digest") then Ret (inr (_recovery "journal_record_invalid"))
      else Ret (inr (_process "journal_schema_unsupported"))
  | Ret (DDict envelope) =>
      match _chain_finding envelope (rw_event_seq row) previous with
      | Some finding => Ret (inr finding)
      | None =>
          match _column_finding envelope (rw_event_id row) (rw_event_type row) seen_ids with
          | Some finding => Ret (inr finding)
          | None =>
              decoded ← caught_in DECODE_ERRORS (decode_record (DDict envelope) (rw_body row) (rw_record_digest row));
              Ret (match decoded with Some r => inl r | None => inr (_process "journal_schema_unsupported") end)
          end
      end
  | Ret _ => Ret (inr (_process "journal_schema_unsupported"))
  end.

(** *** The generator [rows]

    [consume] is what its caller does with each record it yields.  What
    [consume] raises leaves the generator where it is: no finding is set. *)
Section rows.
Context {A : Type} (consume : A → JournalRecord → outcome A).

Fixpoint rows_loop (stored : list Row) (previous : option JournalRecord) (seen_ids : list string) (acc : A) : journal_st A :=
  fetched ← _sqlite_step stored;
  match fetched, stored with
  | inr finding, _ => modify (set_finding (Some finding));; mret acc
  | inl _, [] => modify (set_finding None);; mret acc
  | inl _, row :: stored =>
      verified ← lift_outcome (_verify_row row previous seen_ids);
      match verified with
      | inr finding => modify (set_finding (Some finding));; mret acc
      | inl r =>
          acc ← lift_outcome (consume acc r);
          (if commit_index (position r) =? commit_size (position r) - 1
           then modify (set_verified_head (Some (_record_head r))) else mret tt);;
          rows_loop stored (Some r) (event_id r :: seen_ids) acc
      end
  end.

Definition rows (acc : A) : journal_st A :=
  connected ← gets js_connection;
  found ← gets js_finding;
  if negb connected || some_b found then mret acc else
  executed ← _sqlite_step tt;
  match executed with
  | inr finding => modify (set_finding (Some finding));; mret acc
  | inl _ => stored ← gets (λ s, dk_rows (js_disk s)); rows_loop stored None [] acc
  end.
End rows.

(** ** Write discipline *)
Definition writable (s : JournalStore) : bool :=
  negb (some_b (js_finding s)) && match js_anchor s with Some a => negb (some_b (an_hold a)) | None => false end &&
  js_connection s && negb (js_broken s) && negb (js_closed s).
Definition _check_writable : journal_st unit := ok ← gets writable; require ok (StoreError "store_write_failed").

Definition _rollback : journal_st unit :=
  connected ← gets js_connection;
  txn ← gets js_txn;
  if negb connected || negb (some_b txn) then mret tt
  else catching [SQLITE_ERROR] (touch;; modify (set_txn None));; mret tt.

Definition _guarded_write (write : journal_st unit) : journal_st unit :=
  o ← attempt write;
  match o with
  | Ret _ => mret tt
  | Raise e =>
      modify (set_broken true);;
      _rollback;;
      raise (if str_in (exn_class e) [SQLITE_ERROR; OS_ERROR; "StoreError"] then StoreError "store_write_failed" else e)
  end.

Definition _commit_sql (records : list JournalRecord) : journal_st unit :=
  begin_immediate;;
  for_each records (λ r, insert_row (_row_params r));;
  sql_commit.

(** [os.pwrite] and the sync that follows it: before the sync returns any part
    of the bytes may be on the disk. *)
Definition write_through (effect : (nat → bool) → JournalStore → JournalStore) : journal_st unit :=
  before ← gets js_ios;
  answer ← gets (λ s, js_io s before);
  match answer with
  | Works => take_io;; operate effect
  | Breaks _ _ => operate effect
  end.

Definition slot_offset (counter : Z) : nat := if counter mod 2 =? 0 then 0%nat else 4096%nat.
Definition write_slot_bytes (slot : string) (counter : Z) (landed : nat → bool) (s : JournalStore) : JournalStore :=
  match dk_anchor (js_disk s) with
  | Some file =>
      let after := pwrite landed slot (slot_offset counter) file in
      set_slots ({| sw_slot := slot; sw_counter := counter; sw_before := file; sw_after := after |} :: js_slots s)
        (set_anchor_file (Some after) s)
  | None => s
  end.

Definition held (s : JournalStore) : bool := match js_anchor s with Some a => some_b (an_hold a) | None => false end.
Definition hold_bit (b : bool) : Z := if b then 1 else 0.

Definition _write_slot (body : members) : journal_st unit :=
  previous ← gets js_anchor;
  held_before ← gets held;
  require (negb (held_before && is_none (get body "hold"))) (StoreError "store_write_failed");;
  let counter := match previous with Some a => an_counter a | None => 0 end + 1 in
  let body := dict_set body "counter" (DInt counter) in
  require (bool_decide (_slot_kind body = "v1") &&
    match previous with
    | Some a => (hd_commit_seq (an_head a) <=? head_number body "commit_seq") && (hd_event_seq (an_head a) <=? head_number body "event_seq")
    | None => true
    end) (StoreError "store_write_failed");;
  slot ← lift_outcome (_encode_slot body);
  touch;;
  file ← gets (λ s, dk_anchor (js_disk s));
  require (some_b file) (Exn OS_ERROR "");;
  write_through (write_slot_bytes slot counter);;
  modify (set_anchor (Some (_anchor_state_from_body body)));;
  modify (set_held_slots (hold_bit held_before + hold_bit (negb (is_none (get body "hold"))))).

(** ** Public operations *)
Definition finish_open (h : Host) : journal_st unit :=
  _check_writable;;
  _guarded_write (_set_pragma h "query_only" "OFF" (VInt 0)).

Definition write_anchor (head : Head) : journal_st unit :=
  _check_writable;;
  uuid ← gets (λ s, from_option an_journal_uuid "" (js_anchor s));
  _guarded_write (_write_slot (_anchor_body uuid head None)).

(** Write the hold into both slots; [False] when both already carry it. *)
Definition persist_hold (code boot : string) : journal_st bool :=
  stopped ← gets (λ s, js_closed s || js_broken s);
  require (negb stopped) (StoreError "store_write_failed");;
  state ← gets js_anchor;
  require (str_in code RECOVERY_HOLD_CODES && _id_ok (DStr boot)) (StoreError "journal_argument");;
  match state with
  | None => raise (StoreError "journal_argument")
  | Some a =>
      let write (hold : AnchorHold) (count : nat) : journal_st bool :=
        let body := _anchor_body (an_journal_uuid a) (an_head a) (Some hold) in
        _guarded_write (for_each (repeat body count) _write_slot);; mret true in
      match an_hold a with
      | Some hold =>
          require (bool_decide (ah_code hold = code)) (StoreError "journal_argument");;
          slots ← gets js_held_slots;
          if slots =? 2 then mret false else write hold 1%nat
      | None =>
          head ← gets js_verified_head;
          write {| ah_code := code; ah_boot_id := boot; ah_observed_commit_seq := hd_commit_seq <$> head |} 2%nat
      end
  end.

(** Whether the stored rows are exactly one whole commit with the content of
    [records], in order. *)
Fixpoint same_content (index first_seq commit_seq0 size : Z) (stored : list Row) (old new : list JournalRecord) : outcome bool :=
  match stored, old, new with
  | row :: stored, o :: old, n :: new =>
      if negb (rw_event_seq row =? first_seq + index) || negb (bool_decide (rw_event_id row = event_id n)) ||
         negb (commit_seq (position o) =? commit_seq0) || negb (commit_index (position o) =? index) ||
         negb (commit_size (position o) =? size)
      then Ret false
      else
        d ← content_digest o;
        d' ← content_digest n;
        if bool_decide (d = d') then same_content (index + 1) first_seq commit_seq0 size stored old new else Ret false
  | _, _, _ => Ret true
  end.
Definition _same_commit (stored : list Row) (old new : list JournalRecord) : outcome bool :=
  if negb (Nat.eqb (length stored) (length new)) then Ret false else
  match stored, old with
  | row :: _, o :: _ =>
      same_content 0 (rw_event_seq row) (commit_seq (position o)) (Z.of_nat (length new)) stored old new
  | _, _ => Raise (Exn "IndexError" "")
  end.

Definition find_duplicate (records : list JournalRecord) : journal_st (option (list Z)) :=
  _check_writable;;
  records ← lift_outcome (_checked_records records);
  selected ← catching [SQLITE_ERROR] touch;
  match selected with
  | None => modify (set_broken true);; raise (StoreError "store_write_failed")
  | Some _ =>
      stored ← gets (λ s, List.filter (λ row, str_in (rw_event_id row) (map event_id records)) (dk_rows (js_disk s)));
      match stored with
      | [] => mret None
      | _ =>
          opened ← lift_outcome (caught_in DECODE_ERRORS (seq_outcomes (map (λ row, open_record (rw_body row)) stored)));
          same ← match opened with
                 | Some old => lift_outcome (_same_commit stored old records)
                 | None => mret false
                 end;
          require same (StoreError "store_event_conflict");;
          mret (Some (map rw_event_seq stored))
      end
  end.

Definition append (records : list JournalRecord) (sync_directory : bool) : journal_st (list Z) :=
  _check_writable;;
  records ← lift_outcome (_checked_records records);
  uuid ← gets (λ s, from_option an_journal_uuid "" (js_anchor s));
  _guarded_write (
    _commit_sql records;;
    (if sync_directory then _sync_path else mret tt);;
    match last records with
    | Some r => _write_slot (_anchor_body uuid (_record_head r) None)
    | None => raise (Exn "IndexError" "")
    end);;
  mret (map (λ r, event_seq (position r)) records).

Definition close : journal_st unit :=
  closed ← gets js_closed;
  if closed : bool then mret tt else
  modify (set_closed true);;
  connected ← gets js_connection;
  (if connected : bool then catching [SQLITE_ERROR] touch;; mret tt else mret tt);;
  catching [OS_ERROR] touch;;
  touch.

(** ** Creating and opening *)
Definition new_store (disk : Disk) (answers : nat → io) (taken : nat) : JournalStore :=
  mkStore disk answers taken [] (VNone, VNone) false None None None None None 0 false false.

(** [_locked]: any exit but a clean one closes the store again. *)
Definition _locked {A} (step : journal_st A) : journal_st A :=
  o ← attempt step;
  match o with
  | Ret a => mret a
  | Raise e => close;; raise e
  end.

Definition SCHEMA_STATEMENTS : nat := 4.

(** [any(_lstat(path) is not None for path in paths)]. *)
Fixpoint any_present (h : Host) (names : list string) : outcome bool :=
  match names with
  | [] => Ret false
  | name :: names => found ← h_stat h name; if some_b found then Ret true else any_present h names
  end.

Definition _create_files (h : Host) (genesis : JournalRecord) (journal_uuid : string) : journal_st unit :=
  let create : journal_st unit :=
    found ← lift_outcome (any_present h [DB_FILENAME; WAL_FILENAME; ANCHOR_FILENAME]);
    require (negb found) (StoreError "journal_exists");;
    touch in
  let fill : journal_st unit :=
    _connect h;;
    _apply_connection_settings h;;
    _configure_for_create h;;
    begin_immediate;;
    touch;; touch;;
    for_each (repeat tt SCHEMA_STATEMENTS) (λ _, touch);;
    insert_row (_row_params genesis);;
    sql_commit;;
    _sync_path;;
    operate (λ landed s, if landed 0%nat then set_anchor_file (Some "") s else s);;
    operate (λ landed s, if landed 0%nat then set_anchor_file (Some (zero_bytes (Z.to_nat ANCHOR_BYTES))) s else s);;
    _write_slot (_anchor_body journal_uuid (_record_head genesis) None);;
    _sync_path in
  created ← attempt create;
  filled ← match created with Ret _ => attempt fill | Raise e => mret (Raise e) end;
  match filled with
  | Raise e =>
      raise (if bool_decide (exn_class e = "StoreError") then e
             else if bool_decide (exn_class e = "BaseException") then e
             else StoreError (if returned created then "journal_create_failed" else "journal_path_invalid"))
  | Ret _ => modify (set_verified_head (Some (_record_head genesis)))
  end.

(** [JournalStore.create]; the result is the store's state. *)
Definition create (h : Host) (genesis : JournalRecord) (journal_uuid : string) : journal_st unit :=
  require (_capability_ok h) (StoreError "sqlite_unsupported");;
  match h_directory h with
  | None => raise (StoreError "journal_argument")
  | Some directory =>
      require (_uuid_ok (DStr journal_uuid)) (StoreError "journal_argument");;
      lift_outcome (_checked_records [genesis]);;
      require (bool_decide (event_type genesis = "journal_genesis") &&
               bool_decide (get (data genesis) "journal_uuid" = DStr journal_uuid)) (StoreError "journal_argument");;
      require (h_sync_primitive h) (StoreError "journal_sync_unsupported");;
      lift_outcome (_check_directory h directory);;
      lift_outcome (_take_lock h);;
      _locked (_create_files h genesis journal_uuid)
  end.

Definition _read_anchor : journal_st unit :=
  touch;;
  file ← gets (λ s, dk_anchor (js_disk s));
  match file with
  | None => modify (set_finding (Some (_recovery "journal_anchor_missing")))
  | Some file =>
      touch;;
      (* at most one byte more than an anchor has *)
      let raw := slice 0 (Z.to_nat (ANCHOR_BYTES + 1)) file in
      let '(state, found) := _analyze_anchor raw in
      modify (set_anchor state);;
      modify (set_finding found);;
      if some_b state then modify (set_held_slots (_held_slot_count raw)) else mret tt
  end.

(** Size and tagged digest of the WAL as found. *)
Definition _wal_found (h : Host) : journal_st (option WalFound) :=
  touch;;
  match h_wal h with
  | None => mret None
  | Some bytes => touch;; mret (Some {| wal_size := str_len bytes; wal_digest := sha256_hex (WAL_TAG +:+ nul +:+ bytes) |})
  end.

(** True when a verified genesis row names another journal. *)
Definition genesis_uuid_conflicts (stored : list Row) (anchor_journal_uuid : string) : outcome bool :=
  match List.find (λ row, rw_event_seq row =? 1) stored with
  | None => Ret false
  | Some row =>
      if negb (bool_decide (rw_event_type row = "journal_genesis")) then Ret false else
      genesis ← caught_in DECODE_ERRORS (
        envelope ← verify_body (rw_body row) (rw_record_digest row);
        decode_record envelope (rw_body row) (rw_record_digest row));
      Ret (match genesis with
           | Some r => negb (bool_decide (get (data r) "journal_uuid" = DStr anchor_journal_uuid))
           | None => false
           end)
  end.
Definition _genesis_uuid_conflicts (anchor_journal_uuid : string) : journal_st bool :=
  touch;;
  stored ← gets (λ s, dk_rows (js_disk s));
  lift_outcome (genesis_uuid_conflicts stored anchor_journal_uuid).

Definition set_found (code : string) : journal_st unit := modify (set_finding (Some (_recovery code))).

(** Every open check up to the row scan; stops at the first finding. *)
Definition _verify_open (h : Host) : journal_st unit :=
  db_stat ← lift_outcome (h_stat h DB_FILENAME);
  wal_stat ← lift_outcome (h_stat h WAL_FILENAME);
  anchor_stat ← lift_outcome (h_stat h ANCHOR_FILENAME);
  for_each (omap id [db_stat; wal_stat; anchor_stat]) (λ stat_result, lift_outcome (_check_stat h stat_result false));;
  _read_anchor;;
  found ← gets js_finding;
  state ← gets js_anchor;
  match found, state with
  | None, Some a =>
      match an_hold a with
      | Some hold => set_found (ah_code hold)
      | None =>
          if match db_stat with Some stat_result => st_size stat_result <? PAGE_SIZE | None => true end
          then set_found "journal_truncated"
          else
            wal ← _wal_found h;
            modify (set_wal_found wal);;
            _connect h;;
            _apply_connection_settings h;;
            _set_pragma h "query_only" "ON" (VInt 1);;
            presented ← _presentation_finding h;
            modify (set_finding presented);;
            if some_b presented then mret tt else
            conflicts ← _genesis_uuid_conflicts (an_journal_uuid a);
            if conflicts : bool then set_found "journal_identity_mismatch" else mret tt
      end
  | _, _ => mret tt
  end.

Definition _open_steps (h : Host) : journal_st unit :=
  o ← attempt (_verify_open h);
  match o with
  | Ret _ => mret tt
  | Raise e =>
      if bool_decide (exn_class e = OS_ERROR) then modify (set_finding (Some (_process "journal_open_failed")))
      else if bool_decide (exn_class e = SQLITE_ERROR) then
        error ← gets js_error;
        modify (set_finding (Some (classify_sqlite_error error.1 error.2)))
      else raise e
  end.

(** [JournalStore.open]. *)
Definition open (h : Host) (require_wal : bool) : journal_st unit :=
  require (_capability_ok h) (StoreError "sqlite_unsupported");;
  match h_directory h with
  | None => raise (StoreError "journal_argument")
  | Some directory =>
      require (h_sync_primitive h) (StoreError "journal_sync_unsupported");;
      lift_outcome (_check_directory h directory);;
      require (existsb (_maybe_present h) [DB_FILENAME; WAL_FILENAME; ANCHOR_FILENAME]) (StoreError "journal_missing");;
      lift_outcome (_take_lock h);;
      _locked (
        require (negb require_wal || match h_stat h WAL_FILENAME with
          | Ret found => some_b found
          | Raise e => bool_decide (exn_class e = OS_ERROR)
          end) (StoreError "wal_absent");;
        _open_steps h)
  end.
