(* ===== verification/Hoare.v ===== *)
(** * What a call ends in

    [ends m s Q E]: called in state [s], [m] returns a value and a state with
    [Q], or raises an exception and leaves a state with [E].  One rule per way
    to compose calls; [ends_step] applies the rule of the outermost one. *)

From S2P Require Import Prelude JournalStore.
Local Open Scope list_scope.

Definition ends {S A} (m : st S A) (s : S) (Q : A → S → Prop) (E : exn → S → Prop) : Prop :=
  match (m s).1 with Ret a => Q a (m s).2 | Raise e => E e (m s).2 end.

Section ends.
Context {S : Type}.
Implicit Types (s : S) (E : exn → S → Prop).

Lemma ends_mono {A} (m : st S A) s (Q Q' : A → S → Prop) E E' :
  ends m s Q E → (∀ a s', Q a s' → Q' a s') → (∀ e s', E e s' → E' e s') → ends m s Q' E'.
Proof. unfold ends. destruct (m s).1; auto. Qed.

Lemma ends_bind {A B} (m : st S A) (k : A → st S B) s Q E :
  ends m s (λ a s', ends (k a) s' Q E) E → ends (m ≫= k) s Q E.
Proof. unfold ends, mbind, st_bind. by destruct (m s) as [[a|e] s']. Qed.

Lemma ends_ret {A} (a : A) s (Q : A → S → Prop) E : Q a s → ends (mret a) s Q E.
Proof. done. Qed.
Lemma ends_gets {A} (f : S → A) s (Q : A → S → Prop) E : Q (f s) s → ends (gets f) s Q E.
Proof. done. Qed.
Lemma ends_modify f s (Q : unit → S → Prop) E : Q tt (f s) → ends (modify f) s Q E.
Proof. done. Qed.
Lemma ends_raise {A} e s (Q : A → S → Prop) E : E e s → ends (raise e) s Q E.
Proof. done. Qed.
Lemma ends_require b e s (Q : unit → S → Prop) E : (b = true → Q tt s) → (b = false → E e s) → ends (require b e) s Q E.
Proof. unfold ends, require. destruct b; cbn; auto. Qed.
Lemma ends_lift {A} (o : outcome A) s (Q : A → S → Prop) E :
  (∀ a, o = Ret a → Q a s) → (∀ e, o = Raise e → E e s) → ends (lift_outcome o) s Q E.
Proof. unfold ends, lift_outcome. destruct o; cbn; auto. Qed.
Lemma ends_attempt {A} (m : st S A) s (Q : outcome A → S → Prop) E :
  ends m s (λ a, Q (Ret a)) (λ e, Q (Raise e)) → ends (attempt m) s Q E.
Proof. unfold ends, attempt. by destruct (m s) as [[a|e] s']. Qed.

(** [except classes] turns some exceptions into a value. *)
Lemma ends_catching {A} classes (m : st S A) s (Q : option A → S → Prop) E :
  ends m s (λ a, Q (Some a)) (λ e s', if str_in (exn_class e) classes then Q None s' else E e s') →
  ends (catching classes m) s Q E.
Proof.
  intros H. apply ends_bind, ends_attempt. eapply ends_mono; [exact H|done|].
  intros e s'. unfold ends, raise, mret, st_ret. cbn. by destruct (str_in _ _).
Qed.

(** A loop that keeps [I], which says what was done before and what is left. *)
Lemma ends_for_each {A} (I : list A → S → Prop) (xs : list A) (f : A → st S unit) s E :
  I xs s → (∀ x xs s, I (x :: xs) s → ends (f x) s (λ _, I xs) E) → ends (for_each xs f) s (λ _, I []) E.
Proof.
  intros Hs Hf. revert s Hs. induction xs as [|x xs IH]; intros s Hs; [exact Hs|].
  cbn [for_each]. apply ends_bind. eapply ends_mono; [by apply Hf|intros [] s'; apply IH|auto].
Qed.

(** What a call stays within holds of the state it ends in. *)
Lemma ends_within {A} (R : S → S → Prop) (m : st S A) s (Q : A → S → Prop) E :
  within R m → ends m s Q E → ends m s (λ a s', R s s' ∧ Q a s') (λ e s', R s s' ∧ E e s').
Proof. intros Hm. specialize (Hm s). unfold ends. destruct (m s).1; auto. Qed.
Lemma ends_total {A} (R : S → S → Prop) (m : st S A) s : within R m → ends m s (λ _, R s) (λ _, R s).
Proof. intros Hm. specialize (Hm s). unfold ends. by destruct (m s).1. Qed.

Lemma ends_and {A} (m : st S A) s (Q Q' : A → S → Prop) E E' :
  ends m s Q E → ends m s Q' E' → ends m s (λ a s', Q a s' ∧ Q' a s') (λ e s', E e s' ∧ E' e s').
Proof. unfold ends. destruct (m s).1; auto. Qed.

(** From a run to what it ends in, and back. *)
Lemma ends_run {A} (m : st S A) s Q E o s' : ends m s Q E → m s = (o, s') →
  match o with Ret a => Q a s' | Raise e => E e s' end.
Proof. unfold ends. intros H Hm. by rewrite Hm in H. Qed.
Lemma run_ends {A} (m : st S A) s (Q : A → S → Prop) E :
  (∀ o s', m s = (o, s') → match o with Ret a => Q a s' | Raise e => E e s' end) → ends m s Q E.
Proof. intros H. unfold ends. specialize (H (m s).1 (m s).2). destruct (m s) as [o s']. by apply H. Qed.
End ends.

(** A call on the object in a field. *)
Lemma ends_zoom {S T A} (get : S → T) (put : T → S → S) (m : st T A) s Q E :
  ends m (get s) (λ a t, Q a (put t s)) (λ e t, E e (put t s)) → ends (zoom get put m) s Q E.
Proof. unfold ends, zoom. by destruct (m (get s)) as [[a|e] t]. Qed.

Create HintDb ends.
Ltac ends_step :=
  lazymatch goal with
  | |- ends (mbind _ _) _ _ _ => apply ends_bind
  | |- ends (mret _) _ _ _ => apply ends_ret
  | |- ends (gets _) _ _ _ => apply ends_gets
  | |- ends (modify _) _ _ _ => apply ends_modify
  | |- ends (raise _) _ _ _ => apply ends_raise
  | |- ends (require _ _) _ _ _ => apply ends_require; intros ?
  | |- ends (lift_outcome _) _ _ _ => apply ends_lift; intros ? ?
  | |- ends (attempt _) _ _ _ => apply ends_attempt
  | |- ends (catching _ _) _ _ _ => apply ends_catching
  | |- ends (zoom _ _ _) _ _ _ => apply ends_zoom
  end.
(** A call some lemma is about: its two ends are left. *)
Tactic Notation "ends_call" uconstr(H) := eapply ends_mono; [apply H| |]; cbv beta.
