(* ===== verification/JournalStoreThm.v ===== *)
(** * What the operations of the store do

    [store_evolves]: how operations move a store; the table only grows.  The
    rows of a live history are read back as that history, whatever the answers
    of SQLite, unless one of them is an error.  A slot of the anchor is written,
    or the file names the state before or the one after. *)

From S2P Require Import Prelude PyValue PyJson Sha256 CanonJson PyBytes JsonParse JournalValue JournalSource JournalRecords.
From S2P Require Import JournalClaims JournalSeal JournalStored JournalAccepts JournalSealThm JournalState JournalPlan.
From S2P Require Import JournalVerify JournalReplay JournalCopies JournalReplayThm JournalInv JournalSafe JournalBounds.
From S2P Require Import JournalAnchor JournalAnchorThm JournalStore.
Local Open Scope string_scope.
Local Open Scope Z_scope.
Local Open Scope list_scope.

#[local] Opaque sha256_hex sha256_digest _encode_slot _decode_slot.

(** ** How operations may change a store *)
Definition table (s : JournalStore) : list Row := dk_rows (js_disk s).

Record store_evolves (s s' : JournalStore) : Prop := {
  se_io : js_io s' = js_io s;
  se_slots : ∃ new, js_slots s' = new ++ js_slots s;
  se_rows : table s `prefix_of` table s';
  se_ios : (js_ios s ≤ js_ios s')%nat;
}.
#[export] Instance store_evolves_refl : Reflexive store_evolves.
Proof. intros s. split; [done|by exists []|done|done]. Qed.
#[export] Instance store_evolves_trans : Transitive store_evolves.
Proof.
  intros a b c [H1 [n1 H2] H3 Hn] [H4 [n2 H5] H6 Hn']. split; [congruence|exists (n2 ++ n1); by rewrite H5, H2, app_assoc|by transitivity (table b)|lia].
Qed.

(** Only looking: the disk, the anchor and the state of the object stay. *)
Record looks (s s' : JournalStore) : Prop := {
  lk_disk : js_disk s' = js_disk s; lk_io : js_io s' = js_io s; lk_slots : js_slots s' = js_slots s;
  lk_connection : js_connection s' = js_connection s; lk_txn : js_txn s' = js_txn s; lk_anchor : js_anchor s' = js_anchor s;
  lk_held : js_held_slots s' = js_held_slots s; lk_broken : js_broken s' = js_broken s; lk_closed : js_closed s' = js_closed s;
  lk_wal : js_wal_found s' = js_wal_found s; lk_ios : (js_ios s ≤ js_ios s')%nat;
}.
#[export] Instance looks_refl : Reflexive looks.
Proof. by split. Qed.
#[export] Instance looks_trans : Transitive looks.
Proof. intros a b c [] []. split; first [congruence|lia]. Qed.

Lemma looks_evolves s s' : looks s s' → store_evolves s s'.
Proof. intros [Hd Hi Hs _ Ht _ _ _ _ Hn]. split; [done|by exists []| |done]. unfold table. by rewrite Hd. Qed.

Lemma within_impl {S A} (R Q : S → S → Prop) (m : st S A) : (∀ s s', R s s' → Q s s') → within R m → within Q m.
Proof. intros H Hm s. apply H, Hm. Qed.
Lemma within_catching {S A} (R : S → S → Prop) `{!Reflexive R, !Transitive R} classes (m : st S A) :
  within R m → within R (catching classes m).
Proof. intros Hm. unfold catching. repeat within_step. exact Hm. Qed.

Lemma looks_taken s : looks s (set_ios (S (js_ios s)) s).
Proof. split; try done. cbn. lia. Qed.

(** An operation whose effect stays within [R], like the bookkeeping. *)
Lemma operate_within (R : JournalStore → JournalStore → Prop) `{!Reflexive R, !Transitive R} effect :
  (∀ s s', looks s s' → R s s') → (∀ landed s, R s (effect landed s)) → within R (operate effect).
Proof.
  intros Hl He. unfold operate.
  assert (within R take_io) as Ht by (intros s; apply Hl; apply looks_taken).
  apply within_bind; [apply _|exact Ht|]. intros [|f landed].
  - apply within_modify. apply He.
  - apply within_bind; [apply _|apply within_modify; apply He|]. intros _.
    apply within_bind; [apply _| |intros _; apply within_raise, _].
    destruct f; [|apply within_ret, _|apply within_ret, _]. apply within_modify. intros s. apply Hl. by destruct s.
Qed.

Lemma touch_looks : within looks touch.
Proof. apply operate_within; [apply _|apply _|done|done]. Qed.
Lemma sqlite_step_looks {A} (v : A) : within looks (_sqlite_step v).
Proof.
  unfold _sqlite_step. apply within_bind; [apply _|apply within_catching; [apply _|apply _|apply touch_looks]|].
  intros [?|]; repeat within_step.
Qed.
#[export] Hint Resolve touch_looks sqlite_step_looks : within.

(** ** Reading back one row *)
Lemma opened_envelope b r : open_record b = Ret r → ∃ m, verify_body b (_record_digest b) = Ret (DDict m) ∧
  decode_record (DDict m) b (_record_digest b) = Ret r ∧
  get m "event_seq" = DInt (event_seq (position r)) ∧ get m "prev_record_digest" = DStr (prev_record_digest (position r)) ∧
  _hex64_ok (DStr (prev_record_digest (position r))) = true ∧
  get m "event_id" = DStr (event_id r) ∧ get m "event_type" = DStr (event_type r).
Proof.
  unfold open_record. intros H. inv_do. match goal with X : verify_body _ _ = Ret ?e |- _ => rename X into Hv; rename e into env end.
  destruct env as [| | | | | |m|]; try done. exists m. split_and!; try done; clear Hv.
  all: unfold decode_record, record_check in H; inv_do; injection H as <-; cbn [_build_record position event_id event_type
    JournalRecords.event_seq JournalRecords.prev_record_digest].
  all: match goal with X : _validate_envelope _ = Ret ?u |- _ => rename X into Hen; clear -Hen end.
  all: unfold _validate_envelope, _require_keys, _require_hex64, record_check in Hen; inv_do;
    match goal with X : match _exact_keys_ok _ _ with _ => _ end = Ret ?m' |- _ =>
      cbn in X; destruct (same_keys m _ ) in X; [injection X as <-|done] end.
  all: destruct (get m "schema_version") eqn:Ever; try done; inv_do; destruct (registered m) as [f|] eqn:Ef; try done; inv_do.
  all: repeat match goal with
    | X : _require_bound_int _ _ _ _ = Ret _ |- _ => apply bound_int_ret in X as [? ?]
    | X : validate_id _ = Ret _ |- _ => apply validate_id_ret in X as [? ?]
    end.
  - by match goal with X : get m "event_seq" = _ |- _ => rewrite X end.
  - by destruct (get m "prev_record_digest").
  - by destruct (get m "prev_record_digest").
  - by match goal with X : get m "event_id" = _ |- _ => rewrite X end.
  - unfold registered in Ef. by destruct (get m "event_type").
Qed.

(** A record that is stored in a row and can be opened again. *)
Definition storable (r : JournalRecord) : Prop := open_record (body r) = Ret (read_back r).

Lemma storable_digest r : storable r → record_digest r = _record_digest (body r).
Proof.
  unfold storable, open_record. intros H. inv_do. unfold decode_record in H. destruct a as [| | | | | |m|]; try done. inv_do.
  unfold record_check in *. inv_do. apply (f_equal (λ o, match o with Ret x => record_digest x | Raise _ => "" end)) in H. cbn in H.
  congruence.
Qed.

Definition follows (previous : option JournalRecord) (r : JournalRecord) : Prop :=
  event_seq (position r) = match previous with Some q => event_seq (position q) + 1 | None => 1 end ∧
  prev_record_digest (position r) = match previous with Some q => record_digest q | None => ZERO_DIGEST end.

Lemma verify_row_ok r previous seen : storable r → follows previous r → event_id r ∉ seen →
  _verify_row (_row_params r) previous seen = Ret (inl (read_back r)).
Proof.
  intros Hs [Hseq Hprev] Hid. pose proof (storable_digest r Hs) as Hd.
  destruct (opened_envelope _ _ Hs) as (m & Hv & Hdec & Heq & Hpr & Hhex & Hei & Het). cbn [read_back position event_id event_type] in *.
  unfold _verify_row. cbn [_row_params rw_body rw_record_digest rw_event_seq rw_event_id rw_event_type]. rewrite Hd, Hv.
  unfold _chain_finding. rewrite Heq, Hpr, Hhex. cbn [negb]. rewrite Z.eqb_refl, <-Hseq, Z.eqb_refl, <-Hprev.
  rewrite bool_decide_true by done. cbn [negb orb].
  unfold _column_finding. rewrite Hei, Het. rewrite !bool_decide_true by done. cbn [negb orb].
  unfold str_in. rewrite bool_decide_false by done. by rewrite Hdec.
Qed.

(** ** Reading back all rows *)
Definition io_exn (e : exn) : Prop := exn_class e = OS_ERROR ∨ exn_class e = "BaseException".
(** From now on everything works. *)
Definition works (s : JournalStore) : Prop := ∀ n, (js_ios s ≤ n)%nat → js_io s n = Works.
(** A finding that an answer of SQLite made, now or later. *)
Definition reported (s : JournalStore) (f : Finding) : Prop :=
  ∃ n code name landed, (js_ios s ≤ n)%nat ∧ js_io s n = Breaks (SqliteError code name) landed ∧ f = classify_sqlite_error code name.

Lemma looks_reported s s' f : looks s s' → reported s' f → reported s f.
Proof.
  intros H (n & c & m & l & Hn & E & ->). rewrite (lk_io _ _ H) in E. pose proof (lk_ios _ _ H). exists n, c, m, l. split; [lia|done].
Qed.
Lemma looks_works s s' : looks s s' → works s → works s'.
Proof. intros H Hw n Hn. pose proof (lk_ios _ _ H). rewrite (lk_io _ _ H). apply Hw. lia. Qed.
Lemma reported_broke s f : reported s f → ¬ works s.
Proof. intros (n & c & m & l & Hn & E & _) Hw. by rewrite Hw in E. Qed.

Lemma sqlite_step_cases {A} (v : A) s : let '(o, s') := _sqlite_step v s in
  looks s s' ∧ js_finding s' = js_finding s ∧ js_verified_head s' = js_verified_head s ∧
  (o = Ret (inl v) ∨ (∃ f, reported s f ∧ o = Ret (inr f)) ∨ (∃ e, io_exn e ∧ ¬ works s ∧ o = Raise e)).
Proof.
  unfold _sqlite_step, catching, attempt, touch, operate, take_io, mbind, st_bind, gets, modify, raise, mret, st_ret.
  destruct (js_io s (js_ios s)) as [|f landed] eqn:E; cbn; [split_and!; [apply looks_taken|done|done|by left]|].
  assert (¬ works s) as Hw by (intros H; by rewrite H in E).
  destruct f as [c n| |]; cbn; (split_and!; [by destruct (looks_taken s)|done|done|]).
  - right. left. eexists. split; [|reflexivity]. by exists (js_ios s), c, n, landed.
  - right. right. eexists (Exn OS_ERROR ""). split_and!; [by left|done|reflexivity].
  - right. right. eexists (Exn "BaseException" ""). split_and!; [by right|done|reflexivity].
Qed.

Fixpoint linked (previous : option JournalRecord) (rs : list JournalRecord) : Prop :=
  match rs with [] => True | r :: rs => follows previous r ∧ linked (Some r) rs end.

Lemma chained_linked rs seq first previous : chained rs seq first →
  (seq = match previous with Some q => event_seq (position q) + 1 | None => 1 end) →
  (first = match previous with Some q => record_digest q | None => ZERO_DIGEST end) → linked previous rs.
Proof.
  revert seq first previous. induction rs as [|r rs IH]; intros seq first previous H Hseq Hfirst; [done|].
  destruct (H 0%nat r eq_refl) as [Hs Hp]. cbn in Hs, Hp. split.
  - split; [rewrite Hs, <-Hseq; lia|congruence].
  - apply (IH (seq + 1) (record_digest r) (Some r)); [|lia|done]. intros i x Hi. destruct (H (S i) x Hi) as [Hs' Hp'].
    split; [lia|]. rewrite Hp'. destruct i as [|j]; [done|]. cbn. destruct (rs !! j) eqn:E; [done|].
    apply lookup_ge_None in E. apply lookup_lt_Some in Hi. lia.
Qed.

Lemma linked_read_back previous rs : linked previous rs → linked (read_back <$> previous) rs.
Proof. destruct rs as [|r rs]; [done|]. intros [[Hs Hp] Hl]. split; [|done]. split; [rewrite Hs|rewrite Hp]; by destruct previous. Qed.

(** The records of the rows of a store: each can be opened, they are linked,
    and no two have one id. *)
Record stored_as (rs : list JournalRecord) : Prop := {
  sa_storable : Forall storable rs;
  sa_linked : linked None rs;
  sa_ids : NoDup (map event_id rs);
}.

Section rows.
Context {A : Type} (consume : A → JournalRecord → outcome A).

(** What a scan of stored rows may end in. *)
Definition scan_result (s : JournalStore) (o : outcome A) (s' : JournalStore) (expected : outcome A) : Prop :=
  looks s s' ∧
  ((o = expected ∧ returned expected = true ∧ js_finding s' = None) ∨
   (∃ acc f, o = Ret acc ∧ reported s f ∧ js_finding s' = Some f) ∨
   (∃ e, o = Raise e ∧ io_exn e ∧ ¬ works s)).

Lemma rows_loop_live rs : ∀ previous seen acc acc' s, Forall storable rs → linked previous rs → NoDup (map event_id rs) →
  (∀ r, r ∈ rs → event_id r ∉ seen) → fold_outcome consume acc (map read_back rs) = Ret acc' →
  let '(o, s') := rows_loop consume (map _row_params rs) previous seen acc s in scan_result s o s' (Ret acc').
Proof.
  induction rs as [|r rs IH]; intros previous seen acc acc' s Hst Hl Hnd Hseen Hf; cbn [map rows_loop]; unfold mbind at 1, st_bind at 1.
  - pose proof (sqlite_step_cases (@nil Row) s) as Hs. destruct (_sqlite_step [] s) as [o s1].
    destruct Hs as (Hlk & _ & _ & [->|[(f & Hrep & ->)|(e & He & Hw & ->)]]); cbn.
    + split; [destruct Hlk; by split|]. left. cbn in Hf. injection Hf as ->. done.
    + split; [destruct Hlk; by split|]. right. left. by exists acc, f.
    + split; [done|]. right. right. eauto.
  - pose proof (sqlite_step_cases (_row_params r :: map _row_params rs) s) as Hs.
    destruct (_sqlite_step _ s) as [o s1]. destruct Hs as (Hlk & _ & _ & [->|[(f & Hrep & ->)|(e & He & Hw & ->)]]); cbn iota.
    2: { cbn. split; [destruct Hlk; by split|]. right. left. by exists acc, f. }
    2: { cbn. split; [done|]. right. right. eauto. }
    apply Forall_cons in Hst as [Hr Hst]. destruct Hl as [Hfo Hl]. cbn [map] in Hnd. apply NoDup_cons in Hnd as [Hn Hnd].
    cbn [map fold_outcome] in Hf. destruct (consume acc (read_back r)) as [acc1|] eqn:Hc; [|done].
    unfold mbind at 1, st_bind at 1, lift_outcome at 1. rewrite verify_row_ok by (try done; apply Hseen; by left).
    cbn iota beta. unfold mbind at 1, st_bind at 1, lift_outcome at 1. rewrite Hc. unfold mbind at 1, st_bind at 1.
    set (m := if _ =? _ then modify _ else mret tt).
    assert (∃ s2, m s1 = (Ret tt, s2) ∧ looks s1 s2) as (s2 & -> & Hlk2).
    { unfold m. destruct (_ =? _); [|by exists s1]. eexists. split; [reflexivity|by split]. }
    apply linked_read_back in Hl. specialize (IH (Some (read_back r)) (event_id (read_back r) :: seen) acc1 acc' s2 Hst Hl Hnd).
    destruct (rows_loop _ _ _ _ _ s2) as [o s3]. destruct IH as [Hlk3 Hres]; [|done|].
    + intros x Hx. apply not_elem_of_cons. split; [|apply Hseen; by right].
      intros E. apply Hn. cbn [read_back event_id] in E. rewrite <-E. by apply list_elem_of_fmap_2.
    + assert (looks s s2) as Hlk' by by transitivity s1. split; [by transitivity s2|].
      destruct Hres as [?|[(a & f & ? & Hrep & ?)|(e & ? & ? & Hw)]]; [by left|right; left|right; right].
      * exists a, f. split_and!; try done. by eapply looks_reported.
      * exists e. split_and!; try done. intros Hw'. apply Hw. by eapply looks_works.
Qed.

Lemma rows_live rs acc acc' s : stored_as rs → table s = map _row_params rs → js_connection s = true → js_finding s = None →
  fold_outcome consume acc (map read_back rs) = Ret acc' →
  let '(o, s') := rows consume acc s in scan_result s o s' (Ret acc').
Proof.
  intros [Hst Hl Hnd] Ht Hc Hn Hf. unfold rows. unfold mbind at 1, st_bind at 1, gets at 1. rewrite Hc.
  unfold mbind at 1, st_bind at 1, gets at 1. rewrite Hn. cbn [negb some_b orb]. unfold mbind at 1, st_bind at 1.
  pose proof (sqlite_step_cases tt s) as Hs. destruct (_sqlite_step tt s) as [o s1].
  destruct Hs as (Hlk & _ & _ & [->|[(f & Hrep & ->)|(e & He & Hw & ->)]]); cbn iota.
  - unfold mbind at 1, st_bind at 1, gets at 1. fold (table s1).
    assert (table s1 = map _row_params rs) as -> by (unfold table in *; by rewrite (lk_disk _ _ Hlk)).
    pose proof (rows_loop_live rs None [] acc acc' s1 Hst Hl Hnd) as Hloop. destruct (rows_loop _ _ _ _ _ s1) as [o s2].
    destruct Hloop as [Hlk2 Hres]; [by intros r _; apply not_elem_of_nil|done|]. split; [by transitivity s1|].
    destruct Hres as [?|[(a & f & ? & Hrep & ?)|(e & ? & ? & Hw)]]; [by left|right; left|right; right].
    + exists a, f. split_and!; try done. by eapply looks_reported.
    + exists e. split_and!; try done. intros Hw'. apply Hw. by eapply looks_works.
  - cbn. split; [destruct Hlk; by split|]. right. left. by exists acc, f.
  - cbn. split; [done|]. right. right. eauto.
Qed.
End rows.

(** ** Writing a slot *)

(** A slot that was written, whole or in part, is read as before, as what was
    written, or not at all.  An interrupted write can only fail this by an
    accident of the checksum. *)
Definition slot_settled (w : SlotWrite) : bool :=
  let at_ file := nth (Z.to_nat (sw_counter w mod 2)) (_slot_bodies file) None in
  bool_decide (at_ (sw_after w) = at_ (sw_before w)) ||
  bool_decide (at_ (sw_after w) = at_ (pwrite (λ _, true) (sw_slot w) (slot_offset (sw_counter w)) (sw_before w))) ||
  bool_decide (at_ (sw_after w) = None).
Definition settled_writes (s : JournalStore) : Prop := Forall (λ w, slot_settled w = true) (js_slots s).

Lemma evolves_settled s s' : store_evolves s s' → settled_writes s' → settled_writes s.
Proof. intros [_ [new E] _]. unfold settled_writes. rewrite E. by intros [_ ?]%Forall_app. Qed.

(** A call that only took answers. *)
Definition idle (s s' : JournalStore) : Prop := ∃ n err, (js_ios s ≤ n)%nat ∧ s' = set_ios n (set_error err s).
Lemma idle_intro s n err : (js_ios s ≤ n)%nat → idle s (set_ios n (set_error err s)).
Proof. by exists n, err. Qed.
Lemma idle_refl s : idle s s.
Proof. exists (js_ios s), (js_error s). by destruct s. Qed.
Lemma idle_trans a b c : idle a b → idle b c → idle a c.
Proof. intros (n & e & ? & ->) (n' & e' & ? & ->). exists n', e'. split; [by etrans|done]. Qed.


Lemma touch_idle s : idle s (touch s).2 ∧ ((touch s).1 = Ret tt ∨ ∃ e, (touch s).1 = Raise e ∧ ¬ works s).
Proof.
  assert (∀ f landed, js_io s (js_ios s) = Breaks f landed → ¬ works s) as Hw by (intros f l E H; by rewrite H in E).
  unfold touch, operate, take_io, mbind, st_bind, modify, raise. destruct (js_io s (js_ios s)) as [|f landed] eqn:E; cbn.
  - split; [|by left]. exists (S (js_ios s)), (js_error s). split; [lia|by destruct s].
  - destruct f as [c n| |]; cbn; (split; [|right; eauto]);
      [exists (S (js_ios s)), (c, n)|exists (S (js_ios s)), (js_error s)|exists (S (js_ios s)), (js_error s)];
      (split; [lia|by destruct s]).
Qed.

Lemma set_ios_twice n n' err s : set_ios n (set_ios n' (set_error err s)) = set_ios n (set_error err s).
Proof. done. Qed.
Lemma slot_bytes_idle slot c landed s n err :
  write_slot_bytes slot c landed (set_ios n (set_error err s)) = set_ios n (set_error err (write_slot_bytes slot c landed s)).
Proof. unfold write_slot_bytes. cbn. by destruct (dk_anchor (js_disk s)). Qed.

Lemma write_through_unfold effect s : write_through effect s =
  operate effect match js_io s (js_ios s) with Works => set_ios (S (js_ios s)) s | Breaks _ _ => s end.
Proof. unfold write_through, mbind at 1, st_bind at 1, gets at 1, mbind at 1, st_bind at 1, gets at 1. by destruct (js_io _ _). Qed.

(** The bytes that landed, and nothing else. *)
Lemma write_through_slot slot c s : ∃ landed, idle (write_slot_bytes slot c landed s) (write_through (write_slot_bytes slot c) s).2 ∧
  (((write_through (write_slot_bytes slot c) s).1 = Ret tt ∧ landed = λ _, true) ∨
   ∃ e, (write_through (write_slot_bytes slot c) s).1 = Raise e ∧ ¬ works s).
Proof.
  assert (∀ n0 err, (js_ios s ≤ n0)%nat → ∃ landed,
    idle (write_slot_bytes slot c landed s) (operate (write_slot_bytes slot c) (set_ios n0 (set_error err s))).2 ∧
    (((operate (write_slot_bytes slot c) (set_ios n0 (set_error err s))).1 = Ret tt ∧ landed = λ _, true) ∨
     ∃ e, (operate (write_slot_bytes slot c) (set_ios n0 (set_error err s))).1 = Raise e ∧ ¬ works s)) as Hop.
  { intros n0 err Hn0. unfold operate, take_io, mbind, st_bind, modify, raise. cbn [js_io js_ios set_ios set_error].
    assert (∀ landed n err', (js_ios s ≤ n)%nat →
      idle (write_slot_bytes slot c landed s) (set_ios n (set_error err' (write_slot_bytes slot c landed s)))) as Hi.
    { intros landed n err' Hn. apply idle_intro. unfold write_slot_bytes. by destruct (dk_anchor _). }
    destruct (js_io s n0) as [|f landed] eqn:E; cbn iota beta zeta.
    - exists (λ _, true). split; [|by left]. cbn [snd]. rewrite set_ios_twice, slot_bytes_idle. apply Hi. lia.
    - assert (¬ works s) as Hw by (intros H; by rewrite H in E).
      exists landed. rewrite set_ios_twice, slot_bytes_idle. destruct f as [code name| |]; cbn -[set_ios set_error]; (split; [|right; eauto]);
        [apply (Hi landed (S n0) (code, name))|apply (Hi landed (S n0))|apply (Hi landed (S n0))]; lia. }
  rewrite write_through_unfold. destruct (js_io s (js_ios s)) eqn:E.
  - pose proof (Hop (S (js_ios s)) (js_error s) ltac:(lia)) as H.
    replace (set_ios (S (js_ios s)) (set_error (js_error s) s)) with (set_ios (S (js_ios s)) s) in H by by destruct s. exact H.
  - pose proof (Hop (js_ios s) (js_error s) ltac:(lia)) as H.
    replace (set_ios (js_ios s) (set_error (js_error s) s)) with s in H by by destruct s. exact H.
Qed.

Definition next_anchor (a : AnchorState) (head : Head) (hold : option AnchorHold) : AnchorState :=
  {| an_journal_uuid := an_journal_uuid a; an_counter := an_counter a + 1; an_head := head; an_hold := hold |}.

Lemma next_body uuid head hold c : let body := dict_set (_anchor_body uuid head hold) "counter" (DInt c) in
  body = anchor_body_at c uuid head hold ∧ members_ok body ∧
  _anchor_state_from_body body = {| an_journal_uuid := uuid; an_counter := c; an_head := head; an_hold := hold |} ∧
  is_none (get body "hold") = negb (some_b hold).
Proof.
  cbn zeta. assert (dict_set (_anchor_body uuid head hold) "counter" (DInt c) = anchor_body_at c uuid head hold) as -> by reflexivity.
  split_and!; [done| | |by destruct hold].
  - apply members_ok_spec. split; [apply (bool_decide_eq_true _); vm_compute; reflexivity|].
    repeat (apply Forall_cons; split; [try exact I|]); [| |constructor].
    + apply members_ok_spec. split; [apply (bool_decide_eq_true _); vm_compute; reflexivity|].
      repeat (apply Forall_cons; split; [exact I|]). constructor.
    + destruct hold as [[? ? []]|]; [| |exact I];
        (apply members_ok_spec; split; [apply (bool_decide_eq_true _); vm_compute; reflexivity|];
         repeat (apply Forall_cons; split; [exact I|]); constructor).
  - destruct head, hold as [[? ? []]|]; reflexivity.
Qed.

(** Everything but the anchor. *)
Record anchor_only (s s' : JournalStore) : Prop := {
  ao_table : table s' = table s; ao_io : js_io s' = js_io s; ao_connection : js_connection s' = js_connection s;
  ao_txn : js_txn s' = js_txn s; ao_finding : js_finding s' = js_finding s; ao_broken : js_broken s' = js_broken s;
  ao_closed : js_closed s' = js_closed s; ao_ios : (js_ios s ≤ js_ios s')%nat; ao_slots : ∃ new, js_slots s' = new ++ js_slots s;
}.
#[export] Instance anchor_only_refl : Reflexive anchor_only.
Proof. intros s. split; try done. by exists []. Qed.
#[export] Instance anchor_only_trans : Transitive anchor_only.
Proof.
  intros a b c [] []. split; try congruence; [lia|]. destruct ao_slots0 as [n1 E1], ao_slots1 as [n2 E2].
  exists (n2 ++ n1). by rewrite E2, E1, app_assoc.
Qed.
Lemma idle_anchor_only s s' : idle s s' → anchor_only s s'.
Proof. intros (n & err & ? & ->). split; try done. by exists []. Qed.
Lemma anchor_only_evolves s s' : anchor_only s s' → store_evolves s s'.
Proof. intros []. split; [done|done| |done]. by rewrite ao_table0. Qed.

(** The state in memory and the file agree. *)
Definition at_anchor (s : JournalStore) (a : AnchorState) : Prop :=
  js_anchor s = Some a ∧ ∃ file, dk_anchor (js_disk s) = Some file ∧ anchored file a.
(** The file names [a], whatever is in memory. *)
Definition file_names (s : JournalStore) (a : AnchorState) : Prop := ∃ file, dk_anchor (js_disk s) = Some file ∧ anchored file a.

Lemma idle_at_anchor s s' a : idle s s' → at_anchor s a → at_anchor s' a.
Proof. by intros (n & err & _ & ->). Qed.

(** A slot written whole. *)
Lemma anchored_written file a body a' slot : anchored file a → members_ok body → names body a' → precedes a a' →
  _encode_slot body = Ret slot → anchored (pwrite (λ _, true) slot (slot_offset (an_counter a + 1)) file) a'.
Proof.
  intros (r0 & r1 & -> & [L0 L1 (cur & Hcur & Hncur) _]) Hm Hn Hp Eslot. pose proof (encode_slot_length _ _ Eslot) as Ls.
  pose proof (encode_slot_body _ _ Hm Eslot) as Hb. pose proof (names_sorted _ _ Hm Hn) as Hn'. pose proof (pr_counter _ _ Hp) as Hc.
  unfold slot_offset. rewrite pwrite_layout by done. unfold slot_of in Hcur.
  assert ((an_counter a + 1 + 1) mod 2 = an_counter a mod 2) as Hm2 by (Z.to_euclidean_division_equations; lia).
  destruct (mod2_next (an_counter a)) as [[Hm0 Hm1]|[Hm0 Hm1]]; rewrite Hm0 in Hcur; rewrite Hm1; cbn [Z.eqb] in Hcur |- *;
    rewrite overlay_all by (unfold is_slot in *; congruence); eexists _, _; (split; [reflexivity|]);
    (split; [done|done| |]; unfold slot_of; rewrite Hc, ?Hm1, ?Hm2, ?Hm0; cbn [Z.eqb]; [by exists (sort_members body)|]);
    intros old Hold; rewrite Hcur in Hold; injection Hold as <-; by exists a.
Qed.

(** A slot of which any bytes landed, if it is not mistaken for another. *)
Lemma slot_write_settles file a body a' slot landed : anchored file a → members_ok body → names body a' → precedes a a' →
  _encode_slot body = Ret slot →
  let after := pwrite landed slot (slot_offset (an_counter a + 1)) file in
  slot_settled {| sw_slot := slot; sw_counter := an_counter a + 1; sw_before := file; sw_after := after |} = true →
  anchored after a ∨ anchored after a'.
Proof.
  intros Hanch Hm Hn Hp Eslot after Hset. subst after. pose proof (encode_slot_length _ _ Eslot) as Ls. pose proof (pr_counter _ _ Hp) as Hc.
  pose proof (write_settles file a body a' slot landed Hanch Hm Hn Hp Eslot) as Hw. cbn zeta in Hw. rewrite Hc in Hw. unfold slot_offset in *.
  apply Hw. intros r0 r1 -> L0 L1. unfold slot_settled in Hset. cbn [sw_before sw_after sw_slot sw_counter] in Hset.
  assert (∀ r, is_slot r → is_slot (overlay landed 0 slot r)) as Lo.
  { intros r Hr. unfold is_slot in *. rewrite overlay_length; congruence. }
  assert (∀ r, is_slot r → overlay (λ _, true) 0 slot r = slot) as Hov.
  { intros r Hr. apply overlay_all. unfold is_slot in *. congruence. }
  unfold slot_offset in Hset. rewrite !pwrite_layout in Hset by done. unfold settled, slot_of.
  destruct (mod2_next (an_counter a)) as [[_ Hm2]|[_ Hm2]]; rewrite Hm2 in Hset |- *;
    cbn [Z.eqb Z.to_nat Pos.to_nat Pos.iter_op Pos.eqb] in Hset |- *;
    rewrite Hov, !layout_bodies in Hset by (try apply Lo; done); cbn in Hset;
    apply orb_true_iff in Hset as [[?%bool_decide_eq_true|?%bool_decide_eq_true]%orb_true_iff|?%bool_decide_eq_true]; auto.
Qed.

(** Nothing the code checks stands against the next state. *)
Definition slot_ok (a : AnchorState) (head : Head) (hold : option AnchorHold) : bool :=
  let body := anchor_body_at (an_counter a + 1) (an_journal_uuid a) head hold in
  negb (some_b (an_hold a) && negb (some_b hold)) &&
  (bool_decide (_slot_kind body = "v1") &&
   ((hd_commit_seq (an_head a) <=? hd_commit_seq head) && (hd_event_seq (an_head a) <=? hd_event_seq head))) &&
  returned (_encode_slot body).

(** A write of a slot: done, or the file names the old state or the new. *)
Lemma write_slot_spec head hold s a o s' : at_anchor s a →
  _write_slot (_anchor_body (an_journal_uuid a) head hold) s = (o, s') →
  anchor_only s s' ∧
  ((o = Ret tt ∧ at_anchor s' (next_anchor a head hold) ∧
    js_held_slots s' = hold_bit (some_b (an_hold a)) + hold_bit (some_b hold)) ∨
   (∃ e, o = Raise e ∧ js_anchor s' = Some a ∧ js_held_slots s' = js_held_slots s ∧
     (works s → slot_ok a head hold = false) ∧
     (settled_writes s' → file_names s' a ∨ (file_names s' (next_anchor a head hold) ∧ (hold = None → an_hold a = None))))).
Proof.
  intros [Ha (file & Hfile & Hanch)] H. unfold _write_slot in H.
  unfold mbind at 1, st_bind at 1, gets at 1 in H. unfold mbind at 1, st_bind at 1, gets at 1 in H.
  rewrite Ha in H. cbn beta iota zeta in H. assert (held s = some_b (an_hold a)) as Hheld by (unfold held; by rewrite Ha).
  destruct (next_body (an_journal_uuid a) head hold (an_counter a + 1)) as (Hbody & Hm & Hstate & Hnone).
  set (body := dict_set _ _ _) in *. rewrite Hheld in H.
  assert (∀ s1 : JournalStore, idle s s1 → anchor_only s s1 ∧ js_anchor s1 = Some a ∧ js_held_slots s1 = js_held_slots s ∧ file_names s1 a) as Hidle.
  { intros s1 Hi. split; [by apply idle_anchor_only|]. destruct Hi as (n & err & _ & ->). split_and!; try done. by exists file. }
  assert (is_none (get (_anchor_body (an_journal_uuid a) head hold) "hold") = negb (some_b hold)) as Hnone' by by destruct hold.
  rewrite Hnone' in H. clear Hnone'. unfold slot_ok. rewrite <-Hbody.
  unfold mbind at 1, st_bind at 1, require at 1 in H.
  destruct (negb (_ && _)) eqn:Eh in H; [|injection H as <- <-; destruct (Hidle s (idle_refl s)) as (?&?&?&?); rewrite Eh; eauto 10].
  rewrite Eh. unfold mbind at 1, st_bind at 1, require at 1 in H.
  assert (head_number body "commit_seq" = hd_commit_seq head ∧ head_number body "event_seq" = hd_event_seq head) as [Hcs Hes]
    by by rewrite Hbody.
  rewrite Hcs, Hes in H.
  destruct (_ && _) eqn:Ek in H;
    [|injection H as <- <-; destruct (Hidle s (idle_refl s)) as (?&?&?&?); rewrite Ek; eauto 10].
  bool_simpl. unfold mbind at 1, st_bind at 1, lift_outcome at 1 in H.
  destruct (_encode_slot body) as [slot|e] eqn:Eslot;
    [|injection H as <- <-; destruct (Hidle s (idle_refl s)) as (?&?&?&?); rewrite andb_false_r; eauto 10].
  unfold mbind at 1, st_bind at 1 in H. destruct (touch_idle s) as [Hi1 Ho1]. destruct (touch s) as [o1 s1]. cbn [fst snd] in *.
  destruct Ho1 as [-> |(e & -> & Hw1)]; [|injection H as <- <-; destruct (Hidle s1 Hi1) as (?&?&?&?);
    split; [done|]; right; exists e; split_and!; [done..|by intros ?|intros _; by left]].
  assert (dk_anchor (js_disk s1) = Some file ∧ js_anchor s1 = Some a) as [Hf1 Ha1] by by destruct Hi1 as (? & ? & _ & ->).
  unfold mbind at 1, st_bind at 1, gets at 1 in H. rewrite Hf1 in H. cbn [some_b] in H.
  unfold mbind at 1, st_bind at 1, require at 1 in H.
  unfold mbind at 1, st_bind at 1 in H. destruct (write_through_slot slot (an_counter a + 1) s1) as (landed & Hi2 & Ho2).
  destruct (write_through _ s1) as [o2 s2]. cbn [fst snd] in *.
  set (a' := next_anchor a head hold).
  assert (names body a') as Hn by by split.
  assert (precedes a a') as Hp.
  { split; [done|done| |].
    - done.
    - cbn [an_hold a' next_anchor]. intros ->. by destruct (an_hold a). }
  pose proof (encode_slot_length _ _ Eslot) as Ls.
  destruct Hi2 as (n2 & err2 & Hn2 & Hs2). unfold write_slot_bytes in Hs2. rewrite Hf1 in Hs2.
  set (file' := pwrite landed slot (slot_offset (an_counter a + 1)) file) in *.
  assert (anchor_only s s2 ∧ js_anchor s2 = Some a ∧ js_held_slots s2 = js_held_slots s ∧ dk_anchor (js_disk s2) = Some file' ∧
    ∃ w, js_slots s2 = w :: js_slots s ∧ sw_before w = file ∧ sw_after w = file' ∧ sw_slot w = slot ∧ sw_counter w = an_counter a + 1)
    as (Hao & Ha2 & Hh2 & Hf2 & w & Hw & Hwb & Hwa & Hws & Hwc).
  { destruct Hi1 as (n1 & err1 & Hn1 & ->). rewrite Hs2. split_and!; [|done..|by eexists].
    split; [done..| |by eexists [_]]. unfold write_slot_bytes in Hn2. rewrite Hf1 in Hn2. cbn in Hn2 |- *. lia. }
  assert (settled_writes s2 → anchored file' a ∨ anchored file' a') as Hfile'.
  { intros Hset2. apply (slot_write_settles file a body a' slot landed Hanch Hm Hn Hp Eslot).
    unfold settled_writes in Hset2. rewrite Hw in Hset2. apply Forall_cons in Hset2 as [Hset2 _].
    unfold slot_settled in *. cbn [sw_before sw_after sw_slot sw_counter]. rewrite Hwb, Hwa, Hws, Hwc in Hset2. exact Hset2. }
  destruct Ho2 as [[-> ->] | (e & -> & Hw2)].
  - unfold mbind at 1, st_bind at 1, modify at 1 in H. unfold modify at 1 in H. injection H as <- <-.
    split; [by destruct Hao|]. left. split_and!; [done| |by rewrite Hnone, negb_involutive].
    rewrite Hstate. split; [done|]. exists file'. split; [done|].
    by apply (anchored_written file a body).
  - injection H as <- <-. split; [done|]. right. exists e. split_and!; [done|done|done| |].
    { intros Hworks. destruct Hw2. destruct Hi1 as (n1 & err1 & Hn1 & ->). intros n Hn0. apply Hworks. cbn in Hn0. lia. }
    intros Hset. destruct (Hfile' Hset) as [?|?]; [left; by exists file'|]. right. split; [by exists file'|]. apply (pr_hold _ _ Hp).
Qed.
