(* ===== verification/JournalAppendThm.v ===== *)
(** * Appending a commit to the store

    [append] writes the rows in one transaction and then a slot of the anchor.
    Whatever breaks, the rows are all there or none is, and the file names the
    head it named before or the new one.  When nothing breaks the commit is
    appended, unless a check stands against it. *)

From S2P Require Import Prelude PyValue PyJson Sha256 CanonJson PyBytes JsonParse JournalValue JournalSource JournalRecords.
From S2P Require Import JournalClaims JournalSeal JournalStored JournalAccepts JournalSealThm JournalState JournalPlan.
From S2P Require Import JournalVerify JournalReplay JournalCopies JournalReplayThm JournalInv JournalSafe JournalBounds.
From S2P Require Import JournalAnchor JournalAnchorThm JournalStore Hoare JournalStoreThm.
Local Open Scope string_scope.
Local Open Scope Z_scope.
Local Open Scope list_scope.

#[local] Opaque sha256_hex sha256_digest _encode_slot _decode_slot.

Lemma touch_ends s : ends touch s (λ _, idle s) (λ _ s', idle s s' ∧ ¬ works s).
Proof. unfold ends. destruct (touch_idle s) as [Hi [-> |(e & -> & Hw)]]; auto. Qed.

Lemma idle_works s s' : idle s s' → works s → works s'.
Proof. intros (n & err & Hn & ->) Hw m Hm. apply Hw. cbn in Hm. lia. Qed.

(** ** The transaction *)

(** The rows are inserted one after the other. *)
Fixpoint inserts_ok (rows new : list Row) : bool :=
  match new with [] => true | row :: new => insert_ok rows row && inserts_ok (rows ++ [row]) new end.

Lemma inserts_ok_snoc rows new row : inserts_ok rows (new ++ [row]) = inserts_ok rows new && insert_ok (rows ++ new) row.
Proof.
  revert rows. induction new as [|r new IH]; intros rows; cbn [app inserts_ok].
  - by rewrite app_nil_r, andb_true_r.
  - by rewrite IH, <-app_assoc, andb_assoc.
Qed.

Lemma inserts_ok_prefix rows new more : inserts_ok rows (new ++ more) = true → inserts_ok rows new = true.
Proof.
  revert rows. induction new as [|r new IH]; intros rows; cbn [app inserts_ok]; [done|].
  rewrite !andb_true_iff. naive_solver.
Qed.

Lemma inserts_ids rows new : inserts_ok rows new = true → NoDup (map rw_event_id rows) → NoDup (map rw_event_id (rows ++ new)).
Proof.
  revert rows. induction new as [|r new IH]; intros rows; cbn [inserts_ok]; [by rewrite app_nil_r|].
  intros [Hr Hnew]%andb_true_iff Hnd. replace (rows ++ r :: new) with ((rows ++ [r]) ++ new) by by rewrite <-app_assoc.
  apply IH; [done|]. rewrite map_app, <-map_app. rewrite map_app. apply NoDup_app. split_and!; [done| |apply NoDup_singleton].
  intros i (x & -> & Hx)%list_elem_of_fmap_1 Hi%list_elem_of_singleton. unfold insert_ok in Hr. bool_simpl.
  match goal with X : forallb _ rows = true |- _ => rewrite forallb_forall in X; specialize (X x (proj1 (list_elem_of_In _ _) Hx)) end.
  bool_simpl. congruence.
Qed.

(** The store with other rows and another transaction. *)
Definition after_sql (s : JournalStore) (rows : list Row) (txn : option (list Row)) (s' : JournalStore) : Prop :=
  ∃ n err, (js_ios s ≤ n)%nat ∧ s' = set_ios n (set_error err (set_txn txn (set_disk (mkDisk rows (dk_anchor (js_disk s))) s))).

Lemma after_sql_idle s rows txn s1 s2 : after_sql s rows txn s1 → idle s1 s2 → after_sql s rows txn s2.
Proof. intros (n & err & ? & ->) (n' & err' & Hn & ->). exists n', err'. split; [cbn in Hn; lia|done]. Qed.
Lemma after_sql_start s s' : idle s s' → after_sql s (table s) (js_txn s) s'.
Proof. intros (n & err & ? & ->). exists n, err. split; [done|]. by destruct s as [[]]. Qed.
Lemma after_sql_txn s rows txn txn' s1 : after_sql s rows txn s1 → after_sql s rows txn' (set_txn txn' s1).
Proof. intros (n & err & ? & ->). by exists n, err. Qed.
Lemma after_sql_error s rows txn err s1 : after_sql s rows txn s1 → after_sql s rows txn (set_error err s1).
Proof. intros (n & err' & ? & ->). by exists n, err. Qed.
Lemma after_sql_works s rows txn s1 : after_sql s rows txn s1 → works s → works s1.
Proof. intros (n & err & Hn & ->) Hw m Hm. apply Hw. cbn in Hm. lia. Qed.
Lemma after_sql_slots s rows txn s1 : after_sql s rows txn s1 → js_slots s1 = js_slots s.
Proof. by intros (n & err & Hn & ->). Qed.

Lemma commit_rows_ends s rows s1 : after_sql s (table s) (Some rows) s1 →
  ends sql_commit s1 (λ _, after_sql s rows None)
    (λ _ s', (after_sql s (table s) (Some rows) s' ∨ after_sql s rows None s') ∧ ¬ works s).
Proof.
  intros (n & err & Hn & ->). unfold ends, sql_commit, operate, take_io, mbind, st_bind, modify, raise.
  cbn [js_io js_ios set_ios set_error set_txn set_disk].
  assert (∀ f l, js_io s n = Breaks f l → ¬ works s) as Hw by (intros f l E H; by rewrite H in E).
  destruct (js_io s n) as [|f landed] eqn:E; cbn; [exists (S n), err; split; [lia|done]|].
  destruct f as [c m| |]; cbn; (split; [|by eapply Hw]); unfold commit_rows; cbn;
    destruct (landed 0%nat); ((left; by eexists (S n), _; split; [lia|]) || (right; by eexists (S n), _; split; [lia|])).
Qed.

Lemma commit_sql_ends records s :
  let new := map _row_params records in
  ends (_commit_sql records) s
    (λ _ s', after_sql s (table s ++ new) None s' ∧ inserts_ok (table s) new = true)
    (λ _ s', (works s → inserts_ok (table s) new = false) ∧
       ∃ txn, after_sql s (table s) txn s' ∨ (after_sql s (table s ++ new) None s' ∧ inserts_ok (table s) new = true)).
Proof.
  cbn zeta. unfold _commit_sql, begin_immediate. ends_step. ends_step. ends_call touch_ends.
  2: { intros ? s' [Hi Hw]. split; [done|]. exists (js_txn s). left. by apply after_sql_start. }
  intros ? s1 Hi. ends_step. apply after_sql_start in Hi.
  assert (dk_rows (js_disk s1) = table s) as Hrows by by destruct Hi as (n & err & _ & ->).
  apply (after_sql_txn _ _ _ (Some (table s))) in Hi. cbn beta.
  rewrite Hrows. generalize dependent (set_txn (Some (table s)) s1). intros s2 Hi. ends_step.
  set (I := λ (left : list JournalRecord) (s' : JournalStore), ∃ done, done ++ left = records ∧
    after_sql s (table s) (Some (table s ++ map _row_params done)) s' ∧ inserts_ok (table s) (map _row_params done) = true).
  eapply ends_mono; [apply (ends_for_each I records)| |]; [exists []; by rewrite app_nil_r| | |intros e s' H; exact H].
  - intros r left s3 (dn & Hd & Ha & Hok). unfold insert_row. ends_step. ends_call touch_ends.
    2: { intros ? s' [Hi' Hw]. split; [intros H; destruct Hw; by eapply after_sql_works|].
         eexists. left. by eapply after_sql_idle. }
    intros ? s4 Hi4. eapply after_sql_idle in Ha; [|exact Hi4]. ends_step. ends_step.
    assert (js_txn s4 = Some (table s ++ map _row_params dn)) as -> by by destruct Ha as (n & err & _ & ->).
    change (default [] (Some ?l)) with l. destruct (insert_ok _ _) eqn:Eins.
    + ends_step. exists (dn ++ [r]). split; [by rewrite <-app_assoc|]. rewrite map_app. cbn [map]. rewrite app_assoc.
      split; [by eapply after_sql_txn|]. by rewrite inserts_ok_snoc, Hok, Eins.
    + ends_step. ends_step. ends_step. split; [|eexists; left; by apply after_sql_error].
      intros _. apply not_true_iff_false. intros Hall. rewrite <-Hd, map_app in Hall. cbn [map] in Hall.
      rewrite (cons_middle (_row_params r)), app_assoc in Hall. apply inserts_ok_prefix in Hall.
      by rewrite inserts_ok_snoc, Hok, Eins in Hall.
  - intros ? s3 (dn & Hd & Ha & Hok). rewrite app_nil_r in Hd. subst dn. eapply ends_mono; [by apply commit_rows_ends| |].
    + by intros [] s' H.
    + intros ? s' [[H|H] Hw]; (split; [done|]); eexists; [left; exact H|right; split; [exact H|exact Hok]].
      Unshelve. exact None.
Qed.

(** ** The two writes *)

(** What a failed write leaves: the store is broken, the transaction may be
    rolled back. *)
Definition broken_from (s s' : JournalStore) : Prop :=
  ∃ n err txn, (js_ios s ≤ n)%nat ∧ s' = set_ios n (set_error err (set_txn txn (set_broken true s))).

Lemma broken_intro s n err txn : (js_ios s ≤ n)%nat → broken_from s (set_ios n (set_error err (set_txn txn (set_broken true s)))).
Proof. by exists n, err, txn. Qed.
Lemma broken_table s s' : broken_from s s' → table s' = table s.
Proof. by intros (n & err & txn & _ & ->). Qed.
Lemma broken_file s s' a : broken_from s s' → file_names s a → file_names s' a.
Proof. by intros (n & err & txn & _ & ->). Qed.
Lemma broken_settled s s' : broken_from s s' → settled_writes s' → settled_writes s.
Proof. by intros (n & err & txn & _ & ->). Qed.

Lemma guarded_ends m s Q (E E' : exn → JournalStore → Prop) : ends m s Q E →
  (∀ e e' s1 s', E e s1 → broken_from s1 s' → E' e' s') → ends (_guarded_write m) s Q E'.
Proof.
  intros Hm HE. unfold _guarded_write. ends_step. ends_step. ends_call Hm; [intros [] s1 H; by ends_step|].
  intros e s1 H. ends_step. ends_step. ends_step. unfold _rollback. ends_step. ends_step. ends_step. ends_step.
  assert (∀ e' s', broken_from s1 s' → E' e' s') as Hb by eauto. clear HE H.
  destruct (_ || _).
  - ends_step. ends_step. apply Hb. exists (js_ios s1), (js_error s1), (js_txn s1). split; [done|]. by destruct s1.
  - ends_step. ends_step. ends_step. ends_call touch_ends.
    + intros [] s2 (n & err & Hn & ->). ends_step. ends_step. ends_step. apply Hb. by exists n, err, None.
    + intros e' s2 [(n & err & Hn & ->) _]. destruct (str_in _ _); [ends_step; ends_step|]; apply Hb; by exists n, err, (js_txn s1).
Qed.

(** Everything but the disk, the transaction and the anchor. *)
Record same_object (s s' : JournalStore) : Prop := {
  so_io : js_io s' = js_io s; so_ios : (js_ios s ≤ js_ios s')%nat; so_connection : js_connection s' = js_connection s;
  so_finding : js_finding s' = js_finding s; so_broken : js_broken s' = js_broken s; so_closed : js_closed s' = js_closed s;
}.

(** The commit of [records], the last of which is [r], was appended. *)
Record appended (s : JournalStore) (records : list JournalRecord) (a : AnchorState) (r : JournalRecord) (s' : JournalStore) : Prop := {
  ap_object : same_object s s';
  ap_txn : js_txn s' = None;
  ap_table : table s' = table s ++ map _row_params records;
  ap_anchor : at_anchor s' (next_anchor a (_record_head r) None);
  ap_inserts : inserts_ok (table s) (map _row_params records) = true;
}.

(** Nothing of a commit is on the disk, or its rows are. *)
Inductive landed (s : JournalStore) (records : list JournalRecord) (a : AnchorState) (r : JournalRecord) (s' : JournalStore) : Prop :=
| landed_nothing : table s' = table s → file_names s' a → landed s records a r s'
| landed_rows a' : table s' = table s ++ map _row_params records → inserts_ok (table s) (map _row_params records) = true →
    file_names s' a' → a' = a ∨ a' = next_anchor a (_record_head r) None → landed s records a r s'.

Lemma broken_landed s records a r s1 s2 : broken_from s1 s2 → landed s records a r s1 → landed s records a r s2.
Proof.
  intros Hb [H1 H2|a' H1 H2 H3 H4].
  - apply landed_nothing; [by rewrite (broken_table _ _ Hb)|by eapply broken_file].
  - eapply landed_rows; [by rewrite (broken_table _ _ Hb)|done|by eapply broken_file|done].
Qed.

Lemma after_sql_at_anchor s rows txn s1 a : after_sql s rows txn s1 → at_anchor s a → at_anchor s1 a.
Proof. by intros (n & err & _ & ->). Qed.
Lemma at_anchor_names s a : at_anchor s a → file_names s a.
Proof. by intros [_ H]. Qed.
Lemma after_sql_table s rows txn s1 : after_sql s rows txn s1 → table s1 = rows.
Proof. by intros (n & err & _ & ->). Qed.

Lemma write_slot_ends head hold s a : at_anchor s a →
  ends (_write_slot (_anchor_body (an_journal_uuid a) head hold)) s
    (λ _ s', anchor_only s s' ∧ at_anchor s' (next_anchor a head hold) ∧
       js_held_slots s' = hold_bit (some_b (an_hold a)) + hold_bit (some_b hold))
    (λ _ s', anchor_only s s' ∧ js_anchor s' = Some a ∧ js_held_slots s' = js_held_slots s ∧ (works s → slot_ok a head hold = false) ∧
       (settled_writes s' → file_names s' a ∨ (file_names s' (next_anchor a head hold) ∧ (hold = None → an_hold a = None)))).
Proof.
  intros Ha. apply run_ends. intros o s' H. destruct (write_slot_spec head hold s a o s' Ha H) as [Hao [(-> & ? & ?)|(e & -> & H')]]; [done|].
  by split.
Qed.

(** The whole append. *)
Lemma append_ends records sync s a r : at_anchor s a → last records = Some r →
  ends (append records sync) s
    (λ seqs s', seqs = map (λ r, event_seq (position r)) records ∧ an_hold a = None ∧ appended s records a r s')
    (λ _ s', (settled_writes s' → landed s records a r s') ∧
       (works s → writable s = true → _checked_records records = Ret records → inserts_ok (table s) (map _row_params records) = true →
        slot_ok a (_record_head r) None = false)).
Proof.
  intros Ha Hr. unfold append, _check_writable. ends_step. ends_step. ends_step. ends_step.
  2: { split; [|congruence]. intros _. apply landed_nothing; [done|by apply at_anchor_names]. }
  assert (an_hold a = None) as Hnone.
  { unfold writable in *. destruct Ha as [Ha _]. rewrite Ha in *. destruct (an_hold a); [|done]. by rewrite andb_false_r in *. }
  ends_step. ends_step.
  2: { split; [|congruence]. intros _. apply landed_nothing; [done|by apply at_anchor_names]. }
  assert (a0 = records) as ->.
  { unfold _checked_records in *. inv_do. congruence. }
  ends_step. ends_step. rewrite (proj1 Ha). cbn [from_option]. ends_step. rewrite Hr.
  ends_call (guarded_ends _ _ (λ _ s', appended s records a r s')
    (λ _ s', (settled_writes s' → landed s records a r s') ∧
       (works s → inserts_ok (table s) (map _row_params records) = true → slot_ok a (_record_head r) None = false))
    (λ _ s', (settled_writes s' → landed s records a r s') ∧
       (works s → inserts_ok (table s) (map _row_params records) = true → slot_ok a (_record_head r) None = false))).
  3: { intros [] s' H'. by ends_step. }
  3: { naive_solver. }
  - ends_step. ends_call commit_sql_ends; cbn zeta.
    + intros [] s1 [H1 Hok]. ends_step.
      assert (ends (if sync then _sync_path else mret ()) s1 (λ _, idle s1) (λ _ s', idle s1 s' ∧ ¬ works s1)) as Hsync.
      { destruct sync; [apply touch_ends|by apply idle_refl]. }
      ends_call Hsync.
      * intros [] s2 Hi. pose proof (after_sql_idle _ _ _ _ _ H1 Hi) as H2. clear Hi.
        ends_call (write_slot_ends (_record_head r) None s2 a (after_sql_at_anchor _ _ _ _ _ H2 Ha)).
        -- intros [] s3 (Hao & Han & _). destruct H2 as (n & err & Hn & ->). destruct Hao. split; cbn in *; try done. split; cbn; try done. lia.
        -- intros ? s3 (Hao & _ & _ & Hw & Hf). split; [|intros Hw' _; by apply Hw; eapply after_sql_works].
           intros Hset. destruct (Hf Hset) as [Hfile|[Hfile _]]; (eapply landed_rows; [|done|exact Hfile|auto]);
             by rewrite (ao_table _ _ Hao), (after_sql_table _ _ _ _ H2).
      * intros ? s2 [Hi Hw]. pose proof (after_sql_idle _ _ _ _ _ H1 Hi) as H2. split.
        -- intros _. eapply landed_rows; [by rewrite (after_sql_table _ _ _ _ H2)|done| |by left].
           by eapply at_anchor_names, after_sql_at_anchor.
        -- intros Hw'. destruct Hw. by eapply after_sql_works.
    + intros ? s1 [Hw (txn & [H1|[H1 Hok]])].
      * split; [|by intros Hw' ?; rewrite Hw in *]. intros _. apply landed_nothing; [by rewrite (after_sql_table _ _ _ _ H1)|].
        by eapply at_anchor_names, after_sql_at_anchor.
      * split; [|by intros Hw' ?; rewrite Hw in *]. intros _.
        eapply landed_rows; [by rewrite (after_sql_table _ _ _ _ H1)|done| |by left]. by eapply at_anchor_names, after_sql_at_anchor.
  - intros e e' s1 s' [H1 H2] Hb. split; [|auto]. intros Hset. eapply broken_landed; [exact Hb|]. by eapply H1, broken_settled.
Qed.
