(* ===== verification/RecoveryJournal.v ===== *)
(** * The recovery journal handle (recovery_journal.py)

    [RecoveryJournal] is the state of the class of that name: the store it owns,
    the projection, the hold.  Clocks and id factory are streams: reading [n] of
    the two clocks is [rj_clock n], the [n]th call of the factory [rj_ids n];
    either may raise.  Every public method runs under one lock and is one step.

    Creating and opening run in the same state, from [start]: a process that has
    a disk and has not opened it.  The handle they return is the state they
    leave.  While there is no handle, because opening raised or has not come
    that far, the state shows a closed one. *)

From S2P Require Import Prelude PyValue PyJson Sha256 CanonJson PyBytes JsonParse JournalValue JournalSource JournalRecords.
From S2P Require Import JournalClaims JournalSeal JournalState JournalPlan JournalVerify JournalReplay JournalAnchor JournalStore.
Local Open Scope string_scope.
Local Open Scope Z_scope.
Local Open Scope list_scope.

(** [(code, scope, persisted, sqlite_error)] *)
Definition HoldDetail : Type := string * string * bool * option string.

Record AdmissionReceipt := {
  rec_admission_id : string; rec_arrival_seq : value; rec_commit_seq : Z; rec_event_seqs : Z * Z; rec_result : value;
  rec_decision : value; rec_dispatch_holds : value; rec_source_group : value; rec_dedupe_key : value; rec_superseded : value;
}.
Record ResumeRequest := { rq_token : value; rq_operator : value; rq_reason : value }.
Record ResumeReceipt := {
  rr_commit_seq : Z; rr_hold : string; rr_since_commit_seq : value; rr_inspected : option Head; rr_pending_digest : string;
  rr_operator : string; rr_reason : string;
}.
(** [state] is recorded or already_recorded. *)
Record RunHoldReceipt := {
  hr_job_id : string; hr_admission_id : string; hr_reason : string; hr_since_commit_seq : Z; hr_member_digest : string;
  hr_state : string;
}.

Record RecoveryJournal := mkJournal {
  rj_store : JournalStore;
  rj_projection : option Projection;
  rj_boot_id : option string;
  rj_clock : nat → outcome (pyval * pyval);
  rj_clocks : nat;
  rj_ids : nat → outcome value;
  rj_minted : nat;
  rj_closed : bool;
  rj_hold_detail : option HoldDetail;
  rj_verified_state_digest : option string;
  rj_anchor_lag_at_open : option Z;
  rj_refusals_this_boot : dict string (Z * string);
  rj_refusal_outcomes_this_boot : dict string (dict string Z);
  rj_resume_requested : bool;
  rj_resume_receipt : option ResumeReceipt;
}.
Definition set_rj_store (v : JournalStore) (s : RecoveryJournal) : RecoveryJournal :=
  mkJournal v (rj_projection s) (rj_boot_id s) (rj_clock s) (rj_clocks s) (rj_ids s) (rj_minted s) (rj_closed s) (rj_hold_detail s) (rj_verified_state_digest s) (rj_anchor_lag_at_open s) (rj_refusals_this_boot s) (rj_refusal_outcomes_this_boot s) (rj_resume_requested s) (rj_resume_receipt s).
Definition set_rj_projection (v : option Projection) (s : RecoveryJournal) : RecoveryJournal :=
  mkJournal (rj_store s) v (rj_boot_id s) (rj_clock s) (rj_clocks s) (rj_ids s) (rj_minted s) (rj_closed s) (rj_hold_detail s) (rj_verified_state_digest s) (rj_anchor_lag_at_open s) (rj_refusals_this_boot s) (rj_refusal_outcomes_this_boot s) (rj_resume_requested s) (rj_resume_receipt s).
Definition set_rj_boot_id (v : option string) (s : RecoveryJournal) : RecoveryJournal :=
  mkJournal (rj_store s) (rj_projection s) v (rj_clock s) (rj_clocks s) (rj_ids s) (rj_minted s) (rj_closed s) (rj_hold_detail s) (rj_verified_state_digest s) (rj_anchor_lag_at_open s) (rj_refusals_this_boot s) (rj_refusal_outcomes_this_boot s) (rj_resume_requested s) (rj_resume_receipt s).
Definition set_rj_clocks (v : nat) (s : RecoveryJournal) : RecoveryJournal :=
  mkJournal (rj_store s) (rj_projection s) (rj_boot_id s) (rj_clock s) v (rj_ids s) (rj_minted s) (rj_closed s) (rj_hold_detail s) (rj_verified_state_digest s) (rj_anchor_lag_at_open s) (rj_refusals_this_boot s) (rj_refusal_outcomes_this_boot s) (rj_resume_requested s) (rj_resume_receipt s).
Definition set_rj_minted (v : nat) (s : RecoveryJournal) : RecoveryJournal :=
  mkJournal (rj_store s) (rj_projection s) (rj_boot_id s) (rj_clock s) (rj_clocks s) (rj_ids s) v (rj_closed s) (rj_hold_detail s) (rj_verified_state_digest s) (rj_anchor_lag_at_open s) (rj_refusals_this_boot s) (rj_refusal_outcomes_this_boot s) (rj_resume_requested s) (rj_resume_receipt s).
Definition set_rj_closed (v : bool) (s : RecoveryJournal) : RecoveryJournal :=
  mkJournal (rj_store s) (rj_projection s) (rj_boot_id s) (rj_clock s) (rj_clocks s) (rj_ids s) (rj_minted s) v (rj_hold_detail s) (rj_verified_state_digest s) (rj_anchor_lag_at_open s) (rj_refusals_this_boot s) (rj_refusal_outcomes_this_boot s) (rj_resume_requested s) (rj_resume_receipt s).
Definition set_rj_hold_detail (v : option HoldDetail) (s : RecoveryJournal) : RecoveryJournal :=
  mkJournal (rj_store s) (rj_projection s) (rj_boot_id s) (rj_clock s) (rj_clocks s) (rj_ids s) (rj_minted s) (rj_closed s) v (rj_verified_state_digest s) (rj_anchor_lag_at_open s) (rj_refusals_this_boot s) (rj_refusal_outcomes_this_boot s) (rj_resume_requested s) (rj_resume_receipt s).
Definition set_rj_verified_state_digest (v : option string) (s : RecoveryJournal) : RecoveryJournal :=
  mkJournal (rj_store s) (rj_projection s) (rj_boot_id s) (rj_clock s) (rj_clocks s) (rj_ids s) (rj_minted s) (rj_closed s) (rj_hold_detail s) v (rj_anchor_lag_at_open s) (rj_refusals_this_boot s) (rj_refusal_outcomes_this_boot s) (rj_resume_requested s) (rj_resume_receipt s).
Definition set_rj_anchor_lag_at_open (v : option Z) (s : RecoveryJournal) : RecoveryJournal :=
  mkJournal (rj_store s) (rj_projection s) (rj_boot_id s) (rj_clock s) (rj_clocks s) (rj_ids s) (rj_minted s) (rj_closed s) (rj_hold_detail s) (rj_verified_state_digest s) v (rj_refusals_this_boot s) (rj_refusal_outcomes_this_boot s) (rj_resume_requested s) (rj_resume_receipt s).
Definition set_rj_refusals_this_boot (v : dict string (Z * string)) (s : RecoveryJournal) : RecoveryJournal :=
  mkJournal (rj_store s) (rj_projection s) (rj_boot_id s) (rj_clock s) (rj_clocks s) (rj_ids s) (rj_minted s) (rj_closed s) (rj_hold_detail s) (rj_verified_state_digest s) (rj_anchor_lag_at_open s) v (rj_refusal_outcomes_this_boot s) (rj_resume_requested s) (rj_resume_receipt s).
Definition set_rj_refusal_outcomes_this_boot (v : dict string (dict string Z)) (s : RecoveryJournal) : RecoveryJournal :=
  mkJournal (rj_store s) (rj_projection s) (rj_boot_id s) (rj_clock s) (rj_clocks s) (rj_ids s) (rj_minted s) (rj_closed s) (rj_hold_detail s) (rj_verified_state_digest s) (rj_anchor_lag_at_open s) (rj_refusals_this_boot s) v (rj_resume_requested s) (rj_resume_receipt s).
Definition set_rj_resume_requested (v : bool) (s : RecoveryJournal) : RecoveryJournal :=
  mkJournal (rj_store s) (rj_projection s) (rj_boot_id s) (rj_clock s) (rj_clocks s) (rj_ids s) (rj_minted s) (rj_closed s) (rj_hold_detail s) (rj_verified_state_digest s) (rj_anchor_lag_at_open s) (rj_refusals_this_boot s) (rj_refusal_outcomes_this_boot s) v (rj_resume_receipt s).
Definition set_rj_resume_receipt (v : option ResumeReceipt) (s : RecoveryJournal) : RecoveryJournal :=
  mkJournal (rj_store s) (rj_projection s) (rj_boot_id s) (rj_clock s) (rj_clocks s) (rj_ids s) (rj_minted s) (rj_closed s) (rj_hold_detail s) (rj_verified_state_digest s) (rj_anchor_lag_at_open s) (rj_refusals_this_boot s) (rj_refusal_outcomes_this_boot s) (rj_resume_requested s) v.

Notation handle_st := (st RecoveryJournal).

Definition start (disk : Disk) (answers : nat → io) (clock : nat → outcome (pyval * pyval)) (ids : nat → outcome value) :
    RecoveryJournal :=
  mkJournal (new_store disk answers 0) None None clock 0 ids 0 true None None None [] [] false None.

Definition on_store {A} (m : journal_st A) : handle_st A := zoom rj_store set_rj_store m.

Definition JournalError (code : string) : exn := Exn "JournalError" code.

(** [except Exception]: every exception but a [BaseException]. *)
Definition is_exception (e : exn) : bool := negb (bool_decide (exn_class e = "BaseException")).
Definition or_none {A} (o : outcome A) : outcome (option A) :=
  match o with Ret a => Ret (Some a) | Raise e => if is_exception e then Ret None else Raise e end.

(** [p.x] where [p] may be [None]. *)
Definition projection : handle_st Projection := p ← gets rj_projection; lift_outcome (the p).

(** ** Ids and clocks *)
Definition _mint_id : handle_st (option string) :=
  answer ← gets (λ s, rj_ids s (rj_minted s));
  modify (λ s, set_rj_minted (S (rj_minted s)) s);;
  lift_outcome (or_none (v ← answer; validate_id v)).

Definition read_clock (answer : outcome (pyval * pyval)) : outcome (option (string * Z)) :=
  readings ← or_none answer;
  match readings with
  | Some (wall_ns, VInt mono_ns) =>
      if (0 <=? mono_ns / 1000) && (mono_ns / 1000 <=? MAX_SEQ) then
        wall ← or_none (match wall_ns with VInt ns => format_wall_time ns | _ => _fail_record "record_time" end);
        Ret (match wall with Some wall => Some (wall, mono_ns / 1000) | None => None end)
      else Ret None
  | _ => Ret None
  end.
Definition _read_clock : handle_st (option (string * Z)) :=
  answer ← gets (λ s, rj_clock s (rj_clocks s));
  modify (λ s, set_rj_clocks (S (rj_clocks s)) s);;
  lift_outcome (read_clock answer).

(** ** State *)
Definition state (s : RecoveryJournal) : string :=
  if rj_closed s then "closed" else if some_b (rj_hold_detail s) then "held" else "ready".
Definition hold (s : RecoveryJournal) : option (string * string) :=
  (λ d : HoldDetail, d.1.1) <$> rj_hold_detail s.
(** A held journal shows no projection. *)
Definition _visible_projection (s : RecoveryJournal) : option Projection :=
  if some_b (rj_hold_detail s) then None else rj_projection s.
Definition visible_holds (s : RecoveryJournal) : list string :=
  match _visible_projection s with Some p => dispatch_holds p | None => [] end.

Definition latch (code scope : string) (s : RecoveryJournal) : RecoveryJournal :=
  if some_b (rj_hold_detail s) then s else set_rj_hold_detail (Some (code, scope, false, None)) s.
Definition _latch (code scope : string) : handle_st unit := modify (latch code scope).
(** [raise self._latched_error(code)] *)
Definition latched_error {A} (code : string) : handle_st A := _latch code "process";; raise (JournalError code).

(** [closed] and [held] are refused before anything else. *)
Definition check_ready : handle_st unit :=
  closed ← gets rj_closed;
  require (negb closed) (JournalError "journal_closed");;
  held ← gets (λ s, some_b (rj_hold_detail s));
  require (negb held) (JournalError "journal_held").

(** ** The only write path *)
Definition _commit (plan : Plan) (sync_directory : bool) : handle_st (list Z) :=
  found ← attempt (on_store (find_duplicate (pl_records plan)));
  match found with
  | Raise e =>
      if bool_decide (exn_class e = "StoreError")
      then latched_error (if bool_decide (exn_code e = "store_event_conflict") then "journal_divergence" else "journal_write_failed")
      else raise e
  | Ret (Some event_seqs) => mret event_seqs
  | Ret None =>
      p ← projection;
      delta ← lift_outcome (caught_in ["ReplayError"] (verify_commit p (pl_records plan)));
      match delta with
      | None => latched_error "journal_divergence"
      | Some delta =>
          appended ← attempt (on_store (append (pl_records plan) sync_directory));
          match appended with
          | Raise e =>
              _latch "journal_write_failed" "process";;
              raise (if is_exception e then JournalError "journal_write_failed" else e)
          | Ret event_seqs => modify (set_rj_projection (Some (apply_delta p delta)));; mret event_seqs
          end
      end
  end.

(** [try: self._commit(...) except JournalError: pass] *)
Definition committed (plan : Plan) (sync_directory : bool) : handle_st bool :=
  o ← attempt (_commit plan sync_directory);
  match o with
  | Ret _ => mret true
  | Raise e => if bool_decide (exn_class e = "JournalError") then mret false else raise e
  end.

(** ** Admission *)
Definition _read_admit_stamp : handle_st (option Stamp) :=
  reading ← _read_clock;
  match reading with
  | None => mret None
  | Some (wall, mono) =>
      p ← projection;
      if mono <? p_last_mono_us p then mret None else
      boot ← gets rj_boot_id;
      mret (Some {| boot_id := default "" boot; wall_time := wall; mono_us := mono |})
  end.

Definition bump_refusal (code digest : string) (s : RecoveryJournal) : RecoveryJournal :=
  let count := from_option fst 0 (dict_get (rj_refusals_this_boot s) code) in
  set_rj_refusals_this_boot (dict_set (rj_refusals_this_boot s) code (count + 1, digest)) s.
Definition _bump_refusal (code digest : string) : handle_st unit := modify (bump_refusal code digest).

(** Count the refusal and write its first [capacity_hold]; then it is raised. *)
Definition _capacity_refusal {A} (refusal : CapacityRefusal) (source : SourceRecord) (st : Stamp) : handle_st A :=
  digest ← lift_outcome (source_digest source);
  _bump_refusal (rf_code refusal) digest;;
  hold_event_id ← _mint_id;
  match hold_event_id with
  | None => latched_error "journal_divergence"
  | Some event_id =>
      p ← projection;
      planned ← lift_outcome (caught_in ["RecordError"] (plan_capacity_hold p refusal event_id st digest));
      match planned with
      | None => latched_error "journal_divergence"
      | Some (Some (inr _)) => latched_error "journal_capacity_recovery"
      | Some (Some (inl plan)) => _commit plan false;; raise (JournalError (rf_code refusal))
      | Some None => raise (JournalError (rf_code refusal))
      end
  end.

Definition admit_source (source : SourceRecord) : handle_st AdmissionReceipt :=
  check_ready;;
  valid ← lift_outcome (caught_in ["SourceError"] (validate_source source));
  match valid with
  | None => raise (JournalError "source_invalid")
  | Some valid =>
      stamp ← _read_admit_stamp;
      match stamp with
      | None => latched_error "journal_clock_invalid"
      | Some st =>
          admission_id ← _mint_id;
          dedupe_event_id ← match admission_id with None => mret None | Some _ => _mint_id end;
          match admission_id, dedupe_event_id with
          | Some admission_id, Some dedupe_event_id =>
              if bool_decide (dedupe_event_id = admission_id) then latched_error "journal_divergence" else
              p ← projection;
              planned ← lift_outcome (caught_in ["RecordError"] (plan_admission p valid admission_id dedupe_event_id st));
              match planned with
              | None => latched_error "journal_divergence"
              | Some (inr refusal) => _capacity_refusal refusal valid st
              | Some (inl plan) =>
                  event_seqs ← _commit plan false;
                  p ← projection;
                  head ← lift_outcome (the (p_head p));
                  match event_seqs with
                  | a :: b :: _ =>
                      let out := get (pl_outcome plan) in
                      mret {| rec_admission_id := admission_id; rec_arrival_seq := out "arrival_seq";
                              rec_commit_seq := hd_commit_seq head; rec_event_seqs := (a, b); rec_result := out "result";
                              rec_decision := out "decision"; rec_dispatch_holds := out "dispatch_holds";
                              rec_source_group := out "source_group"; rec_dedupe_key := out "dedupe_key";
                              rec_superseded := out "superseded" |}
                  | _ => raise (Exn "IndexError" "")
                  end
              end
          | _, _ => latched_error "journal_divergence"
          end
      end
  end.

(** Once the hold exists every later [admit_source] would refuse with its code. *)
Definition admission_precheck (s : RecoveryJournal) : option string :=
  if rj_closed s || some_b (rj_hold_detail s) then None
  else match rj_projection s with
       | Some p => if some_b (p_dispatch_holds p !! "capacity_admissions") then Some "capacity_admissions" else None
       | None => None
       end.

(** ** Run holds *)
Definition hold_receipt (job admission_id : string) (h : RunHold) (st : string) : RunHoldReceipt :=
  {| hr_job_id := job; hr_admission_id := admission_id; hr_reason := rh_reason h; hr_since_commit_seq := rh_since_commit_seq h;
     hr_member_digest := rh_member_digest h; hr_state := st |}.

Definition record_restart_run_hold (job_id admission_id : value) : handle_st RunHoldReceipt :=
  check_ready;;
  valid ← lift_outcome (caught_in ["RecordError"] (job ← validate_id job_id; a ← validate_id admission_id; Ret (job, a)));
  match valid with
  | None => raise (JournalError "run_hold_invalid")
  | Some (job, a) =>
      require (negb (bool_decide (job = a))) (JournalError "run_hold_invalid");;
      p ← projection;
      match c_run_holds (p_claims p) !! job with
      | Some existing =>
          if negb (bool_decide (rh_admission_id existing = a)) || negb (bool_decide (rh_reason existing = "restart_recovery"))
          then latched_error "journal_divergence"
          else mret (hold_receipt job a existing "already_recorded")
      | None =>
          if existsb (λ h, bool_decide (rh_admission_id h = a)) (values_of (c_run_holds (p_claims p)))
          then latched_error "journal_divergence"
          else
          require (some_b (p_dispatch_holds p !! "restart_recovery")) (JournalError "run_hold_not_required");;
          stamp ← _read_admit_stamp;
          match stamp with
          | None => latched_error "journal_clock_invalid"
          | Some st =>
              minted ← _mint_id;
              match minted with
              | None => latched_error "journal_divergence"
              | Some event_id =>
                  if bool_decide (event_id = job) || bool_decide (event_id = a) then latched_error "journal_divergence" else
                  planned ← lift_outcome (caught_in ["RecordError"; "ReplayError"]
                    (plan_run_hold p job a event_id "restart_recovery" st));
                  match planned with
                  | None => latched_error "journal_divergence"
                  | Some (inr _) => latched_error "journal_capacity_recovery"
                  | Some (inl plan) =>
                      _commit plan false;;
                      p ← projection;
                      match c_run_holds (p_claims p) !! job with
                      | Some h => if bool_decide (rh_admission_id h = a) then mret (hold_receipt job a h "recorded")
                                  else latched_error "journal_divergence"
                      | None => latched_error "journal_divergence"
                      end
                  end
              end
          end
      end
  end.

(** ** Ingress refusals *)
Definition reason_name (r : RefusalNotRecorded) : string :=
  match r with Coalesced => "coalesced" | Limit => "limit" | NoRoom => "no_room" end.
Definition bump_refusal_outcome (code out : string) (s : RecoveryJournal) : RecoveryJournal :=
  let bucket := default [] (dict_get (rj_refusal_outcomes_this_boot s) code) in
  let count := default 0 (dict_get bucket out) in
  set_rj_refusal_outcomes_this_boot (dict_set (rj_refusal_outcomes_this_boot s) code (dict_set bucket out (count + 1))) s.
Definition _bump_refusal_outcome (code out : string) : handle_st unit := modify (bump_refusal_outcome code out).

Definition record_refusal (summary : value) : handle_st string :=
  check_ready;;
  normalized ← lift_outcome (caught_in ["RecordError"] (refusal_summary_data summary));
  match normalized with
  | None => raise (JournalError "refusal_invalid")
  | Some normalized =>
      stamp ← _read_admit_stamp;
      match stamp with
      | None => latched_error "journal_clock_invalid"
      | Some st =>
          minted ← _mint_id;
          match minted with
          | None => latched_error "journal_divergence"
          | Some event_id =>
              p ← projection;
              planned ← lift_outcome (caught_in ["RecordError"] (plan_ingress_refusal p (dict_of normalized) event_id st));
              let code := text_of (get (dict_of normalized) "code") in
              match planned with
              | None => latched_error "journal_divergence"
              | Some (inr reason) => _bump_refusal_outcome code (reason_name reason);; mret (reason_name reason)
              | Some (inl plan) => _commit plan false;; _bump_refusal_outcome code "recorded";; mret "recorded"
              end
          end
      end
  end.

Definition close_journal : handle_st unit :=
  closed ← gets rj_closed;
  if closed : bool then mret tt else modify (set_rj_closed true);; on_store close.

(** ** Replay at open *)
Definition _REPLAY_HOLD_CODES : dict string string :=
  [("replay_chain", "journal_chain_broken"); ("replay_framing", "journal_chain_broken");
   ("replay_generation", "journal_chain_broken"); ("replay_tail_incomplete", "journal_tail_unverified");
   ("replay_shape", "journal_replay_mismatch"); ("replay_mismatch", "journal_replay_mismatch");
   ("replay_boot", "journal_replay_mismatch"); ("replay_clock", "journal_replay_mismatch")].

(** One [next] of the generator [group_commits], which has read [current] of a
    commit of [size] records numbered [seq]: the commit the record completes, if
    it does, and what the generator holds then. *)
Definition group_next (current : list JournalRecord) (size seq : Z) (r : JournalRecord) :
    outcome (option (list JournalRecord) * (list JournalRecord * Z * Z)) :=
  let pos := position r in
  let fresh := match current with [] => true | _ => false end in
  replay_check (fresh || (commit_seq pos =? seq)) "replay_framing";;
  replay_check (if fresh then commit_index pos =? 0
                else (commit_size pos =? size) && (commit_index pos =? Z.of_nat (length current))) "replay_framing";;
  let size := if fresh then commit_size pos else size in
  let seq := if fresh then commit_seq pos else seq in
  let current := current ++ [r] in
  Ret (if Z.of_nat (length current) =? size then (Some current, ([], 0, 0)) else (None, (current, size, seq))).

(** The loop of [_replay_finding]: the projection being rebuilt, what
    [group_commits] holds, whether the anchored record was the last of its
    commit, and the commits [observe] was given. *)
Record Scan := {
  sc_candidate : Projection;
  sc_reading : list JournalRecord * Z * Z;
  sc_anchor_record_ok : bool;
  sc_groups : list (list JournalRecord);
}.
Definition scan_start : Scan :=
  {| sc_candidate := new_projection; sc_reading := ([], 0, 0); sc_anchor_record_ok := false; sc_groups := [] |}.

(** [for record in group: ...] *)
Definition anchor_record_ok (anchor : Head) (ok : bool) (group : list JournalRecord) : bool :=
  foldl (λ ok r,
    let pos := position r in
    if negb (event_seq pos =? hd_event_seq anchor) then ok else
    (commit_seq pos =? hd_commit_seq anchor) && (commit_index pos =? commit_size pos - 1) &&
    bool_decide (record_digest r = hd_record_digest anchor) && (journal_generation pos =? hd_generation anchor)) ok group.

Definition scan_next (anchor : Head) (sc : Scan) (r : JournalRecord) : outcome Scan :=
  let '(current, size, seq) := sc_reading sc in
  '(complete, reading) ← group_next current size seq r;
  match complete with
  | None => Ret {| sc_candidate := sc_candidate sc; sc_reading := reading; sc_anchor_record_ok := sc_anchor_record_ok sc;
                   sc_groups := sc_groups sc |}
  | Some group =>
      candidate ← commit (sc_candidate sc) group;
      Ret {| sc_candidate := candidate; sc_reading := reading;
             sc_anchor_record_ok := anchor_record_ok anchor (sc_anchor_record_ok sc) group;
             sc_groups := sc_groups sc ++ [group] |}
  end.

(** The end of [group_commits]: a commit that was begun must be complete. *)
Definition scan_all (anchor : Head) : journal_st Scan :=
  sc ← rows (scan_next anchor) scan_start;
  match (sc_reading sc).1.1 with
  | [] => mret sc
  | _ => raise (ReplayError "replay_tail_incomplete")
  end.

(** The head against the anchor: the lag and the finding. *)
Definition judge_head (anchor head : Head) (record_ok : bool) : option Finding * Z :=
  let lag := hd_commit_seq head - hd_commit_seq anchor in
  ((if lag <? 0 then Some (_recovery "journal_truncated")
    else if 1 <? lag then Some (_recovery "journal_tail_unverified")
    else if negb record_ok then Some (_recovery "journal_anchor_conflict")
    else None), lag).

(** The finding, the lag when the heads were compared, and what was rebuilt. *)
Definition _replay_finding : journal_st (option Finding * option Z * Scan) :=
  state ← gets js_anchor;
  a ← lift_outcome (the state);
  let anchor := an_head a in
  scanned ← attempt (scan_all anchor);
  replay_code ← match scanned with
    | Ret _ => mret None
    | Raise e => if bool_decide (exn_class e = "ReplayError") then mret (Some (exn_code e)) else raise e
    end;
  stored ← gets js_finding;
  let sc := match scanned with Ret sc => sc | Raise _ => scan_start end in
  match stored, replay_code with
  | Some finding, _ => mret (Some finding, None, sc)
  | None, Some code =>
      match dict_get _REPLAY_HOLD_CODES code with
      | Some hold_code => mret (Some (_recovery hold_code), None, sc)
      | None => raise (Exn "KeyError" code)
      end
  | None, None =>
      match p_head (sc_candidate sc) with
      | None => mret (Some (_recovery "journal_truncated"), None, sc)
      | Some head => let '(finding, lag) := judge_head anchor head (sc_anchor_record_ok sc) in mret (finding, Some lag, sc)
      end
  end.

(** ** The handle an open returns *)

(** [RecoveryJournal(...)]: a new handle on the store. *)
Definition new_handle (p : option Projection) (boot : option string) (verified : option string)
    (detail : option HoldDetail) (lag : option Z) (resume_requested : bool) (s : RecoveryJournal) : RecoveryJournal :=
  mkJournal (rj_store s) p boot (rj_clock s) (rj_clocks s) (rj_ids s) (rj_minted s) false detail verified lag [] []
    resume_requested None.

(** Persist a recovery finding into the anchor, close the store, return held. *)
Definition _held_journal (finding : Finding) (boot : option string) (lag : option Z) (resume_requested : bool) : handle_st unit :=
  match boot with
  | Some boot =>
      if bool_decide (fi_scope finding = "recovery")
      then on_store (catching ["StoreError"] (persist_hold (fi_code finding) boot));; mret tt
      else mret tt
  | None => mret tt
  end;;
  anchor ← gets (λ s, js_anchor (rj_store s));
  let persisted := bool_decide (fi_scope finding = "recovery") &&
    match anchor ≫= an_hold with Some hold => bool_decide (ah_code hold = fi_code finding) | None => false end in
  on_store close;;
  modify (new_handle None boot None (Some (fi_code finding, fi_scope finding, persisted, fi_sqlite_error finding)) lag
    resume_requested).

(** ** Restart on open *)
Definition write_anchor_again (lag : Z) : handle_st bool :=
  if lag =? 1 then
    p ← projection;
    head ← lift_outcome (the (p_head p));
    written ← on_store (catching ["StoreError"; "RecordError"] (write_anchor head));
    mret (some_b written)
  else mret true.

Definition _run_restart_recovery (lag : Z) (wal_found : option WalFound) : handle_st unit :=
  anchored ← write_anchor_again lag;
  if negb anchored then _latch "journal_write_failed" "process" else
  new_boot ← _mint_id;
  match new_boot with
  | None => _latch "journal_divergence" "process"
  | Some new_boot =>
      reading ← _read_clock;
      match reading with
      | None => _latch "journal_clock_invalid" "process"
      | Some (wall, mono) =>
          event_id ← _mint_id;
          p ← projection;
          plan ← match event_id with
            | None => mret None
            | Some event_id => lift_outcome (caught_in ["RecordError"]
                (plan_restart p event_id {| boot_id := new_boot; wall_time := wall; mono_us := mono |} lag wal_found))
            end;
          match plan with
          | None => _latch "journal_divergence" "process"
          | Some (inr _) => _latch "journal_capacity_recovery" "process"
          | Some (inl plan) =>
              done ← committed plan true;
              if done : bool then modify (set_rj_boot_id (Some new_boot)) else mret tt
          end
      end
  end.

(** Exactly one [operator_action] after the restart this open committed. *)
Definition _resume_at_open (resume : ResumeRequest) : handle_st unit :=
  p ← projection;
  if negb (some_b (p_dispatch_holds p !! "restart_recovery")) then mret tt
  else if private_claims_outstanding p then mret tt
  else
    minted ← _mint_id;
    match minted with
    | None => _latch "journal_divergence" "process"
    | Some event_id =>
        stamp ← _read_admit_stamp;
        match stamp with
        | None => _latch "journal_clock_invalid" "process"
        | Some st =>
            let operator := text_of (rq_operator resume) in
            let reason := text_of (rq_reason resume) in
            plan ← lift_outcome (caught_in ["RecordError"] (plan_operator_resume p event_id st operator reason));
            match plan with
            | None => _latch "journal_divergence" "process"
            | Some (inr _) => _latch "journal_capacity_recovery" "process"
            | Some (inl plan) =>
                done ← committed plan false;
                if negb done then mret tt else
                p ← projection;
                head ← lift_outcome (the (p_head p));
                pending ← lift_outcome (pending_digest p);
                modify (set_rj_resume_receipt (Some {| rr_commit_seq := hd_commit_seq head; rr_hold := "restart_recovery";
                  rr_since_commit_seq := get (pl_outcome plan) "since_commit_seq"; rr_inspected := p_boot_recovered p;
                  rr_pending_digest := pending; rr_operator := operator; rr_reason := reason |}))
            end
        end
    end.

(** ** Opening *)
Definition _resume_token_ok (v : value) : bool := _hex64_ok v.
Definition _check_resume_request (resume : ResumeRequest) : outcome unit :=
  ok ← (if _resume_token_ok (rq_token resume)
        then caught_in ["RecordError"] (validate_id (rq_operator resume);; validate_id (rq_reason resume))
        else Ret None);
  check_that (some_b ok) (JournalError "resume_invalid").

(** Ready, or held on the first finding.  A stale token writes nothing. *)
Definition _open_verified (h : Host) (resume : option ResumeRequest) : handle_st unit :=
  let requested := some_b resume in
  boot ← _mint_id;
  found ← gets (λ s, js_finding (rj_store s));
  '(finding, lag, sc) ← match found with
    | Some finding => mret (Some finding, None, scan_start)
    | None => on_store _replay_finding
    end;
  let finding := match finding, boot with None, None => Some (_process "journal_divergence") | _, _ => finding end in
  head ← match finding, resume with
    | None, Some _ => lift_outcome (the (p_head (sc_candidate sc)))
    | _, _ => mret {| hd_generation := 0; hd_commit_seq := 0; hd_event_seq := 0; hd_record_digest := "" |}
    end;
  require (match finding, resume with
    | None, Some r => bool_decide (rq_token r = DStr (hd_record_digest head))
    | _, _ => true
    end) (JournalError "resume_stale");;
  finished ← match finding with
    | None => on_store (catching ["StoreError"] (finish_open h))
    | Some _ => mret (Some tt)
    end;
  let finding := match finding, finished with None, None => Some (_process "journal_open_failed") | _, _ => finding end in
  match finding with
  | Some finding => _held_journal finding boot lag requested
  | None =>
      verified ← lift_outcome (state_digest (sc_candidate sc));
      modify (new_handle (Some (sc_candidate sc)) boot (Some verified) None lag requested);;
      wal ← gets (λ s, js_wal_found (rj_store s));
      _run_restart_recovery (default 0 lag) wal;;
      clean ← gets (λ s, negb (some_b (rj_hold_detail s)));
      match resume with
      | Some r => if clean : bool then _resume_at_open r else mret tt
      | None => mret tt
      end
  end.

(** [try: store = ... except StoreError], as a [JournalError] of the same code. *)
Definition store_error {A} (o : outcome A) : handle_st A :=
  match o with
  | Ret a => mret a
  | Raise e => raise (if bool_decide (exn_class e = "StoreError") then JournalError (exn_code e) else e)
  end.

(** A new store object on the disk as it is, and no handle yet. *)
Definition reset (s : RecoveryJournal) : RecoveryJournal :=
  let store := rj_store s in
  mkJournal (set_slots (js_slots store) (new_store (js_disk store) (js_io store) (js_ios store)))
    None None (rj_clock s) (rj_clocks s) (rj_ids s) (rj_minted s) true None None None [] [] false None.

Definition open_recovery_journal (h : Host) (resume : option ResumeRequest) : handle_st unit :=
  match resume with Some r => lift_outcome (_check_resume_request r) | None => mret tt end;;
  modify reset;;
  opened ← attempt (on_store (open h false));
  store_error opened;;
  o ← attempt (_open_verified h resume);
  match o with
  | Ret _ => mret tt
  | Raise e => modify (set_rj_closed true);; on_store close;; raise e
  end.

(** ** Creating *)
Definition genesis_commit (journal_uuid boot event_id : option string) (bounds : JournalBounds) (reading : option (string * Z)) :
    outcome (option (Plan * Projection)) :=
  match journal_uuid, boot, event_id, reading with
  | Some uuid, Some boot, Some event_id, Some (wall, mono) =>
      or_none (plan ← plan_genesis uuid bounds event_id {| boot_id := boot; wall_time := wall; mono_us := mono |};
               p ← commit new_projection (pl_records plan);
               Ret (plan, p))
  | _, _, _, _ => Ret None
  end.

Definition create_recovery_journal (h : Host) (bounds : JournalBounds) : handle_st unit :=
  journal_uuid ← _mint_id;
  boot ← _mint_id;
  event_id ← _mint_id;
  reading ← _read_clock;
  genesis ← lift_outcome (genesis_commit journal_uuid boot event_id bounds reading);
  match genesis with
  | None => raise (JournalError "journal_argument")
  | Some (plan, p) =>
      modify reset;;
      match pl_records plan with
      | r :: _ =>
          made ← attempt (on_store (create h r (default "" journal_uuid)));
          store_error made;;
          verified ← lift_outcome (state_digest p);
          modify (new_handle (Some p) boot (Some verified) None (Some 0) false)
      | [] => raise (Exn "IndexError" "")
      end
  end.
