(* ===== verification/RecoveryCommit.v ===== *)
(** * Committing through the handle

    [store_at]: the disk holds a live history whose last head the anchor names,
    and the store can write.  [durable]: all that may be known after something
    broke, the anchor may be one commit behind.  [_commit] takes [store_at] to
    [store_at], or latches the handle and leaves [durable]. *)

From S2P Require Import Prelude PyValue PyJson Sha256 CanonJson PyBytes JsonParse JournalValue JournalSource JournalRecords.
From S2P Require Import JournalClaims JournalSeal JournalStored JournalAccepts JournalSealThm JournalState JournalPlan.
From S2P Require Import JournalVerify JournalReplay JournalCopies JournalReplayThm JournalInv JournalSafe JournalBounds.
From S2P Require Import JournalAnchor JournalAnchorThm JournalStore Hoare JournalStoreThm JournalAppendThm RecoveryJournal.
Local Open Scope string_scope.
Local Open Scope Z_scope.
Local Open Scope list_scope.

#[local] Opaque sha256_hex sha256_digest _encode_slot _decode_slot verify_commit open_record.

(** ** The history on the disk *)

(** The table is the records of a live history, in the journal [uuid]. *)
Record history (rs : list JournalRecord) (p : Projection) (uuid : string) : Prop := {
  hi_live : live rs p;
  hi_ids : NoDup (map event_id rs);
  hi_uuid : ∃ row, List.find (λ row, rw_event_seq row =? 1) (map _row_params rs) = Some row;
  hi_genesis : genesis_uuid_conflicts (map _row_params rs) uuid = Ret false;
}.

(** [rs] is [rs0] or one commit longer. *)
Inductive one_ahead (rs0 : list JournalRecord) (p0 : Projection) : list JournalRecord → Projection → Prop :=
| ahead_none : one_ahead rs0 p0 rs0 p0
| ahead_one plan d : planned p0 plan → verify_commit p0 (pl_records plan) = Ret d →
    one_ahead rs0 p0 (rs0 ++ pl_records plan) (apply_delta p0 d).

Record durable (st : JournalStore) (rs : list JournalRecord) (p : Projection) (a : AnchorState) : Prop := {
  du_history : history rs p (an_journal_uuid a);
  du_table : table st = map _row_params rs;
  du_file : file_names st a;
  du_anchor : ∃ rs0 p0, live rs0 p0 ∧ p_head p0 = Some (an_head a) ∧ one_ahead rs0 p0 rs p;
}.

Record store_at (st : JournalStore) (rs : list JournalRecord) (p : Projection) (a : AnchorState) : Prop := {
  sat_history : history rs p (an_journal_uuid a);
  sat_table : table st = map _row_params rs;
  sat_anchor : at_anchor st a;
  sat_head : p_head p = Some (an_head a);
  sat_writable : writable st = true;
}.

Lemma store_at_durable st rs p a : store_at st rs p a → durable st rs p a.
Proof.
  intros [Hh Ht Ha Hd _]. split; [done|done|by apply at_anchor_names|]. exists rs, p. split_and!; [apply Hh|done|constructor].
Qed.

Lemma idle_table s s' : idle s s' → table s' = table s.
Proof. by intros (n & err & _ & ->). Qed.
Lemma idle_names s s' a : idle s s' → file_names s a → file_names s' a.
Proof. by intros (n & err & _ & ->). Qed.
Lemma idle_writable s s' : idle s s' → writable s' = writable s.
Proof. by intros (n & err & _ & ->). Qed.

Lemma idle_store_at s s' rs p a : idle s s' → store_at s rs p a → store_at s' rs p a.
Proof.
  intros Hi [Hh Ht Ha Hd Hw]. split; [done|by rewrite (idle_table _ _ Hi)|by eapply idle_at_anchor|done|by rewrite (idle_writable _ _ Hi)].
Qed.
Lemma same_disk_durable s s' rs p a : table s' = table s → (file_names s a → file_names s' a) → durable s rs p a → durable s' rs p a.
Proof. intros Ht Hf [H1 H2 H3 H4]. split; [done|congruence|auto|done]. Qed.
Lemma idle_durable s s' rs p a : idle s s' → durable s rs p a → durable s' rs p a.
Proof. intros Hi. apply same_disk_durable; [by apply idle_table|by apply idle_names]. Qed.
Lemma broken_durable s s' rs p a : broken_from s s' → durable s rs p a → durable s' rs p a.
Proof. intros Hi. apply same_disk_durable; [by apply broken_table|by apply broken_file]. Qed.

(** *** One more commit *)
Lemma row_ids rs : map rw_event_id (map _row_params rs) = map event_id rs.
Proof. by rewrite map_map. Qed.

Lemma genesis_conflicts_more rows more uuid : is_Some (List.find (λ row, rw_event_seq row =? 1) rows) →
  genesis_uuid_conflicts (rows ++ more) uuid = genesis_uuid_conflicts rows uuid.
Proof.
  intros [row Hrow]. unfold genesis_uuid_conflicts.
  assert (List.find (λ row, rw_event_seq row =? 1) (rows ++ more) = Some row) as ->; [|by rewrite Hrow].
  induction rows as [|r rows IH]; [done|]. cbn in *. by destruct (_ =? 1); [|apply IH].
Qed.
Lemma find_more rows more (f : Row → bool) row : List.find f rows = Some row → List.find f (rows ++ more) = Some row.
Proof. induction rows as [|r rows IH]; [done|]. cbn. by destruct (f r); [|apply IH]. Qed.

Lemma history_more rs p uuid plan d : history rs p uuid → planned p plan → verify_commit p (pl_records plan) = Ret d →
  inserts_ok (map _row_params rs) (map _row_params (pl_records plan)) = true →
  history (rs ++ pl_records plan) (apply_delta p d) uuid.
Proof.
  intros [Hl Hnd [row Hrow] Hg] Hp Hd Hok. split.
  - by eapply live_commit.
  - rewrite <-row_ids, map_app. apply inserts_ids; [done|]. by rewrite row_ids.
  - exists row. rewrite map_app. by apply find_more.
  - rewrite map_app, genesis_conflicts_more by by exists row. done.
Qed.

Lemma live_chain rs p : live rs p → chain_ok rs p.
Proof.
  intros H. pose proof (live_replays rs p H rs (same_forms rs)) as Hr. clear H. revert rs p Hr.
  apply replay_ind; [by left|]. intros rs p g d. apply chain_step.
Qed.

(** The head after a commit is its last record. *)
Lemma commit_head rs p plan d : live rs p → planned p plan → verify_commit p (pl_records plan) = Ret d →
  ∃ r, last (pl_records plan) = Some r ∧ p_head (apply_delta p d) = Some (_record_head r).
Proof.
  intros Hl Hp Hd. assert (live (rs ++ pl_records plan) (apply_delta p d)) as Hl' by by eapply live_commit.
  destruct (commit_checked _ _ _ Hd) as (r0 & g & Hg & _). destruct (last (pl_records plan)) as [r|] eqn:Hr.
  - exists r. split; [done|]. destruct (live_chain _ _ Hl') as [[Hnil _]|(x & Hx & Hhx & _)].
    + rewrite Hg in Hnil. by destruct rs.
    + rewrite last_app, Hr in Hx. injection Hx as <-. done.
  - apply last_None in Hr. congruence.
Qed.

(** ** Looking for the commit first *)
Definition stored_rows (rows : list Row) (records : list JournalRecord) : list Row :=
  List.filter (λ row, str_in (rw_event_id row) (map event_id records)) rows.

(** Every record of the commit has a row of its id. *)
Definition all_stored (rows : list Row) (records : list JournalRecord) : Prop :=
  Forall (λ r, event_id r ∈ map rw_event_id rows) records.

Lemma same_content_ids i first seq size stored old new : same_content i first seq size stored old new = Ret true →
  length stored = length new → length old = length new → Forall2 (λ row r, rw_event_id row = event_id r) stored new.
Proof.
  revert i old new. induction stored as [|row stored IH]; intros i old new H Hl1 Hl2; destruct new as [|n new], old as [|o old]; try done.
  cbn [same_content] in H. destruct (_ || _) eqn:E in H; [done|]. inv_do. case_bool_decide; [|done].
  bool_simpl. constructor; [done|]. eapply IH; [exact H|by injection Hl1|by injection Hl2].
Qed.

Lemma stored_all rows records old : length old = length (stored_rows rows records) →
  _same_commit (stored_rows rows records) old records = Ret true → all_stored rows records.
Proof.
  unfold _same_commit. intros Hl H. destruct (negb _) eqn:E in H; [done|]. apply negb_false_iff, Nat.eqb_eq in E.
  destruct (stored_rows rows records) as [|row stored] eqn:Es; [done|]. destruct old as [|o old]; [done|].
  apply same_content_ids in H; [|congruence|congruence].
  apply Forall_forall. intros r Hr. apply list_elem_of_lookup in Hr as [i Hi].
  destruct (Forall2_lookup_r _ _ _ _ _ H Hi) as (x & Hx & Hid).
  apply list_elem_of_lookup_2, list_elem_of_In in Hx. rewrite <-Es in Hx. unfold stored_rows in Hx. apply filter_In in Hx as [Hx _].
  rewrite <-Hid. by apply list_elem_of_fmap_2, list_elem_of_In.
Qed.

Lemma find_duplicate_ends records s :
  ends (find_duplicate records) s
    (λ o s', idle s s' ∧ writable s = true ∧ match o with
       | None => stored_rows (table s) records = []
       | Some _ => all_stored (table s) records ∧ stored_rows (table s) records ≠ []
       end)
    (λ e s', (idle s s' ∨ (exn_class e = "StoreError" ∧ broken_from s s')) ∧
       (works s → writable s = true → _checked_records records = Ret records → stored_rows (table s) records = [] → False)).
Proof.
  unfold find_duplicate, _check_writable. ends_step. ends_step. ends_step. ends_step.
  2: { split; [left; apply idle_refl|congruence]. }
  ends_step. ends_step. 2: { split; [left; apply idle_refl|congruence]. }
  assert (a = records) as -> by (unfold _checked_records in *; inv_do; congruence).
  ends_step. ends_step. ends_call touch_ends.
  2: { intros e s1 [Hi Hw]. destruct (str_in _ _); [|by split; [left|]]. ends_step. ends_step. ends_step.
       split; [|done]. right. split; [done|]. destruct Hi as (n & err & Hn & ->). by exists n, err, (js_txn s). }
  intros [] s1 Hi. ends_step. ends_step. fold (table s1). rewrite (idle_table _ _ Hi).
  fold (stored_rows (table s) records). destruct (stored_rows (table s) records) as [|row stored] eqn:Es; [by ends_step|].
  rewrite <-Es. ends_step. ends_step. 2: { split; [by left|]. intros _ _ _ Hn. by rewrite Es in Hn. }
  ends_step. destruct a as [old|].
  - ends_step. 2: { split; [by left|]. intros _ _ _ Hn. by rewrite Es in Hn. }
    ends_step. ends_step. 2: { split; [by left|]. intros _ _ _ Hn. by rewrite Es in Hn. }
    ends_step. subst. split_and!; [done|done| |by rewrite Es]. eapply stored_all; [|eassumption].
    unfold caught_in in *. match goal with X : match ?o with _ => _ end = Ret _ |- _ => destruct o eqn:Eo; [|by destruct (str_in _ _)] end.
    match goal with X : Ret _ = Ret _ |- _ => injection X as -> end. apply seq_outcomes_spec in Eo. by rewrite (Forall2_length _ _ _ Eo).
  - ends_step. ends_step. ends_step; [done|]. split; [by left|]. intros _ _ _ Hn. by rewrite Es in Hn.
Qed.

Lemma inserts_fresh rows records : inserts_ok rows (map _row_params records) = true → stored_rows rows records = [].
Proof.
  intros H. unfold stored_rows. destruct (List.filter _ rows) as [|row l] eqn:E; [done|].
  assert (In row (row :: l)) as Hin by by left. rewrite <-E in Hin. apply filter_In in Hin as [Hrow Hid].
  apply str_in_spec, list_elem_of_lookup in Hid as [i Hi]. rewrite list_lookup_fmap in Hi.
  destruct (records !! i) as [r|] eqn:Er; [|done]. injection Hi as Hi. apply list_elem_of_split_length in Er as (before & after & -> & _).
  rewrite map_app in H. cbn [map] in H. rewrite (cons_middle (_row_params r)), app_assoc in H. apply inserts_ok_prefix in H.
  rewrite inserts_ok_snoc in H. apply andb_true_iff in H as [_ H]. unfold insert_ok in H. bool_simpl.
  match goal with X : forallb _ _ = true |- _ => rewrite forallb_forall in X; specialize (X row (in_or_app _ _ _ (or_introl Hrow))) end.
  bool_simpl. cbn [_row_params rw_event_id] in *. congruence.
Qed.

(** ** [_commit] *)

(** A call that failed: nothing was written, or the handle is latched and the
    disk holds the history, perhaps with the commit. *)
Definition kept_history (rs : list JournalRecord) (st : JournalStore) : Prop :=
  settled_writes st → ∃ rs' p' a', durable st rs' p' a' ∧ rs `prefix_of` rs' ∧ an_hold a' = None.

Inductive commit_failed (s : RecoveryJournal) (rs : list JournalRecord) : RecoveryJournal → Prop :=
| failed_idle st' : idle (rj_store s) st' → commit_failed s rs (set_rj_store st' s)
| failed_latched st' code : kept_history rs st' → commit_failed s rs (latch code "process" (set_rj_store st' s)).

Record advanced (s : RecoveryJournal) (rs : list JournalRecord) (p : Projection) (a : AnchorState) (plan : Plan)
    (st' : JournalStore) (d : Delta) (a' : AnchorState) : Prop := {
  ad_verified : verify_commit p (pl_records plan) = Ret d;
  ad_store : store_at st' (rs ++ pl_records plan) (apply_delta p d) a';
  ad_object : same_object (rj_store s) st';
  ad_counter : an_counter a' = an_counter a + 1;
}.
Inductive commit_done (s : RecoveryJournal) (rs : list JournalRecord) (p : Projection) (a : AnchorState) (plan : Plan) :
    RecoveryJournal → Prop :=
| done_before st' : idle (rj_store s) st' → all_stored (map _row_params rs) (pl_records plan) →
    stored_rows (map _row_params rs) (pl_records plan) ≠ [] → commit_done s rs p a plan (set_rj_store st' s)
| done_now st' d a' : advanced s rs p a plan st' d a' →
    commit_done s rs p a plan (set_rj_projection (Some (apply_delta p d)) (set_rj_store st' s)).

(** Nothing stands against the commit. *)
Definition may_append (rs : list JournalRecord) (a : AnchorState) (plan : Plan) : Prop :=
  _checked_records (pl_records plan) = Ret (pl_records plan) ∧
  inserts_ok (map _row_params rs) (map _row_params (pl_records plan)) = true ∧
  ∀ r, last (pl_records plan) = Some r → slot_ok a (_record_head r) None = true.

Lemma appended_store_at s rs p a plan d r s' : store_at s rs p a → planned p plan → verify_commit p (pl_records plan) = Ret d →
  last (pl_records plan) = Some r → p_head (apply_delta p d) = Some (_record_head r) → appended s (pl_records plan) a r s' →
  store_at s' (rs ++ pl_records plan) (apply_delta p d) (next_anchor a (_record_head r) None).
Proof.
  intros [Hh Ht Ha Hd Hw] Hp Hv Hr Hhead [[Eio Eios Ec Ef Eb Ecl] Htx Htab Hat Hins]. split; cbn [next_anchor an_journal_uuid an_head].
  - eapply history_more; [done|done|done|]. by rewrite <-Ht.
  - by rewrite Htab, Ht, map_app.
  - done.
  - done.
  - unfold writable in *. destruct Hat as [-> _], Ha as [Ha _]. rewrite Ha in Hw. cbn [next_anchor an_hold some_b negb].
    rewrite Ef, Ec, Eb, Ecl. by destruct (some_b (an_hold a)); [rewrite andb_false_r in Hw|].
Qed.

Lemma landed_durable s rs p a plan d r s' : store_at s rs p a → planned p plan → verify_commit p (pl_records plan) = Ret d →
  last (pl_records plan) = Some r → p_head (apply_delta p d) = Some (_record_head r) → an_hold a = None →
  landed s (pl_records plan) a r s' →
  ∃ rs' p' a', durable s' rs' p' a' ∧ rs `prefix_of` rs' ∧ an_hold a' = None.
Proof.
  intros Hs Hp Hv Hr Hhead Hnone [Ht Hf|a' Ht Hins Hf Ha'].
  - exists rs, p, a. split_and!; [|done|done]. pose proof (store_at_durable _ _ _ _ Hs) as Hd. by eapply same_disk_durable.
  - destruct Hs as [Hh Htab Ha Hd Hw].
    assert (an_journal_uuid a' = an_journal_uuid a ∧ an_hold a' = None) as [Huuid Hnone'] by by destruct Ha' as [->| ->].
    exists (rs ++ pl_records plan), (apply_delta p d), a'. split_and!; [|by apply prefix_app_r|done]. split.
    + rewrite Huuid. eapply history_more; [done|done|done|by rewrite <-Htab].
    + by rewrite Ht, Htab, map_app.
    + done.
    + destruct Ha' as [->| ->].
      * exists rs, p. split_and!; [apply Hh|done|by constructor].
      * exists (rs ++ pl_records plan), (apply_delta p d). split_and!; [|done|constructor]. eapply live_commit; [apply Hh|done|done].
Qed.

Lemma writable_hold s a : writable s = true → js_anchor s = Some a → an_hold a = None.
Proof. unfold writable. intros H Ha. rewrite Ha in H. destruct (an_hold a); [|done]. by rewrite andb_false_r in H. Qed.

Lemma store_at_hold s rs p a : store_at s rs p a → an_hold a = None.
Proof. intros [_ _ [Ha _] _ Hw]. by eapply writable_hold. Qed.

Lemma kept_here s s' rs p a : store_at s rs p a → idle s s' ∨ broken_from s s' → kept_history rs s'.
Proof.
  intros Hs Hi _. exists rs, p, a. split_and!; [|done|by eapply store_at_hold]. apply store_at_durable in Hs.
  destruct Hi; [by eapply idle_durable|by eapply broken_durable].
Qed.

Lemma commit_ends plan sync s rs p a : rj_projection s = Some p → store_at (rj_store s) rs p a →
  (∀ d, verify_commit p (pl_records plan) = Ret d → planned p plan) →
  ends (_commit plan sync) s
    (λ seqs s', commit_done s rs p a plan s' ∧
       (stored_rows (map _row_params rs) (pl_records plan) = [] → seqs = map (λ r, event_seq (position r)) (pl_records plan)))
    (λ _ s', commit_failed s rs s' ∧ (works (rj_store s) → planned p plan → may_append rs a plan → False)).
Proof.
  intros Hproj Hs Hplan. pose proof (sat_table _ _ _ _ Hs) as Htab. unfold _commit, projection, latched_error, _latch. ends_step. ends_step. unfold on_store. ends_step.
  ends_call find_duplicate_ends.
  - intros [seqs|] st1 (Hi & Hw & Hst).
    + ends_step. rewrite Htab in Hst. destruct Hst. split; [by apply done_before|done].
    + ends_step. ends_step. ends_step. cbn [rj_projection set_rj_store] in *. rewrite Hproj in *. ends_step.
      2: { done. }
      match goal with X : the (Some p) = Ret _ |- _ => injection X as <- end. ends_step. ends_step.
      2: { split; [by apply failed_idle|]. intros _ Hp. destruct (planned_is_verified p plan) as (d & _ & Hv & _);
             [eapply live_keyed; apply Hs|done|]. rewrite (Hv _ (same_forms _)) in *. done. }
      match goal with X : caught_in _ _ = Ret ?x |- _ => rename X into Hc; rename x into found end.
      unfold caught_in in Hc. destruct (verify_commit p (pl_records plan)) as [d|e] eqn:Hv.
      2: { destruct (str_in _ _); [|done]. injection Hc as <-. ends_step. ends_step. ends_step. split.
           - apply (failed_latched s rs st1). eapply kept_here; [exact Hs|by left].
           - intros _ Hp. destruct (planned_is_verified p plan) as (d & _ & Hv' & _); [eapply live_keyed; apply Hs|done|].
             by rewrite (Hv' _ (same_forms _)) in Hv. }
      pose proof (Hplan d eq_refl) as Hp.
      injection Hc as <-. destruct (commit_head rs p plan d) as (r & Hr & Hhead); [apply Hs|done|done|].
      ends_step. ends_step. ends_step. cbn [rj_store set_rj_store].
      pose proof (idle_store_at _ _ _ _ _ Hi Hs) as Hs1.
      ends_call (append_ends (pl_records plan) sync st1 a r (sat_anchor _ _ _ _ Hs1) Hr).
      * intros seqs st2 (-> & Hnone & Happ). ends_step. ends_step. ends_step.
        pose proof (ap_object _ _ _ _ _ Happ) as Hobj.
        assert (same_object (rj_store s) st2) as Hobj' by (destruct Hi as (n & err & Hn & ->); destruct Hobj; split; cbn in *; [done|lia|done..]).
        split; [|done]. apply (done_now s rs p a plan st2 d (next_anchor a (_record_head r) None)). split; [done| |done|done].
        by eapply appended_store_at.
      * intros e st2 [Hl Hw2]. ends_step. ends_step. ends_step. split.
        -- apply (failed_latched s rs st2). intros Hset. eapply landed_durable; [exact Hs1|done..|by eapply store_at_hold|by apply Hl].
        -- intros Hw' _ (Hch & Hins & Hslot). specialize (Hslot r Hr). rewrite Hw2 in Hslot; [done| |apply Hs1|done| ].
           ++ by eapply idle_works.
           ++ by rewrite (sat_table _ _ _ _ Hs1).
  - intros e st1 [Hi Hw]. case_bool_decide.
    + ends_step. ends_step. ends_step. split.
      * apply (failed_latched s rs st1). eapply kept_here; [exact Hs|]. naive_solver.
      * intros Hw' _ (Hch & Hins & _). apply Hw; [done|apply Hs|done|]. rewrite Htab. by apply inserts_fresh.
    + ends_step. split.
      * apply failed_idle. by destruct Hi as [?|[? _]].
      * intros Hw' _ (Hch & Hins & _). apply Hw; [done|apply Hs|done|]. rewrite Htab. by apply inserts_fresh.
Qed.
