(* ===== verification/RecoveryOps.v ===== *)
(** * The calls on a handle keep the journal

    [in_step]: disk, anchor and projection agree.  [fine rs s]: the disk of [s]
    holds a history that goes on from [rs], and if the handle is ready it is in
    step.  Every call takes a handle in step to a fine one.

    Whatever breaks, every operation of the store, and so every call on a
    handle, only adds rows and slot writes, and takes answers in order. *)

From S2P Require Import Prelude PyValue PyJson Sha256 CanonJson PyBytes JsonParse JournalValue JournalSource JournalRecords.
From S2P Require Import JsonRoundtrip JournalClaims JournalSeal JournalStored JournalAccepts JournalSealThm JournalSourceThm JournalState JournalPlan.
From S2P Require Import JournalVerify JournalReplay JournalCopies JournalFrontThm JournalClaimThm JournalReplayThm JournalInv JournalSafe JournalBounds.
From S2P Require Import JournalAnchor JournalAnchorThm JournalStore Hoare JournalStoreThm JournalAppendThm RecoveryJournal RecoveryCommit.
Local Open Scope string_scope.
Local Open Scope Z_scope.
Local Open Scope list_scope.

#[local] Opaque sha256_hex sha256_digest _encode_slot _decode_slot verify_commit open_record.

Record in_step (s : RecoveryJournal) (rs : list JournalRecord) (p : Projection) (a : AnchorState) : Prop := {
  is_store : store_at (rj_store s) rs p a;
  is_projection : rj_projection s = Some p;
  is_unheld : rj_hold_detail s = None;
}.

(** The disk of [s] holds a history that goes on from [rs]. *)
Record sound (rs : list JournalRecord) (s : RecoveryJournal) (rs' : list JournalRecord) (p : Projection) (a : AnchorState) : Prop := {
  so_prefix : rs `prefix_of` rs';
  so_durable : durable (rj_store s) rs' p a;
  so_ready : state s = "ready" → in_step s rs' p a;
}.
(** The handle is not held for a fault of the journal's own. *)
Definition unblamed (s : RecoveryJournal) : Prop := ∀ d : HoldDetail, rj_hold_detail s = Some d → d.1.1.2 = "process".
(** [clean]: no call so far could have found one. *)
Definition fine (clean : Prop) (rs : list JournalRecord) (s : RecoveryJournal) : Prop :=
  settled_writes (rj_store s) → ∃ rs' p a, sound rs s rs' p a ∧ (clean → an_hold a = None ∧ unblamed s).

Lemma fine_prefix clean rs rs' s : rs `prefix_of` rs' → fine clean rs' s → fine clean rs s.
Proof.
  intros Hp H Hset. destruct (H Hset) as (rs1 & p & a & [Hp' ? ?] & Hc). exists rs1, p, a. split; [|done].
  split; [by etrans|done|done].
Qed.
Lemma in_step_fine clean s rs p a : in_step s rs p a → fine clean rs s.
Proof.
  intros H _. exists rs, p, a. split; [|intros _; split; [eapply store_at_hold; apply H|by intros d; rewrite (is_unheld _ _ _ _ H)]].
  split; [done|apply store_at_durable, H|done].
Qed.

(** *** What a step does to the handle *)

(** Clocks, ids and counters. *)
Record bookkeeping (s s' : RecoveryJournal) : Prop := {
  bk_store : rj_store s' = rj_store s; bk_projection : rj_projection s' = rj_projection s;
  bk_closed : rj_closed s' = rj_closed s; bk_hold : rj_hold_detail s' = rj_hold_detail s;
}.
#[export] Instance bookkeeping_refl : Reflexive bookkeeping.
Proof. by split. Qed.
#[export] Instance bookkeeping_trans : Transitive bookkeeping.
Proof. intros a b c [] []. split; congruence. Qed.

Lemma bookkeeping_in_step s s' rs p a : bookkeeping s s' → in_step s rs p a → in_step s' rs p a.
Proof. intros [] []. split; congruence. Qed.
Lemma bookkeeping_fine clean s s' rs : bookkeeping s s' → fine clean rs s → fine clean rs s'.
Proof.
  intros Hb H Hset. rewrite (bk_store _ _ Hb) in Hset. destruct (H Hset) as (rs' & p & a & [H1 H2 H3] & Hc).
  exists rs', p, a. split; [|unfold unblamed; by rewrite (bk_hold _ _ Hb)]. split; [done|by rewrite (bk_store _ _ Hb)|]. intros Hr.
  eapply bookkeeping_in_step; [exact Hb|]. apply H3. unfold state in *. by rewrite (bk_closed _ _ Hb), (bk_hold _ _ Hb) in Hr.
Qed.

Lemma mint_bookkeeping : within bookkeeping _mint_id.
Proof. unfold _mint_id. repeat within_step. by apply within_modify. Qed.
Lemma clock_bookkeeping : within bookkeeping _read_clock.
Proof. unfold _read_clock. repeat within_step. by apply within_modify. Qed.
Lemma bump_refusal_bookkeeping code digest : within bookkeeping (_bump_refusal code digest).
Proof. by apply within_modify. Qed.
Lemma bump_outcome_bookkeeping code out : within bookkeeping (_bump_refusal_outcome code out).
Proof. by apply within_modify. Qed.

(** A latched handle is not ready. *)
Lemma latch_not_ready code scope s : state (latch code scope s) ≠ "ready".
Proof. unfold state, latch. destruct (rj_closed _), (rj_hold_detail s) eqn:E; cbn; try done. by rewrite E. Qed.
Lemma latch_store code scope s : rj_store (latch code scope s) = rj_store s.
Proof. unfold latch. by destruct (some_b _). Qed.
Lemma latch_unblamed code s : unblamed s → unblamed (latch code "process" s).
Proof. unfold unblamed, latch. destruct (rj_hold_detail s) as [d|] eqn:E; cbn; [by rewrite E|]. by intros _ d [= <-]. Qed.
Lemma latch_fine clean code rs s : fine clean rs s → fine clean rs (latch code "process" s).
Proof.
  intros H Hset. rewrite latch_store in Hset. destruct (H Hset) as (rs' & p & a & [H1 H2 H3] & Hc). exists rs', p, a.
  split; [|intros Hcl; destruct (Hc Hcl); split; [done|by apply latch_unblamed]]. split; [done|by rewrite latch_store|]. intros Hr. by apply latch_not_ready in Hr.
Qed.

Lemma failed_fine clean s rs p a s' : in_step s rs p a → commit_failed s rs s' → fine clean rs s'.
Proof.
  intros Hs [st' Hi|st' code Hk].
  - eapply in_step_fine. destruct Hs as [Hst Hp Hu]. split; [by eapply idle_store_at|done..].
  - intros Hset. rewrite latch_store in Hset. destruct (Hk Hset) as (rs' & p' & a' & Hd & Hpre & Hn). exists rs', p', a'.
    split; [|intros _; split; [done|apply latch_unblamed; intros d; unfold set_rj_store; cbn; by rewrite (is_unheld _ _ _ _ Hs)]].
    split; [done|by rewrite latch_store|]. intros Hr. by apply latch_not_ready in Hr.
Qed.

(** ** The stamp of a commit

    The check before the write refuses a commit that is not of the running boot
    or goes back in time, so a commit that passes it is one of those a live
    history has. *)
Definition stamped (st : Stamp) (plan : Plan) : Prop :=
  Forall (λ r, event_type r ≠ "restart_recovery" ∧ stamp r = st) (pl_records plan).
Lemma stamped_running p plan st d : is_Some (p_head p) → stamped st plan → verify_commit p (pl_records plan) = Ret d → running p st.
Proof.
  intros [h Hh] Hn Hd%verify_commit_accepted. unfold stamped in Hn.
  destruct Hd as [r Hr (_ & Hnone & _)|r Hr Ht _ _|r t f Hr _ _ Hb Hm _|x y Hr Hb Hm _]; [congruence|..];
    rewrite Hr in Hn; apply Forall_cons in Hn as [[? <-] _]; by split.
Qed.

Lemma within_stamped p region r out plan draft pos st v : within_region p region [r] out = Ret (inl plan) →
  seal draft pos st v = Ret r → dr_event_type draft ≠ "restart_recovery" → stamped st plan.
Proof.
  intros Hw Hs Ht. apply within_inl in Hw as [Hr _]. unfold stamped. rewrite Hr. constructor; [|constructor].
  apply seal_shows in Hs. rewrite (sa_stamp _ _ _ _ _ Hs), (sh_event_type _ _ _ (sa_shows _ _ _ _ _ Hs r (or_introl eq_refl))). done.
Qed.

Lemma done_in_step s rs p a plan s' : in_step s rs p a → commit_done s rs p a plan s' →
  all_stored (table (rj_store s')) (pl_records plan) ∧ ∃ rs' p' a', in_step s' rs' p' a' ∧ rs `prefix_of` rs' ∧
    rj_closed s' = rj_closed s ∧ rj_hold_detail s' = rj_hold_detail s.
Proof.
  intros Hs [st' Hi Hall _|st' d a' [Hv Hst _ _]].
  - pose proof (is_store _ _ _ _ Hs) as Hs0. pose proof (idle_store_at _ _ _ _ _ Hi Hs0) as Hs1. split.
    + cbn. by rewrite (sat_table _ _ _ _ Hs1).
    + exists rs, p, a. destruct Hs. by split_and!.
  - split.
    + cbn. rewrite (sat_table _ _ _ _ Hst), map_app. unfold all_stored. rewrite map_app. apply Forall_forall. intros r Hr.
      apply elem_of_app. right. rewrite row_ids. by apply list_elem_of_fmap_2.
    + exists (rs ++ pl_records plan), (apply_delta p d), a'. split_and!; [|by apply prefix_app_r|done|done].
      destruct Hs as [Hs0 Hp Hu]. by split.
Qed.

Lemma capacity_hold_stamped p refusal e st digest plan :
  plan_capacity_hold p refusal e st digest = Ret (Some (inl plan)) → stamped st plan.
Proof.
  unfold plan_capacity_hold. intros H. destruct (some_b _); [done|]. inv_do. injection H as ->. by eapply within_stamped.
Qed.
Lemma refusal_stamped p summary e st plan : plan_ingress_refusal p summary e st = Ret (inl plan) → stamped st plan.
Proof.
  unfold plan_ingress_refusal. intros H. inv_do. case_decide; [done|]. destruct (_ <? _); [done|]. destruct (_ && _); [done|]. inv_do.
  match goal with X : within_region _ _ _ _ = Ret ?r |- _ => destruct r; [|done] end. injection H as ->. by eapply within_stamped.
Qed.
Lemma run_hold_stamped p job a e reason st plan : plan_run_hold p job a e reason st = Ret (inl plan) → stamped st plan.
Proof. unfold plan_run_hold. intros H. plan_inv H. by eapply within_stamped. Qed.
Lemma resume_stamped p e st operator reason plan : plan_operator_resume p e st operator reason = Ret (inl plan) → stamped st plan.
Proof. unfold plan_operator_resume. intros H. plan_inv H. by eapply within_stamped. Qed.

(** The records of an admission. *)
Lemma admission_records p s aid did st plan : plan_admission p s aid did st = Ret (inl plan) →
  ∃ x y, pl_records plan = [x; y] ∧ event_id x = aid ∧ event_id y = did ∧ stamped st plan.
Proof.
  unfold plan_admission. intros H. inv_do. destruct (_ <? _); [done|]. destruct (_ && _); [done|]. inv_do.
  apply within_inl in H as [Hr _].
  match goal with X : seal (admission_draft _ _ _ _ _ _) _ _ _ = Ret ?x, Y : seal (dedupe_draft _ _ _ _ _ _) _ _ _ = Ret ?y |- _ =>
    exists x, y; apply seal_shows in X, Y; pose proof (sa_shows _ _ _ _ _ X x (or_introl eq_refl)) as Hx;
    pose proof (sa_shows _ _ _ _ _ Y y (or_introl eq_refl)) as Hy end.
  rewrite (sh_event_id _ _ _ Hx), (sh_event_id _ _ _ Hy). split_and!; [done..|]. unfold stamped. rewrite Hr.
  match goal with X : sealed_as _ _ _ _ ?x, Y : sealed_as _ _ _ _ ?y |- Forall _ [?x; ?y] =>
    constructor; [split; [by rewrite (sh_event_type _ _ _ Hx)|apply (sa_stamp _ _ _ _ _ X)]|];
    constructor; [split; [by rewrite (sh_event_type _ _ _ Hy)|apply (sa_stamp _ _ _ _ _ Y)]|constructor] end.
Qed.

Lemma in_step_head s rs p a : in_step s rs p a → is_Some (p_head p).
Proof. intros [[_ _ _ Hh _] _ _]. by rewrite Hh. Qed.

Lemma stamp_bookkeeping : within bookkeeping _read_admit_stamp.
Proof.
  unfold _read_admit_stamp, projection. apply within_bind; [apply _|apply clock_bookkeeping|]. intros x. repeat within_step.
Qed.
Lemma stamp_ends s rs p a : in_step s rs p a → ends _read_admit_stamp s (λ _ s', bookkeeping s s' ∧ in_step s' rs p a) (λ _ s', in_step s' rs p a).
Proof.
  intros Hs. ends_call (ends_total bookkeeping _ _ stamp_bookkeeping); intros x s' Hb; [split; [done|]|]; by eapply bookkeeping_in_step.
Qed.

(** ** Validated arguments *)
Lemma caught_some {A} classes (o : outcome A) a : caught_in classes o = Ret (Some a) → o = Ret a.
Proof. unfold caught_in. destruct o; [by intros [= ->]|]. by destruct (str_in _ _). Qed.

Lemma validated_source_ok source valid : validate_source source = Ret valid → source_ok valid.
Proof.
  unfold validate_source. intros H. inv_do. match goal with X : source_from_json _ = Ret ?v |- _ => apply source_from_json_ok in X end.
  congruence.
Qed.

(** ** The calls *)

(** Still in step, and as ready as before. *)
Definition onward (rs : list JournalRecord) (s s' : RecoveryJournal) : Prop := ∃ rs' p' a', in_step s' rs' p' a' ∧ rs `prefix_of` rs' ∧
  rj_closed s' = rj_closed s ∧ rj_hold_detail s' = rj_hold_detail s.

Lemma onward_fine clean rs s s' : onward rs s s' → fine clean rs s'.
Proof. intros (rs' & p & a & Hs & Hp & _). eapply fine_prefix; [exact Hp|]. by eapply in_step_fine. Qed.
Lemma in_step_onward s rs p a : in_step s rs p a → onward rs s s.
Proof. by exists rs, p, a. Qed.
Lemma onward_bookkeeping rs s s' s'' : bookkeeping s' s'' → onward rs s s' → onward rs s s''.
Proof.
  intros Hb (rs' & p & a & Hs & Hp & Hc & Hh). exists rs', p, a. split_and!; [by eapply bookkeeping_in_step|done|..].
  - by rewrite (bk_closed _ _ Hb).
  - by rewrite (bk_hold _ _ Hb).
Qed.
Lemma onward_from rs s s1 s' : bookkeeping s s1 → onward rs s1 s' → onward rs s s'.
Proof.
  intros Hb (rs' & p & a & Hs & Hp & Hc & Hh). exists rs', p, a. split_and!; [done|done|..].
  - by rewrite Hc, (bk_closed _ _ Hb).
  - by rewrite Hh, (bk_hold _ _ Hb).
Qed.

(** A commit that is not a restart. *)
Lemma commit_onward clean plan sync s rs p a : in_step s rs p a → (∀ d, verify_commit p (pl_records plan) = Ret d → planned p plan) →
  ends (_commit plan sync) s (λ _ s', onward rs s s' ∧ all_stored (table (rj_store s')) (pl_records plan)) (λ _, fine clean rs).
Proof.
  intros Hs Hp. ends_call (commit_ends plan sync s rs p a (is_projection _ _ _ _ Hs) (is_store _ _ _ _ Hs) Hp).
  - intros seqs s' [Hd _]. destruct (done_in_step _ _ _ _ _ _ Hs Hd) as [Hall H]. by split.
  - intros e s' [Hf _]. by eapply failed_fine.
Qed.

(** The end of a call that raised before it wrote. *)
#[local] Hint Resolve in_step_fine latch_fine onward_fine in_step_onward : recovery.
Ltac refused := solve [eauto 4 with recovery].
(** One step of a call; what it raises is refused. *)
Ltac call_step := first [ends_step | progress cbv beta | refused].

Lemma projection_ends s rs p a : in_step s rs p a → ends projection s (λ p' s', p' = p ∧ s' = s) (λ _ _, False).
Proof. intros Hs. unfold projection. repeat ends_step; rewrite (is_projection _ _ _ _ Hs) in *; [|done]. by injection H. Qed.

Lemma latched_error_ends {A} clean code rs s (Q : A → RecoveryJournal → Prop) : fine clean rs s →
  ends (latched_error code) s Q (λ _, fine clean rs).
Proof. intros H. unfold latched_error, _latch. repeat ends_step. by apply latch_fine. Qed.

Lemma mint_ends s rs p a : in_step s rs p a → ends _mint_id s (λ _ s', in_step s' rs p a ∧ bookkeeping s s') (λ _ s', in_step s' rs p a).
Proof.
  intros Hs. ends_call (ends_total bookkeeping _ _ mint_bookkeeping); intros x s' Hb; [split; [|done]|]; by eapply bookkeeping_in_step.
Qed.

Lemma capacity_refusal_ends {A} clean s rs p a source aid did refusal st0 (Q : A → RecoveryJournal → Prop) :
  in_step s rs p a → plan_admission p source aid did st0 = Ret (inr refusal) →
  ends (_capacity_refusal refusal source st0) s Q (λ _, fine clean rs).
Proof.
  intros Hs Hplan. unfold _capacity_refusal, _bump_refusal. repeat ends_step; [|refused].
  match goal with |- ends _ ?s1 _ _ => set (s1' := s1) end.
  assert (bookkeeping s s1') as Hb by done. pose proof (bookkeeping_in_step _ _ _ _ _ Hb Hs) as Hs1. clearbody s1'.
  ends_call (mint_ends s1' rs p a Hs1); [|refused]. intros [event_id|] s2 [Hs2 _]; [|apply latched_error_ends; refused].
  ends_step. ends_call (projection_ends s2 rs p a Hs2); [|done]. intros ? ? [-> ->]. ends_step. ends_step; [|refused].
  match goal with X : caught_in _ _ = Ret ?x |- _ => destruct x as [[[plan|]|]|]; [apply caught_some in X|..] end.
  2: apply latched_error_ends; refused. 2: ends_step; refused. 2: apply latched_error_ends; refused.
  ends_step. ends_call (commit_onward clean plan false s2 rs p a Hs2); [..|by intros ? ?].
  - intros d Hd. eapply planned_capacity_hold; [|exact Hplan|eassumption].
    eapply stamped_running; [by eapply in_step_head|by eapply capacity_hold_stamped|exact Hd].
  - intros ? s3 [Ho _]. ends_step. refused.
Qed.

(** A call in step ends onward, or the history is still fine. *)
Definition keeps {A} (clean : Prop) (m : handle_st A) : Prop := ∀ s rs p a, in_step s rs p a →
  ends m s (λ _, fine clean rs) (λ _, fine clean rs).
(** A handle that is not ready is left as it is. *)
Definition guarded {A} (m : handle_st A) : Prop := ∀ s, state s ≠ "ready" → ends m s (λ _ _, False) (λ _ s', s' = s).

Lemma check_ready_ends s (Q : unit → RecoveryJournal → Prop) E : (state s = "ready" → Q tt s) → E (JournalError "journal_closed") s →
  E (JournalError "journal_held") s → ends check_ready s Q E.
Proof.
  intros HQ H1 H2. unfold check_ready. repeat ends_step; try done. apply HQ. unfold state.
  destruct (rj_closed s); [done|]. by destruct (some_b _).
Qed.
Lemma check_ready_guarded {A} (k : unit → handle_st A) : guarded (check_ready ≫= k).
Proof. intros s Hs. ends_step. by apply check_ready_ends. Qed.

Lemma admit_ends clean source s rs p a : in_step s rs p a →
  ends (admit_source source) s
    (λ receipt s', onward rs s s' ∧ rec_admission_id receipt ∈ map rw_event_id (table (rj_store s'))) (λ _, fine clean rs).
Proof.
  intros Hs. unfold admit_source. ends_step. apply check_ready_ends; [intros _|refused..]. repeat ends_step; [|refused].
  destruct a0 as [valid|]; [|ends_step; refused]. match goal with X : caught_in _ _ = _ |- _ => apply caught_some, validated_source_ok in X as Hok end.
  ends_step. ends_call (stamp_ends s rs p a Hs); [|refused].
  intros [st0|] s1 [Hb1 Hs1]; [|apply latched_error_ends; refused]. ends_step. ends_call (mint_ends s1 rs p a Hs1); [|refused]. intros aid s2 [Hs2 Hb2]. ends_step.
  eapply (ends_mono _ _ (λ _ s3, in_step s3 rs p a ∧ bookkeeping s s3) _ (λ _ s3, fine clean rs s3)); [| |done].
  { assert (bookkeeping s s2) as Hb by by transitivity s1. destruct aid; [|by ends_step].
    ends_call (mint_ends s2 rs p a Hs2); [|refused]. intros did s3 [Hs3 Hb3]. split; [done|by transitivity s2]. }
  intros did s3 [Hs3 Hb3]. destruct aid as [aid|], did as [did|]; try (apply latched_error_ends; refused).
  destruct (bool_decide _); [apply latched_error_ends; refused|]. ends_step. ends_call (projection_ends s3 rs p a Hs3); [|done].
  intros ? ? [-> ->]. ends_step. ends_step; [|refused].
  match goal with X : caught_in _ (plan_admission _ _ _ _ _) = Ret ?x |- _ => destruct x as [[plan|refusal]|]; [apply caught_some in X as Hplan..|] end.
  3: apply latched_error_ends; refused. 2: by eapply capacity_refusal_ends.
  destruct (admission_records _ _ _ _ _ _ Hplan) as (x & y & Hrecs & Hx & _ & Hstamped). ends_step.
  ends_call (commit_onward clean plan false s3 rs p a Hs3); [..|by intros ? ?];
    [intros d Hd; eapply planned_admission; [eapply stamped_running; [by eapply in_step_head|exact Hstamped|exact Hd]|done..]|].
  intros seqs s4 [Ho Hall]. ends_step. pose proof Ho as (rs' & p' & a' & Hs4 & Hpre & _).
  ends_call (projection_ends s4 rs' p' a' Hs4); [|done]. intros ? ? [-> ->]. ends_step. ends_step; [|refused].
  destruct seqs as [|? [|? ?]]; try (ends_step; refused). ends_step. split; [by eapply onward_from|].
  cbn. unfold all_stored in Hall. rewrite Hrecs in Hall. apply Forall_cons in Hall as [Hin _]. by rewrite Hx in Hin.
Qed.

Lemma dict_set_members_ok m k v : members_ok m → value_ok v → members_ok (dict_set m k v).
Proof.
  intros [Hnd Hall]%members_ok_spec Hv. apply members_ok_spec. split; [by apply dict_ok_set|].
  clear Hnd. induction m as [|[k' w] m IH]; cbn [dict_set]; [by repeat constructor|]. apply Forall_cons in Hall as [Hw Hall].
  case_decide; constructor; auto.
Qed.

Lemma normalized_ok summary normalized : value_ok summary → refusal_summary_data summary = Ret normalized → members_ok (dict_of normalized).
Proof.
  unfold refusal_summary_data. intros Hok H. inv_do. destruct (items _) as [ms|] eqn:Ems; [|done]. inv_do. injection H as <-.
  match goal with X : _require_keys summary _ = Ret ?m |- _ => rename m into fields; rename X into Hk end.
  assert (members_ok fields) as Hf.
  { unfold _require_keys, _exact_keys_ok in Hk. destruct summary; try done. by destruct (same_keys _ _); [injection Hk as <-|]. }
  cbn [dict_of]. pose proof (items_ok _ _ Ems (get_ok fields "members" Hf)) as Hms. apply dict_set_members_ok; [done|].
  apply value_ok_tuple. match goal with X : seq_outcomes _ = Ret _ |- _ => apply seq_outcomes_spec in X; rename X into Hn end.
  clear -Hms Hn. induction Hn as [|v w vs ws Hv _ IH]; [constructor|]. apply Forall_cons in Hms as [Hok Hms]. constructor; [|auto].
  unfold normalized_member in Hv. destruct (items v) as [[|x [|y [|]]]|] eqn:E; try done. injection Hv as <-.
  apply value_ok_tuple. by apply (items_ok v).
Qed.

Lemma record_refusal_ends clean summary s rs p a : value_ok summary → in_step s rs p a →
  ends (record_refusal summary) s (λ _, onward rs s) (λ _, fine clean rs).
Proof.
  intros Hsummary Hs. unfold record_refusal. ends_step. apply check_ready_ends; [intros _|refused..]. repeat ends_step; [|refused].
  destruct a0 as [normalized|]; [|ends_step; refused].
  match goal with X : caught_in _ _ = _ |- _ => apply caught_some, (normalized_ok _ _ Hsummary) in X as Hok end.
  ends_step. ends_call (stamp_ends s rs p a Hs); [|refused].
  intros [st0|] s1 [Hb1 Hs1]; [|apply latched_error_ends; refused]. ends_step. ends_call (mint_ends s1 rs p a Hs1); [|refused]. intros [event_id|] s2 [Hs2 Hb2];
    [|apply latched_error_ends; refused].
  ends_step. ends_call (projection_ends s2 rs p a Hs2); [|done]. intros ? ? [-> ->]. ends_step. ends_step; [|refused]. cbn zeta.
  match goal with X : caught_in _ (plan_ingress_refusal _ _ _ _) = Ret ?x |- _ => destruct x as [[plan|reason]|]; [apply caught_some in X as Hplan..|] end.
  3: apply latched_error_ends; refused.
  - ends_step. ends_call (commit_onward clean plan false s2 rs p a Hs2); [..|by intros ? ?];
      [intros d Hd; eapply planned_refusal; [eapply stamped_running; [by eapply in_step_head|by eapply refusal_stamped|exact Hd]|done..]|].
    intros seqs s3 [Ho _]. repeat ends_step. eapply onward_from; [by transitivity s1|]. by eapply onward_bookkeeping, Ho.
  - repeat ends_step. assert (bookkeeping s s2) as Hb by by transitivity s1.
    eapply onward_from; [exact Hb|]. eapply onward_bookkeeping; [|by eapply in_step_onward]. done.
Qed.

Lemma run_hold_ends clean job admission s rs p a : in_step s rs p a →
  ends (record_restart_run_hold job admission) s (λ _, onward rs s) (λ _, fine clean rs).
Proof.
  intros Hs. unfold record_restart_run_hold. ends_step. apply check_ready_ends; [intros _|refused..]. repeat ends_step; [|refused].
  destruct a0 as [[job' a']|]; [|ends_step; refused]. ends_step. ends_step; [|refused]. ends_step.
  ends_call (projection_ends s rs p a Hs); [|done]. intros ? ? [-> ->].
  destruct (c_run_holds (p_claims p) !! job') as [existing|].
  { destruct (_ || _); [apply latched_error_ends; refused|]. ends_step. refused. }
  destruct (existsb _ _); [apply latched_error_ends; refused|]. ends_step. ends_step; [|refused]. ends_step.
  ends_call (stamp_ends s rs p a Hs); [|refused].
  intros [st0|] s1 [Hb1 Hs1]; [|apply latched_error_ends; refused]. ends_step. ends_call (mint_ends s1 rs p a Hs1); [|refused]. intros [event_id|] s2 [Hs2 Hb2];
    [|apply latched_error_ends; refused].
  destruct (_ || _); [apply latched_error_ends; refused|]. ends_step. ends_step; [|refused].
  match goal with X : caught_in _ (plan_run_hold _ _ _ _ _ _) = Ret ?x |- _ => destruct x as [[plan|reason]|]; [apply caught_some in X as Hplan..|] end.
  2, 3: apply latched_error_ends; refused.
  ends_step. ends_call (commit_onward clean plan false s2 rs p a Hs2); [..|by intros ? ?];
    [intros d Hd; eapply planned_run_hold; [eapply stamped_running; [by eapply in_step_head|by eapply run_hold_stamped|exact Hd]|done..]|].
  intros seqs s3 [Ho _]. ends_step. pose proof Ho as (rs' & p' & an & Hs3 & Hpre & _).
  ends_call (projection_ends s3 rs' p' an Hs3); [|done]. intros ? ? [-> ->].
  destruct (_ !! job') as [h|]; [|apply latched_error_ends; refused].
  destruct (bool_decide (rh_admission_id h = a')); [|apply latched_error_ends; refused].
  ends_step. eapply onward_from; [|exact Ho]. by transitivity s1.
Qed.

(** Closing reads and writes nothing. *)
Lemma idle_close s : ends close s (λ _ s', ∃ b, idle (set_closed b s) s') (λ _ s', ∃ b, idle (set_closed b s) s').
Proof.
  assert (∀ s0, idle (set_closed true s) s0 → ∀ s1, idle s0 s1 → ∃ b, idle (set_closed b s) s1) as Ht by (intros; exists true; by eapply idle_trans).
  unfold close. repeat ends_step. destruct (js_closed s) eqn:E.
  { ends_step. exists true. replace (set_closed true s) with s by (rewrite <-E; by destruct s). apply idle_refl. }
  repeat ends_step.
  assert (∀ s1, idle (set_closed true s) s1 → ends (catching [OS_ERROR] touch ≫= λ _, touch) s1
    (λ _ s', ∃ b, idle (set_closed b s) s') (λ _ s', ∃ b, idle (set_closed b s) s')) as Hrest.
  { intros s1 H1. assert (∀ s2, idle s1 s2 → ends touch s2 (λ _ s', ∃ b, idle (set_closed b s) s') (λ _ s', ∃ b, idle (set_closed b s) s')) as Hlast.
    { intros s2 H2. ends_call touch_ends; [intros ? s3 H3|intros ? s3 [H3 _]]; eapply Ht; try exact H3; by eapply idle_trans. }
    ends_step. ends_step. ends_call touch_ends; [intros ? s2 H2|intros ? s2 [H2 _]; destruct (str_in _ _)]; try by apply Hlast.
    by eapply Ht. }
  destruct (js_connection _).
  - repeat ends_step. ends_call touch_ends; [intros ? s1 H1; by apply Hrest|intros ? s1 [H1 _]]. destruct (str_in _ _); [by apply Hrest|].
    by exists true.
  - ends_step. apply Hrest, idle_refl.
Qed.

Lemma closed_durable b s s' rs p a : idle (set_closed b s) s' → durable s rs p a → durable s' rs p a.
Proof. intros Hi Hd. eapply idle_durable; [exact Hi|]. by eapply (same_disk_durable s). Qed.
Lemma closed_settled b s s' : idle (set_closed b s) s' → settled_writes s' → settled_writes s.
Proof. by intros (n & err & _ & ->). Qed.

Lemma closed_fine clean b rs s s' : fine clean rs s → idle (set_closed b (rj_store s)) (rj_store s') →
  state s' ≠ "ready" → (unblamed s → unblamed s') → fine clean rs s'.
Proof.
  intros H Hi Hn Hu Hset. destruct (H (closed_settled _ _ _ Hi Hset)) as (rs' & p & a & [H1 H2 H3] & Hc).
  exists rs', p, a. split; [|naive_solver]. split; [done|by eapply closed_durable|done].
Qed.

Lemma close_ends clean s rs : fine clean rs s → ends close_journal s (λ _, fine clean rs) (λ _, fine clean rs).
Proof.
  intros H. unfold close_journal. repeat ends_step. destruct (rj_closed s); [by ends_step|]. repeat ends_step.
  unfold on_store. ends_step. cbn [rj_store set_rj_closed].
  ends_call idle_close; intros ? st' [b Hi]; (eapply closed_fine; [exact H|exact Hi|done|done]).
Qed.

#[local] Opaque sha256_hex sha256_digest _encode_slot _decode_slot verify_commit open_record _analyze_anchor.

(** ** The store *)
Lemma touch_evolves : within store_evolves touch.
Proof. eapply within_impl; [apply looks_evolves|apply touch_looks]. Qed.
Lemma step_evolves {A} (v : A) : within store_evolves (_sqlite_step v).
Proof. eapply within_impl; [apply looks_evolves|apply sqlite_step_looks]. Qed.

(** A change of the object that is not one of the disk or of the answers. *)
Lemma modify_evolves f : (∀ s, js_disk (f s) = js_disk s ∧ js_io (f s) = js_io s ∧ js_ios (f s) = js_ios s ∧ js_slots (f s) = js_slots s) →
  within store_evolves (modify f).
Proof.
  intros H. apply within_modify. intros s. destruct (H s) as (Hd & Hi & Hn & Hs). split; [done|by exists []| |by rewrite Hn].
  unfold table. by rewrite Hd.
Qed.
Lemma take_evolves : within store_evolves take_io.
Proof. intros s. apply looks_evolves, looks_taken. Qed.
#[local] Hint Resolve touch_evolves step_evolves take_evolves : within.
#[local] Hint Extern 1 (within store_evolves (modify _)) => apply modify_evolves; intros ?; split_and!; reflexivity : within.

Lemma operate_evolves effect : (∀ landed s, store_evolves s (effect landed s)) → within store_evolves (operate effect).
Proof. apply operate_within; [apply _|apply _|exact looks_evolves]. Qed.
Lemma slot_bytes_evolves slot c landed s : store_evolves s (write_slot_bytes slot c landed s).
Proof. unfold write_slot_bytes. destruct (dk_anchor _); [|done]. split; [done|by eexists [_]|done|done]. Qed.

Lemma write_slot_evolves body : within store_evolves (_write_slot body).
Proof.
  unfold _write_slot, write_through. within_auto; try apply operate_evolves, slot_bytes_evolves.
Qed.
Lemma commit_sql_evolves records : within store_evolves (_commit_sql records).
Proof.
  intros s. pose proof (commit_sql_ends records s) as H. cbn zeta in H. unfold ends in H. destruct (_commit_sql records s) as [o s']. cbn [fst snd] in *.
  assert (∀ rows txn, after_sql s rows txn s' → table s `prefix_of` rows → store_evolves s s') as Ha.
  { intros rows txn (n & err & Hn & ->) Hp. split; [done|by exists []|exact Hp|exact Hn]. }
  destruct o; [destruct H as [H _]|destruct H as (_ & txn & [H|[H _]])]; (eapply Ha; [exact H|]); [by apply prefix_app_r|done|by apply prefix_app_r].
Qed.
#[local] Hint Resolve write_slot_evolves commit_sql_evolves : within.

Lemma guarded_evolves m : within store_evolves m → within store_evolves (_guarded_write m).
Proof. intros Hm. unfold _guarded_write, _rollback, catching. within_auto; try exact Hm. Qed.
#[local] Hint Extern 3 (within store_evolves (_guarded_write _)) => apply guarded_evolves; solve [within_auto] : within.

Lemma append_evolves records sync : within store_evolves (append records sync).
Proof. unfold append, _check_writable, _sync_path. within_auto. Qed.
Lemma find_duplicate_evolves records : within store_evolves (find_duplicate records).
Proof. unfold find_duplicate, _check_writable, catching. within_auto. Qed.
Lemma close_evolves : within store_evolves close.
Proof. unfold close, catching. within_auto. Qed.
Lemma persist_hold_evolves code boot : within store_evolves (persist_hold code boot).
Proof. unfold persist_hold. within_auto. Qed.
Lemma write_anchor_evolves head : within store_evolves (write_anchor head).
Proof. unfold write_anchor, _check_writable. within_auto. Qed.
Lemma pragma_evolves h name value expected : within store_evolves (_set_pragma h name value expected).
Proof. unfold _set_pragma. within_auto. Qed.
#[local] Hint Resolve append_evolves find_duplicate_evolves close_evolves persist_hold_evolves write_anchor_evolves pragma_evolves : within.
Lemma finish_open_evolves h : within store_evolves (finish_open h).
Proof. unfold finish_open, _check_writable. within_auto. Qed.
Lemma rows_evolves {A} (consume : A → JournalRecord → outcome A) acc : within store_evolves (rows consume acc).
Proof.
  assert (∀ stored previous seen acc, within store_evolves (rows_loop consume stored previous seen acc)) as Hloop.
  { induction stored as [|row stored IH]; intros previous seen acc'; cbn [rows_loop]; within_auto. }
  unfold rows. within_auto.
Qed.
#[local] Hint Resolve finish_open_evolves rows_evolves : within.
Lemma replay_finding_evolves : within store_evolves _replay_finding.
Proof. unfold _replay_finding, scan_all. within_auto. Qed.
Lemma open_evolves h require_wal : within store_evolves (open h require_wal).
Proof.
  unfold open, _locked, _open_steps, _verify_open, _read_anchor, _wal_found, _connect, _apply_connection_settings, _presentation_finding,
    _genesis_uuid_conflicts, set_found. within_auto.
Qed.
#[local] Hint Resolve replay_finding_evolves open_evolves : within.

#[local] Hint Extern 3 (within _ (catching _ _)) => apply within_catching; [apply _|apply _|solve [within_auto]] : within.

(** ** The handle *)
Definition handle_evolves (s s' : RecoveryJournal) : Prop := store_evolves (rj_store s) (rj_store s').
#[export] Instance handle_evolves_refl : Reflexive handle_evolves.
Proof. intros s. unfold handle_evolves. reflexivity. Qed.
#[export] Instance handle_evolves_trans : Transitive handle_evolves.
Proof. intros a b c H1 H2. unfold handle_evolves in *. by etrans. Qed.

Lemma on_store_evolves {A} (m : journal_st A) : within store_evolves m → within handle_evolves (on_store m).
Proof. intros Hm s. specialize (Hm (rj_store s)). unfold on_store, zoom. by destruct (m (rj_store s)) as [o st]. Qed.
Lemma handle_modify_evolves f : (∀ s, rj_store (f s) = rj_store s) → within handle_evolves (modify f).
Proof. intros H. apply within_modify. intros s. unfold handle_evolves. by rewrite H. Qed.
#[local] Hint Extern 2 (within handle_evolves (modify _)) => apply handle_modify_evolves; intros ?; reflexivity : within.
#[local] Hint Extern 2 (within handle_evolves (on_store _)) => apply on_store_evolves; solve [within_auto] : within.

Lemma latch_evolves code scope : within handle_evolves (_latch code scope).
Proof. apply handle_modify_evolves. intros s. unfold latch. by destruct (some_b _). Qed.
#[local] Hint Resolve latch_evolves : within.
Ltac handle_auto := unfold store_error, latched_error, _read_admit_stamp, projection, _mint_id, _read_clock, check_ready,
  _bump_refusal, _bump_refusal_outcome; within_auto.

Lemma commit_evolves plan sync : within handle_evolves (_commit plan sync).
Proof. unfold _commit. handle_auto. Qed.
Lemma committed_evolves plan sync : within handle_evolves (committed plan sync).
Proof. unfold committed. within_auto. apply commit_evolves. Qed.
#[local] Hint Resolve commit_evolves committed_evolves : within.

Lemma admit_evolves source : within handle_evolves (admit_source source).
Proof. unfold admit_source, _capacity_refusal. handle_auto. Qed.
Lemma refusal_evolves summary : within handle_evolves (record_refusal summary).
Proof. unfold record_refusal. handle_auto. Qed.
Lemma run_hold_evolves job a : within handle_evolves (record_restart_run_hold job a).
Proof. unfold record_restart_run_hold. handle_auto. Qed.
Lemma close_journal_evolves : within handle_evolves close_journal.
Proof. unfold close_journal. handle_auto. Qed.
Lemma open_verified_evolves h resume : within handle_evolves (_open_verified h resume).
Proof. unfold _open_verified, _held_journal, _run_restart_recovery, _resume_at_open, write_anchor_again. handle_auto. Qed.
Lemma reset_evolves s : handle_evolves s (reset s).
Proof. unfold handle_evolves. by split; [|exists []|..]. Qed.
Lemma open_recovery_evolves h resume : within handle_evolves (open_recovery_journal h resume).
Proof.
  unfold open_recovery_journal. handle_auto; try apply open_verified_evolves. apply within_modify, reset_evolves.
Qed.
