(* ===== verification/RecoveryLive.v ===== *)
(** * An admission that goes through

    On a handle in step, with an I/O that works and nothing in the way of the
    plan, [admit_source] returns a receipt.  Of what the write path checks only
    the freshness of ids and digests is left to assume: the records agree with
    their bodies, the rows pass the constraints of the table and the anchor
    fits its slot. *)

From S2P Require Import Prelude PyValue PyJson Sha256 CanonJson PyBytes JsonParse JournalValue JournalSource JournalRecords.
From S2P Require Import JournalClaims JournalSeal JournalStored JournalAccepts JournalSealThm JournalSourceThm JournalState JournalPlan.
From S2P Require Import JournalVerify JournalReplay JournalCopies JournalFrontThm JournalClaimThm JournalReplayThm JournalInv JournalSafe JournalBounds.
From S2P Require Import JournalAnchor JournalAnchorThm JournalStore Hoare JournalStoreThm JournalAppendThm.
From S2P Require Import RecoveryJournal RecoveryCommit RecoveryOps.
Local Open Scope string_scope.
Local Open Scope Z_scope.
Local Open Scope list_scope.

#[local] Opaque sha256_hex sha256_digest _encode_slot _decode_slot verify_commit open_record.

(** ** Records agree with their bodies *)
Definition frozen (r : JournalRecord) : Prop := _freeze (DDict (ids r)) = DDict (ids r) ∧ _freeze (DDict (data r)) = DDict (data r).

Lemma freeze_idem w : _freeze (_freeze w) = _freeze w.
Proof.
  induction w as [| | | |l IH|l IH|m IH|] using value_nested_ind; try done; cbn [_freeze]; f_equal; rewrite map_map.
  1, 2: by apply map_ext_Forall.
  apply map_ext_Forall. rewrite Forall_forall in *. intros kv Hkv. cbn. by rewrite IH.
Qed.

Lemma frozen_agrees r : frozen r → record_eq (read_back r) r = true.
Proof.
  intros [Hi Hd]. unfold record_eq. cbn [read_back position stamp event_id event_type schema_version actor ids data body record_digest].
  rewrite !bool_decide_true, Z.eqb_refl by done. cbn [andb].
  assert (∀ m, _freeze (DDict m) = DDict m → py_eq (DDict (sort_members m)) (DDict m) = true) as Heq.
  { intros m Hm. unfold py_eq. apply bool_decide_true. change (DDict (sort_members m)) with (stored (DDict m)). by rewrite eq_key_stored, Hm. }
  by rewrite !Heq.
Qed.

Lemma records_checked records : records ≠ [] → Forall storable records → Forall frozen records → _checked_records records = Ret records.
Proof.
  intros Hne Hs Hf. unfold _checked_records. destruct records as [|r records]; [done|].
  assert (all_agree (r :: records) = Ret true) as ->; [|done]. generalize dependent (r :: records). clear. intros rs _ Hs Hf.
  induction Hs as [|x rs Hx _ IH]; [done|]. apply Forall_cons in Hf as [Hfx Hf]. cbn [all_agree]. unfold storable in Hx. rewrite Hx.
  cbn [mbind outcome_bind]. by rewrite frozen_agrees, IH.
Qed.

(** ** Rows pass the constraints *)
Lemma encoded_dict_len m b : encode (DDict m) = Ret b → 2 ≤ str_len b.
Proof.
  unfold encode, canonical_json. cbn [to_json _canonicalize]. intros H. inv_do. injection H as <-.
  rewrite !str_len_app. change (str_len "{") with 1. change (str_len "}") with 1. unfold str_len. lia.
Qed.

(** What [seal] says of the row. *)
Record sealed_row (r : JournalRecord) : Prop := {
  sr_ok : record_ok r;
  sr_frozen : frozen r;
  sr_body : 2 ≤ str_len (body r);
}.
Lemma seal_row draft pos st v r : seal draft pos st v = Ret r → sealed_row r.
Proof.
  intros H. pose proof (sealed_record_ok _ _ _ _ _ H) as (Hok & Hr & He). split; [done| |by eapply encoded_dict_len].
  assert (DDict (ids r) = _freeze (DDict (dr_ids draft)) ∧ DDict (data r) = _freeze (DDict (dr_data draft))) as [Hi Hd].
  { rewrite Hr. done. }
  split; [by rewrite Hi, freeze_idem|by rewrite Hd, freeze_idem].
Qed.

Lemma digest_hex s : hex64 (_record_digest s).
Proof. apply sha256_hex_shape. Qed.

Definition top_seq (rows : list Row) : Z := foldr (λ r m, Z.max (rw_event_seq r) m) 0 rows.
Lemma top_seq_snoc rows row : 0 ≤ rw_event_seq row → top_seq (rows ++ [row]) = Z.max (top_seq rows) (rw_event_seq row).
Proof. intros H. induction rows as [|r rows IH]; unfold top_seq in *; cbn [foldr app] in *; lia. Qed.
Lemma chained_top rs first : chained rs 1 first → top_seq (map _row_params rs) = Z.of_nat (length rs).
Proof.
  intros H. induction rs as [|r rs IH] using rev_ind; [done|]. rewrite map_app; cbn [map]; rewrite top_seq_snoc, IH.
  - destruct (H (length rs) r) as [Hs _]; [by apply list_lookup_middle|]. cbn. rewrite Hs, length_app. cbn. lia.
  - intros i x Hi. pose proof (lookup_lt_Some _ _ _ Hi) as Hlt. destruct (H i x) as [Hs Hp]; [by apply lookup_app_l_Some|]. split; [done|].
    rewrite Hp. destruct i as [|i]; [done|]. cbn. by rewrite lookup_app_l by lia.
  - destruct (H (length rs) r) as [Hs _]; [by apply list_lookup_middle|]. cbn. lia.
Qed.

Lemma row_inserts rows r : sealed_row r → 1 ≤ str_len (event_type r) ≤ 64 → event_seq (position r) = top_seq rows + 1 →
  event_id r ∉ map rw_event_id rows → record_digest r ∉ map rw_record_digest rows → insert_ok rows (_row_params r) = true.
Proof.
  intros [Hok _ Hb] Ht Hseq Hid Hdig. unfold insert_ok. cbn [_row_params rw_event_seq rw_event_id rw_event_type rw_body rw_record_digest].
  pose proof (event_seq_range _ (rec_position r Hok)) as Hs. pose proof (rec_event_id r Hok) as Hi. pose proof (rec_size r Hok) as Hsize.
  pose proof (proj1 (digest_hex (body r))) as Hd. rewrite <-(rec_digest r Hok) in Hd.
  unfold _ID_PATTERN, id_pattern, MAX_ID_BYTES, MAX_RECORD_BYTES in *. fold (top_seq rows). rewrite Hseq in *. bool_simpl.
  rewrite !andb_true_iff. split_and!; try (apply Z.leb_le; lia); try (apply Z.eqb_eq; lia).
  apply forallb_forall. intros row Hrow%list_elem_of_In. rewrite !bool_decide_false; [done|..].
  - intros E. apply Hdig. rewrite <-E. by apply list_elem_of_fmap_2.
  - intros E. apply Hid. rewrite <-E. by apply list_elem_of_fmap_2.
Qed.

(** ** The next anchor *)
Lemma anchored_v1 file a : anchored file a → _uuid_ok (DStr (an_journal_uuid a)) = true ∧ 1 ≤ an_counter a ≤ MAX_SEQ.
Proof.
  intros (r0 & r1 & _ & [_ _ (b & _ & Hk & <-) _]). destruct (v1_members b Hk) as [].
  unfold _slot_kind in Hk. destruct (_ || _ || _ || _); [done|]. destruct (_ && _ && _ && _) eqn:E; [|done].
  apply andb_true_iff in E as [E _]. apply andb_true_iff in E as [E _]. apply andb_true_iff in E as [Hc Hu].
  apply int_in_ret in Hc as [_ Hc]. split; [|exact Hc]. cbn [_anchor_state_from_body an_journal_uuid].
  by destruct (get b "journal_uuid").
Qed.

Lemma next_v1 c uuid r : _uuid_ok (DStr uuid) = true → 1 ≤ c ≤ MAX_SEQ → record_ok r →
  _slot_kind (anchor_body_at c uuid (_record_head r) None) = "v1".
Proof.
  intros Hu Hc Hok. pose proof (rec_position r Hok) as [Hg He Hcs _ _ _ _]. pose proof (digest_hex (body r)) as [Hl Hd].
  rewrite <-(rec_digest r Hok) in Hl, Hd.
  assert (_int_in (DInt c) 1 MAX_SEQ = true) as H1 by (cbn; rewrite andb_true_iff, !Z.leb_le; lia).
  assert (head_ok (anchor_head_json (_record_head r)) = true) as H2.
  { unfold head_ok, anchor_head_json.
    change (get _ "generation") with (DInt (journal_generation (position r))). change (get _ "commit_seq") with (DInt (commit_seq (position r))).
    change (get _ "event_seq") with (DInt (event_seq (position r))). change (get _ "record_digest") with (DStr (record_digest r)).
    cbn [_int_in _hex64_ok str_ok]. rewrite !andb_true_iff, !Z.leb_le, Z.eqb_eq. split_and!; try lia; done. }
  unfold _slot_kind. change (get _ "counter") with (DInt c). change (get _ "journal_uuid") with (DStr uuid).
  change (get _ "head") with (anchor_head_json (_record_head r)). change (get _ "hold") with DNone. rewrite H1, Hu, H2. reflexivity.
Qed.

Lemma slot_ok_next s a r : at_anchor s a → an_hold a = None → an_counter a < MAX_SEQ → record_ok r →
  hd_commit_seq (an_head a) ≤ commit_seq (position r) → hd_event_seq (an_head a) ≤ event_seq (position r) →
  slot_ok a (_record_head r) None = true.
Proof.
  intros [_ (file & _ & [Hu Hc]%anchored_v1)] Hn Hlt Hok Hcs Hes. unfold slot_ok. rewrite Hn. cbn [some_b andb negb].
  pose proof (next_v1 (an_counter a + 1) (an_journal_uuid a) r Hu ltac:(lia) Hok) as Hk.
  destruct (anchor_slot_encodes _ _ _ _ Hk) as [slot Hslot]. rewrite bool_decide_true by done. rewrite Hslot. cbn [_record_head hd_commit_seq hd_event_seq].
  rewrite !(proj2 (Z.leb_le _ _)) by done. done.
Qed.

(** ** The records of an admission *)
Record admitted_rows (p : Projection) (plan : Plan) (x y : JournalRecord) : Prop := {
  am_records : pl_records plan = [x; y];
  am_row_x : sealed_row x; am_row_y : sealed_row y;
  am_type_x : event_type x = "admission"; am_type_y : event_type y = "dedupe_decision";
  am_seq_x : ∀ head, p_head p = Some head → event_seq (position x) = hd_event_seq head + 1;
  am_seq_y : ∀ head, p_head p = Some head → event_seq (position y) = hd_event_seq head + 2;
  am_commit_y : ∀ head, p_head p = Some head → commit_seq (position y) = hd_commit_seq head + 1;
}.
Lemma admission_sealed p s aid did st plan : plan_admission p s aid did st = Ret (inl plan) → ∃ x y, admitted_rows p plan x y.
Proof.
  unfold plan_admission. intros H. inv_do. destruct (_ <? _); [done|]. destruct (_ && _); [done|]. inv_do.
  apply within_inl in H as [Hr _]. match goal with X : the (p_head p) = Ret _ |- _ => apply the_ret in X as Hh end.
  match goal with X : seal (admission_draft _ _ _ _ _ _) _ _ _ = Ret ?x, Y : seal (dedupe_draft _ _ _ _ _ _) _ _ _ = Ret ?y |- _ =>
    exists x, y; rename X into Hx; rename Y into Hy end.
  split; [done|by eapply seal_row|by eapply seal_row|..]; apply seal_shows in Hx, Hy.
  - by rewrite (sh_event_type _ _ _ (sa_shows _ _ _ _ _ Hx _ (or_introl eq_refl))).
  - by rewrite (sh_event_type _ _ _ (sa_shows _ _ _ _ _ Hy _ (or_introl eq_refl))).
  - intros head Hhd. rewrite (sa_position _ _ _ _ _ Hx). cbn. congruence.
  - intros head Hhd. rewrite (sa_position _ _ _ _ _ Hy). cbn.
    rewrite Hh in Hhd. injection Hhd as ->. lia.
  - intros head Hhd. rewrite (sa_position _ _ _ _ _ Hy). cbn. rewrite Hh in Hhd. by injection Hhd as ->.
Qed.

(** No id and no digest of the records is one of a row, or of each other. *)
Definition unused (rows : list Row) (plan : Plan) : Prop :=
  NoDup (map rw_event_id rows ++ map event_id (pl_records plan)) ∧
  NoDup (map rw_record_digest rows ++ map record_digest (pl_records plan)).

Lemma unused_pair {A} (l : list A) x y : NoDup (l ++ [x; y]) → x ∉ l ∧ y ∉ l ++ [x].
Proof.
  rewrite NoDup_app. intros (_ & Hd & Hxy). split; [intros Hx; apply (Hd x Hx); by left|].
  rewrite elem_of_app, list_elem_of_singleton. intros [Hy|Heq].
  - apply (Hd y Hy). right. by left.
  - apply NoDup_cons_1_1 in Hxy. apply Hxy. rewrite Heq. by left.
Qed.

(** The numbers of the rows end in that of the head. *)
Lemma table_top st rs p a : store_at st rs p a → top_seq (map _row_params rs) = hd_event_seq (an_head a).
Proof.
  intros Hst. pose proof (sat_head _ _ _ _ Hst) as Hhead.
  destruct (live_chain rs p (hi_live _ _ _ (sat_history _ _ _ _ Hst))) as [[_ ->]|(r & _ & Hh & _ & Hch & Hlen)]; [done|].
  rewrite (chained_top _ _ Hch), <-Hlen. rewrite Hhead in Hh. by injection Hh as ->.
Qed.
Lemma planned_storable st rs p a plan : store_at st rs p a → planned p plan → Forall storable (pl_records plan).
Proof.
  intros Hst Hp. destruct (planned_is_verified p plan) as (_ & _ & _ & H); [|done|done].
  eapply live_keyed, (hi_live _ _ _ (sat_history _ _ _ _ Hst)).
Qed.

Lemma admission_may_append st rs p a source aid did stamp0 plan : store_at st rs p a → planned p plan →
  plan_admission p source aid did stamp0 = Ret (inl plan) → an_counter a < MAX_SEQ → unused (map _row_params rs) plan →
  may_append rs a plan.
Proof.
  intros Hst Hp Hplan Hc [Hids Hdigs]. destruct (admission_sealed _ _ _ _ _ _ Hplan) as (x & y & [Hr Hx Hy Tx Ty Sx Sy Cy]).
  pose proof (sat_head _ _ _ _ Hst) as Hhead. specialize (Sx _ Hhead). specialize (Sy _ Hhead). specialize (Cy _ Hhead).
  pose proof (table_top _ _ _ _ Hst) as Htop. pose proof (planned_storable _ _ _ _ _ Hst Hp) as Hstorable.
  unfold may_append. rewrite Hr in *. cbn [map] in *.
  apply unused_pair in Hids as [Ix Iy], Hdigs as [Dx Dy].
  assert (insert_ok (map _row_params rs) (_row_params x) = true) as Okx.
  { apply row_inserts; [done|by rewrite Tx|lia|done|done]. }
  assert (insert_ok (map _row_params rs ++ [_row_params x]) (_row_params y) = true) as Oky.
  { apply row_inserts; [done|by rewrite Ty| | |].
    - rewrite top_seq_snoc; cbn [_row_params rw_event_seq]; [|pose proof (event_seq_range _ (rec_position x (sr_ok x Hx))); lia]. rewrite Htop. lia.
    - by rewrite map_app.
    - by rewrite map_app. }
  split_and!.
  - apply records_checked; [done|done|]. repeat constructor; by apply sr_frozen.
  - cbn [inserts_ok]. by rewrite Okx, Oky.
  - intros r' [= <-]. eapply slot_ok_next; [apply Hst|by eapply store_at_hold|done|by apply sr_ok|lia|lia].
Qed.

(** ** The call *)

(** What the clock and the id factory give to the next admission. *)
Record inputs (s : RecoveryJournal) (p : Projection) (st : Stamp) (aid did : string) : Prop := {
  in_clock : read_clock (rj_clock s (rj_clocks s)) = Ret (Some (wall_time st, mono_us st));
  in_boot : rj_boot_id s = Some (boot_id st);
  in_running : running p st;
  in_first : or_none (v ← rj_ids s (rj_minted s); validate_id v) = Ret (Some aid);
  in_second : or_none (v ← rj_ids s (S (rj_minted s)); validate_id v) = Ret (Some did);
  in_distinct : did ≠ aid;
}.

Lemma mint_next s i : or_none (v ← rj_ids s (rj_minted s); validate_id v) = Ret (Some i) →
  ends _mint_id s (λ o s', o = Some i ∧ s' = set_rj_minted (S (rj_minted s)) s) (λ _ _, False).
Proof. intros Hi. unfold _mint_id. do 4 ends_step. ends_step; rewrite Hi in *; [|done]. split; [congruence|done]. Qed.

Lemma stamp_next s rs p a st aid did : in_step s rs p a → inputs s p st aid did →
  ends _read_admit_stamp s (λ o s', o = Some st ∧ s' = set_rj_clocks (S (rj_clocks s)) s) (λ _ _, False).
Proof.
  intros Hs [Hc Hb [_ Hm] _ _ _]. unfold _read_admit_stamp, _read_clock. do 5 ends_step. ends_step; rewrite Hc in *; [|done].
  match goal with X : Ret _ = Ret ?x |- _ => injection X as <- end. ends_step. ends_call (projection_ends (set_rj_clocks (S (rj_clocks s)) s) rs p a); [|..|done].
  - by eapply (bookkeeping_in_step s).
  - intros ? ? [-> ->]. rewrite (proj2 (Z.ltb_ge _ _)) by done. do 3 ends_step. cbn [rj_boot_id set_rj_clocks]. rewrite Hb. by destruct st.
Qed.

Lemma ready_checked s : state s = "ready" → ends check_ready s (λ _ s', s' = s) (λ _ _, False).
Proof.
  unfold state, check_ready. intros H. repeat ends_step; try done; destruct (rj_closed s); try done; by destruct (some_b _).
Qed.

Lemma seqs_pair p plan x y : admitted_rows p plan x y → map (λ r, event_seq (position r)) (pl_records plan) = [event_seq (position x); event_seq (position y)].
Proof. intros []. by rewrite am_records0. Qed.

Lemma admit_returns source valid s rs p a st aid did plan : in_step s rs p a → state s = "ready" → works (rj_store s) →
  validate_source source = Ret valid → inputs s p st aid did → plan_admission p valid aid did st = Ret (inl plan) →
  an_counter a < MAX_SEQ → unused (map _row_params rs) plan →
  ends (admit_source source) s
    (λ receipt s', rec_admission_id receipt = aid ∧ state s' = "ready" ∧ ∃ p' a', in_step s' (rs ++ pl_records plan) p' a')
    (λ _ _, False).
Proof.
  intros Hs Hready Hworks Hvalid Hin Hplan Hc Hun. pose proof Hin as [_ Hboot Hrun Hid1 Hid2 Hne].
  unfold admit_source. ends_step. ends_call (ready_checked s Hready); [|done]. intros [] ? ->.
  ends_step. ends_step; rewrite Hvalid in *; [|done]. match goal with X : caught_in _ _ = Ret ?x |- _ => injection X as <- end.
  ends_step. ends_call (stamp_next s rs p a st aid did Hs Hin); [|done]. intros ? ? [-> ->].
  set (s1 := set_rj_clocks _ s). assert (bookkeeping s s1) as Hb1 by done.
  ends_step. ends_call (mint_next s1 aid); [exact Hid1| |done]. intros ? ? [-> ->]. ends_step.
  set (s2 := set_rj_minted _ s1). assert (bookkeeping s s2) as Hb2 by done.
  ends_call (mint_next s2 did); [exact Hid2| |done]. intros ? ? [-> ->]. set (s3 := set_rj_minted _ s2). assert (bookkeeping s s3) as Hb3 by done.
  pose proof (bookkeeping_in_step _ _ _ _ _ Hb3 Hs) as Hs3. rewrite bool_decide_false by done. clearbody s3. clear s1 Hb1 s2 Hb2.
  ends_step. ends_call (projection_ends s3 rs p a Hs3); [|done]. intros ? ? [-> ->].
  ends_step. ends_step; rewrite Hplan in *; [|done]. match goal with X : caught_in _ _ = Ret ?x |- _ => injection X as <- end.
  assert (planned p plan) as Hp by by eapply planned_admission; [|eapply validated_source_ok|].
  pose proof (admission_may_append _ _ _ _ _ _ _ _ _ (is_store _ _ _ _ Hs) Hp Hplan Hc Hun) as Hmay.
  pose proof (admission_sealed _ _ _ _ _ _ Hplan) as (x & y & Hxy).
  ends_step. ends_call (commit_ends plan false s3 rs p a (is_projection _ _ _ _ Hs3) (is_store _ _ _ _ Hs3)); [done| |].
  2: { intros e s' [_ Hno]. apply Hno; [|done|done]. by rewrite (bk_store _ _ Hb3). }
  assert (stored_rows (map _row_params rs) (pl_records plan) = []) as Hfresh by by apply inserts_fresh, Hmay.
  intros seqs s4 [Hd Hseqs]. rewrite (Hseqs Hfresh), (seqs_pair _ _ _ _ Hxy). clear seqs Hseqs.
  destruct Hd as [? ? ? Hne'|st' d a' [Hv Hst Hobj _]]; [done|]. set (s4 := set_rj_projection _ _). 
  assert (in_step s4 (rs ++ pl_records plan) (apply_delta p d) a') as Hs4.
  { split; [done|done|]. apply (is_unheld _ _ _ _ Hs3). }
  ends_step. ends_call (projection_ends s4 _ _ _ Hs4); [|done]. intros ? ? [-> ->]. ends_step.
  ends_step; rewrite (sat_head _ _ _ _ Hst) in *; [|done]. ends_step. cbn [rec_admission_id]. split; [done|]. split; [|by eexists _, _].
  unfold state in *. change (rj_closed s4) with (rj_closed s3). change (rj_hold_detail s4) with (rj_hold_detail s3).
  by rewrite (bk_closed _ _ Hb3), (bk_hold _ _ Hb3).
Qed.
