(* ===== verification/RecoveryOpen.v ===== *)
(** * Opening the store and scanning its rows

    The scan of [_replay_finding] is [replay], one record at a time: over the
    rows of a live history it rebuilds the projection, and finds the anchored
    record where the anchor, at most one commit behind, says it is.  What [open]
    finds on a disk whose anchor file names a state: it changes nothing on the
    disk, and it condemns the journal only for what the host shows or SQLite
    reports. *)

From S2P Require Import Prelude PyValue PyJson Sha256 CanonJson PyBytes JsonParse JournalValue JournalSource JournalRecords.
From S2P Require Import JournalClaims JournalSeal JournalStored JournalAccepts JournalSealThm JournalSourceThm JournalState JournalPlan.
From S2P Require Import JournalVerify JournalReplay JournalCopies JournalReplayThm JournalInv JournalSafe JournalBounds.
From S2P Require Import JournalAnchor JournalAnchorThm JournalStore Hoare JournalStoreThm JournalAppendThm RecoveryJournal RecoveryCommit.
From S2P Require Import JournalFrontThm JournalClaimThm RecoveryOps.
Local Open Scope string_scope.
Local Open Scope Z_scope.
Local Open Scope list_scope.

#[local] Opaque sha256_hex sha256_digest _encode_slot _decode_slot verify_commit open_record.

(** ** The scan is the grouping loop *)
Definition scan_core : Type := Projection * bool * list (list JournalRecord).
Definition scan_commit (anchor : Head) (c : scan_core) (group : list JournalRecord) : outcome scan_core :=
  let '(p, ok, groups) := c in
  candidate ← commit p group;
  Ret (candidate, anchor_record_ok anchor ok group, groups ++ [group]).
Definition core (sc : Scan) : scan_core := (sc_candidate sc, sc_anchor_record_ok sc, sc_groups sc).

Lemma scan_loop anchor rs : ∀ sc current size seq c, sc_reading sc = (current, size, seq) →
  group_loop (scan_commit anchor) (core sc) rs current size seq = Ret c →
  ∃ sc', fold_outcome (scan_next anchor) sc rs = Ret sc' ∧ core sc' = c ∧ (sc_reading sc').1.1 = [].
Proof.
  induction rs as [|r rs IH]; intros sc current size seq c Hr H.
  - cbn in H. destruct current; [|done]. injection H as <-. exists sc. by rewrite Hr.
  - cbn [group_loop fold_outcome] in H |- *. inv_do.
    assert (group_next current size seq r = Ret (let fresh := match current with [] => true | _ => false end in
      if Z.of_nat (length (current ++ [r])) =? (if fresh : bool then commit_size (position r) else size)
      then (Some (current ++ [r]), ([], 0, 0))
      else (None, (current ++ [r], if fresh : bool then commit_size (position r) else size,
                   if fresh : bool then commit_seq (position r) else seq)))) as Hnext.
    { unfold group_next. repeat match goal with X : replay_check _ _ = Ret ?u |- _ => rewrite X; clear X end. done. }
    cbn zeta in Hnext. unfold scan_next at 1. rewrite Hr, Hnext. cbn [mbind outcome_bind].
    clear Hnext. set (full := Z.of_nat (length (current ++ [r])) =? _) in *. destruct full.
    + inv_do. match goal with X : scan_commit _ (core sc) _ = Ret _ |- _ => unfold scan_commit in X; cbn [core] in X end. inv_do.
      match goal with X : commit _ _ = Ret _ |- _ => rewrite X end. cbn [mbind outcome_bind].
      match goal with X : Ret _ = Ret ?c |- _ => injection X as <- end. by eapply IH.
    + by eapply IH.
Qed.

(** ** The anchored record *)
Lemma anchor_ok_other anchor ok g : Forall (λ r, event_seq (position r) ≠ hd_event_seq anchor) g → anchor_record_ok anchor ok g = ok.
Proof.
  unfold anchor_record_ok. intros H. revert ok. induction H as [|r g Hr _ IH]; intros ok; [done|]. cbn [foldl].
  rewrite (proj2 (Z.eqb_neq _ _) Hr). apply IH.
Qed.
Lemma anchor_ok_last ok g r : last g = Some r → commit_index (position r) = commit_size (position r) - 1 →
  anchor_record_ok (_record_head r) ok g = true.
Proof.
  intros Hl Hi. apply last_Some in Hl as [g' ->]. unfold anchor_record_ok. rewrite foldl_app. cbn [foldl _record_head hd_event_seq hd_commit_seq hd_record_digest hd_generation].
  by rewrite Z.eqb_refl, !Z.eqb_refl, Hi, Z.eqb_refl, bool_decide_true.
Qed.

Lemma framing_last g seq size i r : check_framing g seq size i = Ret tt → last g = Some r →
  commit_size (position r) = size ∧ commit_index (position r) = i + Z.of_nat (length g) - 1.
Proof.
  revert i. induction g as [|x g IH]; intros i H Hl; [done|]. cbn [check_framing] in H. inv_do.
  match goal with X : replay_check _ _ = Ret _ |- _ => apply replay_check_ret in X; bool_simpl end.
  destruct g as [|y g]; [injection Hl as <-; cbn; split; [done|lia]|]. destruct (IH _ H Hl) as [? Hi]. split; [done|]. rewrite Hi. cbn [length]. lia.
Qed.
Lemma framed_last g r : framed g → last g = Some r → commit_index (position r) = commit_size (position r) - 1.
Proof.
  intros (x & g' & -> & Hsize & Hf) Hl. destruct (framing_last _ _ _ _ _ Hf Hl) as [Hs Hi]. rewrite Hi, Hs, Hsize. lia.
Qed.

Lemma read_back_last g r : last g = Some r → last (map read_back g) = Some (read_back r).
Proof. intros H. apply last_Some in H as [g' ->]. rewrite map_app. cbn [map]. by rewrite last_snoc. Qed.
Lemma read_back_head r : _record_head (read_back r) = _record_head r.
Proof. done. Qed.

(** The records of a commit come after the head. *)
Lemma commit_after_head p g d h : verify_commit p g = Ret d → p_head p = Some h →
  Forall (λ r, event_seq (position r) ≠ hd_event_seq h) (map read_back g).
Proof.
  intros Hd Hh. destruct (commit_checked _ _ _ Hd) as (_ & _ & _ & _ & Hc). rewrite Hh in Hc. apply Forall_forall.
  intros r (x & -> & Hx)%list_elem_of_fmap_1. apply list_elem_of_lookup in Hx as [i Hi]. destruct (Hc i x Hi) as [Hs _].
  cbn [read_back position]. lia.
Qed.

Lemma commit_after_seq rs p plan d h : live rs p → planned p plan → verify_commit p (pl_records plan) = Ret d → p_head p = Some h →
  hd_commit_seq (d_head d) = hd_commit_seq h + 1.
Proof.
  intros Hl Hp Hd Hh. destruct (commit_head _ _ _ _ Hl Hp Hd) as (r & Hr & Hhead). injection Hhead as ->. cbn.
  destruct (commit_checked _ _ _ Hd) as (r0 & g & Hg & Hall & _). destruct (Hall r) as [-> _].
  { rewrite last_lookup in Hr. by eapply list_elem_of_lookup_2. }
  Transparent verify_commit. unfold verify_commit in Hd. Opaque verify_commit. rewrite Hg in Hd. unfold check_commit in Hd. inv_do.
  rewrite Hh in *. repeat match goal with X : replay_check _ _ = Ret _ |- _ => apply replay_check_ret in X end. by bool_simpl.
Qed.

(** ** Scanning a live history *)
Definition scans (anchor : Head) (rs : list JournalRecord) (p : Projection) (ok : bool) : Prop :=
  ∃ gs, group_loop (scan_commit anchor) (new_projection, false, []) (map read_back rs) [] 0 0 = Ret (p, ok, gs).

Lemma scans_more anchor rs p ok plan d : live rs p → planned p plan → verify_commit p (pl_records plan) = Ret d → scans anchor rs p ok →
  scans anchor (rs ++ pl_records plan) (apply_delta p d) (anchor_record_ok anchor ok (map read_back (pl_records plan))).
Proof.
  intros Hl Hp Hd [gs Hs]. destruct (planned_is_verified p plan) as (d' & _ & Hv & _); [by eapply live_keyed|done|].
  assert (d' = d) as -> by (rewrite (Hv _ (same_forms _)) in Hd; by injection Hd).
  pose proof (Hv _ (read_back_forms (pl_records plan))) as Hv'. eexists. rewrite map_app, (group_app _ _ _ _ _ _ _ _ Hs).
  rewrite <-(app_nil_r (map read_back (pl_records plan))). rewrite group_framed by by eapply verified_framed.
  unfold scan_commit, commit. rewrite Hv'. cbn [mbind outcome_bind group_loop]. by rewrite app_nil_r.
Qed.

Lemma live_scans anchor rs p : live rs p → ∃ ok, scans anchor rs p ok.
Proof.
  induction 1 as [|rs p plan d Hl [ok IH] Hp Hd]; [by exists false, []|]. eexists. by apply scans_more.
Qed.

Lemma live_scans_head rs p h : live rs p → p_head p = Some h → scans h rs p true.
Proof.
  destruct 1 as [|rs p plan d Hl Hp Hd]; [done|]. intros Hh. destruct (live_scans h rs p Hl) as [ok Hs].
  destruct (commit_head rs p plan d Hl Hp Hd) as (r & Hr & Hh'). assert (h = _record_head r) as -> by congruence.
  pose proof (scans_more _ _ _ _ _ _ Hl Hp Hd Hs) as Hs'. rewrite <-(read_back_head r) in Hs' at 2.
  rewrite (anchor_ok_last _ _ (read_back r)) in Hs'; [done|by apply read_back_last|].
  exact (framed_last (pl_records plan) r (verified_framed _ _ _ Hd) Hr).
Qed.

(** The lag of the anchor. *)
Lemma ahead_scans rs0 p0 h rs p : live rs0 p0 → p_head p0 = Some h → one_ahead rs0 p0 rs p →
  scans h rs p true ∧ ∃ head, p_head p = Some head ∧ (p = p0 ∧ head = h ∨ hd_commit_seq head = hd_commit_seq h + 1).
Proof.
  intros Hl Hh [|plan d Hp Hd].
  - split; [by apply live_scans_head|]. exists h. auto.
  - pose proof (scans_more h _ _ _ _ _ Hl Hp Hd (live_scans_head _ _ _ Hl Hh)) as Hs.
    rewrite (anchor_ok_other h true) in Hs by by eapply commit_after_head. split; [done|].
    exists (d_head d). split; [done|]. right. by eapply commit_after_seq.
Qed.

#[local] Opaque sha256_hex sha256_digest _encode_slot _decode_slot verify_commit open_record _analyze_anchor genesis_uuid_conflicts.

(** ** What SQLite and the host may show *)

(** No answer of SQLite reports a damaged database. *)
Definition no_damage (io : nat → io) : Prop := ∀ n code name landed, io n = Breaks (SqliteError code name) landed →
  fi_scope (classify_sqlite_error code name) = "process".
(** The database presents itself as the journal's, whole. *)
Definition presentable (h : Host) : bool :=
  match h_stat h DB_FILENAME with Ret (Some st) => PAGE_SIZE <=? st_size st | _ => false end &&
  bool_decide (h_pragma h "application_id" = VInt APPLICATION_ID) && bool_decide (h_pragma h "user_version" = VInt USER_VERSION) &&
  bool_decide (h_schema_rows h = h_reference_rows h) && bool_decide (h_pragma h "journal_mode" = VStr "wal") &&
  bool_decide (h_integrity h = ["ok"]).
(** Nothing outside the journal's own code gives a reason to condemn it. *)
Definition healthy (h : Host) (io : nat → io) : Prop := presentable h = true ∧ no_damage io.

(** ** A store being opened *)

(** The finding is not the journal's fault, or SQLite reported it. *)
Definition no_fault (s : JournalStore) (f : Finding) : Prop := fi_scope f = "process" ∨ reported s f.
Definition last_error (s : JournalStore) : Finding := classify_sqlite_error (js_error s).1 (js_error s).2.

(** A call that only took answers, and what it says of the last error. *)
Definition quiet (s s' : JournalStore) : Prop := idle s s' ∧ (last_error s' = last_error s ∨ reported s (last_error s')).

Lemma touch_quiet s : ends touch s (λ _, quiet s) (λ _ s', quiet s s' ∧ ¬ works s).
Proof.
  pose proof (touch_ends s) as H. unfold ends, quiet in *. destruct (touch s) as [o s'] eqn:E. cbn [fst snd] in *.
  assert (last_error s' = last_error s ∨ reported s (last_error s')) as He; [|by destruct o; naive_solver].
  unfold touch, operate, take_io, mbind, st_bind, modify, raise in E. destruct (js_io s (js_ios s)) as [|f landed] eqn:Eio.
  - left. by injection E as <- <-.
  - destruct f as [c n| |]; cbn in E; injection E as <- <-; [right|by left|by left]. by exists (js_ios s), c, n, landed.
Qed.

Record opening (s s' : JournalStore) (a : AnchorState) : Prop := {
  op_disk : js_disk s' = js_disk s; op_io : js_io s' = js_io s; op_slots : js_slots s' = js_slots s;
  op_ios : (js_ios s ≤ js_ios s')%nat; op_txn : js_txn s' = None; op_broken : js_broken s' = false; op_closed : js_closed s' = false;
  op_anchor : js_anchor s' = None ∨ js_anchor s' = Some a;
  op_error : no_fault s (last_error s');
}.

Lemma opening_quiet s s1 s2 a : opening s s1 a → quiet s1 s2 → opening s s2 a.
Proof.
  intros [Hd Hi Hs Hn Ht Hb Hc Ha He] [(n & err & Hn' & ->) Hq]. split; cbn; try done; [lia|]. destruct Hq as [Hq|Hq].
  - by rewrite Hq.
  - right. destruct Hq as (m & c & nm & l & Hm & E & Hf). rewrite Hi in E. exists m, c, nm, l. split; [lia|done].
Qed.
Lemma opening_finding s s1 a f : opening s s1 a → opening s (set_finding f s1) a.
Proof. by intros []. Qed.
Lemma opening_connection s s1 a b : opening s s1 a → opening s (set_connection b s1) a.
Proof. by intros []. Qed.
Lemma opening_wal s s1 a w : opening s s1 a → opening s (set_wal_found w s1) a.
Proof. by intros []. Qed.
Lemma opening_anchor s s1 a : opening s s1 a → opening s (set_anchor (Some a) s1) a.
Proof. intros []. split; try done. by right. Qed.
Lemma opening_held s s1 a n : opening s s1 a → opening s (set_held_slots n s1) a.
Proof. by intros []. Qed.
Lemma opening_names s s' a : opening s s' a → file_names s a → file_names s' a.
Proof. intros [Hd _ _ _ _ _ _ _ _]. unfold file_names. by rewrite Hd. Qed.
Lemma opening_table s s' a : opening s s' a → table s' = table s.
Proof. intros [Hd _ _ _ _ _ _ _ _]. unfold table. by rewrite Hd. Qed.

Lemma slice_all n s : (String.length s ≤ n)%nat → slice 0 n s = s.
Proof.
  unfold slice. rewrite Nat.sub_0_r. revert n. induction s as [|c s IH]; intros [|n] H; cbn in *; try done; [lia|].
  f_equal. apply IH. lia.
Qed.
Lemma analyzed file a : anchored file a → _analyze_anchor (slice 0 (Z.to_nat (ANCHOR_BYTES + 1)) file) = (Some a, None).
Proof.
  intros H. rewrite slice_all; [by apply anchored_analyzed|]. destruct H as (r0 & r1 & -> & [L0 L1 _ _]).
  pose proof (layout_length r0 r1 L0 L1) as Hl. unfold str_len in Hl. unfold ANCHOR_BYTES in *. lia.
Qed.

(** ** The checks of an open *)
Section open.
Context (h : Host) (s : JournalStore) (a : AnchorState) (Hfile : file_names s a).
Context (Hgenesis : genesis_uuid_conflicts (table s) (an_journal_uuid a) = Ret false).

Lemma touch_opening s1 : opening s s1 a → ends touch s1 (λ _ s2, opening s s2 a ∧ js_finding s2 = js_finding s1 ∧
    js_anchor s2 = js_anchor s1 ∧ js_connection s2 = js_connection s1)
  (λ _ s2, opening s s2 a ∧ ¬ works s1).
Proof.
  intros Ho. ends_call touch_quiet; [intros ? s2 Hq|intros ? s2 [Hq Hw]]; pose proof (opening_quiet _ _ _ _ Ho Hq); [|done].
  destruct Hq as [(n & err & _ & ->) _]. done.
Qed.

Lemma read_anchor_ends s1 : opening s s1 a → js_finding s1 = None → js_connection s1 = false →
  ends _read_anchor s1 (λ _ s2, opening s s2 a ∧ js_finding s2 = None ∧ js_anchor s2 = Some a ∧ js_connection s2 = false)
    (λ _ s2, opening s s2 a).
Proof.
  intros Ho Hf Hc. unfold _read_anchor. ends_step. ends_call (touch_opening s1 Ho); [|naive_solver]. intros ? s2 (Ho2 & Hf2 & Ha2 & Hc2).
  repeat ends_step. destruct (opening_names _ _ _ Ho2 Hfile) as (file & Ef & Hanch). rewrite Ef. ends_step.
  ends_call (touch_opening s2 Ho2); [|naive_solver]. intros ? s3 (Ho3 & Hf3 & Ha3 & Hc3). cbn zeta. rewrite (analyzed file a Hanch).
  repeat ends_step. cbn [some_b]. ends_step. split_and!; [|done|done|cbn; congruence].
  by apply opening_held, opening_finding, opening_anchor.
Qed.

(** Checks that only take answers. *)
Definition only_opens {A} (m : journal_st A) : Prop := ∀ s1, opening s s1 a →
  ends m s1 (λ _ s2, opening s s2 a ∧ js_finding s2 = js_finding s1 ∧ js_anchor s2 = js_anchor s1 ∧
      js_connection s2 = js_connection s1)
    (λ _ s2, opening s s2 a).
Lemma only_ret {A} (x : A) : only_opens (mret x).
Proof. by intros s1 Ho. Qed.
Lemma only_touch : only_opens touch.
Proof. intros s1 Ho. ends_call (touch_opening s1 Ho); [done|naive_solver]. Qed.
Lemma only_require b e : only_opens (require b e).
Proof. intros s1 Ho. by ends_step. Qed.
Lemma only_lift {A} (o : outcome A) : only_opens (lift_outcome o).
Proof. intros s1 Ho. by ends_step. Qed.
Lemma only_bind {A B} (m : journal_st A) (k : A → journal_st B) : only_opens m → (∀ x, only_opens (k x)) → only_opens (m ≫= k).
Proof.
  intros Hm Hk s1 Ho. ends_step. ends_call (Hm s1 Ho); [|done]. intros x s2 (Ho2 & Hf & Ha & Hc).
  ends_call (Hk x s2 Ho2); [|done]. intros y s3 (Ho3 & Hf3 & Ha3 & Hc3). split_and!; [done|congruence..].
Qed.
Lemma only_for_each {A} (xs : list A) (f : A → journal_st unit) : (∀ x, only_opens (f x)) → only_opens (for_each xs f).
Proof. intros Hf. induction xs as [|x xs IH]; [apply only_ret|]. by apply only_bind. Qed.

Create HintDb only.
#[local] Hint Resolve only_ret only_touch only_require only_lift : only.
#[local] Hint Extern 2 (only_opens (_ ≫= _)) => apply only_bind : only.

Lemma only_pragma name value expected : only_opens (_set_pragma h name value expected).
Proof. unfold _set_pragma. auto 10 with only. Qed.
Lemma only_settings : only_opens (_apply_connection_settings h).
Proof.
  unfold _apply_connection_settings. apply only_bind; [apply only_touch|intros _]. apply only_bind; [apply only_require|intros _].
  apply only_for_each. intros [[name value] expected]. apply only_pragma.
Qed.
Lemma only_wal : only_opens (_wal_found h).
Proof. unfold _wal_found. apply only_bind; [apply only_touch|intros _]. destruct (h_wal h); auto with only. Qed.
Lemma genesis_ends s1 : opening s s1 a → ends (_genesis_uuid_conflicts (an_journal_uuid a)) s1
  (λ b s2, b = false ∧ opening s s2 a ∧ js_finding s2 = js_finding s1 ∧ js_anchor s2 = js_anchor s1 ∧ js_connection s2 = js_connection s1)
  (λ _ s2, opening s s2 a).
Proof.
  intros Ho. unfold _genesis_uuid_conflicts. ends_step. ends_call (only_touch s1 Ho); [|done]. intros _ s2 (Ho2 & Hf & Ha & Hc).
  repeat ends_step; fold (table s2) in *; rewrite (opening_table _ _ _ Ho2), Hgenesis in *; [|done]. split; [congruence|done].
Qed.

(** Since [s1] only such checks were made. *)
Record since (s1 s2 : JournalStore) : Prop := {
  si_opening : opening s s2 a; si_finding : js_finding s2 = js_finding s1; si_anchor : js_anchor s2 = js_anchor s1;
  si_connection : js_connection s2 = js_connection s1;
}.
Lemma since_start s1 : opening s s1 a → since s1 s1.
Proof. by split. Qed.
Lemma since_step {A B} (m : journal_st A) (k : A → journal_st B) s1 s2 Q : only_opens m → since s1 s2 →
  (∀ x s3, since s1 s3 → ends (k x) s3 Q (λ _ s', opening s s' a)) → ends (m ≫= k) s2 Q (λ _ s', opening s s' a).
Proof.
  intros Hm [Ho Hf Ha Hc] Hk. ends_step. ends_call (Hm s2 Ho); [|done]. intros x s3 (? & ? & ? & ?). apply Hk.
  split; [done|congruence..].
Qed.

(** The database presents itself as the journal's. *)
Lemma presentation_ends s1 s2 : since s1 s2 →
  ends (_presentation_finding h) s2 (λ f s3, since s1 s3 ∧ (presentable h = true → f = None)) (λ _ s3, opening s s3 a).
Proof.
  intros Hs. unfold _presentation_finding.
  do 4 (apply (since_step _ _ s1); [apply only_touch|done|]; clear Hs; intros _ ? Hs). cbn zeta. unfold presentable.
  destruct (bool_decide _ && _ && _) eqn:E1.
  { ends_step. split; [done|]. intros Hp. bool_simpl.
    match goal with X : h_pragma h "application_id" = VInt 0, Y : h_pragma h "application_id" = _ |- _ => rewrite X in Y; discriminate Y end. }
  destruct (negb _) eqn:E2. { ends_step. split; [done|]. intros Hp. by bool_simpl. }
  match goal with |- ends (if ?b then _ else _) _ _ _ => destruct b eqn:E3 end.
  { ends_step. split; [done|]. intros Hp. bool_simpl.
    match goal with X : h_pragma h "user_version" = _ |- _ => rewrite X in E3 end. done. }
  destruct (_ || _ || _) eqn:E4.
  { ends_step. split; [done|]. intros Hp. bool_simpl. by repeat rewrite bool_decide_true in E4 by done. }
  apply (since_step _ _ s1); [apply only_touch|done|]. intros _ ? Hs'. ends_step. split; [done|]. intros Hp. bool_simpl.
  by rewrite bool_decide_true.
Qed.

Lemma connect_ends s1 s2 : since s1 s2 → ends (_connect h) s2 (λ _ s3, opening s s3 a ∧ js_finding s3 = js_finding s1 ∧ js_anchor s3 = js_anchor s1 ∧ js_connection s3 = true)
    (λ _ s3, opening s s3 a).
Proof.
  intros Hs. unfold _connect. apply (since_step _ _ s1); [apply only_touch|done|]. clear Hs. intros _ s3 [Ho Hf Ha Hc]. ends_step. ends_step.
  assert (only_opens (touch;; require (h_no_ckpt h) (StoreError "sqlite_unsupported");; touch;;
    require (h_main_is_db h) (StoreError "journal_path_invalid"))) as Hrest by auto 10 with only.
  ends_call (Hrest (set_connection true s3)); [..|done].
  - by apply opening_connection.
  - intros _ s4 (Ho4 & Hf4 & Ha4 & Hc4). split_and!; [done|by rewrite Hf4|by rewrite Ha4|by rewrite Hc4].
Qed.

(** What is known after all checks. *)
Record opened (s' : JournalStore) : Prop := {
  od_opening : opening s s' a;
  od_clean : js_finding s' = None → js_anchor s' = Some a ∧ an_hold a = None ∧ js_connection s' = true;
  od_fault : ∀ f, js_finding s' = Some f → presentable h = true → an_hold a = None → no_fault s f;
}.

Lemma opened_blamed s' code : opening s s' a → (presentable h = true → an_hold a = None → False) → opened (set_finding (Some (_recovery code)) s').
Proof. intros Ho Hf. split; [by apply opening_finding|done|]. intros f _ Hp Hh. by destruct Hf. Qed.

Lemma verify_open_ends : opening s s a → js_finding s = None → js_connection s = false →
  ends (_verify_open h) s (λ _, opened) (λ _ s', opening s s' a).
Proof.
  intros Ho Hf Hc. unfold _verify_open. ends_step. ends_step; [|done].
  match goal with X : h_stat h DB_FILENAME = Ret ?x |- _ => rename X into Hdb; rename x into db_stat end.
  pose proof (since_start s Ho) as Hs.
  apply (since_step _ _ s); [apply only_lift|exact Hs|]. clear Hs. intros wal_stat s2 Hs.
  apply (since_step _ _ s); [apply only_lift|exact Hs|]. clear Hs. intros anchor_stat s3 Hs.
  apply (since_step _ _ s); [apply only_for_each; intros; apply only_lift|exact Hs|]. clear Hs. intros _ s4 [Ho4 Hf4 _ Hc4].
  ends_step. ends_call (read_anchor_ends s4 Ho4); [congruence|congruence| |done].
  intros _ s5 (Ho5 & Hf5 & Ha5 & Hc5). do 4 ends_step. rewrite Hf5, Ha5.
  destruct (an_hold a) as [held_before|] eqn:Eh.
  { unfold set_found. ends_step. apply opened_blamed; [done|]. congruence. }
  match goal with |- ends (if ?b then _ else _) _ _ _ => destruct b eqn:Esize end.
  { unfold set_found. ends_step. apply opened_blamed; [done|]. intros Hp _. unfold presentable in Hp. rewrite Hdb in Hp.
    destruct db_stat; bool_simpl; lia. }
  apply (since_step _ _ s5); [apply only_wal|by apply since_start|]. intros wal s6 [Ho6 Hf6 Ha6 _]. ends_step. ends_step.
  assert (since (set_wal_found wal s6) (set_wal_found wal s6)) as Hs6 by by apply since_start, opening_wal.
  ends_step. ends_call (connect_ends _ _ Hs6); [|done]. intros _ s7 (Ho7 & Hf7 & Ha7 & Hc7).
  pose proof (since_start s7 Ho7) as Hs7.
  apply (since_step _ _ s7); [apply only_settings|exact Hs7|]. clear Hs7. intros _ s8 Hs8.
  apply (since_step _ _ s7); [apply only_pragma|exact Hs8|]. clear Hs8. intros _ s9 Hs9.
  ends_step. ends_call (presentation_ends s7 s9 Hs9); [|done]. intros presented s10 [[Ho10 Hf10 Ha10 Hc10] Hp]. ends_step. ends_step.
  assert (js_anchor s10 = Some a) as Ha by (rewrite Ha10, Ha7; cbn; congruence).
  destruct presented as [f|]; cbn [some_b].
  { ends_step. split; [by apply opening_finding|done|]. intros f' _ Hpr. by specialize (Hp Hpr). }
  ends_step. ends_call (genesis_ends (set_finding None s10)); [by apply opening_finding| |done].
  intros conflicts s11 (-> & Ho11 & Hf11 & Ha11 & Hc11). ends_step. split; [done| |].
  - intros _. split_and!; [by rewrite Ha11|done|]. rewrite Hc11. cbn. by rewrite Hc10.
  - intros f Hf'. by rewrite Hf11 in Hf'.
Qed.

Lemma open_steps_ends : opening s s a → js_finding s = None → js_connection s = false →
  ends (_open_steps h) s (λ _, opened) (λ _ s', opening s s' a).
Proof.
  intros Ho Hf Hc. unfold _open_steps. ends_step. ends_step. ends_call (verify_open_ends Ho Hf Hc); [by intros _ s1 H1; ends_step|].
  intros e s1 Ho1. destruct (bool_decide _).
  { ends_step. split; [by apply opening_finding|done|]. intros f [= <-] _ _. by left. }
  destruct (bool_decide _); [|by ends_step]. do 3 ends_step. split; [by apply opening_finding|done|].
  intros f [= <-] _ _. exact (op_error _ _ _ Ho1).
Qed.
End open.

(** The disk and the log of slots as they were. *)
Record same_files (s s' : JournalStore) : Prop := {
  sf_disk : js_disk s' = js_disk s; sf_io : js_io s' = js_io s; sf_slots : js_slots s' = js_slots s; sf_ios : (js_ios s ≤ js_ios s')%nat;
}.
#[export] Instance same_files_refl : Reflexive same_files.
Proof. by split. Qed.
#[export] Instance same_files_trans : Transitive same_files.
Proof. intros x y z [] []. split; first [congruence|lia]. Qed.
Lemma opening_same s s' a : opening s s' a → same_files s s'.
Proof. by intros []. Qed.
Lemma idle_same s s' : idle s s' → same_files s s'.
Proof. intros (n & err & Hn & ->). by split. Qed.
Lemma closed_same b s s' : idle (set_closed b s) s' → same_files s s'.
Proof. intros (n & err & Hn & ->). by split. Qed.

Lemma locked_ends {A} (m : journal_st A) s Q : ends m s Q (λ _ s', same_files s s') → ends (_locked m) s Q (λ _ s', same_files s s').
Proof.
  intros Hm. unfold _locked. ends_step. ends_step. ends_call Hm; [intros x s1 H1; by ends_step|]. intros e s1 H1. ends_step.
  ends_call idle_close; intros ? s2 [b Hi]; [ends_step|]; (etrans; [exact H1|by eapply closed_same]).
Qed.

(** A store that was just made for the disk. *)
Record fresh_store (s : JournalStore) : Prop := {
  fr_finding : js_finding s = None; fr_connection : js_connection s = false; fr_txn : js_txn s = None; fr_anchor : js_anchor s = None;
  fr_broken : js_broken s = false; fr_closed : js_closed s = false; fr_error : last_error s = classify_sqlite_error VNone VNone;
}.
Lemma fresh_opening s a : fresh_store s → opening s s a.
Proof. intros [Hf Hc Ht Ha Hb Hcl He]. split; try done; [by left|]. rewrite He. by left. Qed.

Lemma open_ends h require_wal s a : fresh_store s → file_names s a → genesis_uuid_conflicts (table s) (an_journal_uuid a) = Ret false →
  ends (open h require_wal) s (λ _, opened h s a) (λ _ s', same_files s s').
Proof.
  intros Hs Hfile Hg. unfold open. ends_step. ends_step; [|done]. destruct (h_directory h) as [dir|]; [|by ends_step].
  ends_step. ends_step; [|done]. ends_step. ends_step; [|done]. ends_step. ends_step; [|done]. ends_step. ends_step; [|done].
  apply locked_ends. ends_step. ends_step; [|done].
  ends_call (open_steps_ends h s a Hfile Hg (fresh_opening s a Hs)); [apply Hs|apply Hs|done|]. intros _ s'. apply opening_same.
Qed.

(** ** The scan *)
Lemma storable_history rs p uuid : history rs p uuid → stored_as rs.
Proof.
  intros [Hl Hnd _ _]. split; [|  |done].
  - pose proof (live_opens rs p Hl) as H. eapply Forall_impl; [exact H|]. done.
  - destruct (live_chain rs p Hl) as [[-> _]|(r & _ & _ & _ & Hc & _)]; [done|]. by eapply chained_linked.
Qed.

Lemma scan_code e : io_exn e → exn_class e ≠ "ReplayError".
Proof. intros [H|H]; rewrite H; discriminate. Qed.

(** The scan that rebuilds the journal. *)
Definition rebuilt (rs : list JournalRecord) (p : Projection) (sc : Scan) : Prop :=
  sc_candidate sc = p ∧ sc_anchor_record_ok sc = true ∧ (sc_reading sc).1.1 = [].
Lemma fold_scan rs p h : scans h rs p true → ∃ sc, fold_outcome (scan_next h) scan_start (map read_back rs) = Ret sc ∧ rebuilt rs p sc.
Proof.
  intros [gs Hs]. destruct (scan_loop h (map read_back rs) scan_start [] 0 0 _ eq_refl Hs) as (sc & Hf & Hc & Hr). exists sc.
  split; [done|]. unfold core in Hc. injection Hc as ? ? ?. done.
Qed.

Lemma judged head a : hd_commit_seq head - hd_commit_seq a = 0 ∨ hd_commit_seq head - hd_commit_seq a = 1 →
  judge_head a head true = (None, hd_commit_seq head - hd_commit_seq a).
Proof. unfold judge_head. by intros [-> | ->]. Qed.

(** What the scan of an opened store finds. *)
Definition found_by_scan (s : JournalStore) (p : Projection) (a : AnchorState) (finding : option Finding) (lag : option Z) (sc : Scan)
    (s' : JournalStore) : Prop :=
  looks s s' ∧ match finding with
    | Some f => reported s f
    | None => sc_candidate sc = p ∧ js_finding s' = None ∧ ∃ head, p_head p = Some head ∧
        (lag = Some 0 ∧ head = an_head a ∨ lag = Some 1 ∧ hd_commit_seq head = hd_commit_seq (an_head a) + 1)
    end.

Lemma replay_finding_ends s rs p a : history rs p (an_journal_uuid a) → table s = map _row_params rs → js_anchor s = Some a →
  js_finding s = None → js_connection s = true →
  (∃ rs0 p0, live rs0 p0 ∧ p_head p0 = Some (an_head a) ∧ one_ahead rs0 p0 rs p) →
  ends _replay_finding s (λ r s', found_by_scan s p a r.1.1 r.1.2 r.2 s') (λ _ s', looks s s' ∧ ¬ works s).
Proof.
  intros Hh Ht Ha Hf Hc (rs0 & p0 & Hl0 & Hh0 & Hahead). destruct (ahead_scans rs0 p0 (an_head a) rs p Hl0 Hh0 Hahead) as (Hs & head & Hhead & Hlag).
  destruct (fold_scan rs p (an_head a) Hs) as (sc & Hfold & Hcand & Hok & Hread).
  pose proof (rows_live (scan_next (an_head a)) rs scan_start sc s (storable_history rs p _ Hh) Ht Hc Hf Hfold) as Hrows.
  unfold _replay_finding, scan_all. ends_step. ends_step. rewrite Ha. ends_step. ends_step; [|done].
  match goal with X : the (Some a) = Ret _ |- _ => injection X as <- end. ends_step. ends_step. ends_step.
  destruct (rows (scan_next (an_head a)) scan_start s) as [o s1] eqn:Er. destruct Hrows as [Hlk Hcase].
  apply run_ends. intros o' s' Hrun. rewrite Er in Hrun. injection Hrun as <- <-.
  destruct Hcase as [(-> & _ & Hf1)|[(acc & f & -> & Hrep & Hf1)|(e & -> & He & Hw)]].
  - rewrite Hread. repeat ends_step. rewrite Hf1. cbn zeta. rewrite Hcand, Hhead. rewrite Hok, judged.
    + ends_step. split; [done|]. split_and!; [done|done|]. exists head. split; [done|].
      destruct Hlag as [[-> ->]|Hlag]; [left|right]; cbn; (split; [f_equal; lia|done]).
    + destruct Hlag as [[-> ->]|Hlag]; [left|right]; lia.
  - destruct (sc_reading acc).1.1; ends_step; [|rewrite bool_decide_true by done]; repeat ends_step; rewrite Hf1; by ends_step.
  - repeat ends_step. rewrite bool_decide_false by (by apply scan_code). by ends_step.
Qed.
