(* ===== verification/RecoveryRestart.v ===== *)
(** * Opening a handle

    From any disk that holds a live history, whatever breaks on the way, opening
    leaves a disk that holds the history, with the commits the open made; a
    handle that is ready is in step with it. *)

From S2P Require Import Prelude PyValue PyJson Sha256 CanonJson PyBytes JsonParse JournalValue JournalSource JournalRecords.
From S2P Require Import JournalClaims JournalSeal JournalStored JournalAccepts JournalSealThm JournalSourceThm JournalState JournalPlan.
From S2P Require Import JournalVerify JournalReplay JournalCopies JournalFrontThm JournalClaimThm JournalReplayThm JournalInv JournalSafe JournalBounds.
From S2P Require Import JournalAnchor JournalAnchorThm JournalStore Hoare JournalStoreThm JournalAppendThm RecoveryJournal RecoveryCommit.
From S2P Require Import RecoveryOps RecoveryOpen.
Local Open Scope string_scope.
Local Open Scope Z_scope.
Local Open Scope list_scope.

#[local] Opaque sha256_hex sha256_digest _encode_slot _decode_slot verify_commit open_record _analyze_anchor genesis_uuid_conflicts.

(** ** A hold is persisted *)

(** Two states of one journal at one head. *)
Definition same_base (a a' : AnchorState) : Prop := an_journal_uuid a' = an_journal_uuid a ∧ an_head a' = an_head a.

Lemma same_base_durable s s' rs p a a' : durable s rs p a → same_base a a' → table s' = table s → file_names s' a' → durable s' rs p a'.
Proof. intros [Hh Ht Hf Ha] [Hu Hd] Ht' Hf'. split; [by rewrite Hu|congruence|done|by rewrite Hd]. Qed.

Definition rebased (s s' : JournalStore) (a : AnchorState) : Prop :=
  table s' = table s ∧ (settled_writes s' → ∃ a', same_base a a' ∧ file_names s' a').
Lemma rebased_refl s a : file_names s a → rebased s s a.
Proof. intros H. split; [done|]. intros _. by exists a. Qed.

Lemma persist_hold_ends code boot s a : js_anchor s = None ∨ at_anchor s a → file_names s a →
  ends (persist_hold code boot) s (λ _ s', rebased s s' a) (λ _ s', rebased s s' a).
Proof.
  intros Ha Hf. pose proof (rebased_refl s a Hf) as Hrefl. unfold persist_hold. repeat ends_step; [|done..].
  destruct Ha as [Ha|Ha]; [rewrite Ha; by ends_step|]. rewrite (proj1 Ha). cbn zeta.
  assert (∀ hold count, ends (_guarded_write (for_each (repeat (_anchor_body (an_journal_uuid a) (an_head a) (Some hold)) count) _write_slot);; mret true)
    s (λ _ s', rebased s s' a) (λ _ s', rebased s s' a)) as Hwrite.
  { intros hold count. set (body := _anchor_body _ _ _). ends_step.
    set (I := λ left s1, Forall (eq body) left ∧ table s1 = table s ∧ ∃ a', same_base a a' ∧ at_anchor s1 a').
    ends_call (guarded_ends _ _ (λ _ s', rebased s s' a) (λ _ s', rebased s s' a) (λ _ s', rebased s s' a)); [| |by intros ? ?..].
    - eapply ends_mono; [apply (ends_for_each I _ _ _ (λ _ s', rebased s s' a))| |by intros ? ?].
      + split; [apply Forall_forall; intros x Hx%list_elem_of_In%repeat_spec; done|]. split; [done|]. by exists a.
      + intros x left s1 (Hb & Ht & a' & [Hu Hd] & Hat). apply Forall_cons in Hb as [<- Hb].
        assert (body = _anchor_body (an_journal_uuid a') (an_head a) (Some hold)) as -> by (unfold body; by rewrite Hu).
        ends_call (write_slot_ends (an_head a) (Some hold) s1 a' Hat).
        * intros _ s2 (Hao & Hat2 & _). split; [done|]. split; [by rewrite (ao_table _ _ Hao)|]. eexists. split; [|exact Hat2]. done.
        * intros ? s2 (Hao & _ & _ & _ & Hfile). split; [by rewrite (ao_table _ _ Hao)|]. intros Hset.
          destruct (Hfile Hset) as [Hn|[Hn _]]; eexists; (split; [|exact Hn]); by split.
      + intros [] s1 (_ & Ht & a' & Hb & Hat). split; [done|]. intros _. exists a'. split; [done|by apply at_anchor_names].
    - intros e e' s1 s' [Ht Hn] Hb. split; [by rewrite (broken_table _ _ Hb)|]. intros Hset.
      destruct (Hn (broken_settled _ _ Hb Hset)) as (a' & ? & ?). exists a'. split; [done|by eapply broken_file]. }
  destruct (an_hold a) as [hold|].
  - repeat ends_step; [|done]. destruct (_ =? 2); [by ends_step|apply Hwrite].
  - ends_step. ends_step. apply Hwrite.
Qed.

(** ** Fine disks *)
Definition disk_fine (clean : Prop) (rs : list JournalRecord) (st : JournalStore) : Prop :=
  settled_writes st → ∃ rs' p a, rs `prefix_of` rs' ∧ durable st rs' p a ∧ (clean → an_hold a = None).

Lemma disk_fine_not_ready clean rs s : disk_fine clean rs (rj_store s) → (clean → unblamed s) → state s ≠ "ready" → fine clean rs s.
Proof.
  intros H Hu Hn Hset. destruct (H Hset) as (rs' & p & a & Hp & Hd & Hc). exists rs', p, a. split; [|auto]. by split.
Qed.
Lemma disk_fine_same clean rs s s' : same_files s s' → disk_fine clean rs s → disk_fine clean rs s'.
Proof.
  intros Hs H Hset. unfold settled_writes in *. rewrite (sf_slots _ _ Hs) in Hset. destruct (H Hset) as (rs' & p & a & Hp & Hd & Hc).
  exists rs', p, a. split_and!; [done| |done]. eapply same_disk_durable; [..|exact Hd].
  - unfold table. by rewrite (sf_disk _ _ Hs).
  - unfold file_names. by rewrite (sf_disk _ _ Hs).
Qed.
Lemma fine_disk clean rs s : fine clean rs s → disk_fine clean rs (rj_store s).
Proof. intros H Hset. destruct (H Hset) as (rs' & p & a & [Hp Hd _] & Hc). exists rs', p, a. naive_solver. Qed.
Lemma closed_not_ready s : rj_closed s = true → state s ≠ "ready".
Proof. unfold state. by intros ->. Qed.

(** The disk is fine, whatever the handle shows: an open that raises closes it. *)
Definition opening_fine (clean : Prop) (rs : list JournalRecord) (s : RecoveryJournal) : Prop :=
  settled_writes (rj_store s) → ∃ rs' p a, rs `prefix_of` rs' ∧ durable (rj_store s) rs' p a ∧ (clean → an_hold a = None ∧ unblamed s).
Lemma fine_opening clean rs s : fine clean rs s → opening_fine clean rs s.
Proof. intros H Hset. destruct (H Hset) as (rs' & p & a & [Hp Hd _] & Hc). by exists rs', p, a. Qed.
Lemma opening_fine_closed clean rs s : opening_fine clean rs s → state s ≠ "ready" → fine clean rs s.
Proof. intros H Hn Hset. destruct (H Hset) as (rs' & p & a & Hp & Hd & Hc). exists rs', p, a. by split; [split|]. Qed.
Lemma disk_fine_opening clean rs s : disk_fine clean rs (rj_store s) → rj_hold_detail s = None → opening_fine clean rs s.
Proof.
  intros H Hn Hset. destruct (H Hset) as (rs' & p & a & Hp & Hd & Hc). exists rs', p, a. split_and!; [done..|].
  intros Hcl. split; [auto|]. intros d. by rewrite Hn.
Qed.

Lemma held_journal_ends clean rs rs' p a finding boot lag requested s : durable (rj_store s) rs' p a → rs `prefix_of` rs' →
  (js_anchor (rj_store s) = None ∨ at_anchor (rj_store s) a) → (clean → an_hold a = None) →
  (clean → fi_scope finding = "process") → rj_hold_detail s = None → rj_closed s = true →
  ends (_held_journal finding boot lag requested) s (λ _, fine clean rs) (λ _, fine clean rs).
Proof.
  intros Hd Hp Ha Hc Hs Hn Hcl.
  assert (∀ st', rebased (rj_store s) st' a → (clean → False) → disk_fine clean rs st') as Hreb.
  { intros st' [Ht Hf] Hno Hset. destruct (Hf Hset) as (a' & Hb & Hfile). exists rs', p, a'. split_and!; [done| |done].
    by eapply same_base_durable. }
  assert (disk_fine clean rs (rj_store s)) as Hd0 by (intros _; by exists rs', p, a).
  unfold _held_journal. ends_step.
  set (Q := λ (_ : unit) (s1 : RecoveryJournal), disk_fine clean rs (rj_store s1) ∧ rj_hold_detail s1 = None ∧ rj_closed s1 = true).
  assert (∀ s1, Q tt s1 → fine clean rs s1) as HQ.
  { intros s1 (H1 & H2 & H3). apply disk_fine_not_ready; [done| |by apply closed_not_ready]. intros _ d. by rewrite H2. }
  eapply (ends_mono _ _ Q _ (λ _ s1, fine clean rs s1)); [| |done].
  { destruct boot as [boot|]; [|by ends_step]. case_bool_decide; cbv iota; [|by ends_step]. unfold on_store. ends_step. ends_step. ends_step.
    assert (clean → False) as Hno by (intros Hno; specialize (Hs Hno); congruence).
    ends_call (persist_hold_ends (fi_code finding) boot (rj_store s) a Ha (du_file _ _ _ _ Hd)).
    - intros b st' Hr. repeat ends_step. split; [by apply Hreb|done].
    - intros e st' Hr. destruct (str_in _ _); [ends_step; split; [by apply Hreb|done]|].
      apply HQ. split; [by apply Hreb|done]. }
  intros [] s1 (Hd1 & Hn1 & Hcl1). repeat ends_step. unfold on_store. ends_step.
  ends_call idle_close; intros ? st' [b Hi]; pose proof (disk_fine_same clean rs _ _ (closed_same _ _ _ Hi) Hd1) as Hd2.
  - ends_step. apply disk_fine_not_ready; [done| |done]. intros ? d [= <-]. by apply Hs.
  - by apply HQ.
Qed.

(** ** The restart *)

(** Still in step, or held and fine. *)
Definition settled_call (clean : Prop) (rs : list JournalRecord) (s : RecoveryJournal) : Prop :=
  (∃ rs' p a, in_step s rs' p a ∧ rs `prefix_of` rs') ∨ (some_b (rj_hold_detail s) = true ∧ fine clean rs s).

Lemma settled_call_fine clean rs s : settled_call clean rs s → fine clean rs s.
Proof. intros [(rs' & p & a & Hs & Hp)|[_ H]]; [|done]. eapply fine_prefix; [exact Hp|by eapply in_step_fine]. Qed.
Lemma settled_call_prefix clean rs rs' s : rs `prefix_of` rs' → settled_call clean rs' s → settled_call clean rs s.
Proof.
  intros Hp [(rs1 & p & a & Hs & Hp')|[Hh H]]; [left; exists rs1, p, a; split; [done|by etrans]|right; split; [done|by eapply fine_prefix]].
Qed.
Lemma latch_held code scope s : some_b (rj_hold_detail (latch code scope s)) = true.
Proof. unfold latch. by destruct (some_b (rj_hold_detail s)) eqn:E. Qed.
Lemma latch_settled clean code rs s : fine clean rs s → settled_call clean rs (latch code "process" s).
Proof. intros H. right. split; [apply latch_held|by apply latch_fine]. Qed.
Lemma in_step_settled clean s rs p a : in_step s rs p a → settled_call clean rs s.
Proof. intros H. left. by exists rs, p, a. Qed.

Lemma failed_settled clean s rs p a s' : in_step s rs p a → commit_failed s rs s' → settled_call clean rs s'.
Proof.
  intros Hs Hf. pose proof (failed_fine clean _ _ _ _ _ Hs Hf) as Hfine. destruct Hf as [st' Hi|st' code Hk].
  - left. exists rs, p, a. split; [|done]. destruct Hs as [Hst Hp Hu]. split; [by eapply idle_store_at|done..].
  - right. split; [apply latch_held|done].
Qed.

Lemma committed_ends clean plan sync s rs p a : in_step s rs p a → (∀ d, verify_commit p (pl_records plan) = Ret d → planned p plan) →
  ends (committed plan sync) s (λ b s', settled_call clean rs s' ∧ (b = true → ∃ rs' p' a', in_step s' rs' p' a' ∧ rs `prefix_of` rs'))
    (λ _, fine clean rs).
Proof.
  intros Hs Hp. unfold committed. ends_step. ends_step.
  ends_call (commit_ends plan sync s rs p a (is_projection _ _ _ _ Hs) (is_store _ _ _ _ Hs) Hp).
  - intros seqs s' [Hd _]. ends_step. destruct (done_in_step _ _ _ _ _ _ Hs Hd) as (_ & rs' & p' & a' & Hs' & Hpre & _).
    split; [left|intros _]; by exists rs', p', a'.
  - intros e s' [Hf _]. pose proof (failed_settled clean _ _ _ _ _ Hs Hf) as Hset.
    destruct (bool_decide _); ends_step; [done|by apply settled_call_fine].
Qed.

(** A restart that passes the check is of a boot the journal has not seen. *)
Lemma restart_planned p e st lag wal plan d : plan_restart p e st lag wal = Ret (inl plan) →
  verify_commit p (pl_records plan) = Ret d → planned p plan.
Proof.
  intros Hplan Hd. eapply planned_restart; [|exact Hplan]. unfold plan_restart in Hplan. inv_do.
  match goal with X : the (p_head p) = Ret _ |- _ => apply the_ret in X as Hh end.
  apply within_inl in Hplan as [Hr _].
  match goal with X : seal _ _ _ _ = Ret ?r |- _ => apply seal_shows in X; rename X into Hs; rename r into x end.
  pose proof (sh_event_type _ _ _ (sa_shows _ _ _ _ _ Hs x (or_introl eq_refl))) as Ht. cbn in Ht.
  apply verify_commit_accepted in Hd. rewrite Hr in Hd.
  destruct Hd as [r [= <-] (_ & Hnone & _)|r [= <-] _ Hb _|r t f [= <-] <- Hf _ _ _|? ? [=] _ _ _]; [congruence| |].
  - by rewrite (sa_stamp _ _ _ _ _ Hs) in Hb.
  - by rewrite Ht in Hf.
Qed.

(** A handle that was just made for an opened store. *)
Record reopened (s : RecoveryJournal) (rs : list JournalRecord) (p : Projection) (a : AnchorState) (lag : Z) : Prop := {
  ro_durable : durable (rj_store s) rs p a;
  ro_anchor : at_anchor (rj_store s) a;
  ro_writable : writable (rj_store s) = true;
  ro_projection : rj_projection s = Some p;
  ro_unheld : rj_hold_detail s = None;
  ro_head : ∃ head, p_head p = Some head ∧ (lag = 0 ∧ head = an_head a ∨ lag = 1 ∧ hd_commit_seq head = hd_commit_seq (an_head a) + 1);
}.

Lemma write_anchor_ends head s a : at_anchor s a →
  ends (write_anchor head) s
    (λ _ s', anchor_only s s' ∧ at_anchor s' (next_anchor a head None))
    (λ _ s', table s' = table s ∧ (settled_writes s' → file_names s' a ∨ file_names s' (next_anchor a head None)) ∧
       (works s → writable s = true → slot_ok a head None = false)).
Proof.
  intros Ha. unfold write_anchor, _check_writable. do 4 ends_step.
  2: { split; [done|]. split; [intros _; left; by apply at_anchor_names|congruence]. }
  do 2 ends_step. rewrite (proj1 Ha). cbn [from_option].
  apply (guarded_ends _ _ _ (λ _ s', anchor_only s s' ∧ (works s → slot_ok a head None = false) ∧
    (settled_writes s' → file_names s' a ∨ file_names s' (next_anchor a head None)))).
  - ends_call (write_slot_ends head None s a Ha); [naive_solver|]. intros _ s' (Hao & _ & _ & Hw & Hf). naive_solver.
  - intros ? ? s1 s' (Hao & Hw & Hf) Hb. split_and!; [by rewrite (broken_table _ _ Hb), (ao_table _ _ Hao)| |auto].
    intros Hset. destruct (Hf (broken_settled _ _ Hb Hset)); [left|right]; by eapply broken_file.
Qed.

Lemma again_ends clean s rs p a lag : reopened s rs p a lag → 
  ends (write_anchor_again lag) s
    (λ b s', rj_hold_detail s' = None ∧ if b : bool then ∃ a', in_step s' rs p a' else rj_closed s' = rj_closed s ∧ disk_fine clean rs (rj_store s'))
    (λ _ s', rj_hold_detail s' = None ∧ rj_closed s' = rj_closed s ∧ disk_fine clean rs (rj_store s')).
Proof.
  intros [Hd Ha Hw Hp Hu (head & Hh & Hlag)]. pose proof (writable_hold _ _ Hw (proj1 Ha)) as Hnone.
  assert (disk_fine clean rs (rj_store s)) as Hfine by (intros _; by exists rs, p, a).
  unfold write_anchor_again. destruct (Z.eqb_spec lag 1) as [->|Hn].
  - unfold projection. do 3 ends_step. rewrite Hp. ends_step; [|done].
    match goal with X : the (Some p) = Ret _ |- _ => injection X as <- end. do 2 ends_step; [|by rewrite Hh in *].
    match goal with X : the (p_head p) = Ret _ |- _ => rewrite Hh in X; injection X as <- end. unfold on_store. do 3 ends_step.
    ends_call (write_anchor_ends head (rj_store s) a Ha).
    + intros [] st' [Hao Hat]. ends_step. split; [done|]. cbn [some_b]. exists (next_anchor a head None). split; [|done|done].
      destruct Hd as [Hhist Ht _ _]. split; cbn [next_anchor an_journal_uuid an_head].
      * done.
      * cbn. by rewrite (ao_table _ _ Hao).
      * done.
      * done.
      * cbn. unfold writable in *. destruct Hat as [-> _]. rewrite (proj1 Ha), Hnone in Hw.
        by rewrite (ao_finding _ _ Hao), (ao_connection _ _ Hao), (ao_broken _ _ Hao), (ao_closed _ _ Hao).
    + intros e st' (Ht & Hf & _).
      assert (disk_fine clean rs st') as Hd'.
      { intros Hset. destruct (Hf Hset) as [Hfile|Hfile].
        - exists rs, p, a. split_and!; [done| |done]. by eapply same_disk_durable.
        - exists rs, p, (next_anchor a head None). split_and!; [done| |done]. destruct Hd as [Hhist Ht0 _ _].
          split; [done|congruence|done|]. exists rs, p. split_and!; [apply Hhist|done|constructor]. }
      destruct (str_in _ _); [ends_step|]; done.
  - ends_step. split; [done|]. exists a. destruct Hlag as [[_ ->]|[? _]]; [|done]. destruct Hd as [Hhist Ht _ _].
    by split.
Qed.

Lemma restart_ends clean s rs p a lag wal : reopened s rs p a lag →
  ends (_run_restart_recovery lag wal) s (λ _, settled_call clean rs) (λ _, opening_fine clean rs).
Proof.
  intros Hs. unfold _run_restart_recovery, _latch. ends_step. ends_call (again_ends clean s rs p a lag Hs).
  2: { intros _ s1 (Hu & _ & Hd). by apply disk_fine_opening. }
  intros [] s1 [Hu Hst]; cbn [negb].
  2: { ends_step. right. split; [apply latch_held|]. apply disk_fine_not_ready; [rewrite latch_store; apply Hst| |apply latch_not_ready].
       intros _. apply latch_unblamed. intros d. by rewrite Hu. }
  destruct Hst as [a1 Hs1]. clear Hs a. ends_step. ends_call (mint_ends s1 rs p a1 Hs1); [|intros; by eapply fine_opening, in_step_fine].
  intros [new_boot|] s2 [Hs2 _]; [|ends_step; by eapply latch_settled, in_step_fine].
  ends_step. ends_call (ends_total bookkeeping _ s2 clock_bookkeeping); intros reading s3 Hb;
    pose proof (bookkeeping_in_step _ _ _ _ _ Hb Hs2) as Hs3; [|by eapply fine_opening, in_step_fine].
  destruct reading as [[wall mono]|]; [|ends_step; by eapply latch_settled, in_step_fine].
  ends_step. ends_call (mint_ends s3 rs p a1 Hs3); [|intros; by eapply fine_opening, in_step_fine]. intros event_id s4 [Hs4 _].
  ends_step. ends_call (projection_ends s4 rs p a1 Hs4); [|done]. intros ? ? [-> ->]. ends_step.
  set (st0 := λ _ : string, {| boot_id := new_boot; wall_time := wall; mono_us := mono |}).
  assert (ends match event_id with
    | Some event_id => lift_outcome (caught_in ["RecordError"] (plan_restart p event_id (st0 event_id) lag wal))
    | None => mret None end s4
    (λ plan s', s' = s4 ∧ ∀ pl, plan = Some (inl pl) → ∃ e, plan_restart p e (st0 e) lag wal = Ret (inl pl)) (λ _ s', s' = s4)) as Hplan.
  { destruct event_id as [e|]; ends_step; [|done|done]. split; [done|]. intros pl ->. exists e. by eapply caught_some. }
  ends_call Hplan; [|intros ? ? ->; by eapply fine_opening, in_step_fine]. clear Hplan. intros plan s5 [-> Hplan].
  destruct plan as [[plan|]|]; [|ends_step; by eapply latch_settled, in_step_fine..].
  destruct (Hplan plan eq_refl) as (e & He). ends_step. ends_call (committed_ends clean plan true s4 rs p a1 Hs4).
  - intros d Hd. by eapply restart_planned.
  - intros [] s6 [Hset Hin]; [|by ends_step]. ends_step. destruct (Hin eq_refl) as (rs' & p' & a' & Hs6 & Hpre).
    left. exists rs', p', a'. split; [|done]. by eapply (bookkeeping_in_step s6).
  - intros _ s6. apply fine_opening.
Qed.

(** ** The resume *)
Lemma resume_planned p e st operator reason plan d : plan_operator_resume p e st operator reason = Ret (inl plan) →
  verify_commit p (pl_records plan) = Ret d → planned p plan.
Proof.
  intros Hplan Hd. pose proof (resume_stamped _ _ _ _ _ _ Hplan) as Hst. pose proof Hplan as Hplan'. unfold plan_operator_resume in Hplan'. plan_inv Hplan'.
  match goal with X : _single_position p = Ret _ |- _ => apply single_position in X as (head & Hh & _) end.
  apply within_inl in Hplan' as [Hr _].
  match goal with X : seal _ _ _ _ = Ret ?r |- _ => apply seal_shows in X; rename X into Hs; rename r into x end.
  pose proof (sh_event_type _ _ _ (sa_shows _ _ _ _ _ Hs x (or_introl eq_refl))) as Ht. cbn in Ht.
  eapply planned_resume; [|clear Hplan|exact Hplan].
  - eapply stamped_running; [by exists head|exact Hst|exact Hd].
  - apply verify_commit_accepted in Hd. rewrite Hr in Hd.
    destruct Hd as [r [= <-] (_ & Hnone & _)|r [= <-] Ht' _ _|r t f [= <-] <- Hf _ _ Hv|? ? [=] _ _ _]; [congruence|congruence|].
    rewrite Ht in Hf. cbn in Hf. injection Hf as <-. destruct (operator_resumes _ _ _ _ Hv Ht) as (hold & since & _ & _ & Hres). apply Hres.
Qed.

Lemma resume_ends clean s rs p a resume : in_step s rs p a →
  ends (_resume_at_open resume) s (λ _, settled_call clean rs) (λ _, fine clean rs).
Proof.
  intros Hs. unfold _resume_at_open, _latch. ends_step. ends_call (projection_ends s rs p a Hs); [|done]. intros ? ? [-> ->].
  destruct (negb _); [ends_step; by eapply in_step_settled|]. destruct (private_claims_outstanding p); [ends_step; by eapply in_step_settled|].
  ends_step. ends_call (mint_ends s rs p a Hs); [|intros; by eapply in_step_fine].
  intros [event_id|] s2 [Hs2 _]; [|ends_step; by eapply latch_settled, in_step_fine].
  ends_step. ends_call (stamp_ends s2 rs p a Hs2); [|intros; by eapply in_step_fine].
  intros [st0|] s3 [_ Hs3]; [|ends_step; by eapply latch_settled, in_step_fine]. cbn zeta. ends_step. ends_step; [|by eapply in_step_fine].
  match goal with X : caught_in _ (plan_operator_resume _ _ _ _ _) = Ret ?x |- _ =>
    destruct x as [[plan|]|]; [apply caught_some in X as Hplan|ends_step; by eapply latch_settled, in_step_fine..] end.
  ends_step. ends_call (committed_ends clean plan false s3 rs p a Hs3); [intros d Hd; by eapply resume_planned| |done].
  intros [] s4 [Hset Hin]; cbn [negb]; [|by ends_step]. destruct (Hin eq_refl) as (rs' & p' & a' & Hs4 & Hpre).
  ends_step. ends_call (projection_ends s4 rs' p' a' Hs4); [|done]. intros ? ? [-> ->].
  do 2 ends_step; [|eapply fine_prefix; [exact Hpre|by eapply in_step_fine]].
  do 2 ends_step; [|eapply fine_prefix; [exact Hpre|by eapply in_step_fine]].
  ends_step. left. exists rs', p', a'. split; [|done]. by eapply (bookkeeping_in_step s4).
Qed.

(** ** A verified open *)
Record same_state (s s' : JournalStore) : Prop := {
  ss_disk : js_disk s' = js_disk s; ss_anchor : js_anchor s' = js_anchor s; ss_slots : js_slots s' = js_slots s; ss_io : js_io s' = js_io s;
}.
Lemma idle_state s s' : idle s s' → same_state s s'.
Proof. by intros (n & err & _ & ->). Qed.
Lemma broken_state s s' : broken_from s s' → same_state s s'.
Proof. by intros (n & err & txn & _ & ->). Qed.
Lemma looks_state s s' : looks s s' → same_state s s'.
Proof. by intros []. Qed.
#[export] Instance same_state_refl : Reflexive same_state.
Proof. by split. Qed.
#[export] Instance same_state_trans : Transitive same_state.
Proof. intros x y z [] []. split; congruence. Qed.
Lemma same_state_durable s s' rs p a : same_state s s' → durable s rs p a → durable s' rs p a.
Proof. intros [Hd _ _ _]. apply same_disk_durable; [unfold table; by rewrite Hd|unfold file_names; by rewrite Hd]. Qed.
Lemma same_state_anchor s s' a : same_state s s' → js_anchor s = None ∨ at_anchor s a → js_anchor s' = None ∨ at_anchor s' a.
Proof. intros [Hd Ha _ _]. unfold at_anchor. by rewrite Hd, Ha. Qed.

Lemma pragma_idle h name value expected s :
  ends (_set_pragma h name value expected) s (λ _, idle s) (λ _, idle s).
Proof.
  unfold _set_pragma. ends_step. ends_call touch_ends; [intros _ s1 H1|naive_solver]. ends_step. ends_call touch_ends.
  - intros _ s2 H2. pose proof (idle_trans _ _ _ H1 H2). by ends_step.
  - intros _ s2 [H2 _]. by eapply idle_trans.
Qed.
Lemma finish_open_ends h s : ends (finish_open h) s (λ _ s', idle s s' ∧ writable s = true) (λ _ s', same_state s s').
Proof.
  unfold finish_open, _check_writable. do 4 ends_step; [|done].
  apply (guarded_ends _ _ _ (λ _ s', idle s s')); [ends_call pragma_idle; [done|done]|].
  intros _ _ s1 s' Hi Hb. etrans; [by apply idle_state|by apply broken_state].
Qed.

(** The store after [open], the handle not made. *)
Record to_verify (clean : Prop) (h : Host) (s : RecoveryJournal) (rs rs' : list JournalRecord) (p : Projection) (a : AnchorState) : Prop := {
  tv_prefix : rs `prefix_of` rs';
  tv_durable : durable (rj_store s) rs' p a;
  tv_anchor : js_anchor (rj_store s) = None ∨ at_anchor (rj_store s) a;
  tv_clean : clean → an_hold a = None;
  tv_unheld : rj_hold_detail s = None;
  tv_closed : rj_closed s = true;
}.
Lemma to_verify_fine clean h s rs rs' p a : to_verify clean h s rs rs' p a → opening_fine clean rs s.
Proof. intros []. apply disk_fine_opening; [|done]. intros _. by exists rs', p, a. Qed.
Lemma to_verify_moves clean h s s' rs rs' p a : to_verify clean h s rs rs' p a → same_state (rj_store s) (rj_store s') →
  rj_hold_detail s' = rj_hold_detail s → rj_closed s' = rj_closed s → to_verify clean h s' rs rs' p a.
Proof.
  intros [] Hs Hh Hc. split; try done; [by eapply same_state_durable|by eapply same_state_anchor|congruence|congruence].
Qed.
Lemma to_verify_held clean h s rs rs' p a finding boot lag requested : to_verify clean h s rs rs' p a →
  (clean → fi_scope finding = "process") →
  ends (_held_journal finding boot lag requested) s (λ _, fine clean rs) (λ _, opening_fine clean rs).
Proof.
  intros [Hp Hd Ha Hc Hu Hcl] Hs. ends_call (held_journal_ends clean rs rs' p a finding boot lag requested s); try done.
  intros _ s'. apply fine_opening.
Qed.

Lemma open_verified_ends clean h resume s s0 rs rs' p a : to_verify clean h s rs rs' p a → opened h s0 a (rj_store s) →
  (clean → presentable h = true ∧ no_damage (js_io s0)) →
  ends (_open_verified h resume) s (λ _, fine clean rs) (λ _, opening_fine clean rs).
Proof.
  intros Hs Hopen Hclean. unfold _open_verified. ends_step.
  assert (∀ f st, js_io st = js_io s0 → reported st f → clean → fi_scope f = "process") as Hreported.
  { intros f st Hio (n & c & m & l & _ & E & ->) Hcl. rewrite Hio in E. by eapply (proj2 (Hclean Hcl)). }
  ends_call (ends_total bookkeeping _ s mint_bookkeeping).
  2: { intros _ s1 [Hst Hp Hc Hh]. by eapply to_verify_fine, to_verify_moves; [exact Hs|rewrite Hst|..]. }
  intros boot s1 [Hst Hp Hc Hh]. assert (to_verify clean h s1 rs rs' p a) as Hs1 by by eapply to_verify_moves; [exact Hs|rewrite Hst|..].
  rewrite <-Hst in Hopen. clear Hp. do 3 ends_step.
  (* the first finding, or the scan *)
  set (Q := λ (r : option Finding * option Z * Scan) (s2 : RecoveryJournal), to_verify clean h s2 rs rs' p a ∧
    match r.1.1 with
    | Some f => clean → fi_scope f = "process"
    | None => at_anchor (rj_store s2) a ∧ sc_candidate r.2 = p ∧ ∃ head, p_head p = Some head ∧
        (default 0 r.1.2 = 0 ∧ head = an_head a ∨ default 0 r.1.2 = 1 ∧ hd_commit_seq head = hd_commit_seq (an_head a) + 1)
    end).
  eapply (ends_mono _ _ Q _ (λ _, opening_fine clean rs)); [| |done].
  { destruct Hopen as [Hop Hcl Hfault]. destruct (js_finding (rj_store s1)) as [f|] eqn:Ef.
    - ends_step. split; [done|]. intros Hc'. destruct (Hfault f eq_refl (proj1 (Hclean Hc')) (tv_clean _ _ _ _ _ _ _ Hs1 Hc')) as [?|Hr]; [done|].
      by eapply (Hreported f s0).
    - destruct (Hcl eq_refl) as (Ha & Hnone & Hconn). pose proof (tv_durable _ _ _ _ _ _ _ Hs1) as [Hhist Htab Hfile Hahead].
      unfold on_store. ends_step. ends_call (replay_finding_ends (rj_store s1) rs' p a Hhist Htab Ha Ef Hconn Hahead).
      + intros [[finding lag] sc] st2 [Hlk Hres]. cbn [fst snd] in *.
        assert (to_verify clean h (set_rj_store st2 s1) rs rs' p a) as Hs2 by by eapply to_verify_moves; [exact Hs1|by apply looks_state|..].
        split; [done|]. destruct finding as [f|]; cbn [fst snd].
        * eapply (Hreported f (rj_store s1)); [|done]. apply (op_io _ _ _ Hop).
        * destruct Hres as (Hcand & _ & head & Hhead & Hlag). split_and!.
          -- destruct (same_state_anchor _ _ a (looks_state _ _ Hlk) (or_intror (conj Ha Hfile))) as [Hno|?]; [|done].
             cbn in Hno. by rewrite (lk_anchor _ _ Hlk), Ha in Hno.
          -- done.
          -- exists head. split; [done|]. by destruct Hlag as [[-> ?]|[-> ?]]; [left|right].
      + intros e st2 [Hlk _]. eapply to_verify_fine, to_verify_moves; [exact Hs1|by apply looks_state|done..]. }
  intros [[finding lag] sc] s2 [Hs2 Hres]. cbn [fst snd] in *. cbn zeta.
  destruct (match finding, boot with None, None => Some (_process "journal_divergence") | _, _ => finding end) as [f|] eqn:Ef.
  { assert (clean → fi_scope f = "process") as Hf by (destruct finding, boot; cbn in Ef; simplify_eq; done).
    do 4 ends_step; [|done]. do 2 ends_step. by eapply to_verify_held. }
  destruct finding as [f|]; [by destruct boot|]. destruct boot as [boot|]; [|done]. clear Ef. destruct Hres as (Hat & Hcand & head & Hhead & Hlag).
  pose proof (to_verify_fine _ _ _ _ _ _ _ Hs2) as Hfine2. rewrite Hcand. ends_step.
  eapply (ends_mono _ _ (λ _ s3, s3 = s2) _ (λ _ s3, s3 = s2)); [destruct resume; by ends_step| |by intros ? ? ->].
  intros head' ? ->. ends_step. ends_step; [|done]. unfold on_store. do 3 ends_step.
  ends_call (finish_open_ends h (rj_store s2)).
  2: { intros e st3 Hst3. pose proof (to_verify_moves _ _ _ (set_rj_store st3 s2) _ _ _ _ Hs2 Hst3 eq_refl eq_refl) as Hs3.
       destruct (str_in _ _); [by eapply to_verify_held|by eapply to_verify_fine]. }
  intros _ st3 [Hi Hw]. pose proof (to_verify_moves _ _ _ (set_rj_store st3 s2) _ _ _ _ Hs2 (idle_state _ _ Hi) eq_refl eq_refl) as Hs3.
  ends_step. ends_step; [|by eapply to_verify_fine]. do 2 ends_step.
  match goal with |- ends _ ?s' _ _ => set (s4 := s') end.
  assert (reopened s4 rs' p a (default 0 lag)) as Hs4.
  { split; cbn; try done; [by apply Hs3|by eapply idle_at_anchor|by rewrite (idle_writable _ _ Hi)|by exists head]. }
  clearbody s4. ends_step. ends_step. ends_step.
  assert (∀ s, fine clean rs' s → fine clean rs s) as Hpre by (intros ?; apply fine_prefix, Hs3).
  ends_call (restart_ends clean s4 rs' p a (default 0 lag)); [done| |].
  2: { intros _ s5 H5 Hset. destruct (H5 Hset) as (rs1 & p1 & a1 & Hp1 & Hd1 & Hc1). exists rs1, p1, a1. split_and!; [|done..].
       etrans; [apply Hs3|exact Hp1]. }
  intros [] s5 Hs5. do 2 ends_step. destruct resume as [r|]; [|ends_step; by apply Hpre, settled_call_fine].
  destruct (some_b (rj_hold_detail s5)) eqn:Eh; cbn [negb]; [ends_step; by apply Hpre, settled_call_fine|].
  destruct Hs5 as [(rs1 & p1 & a1 & Hs5 & Hp1)|[? _]]; [|congruence].
  ends_call (resume_ends clean s5 rs1 p1 a1 r Hs5); intros ? s6 H6.
  - apply Hpre. eapply fine_prefix; [exact Hp1|]. by apply settled_call_fine.
  - apply fine_opening, Hpre. by eapply fine_prefix.
Qed.
