(* ===== verification/RecoveryReopen.v ===== *)
(** * A journal that can be reopened is reopened

    On a host where every check of an open passes, with an I/O that works,
    opening a disk that holds a history returns a ready handle: the whole
    history is replayed, the anchor is brought up to it and a restart is
    committed. *)

From S2P Require Import Prelude PyValue PyJson Sha256 CanonJson PyBytes JsonParse JournalValue JournalSource JournalRecords.
From S2P Require Import JournalClaims JournalSeal JournalStored JournalAccepts JournalSealThm JournalSourceThm JournalState JournalPlan.
From S2P Require Import JournalVerify JournalReplay JournalCopies JournalFrontThm JournalClaimThm JournalReplayThm JournalInv JournalSafe JournalBounds.
From S2P Require Import JournalAnchor JournalAnchorThm JournalStore Hoare JournalStoreThm JournalAppendThm.
From S2P Require Import RecoveryJournal RecoveryCommit RecoveryOps RecoveryLive RecoveryOpen RecoveryRestart.
Local Open Scope string_scope.
Local Open Scope Z_scope.
Local Open Scope list_scope.

#[local] Opaque sha256_hex sha256_digest _encode_slot _decode_slot verify_commit open_record _analyze_anchor genesis_uuid_conflicts.

(** ** A host where every check passes *)
Definition stat_passes (h : Host) (name : string) : bool :=
  match h_stat h name with
  | Ret (Some st) => match _check_stat h st false with Ret tt => true | Raise _ => false end
  | Ret None => true
  | Raise _ => false
  end.
Record hospitable (h : Host) : Prop := {
  hs_capable : _capability_ok h = true;
  hs_sync : h_sync_primitive h = true;
  hs_directory : ∃ directory, h_directory h = Some directory ∧ _check_directory h directory = Ret tt;
  hs_present : existsb (_maybe_present h) [DB_FILENAME; WAL_FILENAME; ANCHOR_FILENAME] = true;
  hs_lock : _take_lock h = Ret tt;
  hs_stats : forallb (stat_passes h) [DB_FILENAME; WAL_FILENAME; ANCHOR_FILENAME] = true;
  hs_checkpoint : h_no_ckpt h = true;
  hs_main : h_main_is_db h = true;
  hs_locking : h_set_pragma h "locking_mode" "EXCLUSIVE" = VStr "exclusive";
  hs_settings : Forall (λ x, h_set_pragma h x.1.1 x.1.2 = VInt x.2) _SETTINGS;
  hs_query_on : h_set_pragma h "query_only" "ON" = VInt 1;
  hs_query_off : h_set_pragma h "query_only" "OFF" = VInt 0;
  hs_presentable : presentable h = true;
}.

(** ** Calls that cannot but return *)

(** What no check of an open changes. *)
Record calm (s s' : JournalStore) : Prop := {
  cm_disk : js_disk s' = js_disk s; cm_finding : js_finding s' = js_finding s; cm_anchor : js_anchor s' = js_anchor s;
  cm_wal : js_wal_found s' = js_wal_found s; cm_io : js_io s' = js_io s; cm_ios : (js_ios s ≤ js_ios s')%nat;
}.
#[export] Instance calm_refl : Reflexive calm.
Proof. by split. Qed.
#[export] Instance calm_trans : Transitive calm.
Proof. intros x y z [] []. split; first [congruence|lia]. Qed.
Lemma calm_works s s' : calm s s' → works s → works s'.
Proof. intros [_ _ _ _ Hi Hn] Hw n Hle. rewrite Hi. apply Hw. lia. Qed.
Lemma idle_calm s s' : idle s s' → calm s s'.
Proof. by intros (n & err & Hn & ->). Qed.

Definition sure {A} (m : journal_st A) (Q : A → Prop) : Prop := ∀ s, works s → ends m s (λ a s', Q a ∧ calm s s') (λ _ _, False).
Notation surely m := (sure m (λ _, True)).

Lemma sure_touch : surely touch.
Proof. intros s Hw. ends_call touch_ends; [|naive_solver]. intros [] s' Hi. split; [done|by apply idle_calm]. Qed.
Lemma sure_ret {A} (a : A) (Q : A → Prop) : Q a → sure (mret a) Q.
Proof. intros Ha s _. by ends_step. Qed.
Lemma sure_require b e : b = true → surely (require b e).
Proof. intros -> s _. by ends_step. Qed.
Lemma sure_lift {A} (o : outcome A) a (Q : A → Prop) : o = Ret a → Q a → sure (lift_outcome o) Q.
Proof. intros -> Ha s _. ends_step; [|done]. match goal with X : Ret a = Ret _ |- _ => by injection X as <- end. Qed.
Lemma sure_bind {A B} (m : journal_st A) (k : A → journal_st B) (P : A → Prop) (Q : B → Prop) : sure m P → (∀ x, P x → sure (k x) Q) → sure (m ≫= k) Q.
Proof.
  intros Hm Hk s Hw. ends_step. ends_call (Hm s Hw); [|done]. intros x s1 [Hp H1].
  ends_call (Hk x Hp s1 (calm_works _ _ H1 Hw)); [|done]. intros y s2 [Hq H2]. split; [done|by transitivity s1].
Qed.
Lemma sure_then {A B} (m : journal_st A) (k : A → journal_st B) (Q : B → Prop) : surely m → (∀ x, sure (k x) Q) → sure (m ≫= k) Q.
Proof. intros Hm Hk. by apply (sure_bind _ _ (λ _, True)). Qed.
Lemma sure_for_each {A} (xs : list A) (f : A → journal_st unit) : Forall (λ x, surely (f x)) xs → surely (for_each xs f).
Proof. induction 1 as [|x xs Hx _ IH]; [by apply sure_ret|]. by apply sure_then. Qed.
Lemma sure_modify f : (∀ s, calm s (f s)) → surely (modify f).
Proof. intros Hf s _. by ends_step. Qed.

(** A step of an open that is sure to pass. *)
Lemma sure_step {A B} (m : journal_st A) (k : A → journal_st B) (P : A → Prop) s1 s2 Q : sure m P → works s2 → calm s1 s2 →
  (∀ x s3, P x → works s3 → calm s1 s3 → ends (k x) s3 Q (λ _ _, False)) → ends (m ≫= k) s2 Q (λ _ _, False).
Proof.
  intros Hm Hw Hc Hk. ends_step. ends_call (Hm s2 Hw); [|done]. intros x s3 [Hp H3]. apply Hk; [done|by eapply calm_works|by transitivity s2].
Qed.

Section hospitable.
Context (h : Host) (Hh : hospitable h).

Lemma sure_pragma name value expected : h_set_pragma h name value = expected → surely (_set_pragma h name value expected).
Proof.
  intros Hp. unfold _set_pragma. do 2 (apply sure_then; [apply sure_touch|intros _]). apply sure_require. by apply bool_decide_true.
Qed.
Lemma sure_settings : surely (_apply_connection_settings h).
Proof.
  unfold _apply_connection_settings. apply sure_then; [apply sure_touch|intros _].
  apply sure_then; [apply sure_require, bool_decide_true, Hh|intros _].
  apply sure_for_each. eapply Forall_impl; [apply (hs_settings h Hh)|]. intros [[name value] expected]. apply sure_pragma.
Qed.
Lemma sure_connect : surely (_connect h).
Proof.
  unfold _connect. apply sure_then; [apply sure_touch|intros _]. apply sure_then; [by apply sure_modify|intros _].
  apply sure_then; [apply sure_touch|intros _]. apply sure_then; [apply sure_require, Hh|intros _].
  apply sure_then; [apply sure_touch|intros _]. apply sure_require, Hh.
Qed.
(** What [_wal_found] says of the host. *)
Definition wal_seen : option WalFound :=
  (λ bytes, {| wal_size := str_len bytes; wal_digest := sha256_hex (WAL_TAG +:+ nul +:+ bytes) |}) <$> h_wal h.
Lemma sure_wal : sure (_wal_found h) (λ w, w = wal_seen).
Proof.
  unfold _wal_found, wal_seen. apply sure_then; [apply sure_touch|intros _]. destruct (h_wal h); [|by apply sure_ret].
  apply sure_then; [apply sure_touch|intros _]. by apply sure_ret.
Qed.
Lemma sure_presented : sure (_presentation_finding h) (λ f, f = None).
Proof.
  pose proof (hs_presentable h Hh) as Hp. unfold presentable in Hp. bool_simpl. unfold _presentation_finding.
  do 4 (apply sure_then; [apply sure_touch|intros _]). cbn zeta.
  repeat match goal with X : h_pragma h _ = _ |- _ => rewrite X; clear X | X : h_schema_rows h = _ |- _ => rewrite X; clear X
    | X : h_integrity h = _ |- _ => rewrite X; clear X end.
  rewrite (bool_decide_false (VInt APPLICATION_ID = VInt 0)) by done. rewrite andb_false_r, !bool_decide_true by done.
  apply sure_then; [apply sure_touch|intros _]. by apply sure_ret.
Qed.
Lemma sure_stat name : name ∈ [DB_FILENAME; WAL_FILENAME; ANCHOR_FILENAME] →
  sure (lift_outcome (h_stat h name)) (λ o, h_stat h name = Ret o ∧ ∀ st, o = Some st → _check_stat h st false = Ret tt).
Proof.
  intros Hn. pose proof (hs_stats h Hh) as Hs. rewrite forallb_forall in Hs. specialize (Hs name (proj1 (list_elem_of_In _ _) Hn)).
  unfold stat_passes in Hs. destruct (h_stat h name) as [[st|]|] eqn:E; [..|done]; (eapply sure_lift; [done|]; split; [done|]); [|by intros ?].
  intros ? [= <-]. by destruct (_check_stat h st false) as [[]|].
Qed.

Section open.
Context (a : AnchorState) (Hnone : an_hold a = None).

Lemma read_anchor_returns s : works s → file_names s a →
  ends _read_anchor s (λ _ s', works s' ∧ js_disk s' = js_disk s ∧ js_finding s' = None ∧ js_anchor s' = Some a) (λ _ _, False).
Proof.
  intros Hw Hf. unfold _read_anchor. eapply sure_step; [apply sure_touch|exact Hw|reflexivity|]. intros [] s1 _ Hw1 Hc1.
  ends_step. ends_step. rewrite (cm_disk _ _ Hc1). destruct Hf as (file & -> & Hanch).
  eapply sure_step; [apply sure_touch|exact Hw1|exact Hc1|]. intros [] s2 _ Hw2 Hc2. cbn zeta. rewrite (analyzed file a Hanch).
  repeat ends_step. cbn [some_b]. ends_step. split; [done|]. split; [|done]. exact (cm_disk _ _ Hc2).
Qed.

Lemma verify_open_returns s : works s → file_names s a → genesis_uuid_conflicts (table s) (an_journal_uuid a) = Ret false →
  ends (_verify_open h) s (λ _ s', js_finding s' = None ∧ works s' ∧ js_wal_found s' = wal_seen) (λ _ _, False).
Proof.
  intros Hw Hf Hg. unfold _verify_open.
  eapply sure_step; [apply (sure_stat DB_FILENAME); set_solver|exact Hw|reflexivity|]. intros db s1 [Hdb Hdbok] Hw1 Hc1.
  eapply sure_step; [apply (sure_stat WAL_FILENAME); set_solver|exact Hw1|exact Hc1|]. intros wal s2 [_ Hwal] Hw2 Hc2.
  eapply sure_step; [apply (sure_stat ANCHOR_FILENAME); set_solver|exact Hw2|exact Hc2|]. intros anchor s3 [_ Hanch] Hw3 Hc3.
  eapply (sure_step _ _ (λ _, True)); [|exact Hw3|exact Hc3|].
  { apply sure_for_each. apply Forall_forall. intros st (o & Ho & Hst)%list_elem_of_omap. cbn in Hst. subst o.
    eapply sure_lift; [|done]. rewrite !elem_of_cons in Ho. destruct Ho as [Ho|[Ho|[Ho|Ho]]]; [by apply Hdbok|by apply Hwal|by apply Hanch|].
    by apply elem_of_nil in Ho. }
  intros [] s4 _ Hw4 Hc4. ends_step. ends_call (read_anchor_returns s4 Hw4); [|..|done].
  { unfold file_names. by rewrite (cm_disk _ _ Hc4). }
  intros [] s5 (Hw5 & Hd5 & Hf5 & Ha5). do 4 ends_step. rewrite Hf5, Ha5, Hnone.
  pose proof (hs_presentable h Hh) as Hp. unfold presentable in Hp. rewrite Hdb in Hp. destruct db as [st|]; [|by bool_simpl].
  rewrite (proj2 (Z.ltb_ge _ _)) by (bool_simpl; lia). clear Hp.
  eapply sure_step; [apply sure_wal|exact Hw5|reflexivity|]. intros ? s6 -> Hw6 Hc6.
  do 2 ends_step. set (s7 := set_wal_found wal_seen s6). assert (works s7) as Hw7 by done.
  eapply sure_step; [apply sure_connect|exact Hw7|reflexivity|]. intros [] s8 _ Hw8 Hc8.
  eapply sure_step; [apply sure_settings|exact Hw8|exact Hc8|]. intros [] s9 _ Hw9 Hc9.
  eapply sure_step; [apply sure_pragma, Hh|exact Hw9|exact Hc9|]. intros [] s10 _ Hw10 Hc10.
  eapply sure_step; [apply sure_presented|exact Hw10|exact Hc10|]. intros ? s11 -> Hw11 Hc11.
  do 2 ends_step. cbn [some_b]. unfold _genesis_uuid_conflicts. do 2 ends_step.
  ends_call (sure_touch (set_finding None s11)); [done| |done]. intros [] s12 [_ Hc12]. do 2 ends_step.
  assert (table s12 = table s) as Ht.
  { unfold table. rewrite (cm_disk _ _ Hc12). cbn. rewrite (cm_disk _ _ Hc11). cbn. by rewrite (cm_disk _ _ Hc6), Hd5, (cm_disk _ _ Hc4). }
  fold (table s12). rewrite Ht, Hg. ends_step; [|done].
  match goal with X : Ret false = Ret ?b |- _ => injection X as <- end. ends_step. split_and!; [by rewrite (cm_finding _ _ Hc12)|by eapply calm_works|].
  rewrite (cm_wal _ _ Hc12). cbn. by rewrite (cm_wal _ _ Hc11).
Qed.

Lemma open_returns s : works s → file_names s a → genesis_uuid_conflicts (table s) (an_journal_uuid a) = Ret false →
  ends (open h false) s (λ _ s', js_finding s' = None ∧ works s' ∧ js_wal_found s' = wal_seen) (λ _ _, False).
Proof.
  intros Hw Hf Hg. destruct (hs_directory h Hh) as (directory & Hd & Hdir). unfold open. rewrite Hd.
  eapply sure_step; [apply sure_require, Hh|exact Hw|reflexivity|]. intros [] s1 _ Hw1 Hc1.
  eapply sure_step; [apply sure_require, Hh|exact Hw1|exact Hc1|]. intros [] s2 _ Hw2 Hc2.
  eapply (sure_step _ _ (λ _, True)); [by eapply sure_lift|exact Hw2|exact Hc2|]. intros ? s3 _ Hw3 Hc3.
  eapply sure_step; [apply sure_require, Hh|exact Hw3|exact Hc3|]. intros [] s4 _ Hw4 Hc4.
  eapply (sure_step _ _ (λ _, True)); [eapply sure_lift; [apply Hh|done]|exact Hw4|exact Hc4|]. intros ? s5 _ Hw5 Hc5.
  unfold _locked. ends_step. ends_step. cbn [negb orb]. ends_step. ends_step; [|done]. unfold _open_steps. ends_step. ends_step.
  ends_call (verify_open_returns s5 Hw5); [unfold file_names; by rewrite (cm_disk _ _ Hc5)|unfold table; by rewrite (cm_disk _ _ Hc5)| |done].
  intros [] s6 H6. by do 2 ends_step.
Qed.
End open.
End hospitable.

(** ** The restart *)

(** The last record of a live history is well typed. *)
Lemma live_last_ok rs p head : live rs p → p_head p = Some head → ∃ r, head = _record_head r ∧ record_ok r.
Proof.
  intros Hl Hh. destruct (live_chain rs p Hl) as [[_ ->]|(r & Hr & Hhr & _)]; [done|]. exists (read_back r).
  assert (_record_head (read_back r) = head) as <- by (rewrite Hh in Hhr; by injection Hhr as ->). split; [done|].
  pose proof (live_opens rs p Hl) as Ho. rewrite Forall_forall in Ho. apply last_Some_elem_of in Hr.
  destruct (opened_record_ok _ _ (Ho r Hr)) as [Hok _]. exact Hok.
Qed.

Record restart_inputs (s : RecoveryJournal) (p : Projection) (lag : Z) (wal : option WalFound) (st : Stamp) (e : string) (plan : Plan) : Prop := {
  ri_boot : or_none (v ← rj_ids s (rj_minted s); validate_id v) = Ret (Some (boot_id st));
  ri_clock : read_clock (rj_clock s (rj_clocks s)) = Ret (Some (wall_time st, mono_us st));
  ri_event : or_none (v ← rj_ids s (S (rj_minted s)); validate_id v) = Ret (Some e);
  ri_new : boot_id st ∉ p_seen_boot_ids p;
  ri_plan : plan_restart p e st lag wal = Ret (inl plan);
}.

Lemma live_head_seq rs p h : live rs p → p_head p = Some h → hd_event_seq h = Z.of_nat (length rs).
Proof.
  intros Hl Hh. destruct (live_chain rs p Hl) as [[_ ->]|(r & _ & Hhr & _ & _ & Hlen)]; [done|]. rewrite Hh in Hhr. by injection Hhr as ->.
Qed.
Lemma ahead_seq rs0 p0 rs p h0 h : live rs0 p0 → live rs p → one_ahead rs0 p0 rs p → p_head p0 = Some h0 → p_head p = Some h →
  hd_event_seq h0 ≤ hd_event_seq h.
Proof.
  intros Hl0 Hl Ha H0 H. rewrite (live_head_seq _ _ _ Hl0 H0), (live_head_seq _ _ _ Hl H). destruct Ha; [done|]. rewrite length_app. lia.
Qed.

Lemma anchor_again_returns lag s rs p a : reopened s rs p a lag → works (rj_store s) → an_counter a < MAX_SEQ →
  ends (write_anchor_again lag) s (λ b s', b = true ∧ works (rj_store s') ∧ (∃ st', s' = set_rj_store st' s) ∧
    ∃ a', js_anchor (rj_store s') = Some a' ∧ an_counter a' ≤ an_counter a + 1) (λ _ _, False).
Proof.
  intros [Hd Ha Hw Hp Hu (head & Hh & Hlag)] Hworks Hc. pose proof (writable_hold _ _ Hw (proj1 Ha)) as Hnone.
  unfold write_anchor_again. destruct (Z.eqb_spec lag 1) as [->|Hn].
  - unfold projection. do 3 ends_step. rewrite Hp. ends_step; [|done].
    match goal with X : the (Some p) = Ret _ |- _ => injection X as <- end. rewrite Hh. do 2 ends_step; [|done].
    match goal with X : the (Some head) = Ret _ |- _ => injection X as <- end. unfold on_store. do 3 ends_step.
    destruct (live_last_ok rs p head) as (r & -> & Hok); [apply Hd|done|].
    assert (slot_ok a (_record_head r) None = true) as Hslot.
    { destruct Hlag as [[? _]|[_ Hcs]]; [done|]. destruct (du_anchor _ _ _ _ Hd) as (rs0 & p0 & Hl0 & Hh0 & Hahead).
      pose proof (ahead_seq _ _ _ _ _ _ Hl0 (hi_live _ _ _ (du_history _ _ _ _ Hd)) Hahead Hh0 Hh) as Hes.
      eapply slot_ok_next; [exact Ha|done|done|done|cbn in *; lia|exact Hes]. }
    ends_call (write_anchor_ends (_record_head r) (rj_store s) a Ha).
    + intros [] st' [Hao Hat]. ends_step. cbn [some_b]. split_and!; [done| |by exists st'|].
      * intros n Hle. cbn in *. rewrite (ao_io _ _ Hao). apply Hworks. pose proof (ao_ios _ _ Hao). lia.
      * exists (next_anchor a (_record_head r) None). split; [apply Hat|cbn; lia].
    + intros e st' (_ & _ & Hno). exfalso. rewrite Hno in Hslot; [done..].
  - ends_step. split_and!; [done|done|exists (rj_store s); by destruct s|]. exists a. split; [apply Ha|lia].
Qed.

Lemma restart_may_append st rs p a e stamp0 lag wal plan : store_at st rs p a → planned p plan →
  plan_restart p e stamp0 lag wal = Ret (inl plan) → an_counter a < MAX_SEQ → unused (map _row_params rs) plan → may_append rs a plan.
Proof.
  intros Hst Hp Hplan Hc [Hids Hdigs]. pose proof (sat_head _ _ _ _ Hst) as Hhead.
  pose proof (table_top _ _ _ _ Hst) as Htop. pose proof (planned_storable _ _ _ _ _ Hst Hp) as Hstorable.
  unfold plan_restart in Hplan. inv_do. apply within_inl in Hplan as [Hr _].
  match goal with X : _single_position p = Ret _ |- _ => apply single_position in X as (head & Hhd & Hpos) end.
  rewrite Hhead in Hhd. injection Hhd as <-.
  match goal with X : seal _ _ _ _ = Ret ?x |- _ => pose proof (seal_row _ _ _ _ _ X) as Hrow; apply seal_shows in X as Hs; rename x into x end.
  pose proof (sa_position _ _ _ _ _ Hs) as Hposx. rewrite Hpos in Hposx.
  pose proof (sh_event_type _ _ _ (sa_shows _ _ _ _ _ Hs _ (or_introl eq_refl))) as Ht. cbn [dr_event_type] in Ht.
  unfold may_append. rewrite Hr in *. cbn [map] in *.
  apply NoDup_app in Hids as (_ & Hids & _), Hdigs as (_ & Hdigs & _). split_and!.
  - apply records_checked; [done|done|]. constructor; [by apply sr_frozen|constructor].
  - cbn [inserts_ok]. rewrite andb_true_r. apply row_inserts; [done|by rewrite Ht|rewrite Hposx; cbn; lia|..].
    + intros Hx. apply (Hids _ Hx). by left.
    + intros Hx. apply (Hdigs _ Hx). by left.
  - intros r' [= <-]. eapply slot_ok_next; [apply Hst|by eapply store_at_hold|done|by apply sr_ok|rewrite Hposx; cbn; lia..].
Qed.

Lemma committed_returns plan sync s rs p a : in_step s rs p a → works (rj_store s) → planned p plan → may_append rs a plan →
  ends (committed plan sync) s (λ b s', b = true ∧ rj_closed s' = rj_closed s ∧ ∃ p' a', in_step s' (rs ++ pl_records plan) p' a') (λ _ _, False).
Proof.
  intros Hs Hw Hp Hmay. unfold committed. ends_step. ends_step.
  ends_call (commit_ends plan sync s rs p a (is_projection _ _ _ _ Hs) (is_store _ _ _ _ Hs)); [done| |].
  2: { intros e s' [_ Hno]. by destruct Hno. }
  intros seqs s' [Hd _]. ends_step. destruct Hd as [? ? ? Hne|st' d a' [Hv Hst Hobj _]]; [destruct Hne; by apply inserts_fresh, Hmay|].
  split_and!; [done|done|]. exists (apply_delta p d), a'. split; [done|done|apply (is_unheld _ _ _ _ Hs)].
Qed.

Lemma restart_returns lag wal s rs p a st e plan : reopened s rs p a lag → works (rj_store s) → restart_inputs s p lag wal st e plan →
  an_counter a + 1 < MAX_SEQ → unused (map _row_params rs) plan →
  ends (_run_restart_recovery lag wal) s (λ _ s', rj_closed s' = rj_closed s ∧ ∃ p' a', in_step s' (rs ++ pl_records plan) p' a') (λ _ _, False).
Proof.
  intros Hs Hw [Hboot Hclock He Hnew Hplan] Hc Hun. unfold _run_restart_recovery. ends_step.
  ends_call (ends_and _ _ _ _ _ _ (again_ends False s rs p a lag Hs) (anchor_again_returns lag s rs p a Hs Hw ltac:(lia))); [|naive_solver].
  intros ? s1 [[_ Hb] (-> & Hw1 & (st1 & ->) & a1 & Ha1 & Hc1)]. destruct Hb as [a1' Hs1]. cbn [negb].
  assert (a1' = a1) as -> by (pose proof (proj1 (sat_anchor _ _ _ _ (is_store _ _ _ _ Hs1))); congruence).
  set (s1 := set_rj_store st1 s) in *.
  ends_step. ends_call (mint_next s1 (boot_id st)); [exact Hboot| |done]. intros ? ? [-> ->]. set (s2 := set_rj_minted _ s1).
  ends_step. unfold _read_clock. do 4 ends_step. ends_step; change (rj_clock s2 (rj_clocks s2)) with (rj_clock s (rj_clocks s)) in *; rewrite Hclock in *; [|done].
  match goal with X : Ret _ = Ret ?x |- _ => injection X as <- end. set (s3 := set_rj_clocks _ s2).
  ends_step. ends_call (mint_next s3 e); [exact He| |done]. intros ? ? [-> ->]. set (s4 := set_rj_minted _ s3).
  assert (in_step s4 rs p a1) as Hs4 by by eapply (bookkeeping_in_step s1).
  ends_step. ends_call (projection_ends s4 rs p a1 Hs4); [|done]. intros ? ? [-> ->]. ends_step.
  replace {| boot_id := boot_id st; wall_time := wall_time st; mono_us := mono_us st |} with st by by destruct st.
  ends_step; rewrite Hplan in *; [|done]. match goal with X : caught_in _ _ = Ret ?x |- _ => injection X as <- end.
  assert (planned p plan) as Hp by by eapply planned_restart.
  ends_step. ends_call (committed_returns plan true s4 rs p a1 Hs4); [done|done| | |done].
  - eapply restart_may_append; [apply Hs4|done|done|lia|done].
  - intros ? s5 (-> & Hcl & p' & a' & Hs5). ends_step. split; [done|]. exists p', a'. by eapply (bookkeeping_in_step s5).
Qed.

(** The digest of what was replayed is always there. *)
Lemma live_digest rs p : live rs p → returned (state_digest p) = true.
Proof.
  intros Hl. destruct (state_digest_returns (map read_back rs) p) as [d ->]; [apply (live_replays rs p Hl), read_back_forms| |done].
  apply Forall_map. eapply Forall_impl; [exact (live_opens rs p Hl)|]. intros r Hr. by destruct (opened_record_ok _ _ Hr).
Qed.

(** ** The open *)
Lemma finish_open_returns h s : hospitable h → works s → writable s = true → ends (finish_open h) s (λ _ s', idle s s') (λ _ _, False).
Proof.
  intros Hh Hw Hwr. unfold finish_open, _check_writable. do 4 ends_step; [|congruence].
  apply (guarded_ends _ _ _ (λ _ _, False)); [|done].
  ends_call (ends_and _ _ _ _ _ _ (pragma_idle h "query_only" "OFF" (VInt 0) s) (sure_pragma h _ _ _ (hs_query_off h Hh) s Hw)); [by intros ? ? [? _]|naive_solver].
Qed.

(** What the clock and the id factory give to an open. *)
Record open_inputs (h : Host) (s : RecoveryJournal) (rs : list JournalRecord) (p : Projection) (st : Stamp) (e : string) : Prop := {
  oi_handle : ∃ i, or_none (v ← rj_ids s (rj_minted s); validate_id v) = Ret (Some i);
  oi_boot : or_none (v ← rj_ids s (S (rj_minted s)); validate_id v) = Ret (Some (boot_id st));
  oi_clock : read_clock (rj_clock s (rj_clocks s)) = Ret (Some (wall_time st, mono_us st));
  oi_event : or_none (v ← rj_ids s (S (S (rj_minted s))); validate_id v) = Ret (Some e);
  oi_new : boot_id st ∉ p_seen_boot_ids p;
  oi_plan : ∀ lag, lag = 0 ∨ lag = 1 → ∃ plan, plan_restart p e st lag (wal_seen h) = Ret (inl plan) ∧ unused (map _row_params rs) plan;
}.

(** The handle that was opened: a restart more than what the disk held. *)
Definition recovered (h : Host) (rs : list JournalRecord) (p : Projection) (st : Stamp) (e : string) (s' : RecoveryJournal) : Prop :=
  state s' = "ready" ∧ ∃ lag plan p' a', (lag = 0 ∨ lag = 1) ∧ plan_restart p e st lag (wal_seen h) = Ret (inl plan) ∧
    in_step s' (rs ++ pl_records plan) p' a'.

Lemma open_verified_returns h s s0 rs p a st e : hospitable h → durable (rj_store s) rs p a → an_hold a = None → opened h s0 a (rj_store s) →
  js_finding (rj_store s) = None → works (rj_store s) → js_wal_found (rj_store s) = wal_seen h → an_counter a + 1 < MAX_SEQ →
  open_inputs h s rs p st e →
  ends (_open_verified h None) s (λ _, recovered h rs p st e) (λ _ _, False).
Proof.
  intros Hh Hd Hnone Hop Hf Hw Hwal Hc [[i Hi] Hboot Hclock He Hnew Hplan]. pose proof (live_digest rs p (hi_live _ _ _ (du_history _ _ _ _ Hd))) as Hdig. unfold _open_verified. cbn zeta.
  ends_step. ends_call (mint_next s i); [exact Hi| |done]. intros ? ? [-> ->]. set (s1 := set_rj_minted _ s).
  do 2 ends_step. change (rj_store s1) with (rj_store s). rewrite Hf. ends_step. unfold on_store. ends_step.
  destruct (od_clean _ _ _ _ Hop Hf) as (Ha & _ & Hconn). pose proof (od_opening _ _ _ _ Hop) as Hopening.
  destruct Hd as [Hhist Htab Hfile Hahead].
  ends_call (replay_finding_ends (rj_store s) rs p a Hhist Htab Ha Hf Hconn Hahead); [|by intros ? ? [_ ?]].
  intros [[finding lag] sc] st1 [Hlk Hres]. cbn [fst snd] in *. destruct finding as [f|]; [by apply reported_broke in Hres|].
  destruct Hres as (Hcand & Hf1 & head & Hhead & Hlag). rewrite Hcand. set (s2 := set_rj_store st1 s1).
  ends_step. ends_step. ends_step. ends_step; [|done]. do 3 ends_step.
  assert (writable st1 = true) as Hwr.
  { unfold writable. rewrite Hf1, (lk_anchor _ _ Hlk), Ha, Hnone, (lk_connection _ _ Hlk), Hconn, (lk_broken _ _ Hlk), (lk_closed _ _ Hlk),
      (op_broken _ _ _ Hopening), (op_closed _ _ _ Hopening). done. }
  ends_call (finish_open_returns h st1 Hh (looks_works _ _ Hlk Hw) Hwr); [|done]. intros [] st2 Hi2. ends_step.
  ends_step; [|by match goal with X : state_digest p = Raise _ |- _ => rewrite X in Hdig end]. do 2 ends_step.
  match goal with |- ends _ ?s' _ _ => set (s4 := s') end.
  assert (reopened s4 rs p a (default 0 lag)) as Hs4.
  { pose proof (conj Ha Hfile) as Hat. assert (at_anchor st1 a) as Hat1.
    { unfold at_anchor. by rewrite (lk_anchor _ _ Hlk), (lk_disk _ _ Hlk). }
    split; cbn; try done.
    - split; [done|by rewrite (idle_table _ _ Hi2); unfold table; rewrite (lk_disk _ _ Hlk)| |done].
      eapply idle_names; [exact Hi2|]. by apply at_anchor_names.
    - by eapply idle_at_anchor.
    - by rewrite (idle_writable _ _ Hi2).
    - exists head. split; [done|]. by destruct Hlag as [[-> ->]|[-> ?]]; [left|right]. }
  assert (works (rj_store s4)) as Hw4 by by eapply idle_works, looks_works.
  assert (js_wal_found (rj_store s4) = wal_seen h) as Hwal4.
  { cbn. destruct Hi2 as (n & err & _ & ->). cbn. by rewrite (lk_wal _ _ Hlk). }
  assert (default 0 lag = 0 ∨ default 0 lag = 1) as Hlag' by by destruct Hlag as [[-> _]|[-> _]]; [left|right].
  destruct (Hplan _ Hlag') as (plan & Hpl & Hun). do 3 ends_step. rewrite Hwal4.
  ends_call (restart_returns (default 0 lag) (wal_seen h) s4 rs p a st e plan Hs4 Hw4); [by split|done|done| |done].
  intros [] s5 (Hcl & p' & a' & Hs5). do 3 ends_step. split.
  - unfold state. rewrite Hcl, (is_unheld _ _ _ _ Hs5). done.
  - by exists (default 0 lag), plan, p', a'.
Qed.

Lemma open_recovery_returns h s rs p a st e : hospitable h → durable (rj_store s) rs p a → an_hold a = None → works (rj_store s) →
  an_counter a + 1 < MAX_SEQ → open_inputs h s rs p st e →
  ends (open_recovery_journal h None) s (λ _, recovered h rs p st e) (λ _ _, False).
Proof.
  intros Hh Hd Hnone Hw Hc Hin. unfold open_recovery_journal. do 6 ends_step. unfold on_store. ends_step.
  assert (durable (rj_store (reset s)) rs p a) as Hd' by by apply (same_disk_durable (rj_store s)).
  pose proof (hi_genesis _ _ _ (du_history _ _ _ _ Hd')) as Hg. rewrite <-(du_table _ _ _ _ Hd') in Hg.
  assert (fresh_store (rj_store (reset s))) as Hfresh by by split.
  ends_call (ends_and _ _ _ _ _ _ (open_ends h false (rj_store (reset s)) a Hfresh (du_file _ _ _ _ Hd') Hg)
    (open_returns h Hh a Hnone (rj_store (reset s)) Hw (du_file _ _ _ _ Hd') Hg)); [|naive_solver].
  intros [] st' (Hop & Hf & Hw' & Hwal). unfold store_error. do 4 ends_step.
  assert (durable st' rs p a) as Hdst.
  { pose proof (od_opening _ _ _ _ Hop) as Ho. eapply same_disk_durable; [..|exact Hd'].
    - unfold table. by rewrite (op_disk _ _ _ Ho).
    - intros Hn. by eapply opening_names. }
  ends_call (open_verified_returns h (set_rj_store st' (reset s)) (rj_store (reset s)) rs p a st e Hh Hdst Hnone Hop Hf Hw' Hwal Hc); [|..|done].
  - destruct Hin. by split.
  - intros [] s1 H1. by ends_step.
Qed.
