(* ===== verification/RecoveryCreate.v ===== *)
(** * Creating a journal

    A [create] that returns leaves a handle in step: the genesis record is the
    one row, and the anchor file, zeros until then, names it in its second slot. *)

From S2P Require Import Prelude PyValue PyJson Sha256 CanonJson PyBytes JsonParse JournalValue JournalSource JournalRecords.
From S2P Require Import JournalClaims JournalSeal JournalStored JournalAccepts JournalSealThm JournalState JournalPlan.
From S2P Require Import JournalVerify JournalReplay JournalCopies JournalFrontThm JournalReplayThm JournalInv JournalSafe JournalBounds.
From S2P Require Import JournalAnchor JournalAnchorThm JournalStore Hoare JournalStoreThm JournalAppendThm RecoveryJournal RecoveryCommit.
From S2P Require Import RecoveryOps RecoveryOpen.
Local Open Scope string_scope.
Local Open Scope Z_scope.
Local Open Scope list_scope.

(** ** The first slot *)
Lemma zero_bytes_app m n : zero_bytes (m + n) = zero_bytes m +:+ zero_bytes n.
Proof. induction m as [|m IH]; [done|]. cbn [Nat.add zero_bytes]. by rewrite IH. Qed.

Definition ZERO_SLOT : string := zero_bytes 1024.
Lemma zero_layout : zero_bytes (Z.to_nat ANCHOR_BYTES) = layout ZERO_SLOT ZERO_SLOT.
Proof. vm_compute. reflexivity. Qed.
Lemma zero_slot : is_slot ZERO_SLOT.
Proof. apply length_zero_bytes. Qed.
Lemma zero_slot_body : slot_body ZERO_SLOT = None.
Proof. vm_compute. reflexivity. Qed.

Definition first_anchor (uuid : string) (head : Head) : AnchorState :=
  {| an_journal_uuid := uuid; an_counter := 1; an_head := head; an_hold := None |}.

#[local] Opaque sha256_hex sha256_digest _encode_slot _decode_slot verify_commit open_record ZERO_SLOT.

Lemma first_slot body slot a : members_ok body → names body a → an_counter a = 1 → _encode_slot body = Ret slot →
  anchored (pwrite (λ _, true) slot (slot_offset 1) (layout ZERO_SLOT ZERO_SLOT)) a.
Proof.
  intros Hm Hn Hc Es. pose proof (encode_slot_length _ _ Es) as Ls. pose proof (encode_slot_body _ _ Hm Es) as Hb.
  unfold slot_offset. rewrite pwrite_layout by (done || apply zero_slot). change (1 mod 2 =? 0) with false. cbv iota.
  rewrite overlay_all by (unfold is_slot in *; by rewrite Ls, zero_slot).
  eexists _, _. split; [reflexivity|]. split; [apply zero_slot|done|..]; unfold slot_of; rewrite Hc.
  - exists (sort_members body). split; [done|by apply names_sorted].
  - change ((1 + 1) mod 2 =? 0) with true. cbv iota. by rewrite zero_slot_body.
Qed.

Lemma write_through_ends slot c s :
  ends (write_through (write_slot_bytes slot c)) s (λ _, idle (write_slot_bytes slot c (λ _, true) s)) (λ _ _, True).
Proof.
  destruct (write_through_slot slot c s) as (landed & Hi & Ho). unfold ends. destruct (write_through _ s) as [o s']. cbn [fst snd] in *.
  by destruct Ho as [[-> ->]|(e & -> & _)].
Qed.

Lemma first_write_ends uuid head s : js_anchor s = None → dk_anchor (js_disk s) = Some (layout ZERO_SLOT ZERO_SLOT) →
  ends (_write_slot (_anchor_body uuid head None)) s (λ _ s', anchor_only s s' ∧ at_anchor s' (first_anchor uuid head)) (λ _ _, True).
Proof.
  intros Ha Hf. unfold _write_slot. ends_step. ends_step. ends_step. ends_step. ends_step. ends_step; [|done]. rewrite Ha. cbn zeta.
  destruct (next_body uuid head None 1) as (_ & Hm & Hstate & _). change (0 + 1) with 1 in *. set (body := dict_set _ _ _) in *.
  ends_step. ends_step; [|done]. bool_simpl. ends_step. ends_step; [|done]. ends_step. ends_call touch_ends; [|done]. intros [] s1 Hi.
  ends_step. ends_step. ends_step. ends_step; [|done]. ends_step. ends_call write_through_ends; [|done]. intros [] s2 Hi2.
  ends_step. ends_step. ends_step. destruct Hi as (n & err & Hn & ->), Hi2 as (n2 & err2 & Hn2 & ->).
  unfold write_slot_bytes in *. cbn [js_disk set_ios set_error] in *. rewrite Hf in *. cbn in Hn2. split.
  - split; cbn; try done; [lia|by eexists [_]].
  - split; [by rewrite Hstate|]. eexists. split; [reflexivity|]. by eapply first_slot.
Qed.

(** ** The files *)
Lemma operate_ends effect s : ends (operate effect) s (λ _ s', ∃ n, (js_ios s ≤ n)%nat ∧ s' = effect (λ _, true) (set_ios n s)) (λ _ _, True).
Proof.
  unfold ends, operate, take_io, mbind, st_bind, modify, raise. destruct (js_io s (js_ios s)) as [|f landed]; cbn; [by exists (S (js_ios s)); split; [lia|]|].
  by destruct f.
Qed.

(** An operation that returns left the disk alone. *)
Definition harmless {A} (m : journal_st A) : Prop := ∀ s, ends m s (λ _, idle s) (λ _ _, True).
Lemma harmless_touch : harmless touch.
Proof. intros s. by ends_call touch_ends. Qed.
Lemma harmless_require b e : harmless (require b e).
Proof. intros s. ends_step; [apply idle_refl|done]. Qed.
Lemma harmless_lift {A} (o : outcome A) : harmless (lift_outcome o).
Proof. intros s. ends_step; [apply idle_refl|done]. Qed.
Lemma harmless_ret {A} (a : A) : harmless (mret a).
Proof. intros s. apply idle_refl. Qed.
Lemma harmless_bind {A B} (m : journal_st A) (k : A → journal_st B) : harmless m → (∀ x, harmless (k x)) → harmless (m ≫= k).
Proof.
  intros Hm Hk s. ends_step. ends_call (Hm s); [|done]. intros x s1 H1. ends_call (Hk x s1); [|done].
  intros y s2 H2. by eapply idle_trans.
Qed.
Lemma harmless_for_each {A} (xs : list A) (f : A → journal_st unit) : (∀ x, harmless (f x)) → harmless (for_each xs f).
Proof. intros Hf. induction xs as [|x xs IH]; [apply harmless_ret|]. by apply harmless_bind. Qed.
Create HintDb harmless.
#[local] Hint Resolve harmless_touch harmless_require harmless_lift harmless_ret : harmless.
#[local] Hint Extern 2 (harmless (_ ≫= _)) => apply harmless_bind; intros : harmless.

Lemma harmless_pragma h name value expected : harmless (_set_pragma h name value expected).
Proof. unfold _set_pragma. auto with harmless. Qed.
#[local] Hint Resolve harmless_pragma : harmless.
Lemma harmless_settings h : harmless (_apply_connection_settings h).
Proof.
  unfold _apply_connection_settings. do 2 (apply harmless_bind; [auto with harmless|intros _]).
  apply harmless_for_each. intros [[name value] expected]. apply harmless_pragma.
Qed.
Lemma harmless_configure h : harmless (_configure_for_create h).
Proof. unfold _configure_for_create. auto with harmless. Qed.
Lemma harmless_step {A B} (m : journal_st A) (k : A → journal_st B) s1 s2 Q : harmless m → idle s1 s2 →
  (∀ x s3, idle s1 s3 → ends (k x) s3 Q (λ _ _, True)) → ends (m ≫= k) s2 Q (λ _ _, True).
Proof. intros Hm Hi Hk. ends_step. ends_call (Hm s2); [|done]. intros x s3 H3. by eapply Hk, idle_trans. Qed.

Lemma connect_harmless h s : ends (_connect h) s (λ _, idle (set_connection true s)) (λ _ _, True).
Proof.
  unfold _connect. ends_step. ends_call touch_ends; [|done]. intros [] s1 (n & err & Hn & ->). ends_step. ends_step.
  assert (harmless (touch;; require (h_no_ckpt h) (StoreError "sqlite_unsupported");; touch;;
    require (h_main_is_db h) (StoreError "journal_path_invalid"))) as Hrest by auto with harmless.
  ends_call Hrest; [|done]. intros [] s2 (n2 & err2 & Hn2 & ->). exists n2, err2. split; [cbn in *; lia|done].
Qed.

(** The store holds the genesis record and the anchor that names it. *)
Record created (uuid : string) (genesis : JournalRecord) (s' : JournalStore) : Prop := {
  cr_table : table s' = [_row_params genesis];
  cr_anchor : at_anchor s' (first_anchor uuid (_record_head genesis));
  cr_writable : writable s' = true;
}.

Lemma insert_ends s rows row s1 : after_sql s (table s) (Some rows) s1 →
  ends (insert_row row) s1 (λ _, after_sql s (table s) (Some (rows ++ [row]))) (λ _ _, True).
Proof.
  intros Hs. unfold insert_row. ends_step. ends_call touch_ends; [|done]. intros [] s2 Hi. eapply after_sql_idle in Hs; [|exact Hi].
  ends_step. ends_step. destruct (insert_ok _ _); [|by repeat ends_step]. ends_step.
  assert (js_txn s2 = Some rows) as -> by by destruct Hs as (n & err & _ & ->). by eapply after_sql_txn.
Qed.

Lemma create_files_ends h genesis uuid s : fresh_store s → table s = [] →
  ends (_create_files h genesis uuid) s (λ _, created uuid genesis) (λ _ _, True).
Proof.
  intros [Hf Hc Ht Ha Hb Hcl _] Htab. unfold _create_files. cbn zeta. ends_step. ends_step.
  assert (harmless (lift_outcome (any_present h [DB_FILENAME; WAL_FILENAME; ANCHOR_FILENAME]) ≫= λ found,
    require (negb found) (StoreError "journal_exists");; touch)) as Hcreate by auto with harmless.
  ends_call Hcreate; [|by intros; repeat ends_step]. intros [] s1 Hi1. cbv iota. ends_step. ends_step.
  eapply (ends_mono _ _ (λ _, created uuid genesis) _ (λ _ _, True)).
  2: { intros [] s2 [H1 H2 H3]. ends_step. by split. }
  2: { intros; by ends_step. }
  ends_step. ends_call connect_harmless; [|done]. intros [] s2 Hi2.
  assert (∃ n err, (js_ios s ≤ n)%nat ∧ s2 = set_ios n (set_error err (set_connection true s))) as Hi.
  { destruct Hi1 as (n1 & err1 & Hn1 & ->), Hi2 as (n2 & err2 & Hn2 & ->). exists n2, err2. split; [cbn in *; lia|done]. }
  clear Hi1 Hi2. assert (idle (set_connection true s) s2) as Hi2 by exact Hi. clear Hi.
  eapply harmless_step; [apply harmless_settings|exact Hi2|]. clear Hi2. intros [] s3 Hi.
  eapply harmless_step; [apply harmless_configure|exact Hi|]. clear Hi. intros [] s4 Hi.
  unfold begin_immediate. ends_step. eapply harmless_step; [apply harmless_touch|exact Hi|]. clear Hi. intros [] s5 Hi.
  apply after_sql_start in Hi. assert (dk_rows (js_disk s5) = []) as Hrows by by (destruct Hi as (n & err & _ & ->)).
  apply (after_sql_txn _ _ _ (Some [])) in Hi. ends_step. rewrite Hrows.
  set (s0 := set_connection true s) in *. assert (table s0 = []) as Htab0 by done.
  assert (∀ (m : journal_st unit) s1 rows txn Q (k : unit → journal_st unit), harmless m → after_sql s0 rows txn s1 →
    (∀ s2, after_sql s0 rows txn s2 → ends (k tt) s2 Q (λ _ _, True)) → ends (m ≫= k) s1 Q (λ _ _, True)) as Hstep.
  { intros m sa rows txn Q k Hm Hsa Hk. ends_step. ends_call (Hm sa); [|done]. intros [] sb Hsb. by eapply Hk, after_sql_idle. }
  eapply Hstep; [apply harmless_touch|exact Hi|]. clear Hi. intros s6 Hi.
  eapply Hstep; [apply harmless_touch|exact Hi|]. clear Hi. intros s7 Hi.
  eapply Hstep; [apply harmless_for_each; intros; apply harmless_touch|exact Hi|]. clear Hi. intros s8 Hi.
  ends_step. ends_call (insert_ends s0 [] (_row_params genesis)); [exact Hi| |done]. intros [] s9 H9.
  ends_step. ends_call (commit_rows_ends s0); [exact H9| |done]. intros [] s10 H10.
  eapply Hstep; [apply harmless_touch|exact H10|]. intros s11 (n11 & err11 & Hn11 & ->).
  ends_step. ends_call operate_ends; [|done]. intros [] ? (n12 & Hn12 & ->). ends_step. ends_call operate_ends; [|done].
  intros [] ? (n13 & Hn13 & ->). cbv beta iota. ends_step. ends_call first_write_ends; [done|by rewrite zero_layout| |done].
  intros [] s14 [Hao Han]. ends_call touch_ends; [|done]. intros [] s15 Hi15. split.
  - rewrite (idle_table _ _ Hi15), (ao_table _ _ Hao). done.
  - by eapply idle_at_anchor.
  - rewrite (idle_writable _ _ Hi15). unfold writable. rewrite (proj1 Han), (ao_finding _ _ Hao), (ao_connection _ _ Hao), (ao_broken _ _ Hao), (ao_closed _ _ Hao).
    cbn. by rewrite Hf, Hb, Hcl.
Qed.

Lemma create_ends h genesis uuid s : fresh_store s → table s = [] →
  ends (create h genesis uuid) s (λ _, created uuid genesis) (λ _ _, True).
Proof.
  intros Hs Ht. unfold create. ends_step. ends_step; [|done]. destruct (h_directory h); [|by ends_step].
  ends_step. ends_step; [|done]. ends_step. ends_step; [|done]. ends_step. ends_step; [|done].
  ends_step. ends_step; [|done]. ends_step. ends_step; [|done]. ends_step. ends_step; [|done].
  unfold _locked. ends_step. ends_step. ends_call (create_files_ends h genesis uuid s Hs Ht).
  - intros [] s1 Hc. by ends_step.
  - intros e s1 _. ends_step. eapply ends_mono; [apply (idle_close s1)|intros [] s2 _; by ends_step|done].
Qed.

(** ** The handle *)
Lemma genesis_history uuid bounds e st plan p : plan_genesis uuid bounds e st = Ret plan → commit new_projection (pl_records plan) = Ret p →
  ∃ r, pl_records plan = [r] ∧ history [r] p uuid ∧ p_head p = Some (_record_head r).
Proof.
  intros Hplan Hp. unfold commit in Hp. inv_do. injection Hp as <-.
  match goal with X : verify_commit _ _ = Ret ?d |- _ => rename X into Hv; rename d into dl end.
  pose proof (planned_genesis new_projection plan uuid bounds e st eq_refl Hplan) as Hpl.
  destruct (commit_head _ _ _ _ live_new Hpl Hv) as (r & Hr & Hhead).
  assert (live ([] ++ pl_records plan) (apply_delta new_projection dl)) as Hl by by apply live_commit; [apply live_new|..].
  unfold plan_genesis in Hplan. inv_do. injection Hplan as <-. cbn [app pl_records last] in *. injection Hr as <-. rename a into r.
  exists r. split_and!; [done| |done]. pose proof (live_opens _ _ Hl) as Ho. apply Forall_cons in Ho as [Ho _].
  match goal with X : seal ?d _ _ _ = Ret r |- _ => set (draft := d) in *; rename X into Hs end. apply seal_shows in Hs.
  assert (draft_ok draft) as Hok by draft_ok. pose proof (sa_position _ _ _ _ _ Hs) as Hpos.
  assert (∀ r', form_of r r' → get (data r') "journal_uuid" = DStr uuid) as Huuid.
  { intros r' Hf. pose proof (shows_data _ _ _ (sa_shows _ _ _ _ _ Hs r' Hf) Hok "journal_uuid") as [H|H]; exact H. }
  assert (List.find (λ row, rw_event_seq row =? 1) (map _row_params [r]) = Some (_row_params r)) as Hfind by (cbn; by rewrite Hpos).
  split; [done|apply NoDup_singleton|by eexists|]. unfold genesis_uuid_conflicts. rewrite Hfind. cbn [_row_params rw_event_type rw_body rw_record_digest].
  rewrite (sh_event_type _ _ _ (sa_shows _ _ _ _ _ Hs r (or_introl eq_refl))), bool_decide_true by done. cbn [negb].
  rewrite (storable_digest r Ho). destruct (opened_envelope _ _ Ho) as (m & Hvb & Hd & _). rewrite Hvb. cbn [mbind outcome_bind]. rewrite Hd.
  cbn [caught_in mbind outcome_bind]. rewrite (Huuid _ (or_intror eq_refl)). by rewrite bool_decide_true.
Qed.

Lemma create_recovery_ends h bounds s : js_disk (rj_store s) = mkDisk [] None →
  ends (create_recovery_journal h bounds) s (λ _ s', state s' = "ready" ∧ ∃ r p a, in_step s' [r] p a) (λ _ _, True).
Proof.
  intros Hdisk. unfold create_recovery_journal.
  assert (∀ {A} (m : handle_st A) s0 (Q : A → RecoveryJournal → Prop), within bookkeeping m →
    (∀ x s1, bookkeeping s0 s1 → Q x s1) → ends m s0 Q (λ _ _, True)) as Hbk.
  { intros A m s0 Q Hm HQ. ends_call (ends_total bookkeeping m s0 Hm); [apply HQ|done]. }
  ends_step. apply Hbk; [apply mint_bookkeeping|]. intros uuid s1 H1. ends_step. apply Hbk; [apply mint_bookkeeping|]. intros boot s2 H2.
  ends_step. apply Hbk; [apply mint_bookkeeping|]. intros event_id s3 H3. ends_step. apply Hbk; [apply clock_bookkeeping|]. intros reading s4 H4.
  assert (js_disk (rj_store s4) = mkDisk [] None) as Hdisk4.
  { by rewrite (bk_store _ _ H4), (bk_store _ _ H3), (bk_store _ _ H2), (bk_store _ _ H1). }
  ends_step. ends_step; [|done]. match goal with X : genesis_commit _ _ _ _ _ = Ret ?g |- _ => rename X into Hg; rename g into genesis end.
  destruct genesis as [[plan p]|]; [|by ends_step].
  assert (∃ u e st0, uuid = Some u ∧ plan_genesis u bounds e st0 = Ret plan ∧ commit new_projection (pl_records plan) = Ret p)
    as (u & e & st0 & -> & Hplan & Hp).
  { unfold genesis_commit in Hg. destruct uuid as [u|], boot as [b|], event_id as [e|], reading as [[wall mono]|]; try done.
    unfold or_none in Hg. destruct (plan_genesis _ _ _ _) as [plan'|] eqn:E; cbn in Hg; [|by destruct (is_exception _)].
    destruct (commit _ _) as [p'|] eqn:E'; cbn in Hg; [|by destruct (is_exception _)]. injection Hg as <- <-. by eexists _, _, _. }
  destruct (genesis_history _ _ _ _ _ _ Hplan Hp) as (r & Hr & Hh & Hhead). rewrite Hr. do 4 ends_step. unfold on_store. ends_step.
  ends_call (create_ends h r u (rj_store (reset s4))); [by split|unfold table; cbn; by rewrite Hdisk4| |].
  - intros [] st' [Htab Han Hw]. unfold store_error. do 2 ends_step. ends_step. ends_step; [|done]. ends_step. split; [done|].
    exists r, p, (first_anchor u (_record_head r)). split; [|done|done]. by split.
  - intros ex st' _. unfold store_error. by do 2 ends_step.
Qed.

(** *** The answers stay *)
Definition same_io (s s' : JournalStore) : Prop := js_io s' = js_io s.
#[export] Instance same_io_refl : Reflexive same_io.
Proof. done. Qed.
#[export] Instance same_io_trans : Transitive same_io.
Proof. unfold same_io. congruence. Qed.

Lemma operate_io effect : (∀ landed s, same_io s (effect landed s)) → within same_io (operate effect).
Proof. apply operate_within; [apply _|apply _|]. intros s s' H. apply (lk_io _ _ H). Qed.
Lemma modify_io f : (∀ s, js_io (f s) = js_io s) → within same_io (modify f).
Proof. intros H. by apply within_modify. Qed.
#[local] Hint Extern 1 (within same_io (modify _)) => apply modify_io; reflexivity : within.
#[local] Hint Extern 1 (within same_io touch) => apply operate_io; reflexivity : within.
#[local] Hint Extern 1 (within same_io (operate _)) => apply operate_io; intros ? ?; unfold same_io, commit_rows, write_slot_bytes;
  repeat case_match; reflexivity : within.
#[local] Hint Extern 1 (within same_io take_io) => (intros ?; reflexivity) : within.

Lemma create_io h genesis uuid : within same_io (create h genesis uuid).
Proof.
  unfold create, _locked, _create_files, _connect, _apply_connection_settings, _configure_for_create, _set_pragma, begin_immediate, insert_row,
    sql_commit, _sync_path, _write_slot, write_through, close, catching. within_auto.
Qed.
Definition same_answers (s s' : RecoveryJournal) : Prop := same_io (rj_store s) (rj_store s').
#[export] Instance same_answers_refl : Reflexive same_answers.
Proof. intros s. unfold same_answers. reflexivity. Qed.
#[export] Instance same_answers_trans : Transitive same_answers.
Proof. intros a b c H1 H2. unfold same_answers in *. by etrans. Qed.
Lemma create_recovery_answers h bounds : within same_answers (create_recovery_journal h bounds).
Proof.
  unfold create_recovery_journal, store_error, _mint_id, _read_clock. within_auto; try (apply within_modify; intros ?; reflexivity).
  intros s. unfold on_store, zoom. pose proof (create_io h j (default "" a) (rj_store s)) as H. by destruct (create _ _ _ _).
Qed.
