(* ===== verification/RecoveryThm.v ===== *)
(** * The recovery journal: what a user of it may rely on *)

From S2P Require Import Prelude PyValue PyJson Sha256 CanonJson PyBytes JsonParse JournalValue JournalSource JournalRecords.
From S2P Require Import JournalClaims JournalSeal JournalStored JournalAccepts JournalSealThm JournalSourceThm JournalState JournalPlan.
From S2P Require Import JournalVerify JournalReplay JournalCopies JournalFrontThm JournalClaimThm JournalReplayThm JournalInv JournalSafe JournalBounds.
From S2P Require Import JournalAnchor JournalAnchorThm JournalStore Hoare JournalStoreThm JournalAppendThm RecoveryJournal RecoveryCommit.
From S2P Require Import RecoveryOps RecoveryOpen RecoveryRestart RecoveryReopen RecoveryCreate RecoveryLive.
Local Open Scope string_scope.
Local Open Scope Z_scope.
Local Open Scope list_scope.

#[local] Opaque sha256_hex sha256_digest _encode_slot _decode_slot verify_commit open_record _analyze_anchor genesis_uuid_conflicts.

(** ** Opening again *)

(** Slots that are settled at the end were settled at the start. *)
Lemma fine_if_settled {A} clean rs (m : handle_st A) s : within handle_evolves m →
  (settled_writes (rj_store s) → ends m s (λ _, fine clean rs) (λ _, fine clean rs)) →
  ends m s (λ _, fine clean rs) (λ _, fine clean rs).
Proof.
  intros Hm H. apply run_ends. intros o s' E.
  assert (settled_writes (rj_store s') → settled_writes (rj_store s)) as Hset.
  { specialize (Hm s). rewrite E in Hm. by apply evolves_settled. }
  destruct o; intros Hs'; apply Hset in Hs' as Hs; pose proof (ends_run _ _ _ _ _ _ (H Hs) E) as Hf; by apply Hf.
Qed.

Lemma reset_fresh s : fresh_store (rj_store (reset s)).
Proof. by split. Qed.

Lemma opening_fine_close {A} clean rs s e (Q : A → RecoveryJournal → Prop) : opening_fine clean rs s →
  ends (modify (set_rj_closed true);; on_store close;; raise e) s Q (λ _, fine clean rs).
Proof.
  intros H. do 3 ends_step. unfold on_store. ends_step.
  assert (fine clean rs (set_rj_closed true s)) as Hf by (apply opening_fine_closed; [done|by apply closed_not_ready]).
  ends_call idle_close; intros ? st' [b Hi]; [ends_step|]; by eapply closed_fine.
Qed.

Lemma open_recovery_ends clean h resume rs s : fine clean rs s → (clean → presentable h = true ∧ no_damage (js_io (rj_store s))) →
  ends (open_recovery_journal h resume) s (λ _, fine clean rs) (λ _, fine clean rs).
Proof.
  intros Hs Hclean. apply fine_if_settled; [apply open_recovery_evolves|]. intros Hset.
  destruct (Hs Hset) as (rs' & p & a & [Hp Hd _] & Hc). unfold open_recovery_journal. ends_step.
  eapply (ends_mono _ _ (λ _ s', s' = s) _ (λ _ s', s' = s)); [destruct resume; by ends_step| |by intros ? ? ->].
  intros [] ? ->. do 4 ends_step. unfold on_store. ends_step.
  assert (durable (rj_store (reset s)) rs' p a) as Hd' by by apply (same_disk_durable (rj_store s)).
  assert (∀ st', same_files (rj_store (reset s)) st' → durable st' rs' p a) as Hsame.
  { intros st' Hst. eapply same_disk_durable; [..|exact Hd'].
    - unfold table. by rewrite (sf_disk _ _ Hst).
    - unfold file_names. by rewrite (sf_disk _ _ Hst). }
  ends_call (open_ends h false (rj_store (reset s)) a (reset_fresh s) (du_file _ _ _ _ Hd')).
  - rewrite (du_table _ _ _ _ Hd'). apply (hi_genesis _ _ _ (du_history _ _ _ _ Hd')).
  - intros [] st' Hop. unfold store_error. do 4 ends_step.
    ends_call (open_verified_ends clean h resume (set_rj_store st' (reset s)) (rj_store (reset s)) rs rs' p a).
    + split; cbn [rj_store set_rj_store rj_hold_detail rj_closed]; try done.
      * apply Hsame. eapply opening_same, Hop.
      * pose proof (od_opening _ _ _ _ Hop) as Ho. destruct (op_anchor _ _ _ Ho) as [Ha|Ha]; [by left|right]. split; [done|].
        by eapply opening_names, (du_file _ _ _ _ Hd').
      * intros Hcl. apply (Hc Hcl).
    + exact Hop.
    + exact Hclean.
    + intros [] s1 H1. by ends_step.
    + intros e s1 H1. by apply opening_fine_close.
  - intros e st' Hst. unfold store_error. do 2 ends_step. apply disk_fine_not_ready; [|intros _ d; done|by apply closed_not_ready].
    intros _. exists rs', p, a. split_and!; [done|by apply Hsame|intros Hcl; apply (Hc Hcl)].
Qed.

(** ** Sequences of calls *)
Inductive call :=
| CallAdmit (source : SourceRecord)
| CallRefusal (summary : value)
| CallRunHold (job_id admission_id : value)
| CallClose
| CallOpen (h : Host) (resume : option ResumeRequest).

Definition perform (c : call) : handle_st unit :=
  match c with
  | CallAdmit source => admit_source source;; mret tt
  | CallRefusal summary => record_refusal summary;; mret tt
  | CallRunHold job a => record_restart_run_hold job a;; mret tt
  | CallClose => close_journal
  | CallOpen h resume => open_recovery_journal h resume
  end.
(** What the calls raise does not stop the one who makes them. *)
Definition calls (cs : list call) (s : RecoveryJournal) : RecoveryJournal := foldl (λ s c, (perform c s).2) s cs.

(** A dict has each key once. *)
Definition call_ok (c : call) : Prop := match c with CallRefusal summary => value_ok summary | _ => True end.
(** The call finds a database that presents itself whole. *)
Definition call_presentable (c : call) : Prop := match c with CallOpen h _ => presentable h = true | _ => True end.

Lemma perform_evolves c : within handle_evolves (perform c).
Proof.
  destruct c; cbn [perform].
  - apply within_bind; [apply _|apply admit_evolves|]. intros _. apply within_ret, _.
  - apply within_bind; [apply _|apply refusal_evolves|]. intros _. apply within_ret, _.
  - apply within_bind; [apply _|apply run_hold_evolves|]. intros _. apply within_ret, _.
  - apply close_journal_evolves.
  - apply open_recovery_evolves.
Qed.
Lemma calls_evolves cs s : handle_evolves s (calls cs s).
Proof.
  revert s. induction cs as [|c cs IH]; intros s; [reflexivity|]. etrans; [apply (perform_evolves c)|apply IH].
Qed.

(** A call that reads the state before anything else. *)
Lemma ready_call_fine {A} clean rs (m : handle_st A) s : within handle_evolves m → guarded m → keeps clean m → fine clean rs s →
  ends m s (λ _, fine clean rs) (λ _, fine clean rs).
Proof.
  intros Hm Hg Hk Hs. destruct (decide (state s = "ready")) as [Hr|Hr].
  - apply fine_if_settled; [done|]. intros Hset. destruct (Hs Hset) as (rs' & p & a & [Hp _ Hin] & _).
    ends_call (Hk s rs' p a (Hin Hr)); intros ? s' Hf; by eapply fine_prefix.
  - ends_call (Hg s Hr); [done|]. by intros ? ? ->.
Qed.

Lemma perform_fine clean rs c s : call_ok c → (clean → call_presentable c ∧ no_damage (js_io (rj_store s))) → fine clean rs s →
  fine clean rs (perform c s).2.
Proof.
  intros Hok Hclean Hs. assert (ends (perform c) s (λ _, fine clean rs) (λ _, fine clean rs)) as H.
  2: { unfold ends in H. destruct (perform c s) as [[]]; exact H. }
  destruct c as [source|summary|job a| |h resume]; cbn [perform].
  - ends_step. eapply ends_mono; [eapply (ready_call_fine clean rs)|intros ? ? Hf; by ends_step|done]; [apply admit_evolves|apply check_ready_guarded| |done].
    intros s' rs' p a Hin. ends_call (admit_ends clean source s' rs' p a Hin); [|done]. intros ? s'' [Ho _]. by eapply onward_fine.
  - ends_step. eapply ends_mono; [eapply (ready_call_fine clean rs)|intros ? ? Hf; by ends_step|done]; [apply refusal_evolves|apply check_ready_guarded| |done].
    intros s' rs' p a Hin. ends_call (record_refusal_ends clean summary s' rs' p a Hok Hin); [|done]. intros ? s'' Ho. by eapply onward_fine.
  - ends_step. eapply ends_mono; [eapply (ready_call_fine clean rs)|intros ? ? Hf; by ends_step|done]; [apply run_hold_evolves|apply check_ready_guarded| |done].
    intros s' rs' p an Hin. ends_call (run_hold_ends clean job a s' rs' p an Hin); [|done]. intros ? s'' Ho. by eapply onward_fine.
  - by apply close_ends.
  - by apply open_recovery_ends.
Qed.

Lemma calls_fine clean rs cs s : Forall call_ok cs → (clean → Forall call_presentable cs ∧ no_damage (js_io (rj_store s))) → fine clean rs s →
  fine clean rs (calls cs s).
Proof.
  revert s. induction cs as [|c cs IH]; intros s Hok Hclean Hs; [done|]. apply Forall_cons in Hok as [Hc Hok]. cbn.
  apply IH; [done| |].
  - intros Hcl. destruct (Hclean Hcl) as [[_ Hp]%Forall_cons Hio]. split; [done|].
    rewrite (se_io _ _ (perform_evolves c s)). exact Hio.
  - apply perform_fine; [done| |done]. intros Hcl. by destruct (Hclean Hcl) as [[Hp _]%Forall_cons Hio].
Qed.

(** A new process: nothing on the disk, no handle. *)
Definition new_process (answers : nat → io) (clock : nat → outcome (pyval * pyval)) (ids : nat → outcome value) : RecoveryJournal :=
  start (mkDisk [] None) answers clock ids.

Lemma created_in_step h bounds s s' : js_disk (rj_store s) = mkDisk [] None → create_recovery_journal h bounds s = (Ret tt, s') →
  state s' = "ready" ∧ ∃ r p a, in_step s' [r] p a.
Proof. intros Hd H. exact (ends_run _ _ _ _ _ _ (create_recovery_ends h bounds s Hd) H). Qed.


(** ** What is promised *)
Section journal.
Context (answers : nat → io) (clock : nat → outcome (pyval * pyval)) (ids : nat → outcome value) (h : Host) (bounds : JournalBounds).
Context (s1 : RecoveryJournal) (Hcreate : create_recovery_journal h bounds (new_process answers clock ids) = (Ret tt, s1)).

Lemma created_io : js_io (rj_store s1) = answers.
Proof.
  pose proof (create_recovery_answers h bounds (new_process answers clock ids)) as H. rewrite Hcreate in H. exact H.
Qed.
Lemma created_fine clean : ∃ r, fine clean [r] s1.
Proof. destruct (created_in_step h bounds (new_process answers clock ids) s1 eq_refl Hcreate) as (_ & r & p & a & Hs). exists r. by eapply in_step_fine. Qed.

(** C3: Whatever breaks, the journal survives.  After any calls on a journal
    that was created, with any faults of the file system and of SQLite, the
    process dying and the journal being opened again any number of times: if no
    interrupted slot was mistaken for another by its checksum, the disk holds
    the rows of a live history, from the rows of the start on, the anchor file
    names its last commit or the one before it, and a handle that shows itself
    ready is in step: its projection, the store's anchor and the disk agree and
    the store can write. *)
Theorem journal_survives_crashes cs : Forall call_ok cs → settled_writes (rj_store (calls cs s1)) →
  let s := calls cs s1 in
  ∃ rs p a, live rs p ∧ table (rj_store s) = map _row_params rs ∧ table (rj_store s1) `prefix_of` table (rj_store s) ∧
    durable (rj_store s) rs p a ∧ (state s = "ready" → in_step s rs p a).
Proof.
  intros Hok Hset s. destruct (created_fine False) as [r Hf].
  destruct (calls_fine False [r] cs s1 Hok ltac:(done) Hf Hset) as (rs & p & a & [Hp Hd Hr] & _).
  exists rs, p, a. split_and!; [apply Hd|apply Hd|apply (se_rows _ _ (calls_evolves cs s1))|done|done].
Qed.

(** C4: An admission that was acknowledged is never lost.  When [admit_source]
    returned a receipt, then after any later calls and faults the history on
    the disk has the record of that admission, and the projection of a handle
    that is ready is the one of that history. *)
Theorem acknowledged_admission_is_kept cs source receipt s2 cs' : Forall call_ok cs → Forall call_ok cs' →
  admit_source source (calls cs s1) = (Ret receipt, s2) → settled_writes (rj_store (calls cs' s2)) →
  let s := calls cs' s2 in
  ∃ rs p, live rs p ∧ table (rj_store s) = map _row_params rs ∧ rec_admission_id receipt ∈ map event_id rs ∧
    (state s = "ready" → rj_projection s = Some p).
Proof.
  intros Hok Hok' Hadmit Hset s. pose proof (calls_evolves cs' s2) as Hev'. pose proof (evolves_settled _ _ Hev' Hset) as Hset2.
  pose proof (admit_evolves source (calls cs s1)) as Hev. rewrite Hadmit in Hev. cbn [snd] in Hev.
  pose proof (evolves_settled _ _ Hev Hset2) as Hset1. destruct (created_fine False) as [r Hf].
  destruct (calls_fine False [r] cs s1 Hok ltac:(done) Hf Hset1) as (rs1 & p1 & a1 & [_ _ Hr1] & _).
  assert (state (calls cs s1) = "ready") as Hready.
  { destruct (decide (state (calls cs s1) = "ready")) as [H|H]; [done|].
    pose proof (check_ready_guarded (λ _, _) (calls cs s1) H : ends (admit_source source) _ _ _) as Hg. unfold ends in Hg. by rewrite Hadmit in Hg. }
  destruct (ends_run _ _ _ _ _ _ (admit_ends False source _ rs1 p1 a1 (Hr1 Hready)) Hadmit) as [Ho Hin].
  pose proof (onward_fine False _ _ _ Ho) as Hf2.
  destruct (calls_fine False rs1 cs' s2 Hok' ltac:(done) Hf2 Hset) as (rs & p & a & [_ Hd Hr] & _).
  exists rs, p. split_and!; [apply Hd|apply Hd| |intros H; apply (Hr H)].
  rewrite <-row_ids. rewrite <-(du_table _ _ _ _ Hd). destruct (se_rows _ _ Hev') as [more Hm]. unfold s. rewrite Hm, map_app.
  apply elem_of_app. by left.
Qed.

(** C5: A healthy journal is never condemned.  As long as no answer of SQLite
    reports a damaged database and every open finds a database that presents
    itself whole, no fault, crash or torn write leads to a recovery hold: the
    anchor carries none, and a handle that is held is held for its process
    only, so that opening again may succeed. *)
Theorem healthy_journal_is_never_condemned cs : Forall call_ok cs → Forall call_presentable cs → no_damage answers →
  settled_writes (rj_store (calls cs s1)) →
  let s := calls cs s1 in
  ∃ a, file_names (rj_store s) a ∧ an_hold a = None ∧ ∀ code scope, hold s = Some (code, scope) → scope = "process".
Proof.
  intros Hok Hp Hio Hset s. destruct (created_fine True) as [r Hf].
  destruct (calls_fine True [r] cs s1 Hok) with (3 := Hset) as (rs & p & a & [_ Hd _] & Hc); [|done|].
  { intros _. split; [done|]. by rewrite created_io. }
  destruct (Hc I) as [Hn Hu]. exists a. split_and!; [apply Hd|done|]. unfold hold. intros code scope Hh.
  destruct (rj_hold_detail s) as [d|] eqn:E; [|done]. injection Hh as Hh. pose proof (Hu d E) as Hs. by rewrite Hh in Hs.
Qed.
End journal.

(** C10: A handle that is closed or held refuses: admissions, refusals and run
    holds raise the error that says which, and nothing at all has changed. *)
Theorem unready_calls_do_nothing c s : match c with CallClose | CallOpen _ _ => False | _ => True end → state s ≠ "ready" →
  perform c s = (Raise (JournalError (if rj_closed s then "journal_closed" else "journal_held")), s).
Proof.
  intros Hc Hs. assert (∀ {A} (k : unit → handle_st A), ((check_ready ≫= k) ≫= λ _, mret tt) s =
    (Raise (JournalError (if rj_closed s then "journal_closed" else "journal_held")), s)) as H.
  { intros A k. unfold check_ready, state in *. unfold mbind, st_bind, gets, require.
    destruct (rj_closed s); cbn; [done|]. by destruct (some_b _). }
  destruct c; try done; cbn [perform]; apply H.
Qed.

(** C7: Where nothing is in the way an admission is acknowledged.  On a ready
    handle in step, with an I/O that works, a clock and an id factory that
    answer, a source that is valid and for which the reducer has room, and ids
    and digests not used before: [admit_source] returns the receipt of the new
    admission, its two records are the next rows, and the handle is ready. *)
Theorem admission_is_acknowledged source valid s rs p a st aid did plan : in_step s rs p a → state s = "ready" → works (rj_store s) →
  validate_source source = Ret valid → inputs s p st aid did → plan_admission p valid aid did st = Ret (inl plan) →
  an_counter a < MAX_SEQ → unused (map _row_params rs) plan →
  ∃ receipt s', admit_source source s = (Ret receipt, s') ∧ rec_admission_id receipt = aid ∧ state s' = "ready" ∧
    table (rj_store s') = table (rj_store s) ++ map _row_params (pl_records plan).
Proof.
  intros Hs Hr Hw Hv Hin Hp Hc Hu. pose proof (admit_returns source valid s rs p a st aid did plan Hs Hr Hw Hv Hin Hp Hc Hu) as H.
  unfold ends in H. destruct (admit_source source s) as [[receipt|] s'] eqn:E; [|done]. cbn [fst snd] in H. destruct H as (Hid & Hr' & p' & a' & Hs').
  exists receipt, s'. split_and!; [done..|]. by rewrite (sat_table _ _ _ _ (is_store _ _ _ _ Hs')), (sat_table _ _ _ _ (is_store _ _ _ _ Hs)), map_app.
Qed.

(** C6: A journal that can be recovered is recovered.  Given a disk that holds
    a history and names it in its anchor, as every crash leaves it
    ([durable]), opening returns if all of this holds: every check of the host
    passes; the I/O works; no recovery hold is on the anchor; the anchor's
    counter has room for two writes below [MAX_SEQ]; the ids and the clock
    answer, with a boot id the journal has not seen and an event id and digest
    it has not used; and the reducer plans the restart record, so there is room
    for it below [total_bytes] ([open_inputs]).  Then the handle is ready, its
    projection is the one of the whole history and of the restart it added, and
    the anchor is caught up.  That the state digest can be computed is proved,
    not assumed. *)
Theorem journal_is_recovered h s rs p a st e : hospitable h → durable (rj_store s) rs p a → an_hold a = None → works (rj_store s) →
  an_counter a + 1 < MAX_SEQ → open_inputs h s rs p st e →
  ∃ s', open_recovery_journal h None s = (Ret tt, s') ∧ recovered h rs p st e s'.
Proof.
  intros Hh Hd Hn Hw Hc Hin. pose proof (open_recovery_returns h s rs p a st e Hh Hd Hn Hw Hc Hin) as H.
  unfold ends in H. destruct (open_recovery_journal h None s) as [[[]|] s'] eqn:E; [|done]. by exists s'.
Qed.

(** ** The anchor *)

(** C9: Every state the anchor may take has a slot that fits, and the slot is
    read back as that state.  For every body a reader takes, the encoding stays
    within its 960 bytes, and decoding the slot gives the body, its keys sorted,
    which names the same state. *)
Theorem anchor_slot_is_read_back c uuid head hold : let body := anchor_body_at c uuid head hold in _slot_kind body = "v1" →
  ∃ slot, _encode_slot body = Ret slot ∧ is_slot slot ∧ _decode_slot (slot +:+ PAD) = Some (sort_members body) ∧
    _anchor_state_from_body (sort_members body) = {| an_journal_uuid := uuid; an_counter := c; an_head := head; an_hold := hold |}.
Proof.
  intros body Hk. destruct (anchor_slot_encodes c uuid head hold Hk) as [slot Hs]. destruct (next_body uuid head hold c) as (Hb & Hm & Hst & _).
  rewrite Hb in Hm, Hst. exists slot. split_and!; [done|by eapply encode_slot_length|by apply encode_slot_body|].
  unfold body. by rewrite (state_sorted _ Hm).
Qed.

(** C8: A torn write of the anchor loses nothing.  The next state goes to the
    slot the current one is not in, and whichever bytes of it land, the file is
    read as the state before the write or the one after it, if the checksum
    does not take a part for a whole. *)
Theorem torn_anchor_write_is_harmless a head hold file slot landed : anchored file a → slot_ok a head hold = true →
  _encode_slot (anchor_body_at (an_counter a + 1) (an_journal_uuid a) head hold) = Ret slot →
  let after := pwrite landed slot (slot_offset (an_counter a + 1)) file in
  slot_settled {| sw_slot := slot; sw_counter := an_counter a + 1; sw_before := file; sw_after := after |} = true →
  _analyze_anchor after = (Some a, None) ∨ _analyze_anchor after = (Some (next_anchor a head hold), None).
Proof.
  intros Hf Hok Hs after Hset. destruct (next_body (an_journal_uuid a) head hold (an_counter a + 1)) as (Hb & Hm & Hst & _).
  rewrite Hb in Hm, Hst. unfold slot_ok in Hok. cbn zeta in Hok. apply andb_true_iff in Hok as [Hok _]. apply andb_true_iff in Hok as [Hh Hok].
  apply andb_true_iff in Hok as [Hk Hle]. apply bool_decide_eq_true in Hk. apply andb_true_iff in Hle as [Hle _]. apply Z.leb_le in Hle.
  destruct (slot_write_settles file a _ (next_anchor a head hold) slot landed Hf Hm) as [H|H]; [by split| |done|exact Hset|left|right].
  - split; [done|done|done|]. cbn [next_anchor an_hold]. intros ->. by destruct (an_hold a).
  - by apply anchored_analyzed.
  - by apply anchored_analyzed.
Qed.

(** ** A journal for the witnesses *)
Definition demo_stat (mode size : Z) : Stat := {| st_mode := mode; st_uid := 1000; st_nlink := 1; st_size := size |}.
Definition demo_host (present : bool) : Host := {|
  h_setconfig := true; h_sqlite_version := (3, 45, 0); h_sync_primitive := true; h_directory := Some "/j"; h_euid := 1000;
  h_dir_stat := Ret (Some (demo_stat 0x41C0 0));
  h_before_lock := λ _, Ret (if present then Some (demo_stat 0x8180 8192) else None);
  h_lock_open := true; h_lock_stat := Ret (demo_stat 0x8180 0); h_flock := None;
  h_stat := λ _, Ret (if present then Some (demo_stat 0x8180 8192) else None);
  h_wal := Some "wal"; h_no_ckpt := true; h_main_is_db := true;
  h_set_pragma := λ name v,
    if bool_decide (name = "locking_mode") then VStr "exclusive"
    else if bool_decide (name = "query_only") then VInt (if bool_decide (v = "ON") then 1 else 0)
    else if bool_decide (name = "journal_mode") then VStr "wal"
    else if bool_decide (name = "page_size") then VInt 4096
    else match find (λ x, bool_decide (x.1.1 = name)) _SETTINGS with Some x => VInt x.2 | None => VNone end;
  h_pragma := λ name, if bool_decide (name = "application_id") then VInt APPLICATION_ID
    else if bool_decide (name = "user_version") then VInt 1 else VStr "wal";
  h_schema_rows := [["t"]]; h_reference_rows := [["t"]]; h_integrity := ["ok"] |}.
Definition demo_clock (n : nat) : outcome (pyval * pyval) :=
  Ret (VInt (1704067200000000000 + Z.of_nat n), VInt (1000000 * Z.of_nat (S n))).
Definition demo_minted (n : nat) : outcome value := Ret (DStr ("00000000-0000-4000-8000-0000000000" +:+ hex_word 2 (Z.of_nat n))).
Definition demo_source : SourceRecord :=
  match source_from_json demo_source_value with
  | Ret source => source
  | Raise _ => {| source_group := ""; alerts := []; truncated_alerts := None; body_digest := "";
                  provenance := {| kind := ""; path := ""; line := None |} |}
  end.
(** The process dies in the [n]th operation, the bytes that [landed] tells on the disk. *)
Definition dies_at (n : nat) (landed : nat → bool) (m : nat) : io := if Nat.eqb m n then Breaks Fatal landed else Works.
Definition demo_created (answers : nat → io) : RecoveryJournal :=
  (create_recovery_journal (demo_host false) demo_bounds (new_process answers demo_clock demo_minted)).2.

(** The process dies in the middle of the anchor write of an admission, and
    opens the journal again. *)
Definition demo_torn : nat → io := dies_at 46 (λ i, Nat.ltb i 100).
Definition demo_calls : list call := [CallAdmit demo_source; CallOpen (demo_host true) None].
(** The process dies while it opens the journal. *)
Definition demo_dying : nat → io := dies_at 60 (λ _, false).

Definition creates (answers : nat → io) : bool :=
  returned (create_recovery_journal (demo_host false) demo_bounds (new_process answers demo_clock demo_minted)).1.
Definition settled_b (s : RecoveryJournal) : bool := forallb slot_settled (js_slots (rj_store s)).

Lemma demo_torn_runs : creates demo_torn &&
  (let s := calls demo_calls (demo_created demo_torn) in settled_b s && bool_decide (state s = "ready")) = true.
Proof. vm_compute. reflexivity. Qed.
Lemma demo_dying_runs : creates demo_dying &&
  (let o := admit_source demo_source (demo_created demo_dying) in
   returned o.1 && settled_b (calls [CallOpen (demo_host true) None] o.2)) = true.
Proof. vm_compute. reflexivity. Qed.

Lemma settled_spec s : settled_b s = true → settled_writes (rj_store s).
Proof. unfold settled_b. rewrite forallb_forall. intros H. apply Forall_forall. intros w Hw. by apply H, list_elem_of_In. Qed.
Lemma creates_spec answers : creates answers = true →
  create_recovery_journal (demo_host false) demo_bounds (new_process answers demo_clock demo_minted) = (Ret tt, demo_created answers).
Proof.
  unfold creates, demo_created. destruct (create_recovery_journal _ _ _) as [[[]|e] s]; [reflexivity|discriminate].
Qed.
Lemma demo_calls_ok : Forall call_ok demo_calls ∧ Forall call_presentable demo_calls.
Proof. split; repeat constructor. Qed.
Lemma dies_undamaged n landed : no_damage (dies_at n landed).
Proof. intros m c nm l. unfold dies_at. destruct (Nat.eqb m n); discriminate. Qed.

#[local] Opaque calls demo_created create_recovery_journal admit_source open_recovery_journal.

Lemma journal_survives_crashes_witness : ∃ rs p a, let s := calls demo_calls (demo_created demo_torn) in
  live rs p ∧ table (rj_store s) = map _row_params rs ∧ durable (rj_store s) rs p a ∧ in_step s rs p a.
Proof.
  pose proof demo_torn_runs as H. cbv zeta in H. apply andb_true_iff in H as [Hc H]. apply andb_true_iff in H as [Hs Hr].
  apply bool_decide_eq_true in Hr.
  destruct (journal_survives_crashes demo_torn demo_clock demo_minted (demo_host false) demo_bounds (demo_created demo_torn)
    (creates_spec _ Hc) demo_calls (proj1 demo_calls_ok) (settled_spec _ Hs)) as (rs & p & a & Hl & Ht & _ & Hd & Hin).
  exists rs, p, a. exact (conj Hl (conj Ht (conj Hd (Hin Hr)))).
Defined.

Lemma acknowledged_admission_is_kept_witness : ∃ receipt s2 rs p, admit_source demo_source (demo_created demo_dying) = (Ret receipt, s2) ∧
  table (rj_store (calls [CallOpen (demo_host true) None] s2)) = map _row_params rs ∧ live rs p ∧
  rec_admission_id receipt ∈ map event_id rs.
Proof.
  pose proof demo_dying_runs as H. cbv zeta in H. apply andb_true_iff in H as [Hc H]. apply andb_true_iff in H as [Ha Hs].
  destruct (admit_source demo_source (demo_created demo_dying)) as [[receipt|] s2] eqn:E; [|discriminate Ha]. cbn [snd] in Hs.
  destruct (acknowledged_admission_is_kept demo_dying demo_clock demo_minted (demo_host false) demo_bounds (demo_created demo_dying)
    (creates_spec _ Hc) [] demo_source receipt s2 [CallOpen (demo_host true) None] (Forall_nil_2 _)
    (Forall_cons_2 call_ok (CallOpen (demo_host true) None) [] I (Forall_nil_2 _)) E (settled_spec _ Hs)) as (rs & p & Hl & Ht & Hin & _).
  exists receipt, s2, rs, p. exact (conj eq_refl (conj Ht (conj Hl Hin))).
Defined.

Lemma healthy_journal_is_never_condemned_witness : ∃ a,
  file_names (rj_store (calls demo_calls (demo_created demo_torn))) a ∧ an_hold a = None.
Proof.
  pose proof demo_torn_runs as H. cbv zeta in H. apply andb_true_iff in H as [Hc H]. apply andb_true_iff in H as [Hs _].
  destruct (healthy_journal_is_never_condemned demo_torn demo_clock demo_minted (demo_host false) demo_bounds (demo_created demo_torn)
    (creates_spec _ Hc) demo_calls (proj1 demo_calls_ok) (proj2 demo_calls_ok) (dies_undamaged _ _) (settled_spec _ Hs)) as (a & Hf & Hn & _).
  exists a. exact (conj Hf Hn).
Defined.

Lemma unready_calls_do_nothing_witness : let s := new_process (λ _, Works) demo_clock demo_minted in
  perform (CallAdmit demo_source) s = (Raise (JournalError "journal_closed"), s).
Proof.
  exact (unready_calls_do_nothing (CallAdmit demo_source) (new_process (λ _, Works) demo_clock demo_minted) I
    (λ H : "closed" = "ready", ltac:(discriminate H))).
Defined.

(** *** Liveness *)
Definition demo_s1 : RecoveryJournal := demo_created (λ _, Works).
Definition demo_id (n : Z) : string := "00000000-0000-4000-8000-0000000000" +:+ hex_word 2 n.
Definition stamp_of_boot (n : Z) : Stamp := {| boot_id := demo_id n; wall_time := "2024-01-01T00:00:00.000000Z"; mono_us := 2000 |}.
Definition unused_b (rows : list Row) (plan : Plan) : bool :=
  bool_decide (NoDup (map rw_event_id rows ++ map event_id (pl_records plan))) &&
  bool_decide (NoDup (map rw_record_digest rows ++ map record_digest (pl_records plan))).
Lemma unused_spec rows plan : unused_b rows plan = true → unused rows plan.
Proof. unfold unused_b, unused. by intros [?%bool_decide_eq_true ?%bool_decide_eq_true]%andb_true_iff. Qed.

(** What the two theorems ask of the projection of the new journal. *)
Definition demo_p_ok (p : Projection) (a : AnchorState) : bool :=
  (an_counter a + 1 <? MAX_SEQ) && running_b p (stamp_of_boot 1) &&
  match plan_admission p demo_source (demo_id 3) (demo_id 4) (stamp_of_boot 1) with
  | Ret (inl plan) => unused_b (table (rj_store demo_s1)) plan
  | _ => false
  end &&
  negb (bool_decide (demo_id 4 ∈ p_seen_boot_ids p)) &&
  forallb (λ lag, match plan_restart p (demo_id 5) (stamp_of_boot 4) lag (wal_seen (demo_host true)) with
    | Ret (inl plan) => unused_b (table (rj_store demo_s1)) plan
    | _ => false
    end) [0; 1].
Record demo_ready : Prop := {
  dr_creates : creates (λ _, Works) = true;
  dr_ok : match rj_projection demo_s1, js_anchor (rj_store demo_s1) with Some p, Some a => demo_p_ok p a | _, _ => false end = true;
  dr_ids : ∀ n : Z, n ∈ [3; 4; 5] → or_none (v ← rj_ids demo_s1 (Z.to_nat n); validate_id v) = Ret (Some (demo_id n));
  dr_minted : rj_minted demo_s1 = 3%nat;
  dr_clock : read_clock (rj_clock demo_s1 (rj_clocks demo_s1)) = Ret (Some ("2024-01-01T00:00:00.000000Z", 2000));
  dr_boot : rj_boot_id demo_s1 = Some (demo_id 1);
}.
#[local] Transparent calls demo_created create_recovery_journal admit_source open_recovery_journal.
Lemma demo_is_ready : demo_ready.
Proof.
  split; [..|intros n Hn|idtac|idtac|idtac]; try (vm_compute; reflexivity).
  rewrite !elem_of_cons in Hn. destruct Hn as [->|[->|[->|Hn]]]; [vm_compute; reflexivity..|by apply elem_of_nil in Hn].
Qed.
Lemma demo_source_valid : validate_source demo_source = Ret demo_source.
Proof. vm_compute. reflexivity. Qed.
#[local] Opaque calls demo_created create_recovery_journal admit_source open_recovery_journal.

(** The new journal in step, with what was computed of its projection. *)
Lemma demo_step : state demo_s1 = "ready" ∧ works (rj_store demo_s1) ∧
  ∃ rs p a, in_step demo_s1 rs p a ∧ demo_p_ok p a = true ∧ table (rj_store demo_s1) = map _row_params rs.
Proof.
  destruct (created_in_step (demo_host false) demo_bounds (new_process (λ _, Works) demo_clock demo_minted) demo_s1 eq_refl
    (creates_spec _ (dr_creates demo_is_ready))) as (Hr & r & p & a & Hs).
  split; [exact Hr|]. split.
  - intros n _. pose proof (created_io _ _ _ _ _ _ (creates_spec _ (dr_creates demo_is_ready))) as Hio. unfold demo_s1. rewrite Hio. reflexivity.
  - exists [r], p, a. split; [exact Hs|]. split; [|exact (sat_table _ _ _ _ (is_store _ _ _ _ Hs))].
    pose proof (dr_ok demo_is_ready) as Hok. rewrite (is_projection _ _ _ _ Hs), (proj1 (sat_anchor _ _ _ _ (is_store _ _ _ _ Hs))) in Hok. exact Hok.
Qed.

Lemma demo_inputs p : running_b p (stamp_of_boot 1) = true → inputs demo_s1 p (stamp_of_boot 1) (demo_id 3) (demo_id 4).
Proof.
  intros Hr. split; [exact (dr_clock demo_is_ready)|exact (dr_boot demo_is_ready)|exact (running_spec _ _ Hr)|..|vm_compute; discriminate];
    rewrite (dr_minted demo_is_ready); [apply (dr_ids demo_is_ready 3)|apply (dr_ids demo_is_ready 4)]; repeat constructor.
Qed.

Lemma admission_is_acknowledged_witness : ∃ receipt s', admit_source demo_source demo_s1 = (Ret receipt, s') ∧
  rec_admission_id receipt = demo_id 3 ∧ state s' = "ready".
Proof.
  destruct demo_step as (Hr & Hw & rs & p & a & Hs & Hok & Ht). unfold demo_p_ok in Hok.
  apply andb_true_iff in Hok as [Hok _]. apply andb_true_iff in Hok as [Hok _].
  apply andb_true_iff in Hok as [Hok Hplan]. apply andb_true_iff in Hok as [Hc Hrun]. apply Z.ltb_lt in Hc.
  destruct (plan_admission p demo_source (demo_id 3) (demo_id 4) (stamp_of_boot 1)) as [[plan|]|] eqn:E; [|discriminate Hplan..].
  apply unused_spec in Hplan. rewrite Ht in Hplan.
  destruct (admission_is_acknowledged demo_source demo_source demo_s1 rs p a (stamp_of_boot 1) (demo_id 3) (demo_id 4) plan
    Hs Hr Hw demo_source_valid (demo_inputs p Hrun) E ltac:(lia) Hplan) as (receipt & s' & He & Hid & Hr' & _).
  exists receipt, s'. exact (conj He (conj Hid Hr')).
Defined.

Lemma demo_hospitable : hospitable (demo_host true).
Proof.
  split; try reflexivity.
  - exists "/j". split; reflexivity.
  - repeat constructor.
Qed.

Lemma demo_open_inputs rs p a : demo_p_ok p a = true → table (rj_store demo_s1) = map _row_params rs →
  open_inputs (demo_host true) demo_s1 rs p (stamp_of_boot 4) (demo_id 5).
Proof.
  intros Hok Ht. unfold demo_p_ok in Hok. apply andb_true_iff in Hok as [Hok Hplans]. apply andb_true_iff in Hok as [Hok Hnew].
  apply negb_true_iff, bool_decide_eq_false in Hnew.
  split; [|..|exact Hnew|]; rewrite ?(dr_minted demo_is_ready).
  - exists (demo_id 3). apply (dr_ids demo_is_ready 3); repeat constructor.
  - apply (dr_ids demo_is_ready 4); repeat constructor.
  - exact (dr_clock demo_is_ready).
  - apply (dr_ids demo_is_ready 5); repeat constructor.
  - intros lag Hlag. rewrite forallb_forall in Hplans. specialize (Hplans lag ltac:(destruct Hlag as [->| ->]; cbn; auto)).
    destruct (plan_restart p (demo_id 5) (stamp_of_boot 4) lag (wal_seen (demo_host true))) as [[plan|]|]; [|discriminate Hplans..].
    exists plan. split; [reflexivity|]. rewrite <-Ht. by apply unused_spec.
Qed.

Lemma journal_is_recovered_witness : ∃ s', open_recovery_journal (demo_host true) None demo_s1 = (Ret tt, s') ∧ state s' = "ready".
Proof.
  destruct demo_step as (_ & Hw & rs & p & a & Hs & Hok & Ht). pose proof Hok as Hc. unfold demo_p_ok in Hc.
  do 4 apply andb_true_iff in Hc as [Hc _]. apply Z.ltb_lt in Hc.
  destruct (journal_is_recovered (demo_host true) demo_s1 rs p a (stamp_of_boot 4) (demo_id 5) demo_hospitable
    (store_at_durable _ _ _ _ (is_store _ _ _ _ Hs)) (store_at_hold _ _ _ _ (is_store _ _ _ _ Hs)) Hw Hc (demo_open_inputs rs p a Hok Ht))
    as (s' & He & Hr & _).
  exists s'. exact (conj He Hr).
Defined.

(** *** The anchor *)
Definition demo_head : Head := {| hd_generation := 1; hd_commit_seq := 1; hd_event_seq := 1; hd_record_digest := hex_of "a" |}.
Definition demo_next : Head := {| hd_generation := 1; hd_commit_seq := 2; hd_event_seq := 3; hd_record_digest := hex_of "b" |}.
Definition demo_hold : AnchorHold :=
  {| ah_code := "journal_corrupt"; ah_boot_id := "boot-1"; ah_observed_commit_seq := Some 7 |}.

Lemma anchor_slot_is_read_back_witness : _slot_kind (anchor_body_at 5 (demo_id 0) demo_head (Some demo_hold)) = "v1" ∧
  ∃ slot, _encode_slot (anchor_body_at 5 (demo_id 0) demo_head (Some demo_hold)) = Ret slot ∧ is_slot slot.
Proof.
  assert (_slot_kind (anchor_body_at 5 (demo_id 0) demo_head (Some demo_hold)) = "v1") as Hk by (vm_compute; reflexivity).
  split; [exact Hk|]. destruct (anchor_slot_is_read_back 5 (demo_id 0) demo_head (Some demo_hold) Hk) as (slot & Hs & Hl & _).
  exists slot. exact (conj Hs Hl).
Defined.

(** The second anchor of a journal, of which 600 bytes land. *)
Definition demo_file : string := match _encode_slot (anchor_body_at 1 (demo_id 0) demo_head None) with
  | Ret slot => pwrite (λ _, true) slot (slot_offset 1) (layout ZERO_SLOT ZERO_SLOT) | Raise _ => "" end.
Definition demo_slot : string := match _encode_slot (anchor_body_at 2 (demo_id 0) demo_next None) with Ret slot => slot | Raise _ => "" end.
Definition demo_part (i : nat) : bool := Nat.ltb i 600.
Lemma demo_slot_facts : slot_ok (first_anchor (demo_id 0) demo_head) demo_next None &&
  slot_settled {| sw_slot := demo_slot; sw_counter := 2; sw_before := demo_file; sw_after := pwrite demo_part demo_slot (slot_offset 2) demo_file |} &&
  returned (_encode_slot (anchor_body_at 1 (demo_id 0) demo_head None)) && returned (_encode_slot (anchor_body_at 2 (demo_id 0) demo_next None)) = true.
Proof. vm_compute. reflexivity. Qed.
Lemma demo_file_anchored : anchored demo_file (first_anchor (demo_id 0) demo_head).
Proof.
  destruct (next_body (demo_id 0) demo_head None 1) as (Hb & Hm & Hst & _). rewrite Hb in Hm, Hst.
  pose proof demo_slot_facts as H. apply andb_true_iff in H as [H _]. apply andb_true_iff in H as [_ H]. unfold demo_file.
  destruct (_encode_slot (anchor_body_at 1 (demo_id 0) demo_head None)) as [slot|] eqn:E; [|discriminate H].
  apply (first_slot _ slot _ Hm); [|reflexivity|exact E]. split; [vm_compute; reflexivity|exact Hst].
Qed.

Lemma torn_anchor_write_is_harmless_witness : let after := pwrite demo_part demo_slot (slot_offset 2) demo_file in
  _analyze_anchor after = (Some (first_anchor (demo_id 0) demo_head), None) ∨
  _analyze_anchor after = (Some (next_anchor (first_anchor (demo_id 0) demo_head) demo_next None), None).
Proof.
  pose proof demo_slot_facts as H. apply andb_true_iff in H as [H H2]. apply andb_true_iff in H as [H _]. apply andb_true_iff in H as [Hok Hs].
  assert (_encode_slot (anchor_body_at 2 (demo_id 0) demo_next None) = Ret demo_slot) as E.
  { unfold demo_slot. destruct (_encode_slot (anchor_body_at 2 (demo_id 0) demo_next None)); [reflexivity|discriminate H2]. }
  exact (torn_anchor_write_is_harmless (first_anchor (demo_id 0) demo_head) demo_next None demo_file demo_slot demo_part
    demo_file_anchored Hok E Hs).
Defined.
