(* ===== verification/JournalReports.v ===== *)
(** * What is reported of a recovery journal (journal_reducer.py, recovery_journal.py)

    The digests of the claim families, the snapshot and the status of a handle,
    and the two verify-only inspections.  A report is the [value] the code
    returns.  Of the observer that [inspect_recovery_journal] passes to
    [_replay_finding] only the commits it was given matter: [sc_groups].  At
    the end what the inspections promise. *)

From S2P Require Import Prelude PyValue PyJson Sha256 CanonJson PyBytes JsonParse JsonRoundtrip JournalValue JournalSource JournalRecords.
From S2P Require Import JournalClaims JournalSeal JournalState JournalPlan JournalVerify JournalEffects JournalReplay.
From S2P Require Import JournalAnchor JournalAnchorThm JournalStore Hoare JournalStoreThm JournalAppendThm RecoveryJournal RecoveryOps RecoveryThm.
From S2P Require RunOutcome JournalReplayThm.
Local Open Scope string_scope.
Local Open Scope Z_scope.
Local Open Scope list_scope.

(** ** [dataclasses.asdict] of the claims *)
Definition asdict_reservation_intent (c : ReservationIntentClaim) : members :=
  [("journal_uuid", DStr (ri_journal_uuid c)); ("journal_generation", DInt (ri_journal_generation c));
   ("admission_id", DStr (ri_admission_id c)); ("job_id", DStr (ri_job_id c)); ("intent_id", DStr (ri_intent_id c));
   ("attempt_id", DStr (ri_attempt_id c)); ("reservation_id", DStr (ri_reservation_id c)); ("run_id", DStr (ri_run_id c));
   ("lease_id", DStr (ri_lease_id c)); ("intent_digest", DStr (ri_intent_digest c));
   ("based_on_commit_seq", DInt (ri_based_on_commit_seq c)); ("committed_at_seq", DInt (ri_committed_at_seq c))].
Definition asdict_initial_intent (c : InitialReservationIntentClaim) : members :=
  asdict_reservation_intent (ii_claim c) ++
  [("member_count", DInt (ii_member_count c)); ("member_digest", DStr (ii_member_digest c))].
Definition asdict_confirmation (c : ReservationConfirmationClaim) : members :=
  [("intent_id", DStr (rc_intent_id c)); ("confirmation_event_id", DStr (rc_confirmation_event_id c));
   ("intent_digest", DStr (rc_intent_digest c)); ("ledger_uuid", DStr (rc_ledger_uuid c));
   ("ledger_generation", DInt (rc_ledger_generation c)); ("ledger_event_id", DStr (rc_ledger_event_id c));
   ("sequence", DInt (rc_sequence c)); ("event_digest", DStr (rc_event_digest c));
   ("committed_at_seq", DInt (rc_committed_at_seq c))].
Definition asdict_run_intent (c : RunIntentClaim) : members :=
  [("run_intent_id", DStr (rn_run_intent_id c)); ("journal_uuid", DStr (rn_journal_uuid c));
   ("journal_generation", DInt (rn_journal_generation c)); ("admission_id", DStr (rn_admission_id c));
   ("job_id", DStr (rn_job_id c)); ("intent_id", DStr (rn_intent_id c)); ("attempt_id", DStr (rn_attempt_id c));
   ("reservation_id", DStr (rn_reservation_id c)); ("run_id", DStr (rn_run_id c));
   ("model_lease_id", DStr (rn_model_lease_id c)); ("initial_intent_digest", DStr (rn_initial_intent_digest c));
   ("confirmation_event_id", DStr (rn_confirmation_event_id c)); ("ledger_uuid", DStr (rn_ledger_uuid c));
   ("ledger_generation", DInt (rn_ledger_generation c)); ("ledger_event_id", DStr (rn_ledger_event_id c));
   ("ledger_sequence", DInt (rn_ledger_sequence c)); ("ledger_event_digest", DStr (rn_ledger_event_digest c));
   ("ledger_head_sequence", DInt (rn_ledger_head_sequence c)); ("ledger_head_digest", DStr (rn_ledger_head_digest c));
   ("member_count", DInt (rn_member_count c)); ("member_digest", DStr (rn_member_digest c));
   ("services", DTuple (map (λ s, DTuple [DStr (sr_service s); DStr (sr_lease_claim_id s); DStr (sr_scope_digest s)]) (rn_services c)));
   ("run_intent_digest", DStr (rn_run_intent_digest c)); ("committed_at_seq", DInt (rn_committed_at_seq c))].
Definition asdict_launch_claim (c : LaunchClaim) : members :=
  [("launch_claim_id", DStr (lc_launch_claim_id c)); ("run_intent_id", DStr (lc_run_intent_id c));
   ("run_intent_digest", DStr (lc_run_intent_digest c)); ("journal_uuid", DStr (lc_journal_uuid c));
   ("admission_id", DStr (lc_admission_id c)); ("job_id", DStr (lc_job_id c)); ("intent_id", DStr (lc_intent_id c));
   ("attempt_id", DStr (lc_attempt_id c)); ("reservation_id", DStr (lc_reservation_id c)); ("run_id", DStr (lc_run_id c));
   ("model_lease_id", DStr (lc_model_lease_id c)); ("receiver_boot_id", DStr (lc_receiver_boot_id c));
   ("forwarder_generation", DStr (lc_forwarder_generation c)); ("barrier_token_digest", DStr (lc_barrier_token_digest c));
   ("origin_us", DInt (lc_origin_us c)); ("work_deadline_us", DInt (lc_work_deadline_us c));
   ("flush_deadline_us", DInt (lc_flush_deadline_us c)); ("hard_deadline_us", DInt (lc_hard_deadline_us c));
   ("grants", DTuple (map (λ g, DTuple [DStr (sr_service (gr_row g)); DStr (sr_lease_claim_id (gr_row g));
      DStr (sr_scope_digest (gr_row g)); DStr (gr_grant_id g); DInt (gr_expiry_us g)]) (lc_grants c)));
   ("launch_claim_digest", DStr (lc_launch_claim_digest c)); ("committed_at_seq", DInt (lc_committed_at_seq c))].
Definition asdict_spawn_attestation (c : SpawnAttestationClaim) : members :=
  [("event_id", DStr (sa_event_id c)); ("claim_digest", DStr (sa_claim_digest c));
   ("launch_claim_id", DStr (sa_launch_claim_id c)); ("run_id", DStr (sa_run_id c)); ("attempt_id", DStr (sa_attempt_id c));
   ("receiver_boot_id", DStr (sa_receiver_boot_id c)); ("observed_us", DInt (sa_observed_us c));
   ("witness_locator", DStr (sa_witness_locator c)); ("witness_identity_digest", DStr (sa_witness_identity_digest c));
   ("committed_at_seq", DInt (sa_committed_at_seq c))].
Definition asdict_release_intent (c : ReleaseIntentClaim) : members :=
  [("event_id", DStr (rl_event_id c)); ("claim_digest", DStr (rl_claim_digest c));
   ("spawn_attestation_id", DStr (rl_spawn_attestation_id c)); ("receiver_boot_id", DStr (rl_receiver_boot_id c));
   ("intended_release_us", DInt (rl_intended_release_us c));
   ("activated_grants", DTuple (map (λ a, DTuple [DStr (ac_service a); DStr (ac_grant_id a); DStr (ac_digest a); DInt (ac_us a)])
      (rl_activated_grants c)));
   ("committed_at_seq", DInt (rl_committed_at_seq c))].
Definition asdict_release_observation (c : ReleaseObservationClaim) : members :=
  [("event_id", DStr (ro_event_id c)); ("claim_digest", DStr (ro_claim_digest c));
   ("release_intent_id", DStr (ro_release_intent_id c)); ("receiver_boot_id", DStr (ro_receiver_boot_id c));
   ("observed_us", DInt (ro_observed_us c)); ("committed_at_seq", DInt (ro_committed_at_seq c))].
Definition asdict_effect_intent (c : EffectIntentClaim) : members :=
  [("event_id", DStr (ei_event_id c)); ("claim_digest", DStr (ei_claim_digest c)); ("operation_id", DStr (ei_operation_id c));
   ("run_id", DStr (ei_run_id c)); ("attempt_id", DStr (ei_attempt_id c)); ("receiver_boot_id", DStr (ei_receiver_boot_id c));
   ("forwarder_generation", DStr (ei_forwarder_generation c)); ("service", DStr (ei_service c));
   ("route_id", DStr (ei_route_id c)); ("grant_id", DStr (ei_grant_id c)); ("scope_digest", DStr (ei_scope_digest c));
   ("flight_id", DStr (ei_flight_id c)); ("forwarder_receipt_id", DStr (ei_forwarder_receipt_id c));
   ("request_digest", DStr (ei_request_digest c)); ("target_digest", DStr (ei_target_digest c));
   ("observed_us", DInt (ei_observed_us c)); ("expires_us", DInt (ei_expires_us c));
   ("committed_at_seq", DInt (ei_committed_at_seq c))].
Definition asdict_effect_receipt (c : EffectReceiptClaim) : members :=
  [("event_id", DStr (er_event_id c)); ("claim_digest", DStr (er_claim_digest c)); ("operation_id", DStr (er_operation_id c));
   ("intent_event_id", DStr (er_intent_event_id c)); ("receiver_boot_id", DStr (er_receiver_boot_id c));
   ("claimed_dispatch_state", DStr (er_claimed_dispatch_state c)); ("claimed_reason", DStr (er_claimed_reason c));
   ("finalized_receipt_digest", DStr (er_finalized_receipt_digest c)); ("observed_us", DInt (er_observed_us c));
   ("committed_at_seq", DInt (er_committed_at_seq c))].
Definition asdict_action_intent (c : SupervisionActionIntentClaim) : members :=
  [("event_id", DStr (si_event_id c)); ("claim_digest", DStr (si_claim_digest c)); ("action_id", DStr (si_action_id c));
   ("action_kind", DStr (si_action_kind c)); ("phase", DStr (si_phase c)); ("phase_event_id", DStr (si_phase_event_id c));
   ("service", of_option DStr (si_service c)); ("grant_id", of_option DStr (si_grant_id c));
   ("observed_us", DInt (si_observed_us c)); ("committed_at_seq", DInt (si_committed_at_seq c))].
Definition asdict_action_result (c : SupervisionActionResultClaim) : members :=
  [("event_id", DStr (so_event_id c)); ("claim_digest", DStr (so_claim_digest c)); ("action_id", DStr (so_action_id c));
   ("intent_event_id", DStr (so_intent_event_id c)); ("claimed_outcome", DStr (so_claimed_outcome c));
   ("observed_us", DInt (so_observed_us c)); ("committed_at_seq", DInt (so_committed_at_seq c))].
Definition asdict_process_observation (c : ProcessObservationClaim) : members :=
  [("event_id", DStr (po_event_id c)); ("claim_digest", DStr (po_claim_digest c));
   ("launch_claim_id", DStr (po_launch_claim_id c)); ("receiver_boot_id", DStr (po_receiver_boot_id c));
   ("facts", DDict (facts_json (po_facts c))); ("source_digest", DStr (po_source_digest c));
   ("observed_us", DInt (po_observed_us c)); ("committed_at_seq", DInt (po_committed_at_seq c))].
Definition asdict_terminal_observation (c : TerminalObservationClaim) : members :=
  [("event_id", DStr (to_event_id c)); ("claim_digest", DStr (to_claim_digest c));
   ("process_event_id", DStr (to_process_event_id c)); ("receiver_boot_id", DStr (to_receiver_boot_id c));
   ("count_class", DStr (to_count_class c)); ("quality", to_quality c); ("invalidity_code", to_invalidity_code c);
   ("subtype", to_subtype c); ("is_error", to_is_error c); ("reason_code", to_reason_code c);
   ("usage_state", to_usage_state c); ("source_digest", to_source_digest c); ("observed_us", DInt (to_observed_us c));
   ("committed_at_seq", DInt (to_committed_at_seq c))].
Definition asdict_execution_assessment (c : ExecutionAssessmentClaim) : members :=
  let a := ea_assessment c in
  [("event_id", DStr (ea_event_id c)); ("claim_digest", DStr (ea_claim_digest c));
   ("process_event_id", DStr (ea_process_event_id c)); ("terminal_event_id", DStr (ea_terminal_event_id c));
   ("receiver_boot_id", DStr (ea_receiver_boot_id c));
   ("assessment", DDict [("state", DStr (RunOutcome.ea_state a)); ("reasons", DTuple (map DStr (RunOutcome.ea_reasons a)));
      ("usage", DStr (RunOutcome.ea_usage a)); ("never_started", DBool (RunOutcome.ea_never_started a))]);
   ("observed_us", DInt (ea_observed_us c)); ("committed_at_seq", DInt (ea_committed_at_seq c))].
Definition asdict_reconciliation (c : ReconciliationObservationClaim) : members :=
  [("event_id", DStr (rb_event_id c)); ("claim_digest", DStr (rb_claim_digest c)); ("operation_id", DStr (rb_operation_id c));
   ("intent_event_id", DStr (rb_intent_event_id c)); ("receiver_boot_id", DStr (rb_receiver_boot_id c));
   ("observation_index", DInt (rb_observation_index c)); ("source_kind", DStr (rb_source_kind c));
   ("reported_state", DStr (rb_reported_state c)); ("source_evidence_digest", DStr (rb_source_evidence_digest c));
   ("target_digest", DStr (rb_target_digest c)); ("version_digest", of_option DStr (rb_version_digest c));
   ("observed_us", DInt (rb_observed_us c)); ("committed_at_seq", DInt (rb_committed_at_seq c))].
Definition asdict_restart_reconciliation (c : RestartReconciliationClaim) : members :=
  asdict_reconciliation (rr_claim c) ++
  [("prior_effect_boot_id", DStr (rr_prior_effect_boot_id c)); ("restart_commit_seq", DInt (rr_restart_commit_seq c));
   ("restart_record_digest", DStr (rr_restart_record_digest c))].

(** ** Digests of claim families *)
Definition RUN_HOLDS_STATE_TAG : string := "rj.run-holds.v2".
Definition RESERVATION_CLAIMS_TAG : string := "rj.reservation-claims.v2".
Definition INITIAL_INTENTS_STATE_TAG : string := "rj.initial-intents.v3".
Definition INITIAL_CONFIRMATIONS_STATE_TAG : string := "rj.initial-confirmations.v3".
Definition RUN_INTENT_STATE_TAG : string := "rj.run-intent-state.v3".
Definition LAUNCH_CLAIM_STATE_TAG : string := "rj.launch-claim-state.v3".
Definition SPAWN_ATTESTATION_STATE_TAG : string := "rj.spawn-attestation-state.v3".
Definition RELEASE_INTENT_STATE_TAG : string := "rj.release-intent-state.v3".
Definition RELEASE_OBSERVATION_STATE_TAG : string := "rj.release-observation-state.v3".
Definition EFFECT_INTENTS_STATE_TAG : string := "rj.effect-intents-state.v3".
Definition EFFECT_RECEIPTS_STATE_TAG : string := "rj.effect-receipts-state.v3".
Definition SUPERVISION_ACTION_INTENTS_STATE_TAG : string := "rj.supervision-action-intents-state.v3".
Definition SUPERVISION_ACTION_RESULTS_STATE_TAG : string := "rj.supervision-action-results-state.v3".
Definition PROCESS_OBSERVATION_STATE_TAG : string := "rj.process-observation-state.v3".
Definition TERMINAL_OBSERVATION_STATE_TAG : string := "rj.terminal-observation-state.v3".
Definition EXECUTION_ASSESSMENT_STATE_TAG : string := "rj.execution-assessment-state.v3".
Definition RECONCILIATION_OBSERVATIONS_STATE_TAG : string := "rj.reconciliation-observations-state.v3".
Definition RESTART_RECONCILIATION_STATE_TAG : string := "rj.restart-reconciliation-state.v3".

(** [sorted(m.items())]: the keys differ, so they alone decide. *)
Definition sorted_items {A} (m : gmap string A) : list (string * A) := sort_keys (map_to_list m).
(** [[asdict(claim) for _, claim in sorted(m.items())]] *)
Definition claims_json {A} (asdict : A → members) (m : gmap string A) : value :=
  DList (map (λ kc, DDict (asdict kc.2)) (sorted_items m)).
Definition claim_json {A} (asdict : A → members) (c : option A) : value := of_option (λ c, DDict (asdict c)) c.
Definition state_tagged (tag : string) (v : value) : outcome string := tagged_digest tag (to_json v).

Definition run_hold_item (kh : string * RunHold) : value :=
  DList [DStr kh.1; DStr (rh_admission_id kh.2); DStr (rh_reason kh.2); DInt (rh_since_commit_seq kh.2);
         DStr (rh_member_digest kh.2)].
Definition run_holds_digest (p : Projection) : outcome string :=
  state_tagged RUN_HOLDS_STATE_TAG (DList (map run_hold_item (sorted_items (c_run_holds (p_claims p))))).
Definition reservation_claims_digest (p : Projection) : outcome string :=
  state_tagged RESERVATION_CLAIMS_TAG (DDict
    [("intents", claims_json asdict_reservation_intent (c_intents (p_claims p)));
     ("confirmations", claims_json asdict_confirmation (c_confirmations (p_claims p)))]).
Definition initial_intents_digest (p : Projection) : outcome string :=
  state_tagged INITIAL_INTENTS_STATE_TAG (claims_json asdict_initial_intent (c_initial_intents (p_claims p))).
Definition initial_confirmations_digest (p : Projection) : outcome string :=
  state_tagged INITIAL_CONFIRMATIONS_STATE_TAG (claims_json asdict_confirmation (c_initial_confirmations (p_claims p))).
Definition run_intent_claim_digest (p : Projection) : outcome string :=
  state_tagged RUN_INTENT_STATE_TAG (claim_json asdict_run_intent (c_run_intent (p_claims p))).
Definition launch_claim_digest (p : Projection) : outcome string :=
  state_tagged LAUNCH_CLAIM_STATE_TAG (claim_json asdict_launch_claim (c_launch_claim (p_claims p))).
Definition spawn_attestation_claim_digest (p : Projection) : outcome string :=
  state_tagged SPAWN_ATTESTATION_STATE_TAG (claim_json asdict_spawn_attestation (c_spawn_attestation (p_claims p))).
Definition release_intent_claim_digest (p : Projection) : outcome string :=
  state_tagged RELEASE_INTENT_STATE_TAG (claim_json asdict_release_intent (c_release_intent (p_claims p))).
Definition release_observation_claim_digest (p : Projection) : outcome string :=
  state_tagged RELEASE_OBSERVATION_STATE_TAG (claim_json asdict_release_observation (c_release_observation (p_claims p))).
Definition effect_intents_claim_digest (p : Projection) : outcome string :=
  state_tagged EFFECT_INTENTS_STATE_TAG (claims_json asdict_effect_intent (c_effect_intents (p_claims p))).
Definition effect_receipts_claim_digest (p : Projection) : outcome string :=
  state_tagged EFFECT_RECEIPTS_STATE_TAG (claims_json asdict_effect_receipt (c_effect_receipts (p_claims p))).
Definition supervision_action_intents_claim_digest (p : Projection) : outcome string :=
  state_tagged SUPERVISION_ACTION_INTENTS_STATE_TAG
    (claims_json asdict_action_intent (c_supervision_action_intents (p_claims p))).
Definition supervision_action_results_claim_digest (p : Projection) : outcome string :=
  state_tagged SUPERVISION_ACTION_RESULTS_STATE_TAG
    (claims_json asdict_action_result (c_supervision_action_results (p_claims p))).
Definition process_observation_claim_digest (p : Projection) : outcome string :=
  state_tagged PROCESS_OBSERVATION_STATE_TAG (claim_json asdict_process_observation (c_process_observation (p_claims p))).
Definition terminal_observation_claim_digest (p : Projection) : outcome string :=
  state_tagged TERMINAL_OBSERVATION_STATE_TAG (claim_json asdict_terminal_observation (c_terminal_observation (p_claims p))).
Definition execution_assessment_claim_digest (p : Projection) : outcome string :=
  state_tagged EXECUTION_ASSESSMENT_STATE_TAG (claim_json asdict_execution_assessment (c_execution_assessment (p_claims p))).

(** [for _, observations in sorted(m.items()) for claim in observations] *)
Definition observations_json {A} (asdict : A → members) (m : gmap string (list A)) : value :=
  DList (concat (map (λ kc, map (λ c, DDict (asdict c)) kc.2) (sorted_items m))).
Definition reconciliation_observations_claim_digest (p : Projection) : outcome string :=
  state_tagged RECONCILIATION_OBSERVATIONS_STATE_TAG
    (observations_json asdict_reconciliation (c_reconciliation_observations (p_claims p))).
Definition restart_reconciliations_claim_digest (p : Projection) : outcome string :=
  state_tagged RESTART_RECONCILIATION_STATE_TAG
    (observations_json asdict_restart_reconciliation (c_restart_reconciliations (p_claims p))).

(** ** Summaries of claims *)
Definition len {A} (m : gmap string A) : value := DInt (Z.of_nat (size m)).
Definition len_minus {A B} (m : gmap string A) (n : gmap string B) : value := DInt (Z.of_nat (size m) - Z.of_nat (size n)).
Definition count_digest (digest state : string) : value :=
  DDict [("count", DInt 1); ("digest", DStr digest); ("state", DStr state)].
Definition UNQUALIFIED_LAUNCH : string := "outstanding_unqualified_launch_claim".

Definition _spawn_release_claim_summary (p : Projection) : outcome value :=
  let c := p_claims p in
  let summary phase digest := d ← digest;
    Ret (DDict [("claimed_phase", DStr phase); ("digest", DStr d); ("state", DStr UNQUALIFIED_LAUNCH)]) in
  if negb (some_b (c_launch_claim c)) then Ret DNone
  else if some_b (c_release_observation c) then summary "release_observed" (release_observation_claim_digest p)
  else if some_b (c_release_intent c) then summary "release_intended" (release_intent_claim_digest p)
  else if some_b (c_spawn_attestation c) then summary "attested" (spawn_attestation_claim_digest p)
  else summary "launch_claimed" (launch_claim_digest p).

Definition _effect_claim_summary (p : Projection) : outcome value :=
  let intents := c_effect_intents (p_claims p) in
  let receipts := c_effect_receipts (p_claims p) in
  if negb (filled intents) && negb (filled receipts) then Ret DNone else
  di ← effect_intents_claim_digest p;
  dr ← effect_receipts_claim_digest p;
  Ret (DDict [("intents", len intents); ("receipts", len receipts); ("unmatched_intents", len_minus intents receipts);
              ("intents_digest", DStr di); ("receipts_digest", DStr dr); ("state", DStr "effects_unqualified")]).

Definition _supervision_action_summary (p : Projection) : outcome value :=
  let intents := c_supervision_action_intents (p_claims p) in
  let results := c_supervision_action_results (p_claims p) in
  if negb (filled intents) && negb (filled results) then Ret DNone else
  di ← supervision_action_intents_claim_digest p;
  dr ← supervision_action_results_claim_digest p;
  Ret (DDict [("intents", len intents); ("results", len results); ("unmatched_intents", len_minus intents results);
              ("intents_digest", DStr di); ("results_digest", DStr dr); ("state", DStr "supervision_actions_unqualified");
              ("trigger_and_due_time", DStr "unqualified")]).

Definition _execution_claim_summary (p : Projection) : outcome value :=
  let c := p_claims p in
  match c_process_observation c with
  | None => Ret DNone
  | Some _ =>
      dp ← process_observation_claim_digest p;
      terminal ← match c_terminal_observation c with
        | None => Ret DNone
        | Some t =>
            d ← terminal_observation_claim_digest p;
            Ret (DDict [("count", DInt 1); ("digest", DStr d); ("count_class", DStr (to_count_class t));
                        ("quality", to_quality t); ("reason_code", to_reason_code t)])
        end;
      assessment ← match c_execution_assessment c with
        | None => Ret DNone
        | Some a =>
            d ← execution_assessment_claim_digest p;
            Ret (DDict [("count", DInt 1); ("digest", DStr d); ("derived_state", DStr (RunOutcome.ea_state (ea_assessment a)))])
        end;
      Ret (DDict [("state", DStr "execution_unqualified"); ("process", DDict [("count", DInt 1); ("digest", DStr dp)]);
                  ("terminal", terminal); ("assessment", assessment)])
  end.

(** [sum(len(claims) for claims in observations.values())] *)
Definition total {A} (m : gmap string (list A)) : value :=
  DInt (foldr (λ l n, Z.of_nat (length l) + n) 0 (values_of m)).
Definition _reconciliation_claim_summary (p : Projection) : outcome value :=
  let observations := c_reconciliation_observations (p_claims p) in
  if negb (filled observations) then Ret DNone else
  d ← reconciliation_observations_claim_digest p;
  Ret (DDict [("state", DStr "reconciliation_unqualified"); ("count", total observations); ("digest", DStr d);
    ("operations", DList (map (λ kc, DDict [("operation_id", DStr kc.1);
       ("reported_states", DList (map (λ c, DStr (rb_reported_state c)) kc.2))]) (sorted_items observations)))]).

Definition restart_report (c : RestartReconciliationClaim) : value :=
  DDict [("receiver_boot_id", DStr (rb_receiver_boot_id (rr_claim c)));
         ("prior_effect_boot_id", DStr (rr_prior_effect_boot_id c)); ("restart_commit_seq", DInt (rr_restart_commit_seq c));
         ("reported_state", DStr (rb_reported_state (rr_claim c)))].
Definition _restart_reconciliation_summary (p : Projection) : outcome value :=
  let observations := c_restart_reconciliations (p_claims p) in
  if negb (filled observations) then Ret DNone else
  d ← restart_reconciliations_claim_digest p;
  Ret (DDict [("state", DStr "reconciliation_unqualified"); ("count", total observations); ("digest", DStr d);
    ("operations", DList (map (λ kc, DDict [("operation_id", DStr kc.1); ("reports", DList (map restart_report kc.2))])
      (sorted_items observations)))]).

(** ** What the snapshot and the inspection both show of a projection *)

(** [if ok: result[name] = make()] *)
Definition section (ok : bool) (name : string) (make : outcome value) : outcome members :=
  if ok then v ← make; Ret [(name, v)] else Ret [].
Definition counted (digest : outcome string) (state : string) : outcome value := d ← digest; Ret (count_digest d state).

(** The optional sections, in the order in which they are added. *)
Definition claim_sections (p : Projection) : outcome members :=
  let c := p_claims p in
  let outstanding m digest : outcome value :=
    d ← digest; Ret (DDict [("count", m); ("digest", DStr d); ("outstanding", DBool true)]) in
  sections ← seq_outcomes [
    section (filled (c_run_holds c)) "run_holds"
      (d ← run_holds_digest p; Ret (DDict [("count", len (c_run_holds c)); ("digest", DStr d)]));
    section (filled (c_intents c) || filled (c_confirmations c)) "reservation_claims"
      (d ← reservation_claims_digest p;
       Ret (DDict [("intents", len (c_intents c)); ("confirmations", len (c_confirmations c)); ("digest", DStr d)]));
    section (filled (c_initial_intents c)) "initial_reservation_intents"
      (outstanding (len (c_initial_intents c)) (initial_intents_digest p));
    section (filled (c_initial_confirmations c)) "initial_reservation_confirmations"
      (outstanding (len (c_initial_confirmations c)) (initial_confirmations_digest p));
    section (some_b (c_run_intent c)) "run_intent" (counted (run_intent_claim_digest p) "outstanding_unqualified");
    section (some_b (c_launch_claim c)) "launch_claim" (counted (launch_claim_digest p) UNQUALIFIED_LAUNCH);
    section (some_b (c_launch_claim c)) "spawn_release_claims" (_spawn_release_claim_summary p);
    section (some_b (c_spawn_attestation c)) "spawn_attestation_claim"
      (counted (spawn_attestation_claim_digest p) UNQUALIFIED_LAUNCH);
    section (some_b (c_release_intent c)) "release_intent_claim" (counted (release_intent_claim_digest p) UNQUALIFIED_LAUNCH);
    section (some_b (c_release_observation c)) "release_observation_claim"
      (counted (release_observation_claim_digest p) UNQUALIFIED_LAUNCH);
    section (filled (c_effect_intents c) || filled (c_effect_receipts c)) "effect_claims" (_effect_claim_summary p);
    section (filled (c_supervision_action_intents c) || filled (c_supervision_action_results c)) "supervision_action_claims"
      (_supervision_action_summary p);
    section (some_b (c_process_observation c)) "execution_claims" (_execution_claim_summary p);
    section (filled (c_reconciliation_observations c)) "reconciliation_claims" (_reconciliation_claim_summary p);
    section (filled (c_restart_reconciliations c)) "restart_reconciliation_claims" (_restart_reconciliation_summary p)];
  Ret (concat sections).

Definition head_json (h : Head) : value :=
  DDict [("commit_seq", DInt (hd_commit_seq h)); ("event_seq", DInt (hd_event_seq h));
         ("record_digest", DStr (hd_record_digest h))].
Definition holds_json (p : Projection) : value :=
  DList (map (λ kc, DDict [("code", DStr kc.1); ("since_commit_seq", DInt kc.2)]) (sorted_items (p_dispatch_holds p))).
Definition counts_json (p : Projection) (h : Head) : value :=
  DDict [("records", DInt (hd_event_seq h)); ("admissions", DInt (p_admission_count p));
         ("pending_fingerprints", len (p_pending p)); ("source_groups", len (p_baselines p))].
Definition bytes_json (p : Projection) (b : JournalBounds) : value :=
  DDict [("logical", DInt (p_logical_bytes p)); ("ordinary_limit", DInt (ordinary_bytes b));
         ("total_limit", DInt (total_bytes b))].
Definition bounds_json (b : JournalBounds) : value :=
  DDict [("max_admissions", DInt (max_admissions b)); ("max_pending_fingerprints", DInt (max_pending_fingerprints b));
         ("ordinary_bytes", DInt (ordinary_bytes b)); ("total_bytes", DInt (total_bytes b))].

(** [anchor_json] of the snapshot has [lag_at_open], [_inspect_anchor_json] [lag]. *)
Definition anchor_json (lag_key : string) (store : JournalStore) (lag : option Z) : value :=
  of_option (λ a, DDict [("counter", DInt (an_counter a)); ("commit_seq", DInt (hd_commit_seq (an_head a)));
    ("event_seq", DInt (hd_event_seq (an_head a))); (lag_key, of_option DInt lag)]) (js_anchor store).
Definition _inspect_anchor_json (store : JournalStore) (lag : option Z) : value := anchor_json "lag" store lag.
Definition _inspect_wal_found_json (store : JournalStore) : value :=
  of_option (λ w, DDict [("size", DInt (wal_size w)); ("digest", DStr (wal_digest w))]) (js_wal_found store).

(** ** The read-only surface of a handle *)
Definition front_door_status (s : RecoveryJournal) : value :=
  let recorded := of_option (λ p, DInt (p_refusal_count p)) (_visible_projection s) in
  let this_boot := DDict (map (λ kb, (kb.1, DDict (map (λ kn, (kn.1, DInt kn.2)) kb.2))) (rj_refusal_outcomes_this_boot s)) in
  let resume_state := if some_b (rj_resume_receipt s) then "resumed"
                      else if rj_resume_requested s then "not_applied" else "not_requested" in
  DDict [("refusals", DDict [("recorded", recorded); ("limit", DInt MAX_REFUSAL_RECORDS);
                             ("reserve", DInt REFUSAL_RESOLVED_RESERVE); ("this_boot", this_boot)]);
         ("resume", DDict [("this_boot", DStr resume_state)])].

(** Sorted by fingerprint, which is the key of the entry. *)
Definition pending_entries (p : Projection) : list PendingEntry :=
  (sort_keys (map (λ e, (pe_fingerprint e, e)) (values_of (p_pending p)))).*2.
Definition pending (s : RecoveryJournal) : list PendingEntry :=
  match _visible_projection s with Some p => pending_entries p | None => [] end.

Definition hold_json (d : HoldDetail) : value :=
  let '(code, scope, persisted, sqlite_error) := d in
  DDict [("code", DStr code); ("scope", DStr scope); ("persisted", DBool persisted);
         ("sqlite_error", of_option DStr sqlite_error)].

Definition snapshot (s : RecoveryJournal) : outcome value :=
  let hold := of_option hold_json (rj_hold_detail s) in
  let anchor := anchor_json "lag_at_open" (rj_store s) (rj_anchor_lag_at_open s) in
  let wal_found := _inspect_wal_found_json (rj_store s) in
  let refusals := DDict (map (λ kc, (kc.1, DDict [("count", DInt kc.2.1); ("last_source_digest", DStr kc.2.2)]))
    (rj_refusals_this_boot s)) in
  match _visible_projection s with
  | None =>
      Ret (DDict [("state", DStr (state s)); ("hold", hold); ("journal_uuid", DNone); ("generation", DNone);
        ("boot_id", DNone); ("head", DNone); ("anchor", anchor); ("wal_found", wal_found); ("dispatch_holds", DNone);
        ("counts", DNone); ("bytes", DNone); ("bounds", DNone); ("refusals_this_boot", refusals);
        ("verified_state_digest", DNone); ("pending_digest", DNone); ("state_digest", DNone)])
  | Some p =>
      head ← the (p_head p);
      bounds ← the (p_bounds p);
      dp ← pending_digest p;
      ds ← state_digest p;
      sections ← claim_sections p;
      Ret (DDict ([("state", DStr (state s)); ("hold", hold); ("journal_uuid", of_option DStr (p_journal_uuid p));
        ("generation", DInt (p_generation p)); ("boot_id", of_option DStr (p_boot_id p)); ("head", head_json head);
        ("anchor", anchor); ("wal_found", wal_found); ("dispatch_holds", holds_json p); ("counts", counts_json p head);
        ("bytes", bytes_json p bounds); ("bounds", bounds_json bounds); ("refusals_this_boot", refusals);
        ("verified_state_digest", of_option DStr (rj_verified_state_digest s)); ("pending_digest", DStr dp);
        ("state_digest", DStr ds)] ++ sections))
  end.

(** ** Verify-only inspection *)
Record Inspection := { in_report : members; in_references : gset string }.

Definition _MAX_INSPECT_PENDING : nat := 1024.
Definition _MAX_INSPECT_REFUSALS : nat := 32.
Definition _LOCK_FILENAME : string := "lock".

Definition _next_open_for (finding : Finding) : value :=
  DList [DStr (if bool_decide (fi_scope finding = "recovery") then "persist_hold" else "hold")].

Definition _inspect_finding_json (store : JournalStore) (finding : Finding) : value :=
  let in_anchor := match js_anchor store ≫= an_hold with
    | Some hold => bool_decide (ah_code hold = fi_code finding)
    | None => false
    end in
  DDict [("code", DStr (fi_code finding)); ("scope", DStr (fi_scope finding)); ("in_anchor", DBool in_anchor)].

Definition pending_json (e : PendingEntry) : value :=
  DDict [("fingerprint", DStr (pe_fingerprint e)); ("status", DStr (pe_status e)); ("values", _values_json (pe_values e));
         ("admission_id", DStr (pe_admission_id e)); ("arrival_seq", DInt (pe_arrival_seq e));
         ("source_group", DStr (pe_source_group e))].
Definition _inspect_pending_json (p : Projection) : value :=
  DList (map pending_json (take _MAX_INSPECT_PENDING (pending_entries p))).

Definition _held_report (store : JournalStore) (finding : Finding) (created : list value) (lag : option Z) : members :=
  [("mode", DStr "verify_only"); ("verdict", DStr "held"); ("reason", DNone); ("created", DList created);
   ("finding", _inspect_finding_json store finding); ("anchor", _inspect_anchor_json store lag);
   ("wal_found", _inspect_wal_found_json store); ("next_open", _next_open_for finding);
   ("journal", DNone); ("pending", DNone); ("refusals", DNone); ("resumes", DNone); ("resume", DNone)].

(** What [collect] gathers from the commits it is given. *)
Record Collected := {
  co_admitted_digests : gset string;
  co_refusals_seen : list (Z * members);
  co_last_resume : option (Z * value * value * value);
}.
Definition collect_record (c : Collected) (r : JournalRecord) : Collected :=
  if bool_decide (event_type r = "admission") then
    {| co_admitted_digests := {[text_of (get (dict_of (get (data r) "source")) "body_digest")]} ∪ co_admitted_digests c;
       co_refusals_seen := co_refusals_seen c; co_last_resume := co_last_resume c |}
  else if bool_decide (event_type r = "ingress_refusal") then
    let summary := dict_of (get (data r) "summary") in
    let refusal_members := DList (map (λ m, DList (default [] (items m))) (default [] (items (get summary "members")))) in
    {| co_admitted_digests := co_admitted_digests c;
       co_refusals_seen := co_refusals_seen c ++ [(commit_seq (position r), dict_set summary "members" refusal_members)];
       co_last_resume := co_last_resume c |}
  else if bool_decide (event_type r = "operator_action") then
    {| co_admitted_digests := co_admitted_digests c; co_refusals_seen := co_refusals_seen c;
       co_last_resume := Some (commit_seq (position r), get (data r) "operator", get (data r) "reason",
                               get (dict_of (get (data r) "inspected")) "commit_seq") |}
  else c.
Definition collected (groups : list (list JournalRecord)) : Collected :=
  foldl (foldl collect_record) {| co_admitted_digests := ∅; co_refusals_seen := []; co_last_resume := None |} groups.

(** [xs[-n:]] *)
Definition last_n {A} (n : nat) (xs : list A) : list A := drop (length xs - n) xs.

Definition _ready_report (store : JournalStore) (p : Projection) (created : list value) (lag : option Z) (seen : Collected) :
    outcome members :=
  head ← the (p_head p);
  bounds ← the (p_bounds p);
  dp ← pending_digest p;
  ds ← state_digest p;
  df ← front_door_digest p;
  sections ← claim_sections p;
  let journal := DDict ([("journal_uuid", of_option DStr (p_journal_uuid p)); ("generation", DInt (p_generation p));
    ("head", head_json head); ("dispatch_holds", holds_json p); ("counts", counts_json p head);
    ("bytes", bytes_json p bounds); ("bounds", bounds_json bounds); ("pending_digest", DStr dp); ("state_digest", DStr ds);
    ("front_door_digest", DStr df)] ++ sections) in
  let refusals := DDict [("recorded", DInt (p_refusal_count p)); ("limit", DInt MAX_REFUSAL_RECORDS);
    ("reserve", DInt REFUSAL_RESOLVED_RESERVE); ("unreserved_recorded", DInt (p_refusal_unreserved_count p));
    ("recent", DList (map (λ cs, DDict [("commit_seq", DInt cs.1); ("summary", DDict cs.2)])
      (last_n _MAX_INSPECT_REFUSALS (co_refusals_seen seen))))] in
  let resumes := DDict [("count", DInt (p_resume_count p));
    ("last", of_option (λ r, let '(seq, operator, reason, inspected) := r in
       DDict [("commit_seq", DInt seq); ("operator", operator); ("reason", reason); ("inspected_commit_seq", inspected)])
       (co_last_resume seen))] in
  let resume := DDict [("token", DStr (hd_record_digest head)); ("head_commit_seq", DInt (hd_commit_seq head))] in
  let next := if bool_decide (lag = Some 1) then [DStr "reanchor"; DStr "restart_recovery"] else [DStr "restart_recovery"] in
  Ret [("mode", DStr "verify_only"); ("verdict", DStr "ready"); ("reason", DNone); ("created", DList created);
       ("finding", DNone); ("anchor", _inspect_anchor_json store lag); ("wal_found", _inspect_wal_found_json store);
       ("next_open", DList next); ("journal", journal); ("pending", _inspect_pending_json p); ("refusals", refusals);
       ("resumes", resumes); ("resume", resume)].

(** Whether the WAL is absent beside a whole database, and whether the lock is absent. *)
Definition _inspect_preflight (h : Host) : outcome (bool * bool) :=
  match h_directory h with
  | None => Raise (JournalError "journal_argument")
  | Some directory =>
      match (_check_directory h directory;;
             wal ← h_before_lock h WAL_FILENAME;
             unverified ← match wal with
               | Some _ => Ret false
               | None =>
                   db_stat ← h_before_lock h DB_FILENAME;
                   Ret match db_stat with Some st => PAGE_SIZE <=? st_size st | None => false end
               end;
             lock ← h_before_lock h _LOCK_FILENAME;
             Ret (unverified, negb (some_b lock))) with
      | Ret answers => Ret answers
      | Raise e =>
          if bool_decide (exn_class e = "StoreError") then Raise (JournalError (exn_code e))
          else if bool_decide (exn_class e = OS_ERROR) then Raise (JournalError "journal_path_invalid")
          else Raise e
      end
  end.

Definition unverified_report : members :=
  [("mode", DStr "verify_only"); ("verdict", DStr "unverified"); ("reason", DStr "wal_absent"); ("created", DList []);
   ("finding", DNone); ("anchor", DNone); ("wal_found", DNone); ("next_open", DList [DStr "unknown"]); ("journal", DNone);
   ("pending", DNone); ("refusals", DNone); ("resumes", DNone); ("resume", DNone)].

(** The finding of the store, or else of the replay. *)
Definition verify_store : journal_st (option Finding * option Z * Scan) :=
  found ← gets js_finding;
  match found with
  | Some finding => mret (Some finding, None, scan_start)
  | None => _replay_finding
  end.

(** The body of the [try] of [inspect_recovery_journal], on a store that was opened. *)
Definition inspect_opened (created : list value) : journal_st Inspection :=
  '(finding, lag, sc) ← verify_store;
  store ← gets id;
  match finding with
  | Some finding => mret {| in_report := _held_report store finding created lag; in_references := ∅ |}
  | None =>
      let seen := collected (sc_groups sc) in
      report ← lift_outcome (_ready_report store (sc_candidate sc) created lag seen);
      mret {| in_report := report; in_references := co_admitted_digests seen |}
  end.

(** [try: ... finally: store.close()] *)
Definition finally_close {A} (m : journal_st A) : journal_st A :=
  o ← attempt m;
  close;;
  lift_outcome o.

Definition inspect_recovery_journal (h : Host) : journal_st Inspection :=
  '(unverified, lock_absent_before) ← lift_outcome (_inspect_preflight h);
  if unverified : bool then mret {| in_report := unverified_report; in_references := ∅ |} else
  opened ← attempt (open h false);
  match opened with
  | Raise e => raise (if bool_decide (exn_class e = "StoreError") then JournalError (exn_code e) else e)
  | Ret _ => finally_close (inspect_opened (if lock_absent_before : bool then [DStr "lock"] else []))
  end.

(** ** The view of the claims *)
Record ReservationClaimView := {
  cv_state : string;
  cv_code : option string;
  cv_journal_uuid : option string;
  cv_generation : option Z;
  cv_head : option Head;
  cv_intents : list ReservationIntentClaim;
  cv_confirmations : list ReservationConfirmationClaim;
  cv_digest : option string;
  cv_initial_intents : list InitialReservationIntentClaim;
  cv_initial_digest : option string;
  cv_initial_confirmations : list ReservationConfirmationClaim;
  cv_initial_confirmations_digest : option string;
}.
(** [ReservationClaimView(state, code)] *)
Definition no_view (st code : string) : ReservationClaimView :=
  {| cv_state := st; cv_code := Some code; cv_journal_uuid := None; cv_generation := None; cv_head := None; cv_intents := [];
     cv_confirmations := []; cv_digest := None; cv_initial_intents := []; cv_initial_digest := None;
     cv_initial_confirmations := []; cv_initial_confirmations_digest := None |}.

Definition ready_view (p : Projection) : outcome ReservationClaimView :=
  let c := p_claims p in
  d ← reservation_claims_digest p;
  di ← (if filled (c_initial_intents c) then d ← initial_intents_digest p; Ret (Some d) else Ret None : outcome (option string));
  dc ← (if filled (c_initial_confirmations c) then d ← initial_confirmations_digest p; Ret (Some d) else Ret None : outcome (option string));
  Ret {| cv_state := "ready"; cv_code := None; cv_journal_uuid := p_journal_uuid p; cv_generation := Some (p_generation p);
         cv_head := p_head p; cv_intents := (sorted_items (c_intents c)).*2;
         cv_confirmations := (sorted_items (c_confirmations c)).*2; cv_digest := Some d;
         cv_initial_intents := (sorted_items (c_initial_intents c)).*2; cv_initial_digest := di;
         cv_initial_confirmations := (sorted_items (c_initial_confirmations c)).*2;
         cv_initial_confirmations_digest := dc |}.

Definition view_opened : journal_st ReservationClaimView :=
  '(finding, lag, sc) ← verify_store;
  wal ← gets js_wal_found;
  match finding with
  | Some finding => mret (no_view "held" (fi_code finding))
  | None =>
      if negb (some_b wal) then mret (no_view "unverified" "wal_absent")
      else if bool_decide (lag = Some 0) then lift_outcome (ready_view (sc_candidate sc))
      else mret (no_view "unverified" "journal_tail_unverified")
  end.

Definition inspect_reservation_claim_view (h : Host) : journal_st ReservationClaimView :=
  match _inspect_preflight h with
  | Raise e => if bool_decide (exn_class e = "JournalError") then mret (no_view "unverified" (exn_code e)) else raise e
  | Ret (true, _) => mret (no_view "unverified" "wal_absent")
  | Ret (false, _) =>
      opened ← attempt (open h true);
      match opened with
      | Raise e =>
          if bool_decide (exn_class e = "StoreError") then mret (no_view "unverified" (exn_code e))
          else if bool_decide (exn_class e = OS_ERROR) then mret (no_view "unverified" "journal_open_failed")
          else raise e
      | Ret _ =>
          result ← attempt view_opened;
          closed ← catching [OS_ERROR] close;
          result ← lift_outcome result;
          mret (if some_b closed then result else no_view "unverified" "journal_close_failed")
      end
  end.

(** ** Inspecting only reads *)
#[local] Opaque sha256_hex sha256_digest _encode_slot _decode_slot verify_commit open_record _analyze_anchor genesis_uuid_conflicts.

Definition same_disk (s s' : JournalStore) : Prop := js_disk s' = js_disk s.
(** [s'] is held as [s] is, or for its process. *)
Definition latches (s s' : RecoveryJournal) : Prop :=
  rj_hold_detail s' = rj_hold_detail s ∨ ∃ code, rj_hold_detail s' = Some (code, "process", false, None).
#[local] Instance same_disk_refl : Reflexive same_disk.
Proof. done. Qed.
#[local] Instance same_disk_trans : Transitive same_disk.
Proof. intros a b c. unfold same_disk. congruence. Qed.

Lemma looks_same s s' : looks s s' → same_disk s s'.
Proof. by intros []. Qed.
Lemma touch_same : within same_disk touch.
Proof. eapply within_impl; [apply looks_same|apply touch_looks]. Qed.
Lemma step_same {A} (v : A) : within same_disk (_sqlite_step v).
Proof. eapply within_impl; [apply looks_same|apply sqlite_step_looks]. Qed.
Lemma modify_same f : (∀ s, js_disk (f s) = js_disk s) → within same_disk (modify f).
Proof. intros H. apply within_modify, H. Qed.
#[local] Hint Resolve touch_same step_same : within.
#[local] Hint Extern 1 (within same_disk (modify _)) => apply modify_same; reflexivity : within.

Lemma close_same : within same_disk close.
Proof. unfold close, catching. within_auto. Qed.
Lemma pragma_same h name value expected : within same_disk (_set_pragma h name value expected).
Proof. unfold _set_pragma. within_auto. Qed.
Lemma rows_same {A} (consume : A → JournalRecord → outcome A) acc : within same_disk (rows consume acc).
Proof.
  assert (∀ stored previous seen acc, within same_disk (rows_loop consume stored previous seen acc)) as Hloop.
  { induction stored as [|row stored IH]; intros previous seen acc'; cbn [rows_loop]; within_auto. }
  unfold rows. within_auto.
Qed.
#[local] Hint Resolve close_same pragma_same rows_same : within.
Lemma replay_finding_same : within same_disk _replay_finding.
Proof. unfold _replay_finding, scan_all. within_auto. Qed.
Lemma open_same h require_wal : within same_disk (open h require_wal).
Proof.
  unfold open, _locked, _open_steps, _verify_open, _read_anchor, _wal_found, _connect, _apply_connection_settings, _presentation_finding,
    _genesis_uuid_conflicts, set_found. within_auto.
Qed.
#[local] Hint Resolve replay_finding_same open_same : within.

(** Inspecting a journal writes nothing.  Whatever the files hold, whatever
    SQLite and the file system answer, and also when it fails or is killed: an
    inspection, and the view of the claims, leave the table and the anchor as
    they were. *)
Theorem inspection_writes_nothing h s :
  js_disk (inspect_recovery_journal h s).2 = js_disk s ∧ js_disk (inspect_reservation_claim_view h s).2 = js_disk s.
Proof.
  assert (within same_disk (inspect_recovery_journal h)) as Hi.
  { unfold inspect_recovery_journal, finally_close, inspect_opened, verify_store. within_auto. }
  assert (within same_disk (inspect_reservation_claim_view h)) as Hv.
  { unfold inspect_reservation_claim_view, view_opened, verify_store, catching. within_auto. }
  by split; [apply Hi|apply Hv].
Qed.

(** ** What cannot be reported *)
Lemma sorted_items_length {A} (m : gmap string A) : length (sorted_items m) = size m.
Proof. unfold sorted_items. by rewrite (Permutation_length (sort_keys_perm _)), length_map_to_list. Qed.

Lemma long_array_refused tag items : valid_tag tag = true → MAX_JSON_ARRAY_ITEMS < Z.of_nat (length items) →
  state_tagged tag (DList items) = Raise (JSONPolicyError "json_array_too_long").
Proof.
  intros Ht Hn. unfold state_tagged, tagged_digest. rewrite Ht. cbn [check_that mbind outcome_bind].
  unfold canonical_json. cbn [to_json _canonicalize]. rewrite length_map.
  change (1 <=? MAX_JSON_DEPTH) with true. cbn [check_that mbind outcome_bind].
  by rewrite (proj2 (Z.leb_gt _ _) Hn).
Qed.

Lemma many_run_holds_refused p : MAX_JSON_ARRAY_ITEMS < Z.of_nat (size (c_run_holds (p_claims p))) →
  run_holds_digest p = Raise (JSONPolicyError "json_array_too_long") ∧ claim_sections p = Raise (JSONPolicyError "json_array_too_long").
Proof.
  intros Hn. assert (run_holds_digest p = Raise (JSONPolicyError "json_array_too_long")) as Hd.
  { apply long_array_refused; [done|]. by rewrite length_map, sorted_items_length. }
  split; [done|]. unfold claim_sections. cbn [seq_outcomes]. unfold section at 1.
  assert (filled (c_run_holds (p_claims p)) = true) as ->.
  { unfold filled. unfold MAX_JSON_ARRAY_ITEMS in Hn. destruct (size _); [lia|done]. }
  by rewrite Hd.
Qed.

(** A journal with more than 256 run holds cannot be reported.  The digest
    of the run holds encodes them as one array, and the encoder refuses arrays
    of more than 256 items, while a journal may have 1024 run holds: from the
    257th on [snapshot] raises, and so does the inspection of a journal it
    found intact. *)
Theorem many_run_holds_cannot_be_reported p : MAX_JSON_ARRAY_ITEMS < Z.of_nat (size (c_run_holds (p_claims p))) →
  run_holds_digest p = Raise (JSONPolicyError "json_array_too_long") ∧
  (∀ s v, _visible_projection s = Some p → snapshot s ≠ Ret v) ∧
  (∀ store created lag seen report, _ready_report store p created lag seen ≠ Ret report).
Proof.
  intros Hn. destruct (many_run_holds_refused p Hn) as [Hd Hs]. split_and!; [done|..].
  - intros s v Hp H. unfold snapshot in H. rewrite Hp, Hs in H. by inv_do.
  - intros store created lag seen report H. unfold _ready_report in H. rewrite Hs in H. by inv_do.
Qed.

(** ** What an inspection says of the next open *)
#[local] Instance latches_refl : Reflexive latches.
Proof. by left. Qed.
#[local] Instance latches_trans : Transitive latches.
Proof. intros a b c [H|H] [H'|H']; [left; congruence|by right|right; by rewrite H'|by right]. Qed.

Lemma on_store_latches {A} (m : journal_st A) : within latches (on_store m).
Proof. intros s. unfold on_store, zoom. destruct (m (rj_store s)) as [o st']. by left. Qed.
Lemma modify_latches f : (∀ s, rj_hold_detail (f s) = rj_hold_detail s) → within latches (modify f).
Proof. intros H. apply within_modify. intros s. left. apply H. Qed.
Lemma latch_latches code : within latches (_latch code "process").
Proof. apply within_modify. intros s. unfold latches, latch. destruct (rj_hold_detail s) eqn:E; cbn [some_b]; [by left|right; by exists code]. Qed.
#[local] Hint Resolve on_store_latches latch_latches : within.
#[local] Hint Extern 1 (within latches (modify _)) => apply modify_latches; reflexivity : within.
Ltac latches_auto := unfold latched_error, _read_admit_stamp, projection, _mint_id, _read_clock; within_auto.

Lemma commit_latches plan sync : within latches (_commit plan sync).
Proof. unfold _commit. latches_auto. Qed.
#[local] Hint Resolve commit_latches : within.
Lemma restart_latches lag wal : within latches (_run_restart_recovery lag wal).
Proof. unfold _run_restart_recovery, write_anchor_again, committed. latches_auto. Qed.
Lemma resume_latches resume : within latches (_resume_at_open resume).
Proof. unfold _resume_at_open, committed. latches_auto. Qed.

(** A journal is held at open on the finding it was opened with. *)
Lemma held_journal_held finding boot lag requested s :
  ends (_held_journal finding boot lag requested) s (λ _ s', hold s' = Some (fi_code finding, fi_scope finding) ∧ state s' ≠ "ready") (λ _ _, True).
Proof.
  unfold _held_journal. apply ends_bind. eapply ends_mono; [apply (ends_total (λ _ _, True)); intros ?; exact I| |done].
  intros _ s1 _. repeat ends_step. eapply ends_mono; [apply (ends_total (λ _ _, True)); intros ?; exact I| |done].
  intros _ s2 _. ends_step. by split.
Qed.
Lemma held_journal_same finding boot lag requested s : fi_scope finding = "process" →
  js_disk (rj_store (_held_journal finding boot lag requested s).2) = js_disk (rj_store s).
Proof.
  intros Hp. assert (within (λ s s' : RecoveryJournal, same_disk (rj_store s) (rj_store s')) (_held_journal finding boot lag requested)) as H; [|apply H].
  assert (Reflexive (λ s s' : RecoveryJournal, same_disk (rj_store s) (rj_store s'))) as HR by (intros ?; done).
  assert (Transitive (λ s s' : RecoveryJournal, same_disk (rj_store s) (rj_store s'))) as HT by (intros a b c; unfold same_disk; congruence).
  assert (within (λ s s' : RecoveryJournal, same_disk (rj_store s) (rj_store s')) (on_store close)) as Hc.
  { intros s0. pose proof (close_same (rj_store s0)) as Hx. unfold on_store, zoom. by destruct (close (rj_store s0)). }
  unfold _held_journal. rewrite (bool_decide_false (fi_scope finding = "recovery")) by congruence.
  within_auto; first [exact Hc|by apply within_modify].
Qed.

(** What the body of an open does, seen from the verification of its store. *)
Definition foretold (finding : option Finding) (token : string) (resume : option ResumeRequest) (disk : Disk)
    (returned : bool) (s' : RecoveryJournal) : Prop :=
  match finding with
  | Some f => returned = true → hold s' = Some (fi_code f, fi_scope f)
  | None =>
      (returned = true → ∀ code scope, hold s' = Some (code, scope) → scope = "process") ∧
      (∀ r, resume = Some r → rq_token r ≠ DStr token →
         js_disk (rj_store s') = disk ∧ (returned = true → state s' ≠ "ready"))
  end.

Lemma foretold_raised finding token resume disk s' : js_disk (rj_store s') = disk → foretold finding token resume disk false s'.
Proof. intros H. destruct finding; cbn; [done|]. split; [done|]. by intros. Qed.

Lemma foretold_same finding token resume disk s s' : foretold finding token resume disk false s →
  js_disk (rj_store s') = js_disk (rj_store s) → foretold finding token resume disk false s'.
Proof. intros H Hd. destruct finding; cbn in *; [done|]. split; [done|]. intros r E Hr. rewrite Hd. split; [by eapply H|done]. Qed.

Lemma token_foretold token resume disk returned s' : (∀ r, resume = Some r → rq_token r = DStr token) →
  (returned = true → ∀ code scope, hold s' = Some (code, scope) → scope = "process") → foretold None token resume disk returned s'.
Proof. intros Hr Hp. split; [done|]. intros r E. by rewrite (Hr r E). Qed.

Lemma held_journal_foretold finding f token resume boot lag requested disk s : js_disk (rj_store s) = disk →
  finding = Some f ∨ finding = None ∧ fi_scope f = "process" →
  ends (_held_journal f boot lag requested) s (λ _, foretold finding token resume disk true) (λ _, foretold finding token resume disk false).
Proof.
  intros Hd Hf. apply run_ends. intros o s' E.
  pose proof (held_journal_held f boot lag requested s) as Hh. pose proof (held_journal_same f boot lag requested s) as Hs. rewrite E in Hs.
  destruct Hf as [->|[-> Hp]].
  - destruct o as [u|e]; [|done]. destruct (ends_run _ _ _ _ _ _ Hh E) as [Hh' _]. by intros _.
  - specialize (Hs Hp). cbn [snd] in Hs. rewrite Hd in Hs. destruct o as [u|e]; [|by apply foretold_raised].
    destruct (ends_run _ _ _ _ _ _ Hh E) as [Hh' Hr]. split; [|done]. intros _ code scope. rewrite Hh'. intros [= _ <-]. done.
Qed.

Lemma latched_foretold {A} (m : handle_st A) s token resume disk : within latches m → hold s = None →
  (∀ r, resume = Some r → rq_token r = DStr token) →
  ends m s (λ _, foretold None token resume disk true) (λ _, foretold None token resume disk false).
Proof.
  intros Hm Hn Hr. eapply ends_mono; [by apply (ends_total latches)|..].
  - intros ? s' Hl. cbv beta in Hl. apply token_foretold; [done|]. intros _ code scope Hh. unfold hold in *.
    destruct (rj_hold_detail s) eqn:E; [done|]. destruct Hl as [Hl|[c Hl]]; rewrite Hl in Hh; [by rewrite E in Hh|].
    cbn in Hh. congruence.
  - intros ? s' _. by apply token_foretold.
Qed.

Lemma open_verified_foretold h resume s finding lag sc st2 token : verify_store (rj_store s) = (Ret (finding, lag, sc), st2) →
  (finding = None → ∃ head, p_head (sc_candidate sc) = Some head ∧ hd_record_digest head = token) →
  ends (_open_verified h resume) s (λ _, foretold finding token resume (js_disk (rj_store s)) true)
    (λ _, foretold finding token resume (js_disk (rj_store s)) false).
Proof.
  intros Hv Htoken. assert (js_disk st2 = js_disk (rj_store s)) as Hdisk.
  { assert (within same_disk verify_store) as Hw by (unfold verify_store; within_auto). specialize (Hw (rj_store s)). by rewrite Hv in Hw. }
  unfold _open_verified. cbn zeta. ends_step. ends_call (ends_total bookkeeping _ s mint_bookkeeping).
  2: { intros _ s1 [Hst _ _ _]. apply foretold_raised. by rewrite Hst. }
  intros boot s1 [Hst _ _ _]. do 3 ends_step.
  eapply (ends_mono _ _ (λ r s2, r = (finding, lag, sc) ∧ rj_store s2 = st2) _ (λ _ _, False)); [| |done].
  { rewrite <-Hst in Hv. unfold verify_store, mbind, st_bind, gets in Hv. destruct (js_finding (rj_store s1)) as [f|].
    - ends_step. unfold mret, st_ret in Hv. split; congruence.
    - unfold ends, on_store, zoom. by rewrite Hv. }
  intros _ s2 [-> Hs2]. rewrite <-Hs2 in Hdisk. clear Hv Hst Hs2. cbn zeta.
  destruct finding as [f|]; [|destruct boot as [boot|]].
  - repeat ends_step; [|done]. apply held_journal_foretold; [done|by left].
  - destruct (Htoken eq_refl) as (head & Hhead & <-). rewrite Hhead. ends_step.
    eapply (ends_mono _ _ (λ hd s3, s3 = s2 ∧ (resume ≠ None → hd = head)) _ (λ _ _, False)); [| |done].
    { destruct resume as [r|]; repeat ends_step; naive_solver. }
    intros hd _ [-> Hhd]. ends_step. ends_step.
    2: { by apply foretold_raised. }
    assert (∀ r, resume = Some r → rq_token r = DStr (hd_record_digest head)) as Hr.
    { intros r ->. rewrite Hhd in * by done. by bool_simpl. }
    apply ends_bind. eapply ends_mono; [apply (ends_total (λ _ _, True)); intros ?; exact I| |].
    2: { intros e s3 _. by apply token_foretold. }
    intros [[]|] s3 _; cbv beta; cbn iota.
    + ends_step. ends_step; [|by apply token_foretold]. ends_step. ends_step. apply latched_foretold; [|done|done].
      apply within_bind; [apply _|within_auto|]. intros wal.
      apply within_bind; [apply _|apply restart_latches|]. intros _. within_auto. apply resume_latches.
    + ends_call held_journal_held; [|intros; by apply token_foretold]. intros _ s4 [Hh _]. apply token_foretold; [done|].
      intros _ code scope. rewrite Hh. by intros [= _ <-].
  - repeat ends_step; [|done]. apply held_journal_foretold; [done|by right].
Qed.

Lemma open_recovery_foretold h resume s st1 finding lag sc st2 token : open h false (rj_store (reset s)) = (Ret tt, st1) →
  verify_store st1 = (Ret (finding, lag, sc), st2) →
  (finding = None → ∃ head, p_head (sc_candidate sc) = Some head ∧ hd_record_digest head = token) →
  ends (open_recovery_journal h resume) s (λ _, foretold finding token resume (js_disk (rj_store s)) true)
    (λ _, foretold finding token resume (js_disk (rj_store s)) false).
Proof.
  intros Ho Hv Htoken. unfold open_recovery_journal. ends_step.
  eapply (ends_mono _ _ (λ _ s1, s1 = s) _ (λ _ s1, s1 = s)); [destruct resume; by repeat ends_step| |].
  2: { intros ? ? ->. by apply foretold_raised. }
  intros _ ? ->. repeat ends_step. unfold on_store. ends_step. unfold ends at 1. rewrite Ho. cbn [fst snd].
  assert (js_disk st1 = js_disk (rj_store s)) as Hd.
  { pose proof (open_same h false (rj_store (reset s))) as H. by rewrite Ho in H. }
  unfold store_error. ends_step. ends_step. ends_step. ends_step.
  ends_call (open_verified_foretold h resume (set_rj_store st1 (reset s)) finding lag sc st2 token); [done|done|..].
  - intros ? s' H. rewrite <-Hd. by ends_step.
  - intros e s' H. rewrite <-Hd. do 3 ends_step. unfold on_store. ends_step. ends_call (ends_total same_disk _ (rj_store s') close_same);
      intros ? st' Hst; [ends_step|]; by eapply foretold_same.
Qed.

(** The report of an inspection that found the files there. *)
Lemma inspected_run h st0 insp st' : inspect_recovery_journal h st0 = (Ret insp, st') → in_report insp ≠ unverified_report →
  ∃ created st1 finding lag sc st2, open h false st0 = (Ret tt, st1) ∧ verify_store st1 = (Ret (finding, lag, sc), st2) ∧
    match finding with
    | Some f => in_report insp = _held_report st2 f created lag
    | None => _ready_report st2 (sc_candidate sc) created lag (collected (sc_groups sc)) = Ret (in_report insp)
    end.
Proof.
  intros H Hu. unfold inspect_recovery_journal in H. unfold mbind, st_bind, lift_outcome in H.
  destruct (_inspect_preflight h) as [[[] absent]|]; [unfold mret, st_ret in H; by injection H as <- _| |done].
  unfold attempt in H. destruct (open h false st0) as [[[]|] st1] eqn:Eo; [|done]. unfold finally_close, mbind, st_bind, attempt in H.
  set (created := if absent : bool then _ else _) in H. exists created, st1.
  destruct (inspect_opened created st1) as [o st3] eqn:Ei. destruct (close st3) as [[[]|] st4]; [|done].
  unfold lift_outcome in H. destruct o as [i|]; [|done]. injection H as -> _.
  unfold inspect_opened, mbind, st_bind in Ei. destruct (verify_store st1) as [[[[finding lag] sc]|] st2]; [|done].
  exists finding, lag, sc, st2. split_and!; [done..|]. unfold gets in Ei. destruct finding as [f|].
  - unfold mret, st_ret in Ei. by injection Ei as <- _.
  - cbn zeta in Ei. unfold lift_outcome, mret, st_ret, mbind, st_bind in Ei.
    destruct (_ready_report _ _ _ _ _) as [report|]; [|done]. by injection Ei as <- _.
Qed.

Definition verdict (insp : Inspection) : value := get (in_report insp) "verdict".
(** Code and scope of the finding, and the token, that a report names. *)
Definition reported_finding (insp : Inspection) : value * value :=
  let f := dict_of (get (in_report insp) "finding") in (get f "code", get f "scope").
Definition reported_token (insp : Inspection) : value := get (dict_of (get (in_report insp) "resume")) "token".

Lemma ready_report_token store p created lag seen report : _ready_report store p created lag seen = Ret report →
  get report "verdict" = DStr "ready" ∧ ∃ head, p_head p = Some head ∧
    get (dict_of (get report "resume")) "token" = DStr (hd_record_digest head).
Proof.
  unfold _ready_report. intros H. destruct (p_head p) as [head|] eqn:Eh; [|done]. cbn [the mbind outcome_bind] in H.
  repeat (match goal with X : mbind _ ?o = Ret _ |- _ => destruct o eqn:?; [cbn [mbind outcome_bind] in X|discriminate X] end).
  injection H as <-. split; [done|]. by exists head.
Qed.

(** C11: An inspection foretells the next open.  Run on the same files with the
    same answers: where the inspection reports a finding, an open that returns
    is held on that finding, with its code and scope; where it reports the
    journal ready, an open that returns is held for its process at most, and a
    resume with another token than the one reported leaves the disk untouched
    and the handle not ready. *)
Theorem inspection_foretells_open h resume s insp st' o s' :
  inspect_recovery_journal h (rj_store (reset s)) = (Ret insp, st') → open_recovery_journal h resume s = (o, s') →
  (verdict insp = DStr "held" → o = Ret tt →
     ∃ code scope, reported_finding insp = (DStr code, DStr scope) ∧ hold s' = Some (code, scope)) ∧
  (verdict insp = DStr "ready" →
     (o = Ret tt → ∀ code scope, hold s' = Some (code, scope) → scope = "process") ∧
     ∀ r, resume = Some r → rq_token r ≠ reported_token insp →
       js_disk (rj_store s') = js_disk (rj_store s) ∧ (o = Ret tt → state s' ≠ "ready")).
Proof.
  intros Hi Ho. destruct (decide (in_report insp = unverified_report)) as [E|E].
  { unfold verdict. rewrite E. by split. }
  destruct (inspected_run h _ insp st' Hi E) as (created & st1 & finding & lag & sc & st2 & Hopen & Hv & Hr).
  set (token := text_of (reported_token insp)).
  assert (finding = None → verdict insp = DStr "ready" ∧ reported_token insp = DStr token ∧
    ∃ head, p_head (sc_candidate sc) = Some head ∧ hd_record_digest head = token) as Hready.
  { intros ->. destruct (ready_report_token _ _ _ _ _ _ Hr) as (Hverdict & head & Hh & Ht). unfold token, reported_token.
    rewrite Ht. split_and!; [done|done|by exists head]. }
  assert (foretold finding token resume (js_disk (rj_store s)) (returned o) s') as Hf.
  { pose proof (ends_run _ _ _ _ _ _ (open_recovery_foretold h resume s st1 finding lag sc st2 token Hopen Hv ltac:(naive_solver)) Ho) as H.
    by destruct o as [[]|]. }
  destruct finding as [f|].
  - unfold verdict, reported_finding. rewrite Hr. split; [|done]. intros _ ->. exists (fi_code f), (fi_scope f). split; [done|by apply Hf].
  - destruct (Hready eq_refl) as (Hverdict & Htoken & _). rewrite Hverdict, Htoken. destruct Hf as [Hf1 Hf2].
    split; [done|]. intros _. split; [by intros ->; apply Hf1|]. intros r Er Hne. destruct (Hf2 r Er Hne) as [Hd Hst]. split; [done|]. intros ->. by apply Hst.
Qed.

(** ** Witnesses *)
Definition demo_hold : RunHold := {| rh_admission_id := "a"; rh_reason := "restart_recovery"; rh_since_commit_seq := 1; rh_member_digest := "" |}.
(** 257 run holds. *)
Definition demo_held : Projection :=
  {| p_journal_uuid := None; p_generation := 1; p_bounds := Some JournalReplayThm.demo_bounds; p_head := None; p_boot_id := None; p_last_mono_us := 0;
     p_seen_boot_ids := ∅; p_logical_bytes := 0; p_admission_count := 0; p_last_arrival_seq := 0; p_baselines := ∅; p_pending := ∅;
     p_claims := foldr (λ n c, apply_claim c (RunHoldAdd (hex_word 4 (Z.of_nat n)) demo_hold)) no_claims (seq 0 257);
     p_dispatch_holds := ∅; p_refusal_keys := ∅; p_refusal_count := 0; p_refusal_unreserved_count := 0; p_resume_count := 0;
     p_last_resume_commit_seq := None; p_boot_start_commit_seq := None; p_boot_start_record_digest := None;
     p_boot_recovered := None |}.
Lemma many_run_holds_cannot_be_reported_witness : size (c_run_holds (p_claims demo_held)) = 257%nat ∧
  run_holds_digest demo_held = Raise (JSONPolicyError "json_array_too_long").
Proof.
  assert (size (c_run_holds (p_claims demo_held)) = 257%nat) as Hn by (vm_compute; reflexivity).
  split; [exact Hn|]. apply (many_run_holds_cannot_be_reported demo_held). rewrite Hn. reflexivity.
Defined.

Definition demo_stale : ResumeRequest := {| rq_token := DStr ZERO_DIGEST; rq_operator := DStr "op"; rq_reason := DStr "why" |}.
Definition demo_inspected : bool :=
  match (inspect_recovery_journal (demo_host true) (rj_store (reset demo_s1))).1 with
  | Ret insp => bool_decide (verdict insp = DStr "ready") && negb (bool_decide (DStr ZERO_DIGEST = reported_token insp))
  | Raise _ => false
  end.
Lemma demo_inspected_ready : demo_inspected = true.
Proof. vm_compute. reflexivity. Qed.

Lemma inspection_foretells_open_witness :
  js_disk (rj_store (open_recovery_journal (demo_host true) (Some demo_stale) demo_s1).2) = js_disk (rj_store demo_s1).
Proof.
  pose proof demo_inspected_ready as H. unfold demo_inspected in H.
  destruct (inspect_recovery_journal (demo_host true) (rj_store (reset demo_s1))) as [[insp|] st'] eqn:Ei; [|discriminate H].
  cbn [fst] in H. apply andb_true_iff in H as [Hv%bool_decide_eq_true Ht]. apply negb_true_iff, bool_decide_eq_false in Ht.
  destruct (open_recovery_journal (demo_host true) (Some demo_stale) demo_s1) as [o s'] eqn:Eo.
  destruct (inspection_foretells_open (demo_host true) (Some demo_stale) demo_s1 insp st' o s' Ei Eo) as [_ Hr].
  exact (proj1 (proj2 (Hr Hv) demo_stale eq_refl Ht)).
Defined.
